(* ===== verification/_CoqProject ===== *)
-Q . S2P
Prelude.v
Wire.v
Protocol.v
Layout.v
Backend.v
Stub.v
Frameworks.v
PixelCopy.v
Sim.v
PoolDirectory.v
VtReal.v
VtDispatch.v
VtDecode.v
VtQueue.v
VtRead.v
VtInv.v
VtSystem.v
Leases.v
Server.v
Transport.v
Objects.v
Release.v
Refcount.v
ReleaseSafe.v
CoreFoundation.v
Ownership.v
Access.v
Bitstream.v
CoreMedia.v
CoreVideo.v
Pixels.v
Attachments.v
Samples.v
Client.v
VideoClient.v
DecodeFormat.v
VideoToolbox.v
Platform.v
Pending.v
Properties.v
Sessions.v
SessionProps.v
Decompression.v
Link.v
LinkVt.v
VtServer.v
Mock.v
MockInv.v
MockProps.v
LinkMock.v
Broker.v
BrokerProps.v
Bridge.v
BridgeProps.v
Launch.v
Harness.v
HarnessProps.v
Worker.v
Connect.v
Probe.v
