(* ===== verification/Prelude.v ===== *)
(** * vt-ferry: verification library

    vt-ferry lets a Linux guest use the VideoToolbox encoder and decoder of its
    macOS host.  A guest shim with the Apple C ABI ([crates/vt-ferry-shim]) sends
    requests over a Unix socket, in the format of [crates/vt-ferry-protocol], to
    a host worker ([crates/vt-ferry-worker]).  The worker serves each
    connection in its own thread with a backend of its own ([mock], [vt_stub] or
    [vt_real]); the backends of one process share a directory of IOSurface
    pools, which a broker ([crates/vt-ferry-broker]) allocates and registers.

    ** Files

    - [Prelude] (this file): Rust integers ([rust], [arith], [wrap]; a panic is a
      value), slices ([slice], [write_at]), [Vec] and iterator operations
      ([position], [retain], [update], [remove_at]) and their lemmas; the hint
      database and tactics.
    - [Wire]: [bytemuck::Pod] as a class: a codec between values and their
      [repr(C)] bytes, with the round trips every message needs.
    - [Protocol]: [vt-ferry-protocol/src/lib.rs]: opcodes, status codes,
      capability bits, limits, and one record with its [Pod] instance per message
      struct.
    - [Layout]: the plane layouts of the mock ([fill_buffer_layout]), the worker
      ([vtf_fill_buffer_layout], [vtf_buffer_total_size]) and the guest
      ([vtf_decode_layout_for_format]), and the broker's slot size
      ([pool_slot_alloc_size]).
    - [Backend]: the [Backend] trait as a class.  A handler is a program of the
      monad [M]: it reads and changes the backend, the response header and the
      response buffer, returns early with a status, or panics; [hwp] is the
      weakest precondition of such a program.  [BackendSound] is what the connection
      loop relies on: a dispatch keeps the response buffer's length and answers
      with at most that many bytes.
    - [Stub]: [vt_stub.rs].
    - [VtServer]: the VideoToolbox backend as a [BackendSound], alone and with its
      world changing in any way between two requests ([shared_backend]).
    - [Server]: [server.rs]: [handle_connection] over a stream of bytes,
      for any [Backend].
    - [Mock], [MockInv], [MockProps]: [mock.rs]; its invariant; its properties.
    - [Frameworks]: the parameters: the CoreVideo, CoreMedia, VideoToolbox and
      IOSurface calls the worker makes are the members of the class
      [Frameworks], over an abstract host state and a byte memory; and the
      wrappers of [iosurface_bridge.rs].
    - [PoolDirectory]: [iosurface_pool_directory.rs].
    - [PixelCopy]: the two pixel copy routines of [vt_real.rs].
    - [Sim]: a concrete host, an instance of [Frameworks], on which the
      theorems are evaluated.
    - [VtReal], [VtDispatch]: [vt_real.rs]: the backend's state, callbacks, [Drop]
      and methods; one definition per opcode arm and [vt_dispatch].
    - [VtDecode], [VtQueue], [VtRead]: the decode path: delivery of encoded
      frames (inline and in chunks), the queue of decoded frames, the chunked
      read of a decoded frame.
    - [VtInv], [VtSystem]: the invariant of the VideoToolbox backend, kept by
      every arm whatever the frameworks answer; the worker process as a step
      relation over all its connections, which meet at the directory's lock.
    - [Leases]: the layouts in the VideoToolbox backend's replies to
      [OP_ALLOC_BUFFER] are computed ones.
    - [Transport]: [vt-ferry-shim/src/transport.rs], the guest's client side, over
      the class [Net] of socket, clock and connection calls.
    - [Link], [LinkVt], [LinkMock]: [Transport] connected to [Server] with a
      backend: calls of the guest as dispatches of the worker.
    - [Objects]: the guest's heap of C-ABI objects ([runtime.rs] and the structs and
      exported constants of the other files).  A pointer is an address, [0] is
      null; bytes are in numbered blocks; reading freed memory, a wrong type or
      out of bounds is the outcome [UB], a panic [Aborted].
    - [Release]: [CFRelease] and the finalize hooks of all object types.
    - [Refcount], [ReleaseSafe]: the counting invariant [heap_ok] and its
      preservation by release; [counted] is its form between calls.
    - [CoreFoundation], [Ownership], [Client]: [corefoundation.rs]; what each
      function does to the references its caller owns; programs that keep the
      ownership rules.
    - [Bitstream], [CoreMedia], [DecodeFormat]: the configuration record parsers;
      [coremedia.rs]; the packing of a decode format ([videotoolbox.rs]).
    - [CoreVideo], [Access], [Pixels], [Attachments], [VideoClient]:
      [corevideo.rs]; reading and writing blocks; what pools, buffers, locks and
      plane pointers do to the heap; the attachment dictionary; programs that use
      them.
    - [VideoToolbox], [Decompression]: the compression and the decompression
      sessions of [videotoolbox.rs], over the class [App] of the application's
      callbacks, [malloc] and [sleep], which read and change the state of the
      platform.
    - [Platform]: the system calls between two callbacks, as a relation on that
      state ([os_runs]).
    - [Pending], [Properties]: the frames under way as a queue; the properties of a
      session.
    - [Samples], [Sessions], [SessionProps]: the block buffers, format descriptions
      and sample buffers an output is made of; the delivery of outputs to callbacks
      that run any code keeping the ownership rules; sequences of session calls.
    - [Broker], [BrokerProps]: the parts of [vt-ferry-broker], the look-up of the
      registered ports and the choice of backend in the worker's [main.rs]; what
      they promise.
    - [Bridge], [BridgeProps]: [tcp_bridge.rs] of the broker: the accepting thread, a
      bridged connection as the interleaving of its two copying threads with the
      guest and the worker's loop, and the set-up of a connection.
    - [Launch]: [main] of the broker, from the parsed arguments on, and what a run
      leaves behind.
    - [Worker]: [run_server] and [main] of the worker: the accept loop and the exit
      codes.
    - [Connect]: the socket calls behind [net_connect] of [Transport].
    - [Probe]: [hvf-iosurface-probe/src/main.rs].
    - [Harness], [HarnessProps]: [zero-copy-harness/src/main.rs], over the connection
      of [Link] to the VideoToolbox worker.

    ** What the theorems show

    - Server: for each of the three backends the connection loop terminates, answers
      every request once and in order with the bytes its dispatch says, each
      dispatch being given the response buffer as the one before left it, closes
      on oversized requests without reading on, and never reports a failed dispatch
      as success.  The replies of the stub and the mock do not depend on what the
      buffer held ([BackendSpec]); those of the VideoToolbox backend do, in the
      padding of [OP_READ_DECODED_FRAME].
    - Mock: an invariant of all reachable states, no panic, the round trip and
      isolation of buffer writes, rejection of stale handles, FIFO outputs,
      zeroed allocations, the encode/release cycle, session teardown.
    - VideoToolbox backend: a chunked frame reaches the decoder once, complete
      and in order, and as the inline request would deliver it; decoded frames
      and errors come out in order; a chunked read reassembles the flattened
      frame; in every reachable state of the process the backends are well formed
      and no two pools hold the same IOSurface, but for pools whose entry
      [OP_DESTROY_SESSION] or [Drop] gave back and whose record is yet to be removed
      ([released_pool_shares_surface] is a run through such a moment).
    - Directory and layouts: claims are exclusive and bounded by the free
      entries, a released entry can be claimed again, loading gives every spec a
      surface of its id while there are any, and neither drops nor shares surfaces; the layout routines agree and tile the frame.
    - Broker: on every path of [main] the surfaces, ports, processes and bridges it
      made are gone when it returns, but for the worker of a vsock run that cannot
      execute its program; the worker it starts serves the pools it was asked for;
      the slots of an NV12 pool below 2 GiB lie inside its surface (not those of
      every BGRA pool).
    - Bridge: a bridged connection shows both sides prefixes of what a direct one
      would, and all of it when nothing failed; once the guest has closed it, and
      while it reads, it ends (sockets hold a bounded number of bytes, and a write
      waits; after a failed write towards the guest the connection can wait for
      ever, [write_error_blocks_bridge]); its set-up leaks no descriptor; dropping
      the handle stops the accepting thread within three steps.
    - Worker process: every connection accepted is handed to one thread, in order, with
      a backend of the factory selected; connecting leaks no descriptor; the probe
      closes what it opens.
    - Harness: it cannot pass with this worker, which names one surface for all the
      slots of a pool where the harness expects one a slot.
    - Guest and worker: a call of the guest's transport is one dispatch of the
      worker's backend with its reply; a frame the guest sends is decoded once; a
      failure is final; one large frame ends the transport.
    - Guest objects: [CFRelease] returns whatever the objects refer to; programs
      that keep the ownership rules never reach freed memory and leak nothing;
      dictionaries and attachments return what was set; every row of a plane the
      guest is given is inside the buffer's memory.  The layout of a lease is the
      one part of the worker's answers this rests on, as the guest does not check it:
      safety asks that it lies within the lease's size ([worker_ok]), the bounds of
      planes that it is a computed one ([computed_leases], which [Leases] proves of
      the worker's).
    - Sessions: the frames under way form a queue, whatever the growth of its
      arrays, and a push fails exactly when one of its own allocations does; a property is copied as it was set, with exact reference counts; an
      output reaches the callback with the bytes and parameter sets the worker sent;
      sequences of calls with callbacks between them keep every count exactly the
      references the caller, the application's own list of what it holds ([ledger])
      and the other objects have.
    - Decode formats: the parsers compute the grammar on every input and undo
      writing; the parameter sets of a program are those the worker slices.

    ** Modelling choices

    - [Profile] says whether arithmetic overflow panics (debug) or wraps
      (release); theorems hold for both unless they say otherwise.  [usize] is
      64 bits wide.
    - Loops are recursive functions.  Fuel is used in [connection_loop] and
      [parse_frames] (the length of the input, of which every iteration consumes
      at least a header; [handle_connection_refines] shows it is enough), in
      [CFRelease] (one more than there are objects; [release_returns]), in
      [split_units] (one more than the data; [split_total]), in the loops of
      [Transport] (the number of bytes left), in [connect_loop] (a tenth of the
      timeout; [connect_retry_ends]), and as an argument, one unit an iteration,
      in the loops that run as long as the worker has outputs or a process lives
      ([deliver_loop], [drain_loop], [supervise], [signal_loop], the connection
      attempts of the harness).
    - Threads that share sockets or a flag take their steps, one call each, in any
      order: runs of [conn_step] and [listen_step] range over all schedules.
    - Addresses of the guest's heap are not reused, and its allocations do not fail;
      a use of freed memory is thus always seen.  The guest's calls run one at a
      time: the atomicity of the reference counts is not at stake.
    - The iteration order of a [HashMap] is the parameter [hash_iter];
      [serde_json] and the environment are parameters of [dir_load] and
      [reset_from_env].
    - VideoToolbox runs the output callbacks on its own threads.  In the model a
      callback runs inside the framework call that reports it, or between two
      requests ([step_callback]), not in the middle of a handler.
    - A panic ends its connection thread; the state it leaves is not a state of
      the system model.
    - Retain counts and the deallocation of framework objects are not
      modelled, nor are writes outside the slices the code has computed.
    - DTrace probes and log output have no effect on the state and are left out.

    Not modelled: argument parsing ([clap]) and log lines, the transfer of Mach ports
    to a child (a hypothesis of [broker_pools_reach_worker]), the accessors of
    [iosurface_bridge.rs] that only its tests call, and the DTrace probes. *)


From Stdlib Require Export ZArith Lia.
From coqutil Require Export Byte.
From stdpp Require Export base list gmap numbers.

Set Default Goal Selector "!".
Open Scope Z_scope.

(** ** Rust integer arithmetic

    A [w]-bit unsigned integer is a [Z] in [0, 2^w).  Whether an overflow
    panics or wraps depends on the build profile ([overflow-checks]): debug
    builds panic, release builds wrap.  Every definition is parametric in the
    profile, and a panic is a value of [rust]. *)

Class Profile := overflow_checks : bool.
Definition debug_build : Profile := true.
Definition release_build : Profile := false.

Inductive rust (A : Type) : Type :=
| Val (a : A)
| Panic.
Arguments Val {A} a.
Arguments Panic {A}.

#[export] Instance rust_ret : MRet rust := @Val.
#[export] Instance rust_bind : MBind rust :=
  fun A B f m => match m with Val a => f a | Panic => Panic end.
#[export] Instance rust_fmap : FMap rust :=
  fun A B f m => match m with Val a => Val (f a) | Panic => Panic end.

Definition in_width (w z : Z) : bool := (0 <=? z) && (z <? 2 ^ w).

Definition wrap (w z : Z) : Z := z mod 2 ^ w.

(** [x as i32] (and the other signed casts): two's complement. *)
Definition as_signed (w z : Z) : Z := (z + 2 ^ (w - 1)) mod 2 ^ w - 2 ^ (w - 1).

(** The result of an arithmetic operator whose mathematical value is [z]. *)
Definition arith `{Profile} (w z : Z) : rust Z :=
  if in_width w z then Val z
  else if overflow_checks then Panic else Val (wrap w z).

(** [checked_*] of [usize]/[u64]: [None] on overflow, in every profile. *)
Definition checked (w z : Z) : option Z :=
  if in_width w z then Some z else None.

Definition saturating_sub (a b : Z) : Z := Z.max 0 (a - b).

Definition U32_MAX : Z := 2 ^ 32 - 1.
Definition ISIZE_MAX : Z := 2 ^ 63 - 1.

(** Length of a slice as a [usize] value. *)
Abbreviation len l := (Z.of_nat (length l)).

(** ** Slices

    [slice off n l] is [&l[off..off+n]] and [write_at off bs l] is
    [l[off..off+bs.len()].copy_from_slice(bs)]; the callers state the bounds
    that make the Rust indexing succeed. *)

Definition slice {A} (off n : nat) (l : list A) : list A := take n (drop off l).

Definition write_at {A} (off : nat) (bs l : list A) : list A :=
  take off l ++ bs ++ drop (off + length bs) l.

(** [Iterator::position]. *)
Fixpoint position {A} (f : A -> bool) (l : list A) : option nat :=
  match l with
  | [] => None
  | x :: l' => if f x then Some 0%nat else S <$> position f l'
  end.

(** [Vec::retain] keeps the elements the predicate accepts. *)
Definition retain {A} (f : A -> bool) (l : list A) : list A := List.filter f l.

(** [v.iter_mut()] update of the element at an index known to be in range. *)
Definition update {A} (i : nat) (f : A -> A) (l : list A) : list A := alter f i l.

(** [Vec::remove]. *)
Definition remove_at {A} (i : nat) (l : list A) : list A := delete i l.

Definition sum_Z {A} (f : A -> Z) (l : list A) : Z :=
  foldr (fun x acc => f x + acc) 0 l.

(** [match opcode { OP_A => a, OP_B => b, _ => d }] over integer patterns,
    first match wins. *)
Fixpoint match_op {X} (op : Z) (arms : list (Z * X)) (d : X) : X :=
  match arms with
  | [] => d
  | (k, x) :: arms' => if op =? k then x else match_op op arms' d
  end.

(** ** Automation *)

Create HintDb vtf discriminated.
Create Rewrite HintDb vtf.

Ltac simplify_bool :=
  repeat match goal with
  | H : (_ && _) = true |- _ => apply andb_prop in H; destruct H
  | H : (_ || _) = false |- _ => apply orb_false_elim in H; destruct H
  | H : negb _ = true |- _ => apply negb_true_iff in H
  | H : negb _ = false |- _ => apply negb_false_iff in H
  | H : (_ >? _) = _ |- _ => rewrite Z.gtb_ltb in H
  | H : (_ >=? _) = _ |- _ => rewrite Z.geb_leb in H
  | H : (_ =? _) = true |- _ => apply Z.eqb_eq in H
  | H : (_ =? _) = false |- _ => apply Z.eqb_neq in H
  | H : (_ <? _) = true |- _ => apply Z.ltb_lt in H
  | H : (_ <? _) = false |- _ => apply Z.ltb_ge in H
  | H : (_ <=? _) = true |- _ => apply Z.leb_le in H
  | H : (_ <=? _) = false |- _ => apply Z.leb_gt in H
  end.

(** Case analysis on the scrutinee of an [if] or [match] of the goal. *)
Ltac case_if :=
  match goal with
  | |- context [if ?b then _ else _] => destruct b eqn:?
  end.

Ltac case_if_in H :=
  match type of H with
  | context [if ?b then _ else _] => destruct b eqn:?
  end.

Ltac zbool := simplify_bool; try lia.

(** ** Record update

    [r <| field := v |>] and [r <| field ::= f |>]: a record type declares its eta
    expansion ([Eta]), from which the setter of each field is derived. *)
Class Eta (R : Type) := eta_expand : R -> R.
Class Field {R E : Type} (get : R -> E) := field_update : (E -> E) -> R -> R.
Arguments field_update {R E} get _ f r /.

Ltac derive_field get :=
  match type of get with
  | ?R -> ?E =>
      let e := eval hnf in (eta_expand (R:=R)) in
      match eval pattern get in e with
      | ?h _ => let u := eval cbv beta in (fun f : E -> E => h (fun r => f (get r))) in exact u
      end
  end.
#[export] Hint Extern 1 (Field ?get) => derive_field get : typeclass_instances.

Notation "r <| get := v |>" := (field_update get _ (fun _ => v) r)
  (at level 1, left associativity, format "r  <| get  :=  v |>").
Notation "r <| get ::= f |>" := (field_update get _ f r)
  (at level 1, left associativity, format "r  <| get  ::=  f |>").

(** ** Lemmas on machine integers *)

Lemma in_width_spec w z : in_width w z = true <-> 0 <= z < 2 ^ w.
Proof. unfold in_width. rewrite andb_true_iff, Z.leb_le, Z.ltb_lt. lia. Qed.

Lemma arith_in `{Profile} w z : 0 <= z < 2 ^ w -> arith w z = Val z.
Proof. intros Hz. unfold arith. by rewrite (proj2 (in_width_spec w z) Hz). Qed.

Lemma arith_range `{Profile} w z r :
  0 <= w -> arith w z = Val r -> 0 <= r < 2 ^ w.
Proof.
  unfold arith. intros Hw Hr. case_if_in Hr; [|case_if_in Hr; [done|]]; simplify_eq.
  - by apply in_width_spec.
  - apply Z.mod_pos_bound. lia.
Qed.

Lemma arith_panic `{Profile} w z : arith w z = Panic -> ~ (0 <= z < 2 ^ w) /\ overflow_checks = true.
Proof.
  unfold arith. intros Hr. case_if_in Hr; [done|]. case_if_in Hr; [|done].
  split; [|done]. rewrite <- in_width_spec. congruence.
Qed.

Lemma arith_le `{Profile} w z r : 0 <= w -> 0 <= z -> arith w z = Val r -> r <= z.
Proof.
  intros Hw Hz. unfold arith, wrap. destruct (in_width w z); [intros; simplify_eq; lia|].
  destruct overflow_checks; [done|]. intros [= <-].
  apply Z.mod_le; [done|]. apply Z.pow_pos_nonneg; lia.
Qed.

Lemma arith_exact `{Profile} w z r : arith w z = Val r -> 0 <= z < 2 ^ w -> r = z.
Proof. intros Hr Hz. rewrite arith_in in Hr by done. congruence. Qed.

Lemma arith_checked `{Profile} w z r :
  overflow_checks = true -> arith w z = Val r -> r = z.
Proof. unfold arith. intros Hp Hr. rewrite Hp in Hr. by case_if_in Hr; simplify_eq. Qed.

Lemma arith_release w z : exists r, @arith false w z = Val r.
Proof. unfold arith, overflow_checks. case_if; eauto. Qed.

Lemma checked_Some w z r : checked w z = Some r <-> r = z /\ 0 <= z < 2 ^ w.
Proof.
  unfold checked. rewrite <- in_width_spec.
  destruct (in_width w z); naive_solver.
Qed.

(** Runs the checked arithmetic of a [rust] computation whose operands are in
    range. *)
Ltac rust_run :=
  cbv beta iota delta [mbind rust_bind mret rust_ret];
  repeat (rewrite arith_in by lia; cbv beta iota delta [mbind rust_bind mret rust_ret]);
  cbv beta iota delta [mbind rust_bind mret rust_ret fmap rust_fmap].

(** ** Lemmas on slices *)

Section slices.
Context {A : Type}.
Implicit Types (l bs : list A) (off n i : nat).

Lemma length_slice off n l :
  (off + n <= length l)%nat -> length (slice off n l) = n.
Proof. intros H. unfold slice. rewrite length_take, length_drop. lia. Qed.

Lemma length_write_at off bs l :
  (off + length bs <= length l)%nat -> length (write_at off bs l) = length l.
Proof.
  intros H. unfold write_at.
  rewrite !length_app, length_take, length_drop. lia.
Qed.

Lemma take_write_at off bs l :
  (off <= length l)%nat -> take off (write_at off bs l) = take off l.
Proof.
  intros H. unfold write_at.
  rewrite take_app_le by (rewrite length_take; lia).
  rewrite take_take. f_equal. lia.
Qed.

Lemma slice_write_at off bs l :
  (off <= length l)%nat -> slice off (length bs) (write_at off bs l) = bs.
Proof.
  intros H. unfold slice, write_at.
  rewrite drop_app_ge; rewrite length_take; [|lia].
  rewrite Nat.min_l, Nat.sub_diag, drop_0 by lia.
  by rewrite take_app_length.
Qed.

Lemma lookup_write_at off bs l i :
  (off + length bs <= length l)%nat ->
  write_at off bs l !! i =
    if decide (off <= i < off + length bs)%nat then bs !! (i - off)%nat else l !! i.
Proof.
  intros H. unfold write_at. case_decide.
  - rewrite lookup_app_r; rewrite length_take; [|lia].
    rewrite lookup_app_l by lia. f_equal. lia.
  - destruct (decide (i < off)%nat).
    + rewrite lookup_app_l by (rewrite length_take; lia).
      by rewrite lookup_take_lt by lia.
    + rewrite lookup_app_r; rewrite length_take; [|lia].
      rewrite lookup_app_r by lia. rewrite lookup_drop. f_equal. lia.
Qed.

Lemma lookup_slice off n l i :
  slice off n l !! i = if decide (i < n)%nat then l !! (off + i)%nat else None.
Proof.
  unfold slice. case_decide.
  - by rewrite lookup_take_lt, lookup_drop by lia.
  - rewrite lookup_take_ge by lia. done.
Qed.

(** A read that does not overlap the written range sees the old contents. *)
Lemma slice_write_at_disjoint off bs l off' n :
  (off + length bs <= length l)%nat ->
  (off' + n <= off \/ off + length bs <= off')%nat ->
  slice off' n (write_at off bs l) = slice off' n l.
Proof.
  intros Hb Hd. apply list_eq. intros i. rewrite !lookup_slice.
  case_decide; [|done]. rewrite lookup_write_at by lia.
  case_decide; [lia|done].
Qed.

(** Two adjacent writes are one. *)
Lemma write_at_app off bs bs' l :
  (off + length bs + length bs' <= length l)%nat ->
  write_at (off + length bs) bs' (write_at off bs l) = write_at off (bs ++ bs') l.
Proof.
  intros Hb. apply list_eq. intros i.
  rewrite lookup_write_at by (rewrite length_write_at; lia).
  rewrite !lookup_write_at by (rewrite ?length_app; lia). rewrite length_app.
  repeat case_decide; try lia; try done.
  - rewrite lookup_app_r by lia. f_equal. lia.
  - by rewrite lookup_app_l by lia.
Qed.

Lemma take_write_at_0 bs l : take (length bs) (write_at 0 bs l) = bs.
Proof. unfold write_at. rewrite take_0. simpl. by rewrite take_app_length. Qed.

(** A body written behind a header that is filled in last. *)
Lemma take_header_body hdr body l :
  (length hdr + length body <= length l)%nat ->
  take (length hdr + length body) (write_at 0 hdr (write_at (length hdr) body l)) = hdr ++ body.
Proof.
  intros Hl. unfold write_at. rewrite take_0. simpl.
  rewrite drop_app_length' by (rewrite length_take; lia).
  rewrite (assoc_L (++)). by rewrite take_app_length' by (by rewrite length_app).
Qed.

Lemma slice_app_split off n m l :
  slice off n l ++ slice (off + n) m l = slice off (n + m) l.
Proof.
  unfold slice. rewrite <- drop_drop. rewrite take_take_drop. done.
Qed.

Lemma slice_full l : slice 0 (length l) l = l.
Proof. unfold slice. by rewrite drop_0, take_ge. Qed.

Lemma slice_slice off n off' n' l :
  (off' + n' <= n)%nat -> slice off' n' (slice off n l) = slice (off + off') n' l.
Proof.
  intros H. apply list_eq. intros i. rewrite !lookup_slice.
  case_decide; [|done]. case_decide; [|lia]. f_equal. lia.
Qed.
End slices.

(** ** Lemmas on vectors searched and updated by index *)

Section vectors.
Context {A : Type}.
Implicit Types (l : list A) (f : A -> bool) (i j : nat) (x y : A).

Lemma position_Some f l i :
  position f l = Some i ->
  exists x, l !! i = Some x /\ f x = true /\
    forall j y, (j < i)%nat -> l !! j = Some y -> f y = false.
Proof.
  revert i. induction l as [|x l IH]; intros i Hi; simpl in Hi; [done|].
  destruct (f x) eqn:Hx; simplify_eq.
  - exists x. split_and!; [done|done|lia].
  - apply fmap_Some in Hi as (k & Hk & ->). destruct (IH _ Hk) as (z & Hz & Hf & Hlt).
    exists z. split_and!; [done|done|]. intros [|j] y Hj Hy; simplify_eq/=; [done|].
    eapply Hlt; [|done]. lia.
Qed.

Lemma position_None f l :
  position f l = None <-> forall x, x ∈ l -> f x = false.
Proof.
  induction l as [|x l IH]; simpl; [set_solver|].
  destruct (f x) eqn:Hx.
  - split; [done|]. intros H. rewrite H in Hx; set_solver.
  - rewrite fmap_None, IH. set_solver.
Qed.

Lemma position_first f l i x :
  l !! i = Some x -> f x = true ->
  (forall j y, (j < i)%nat -> l !! j = Some y -> f y = false) ->
  position f l = Some i.
Proof.
  revert i. induction l as [|z l IH]; intros i Hi Hf Hlt; [done|].
  destruct i as [|i]; simplify_eq/=; [by rewrite Hf|].
  rewrite (Hlt 0%nat z) by (done || lia).
  rewrite (IH i) by (eauto || (intros j y ? Hy; apply (Hlt (S j) y); [lia|done])). done.
Qed.

Lemma position_app f l l' :
  position f (l ++ l') =
    match position f l with
    | Some i => Some i
    | None => (fun i => length l + i)%nat <$> position f l'
    end.
Proof.
  induction l as [|x l IH]; simpl; [by destruct (position f l')|].
  destruct (f x); [done|]. rewrite IH.
  by destruct (position f l), (position f l').
Qed.

Lemma position_unique {K} (key : A -> K) (eqk : K -> K -> bool) l i x :
  (forall a b, eqk a b = true <-> a = b) ->
  NoDup (key <$> l) -> l !! i = Some x ->
  position (fun y => eqk (key y) (key x)) l = Some i.
Proof.
  intros Heq Hnd Hi. eapply position_first; [done|by apply Heq|].
  intros j y Hj Hy. apply not_true_iff_false. intros E%Heq.
  assert (j = i); [|lia].
  eapply NoDup_lookup; [done| |]; rewrite list_lookup_fmap.
  - rewrite Hy. simpl. by rewrite E.
  - by rewrite Hi.
Qed.

Lemma position_fmap {K} (key : A -> K) (f : K -> bool) l :
  position (fun x => f (key x)) l = position f (key <$> l).
Proof. induction l as [|x l IH]; simpl; [done|]. by rewrite IH. Qed.

Lemma elem_of_retain f l x : x ∈ retain f l <-> x ∈ l /\ f x = true.
Proof. unfold retain. rewrite !list_elem_of_In. apply filter_In. Qed.

Lemma retain_sublist f l : retain f l `sublist_of` l.
Proof. induction l as [|x l IH]; simpl; [done|]. destruct (f x); by constructor. Qed.

Lemma retain_all f l : (forall x, x ∈ l -> f x = true) -> retain f l = l.
Proof.
  induction l as [|x l IH]; simpl; intros H; [done|].
  rewrite H by set_solver. f_equal. apply IH. set_solver.
Qed.

Lemma retain_app f l l' : retain f (l ++ l') = retain f l ++ retain f l'.
Proof. apply List.filter_app. Qed.

Lemma fmap_update_same {B} (g : A -> B) (h : A -> A) i l :
  (forall x, l !! i = Some x -> g (h x) = g x) -> g <$> update i h l = g <$> l.
Proof.
  intros Hh. unfold update. apply list_eq. intros j. rewrite !list_lookup_fmap.
  destruct (decide (i = j)) as [->|].
  - rewrite list_lookup_alter_eq. destruct (l !! j) eqn:E; [|done]. simpl.
    by rewrite Hh.
  - by rewrite list_lookup_alter_ne.
Qed.

Lemma length_update (h : A -> A) i l : length (update i h l) = length l.
Proof. apply length_alter. Qed.

Lemma update_update (f g : A -> A) i l :
  update i f (update i g l) = update i (fun x => f (g x)) l.
Proof.
  unfold update. revert i. induction l as [|x l IH]; intros [|i]; simpl; try done.
  f_equal. apply IH.
Qed.

Lemma update_id (f : A -> A) i l x : l !! i = Some x -> f x = x -> update i f l = l.
Proof.
  unfold update. revert i. induction l as [|y l IH]; intros [|i] Hi Hf; simplify_eq/=; [congruence|].
  f_equal. by apply IH.
Qed.

Lemma remove_at_snoc l x : remove_at (length l) (l ++ [x]) = l.
Proof. unfold remove_at. induction l as [|y l IH]; simpl; [done|]. f_equal. apply IH. Qed.

Lemma position_snoc f l x :
  Forall (fun y => f y = false) l -> f x = true -> position f (l ++ [x]) = Some (length l).
Proof.
  intros Hl Hx. rewrite position_app.
  rewrite (proj2 (position_None f l)) by (by apply list.Forall_forall).
  simpl. rewrite Hx. simpl. f_equal. lia.
Qed.

Lemma update_lookup (f : A -> A) i l x : l !! i = Some x -> update i f l !! i = Some (f x).
Proof. intros Hx. unfold update. by rewrite list_lookup_alter_eq, Hx. Qed.

Lemma update_lookup_ne (f : A -> A) i j l : i <> j -> update i f l !! j = l !! j.
Proof. intros Hij. unfold update. by rewrite list_lookup_alter_ne. Qed.

Lemma elem_of_update (h : A -> A) i l x y :
  l !! i = Some x -> y ∈ update i h l -> y = h x \/ y ∈ l.
Proof.
  intros Hi (j & Hj)%list_elem_of_lookup. unfold update in Hj.
  destruct (decide (i = j)) as [->|].
  - rewrite list_lookup_alter_eq, Hi in Hj. simplify_eq/=. by left.
  - rewrite list_lookup_alter_ne in Hj by done. right. by eapply list_elem_of_lookup_2.
Qed.

Lemma Forall_update (P : A -> Prop) (h : A -> A) i l :
  Forall P l -> (forall x, l !! i = Some x -> P x -> P (h x)) ->
  Forall P (update i h l).
Proof.
  intros Hl Hh. apply Forall_lookup. intros j y Hj. unfold update in Hj.
  destruct (decide (i = j)) as [->|].
  - rewrite list_lookup_alter_eq in Hj. destruct (l !! j) eqn:E; simplify_eq/=.
    apply Hh; [done|]. eapply Forall_lookup_1; eauto.
  - rewrite list_lookup_alter_ne in Hj by done. eapply Forall_lookup_1; eauto.
Qed.

Lemma Forall_weaken (P Q : A -> Prop) l :
  (forall x, x ∈ l -> P x -> Q x) -> Forall P l -> Forall Q l.
Proof. rewrite !list.Forall_forall. eauto. Qed.

Lemma Forall_snoc (P : A -> Prop) l x : Forall P l -> P x -> Forall P (l ++ [x]).
Proof. intros Hl Hx. apply Forall_app. by repeat constructor. Qed.

Lemma Forall_at (P : A -> Prop) l i x : Forall P l -> l !! i = Some x -> P x.
Proof. intros Hl Hi. eapply Forall_lookup_1; eauto. Qed.

Lemma Forall_remove_at (P : A -> Prop) i l : Forall P l -> Forall P (remove_at i l).
Proof. intros Hl. by apply Forall_delete. Qed.

Lemma Forall_retain (P : A -> Prop) f l : Forall P l -> Forall P (retain f l).
Proof.
  rewrite !list.Forall_forall. intros H x [Hx _]%elem_of_retain. auto.
Qed.

Lemma NoDup_fmap_sublist {B} (g : A -> B) l l' :
  l `sublist_of` l' -> NoDup (g <$> l') -> NoDup (g <$> l).
Proof. intros Hs Hn. eapply sublist_NoDup; [exact Hn|]. by apply fmap_sublist. Qed.

Lemma sum_Z_app (g : A -> Z) l l' : sum_Z g (l ++ l') = sum_Z g l + sum_Z g l'.
Proof. unfold sum_Z. induction l as [|x l IH]; simpl; [lia|]. rewrite IH. lia. Qed.

Lemma sum_Z_nonneg (g : A -> Z) l :
  (forall x, x ∈ l -> 0 <= g x) -> 0 <= sum_Z g l.
Proof.
  induction l as [|x l IH]; unfold sum_Z; simpl; intros H; [lia|].
  fold (sum_Z g l). pose proof (H x ltac:(set_solver)).
  pose proof (IH ltac:(set_solver)). lia.
Qed.

Lemma sum_Z_remove (g : A -> Z) i l x :
  l !! i = Some x -> sum_Z g (remove_at i l) = sum_Z g l - g x.
Proof.
  unfold remove_at, sum_Z.
  revert i. induction l as [|z l IH]; intros [|i] Hi; simplify_eq/=; [lia|].
  rewrite (IH i Hi). lia.
Qed.

Lemma sum_Z_retain_split (g : A -> Z) f l :
  sum_Z g l = sum_Z g (retain f l) + sum_Z g (retain (fun x => negb (f x)) l).
Proof.
  unfold sum_Z. induction l as [|x l IH]; simpl; [done|].
  rewrite IH. destruct (f x); simpl; lia.
Qed.

Lemma sum_Z_update (g : A -> Z) (h : A -> A) i l :
  (forall x, l !! i = Some x -> g (h x) = g x) -> sum_Z g (update i h l) = sum_Z g l.
Proof.
  unfold update, sum_Z.
  revert i. induction l as [|z l IH]; intros [|i] Hi; simpl in *; [done|done| |].
  - by rewrite (Hi z).
  - f_equal. exact (IH i Hi).
Qed.
Lemma NoDup_snoc l x : NoDup l -> x ∉ l -> NoDup (l ++ [x]).
Proof.
  intros Hl Hx. apply list.NoDup_app. split_and!; [done| |apply NoDup_singleton].
  set_solver.
Qed.

Lemma remove_at_sublist i l : remove_at i l `sublist_of` l.
Proof. apply sublist_delete. Qed.

Lemma remove_at_key {K} (key : A -> K) i l x y :
  NoDup (key <$> l) -> l !! i = Some x -> y ∈ remove_at i l -> key y <> key x.
Proof.
  unfold remove_at. revert i. induction l as [|z l IH]; intros i Hnd Hi Hy; [done|].
  apply list.NoDup_cons in Hnd as [Hz Hnd]. destruct i as [|i]; simplify_eq/=.
  - intros E. apply Hz. rewrite <- E. by apply list_elem_of_fmap_2.
  - apply elem_of_cons in Hy as [->|Hy]; [|by eapply IH].
    intros E. apply Hz. rewrite E. eapply list_elem_of_fmap_2.
    by eapply list_elem_of_lookup_2.
Qed.

Lemma length_remove_at i l x :
  l !! i = Some x -> length l = S (length (remove_at i l)).
Proof.
  intros Hi. unfold remove_at. rewrite length_delete by eauto.
  apply lookup_lt_Some in Hi. lia.
Qed.
End vectors.

#[export] Hint Resolve Forall_retain retain_sublist : vtf.
