(* ===== verification/Wire.v ===== *)
(** * Plain-old-data wire codec

    The protocol structs are [#[repr(C)]] records deriving [bytemuck::Pod]:
    they have no padding and cross the transport as their memory image, which
    is little-endian on both ends (aarch64).  A [codec] is the pair
    [bytemuck::bytes_of] / [bytemuck::pod_read_unaligned] of one such type with
    its [std::mem::size_of], the values the Rust type can hold, and the laws
    the two directions obey.  Combinators build the codec of a struct from its
    field list. *)

From S2P Require Import Prelude.
From coqutil Require Import Word.LittleEndianList.

Set Default Goal Selector "!".
Open Scope Z_scope.

Record codec (A : Type) := Codec {
  c_size : nat;
  c_enc : A -> list byte;
  c_dec : list byte -> A;
  c_ok : A -> bool;
  c_enc_len : forall a, c_ok a = true -> length (c_enc a) = c_size;
  c_dec_enc : forall a, c_ok a = true -> c_dec (c_enc a) = a;
  c_enc_dec : forall bs, length bs = c_size -> c_enc (c_dec bs) = bs;
  c_dec_ok : forall bs, length bs = c_size -> c_ok (c_dec bs) = true
}.
Arguments Codec {A}.
Arguments c_size {A}.
Arguments c_enc {A}.
Arguments c_dec {A}.
Arguments c_ok {A}.
Arguments c_enc_len {A}.
Arguments c_dec_enc {A}.
Arguments c_enc_dec {A}.
Arguments c_dec_ok {A}.

Class Pod (A : Type) := pod : codec A.

Definition size_of (A : Type) `{Pod A} : nat := c_size (A:=A) pod.
Definition bytes_of {A} `{Pod A} (a : A) : list byte := c_enc pod a.
Definition pod_read_unaligned {A} `{Pod A} (bs : list byte) : A := c_dec pod bs.
Definition pod_ok {A} `{Pod A} (a : A) : bool := c_ok pod a.

(** [T::zeroed()]: the value whose memory image is all zero bytes. *)
Definition zeroed (A : Type) `{Pod A} : A :=
  pod_read_unaligned (replicate (size_of A) Byte.x00).

(** [read_pod]: [None] on a short payload, else the prefix reinterpreted. *)
Definition read_pod (A : Type) `{Pod A} (bytes : list byte) : option A :=
  if len bytes <? Z.of_nat (size_of A) then None
  else Some (pod_read_unaligned (take (size_of A) bytes)).

(** ** Scalars *)

Definition uint_ok (n : nat) (z : Z) : bool := in_width (Z.of_nat n * 8) z.

Definition sint_ok (n : nat) (z : Z) : bool :=
  (- 2 ^ (Z.of_nat n * 8 - 1) <=? z) && (z <? 2 ^ (Z.of_nat n * 8 - 1)).

Definition sint_dec (n : nat) (bs : list byte) : Z :=
  as_signed (Z.of_nat n * 8) (le_combine bs).

Lemma uint_dec_enc n z : uint_ok n z = true -> le_combine (le_split n z) = z.
Proof.
  intros Hz%in_width_spec. rewrite le_combine_split. by apply Z.mod_small.
Qed.

Lemma le_combine_ok bs n : length bs = n -> uint_ok n (le_combine bs) = true.
Proof.
  intros <-. apply in_width_spec. pose proof (le_combine_bound bs).
  by rewrite Z.mul_comm.
Qed.

Lemma le_split_combine bs n : length bs = n -> le_split n (le_combine bs) = bs.
Proof. intros <-. apply split_le_combine. Qed.

Definition uintC (n : nat) : codec Z :=
  Codec n (le_split n) le_combine (uint_ok n)
    (fun a _ => length_le_split n a) (uint_dec_enc n)
    (fun bs H => le_split_combine bs n H) (fun bs H => le_combine_ok bs n H).

Lemma as_signed_id w z :
  0 < w -> - 2 ^ (w - 1) <= z < 2 ^ (w - 1) -> as_signed w (z mod 2 ^ w) = z.
Proof.
  intros Hw Hz. unfold as_signed. rewrite Zplus_mod_idemp_l.
  assert (2 ^ w = 2 * 2 ^ (w - 1)) as -> by (rewrite <- Z.pow_succ_r by lia; f_equal; lia).
  rewrite Z.mod_small by lia. lia.
Qed.

Lemma as_signed_range w z :
  0 < w -> - 2 ^ (w - 1) <= as_signed w z < 2 ^ (w - 1).
Proof.
  intros Hw. unfold as_signed.
  pose proof (Z.mod_pos_bound (z + 2 ^ (w - 1)) (2 ^ w) ltac:(lia)).
  assert (2 ^ w = 2 * 2 ^ (w - 1)) by (rewrite <- Z.pow_succ_r by lia; f_equal; lia).
  lia.
Qed.

Lemma as_signed_mod w z : 0 < w -> as_signed w z mod 2 ^ w = z mod 2 ^ w.
Proof.
  intros Hw. unfold as_signed. rewrite Zminus_mod_idemp_l. f_equal. lia.
Qed.

Lemma sint_dec_enc n z :
  (0 < n)%nat -> sint_ok n z = true -> sint_dec n (le_split n z) = z.
Proof.
  intros Hn Hz. unfold sint_ok in Hz. zbool. unfold sint_dec.
  rewrite le_combine_split. apply as_signed_id; lia.
Qed.

Lemma sint_enc_dec n bs :
  (0 < n)%nat -> length bs = n -> le_split n (sint_dec n bs) = bs.
Proof.
  intros Hn Hl. unfold sint_dec. rewrite le_split_mod, as_signed_mod by lia.
  rewrite <- le_split_mod. by apply le_split_combine.
Qed.

Lemma sint_dec_ok n bs : (0 < n)%nat -> sint_ok n (sint_dec n bs) = true.
Proof.
  intros Hn. unfold sint_ok, sint_dec.
  pose proof (as_signed_range (Z.of_nat n * 8) (le_combine bs) ltac:(lia)).
  apply andb_true_intro. rewrite Z.leb_le, Z.ltb_lt. lia.
Qed.

Definition sintC (n : nat) (Hn : (0 < n)%nat) : codec Z :=
  Codec n (le_split n) (sint_dec n) (sint_ok n)
    (fun a _ => length_le_split n a) (fun a H => sint_dec_enc n a Hn H)
    (fun bs H => sint_enc_dec n bs Hn H) (fun bs _ => sint_dec_ok n bs Hn).

Definition u16 : codec Z := uintC 2.
Definition u32 : codec Z := uintC 4.
Definition u64 : codec Z := uintC 8.
Definition i32 : codec Z := sintC 4 ltac:(lia).
Definition i64 : codec Z := sintC 8 ltac:(lia).
(** An [f64] is carried as its IEEE bit pattern. *)
Definition f64 : codec Z := uintC 8.

(** ** Aggregates *)

(** [[u8; n]]: the bytes themselves. *)
Definition bytesC (n : nat) : codec (list byte).
Proof.
  refine (Codec n id id (fun l => Nat.eqb (length l) n) _ _ _ _); intros l H.
  - by apply Nat.eqb_eq.
  - done.
  - done.
  - by apply Nat.eqb_eq.
Defined.

Section pair.
Context {A B : Type} (ca : codec A) (cb : codec B).

Definition pair_enc (x : A * B) : list byte := c_enc ca x.1 ++ c_enc cb x.2.
Definition pair_dec (bs : list byte) : A * B :=
  (c_dec ca (take (c_size ca) bs), c_dec cb (drop (c_size ca) bs)).
Definition pair_ok (x : A * B) : bool := c_ok ca x.1 && c_ok cb x.2.

Lemma pair_enc_len x : pair_ok x = true -> length (pair_enc x) = (c_size ca + c_size cb)%nat.
Proof.
  intros [Ha Hb]%andb_prop. unfold pair_enc. by rewrite length_app, !c_enc_len.
Qed.

Lemma pair_dec_enc x : pair_ok x = true -> pair_dec (pair_enc x) = x.
Proof.
  destruct x as [a b]. intros [Ha Hb]%andb_prop. unfold pair_dec, pair_enc. simpl in *.
  rewrite take_app_length', drop_app_length' by (by rewrite c_enc_len).
  by rewrite !c_dec_enc.
Qed.

Lemma pair_enc_dec bs :
  length bs = (c_size ca + c_size cb)%nat -> pair_enc (pair_dec bs) = bs.
Proof.
  intros H. unfold pair_enc, pair_dec. simpl.
  rewrite !c_enc_dec by (rewrite ?length_take, ?length_drop; lia). apply take_drop.
Qed.

Lemma pair_dec_ok bs :
  length bs = (c_size ca + c_size cb)%nat -> pair_ok (pair_dec bs) = true.
Proof.
  intros H. unfold pair_ok, pair_dec. simpl.
  by rewrite !c_dec_ok by (rewrite ?length_take, ?length_drop; lia).
Qed.

Definition pairC : codec (A * B) :=
  Codec (c_size ca + c_size cb) pair_enc pair_dec pair_ok
    pair_enc_len pair_dec_enc pair_enc_dec pair_dec_ok.
End pair.

(** [[T; n]] *)
Section array.
Context {A : Type} (ca : codec A).

Definition arr_enc (l : list A) : list byte := concat (map (c_enc ca) l).
Fixpoint arr_dec (n : nat) (bs : list byte) : list A :=
  match n with
  | O => []
  | S n' => c_dec ca (take (c_size ca) bs) :: arr_dec n' (drop (c_size ca) bs)
  end.
Definition arr_ok (n : nat) (l : list A) : bool :=
  Nat.eqb (length l) n && forallb (c_ok ca) l.

Lemma arr_ok_cons n x l :
  arr_ok (S n) (x :: l) = true <-> c_ok ca x = true /\ arr_ok n l = true.
Proof. unfold arr_ok. simpl. rewrite !andb_true_iff. tauto. Qed.

Lemma arr_ok_inv n l : arr_ok n l = true -> length l = n.
Proof. unfold arr_ok. intros [H%Nat.eqb_eq _]%andb_prop. done. Qed.

Lemma arr_enc_len n l : arr_ok n l = true -> length (arr_enc l) = (n * c_size ca)%nat.
Proof.
  revert n. induction l as [|x l IH]; intros [|n] H; try (by apply arr_ok_inv in H).
  apply arr_ok_cons in H as [Hx Hl]. unfold arr_enc in *. simpl.
  rewrite length_app, c_enc_len, (IH n) by done. lia.
Qed.

Lemma arr_dec_enc n l : arr_ok n l = true -> arr_dec n (arr_enc l) = l.
Proof.
  revert n. induction l as [|x l IH]; intros [|n] H; try (by apply arr_ok_inv in H).
  apply arr_ok_cons in H as [Hx Hl]. unfold arr_enc in *. simpl.
  rewrite take_app_length', drop_app_length' by (by rewrite c_enc_len).
  by rewrite c_dec_enc, (IH n).
Qed.

Lemma arr_enc_dec n bs : length bs = (n * c_size ca)%nat -> arr_enc (arr_dec n bs) = bs.
Proof.
  revert bs. induction n as [|n IH]; intros bs H; simpl in *.
  - by destruct bs.
  - unfold arr_enc in *. simpl.
    rewrite c_enc_dec, IH by (rewrite ?length_take, ?length_drop; lia). apply take_drop.
Qed.

Lemma arr_dec_ok n bs : length bs = (n * c_size ca)%nat -> arr_ok n (arr_dec n bs) = true.
Proof.
  revert bs. induction n as [|n IH]; intros bs H; simpl in *; [done|].
  apply arr_ok_cons. split; [apply c_dec_ok|apply IH];
    rewrite ?length_take, ?length_drop; lia.
Qed.

Definition arrC (n : nat) : codec (list A) :=
  Codec (n * c_size ca) arr_enc (arr_dec n) (arr_ok n)
    (arr_enc_len n) (arr_dec_enc n) (arr_enc_dec n) (arr_dec_ok n).
End array.

(** A struct is its field tuple up to a bijection. *)
Section iso.
Context {T R : Type} (c : codec T) (to : T -> R) (from : R -> T).
Context (to_from : forall r, to (from r) = r) (from_to : forall t, from (to t) = t).

Definition isoC : codec R.
Proof.
  refine (Codec (c_size c) (fun r => c_enc c (from r)) (fun bs => to (c_dec c bs))
            (fun r => c_ok c (from r)) _ _ _ _).
  - intros r. apply c_enc_len.
  - intros r H. by rewrite c_dec_enc.
  - intros bs H. by rewrite from_to, c_enc_dec.
  - intros bs H. by rewrite from_to, c_dec_ok.
Defined.
End iso.

Declare Scope codec_scope.
Delimit Scope codec_scope with codec.
Notation "a ⊗ b" := (pairC a b) (at level 40, left associativity) : codec_scope.
Notation "[ c ; n ]ₐ" := (arrC c n) (at level 0) : codec_scope.

(** Proves the two bijection laws of a struct declared with its field tuple. *)
Ltac solve_iso :=
  intros;
  repeat match goal with x : prod _ _ |- _ => destruct x end;
  repeat match goal with x : _ |- _ => progress (destruct x; try reflexivity) end;
  reflexivity.

(** ** Laws of [Pod] *)

Section pod.
Context {A : Type} `{Pod A}.
Implicit Types (a : A) (bs : list byte).

Lemma length_bytes_of a : pod_ok a = true -> length (bytes_of a) = size_of A.
Proof. apply c_enc_len. Qed.

Lemma pod_read_bytes_of a : pod_ok a = true -> pod_read_unaligned (bytes_of a) = a.
Proof. apply c_dec_enc. Qed.

Lemma bytes_of_pod_read bs :
  length bs = size_of A -> bytes_of (pod_read_unaligned (A:=A) bs) = bs.
Proof. apply c_enc_dec. Qed.

Lemma pod_read_ok bs :
  length bs = size_of A -> pod_ok (pod_read_unaligned (A:=A) bs) = true.
Proof. apply c_dec_ok. Qed.

Lemma zeroed_ok : pod_ok (zeroed A) = true.
Proof. apply pod_read_ok. apply length_replicate. Qed.

Lemma read_pod_bytes_of a rest :
  pod_ok a = true -> read_pod A (bytes_of a ++ rest) = Some a.
Proof.
  intros Ha. unfold read_pod.
  assert (length (bytes_of a) = size_of A) as Hl by by apply length_bytes_of.
  case_if; zbool.
  - rewrite length_app in *. lia.
  - by rewrite take_app_length', pod_read_bytes_of.
Qed.

(** A payload that is read is the message followed by its inline tail. *)
Lemma read_pod_split bs a :
  read_pod A bs = Some a -> pod_ok a = true /\ bs = bytes_of a ++ drop (size_of A) bs.
Proof.
  unfold read_pod. intros Hr. case_if_in Hr; [done|]. simplify_eq. zbool.
  assert (length (take (size_of A) bs) = size_of A) as Hl by (rewrite length_take; lia).
  split; [by apply pod_read_ok|]. rewrite bytes_of_pod_read by done. by rewrite take_drop.
Qed.

Lemma read_pod_None bs : read_pod A bs = None <-> (length bs < size_of A)%nat.
Proof. unfold read_pod. case_if; zbool; split; intros; (done || lia). Qed.

Lemma read_pod_ok bs a : read_pod A bs = Some a -> pod_ok a = true.
Proof.
  unfold read_pod. intros Hr. case_if_in Hr; [done|]. simplify_eq. zbool.
  apply pod_read_ok. rewrite length_take. lia.
Qed.
End pod.

#[export] Hint Rewrite @length_bytes_of @pod_read_bytes_of using done : vtf.

(** ** Field ranges

    [pod_fields H] splits the validity of a struct into the validity of its
    fields, [pod_ok_split] does the same to a goal. *)

Arguments uint_ok : simpl never.
Arguments sint_ok : simpl never.
Arguments arr_ok : simpl never.
Arguments zeroed : simpl never.

Lemma uint_ok_spec n z : uint_ok n z = true <-> 0 <= z < 2 ^ (Z.of_nat n * 8).
Proof. apply in_width_spec. Qed.

Ltac pod_fields H :=
  unfold pod_ok in H; cbn in H; repeat (progress (unfold pair_ok in H; cbn in H));
  simplify_bool.

Ltac pod_ok_split :=
  unfold pod_ok; cbn; repeat (progress (unfold pair_ok; cbn));
  rewrite ?andb_true_iff; split_and!.

(** Closes the range goals [pod_ok_split] leaves, from ranges in the context. *)
Ltac uint_range :=
  repeat match goal with H : uint_ok _ _ = true |- _ => apply uint_ok_spec in H; cbn in H end;
  apply uint_ok_spec; cbn; lia.

Lemma arr_ok_replicate {A} (c : codec A) n a :
  c_ok c a = true -> arr_ok c n (replicate n a) = true.
Proof.
  intros Ha. unfold arr_ok. rewrite length_replicate, Nat.eqb_refl. simpl.
  induction n as [|n IH]; simpl; [done|]. by rewrite Ha.
Qed.

Lemma arr_ok_spec {A} (c : codec A) n l :
  arr_ok c n l = true <-> length l = n /\ Forall (fun a => c_ok c a = true) l.
Proof.
  unfold arr_ok. rewrite andb_true_iff, Nat.eqb_eq, forallb_forall, Forall_forall. done.
Qed.

(** ** Text *)

Definition in_range (b : byte) (lo hi : Z) : bool :=
  (lo <=? byte.unsigned b) && (byte.unsigned b <=? hi).

(** [std::str::from_utf8] accepts exactly well-formed UTF-8. *)
Fixpoint utf8_valid (l : list byte) : bool :=
  match l with
  | [] => true
  | b1 :: r1 =>
      if in_range b1 0x00 0x7f then utf8_valid r1
      else match r1 with
      | [] => false
      | b2 :: r2 =>
          if in_range b1 0xc2 0xdf then in_range b2 0x80 0xbf && utf8_valid r2
          else match r2 with
          | [] => false
          | b3 :: r3 =>
              if in_range b1 0xe0 0xef then
                (if in_range b1 0xe0 0xe0 then in_range b2 0xa0 0xbf
                 else if in_range b1 0xed 0xed then in_range b2 0x80 0x9f
                 else in_range b2 0x80 0xbf)
                && in_range b3 0x80 0xbf && utf8_valid r3
              else match r3 with
              | [] => false
              | b4 :: r4 =>
                  in_range b1 0xf0 0xf4
                  && (if in_range b1 0xf0 0xf0 then in_range b2 0x90 0xbf
                      else if in_range b1 0xf4 0xf4 then in_range b2 0x80 0x8f
                      else in_range b2 0x80 0xbf)
                  && in_range b3 0x80 0xbf && in_range b4 0x80 0xbf && utf8_valid r4
              end
          end
      end
  end.
