(* ===== verification/Protocol.v ===== *)
(** * The transport protocol

    [crates/vt-ferry-protocol/src/lib.rs]: protocol constants, opcodes, status
    codes and the [#[repr(C)]] Pod structs that cross the wire.  Every struct
    is a [Record] with the source's field order and its [Pod] codec; [u64]
    arrays and byte arrays are lists whose length the codec's validity predicate
    fixes.  The theorems pin the wire sizes, the uniqueness of the opcode and
    status encodings, and the round trip of every message through [read_pod]. *)

From S2P Require Import Prelude Wire.

Set Default Goal Selector "!".
Open Scope Z_scope.

Definition VTF_TRANSPORT_VERSION : Z := 1.
Definition CAP_CODEC_H264 : Z := Z.shiftl 1 0.
Definition CAP_CODEC_HEVC : Z := Z.shiftl 1 1.
Definition CAP_PIXEL_FORMAT_NV12 : Z := Z.shiftl 1 0.
Definition CAP_PIXEL_FORMAT_BGRA : Z := Z.shiftl 1 1.
Definition CAP_PIXEL_FORMAT_P010 : Z := Z.shiftl 1 2.
Definition CAP_SESSION_FEATURE_ASYNC_COMPLETE : Z := Z.shiftl 1 0.
Definition CAP_SESSION_FEATURE_BUFFER_SYNC : Z := Z.shiftl 1 1.
Definition CAP_SESSION_FEATURE_DECODE : Z := Z.shiftl 1 2.
Definition VTF_HOST_BACKING_KIND_UNKNOWN : Z := 0.
Definition VTF_HOST_BACKING_KIND_IOSURFACE : Z := 1.
Definition VTF_SHARED_REGION_SOURCE_UNKNOWN : Z := 0.
Definition VTF_SHARED_REGION_SOURCE_IOSURFACE : Z := 4.
Definition VTF_TRANSPORT_MAX_POOL_SLOTS : Z := 64.
Definition CREATE_BUFFER_POOL_COMPACT_REPLY_FORMAT : Z := 1.
Definition VTF_TRANSPORT_MAX_ENCODE_BATCH : Z := 32.
Definition VTF_TRANSPORT_MAX_PARAMETER_SETS : Z := 4.
Definition VTF_TRANSPORT_MAX_PARAMETER_SET_BYTES : Z := 128.
Definition VTF_TRANSPORT_MAX_OUTPUT_BATCH : Z := 24.
Definition VTF_TRANSPORT_MAX_ENCODED_FRAME_BYTES : Z := 4 * 1024 * 1024.
Definition VTF_ENCODED_FRAME_FLAG_KEYFRAME : Z := 1.
Definition VTF_ENCODED_FRAME_FLAG_END_OF_STREAM : Z := 0x2.
Definition VTF_ENCODED_FRAME_FLAG_DEPENDS_ON_OTHERS : Z := 0x4.
Definition VTF_TRANSPORT_MAX_DECODED_FRAME_BYTES : Z := 1500000.
Definition OP_HELLO : Z := 0x0001.
Definition OP_PING : Z := 0x0002.
Definition OP_GET_CAPS : Z := 0x0010.
Definition OP_CREATE_SESSION : Z := 0x0020.
Definition OP_SET_PROPERTY : Z := 0x0022.
Definition OP_PREPARE_SESSION : Z := 0x0023.
Definition OP_CREATE_BUFFER_POOL : Z := 0x0030.
Definition OP_ALLOC_BUFFER : Z := 0x0032.
Definition OP_READ_BUFFER : Z := 0x0034.
Definition OP_WRITE_BUFFER : Z := 0x0036.
Definition OP_RECYCLE_BUFFER : Z := 0x0060.
Definition OP_ENCODE_FRAME : Z := 0x0040.
Definition OP_ENCODE_FRAME_BATCH : Z := 0x0042.
Definition OP_DEQUEUE_OUTPUT : Z := 0x0050.
Definition OP_DEQUEUE_OUTPUT_BATCH : Z := 0x0056.
Definition OP_READ_OUTPUT : Z := 0x0052.
Definition OP_RELEASE_OUTPUT : Z := 0x0054.
Definition OP_RELEASE_OUTPUT_BATCH : Z := 0x0058.
Definition OP_DRAIN : Z := 0x0070.
Definition OP_DESTROY_SESSION : Z := 0x0080.
Definition OP_ENQUEUE_ENCODED_FRAME : Z := 0x0090.
Definition OP_DEQUEUE_DECODED_FRAME : Z := 0x0092.
Definition OP_RELEASE_DECODED_FRAME : Z := 0x0094.
Definition OP_SET_DECODE_FORMAT : Z := 0x0096.
Definition OP_READ_DECODED_FRAME : Z := 0x0098.
Definition OP_BIND_DECODE_OUTPUT_POOL : Z := 0x009a.
Definition OP_READ_DECODED_FRAME_CHUNK : Z := 0x009c.
Definition OP_DESTROY_BUFFER_POOL : Z := 0x009e.
Definition OP_ENQUEUE_ENCODED_FRAME_CHUNK : Z := 0x00a0.
Definition STATUS_OK : Z := 0.
Definition STATUS_UNSUPPORTED_OPCODE : Z := 1.
Definition STATUS_UNSUPPORTED_VERSION : Z := 2.
Definition STATUS_UNSUPPORTED_CODEC_OR_FORMAT : Z := 3.
Definition STATUS_INVALID_HANDLE : Z := 4.
Definition STATUS_STALE_GENERATION : Z := 5.
Definition STATUS_INVALID_STATE : Z := 6.
Definition STATUS_BOUNDS_VIOLATION : Z := 7.
Definition STATUS_INTERNAL_FAILURE : Z := 8.
Definition STATUS_TIMEOUT : Z := 9.
Definition STATUS_RESOURCE_EXHAUSTED : Z := 10.
Definition STATUS_PROPERTY_NOT_SUPPORTED : Z := 11.
Definition VTF_SESSION_KIND_ENCODE : Z := 1.
Definition VTF_SESSION_KIND_DECODE : Z := 2.

Record MessageHeader := mk_MessageHeader {
  mh_version : Z;
  mh_opcode : Z;
  mh_flags : Z;
  mh_request_id : Z;
  mh_payload_len : Z;
  mh_status : Z
}.

#[export] Instance MessageHeader_pod : Pod MessageHeader :=
  isoC
    (u16 ⊗ u16 ⊗ u32 ⊗ u64 ⊗ u32 ⊗ u32)%codec
    (fun '(x0, x1, x2, x3, x4, x5) =>
      mk_MessageHeader x0 x1 x2 x3 x4 x5)
    (fun r =>
      (r.(mh_version), r.(mh_opcode), r.(mh_flags), r.(mh_request_id),
      r.(mh_payload_len), r.(mh_status)))
    ltac:(solve_iso) ltac:(solve_iso).

Record HelloPayload := mk_HelloPayload {
  hp_client_abi_version : Z;
  hp_reserved : Z;
  hp_requested_features : Z
}.

#[export] Instance HelloPayload_pod : Pod HelloPayload :=
  isoC
    (u32 ⊗ u32 ⊗ u64)%codec
    (fun '(x0, x1, x2) =>
      mk_HelloPayload x0 x1 x2)
    (fun r =>
      (r.(hp_client_abi_version), r.(hp_reserved), r.(hp_requested_features)))
    ltac:(solve_iso) ltac:(solve_iso).

Record HelloReply := mk_HelloReply {
  hr_worker_abi_version : Z;
  hr_reserved : Z;
  hr_supported_features : Z;
  hr_worker_name : list byte
}.

#[export] Instance HelloReply_pod : Pod HelloReply :=
  isoC
    (u32 ⊗ u32 ⊗ u64 ⊗ bytesC 32)%codec
    (fun '(x0, x1, x2, x3) =>
      mk_HelloReply x0 x1 x2 x3)
    (fun r =>
      (r.(hr_worker_abi_version), r.(hr_reserved), r.(hr_supported_features),
      r.(hr_worker_name)))
    ltac:(solve_iso) ltac:(solve_iso).

Record GetCapsReply := mk_GetCapsReply {
  gc_codec_bits : Z;
  gc_pixel_format_bits : Z;
  gc_session_feature_bits : Z;
  gc_max_width : Z;
  gc_max_height : Z;
  gc_max_inflight_frames : Z;
  gc_reserved : Z
}.

#[export] Instance GetCapsReply_pod : Pod GetCapsReply :=
  isoC
    (u64 ⊗ u64 ⊗ u64 ⊗ u32 ⊗ u32 ⊗ u32 ⊗ u32)%codec
    (fun '(x0, x1, x2, x3, x4, x5, x6) =>
      mk_GetCapsReply x0 x1 x2 x3 x4 x5 x6)
    (fun r =>
      (r.(gc_codec_bits), r.(gc_pixel_format_bits), r.(gc_session_feature_bits),
      r.(gc_max_width), r.(gc_max_height), r.(gc_max_inflight_frames), r.(gc_reserved)))
    ltac:(solve_iso) ltac:(solve_iso).

Record CreateSessionPayload := mk_CreateSessionPayload {
  csp_kind : Z;
  csp_codec : Z;
  csp_width : Z;
  csp_height : Z;
  csp_pixel_format : Z;
  csp_fps_num : Z;
  csp_fps_den : Z;
  csp_bitrate : Z;
  csp_gop_size : Z
}.

#[export] Instance CreateSessionPayload_pod : Pod CreateSessionPayload :=
  isoC
    (u32 ⊗ u32 ⊗ u32 ⊗ u32 ⊗ u32 ⊗ u32 ⊗ u32 ⊗ u32 ⊗ u32)%codec
    (fun '(x0, x1, x2, x3, x4, x5, x6, x7, x8) =>
      mk_CreateSessionPayload x0 x1 x2 x3 x4 x5 x6 x7 x8)
    (fun r =>
      (r.(csp_kind), r.(csp_codec), r.(csp_width), r.(csp_height),
      r.(csp_pixel_format), r.(csp_fps_num), r.(csp_fps_den), r.(csp_bitrate),
      r.(csp_gop_size)))
    ltac:(solve_iso) ltac:(solve_iso).

Record CreateSessionReply := mk_CreateSessionReply {
  csr_session_id : Z;
  csr_negotiated_width : Z;
  csr_negotiated_height : Z;
  csr_pixel_format : Z;
  csr_reserved : Z
}.

#[export] Instance CreateSessionReply_pod : Pod CreateSessionReply :=
  isoC
    (u64 ⊗ u32 ⊗ u32 ⊗ u32 ⊗ u32)%codec
    (fun '(x0, x1, x2, x3, x4) =>
      mk_CreateSessionReply x0 x1 x2 x3 x4)
    (fun r =>
      (r.(csr_session_id), r.(csr_negotiated_width), r.(csr_negotiated_height),
      r.(csr_pixel_format), r.(csr_reserved)))
    ltac:(solve_iso) ltac:(solve_iso).

Record CreateBufferPoolPayload := mk_CreateBufferPoolPayload {
  cbp_session_id : Z;
  cbp_buffer_count : Z;
  cbp_pixel_format : Z;
  cbp_width : Z;
  cbp_height : Z;
  cbp_usage_flags : Z;
  cbp_padding : Z
}.

#[export] Instance CreateBufferPoolPayload_pod : Pod CreateBufferPoolPayload :=
  isoC
    (u64 ⊗ u32 ⊗ u32 ⊗ u32 ⊗ u32 ⊗ u32 ⊗ u32)%codec
    (fun '(x0, x1, x2, x3, x4, x5, x6) =>
      mk_CreateBufferPoolPayload x0 x1 x2 x3 x4 x5 x6)
    (fun r =>
      (r.(cbp_session_id), r.(cbp_buffer_count), r.(cbp_pixel_format), r.(cbp_width),
      r.(cbp_height), r.(cbp_usage_flags), r.(cbp_padding)))
    ltac:(solve_iso) ltac:(solve_iso).

Record BufferLayoutReply := mk_BufferLayoutReply {
  bl_plane_count : Z;
  bl_total_size : Z;
  bl_plane_offsets : list Z;
  bl_plane_widths : list Z;
  bl_plane_heights : list Z;
  bl_plane_bytes_per_row : list Z
}.

#[export] Instance BufferLayoutReply_pod : Pod BufferLayoutReply :=
  isoC
    (u32 ⊗ u32 ⊗ arrC u32 4 ⊗ arrC u32 4 ⊗ arrC u32 4 ⊗ arrC u32 4)%codec
    (fun '(x0, x1, x2, x3, x4, x5) =>
      mk_BufferLayoutReply x0 x1 x2 x3 x4 x5)
    (fun r =>
      (r.(bl_plane_count), r.(bl_total_size), r.(bl_plane_offsets),
      r.(bl_plane_widths), r.(bl_plane_heights), r.(bl_plane_bytes_per_row)))
    ltac:(solve_iso) ltac:(solve_iso).

Record SharedRegionReply := mk_SharedRegionReply {
  sr_mapping_id : Z;
  sr_region_size : Z;
  sr_source_offset : Z;
  sr_flags : Z;
  sr_source_kind : Z;
  sr_source_handle : Z;
  sr_source_path : list byte
}.

#[export] Instance SharedRegionReply_pod : Pod SharedRegionReply :=
  isoC
    (u64 ⊗ u64 ⊗ u64 ⊗ u32 ⊗ u32 ⊗ u64 ⊗ bytesC 256)%codec
    (fun '(x0, x1, x2, x3, x4, x5, x6) =>
      mk_SharedRegionReply x0 x1 x2 x3 x4 x5 x6)
    (fun r =>
      (r.(sr_mapping_id), r.(sr_region_size), r.(sr_source_offset), r.(sr_flags),
      r.(sr_source_kind), r.(sr_source_handle), r.(sr_source_path)))
    ltac:(solve_iso) ltac:(solve_iso).

Record PoolBufferLeaseReply := mk_PoolBufferLeaseReply {
  pl_buffer_id : Z;
  pl_generation : Z;
  pl_slot_index : Z;
  pl_slot_offset : Z;
  pl_host_backing_kind : Z;
  pl_flags : Z
}.

#[export] Instance PoolBufferLeaseReply_pod : Pod PoolBufferLeaseReply :=
  isoC
    (u64 ⊗ u64 ⊗ u32 ⊗ u32 ⊗ u32 ⊗ u32)%codec
    (fun '(x0, x1, x2, x3, x4, x5) =>
      mk_PoolBufferLeaseReply x0 x1 x2 x3 x4 x5)
    (fun r =>
      (r.(pl_buffer_id), r.(pl_generation), r.(pl_slot_index), r.(pl_slot_offset),
      r.(pl_host_backing_kind), r.(pl_flags)))
    ltac:(solve_iso) ltac:(solve_iso).

Record CreateBufferPoolReply := mk_CreateBufferPoolReply {
  cbr_pool_id : Z;
  cbr_width : Z;
  cbr_height : Z;
  cbr_pixel_format : Z;
  cbr_slot_count : Z;
  cbr_buffer_region_size : Z;
  cbr_host_backing_kind : Z;
  cbr_layout : BufferLayoutReply;
  cbr_shared_regions : list SharedRegionReply;
  cbr_buffer_leases : list PoolBufferLeaseReply
}.

#[export] Instance CreateBufferPoolReply_pod : Pod CreateBufferPoolReply :=
  isoC
    (u64 ⊗ u32 ⊗ u32 ⊗ u32 ⊗ u32 ⊗ u32 ⊗ u32 ⊗ BufferLayoutReply_pod ⊗
     arrC SharedRegionReply_pod (Z.to_nat VTF_TRANSPORT_MAX_POOL_SLOTS) ⊗
     arrC PoolBufferLeaseReply_pod (Z.to_nat VTF_TRANSPORT_MAX_POOL_SLOTS))%codec
    (fun '(x0, x1, x2, x3, x4, x5, x6, x7, x8, x9) =>
      mk_CreateBufferPoolReply x0 x1 x2 x3 x4 x5 x6 x7 x8 x9)
    (fun r =>
      (r.(cbr_pool_id), r.(cbr_width), r.(cbr_height), r.(cbr_pixel_format),
      r.(cbr_slot_count), r.(cbr_buffer_region_size), r.(cbr_host_backing_kind),
      r.(cbr_layout), r.(cbr_shared_regions), r.(cbr_buffer_leases)))
    ltac:(solve_iso) ltac:(solve_iso).

Record CreateBufferPoolCompactReply := mk_CreateBufferPoolCompactReply {
  cbc_pool_id : Z;
  cbc_width : Z;
  cbc_height : Z;
  cbc_pixel_format : Z;
  cbc_slot_count : Z;
  cbc_buffer_region_size : Z;
  cbc_host_backing_kind : Z;
  cbc_format : Z;
  cbc_reserved : Z;
  cbc_layout : BufferLayoutReply;
  cbc_buffer_leases : list PoolBufferLeaseReply
}.

#[export] Instance CreateBufferPoolCompactReply_pod : Pod CreateBufferPoolCompactReply :=
  isoC
    (u64 ⊗ u32 ⊗ u32 ⊗ u32 ⊗ u32 ⊗ u32 ⊗ u32 ⊗ u32 ⊗ u32 ⊗ BufferLayoutReply_pod ⊗
     arrC PoolBufferLeaseReply_pod (Z.to_nat VTF_TRANSPORT_MAX_POOL_SLOTS))%codec
    (fun '(x0, x1, x2, x3, x4, x5, x6, x7, x8, x9, x10) =>
      mk_CreateBufferPoolCompactReply x0 x1 x2 x3 x4 x5 x6 x7 x8 x9 x10)
    (fun r =>
      (r.(cbc_pool_id), r.(cbc_width), r.(cbc_height), r.(cbc_pixel_format),
      r.(cbc_slot_count), r.(cbc_buffer_region_size), r.(cbc_host_backing_kind),
      r.(cbc_format), r.(cbc_reserved), r.(cbc_layout), r.(cbc_buffer_leases)))
    ltac:(solve_iso) ltac:(solve_iso).

Record AllocBufferPayload := mk_AllocBufferPayload {
  abp_pool_id : Z
}.

#[export] Instance AllocBufferPayload_pod : Pod AllocBufferPayload :=
  isoC (u64)%codec mk_AllocBufferPayload abp_pool_id
    ltac:(solve_iso) ltac:(solve_iso).

Record AllocBufferReply := mk_AllocBufferReply {
  abr_buffer_id : Z;
  abr_generation : Z;
  abr_width : Z;
  abr_height : Z;
  abr_pixel_format : Z;
  abr_slot_index : Z;
  abr_slot_offset : Z;
  abr_host_backing_kind : Z;
  abr_layout : BufferLayoutReply
}.

#[export] Instance AllocBufferReply_pod : Pod AllocBufferReply :=
  isoC
    (u64 ⊗ u64 ⊗ u32 ⊗ u32 ⊗ u32 ⊗ u32 ⊗ u32 ⊗ u32 ⊗ BufferLayoutReply_pod)%codec
    (fun '(x0, x1, x2, x3, x4, x5, x6, x7, x8) =>
      mk_AllocBufferReply x0 x1 x2 x3 x4 x5 x6 x7 x8)
    (fun r =>
      (r.(abr_buffer_id), r.(abr_generation), r.(abr_width), r.(abr_height),
      r.(abr_pixel_format), r.(abr_slot_index), r.(abr_slot_offset),
      r.(abr_host_backing_kind), r.(abr_layout)))
    ltac:(solve_iso) ltac:(solve_iso).

Record ReadBufferPayload := mk_ReadBufferPayload {
  rbp_buffer_id : Z;
  rbp_generation : Z;
  rbp_offset : Z;
  rbp_length : Z
}.

#[export] Instance ReadBufferPayload_pod : Pod ReadBufferPayload :=
  isoC
    (u64 ⊗ u64 ⊗ u32 ⊗ u32)%codec
    (fun '(x0, x1, x2, x3) =>
      mk_ReadBufferPayload x0 x1 x2 x3)
    (fun r =>
      (r.(rbp_buffer_id), r.(rbp_generation), r.(rbp_offset), r.(rbp_length)))
    ltac:(solve_iso) ltac:(solve_iso).

Record ReadBufferReply := mk_ReadBufferReply {
  rbr_buffer_id : Z;
  rbr_generation : Z;
  rbr_offset : Z;
  rbr_length : Z
}.

#[export] Instance ReadBufferReply_pod : Pod ReadBufferReply :=
  isoC
    (u64 ⊗ u64 ⊗ u32 ⊗ u32)%codec
    (fun '(x0, x1, x2, x3) =>
      mk_ReadBufferReply x0 x1 x2 x3)
    (fun r =>
      (r.(rbr_buffer_id), r.(rbr_generation), r.(rbr_offset), r.(rbr_length)))
    ltac:(solve_iso) ltac:(solve_iso).

Record WriteBufferPayload := mk_WriteBufferPayload {
  wbp_buffer_id : Z;
  wbp_generation : Z;
  wbp_offset : Z;
  wbp_length : Z
}.

#[export] Instance WriteBufferPayload_pod : Pod WriteBufferPayload :=
  isoC
    (u64 ⊗ u64 ⊗ u32 ⊗ u32)%codec
    (fun '(x0, x1, x2, x3) =>
      mk_WriteBufferPayload x0 x1 x2 x3)
    (fun r =>
      (r.(wbp_buffer_id), r.(wbp_generation), r.(wbp_offset), r.(wbp_length)))
    ltac:(solve_iso) ltac:(solve_iso).

Record RecycleBufferPayload := mk_RecycleBufferPayload {
  rcp_pool_id : Z;
  rcp_buffer_id : Z;
  rcp_generation : Z
}.

#[export] Instance RecycleBufferPayload_pod : Pod RecycleBufferPayload :=
  isoC
    (u64 ⊗ u64 ⊗ u64)%codec
    (fun '(x0, x1, x2) =>
      mk_RecycleBufferPayload x0 x1 x2)
    (fun r =>
      (r.(rcp_pool_id), r.(rcp_buffer_id), r.(rcp_generation)))
    ltac:(solve_iso) ltac:(solve_iso).

Record SetPropertyPayload := mk_SetPropertyPayload {
  spp_session_id : Z;
  spp_property_key_proxy_id : Z;
  spp_property_value_proxy_id : Z;
  spp_property_value_kind : Z;
  spp_property_number_type : Z;
  spp_property_sint64 : Z;
  spp_property_f64 : Z;
  spp_property_bool : Z;
  spp_reserved : Z;
  spp_property_key : list byte;
  spp_property_string : list byte;
  spp_property_array_count : Z;
  spp_property_dict_pair_count : Z;
  spp_property_array_i64 : list Z;
  spp_property_dict_keys : list (list byte);
  spp_property_dict_sint64 : list Z
}.

#[export] Instance SetPropertyPayload_pod : Pod SetPropertyPayload :=
  isoC
    (u64 ⊗ u64 ⊗ u64 ⊗ u32 ⊗ u32 ⊗ i64 ⊗ f64 ⊗ u32 ⊗ u32 ⊗ bytesC 64 ⊗ bytesC 64 ⊗
     u32 ⊗ u32 ⊗ arrC i64 2 ⊗ arrC (bytesC 32) 2 ⊗ arrC i64 2)%codec
    (fun '(x0, x1, x2, x3, x4, x5, x6, x7, x8, x9, x10, x11, x12, x13, x14, x15) =>
      mk_SetPropertyPayload x0 x1 x2 x3 x4 x5 x6 x7 x8 x9 x10 x11 x12 x13 x14 x15)
    (fun r =>
      (r.(spp_session_id), r.(spp_property_key_proxy_id),
      r.(spp_property_value_proxy_id), r.(spp_property_value_kind),
      r.(spp_property_number_type), r.(spp_property_sint64), r.(spp_property_f64),
      r.(spp_property_bool), r.(spp_reserved), r.(spp_property_key),
      r.(spp_property_string), r.(spp_property_array_count),
      r.(spp_property_dict_pair_count), r.(spp_property_array_i64),
      r.(spp_property_dict_keys), r.(spp_property_dict_sint64)))
    ltac:(solve_iso) ltac:(solve_iso).

Record PrepareSessionPayload := mk_PrepareSessionPayload {
  psp_session_id : Z
}.

#[export] Instance PrepareSessionPayload_pod : Pod PrepareSessionPayload :=
  isoC (u64)%codec mk_PrepareSessionPayload psp_session_id
    ltac:(solve_iso) ltac:(solve_iso).

Record EncodeFramePayload := mk_EncodeFramePayload {
  efp_session_id : Z;
  efp_image_buffer_proxy_id : Z;
  efp_image_buffer_host_id : Z;
  efp_image_buffer_generation : Z;
  efp_pts_value : Z;
  efp_pts_timescale : Z;
  efp_duration_timescale : Z;
  efp_duration_value : Z
}.

#[export] Instance EncodeFramePayload_pod : Pod EncodeFramePayload :=
  isoC
    (u64 ⊗ u64 ⊗ u64 ⊗ u64 ⊗ i64 ⊗ i32 ⊗ i32 ⊗ i64)%codec
    (fun '(x0, x1, x2, x3, x4, x5, x6, x7) =>
      mk_EncodeFramePayload x0 x1 x2 x3 x4 x5 x6 x7)
    (fun r =>
      (r.(efp_session_id), r.(efp_image_buffer_proxy_id), r.(efp_image_buffer_host_id),
      r.(efp_image_buffer_generation), r.(efp_pts_value), r.(efp_pts_timescale),
      r.(efp_duration_timescale), r.(efp_duration_value)))
    ltac:(solve_iso) ltac:(solve_iso).

Record EncodeFrameBatchPayload := mk_EncodeFrameBatchPayload {
  efb_session_id : Z;
  efb_frame_count : Z;
  efb_reserved : Z;
  efb_frames : list EncodeFramePayload
}.

#[export] Instance EncodeFrameBatchPayload_pod : Pod EncodeFrameBatchPayload :=
  isoC
    (u64 ⊗ u32 ⊗ u32 ⊗
     arrC EncodeFramePayload_pod (Z.to_nat VTF_TRANSPORT_MAX_ENCODE_BATCH))%codec
    (fun '(x0, x1, x2, x3) =>
      mk_EncodeFrameBatchPayload x0 x1 x2 x3)
    (fun r =>
      (r.(efb_session_id), r.(efb_frame_count), r.(efb_reserved), r.(efb_frames)))
    ltac:(solve_iso) ltac:(solve_iso).

Record DequeueOutputPayload := mk_DequeueOutputPayload {
  dop_session_id : Z
}.

#[export] Instance DequeueOutputPayload_pod : Pod DequeueOutputPayload :=
  isoC (u64)%codec mk_DequeueOutputPayload dop_session_id
    ltac:(solve_iso) ltac:(solve_iso).

Record DequeueOutputReply := mk_DequeueOutputReply {
  dor_session_id : Z;
  dor_output_id : Z;
  dor_codec : Z;
  dor_width : Z;
  dor_height : Z;
  dor_pixel_format : Z;
  dor_pts_value : Z;
  dor_pts_timescale : Z;
  dor_duration_timescale : Z;
  dor_duration_value : Z;
  dor_sample_size : Z;
  dor_sample_flags : Z;
  dor_parameter_set_count : Z;
  dor_nal_header_length : Z;
  dor_parameter_set_sizes : list Z;
  dor_parameter_set_data : list byte;
  dor_output_slot_index : Z;
  dor_output_slot_offset : Z;
  dor_output_region_size : Z;
  dor_reserved : Z
}.

#[export] Instance DequeueOutputReply_pod : Pod DequeueOutputReply :=
  isoC
    (u64 ⊗ u64 ⊗ u32 ⊗ u32 ⊗ u32 ⊗ u32 ⊗ i64 ⊗ i32 ⊗ i32 ⊗ i64 ⊗ u32 ⊗ u32 ⊗ u32 ⊗
     u32 ⊗ arrC u32 (Z.to_nat VTF_TRANSPORT_MAX_PARAMETER_SETS) ⊗
     bytesC (Z.to_nat VTF_TRANSPORT_MAX_PARAMETER_SET_BYTES) ⊗ u32 ⊗ u32 ⊗ u32 ⊗ u32)%codec
    (fun '(x0, x1, x2, x3, x4, x5, x6, x7, x8, x9, x10, x11, x12, x13, x14, x15, x16,
           x17, x18, x19) =>
      mk_DequeueOutputReply x0 x1 x2 x3 x4 x5 x6 x7 x8 x9 x10 x11 x12 x13 x14 x15 x16
      x17 x18 x19)
    (fun r =>
      (r.(dor_session_id), r.(dor_output_id), r.(dor_codec), r.(dor_width),
      r.(dor_height), r.(dor_pixel_format), r.(dor_pts_value), r.(dor_pts_timescale),
      r.(dor_duration_timescale), r.(dor_duration_value), r.(dor_sample_size),
      r.(dor_sample_flags), r.(dor_parameter_set_count), r.(dor_nal_header_length),
      r.(dor_parameter_set_sizes), r.(dor_parameter_set_data),
      r.(dor_output_slot_index), r.(dor_output_slot_offset),
      r.(dor_output_region_size), r.(dor_reserved)))
    ltac:(solve_iso) ltac:(solve_iso).

Record DequeueOutputBatchPayload := mk_DequeueOutputBatchPayload {
  dbp_session_id : Z;
  dbp_max_outputs : Z;
  dbp_reserved : Z
}.

#[export] Instance DequeueOutputBatchPayload_pod : Pod DequeueOutputBatchPayload :=
  isoC
    (u64 ⊗ u32 ⊗ u32)%codec
    (fun '(x0, x1, x2) =>
      mk_DequeueOutputBatchPayload x0 x1 x2)
    (fun r =>
      (r.(dbp_session_id), r.(dbp_max_outputs), r.(dbp_reserved)))
    ltac:(solve_iso) ltac:(solve_iso).

Record DequeueOutputBatchReply := mk_DequeueOutputBatchReply {
  dbr_session_id : Z;
  dbr_output_count : Z;
  dbr_reserved : Z;
  dbr_outputs : list DequeueOutputReply
}.

#[export] Instance DequeueOutputBatchReply_pod : Pod DequeueOutputBatchReply :=
  isoC
    (u64 ⊗ u32 ⊗ u32 ⊗
     arrC DequeueOutputReply_pod (Z.to_nat VTF_TRANSPORT_MAX_OUTPUT_BATCH))%codec
    (fun '(x0, x1, x2, x3) =>
      mk_DequeueOutputBatchReply x0 x1 x2 x3)
    (fun r =>
      (r.(dbr_session_id), r.(dbr_output_count), r.(dbr_reserved), r.(dbr_outputs)))
    ltac:(solve_iso) ltac:(solve_iso).

Record ReadOutputPayload := mk_ReadOutputPayload {
  rop_output_id : Z
}.

#[export] Instance ReadOutputPayload_pod : Pod ReadOutputPayload :=
  isoC (u64)%codec mk_ReadOutputPayload rop_output_id
    ltac:(solve_iso) ltac:(solve_iso).

Record ReadOutputReply := mk_ReadOutputReply {
  ror_output_id : Z;
  ror_sample_size : Z;
  ror_reserved : Z
}.

#[export] Instance ReadOutputReply_pod : Pod ReadOutputReply :=
  isoC
    (u64 ⊗ u32 ⊗ u32)%codec
    (fun '(x0, x1, x2) =>
      mk_ReadOutputReply x0 x1 x2)
    (fun r =>
      (r.(ror_output_id), r.(ror_sample_size), r.(ror_reserved)))
    ltac:(solve_iso) ltac:(solve_iso).

Record ReleaseOutputPayload := mk_ReleaseOutputPayload {
  rlp_output_id : Z
}.

#[export] Instance ReleaseOutputPayload_pod : Pod ReleaseOutputPayload :=
  isoC (u64)%codec mk_ReleaseOutputPayload rlp_output_id
    ltac:(solve_iso) ltac:(solve_iso).

Record ReleaseOutputBatchPayload := mk_ReleaseOutputBatchPayload {
  rlb_output_count : Z;
  rlb_reserved : Z;
  rlb_output_ids : list Z
}.

#[export] Instance ReleaseOutputBatchPayload_pod : Pod ReleaseOutputBatchPayload :=
  isoC
    (u32 ⊗ u32 ⊗ arrC u64 (Z.to_nat VTF_TRANSPORT_MAX_OUTPUT_BATCH))%codec
    (fun '(x0, x1, x2) =>
      mk_ReleaseOutputBatchPayload x0 x1 x2)
    (fun r =>
      (r.(rlb_output_count), r.(rlb_reserved), r.(rlb_output_ids)))
    ltac:(solve_iso) ltac:(solve_iso).

Record DestroySessionPayload := mk_DestroySessionPayload {
  dsp_session_id : Z
}.

#[export] Instance DestroySessionPayload_pod : Pod DestroySessionPayload :=
  isoC (u64)%codec mk_DestroySessionPayload dsp_session_id
    ltac:(solve_iso) ltac:(solve_iso).

Record DrainPayload := mk_DrainPayload {
  drp_session_id : Z
}.

#[export] Instance DrainPayload_pod : Pod DrainPayload :=
  isoC (u64)%codec mk_DrainPayload drp_session_id
    ltac:(solve_iso) ltac:(solve_iso).

Record DrainReply := mk_DrainReply {
  drr_session_id : Z;
  drr_pending_outputs : Z;
  drr_reserved : Z
}.

#[export] Instance DrainReply_pod : Pod DrainReply :=
  isoC
    (u64 ⊗ u32 ⊗ u32)%codec
    (fun '(x0, x1, x2) =>
      mk_DrainReply x0 x1 x2)
    (fun r =>
      (r.(drr_session_id), r.(drr_pending_outputs), r.(drr_reserved)))
    ltac:(solve_iso) ltac:(solve_iso).

Record EnqueueEncodedFramePayload := mk_EnqueueEncodedFramePayload {
  eep_session_id : Z;
  eep_buffer_proxy_id : Z;
  eep_buffer_host_id : Z;
  eep_buffer_generation : Z;
  eep_encoded_size : Z;
  eep_flags : Z;
  eep_pts_value : Z;
  eep_pts_timescale : Z;
  eep_duration_timescale : Z;
  eep_duration_value : Z
}.

#[export] Instance EnqueueEncodedFramePayload_pod : Pod EnqueueEncodedFramePayload :=
  isoC
    (u64 ⊗ u64 ⊗ u64 ⊗ u64 ⊗ u32 ⊗ u32 ⊗ i64 ⊗ i32 ⊗ i32 ⊗ i64)%codec
    (fun '(x0, x1, x2, x3, x4, x5, x6, x7, x8, x9) =>
      mk_EnqueueEncodedFramePayload x0 x1 x2 x3 x4 x5 x6 x7 x8 x9)
    (fun r =>
      (r.(eep_session_id), r.(eep_buffer_proxy_id), r.(eep_buffer_host_id),
      r.(eep_buffer_generation), r.(eep_encoded_size), r.(eep_flags),
      r.(eep_pts_value), r.(eep_pts_timescale), r.(eep_duration_timescale),
      r.(eep_duration_value)))
    ltac:(solve_iso) ltac:(solve_iso).

Record DequeueDecodedFramePayload := mk_DequeueDecodedFramePayload {
  ddp_session_id : Z
}.

#[export] Instance DequeueDecodedFramePayload_pod : Pod DequeueDecodedFramePayload :=
  isoC (u64)%codec mk_DequeueDecodedFramePayload ddp_session_id
    ltac:(solve_iso) ltac:(solve_iso).

Record DequeueDecodedFrameReply := mk_DequeueDecodedFrameReply {
  ddr_session_id : Z;
  ddr_output_id : Z;
  ddr_buffer_proxy_id : Z;
  ddr_buffer_host_id : Z;
  ddr_buffer_generation : Z;
  ddr_width : Z;
  ddr_height : Z;
  ddr_pixel_format : Z;
  ddr_flags : Z;
  ddr_pts_value : Z;
  ddr_pts_timescale : Z;
  ddr_duration_timescale : Z;
  ddr_duration_value : Z;
  ddr_status : Z;
  ddr_slot_index : Z
}.

#[export] Instance DequeueDecodedFrameReply_pod : Pod DequeueDecodedFrameReply :=
  isoC
    (u64 ⊗ u64 ⊗ u64 ⊗ u64 ⊗ u64 ⊗ u32 ⊗ u32 ⊗ u32 ⊗ u32 ⊗ i64 ⊗ i32 ⊗ i32 ⊗ i64 ⊗
     u32 ⊗ u32)%codec
    (fun '(x0, x1, x2, x3, x4, x5, x6, x7, x8, x9, x10, x11, x12, x13, x14) =>
      mk_DequeueDecodedFrameReply x0 x1 x2 x3 x4 x5 x6 x7 x8 x9 x10 x11 x12 x13 x14)
    (fun r =>
      (r.(ddr_session_id), r.(ddr_output_id), r.(ddr_buffer_proxy_id),
      r.(ddr_buffer_host_id), r.(ddr_buffer_generation), r.(ddr_width), r.(ddr_height),
      r.(ddr_pixel_format), r.(ddr_flags), r.(ddr_pts_value), r.(ddr_pts_timescale),
      r.(ddr_duration_timescale), r.(ddr_duration_value), r.(ddr_status),
      r.(ddr_slot_index)))
    ltac:(solve_iso) ltac:(solve_iso).

Record ReleaseDecodedFramePayload := mk_ReleaseDecodedFramePayload {
  rdp_session_id : Z;
  rdp_output_id : Z
}.

#[export] Instance ReleaseDecodedFramePayload_pod : Pod ReleaseDecodedFramePayload :=
  isoC
    (u64 ⊗ u64)%codec
    (fun '(x0, x1) =>
      mk_ReleaseDecodedFramePayload x0 x1)
    (fun r =>
      (r.(rdp_session_id), r.(rdp_output_id)))
    ltac:(solve_iso) ltac:(solve_iso).

Record ReadDecodedFramePayload := mk_ReadDecodedFramePayload {
  rfp_session_id : Z;
  rfp_output_id : Z
}.

#[export] Instance ReadDecodedFramePayload_pod : Pod ReadDecodedFramePayload :=
  isoC
    (u64 ⊗ u64)%codec
    (fun '(x0, x1) =>
      mk_ReadDecodedFramePayload x0 x1)
    (fun r =>
      (r.(rfp_session_id), r.(rfp_output_id)))
    ltac:(solve_iso) ltac:(solve_iso).

Record ReadDecodedFrameReply := mk_ReadDecodedFrameReply {
  rfr_output_id : Z;
  rfr_sample_size : Z;
  rfr_status : Z
}.

#[export] Instance ReadDecodedFrameReply_pod : Pod ReadDecodedFrameReply :=
  isoC
    (u64 ⊗ u32 ⊗ u32)%codec
    (fun '(x0, x1, x2) =>
      mk_ReadDecodedFrameReply x0 x1 x2)
    (fun r =>
      (r.(rfr_output_id), r.(rfr_sample_size), r.(rfr_status)))
    ltac:(solve_iso) ltac:(solve_iso).

Record BindDecodeOutputPoolPayload := mk_BindDecodeOutputPoolPayload {
  bop_session_id : Z;
  bop_pool_id : Z;
  bop_reserved : list byte
}.

#[export] Instance BindDecodeOutputPoolPayload_pod : Pod BindDecodeOutputPoolPayload :=
  isoC
    (u64 ⊗ u64 ⊗ bytesC 16)%codec
    (fun '(x0, x1, x2) =>
      mk_BindDecodeOutputPoolPayload x0 x1 x2)
    (fun r =>
      (r.(bop_session_id), r.(bop_pool_id), r.(bop_reserved)))
    ltac:(solve_iso) ltac:(solve_iso).

Record ReadDecodedFrameChunkPayload := mk_ReadDecodedFrameChunkPayload {
  rkp_session_id : Z;
  rkp_output_id : Z;
  rkp_offset : Z;
  rkp_length : Z
}.

#[export] Instance ReadDecodedFrameChunkPayload_pod : Pod ReadDecodedFrameChunkPayload :=
  isoC
    (u64 ⊗ u64 ⊗ u32 ⊗ u32)%codec
    (fun '(x0, x1, x2, x3) =>
      mk_ReadDecodedFrameChunkPayload x0 x1 x2 x3)
    (fun r =>
      (r.(rkp_session_id), r.(rkp_output_id), r.(rkp_offset), r.(rkp_length)))
    ltac:(solve_iso) ltac:(solve_iso).

Record ReadDecodedFrameChunkReply := mk_ReadDecodedFrameChunkReply {
  rkr_output_id : Z;
  rkr_offset : Z;
  rkr_length : Z;
  rkr_status : Z;
  rkr_reserved : Z
}.

#[export] Instance ReadDecodedFrameChunkReply_pod : Pod ReadDecodedFrameChunkReply :=
  isoC
    (u64 ⊗ u32 ⊗ u32 ⊗ u32 ⊗ u32)%codec
    (fun '(x0, x1, x2, x3, x4) =>
      mk_ReadDecodedFrameChunkReply x0 x1 x2 x3 x4)
    (fun r =>
      (r.(rkr_output_id), r.(rkr_offset), r.(rkr_length), r.(rkr_status),
      r.(rkr_reserved)))
    ltac:(solve_iso) ltac:(solve_iso).

Record SetDecodeFormatPayload := mk_SetDecodeFormatPayload {
  sdf_session_id : Z;
  sdf_codec : Z;
  sdf_width : Z;
  sdf_height : Z;
  sdf_nal_header_length : Z;
  sdf_parameter_set_count : Z;
  sdf_flags : Z;
  sdf_parameter_set_sizes : list Z;
  sdf_parameter_set_data : list byte
}.

#[export] Instance SetDecodeFormatPayload_pod : Pod SetDecodeFormatPayload :=
  isoC
    (u64 ⊗ u32 ⊗ u32 ⊗ u32 ⊗ u32 ⊗ u32 ⊗ u32 ⊗
     arrC u32 (Z.to_nat VTF_TRANSPORT_MAX_PARAMETER_SETS) ⊗
     bytesC (Z.to_nat VTF_TRANSPORT_MAX_PARAMETER_SET_BYTES))%codec
    (fun '(x0, x1, x2, x3, x4, x5, x6, x7, x8) =>
      mk_SetDecodeFormatPayload x0 x1 x2 x3 x4 x5 x6 x7 x8)
    (fun r =>
      (r.(sdf_session_id), r.(sdf_codec), r.(sdf_width), r.(sdf_height),
      r.(sdf_nal_header_length), r.(sdf_parameter_set_count), r.(sdf_flags),
      r.(sdf_parameter_set_sizes), r.(sdf_parameter_set_data)))
    ltac:(solve_iso) ltac:(solve_iso).

Record DestroyBufferPoolPayload := mk_DestroyBufferPoolPayload {
  dpp_pool_id : Z
}.

#[export] Instance DestroyBufferPoolPayload_pod : Pod DestroyBufferPoolPayload :=
  isoC (u64)%codec mk_DestroyBufferPoolPayload dpp_pool_id
    ltac:(solve_iso) ltac:(solve_iso).

Record EnqueueEncodedFrameChunkPayload := mk_EnqueueEncodedFrameChunkPayload {
  ekp_session_id : Z;
  ekp_pts_value : Z;
  ekp_duration_value : Z;
  ekp_chunk_offset : Z;
  ekp_chunk_length : Z;
  ekp_total_encoded_size : Z;
  ekp_is_final_chunk : Z;
  ekp_flags : Z;
  ekp_pts_timescale : Z;
  ekp_duration_timescale : Z;
  ekp_reserved : Z
}.

#[export] Instance EnqueueEncodedFrameChunkPayload_pod : Pod EnqueueEncodedFrameChunkPayload :=
  isoC
    (u64 ⊗ i64 ⊗ i64 ⊗ u32 ⊗ u32 ⊗ u32 ⊗ u32 ⊗ u32 ⊗ i32 ⊗ i32 ⊗ u32)%codec
    (fun '(x0, x1, x2, x3, x4, x5, x6, x7, x8, x9, x10) =>
      mk_EnqueueEncodedFrameChunkPayload x0 x1 x2 x3 x4 x5 x6 x7 x8 x9 x10)
    (fun r =>
      (r.(ekp_session_id), r.(ekp_pts_value), r.(ekp_duration_value),
      r.(ekp_chunk_offset), r.(ekp_chunk_length), r.(ekp_total_encoded_size),
      r.(ekp_is_final_chunk), r.(ekp_flags), r.(ekp_pts_timescale),
      r.(ekp_duration_timescale), r.(ekp_reserved)))
    ltac:(solve_iso) ltac:(solve_iso).

(** ** Wire contract *)

Definition all_opcodes : list Z :=
  [OP_HELLO; OP_PING; OP_GET_CAPS; OP_CREATE_SESSION; OP_SET_PROPERTY;
   OP_PREPARE_SESSION; OP_CREATE_BUFFER_POOL; OP_ALLOC_BUFFER; OP_READ_BUFFER;
   OP_WRITE_BUFFER; OP_RECYCLE_BUFFER; OP_ENCODE_FRAME; OP_ENCODE_FRAME_BATCH;
   OP_DEQUEUE_OUTPUT; OP_DEQUEUE_OUTPUT_BATCH; OP_READ_OUTPUT; OP_RELEASE_OUTPUT;
   OP_RELEASE_OUTPUT_BATCH; OP_DRAIN; OP_DESTROY_SESSION; OP_ENQUEUE_ENCODED_FRAME;
   OP_DEQUEUE_DECODED_FRAME; OP_RELEASE_DECODED_FRAME; OP_SET_DECODE_FORMAT;
   OP_READ_DECODED_FRAME; OP_BIND_DECODE_OUTPUT_POOL; OP_READ_DECODED_FRAME_CHUNK;
   OP_DESTROY_BUFFER_POOL; OP_ENQUEUE_ENCODED_FRAME_CHUNK].

Definition all_status : list Z :=
  [STATUS_OK; STATUS_UNSUPPORTED_OPCODE; STATUS_UNSUPPORTED_VERSION;
   STATUS_UNSUPPORTED_CODEC_OR_FORMAT; STATUS_INVALID_HANDLE;
   STATUS_STALE_GENERATION; STATUS_INVALID_STATE; STATUS_BOUNDS_VIOLATION;
   STATUS_INTERNAL_FAILURE; STATUS_TIMEOUT; STATUS_RESOURCE_EXHAUSTED;
   STATUS_PROPERTY_NOT_SUPPORTED].

(** An opcode identifies its arm: in a dispatch table over distinct opcodes
    every listed arm is reached by exactly its own opcode. *)
Lemma match_op_hit {X} op (x : X) arms d :
  NoDup (arms.*1) -> (op, x) ∈ arms -> match_op op arms d = x.
Proof.
  induction arms as [|[k y] arms IH]; simpl; intros Hnd Hin; [set_solver|].
  apply list.NoDup_cons in Hnd as [Hk Hnd].
  apply elem_of_cons in Hin as [[= <- <-]|Hin].
  - by rewrite Z.eqb_refl.
  - destruct (op =? k) eqn:E; zbool; [|by apply IH].
    subst. destruct Hk. apply list_elem_of_fmap. by exists (k, x).
Qed.

Lemma match_op_miss {X} op (arms : list (Z * X)) d :
  op ∉ arms.*1 -> match_op op arms d = d.
Proof.
  induction arms as [|[k y] arms IH]; simpl; intros Hin; [done|].
  destruct (op =? k) eqn:E; zbool; set_solver.
Qed.

Definition caps_disjoint (caps : list Z) : bool :=
  forallb (fun c => (0 <? c) && (Z.land c (c - 1) =? 0)) caps &&
  (foldr Z.lor 0 caps =? foldr Z.add 0 caps).

(** The wire contract: the framing header is 24 bytes and the structs a client
    parses before anything else have their pinned sizes, no two opcodes and no
    two status codes share a number, and the capability bits of each field are
    distinct single bits. *)
Theorem wire_contract :
  [size_of MessageHeader; size_of HelloPayload; size_of HelloReply;
   size_of GetCapsReply; size_of BufferLayoutReply; size_of WriteBufferPayload;
   size_of ReadBufferReply; size_of EnqueueEncodedFrameChunkPayload]
    = [24; 16; 48; 40; 72; 24; 24; 56]%nat /\
  NoDup all_opcodes /\ NoDup all_status /\
  caps_disjoint [CAP_PIXEL_FORMAT_NV12; CAP_PIXEL_FORMAT_BGRA; CAP_PIXEL_FORMAT_P010] = true /\
  caps_disjoint [CAP_CODEC_H264; CAP_CODEC_HEVC] = true /\
  caps_disjoint [CAP_SESSION_FEATURE_ASYNC_COMPLETE; CAP_SESSION_FEATURE_BUFFER_SYNC;
                 CAP_SESSION_FEATURE_DECODE] = true.
Proof.
  split_and!; [reflexivity| | |reflexivity..];
    apply (bool_decide_unpack _); vm_compute; exact I.
Qed.
