(* ===== verification/Layout.v ===== *)
(** * Pixel-buffer layouts

    The plane layout of a [(width, height, pixel_format)] frame is computed in
    four places: by the mock worker ([mock.rs], [fill_buffer_layout]), by the
    VideoToolbox worker ([vt_real.rs], [vtf_fill_buffer_layout] with its
    companion [vtf_buffer_total_size]), by the guest's decode path
    ([videotoolbox.rs], [vtf_decode_layout_for_format]) and, as an allocation
    size, by the broker ([pool.rs], [pool_slot_alloc_size]).  They are modelled
    separately, with the widths their arithmetic has in the source, and proved
    to agree with one mathematical layout [layout_spec] as long as that layout
    fits 32 bits. *)

From S2P Require Import Prelude Wire Protocol.
From Stdlib Require Import Btauto.

Set Default Goal Selector "!".
Open Scope Z_scope.

Definition FOURCC_420V : Z := 0x34323076.
Definition FOURCC_420F : Z := 0x34323066.
Definition FOURCC_X420 : Z := 0x78343230.
Definition FOURCC_XF20 : Z := 0x78663230.
Definition BGRA_FOURCC : Z := 0x42475241.
Definition NV12_FOURCC : Z := 0x34323076.

Definition is_nv12 (pf : Z) : bool := (pf =? FOURCC_420V) || (pf =? FOURCC_420F).
Definition is_p010 (pf : Z) : bool := (pf =? FOURCC_X420) || (pf =? FOURCC_XF20).

(** [!x] on a [w]-bit unsigned integer. *)
Definition u_not (w x : Z) : Z := 2 ^ w - 1 - x.

Section layouts.
Context `{Profile}.

(** ** Worker side, mock backend *)

Definition align_size (value alignment : Z) : rust Z :=
  if alignment =? 0 then Val value else
  let remainder := value mod alignment in
  if remainder =? 0 then Val value else arith 64 (value + (alignment - remainder)).

(** The two-plane body of [fill_buffer_layout]; [sample] is the stride argument
    of the format's arm. *)
Definition biplanar_layout (width height stride : Z) : rust BufferLayoutReply :=
  off1 ← arith 32 (stride * height);
  chroma ← arith 32 (stride * (height / 2));
  total ← arith 32 (off1 + chroma);
  mret {| bl_plane_count := 2;
          bl_total_size := total;
          bl_plane_offsets := [0; off1; 0; 0];
          bl_plane_widths := [width; width / 2; 0; 0];
          bl_plane_heights := [height; height / 2; 0; 0];
          bl_plane_bytes_per_row := [stride; stride; 0; 0] |}.

Definition packed_layout (width height stride : Z) : rust BufferLayoutReply :=
  total ← arith 32 (stride * height);
  mret {| bl_plane_count := 1;
          bl_total_size := total;
          bl_plane_offsets := [0; 0; 0; 0];
          bl_plane_widths := [width; 0; 0; 0];
          bl_plane_heights := [height; 0; 0; 0];
          bl_plane_bytes_per_row := [stride; 0; 0; 0] |}.

Definition fill_buffer_layout (width height pixel_format : Z) : rust BufferLayoutReply :=
  if is_nv12 pixel_format then
    s ← align_size width 64;
    biplanar_layout width height (wrap 32 s)
  else if is_p010 pixel_format then
    w2 ← arith 64 (width * 2);
    s ← align_size w2 64;
    biplanar_layout width height (wrap 32 s)
  else
    w4 ← arith 64 (width * 4);
    s ← align_size w4 64;
    packed_layout width height (wrap 32 s).

(** ** Worker side, VideoToolbox backend *)

Definition vtf_align_size (value alignment : Z) : rust Z :=
  if alignment =? 0 then Val value else
  let remainder := value mod alignment in
  if remainder =? 0 then Val value else arith 64 (value + (alignment - remainder)).

Definition vtf_buffer_total_size (width height pixel_format : Z) : rust Z :=
  if is_nv12 pixel_format then
    stride ← vtf_align_size width 64;
    y ← arith 64 (stride * height);
    c ← arith 64 (stride * (height / 2));
    arith 64 (y + c)
  else if is_p010 pixel_format then
    w2 ← arith 64 (width * 2);
    stride ← vtf_align_size w2 64;
    y ← arith 64 (stride * height);
    c ← arith 64 (stride * (height / 2));
    arith 64 (y + c)
  else
    w4 ← arith 64 (width * 4);
    stride ← vtf_align_size w4 64;
    arith 64 (stride * height).

Definition vtf_fill_buffer_layout (width height pixel_format : Z) : rust BufferLayoutReply :=
  if is_nv12 pixel_format then
    s ← vtf_align_size width 64;
    biplanar_layout width height (wrap 32 s)
  else if is_p010 pixel_format then
    w2 ← arith 64 (width * 2);
    s ← vtf_align_size w2 64;
    biplanar_layout width height (wrap 32 s)
  else
    w4 ← arith 64 (width * 4);
    s ← vtf_align_size w4 64;
    packed_layout width height (wrap 32 s).

(** ** Guest side: the decode path's mirror, in [u32] throughout *)

Definition align64 (v : Z) : rust Z :=
  v' ← arith 32 (v + 63);
  mret (Z.land v' (u_not 32 63)).

Definition vtf_decode_layout_for_format (width height pixel_format : Z)
    : rust BufferLayoutReply :=
  if is_nv12 pixel_format then
    stride ← align64 width;
    biplanar_layout width height stride
  else if is_p010 pixel_format then
    w2 ← arith 32 (width * 2);
    stride ← align64 w2;
    biplanar_layout width height stride
  else
    w4 ← arith 32 (width * 4);
    stride ← align64 w4;
    packed_layout width height stride.

(** ** Broker: slot allocation size

    [page_size] is [sysconf(_SC_PAGESIZE)]. *)

Definition page_round_up (page_size value : Z) : rust Z :=
  if page_size =? 0 then Val value else
  v ← arith 64 (value + page_size);
  v' ← arith 64 (v - 1);
  p' ← arith 64 (page_size - 1);
  mret (Z.land v' (u_not 64 p')).

Definition align_up (value alignment : Z) : rust Z :=
  if alignment =? 0 then Val value else
  v ← arith 64 (value + alignment);
  v' ← arith 64 (v - 1);
  a' ← arith 64 (alignment - 1);
  mret (Z.land v' (u_not 64 a')).

(** [None] is the [Err] for an unsupported pixel format. *)
Definition pool_slot_alloc_size (page_size width height pixel_format : Z)
    : rust (option Z) :=
  if pixel_format =? BGRA_FOURCC then
    w4 ← arith 64 (width * 4);
    raw ← arith 64 (w4 * height);
    Some <$> page_round_up page_size raw
  else if pixel_format =? NV12_FOURCC then
    stride ← align_up width 64;
    y ← arith 64 (stride * height);
    cbcr ← arith 64 (stride * (height / 2));
    raw ← arith 64 (y + cbcr);
    Some <$> page_round_up page_size raw
  else mret None.
End layouts.

(** ** Every layout the mock computes is representable *)

Lemma half_range z : 0 <= z < 2 ^ 32 -> 0 <= z / 2 < 2 ^ 32.
Proof. intros Hz. split; [apply Z.div_pos; lia|]. apply Z.div_lt_upper_bound; lia. Qed.

Ltac u32_ok :=
  first [reflexivity | apply (uint_ok_spec 4); first [assumption | lia | by apply half_range]].
Ltac u32s_ok :=
  first [ u32_ok
        | apply arr_ok_spec; split; [reflexivity|]; repeat constructor; cbn; u32_ok ].

Lemma biplanar_layout_ok `{Profile} w h stride l :
  0 <= w < 2 ^ 32 -> 0 <= h < 2 ^ 32 -> 0 <= stride < 2 ^ 32 ->
  biplanar_layout w h stride = Val l -> pod_ok l = true /\ 0 <= bl_total_size l < 2 ^ 32.
Proof.
  intros Hw Hh Hs Hl. unfold biplanar_layout in Hl.
  destruct (arith 32 (stride * h)) as [off1|] eqn:E1; [|done].
  destruct (arith 32 (stride * (h / 2))) as [ch|] eqn:E2; [|done].
  destruct (arith 32 (off1 + ch)) as [tot|] eqn:E3; cbn in Hl; rewrite E3 in Hl; [|done].
  apply arith_range in E1, E2, E3; [|lia..]. injection Hl as <-.
  split; [|done]. pod_ok_split; u32s_ok.
Qed.

Lemma packed_layout_ok `{Profile} w h stride l :
  0 <= w < 2 ^ 32 -> 0 <= h < 2 ^ 32 -> 0 <= stride < 2 ^ 32 ->
  packed_layout w h stride = Val l -> pod_ok l = true /\ 0 <= bl_total_size l < 2 ^ 32.
Proof.
  intros Hw Hh Hs Hl. unfold packed_layout in Hl.
  destruct (arith 32 (stride * h)) as [tot|] eqn:E1; [|done].
  apply arith_range in E1; [|lia]. injection Hl as <-.
  split; [|done]. pod_ok_split; u32s_ok.
Qed.

Lemma fill_buffer_layout_ok `{Profile} w h pf l :
  0 <= w < 2 ^ 32 -> 0 <= h < 2 ^ 32 ->
  fill_buffer_layout w h pf = Val l -> pod_ok l = true /\ 0 <= bl_total_size l < 2 ^ 32.
Proof.
  intros Hw Hh Hl. assert (forall z, 0 <= wrap 32 z < 2 ^ 32) as Hwr
    by (intros; apply Z.mod_pos_bound; lia).
  unfold fill_buffer_layout, mbind, rust_bind in Hl.
  repeat match type of Hl with
         | (if ?b then _ else _) = _ => destruct b
         | match ?c with Val _ => _ | Panic => _ end = _ => destruct c; [|done]
         end; eauto using biplanar_layout_ok, packed_layout_ok.
Qed.

(** ** The mathematical layout *)

Definition round64 (v : Z) : Z := 64 * ((v + 63) / 64).

Definition bytes_per_sample (pf : Z) : Z :=
  if is_nv12 pf then 1 else if is_p010 pf then 2 else 4.

Definition biplanar (pf : Z) : bool := is_nv12 pf || is_p010 pf.

Definition stride_spec (width pf : Z) : Z := round64 (width * bytes_per_sample pf).

Definition total_spec (width height pf : Z) : Z :=
  let s := stride_spec width pf in
  if biplanar pf then s * height + s * (height / 2) else s * height.

Definition layout_spec (width height pf : Z) : BufferLayoutReply :=
  let s := stride_spec width pf in
  if biplanar pf then
    {| bl_plane_count := 2;
       bl_total_size := total_spec width height pf;
       bl_plane_offsets := [0; s * height; 0; 0];
       bl_plane_widths := [width; width / 2; 0; 0];
       bl_plane_heights := [height; height / 2; 0; 0];
       bl_plane_bytes_per_row := [s; s; 0; 0] |}
  else
    {| bl_plane_count := 1;
       bl_total_size := total_spec width height pf;
       bl_plane_offsets := [0; 0; 0; 0];
       bl_plane_widths := [width; 0; 0; 0];
       bl_plane_heights := [height; 0; 0; 0];
       bl_plane_bytes_per_row := [s; 0; 0; 0] |}.

(** The [u32] geometry a request can carry whose layout fits 32 bits. *)
Definition layout_fits (width height pf : Z) : Prop :=
  0 <= width < 2 ^ 32 /\ 0 <= height < 2 ^ 32 /\
  width * bytes_per_sample pf + 63 < 2 ^ 32 /\
  total_spec width height pf < 2 ^ 32.

#[export] Instance layout_fits_dec w h pf : Decision (layout_fits w h pf).
Proof. unfold layout_fits. apply _. Defined.

(** ** Rounding *)

Lemma round64_bounds v : v <= round64 v < v + 64.
Proof. unfold round64. pose proof (Z_div_mod_eq_full (v + 63) 64).
  pose proof (Z.mod_pos_bound (v + 63) 64). lia. Qed.

Lemma land_u_not w k v :
  0 <= k <= w -> 0 <= v < 2 ^ w ->
  Z.land v (u_not w (2 ^ k - 1)) = 2 ^ k * (v / 2 ^ k).
Proof.
  intros Hk Hv. unfold u_not.
  assert (2 ^ w - 1 - (2 ^ k - 1) = Z.ldiff (Z.ones w) (Z.ones k)) as ->.
  { rewrite <- Z.sub_nocarry_ldiff.
    - rewrite !Z.ones_equiv. lia.
    - rewrite Z.ldiff_ones_r, Z.shiftr_div_pow2, Z.ones_equiv by lia.
      rewrite Z.div_small; [by rewrite Z.shiftl_0_l|].
      pose proof (Z.pow_le_mono_r 2 k w). pose proof (Z.pow_pos_nonneg 2 k). lia. }
  assert (Z.land v (Z.ldiff (Z.ones w) (Z.ones k)) = Z.ldiff v (Z.ones k)) as ->.
  { assert (v = Z.land v (Z.ones w)) as E
      by (rewrite Z.land_ones by lia; by rewrite Z.mod_small).
    rewrite E at 2. apply Z.bits_inj'. intros n Hn.
    rewrite !Z.land_spec, !Z.ldiff_spec, !Z.land_spec. btauto. }
  rewrite Z.ldiff_ones_r, Z.shiftr_div_pow2, Z.shiftl_mul_pow2 by lia. lia.
Qed.

Section agreement.
Context `{Profile}.

Lemma align_size_round v : 0 <= v < 2 ^ 63 -> align_size v 64 = Val (round64 v).
Proof.
  intros Hv. unfold align_size. change (64 =? 0) with false. cbv iota zeta.
  pose proof (Z_div_mod_eq_full v 64) as Hd. pose proof (Z.mod_pos_bound v 64) as Hm.
  unfold round64. destruct (v mod 64 =? 0) eqn:E; zbool.
  - f_equal. replace (v + 63) with (63 + v / 64 * 64) by lia.
    rewrite Z.div_add by lia. change (63 / 64) with 0. lia.
  - rewrite arith_in by lia. f_equal.
    replace (v + 63) with ((v mod 64 - 1) + (v / 64 + 1) * 64) by lia.
    rewrite Z.div_add, Z.div_small by lia. lia.
Qed.

Lemma align64_round v : 0 <= v -> v + 63 < 2 ^ 32 -> align64 v = Val (round64 v).
Proof.
  intros Hv Hf. unfold align64. rust_run.
  f_equal. apply (land_u_not 32 6); lia.
Qed.

Lemma align_up_round v : 0 <= v < 2 ^ 63 -> align_up v 64 = Val (round64 v).
Proof.
  intros Hv. unfold align_up. change (64 =? 0) with false. cbv iota.
  rust_run. f_equal. unfold round64. replace (v + 63) with (v + 64 - 1) by lia.
  apply (land_u_not 64 6); lia.
Qed.

Lemma page_round_up_spec k v :
  0 <= k < 63 -> 0 <= v < 2 ^ 63 ->
  page_round_up (2 ^ k) v = Val (2 ^ k * ((v + 2 ^ k - 1) / 2 ^ k)).
Proof.
  intros Hk Hv. pose proof (Z.pow_pos_nonneg 2 k ltac:(lia) ltac:(lia)).
  pose proof (Z.pow_lt_mono_r 2 k 63 ltac:(lia) ltac:(lia) ltac:(lia)).
  unfold page_round_up. destruct (2 ^ k =? 0) eqn:E; zbool.
  rust_run. f_equal. apply land_u_not; lia.
Qed.

Lemma page_round_up_ge k v :
  0 <= k < 63 -> 0 <= v < 2 ^ 63 ->
  exists r, page_round_up (2 ^ k) v = Val r /\ v <= r.
Proof.
  intros Hk Hv. eexists. split; [by apply page_round_up_spec|].
  pose proof (Z.pow_pos_nonneg 2 k ltac:(lia) ltac:(lia)).
  pose proof (Z_div_mod_eq_full (v + 2 ^ k - 1) (2 ^ k)).
  pose proof (Z.mod_pos_bound (v + 2 ^ k - 1) (2 ^ k)). lia.
Qed.

Lemma biplanar_layout_spec w h pf :
  biplanar pf = true -> 0 <= h -> 0 <= stride_spec w pf ->
  total_spec w h pf < 2 ^ 32 ->
  biplanar_layout w h (stride_spec w pf) = Val (layout_spec w h pf).
Proof.
  intros Hb Hh Hs Ht. unfold layout_spec, total_spec in *. rewrite Hb in *.
  unfold biplanar_layout. set (s := stride_spec w pf) in *. cbv zeta in Ht.
  assert (0 <= h / 2) by (apply Z.div_pos; lia).
  assert (0 <= s * h) by nia. assert (0 <= s * (h / 2)) by nia.
  by rust_run.
Qed.

Lemma packed_layout_spec w h pf :
  biplanar pf = false -> 0 <= h -> 0 <= stride_spec w pf ->
  total_spec w h pf < 2 ^ 32 ->
  packed_layout w h (stride_spec w pf) = Val (layout_spec w h pf).
Proof.
  intros Hb Hh Hs Ht. unfold layout_spec, total_spec in *. rewrite Hb in *.
  unfold packed_layout. cbv zeta in Ht.
  assert (0 <= stride_spec w pf * h) by nia.
  by rust_run.
Qed.
End agreement.

Section layout_theorems.
Context `{Profile}.
Implicit Types (w h pf : Z).

Lemma stride_spec_bounds w h pf :
  layout_fits w h pf -> 0 <= stride_spec w pf < 2 ^ 32.
Proof.
  intros (Hw & Hh & Hs & Ht). unfold stride_spec.
  pose proof (round64_bounds (w * bytes_per_sample pf)).
  assert (0 <= w * bytes_per_sample pf)
    by (unfold bytes_per_sample; repeat case_if; lia).
  lia.
Qed.

(** The stride computed in [usize] and truncated to [u32] is the exact one. *)
Lemma wrap_stride w h pf :
  layout_fits w h pf -> wrap 32 (round64 (w * bytes_per_sample pf)) = stride_spec w pf.
Proof. intros Hf. apply Z.mod_small. by eapply stride_spec_bounds. Qed.

(** Case analysis on the format class; each arm reduces to one of the two
    layout bodies. *)
Ltac layout_cases pf :=
  destruct (is_nv12 pf) eqn:En; [|destruct (is_p010 pf) eqn:Ep].

Ltac layout_done :=
  (apply biplanar_layout_spec || apply packed_layout_spec);
  solve [lia
        | unfold biplanar;
          repeat match goal with
                 | E : is_nv12 _ = _ |- _ => rewrite E; clear E
                 | E : is_p010 _ = _ |- _ => rewrite E; clear E
                 end; reflexivity].

Lemma fill_buffer_layout_spec w h pf :
  layout_fits w h pf -> fill_buffer_layout w h pf = Val (layout_spec w h pf).
Proof.
  intros Hf. unfold fill_buffer_layout.
  pose proof (wrap_stride _ _ _ Hf) as Hwrap. pose proof (stride_spec_bounds _ _ _ Hf).
  destruct Hf as (Hw & Hh & Hs & Ht). unfold bytes_per_sample in Hwrap, Hs.
  layout_cases pf; rust_run; rewrite align_size_round by lia;
    cbv beta iota delta [mbind rust_bind];
    rewrite ?Z.mul_1_r in Hwrap; rewrite Hwrap; layout_done.
Qed.

Lemma vtf_fill_buffer_layout_spec w h pf :
  layout_fits w h pf -> vtf_fill_buffer_layout w h pf = Val (layout_spec w h pf).
Proof. exact (fill_buffer_layout_spec w h pf). Qed.

Lemma vtf_decode_layout_spec w h pf :
  layout_fits w h pf -> vtf_decode_layout_for_format w h pf = Val (layout_spec w h pf).
Proof.
  intros Hf. unfold vtf_decode_layout_for_format.
  pose proof (stride_spec_bounds _ _ _ Hf).
  destruct Hf as (Hw & Hh & Hs & Ht). pose proof (eq_refl (stride_spec w pf)) as Hst.
  unfold stride_spec at 2 in Hst. unfold bytes_per_sample in Hst, Hs.
  layout_cases pf; rust_run; rewrite align64_round by lia;
    cbv beta iota delta [mbind rust_bind];
    rewrite ?Z.mul_1_r in Hst; rewrite <- Hst; layout_done.
Qed.

Lemma vtf_buffer_total_size_spec w h pf :
  layout_fits w h pf -> vtf_buffer_total_size w h pf = Val (total_spec w h pf).
Proof.
  intros Hf. unfold vtf_buffer_total_size.
  pose proof (stride_spec_bounds _ _ _ Hf) as Hsb.
  destruct Hf as (Hw & Hh & Hs & Ht). unfold total_spec, biplanar in *.
  pose proof (eq_refl (stride_spec w pf)) as Hst.
  unfold stride_spec at 2 in Hst. unfold bytes_per_sample in Hst, Hs.
  assert (0 <= h / 2 <= h) by (split; [apply Z.div_pos|apply Z.div_le_upper_bound]; lia).
  set (s := stride_spec w pf) in *. cbv zeta in *.
  assert (0 <= s * h) by nia. assert (0 <= s * (h / 2)) by nia.
  layout_cases pf; simpl in *; rust_run;
    change vtf_align_size with align_size; rewrite align_size_round by lia;
    rewrite ?Z.mul_1_r in Hst; rewrite <- Hst; by rust_run.
Qed.

(** C35: the mock worker, the VideoToolbox worker and the guest's decode path
    compute the same plane layout, with no panic or wrap-around in either
    build profile, for every geometry whose layout fits 32 bits; the
    worker's [vtf_buffer_total_size] is that layout's [total_size]. *)
Theorem layouts_agree w h pf :
  layout_fits w h pf ->
  fill_buffer_layout w h pf = Val (layout_spec w h pf) /\
  vtf_fill_buffer_layout w h pf = Val (layout_spec w h pf) /\
  vtf_decode_layout_for_format w h pf = Val (layout_spec w h pf) /\
  vtf_buffer_total_size w h pf = Val (bl_total_size (layout_spec w h pf)).
Proof.
  intros Hf. split_and!.
  - by apply fill_buffer_layout_spec.
  - by apply vtf_fill_buffer_layout_spec.
  - by apply vtf_decode_layout_spec.
  - rewrite vtf_buffer_total_size_spec by done. unfold layout_spec. by case_if.
Qed.
End layout_theorems.

Lemma layouts_agree_witness :
  layout_fits 1920 1080 FOURCC_420V /\
  @vtf_decode_layout_for_format debug_build 1920 1080 FOURCC_420V
    = @vtf_fill_buffer_layout debug_build 1920 1080 FOURCC_420V.
Proof.
  assert (layout_fits 1920 1080 FOURCC_420V) as Hf by (vm_compute; intuition congruence).
  split; [exact Hf|].
  destruct (layouts_agree (H:=debug_build) _ _ _ Hf) as (_ & -> & -> & _). reflexivity.
Defined.

(** ** Geometry of a layout *)

Section layout_geometry.
Implicit Types (w h pf : Z) (l : BufferLayoutReply).

Definition plane_offset l p := default 0 (bl_plane_offsets l !! p).
Definition plane_height l p := default 0 (bl_plane_heights l !! p).
Definition plane_stride l p := default 0 (bl_plane_bytes_per_row l !! p).
Definition plane_width l p := default 0 (bl_plane_widths l !! p).
Definition plane_end l p := plane_offset l p + plane_stride l p * plane_height l p.

(** The planes follow each other from offset 0 without gap or overlap up to [total_size];
    every row stride is a multiple of 64 and holds the row's samples. *)
Definition tiled w pf l : Prop :=
  plane_offset l 0 = 0 /\
  (if biplanar pf
   then bl_plane_count l = 2 /\ plane_offset l 1 = plane_end l 0 /\
        plane_end l 1 = bl_total_size l /\
        2 * bytes_per_sample pf * plane_width l 1 <= plane_stride l 1
   else bl_plane_count l = 1 /\ plane_end l 0 = bl_total_size l) /\
  plane_stride l 0 mod 64 = 0 /\
  bytes_per_sample pf * plane_width l 0 <= plane_stride l 0 < bytes_per_sample pf * w + 64.

Lemma layout_spec_tiled w h pf : 0 <= w -> 0 <= h -> tiled w pf (layout_spec w h pf).
Proof.
  intros Hw Hh. pose proof (round64_bounds (w * bytes_per_sample pf)) as Hr.
  assert (stride_spec w pf mod 64 = 0) as Hm
    by (unfold stride_spec, round64; rewrite Z.mul_comm; apply Z.mod_mul; lia).
  assert (2 * (w / 2) <= w) by (apply Z.mul_div_le; lia).
  assert (1 <= bytes_per_sample pf) by (unfold bytes_per_sample; repeat case_if; lia).
  fold (stride_spec w pf) in Hr.
  unfold tiled, layout_spec, total_spec, plane_end, plane_offset, plane_height, plane_stride,
    plane_width. destruct (biplanar pf); cbn; split_and!; try lia; nia.
Qed.
End layout_geometry.



(** A layout the worker computed, for a geometry that fits 32 bits. *)
Definition laid_out `{Profile} (l : BufferLayoutReply) : Prop :=
  exists w h pf, layout_fits w h pf /\ vtf_fill_buffer_layout w h pf = Val l.

(** ** The broker's allocation against the worker's region *)

Section broker_alloc.
Context `{Profile}.

Lemma is_nv12_broker : is_nv12 NV12_FOURCC = true.
Proof. reflexivity. Qed.

(** For NV12 the broker's page-rounded slot allocation is at least the worker's
    [total_size] for the slot. *)
Lemma broker_nv12_slot_suffices k w h :
  0 <= k < 63 -> layout_fits w h NV12_FOURCC ->
  exists alloc, pool_slot_alloc_size (2 ^ k) w h NV12_FOURCC = Val (Some alloc) /\
    total_spec w h NV12_FOURCC <= alloc.
Proof.
  intros Hk Hf. pose proof (stride_spec_bounds _ _ _ Hf) as Hsb.
  destruct Hf as (Hw & Hh & Hs & Ht). unfold pool_slot_alloc_size.
  change (NV12_FOURCC =? BGRA_FOURCC) with false. rewrite Z.eqb_refl. cbv iota.
  rewrite align_up_round by lia.
  assert (round64 w = stride_spec w NV12_FOURCC) as ->
    by (unfold stride_spec; change (bytes_per_sample NV12_FOURCC) with 1; by rewrite Z.mul_1_r).
  unfold total_spec in *. change (biplanar NV12_FOURCC) with true in *. cbv iota zeta in *.
  assert (0 <= h / 2) by (apply Z.div_pos; lia).
  set (s := stride_spec w NV12_FOURCC) in *.
  assert (0 <= s * h) by nia. assert (0 <= s * (h / 2)) by nia.
  destruct (page_round_up_ge k (s * h + s * (h / 2)) Hk) as (r & Hr & Hle); [lia|].
  exists r. split; [|done]. rust_run. by rewrite Hr.
Qed.

(** For BGRA the broker sizes a slot by the unpadded row [4 * width] while the
    worker pads rows to 64 bytes: with 16 KiB pages an 8-pixel-wide, 1024-row
    slot gets 32768 bytes where the worker's layout covers 65536. *)
Example broker_bgra_slot_too_small :
  pool_slot_alloc_size 16384 8 1024 BGRA_FOURCC = Val (Some 32768) /\
  vtf_buffer_total_size 8 1024 BGRA_FOURCC = Val 65536.
Proof. split; reflexivity. Qed.
End broker_alloc.
