(* ===== verification/Backend.v ===== *)
(** * The backend interface

    [backend.rs] declares [trait Backend]: a backend is a state with
    [reset_from_env] and [dispatch], which reads one request and fills the
    response header and the caller's response buffer.  This file holds the
    monad the backends are written in (the mutable receiver, the two [&mut]
    out-parameters, [return] and panics), its program logic, and the interface
    the connection loop relies on. *)

From S2P Require Import Prelude Wire Protocol.
From stdpp Require Import strings.
From Stdlib Require Import Ascii.

Set Default Goal Selector "!".
Open Scope Z_scope.

(** The mutable state of one [dispatch] call: [&mut self], [res_header] and
    [res_payload]. *)
Record io (B : Type) := IO {
  io_self : B;
  io_header : MessageHeader;
  io_buf : list byte
}.
Arguments IO {B}.
Arguments io_self {B}.
Arguments io_header {B}.
Arguments io_buf {B}.

(** [Result<usize, ()>]: [Some n] is [Ok(n)], [None] is [Err(())]. *)
Abbreviation reply := (option Z).

Inductive outcome (B A : Type) :=
| Next (a : A) (s : io B)
| Return (r : reply) (s : io B)
| Panicked.
Arguments Next {B A}.
Arguments Return {B A}.
Arguments Panicked {B A}.

Definition M (B A : Type) : Type := io B -> outcome B A.

#[export] Instance M_ret B : MRet (M B) := fun A a s => Next a s.
#[export] Instance M_bind B : MBind (M B) := fun A A' f m s =>
  match m s with
  | Next a s' => f a s'
  | Return r s' => Return r s'
  | Panicked => Panicked
  end.

(** A match arm of [dispatch]: it ends by returning. *)
Abbreviation arm B := (M B Empty_set).

Definition run {B} (m : arm B) (s : io B) : rust (reply * io B) :=
  match m s with
  | Next a _ => match a with end
  | Return r s' => Val (r, s')
  | Panicked => Panic
  end.

Definition header_with_status (st : Z) (h : MessageHeader) : MessageHeader :=
  mk_MessageHeader (mh_version h) (mh_opcode h) (mh_flags h) (mh_request_id h)
    (mh_payload_len h) st.

Definition with_status {B} (st : Z) (s : io B) : io B :=
  IO (io_self s) (header_with_status st (io_header s)) (io_buf s).

Section combinators.
Context {B : Type}.

(** [return Ok(n)] and [return Err(())]. *)
Definition ok {A} (n : Z) : M B A := fun s => Return (Some n) s.
Definition err {A} : M B A := fun s => Return None s.

(** [res_header.status = st; return Err(())] *)
Definition fail {A} (st : Z) : M B A := fun s => Return None (with_status st s).

Definition set_header (h : MessageHeader) : M B unit :=
  fun s => Next tt (IO (io_self s) h (io_buf s)).

Definition get_self : M B B := fun s => Next (io_self s) s.
Definition modify (f : B -> B) : M B unit :=
  fun s => Next tt (IO (f (io_self s)) (io_header s) (io_buf s)).

(** [let Some(x) = o else { res_header.status = st; return Err(()) };] *)
Definition some_or {A} (st : Z) (o : option A) : M B A :=
  match o with Some a => mret a | None => fail st end.

(** [o.ok_or(())?] *)
Definition or_err {A} (o : option A) : M B A :=
  match o with Some a => mret a | None => err end.

(** [if b { res_header.status = st; return Err(()) }] *)
Definition reject_if (st : Z) (b : bool) : M B unit :=
  if b then fail st else mret tt.

(** Rust code that may panic. *)
Definition lift {A} (c : rust A) : M B A :=
  fun s => match c with Val a => Next a s | Panic => Panicked end.

(** Indexing: [v[i]] panics out of range. *)
Definition index {A} (o : option A) : M B A :=
  fun s => match o with Some a => Next a s | None => Panicked end.

(** [write_pod] of [mock.rs], in return position. *)
Definition write_pod {A T} `{Pod T} (reply : T) : M B A := fun s =>
  let size := Z.of_nat (size_of T) in
  if len (io_buf s) <? size then Return None s
  else Return (Some size)
         (IO (io_self s) (io_header s) (write_at 0 (bytes_of reply) (io_buf s))).

(** [write_pod_and_bytes] of [mock.rs], in return position. *)
Definition write_pod_and_bytes {A T} `{Pod T} (reply : T) (extra : list byte) : M B A := fun s =>
  let header_size := Z.of_nat (size_of T) in
  let total_size := header_size + len extra in
  if len (io_buf s) <? total_size then Return None s
  else Return (Some total_size)
         (IO (io_self s) (io_header s)
            (write_at (size_of T) extra (write_at 0 (bytes_of reply) (io_buf s)))).

(** [res_payload[..bytes.len()].copy_from_slice(bytes); return Ok(bytes.len())] *)
Definition copy_out {A} (bytes : list byte) : M B A := fun s =>
  if len (io_buf s) <? len bytes then Panicked
  else Return (Some (len bytes)) (IO (io_self s) (io_header s) (write_at 0 bytes (io_buf s))).

(** [res_payload.len()] *)
Definition buf_len : M B Z := fun s => Next (len (io_buf s)) s.
Definition get_header : M B MessageHeader := fun s => Next (io_header s) s.
End combinators.

(** [match] on an opcode over handler arms. *)
Definition match_opcode {B} (op : Z) (arms : list (Z * arm B)) (d : arm B) : arm B :=
  match_op op arms d.

(** ** Program logic

    The response buffer is reused across requests, so a handler's behaviour
    must not depend on what it held before.  [hwp P m Q R b h L] says that,
    from receiver [b] and header [h] and for {e every} response buffer of
    length [L], [m] either continues with the buffer untouched and [Q], or
    returns a reply [o] whose bytes it wrote at the start of the buffer (no
    byte written for [Err]) with [R], or panics and [P]. *)

Definition write_reply (o : option (list byte)) (buf : list byte) : list byte :=
  match o with Some bs => write_at 0 bs buf | None => buf end.

Definition reply_len (o : option (list byte)) : reply := (fun bs => len bs) <$> o.

Inductive hwp {B A} (P : Prop) (m : M B A) (Q : A -> B -> MessageHeader -> Prop)
    (R : option (list byte) -> B -> MessageHeader -> Prop)
    (b : B) (h : MessageHeader) (L : nat) : Prop :=
| hwp_next a b' h'
    (Hm : forall buf, length buf = L -> m (IO b h buf) = Next a (IO b' h' buf))
    (HQ : Q a b' h')
| hwp_return o b' h'
    (Hm : forall buf, length buf = L ->
       m (IO b h buf) = Return (reply_len o) (IO b' h' (write_reply o buf)))
    (Hl : forall bs, o = Some bs -> (length bs <= L)%nat)
    (HR : R o b' h')
| hwp_panic (Hm : forall buf, length buf = L -> m (IO b h buf) = Panicked) (HP : P).

Section hwp_rules.
Context {B : Type} (P : Prop) (R : option (list byte) -> B -> MessageHeader -> Prop).
Context (L : nat).
Implicit Types (b : B) (h : MessageHeader).

Lemma hwp_ret {A} (a : A) Q b h : Q a b h -> hwp P (mret a) Q R b h L.
Proof. by econstructor 1. Qed.

Lemma hwp_bind {A A'} (m : M B A) (f : A -> M B A') Q b h :
  hwp P m (fun a b' h' => hwp P (f a) Q R b' h' L) R b h L ->
  hwp P (m ≫= f) Q R b h L.
Proof.
  unfold mbind, M_bind.
  destruct 1 as [a b' h' Hm HQ|o b' h' Hm Hl HR|Hm HP].
  - destruct HQ as [a' b2 h2 Hm' HQ|o b2 h2 Hm' Hl HR|Hm' HP].
    + eapply hwp_next; [|done]. intros buf Hb. by rewrite Hm, Hm'.
    + eapply hwp_return; [|done|done]. intros buf Hb. by rewrite Hm, Hm'.
    + eapply hwp_panic; [|done]. intros buf Hb. by rewrite Hm, Hm'.
  - eapply hwp_return; [|done|done]. intros buf Hb. by rewrite Hm.
  - eapply hwp_panic; [|done]. intros buf Hb. by rewrite Hm.
Qed.

Lemma hwp_mono {A} (m : M B A) (Q Q' : A -> B -> MessageHeader -> Prop) R' b h :
  hwp P m Q R b h L -> (forall a b' h', Q a b' h' -> Q' a b' h') ->
  (forall o b' h', R o b' h' -> R' o b' h') -> hwp P m Q' R' b h L.
Proof.
  destruct 1; intros HQ' HR'.
  - eapply hwp_next; eauto.
  - eapply hwp_return; eauto.
  - by apply hwp_panic.
Qed.

Lemma hwp_ok {A} (Q : A -> B -> MessageHeader -> Prop) b h :
  R (Some []) b h -> hwp P (ok 0) Q R b h L.
Proof.
  intros HR. eapply (hwp_return _ _ _ _ _ _ _ (Some [])); [|naive_solver lia|done].
  intros buf _. reflexivity.
Qed.

Lemma hwp_err {A} (Q : A -> B -> MessageHeader -> Prop) b h :
  R None b h -> hwp P err Q R b h L.
Proof. intros HR. eapply (hwp_return _ _ _ _ _ _ _ None); [intros; reflexivity|intros ? [=]|done]. Qed.

Lemma hwp_fail {A} st (Q : A -> B -> MessageHeader -> Prop) b h :
  R None b (header_with_status st h) -> hwp P (fail st) Q R b h L.
Proof.
  intros HR. apply (hwp_return _ _ _ _ _ _ _ None b (header_with_status st h));
    [intros; reflexivity|intros ? [=]|done].
Qed.

Lemma hwp_set_header h' Q b h : Q tt b h' -> hwp P (set_header h') Q R b h L.
Proof. intros HQ. by apply (hwp_next _ _ _ _ _ _ _ tt b h'). Qed.

Lemma hwp_get_self Q b h : Q b b h -> hwp P get_self Q R b h L.
Proof. intros HQ. by apply (hwp_next _ _ _ _ _ _ _ b b h). Qed.

Lemma hwp_modify f Q b h : Q tt (f b) h -> hwp P (modify f) Q R b h L.
Proof. intros HQ. by apply (hwp_next _ _ _ _ _ _ _ tt (f b) h). Qed.

Lemma hwp_some_or {A} st (o : option A) Q b h :
  (forall a, o = Some a -> Q a b h) ->
  (o = None -> R None b (header_with_status st h)) ->
  hwp P (some_or st o) Q R b h L.
Proof. destruct o; intros H1 H2; [apply hwp_ret|apply hwp_fail]; auto. Qed.

Lemma hwp_or_err {A} (o : option A) Q b h :
  (forall a, o = Some a -> Q a b h) -> (o = None -> R None b h) ->
  hwp P (or_err o) Q R b h L.
Proof. destruct o; intros H1 H2; [apply hwp_ret|apply hwp_err]; auto. Qed.

Lemma hwp_reject_if st c Q b h :
  (c = false -> Q tt b h) -> (c = true -> R None b (header_with_status st h)) ->
  hwp P (reject_if st c) Q R b h L.
Proof. destruct c; intros H1 H2; [apply hwp_fail|apply hwp_ret]; auto. Qed.

Lemma hwp_lift {A} (c : rust A) Q b h :
  (forall a, c = Val a -> Q a b h) -> (c = Panic -> P) -> hwp P (lift c) Q R b h L.
Proof.
  destruct c; intros H1 H2; [by eapply hwp_next; auto|by apply hwp_panic; auto].
Qed.

Lemma hwp_index {A} (o : option A) Q b h :
  (forall a, o = Some a -> Q a b h) -> (o = None -> P) -> hwp P (index o) Q R b h L.
Proof.
  destruct o; intros H1 H2; [by eapply hwp_next; auto|by apply hwp_panic; auto].
Qed.

Lemma hwp_write_pod {A T} `{Pod T} (rep : T) (Q : A -> B -> MessageHeader -> Prop) b h :
  pod_ok rep = true ->
  ((L < size_of T)%nat -> R None b h) ->
  ((size_of T <= L)%nat -> R (Some (bytes_of rep)) b h) ->
  hwp P (write_pod rep) Q R b h L.
Proof.
  intros Hok H1 H2. pose proof (length_bytes_of rep Hok) as Hlen.
  destruct (decide (size_of T <= L)%nat) as [Hs|Hs].
  - eapply (hwp_return _ _ _ _ _ _ _ (Some (bytes_of rep))); [|naive_solver lia|auto].
    intros buf Hb. unfold write_pod. simpl. case_if; zbool. by rewrite Hlen.
  - eapply (hwp_return _ _ _ _ _ _ _ None); [|done|apply H1; lia].
    intros buf Hb. unfold write_pod. simpl. case_if; zbool. done.
Qed.

Lemma hwp_write_pod_and_bytes {A T} `{Pod T} (rep : T) extra
    (Q : A -> B -> MessageHeader -> Prop) b h :
  pod_ok rep = true ->
  ((L < size_of T + length extra)%nat -> R None b h) ->
  ((size_of T + length extra <= L)%nat -> R (Some (bytes_of rep ++ extra)) b h) ->
  hwp P (write_pod_and_bytes rep extra) Q R b h L.
Proof.
  intros Hok H1 H2. pose proof (length_bytes_of rep Hok) as Hlen.
  destruct (decide (size_of T + length extra <= L)%nat) as [Hs|Hs].
  - eapply (hwp_return _ _ _ _ _ _ _ (Some (bytes_of rep ++ extra)));
      [|intros ? [= <-]; rewrite length_app; lia|auto].
    intros buf Hb. unfold write_pod_and_bytes. simpl. case_if; zbool.
    pose proof (write_at_app 0 (bytes_of rep) extra buf ltac:(lia)) as E.
    rewrite Hlen in E. simpl in E. rewrite E.
    rewrite length_app, Hlen, Nat2Z.inj_add. done.
  - eapply (hwp_return _ _ _ _ _ _ _ None); [|done|apply H1; lia].
    intros buf Hb. unfold write_pod_and_bytes. simpl. case_if; zbool. done.
Qed.

(** When the postcondition does not look at the reply. *)
Lemma hwp_write_pod_any {A T} `{Pod T} (rep : T) (Q : A -> B -> MessageHeader -> Prop) b h :
  pod_ok rep = true -> (forall o, R o b h) -> hwp P (write_pod rep) Q R b h L.
Proof. intros Hok HR. by apply hwp_write_pod. Qed.

Lemma hwp_write_pod_and_bytes_any {A T} `{Pod T} (rep : T) extra
    (Q : A -> B -> MessageHeader -> Prop) b h :
  pod_ok rep = true -> (forall o, R o b h) ->
  hwp P (write_pod_and_bytes rep extra) Q R b h L.
Proof. intros Hok HR. by apply hwp_write_pod_and_bytes. Qed.

Lemma hwp_copy_out {A} bytes (Q : A -> B -> MessageHeader -> Prop) b h :
  ((L < length bytes)%nat -> P) ->
  ((length bytes <= L)%nat -> R (Some bytes) b h) -> hwp P (copy_out bytes) Q R b h L.
Proof.
  intros H1 H2. destruct (decide (length bytes <= L)%nat).
  - eapply (hwp_return _ _ _ _ _ _ _ (Some bytes)); [|naive_solver lia|auto].
    intros buf Hb. unfold copy_out. simpl. case_if; zbool. done.
  - apply hwp_panic; [|apply H1; lia]. intros buf Hb. unfold copy_out. simpl.
    case_if; zbool. done.
Qed.

Lemma hwp_buf_len Q b h : Q (Z.of_nat L) b h -> hwp P buf_len Q R b h L.
Proof.
  intros HQ. apply (hwp_next _ _ _ _ _ _ _ (Z.of_nat L) b h); [|done].
  intros buf Hb. unfold buf_len. simpl. by rewrite Hb.
Qed.

Lemma hwp_get_header Q b h : Q h b h -> hwp P get_header Q R b h L.
Proof. intros HQ. by apply (hwp_next _ _ _ _ _ _ _ h b h). Qed.

Lemma hwp_match_opcode op arms d Q b h :
  (forall k a, (k, a) ∈ arms -> op = k -> hwp P a Q R b h L) ->
  hwp P d Q R b h L ->
  hwp P (match_opcode op arms d) Q R b h L.
Proof.
  intros Ha Hd. unfold match_opcode. induction arms as [|[k a] arms IH]; simpl; [done|].
  destruct (op =? k) eqn:E; zbool.
  - eapply Ha; [|done]. set_solver.
  - apply IH. intros. eapply Ha; [|done]. set_solver.
Qed.
End hwp_rules.

Lemma hwp_panic_weaken {B A} (P P' : Prop) (m : M B A) Q R b h L :
  (P -> P') -> hwp P m Q R b h L -> hwp P' m Q R b h L.
Proof.
  intros HP. destruct 1; [by eapply hwp_next|by eapply hwp_return|].
  apply hwp_panic; auto.
Qed.

(** What [hwp] says of the function [run] executes. *)
Lemma hwp_run {B} P (m : arm B) Q R b h L :
  hwp P m Q R b h L ->
  ((forall buf, length buf = L -> run m (IO b h buf) = Panic) /\ P) \/
  exists o b' h', R o b' h' /\ (forall bs, o = Some bs -> (length bs <= L)%nat) /\
    forall buf, length buf = L ->
      run m (IO b h buf) = Val (reply_len o, IO b' h' (write_reply o buf)).
Proof.
  unfold run. destruct 1 as [[]|o b' h' Hm Hl HR|Hm HP].
  - right. exists o, b', h'. split_and!; [done|done|]. intros buf Hb. by rewrite Hm.
  - left. split; [|done]. intros buf Hb. by rewrite Hm.
Qed.

(** One step of a handler proof: decompose a bind, apply the rule of the head
    combinator and introduce what it gives. *)
Ltac hstep :=
  match goal with
  | |- hwp _ (_ ≫= _) _ _ _ _ _ => apply hwp_bind
  | |- hwp _ (mret _) _ _ _ _ _ => apply hwp_ret
  | |- hwp _ (ok 0) _ _ _ _ _ => apply hwp_ok
  | |- hwp _ err _ _ _ _ _ => apply hwp_err
  | |- hwp _ (fail _) _ _ _ _ _ => apply hwp_fail
  | |- hwp _ (set_header _) _ _ _ _ _ => apply hwp_set_header
  | |- hwp _ get_self _ _ _ _ _ => apply hwp_get_self
  | |- hwp _ (modify _) _ _ _ _ _ => apply hwp_modify
  | |- hwp _ (some_or _ _) _ _ _ _ _ => apply hwp_some_or; [intros ? ?|intros ?]
  | |- hwp _ (or_err _) _ _ _ _ _ => apply hwp_or_err; [intros ? ?|intros ?]
  | |- hwp _ (reject_if _ _) _ _ _ _ _ => apply hwp_reject_if; intros ?
  | |- hwp _ (lift _) _ _ _ _ _ => apply hwp_lift; [intros ? ?|intros ?]
  | |- hwp _ (index _) _ _ _ _ _ => apply hwp_index; [intros ? ?|intros ?]
  | |- hwp _ (write_pod _) _ _ _ _ _ => apply hwp_write_pod; [|intros ?|intros ?]
  | |- hwp _ (write_pod_and_bytes _ _) _ _ _ _ _ =>
      apply hwp_write_pod_and_bytes; [|intros ?|intros ?]
  | |- hwp _ (copy_out _) _ _ _ _ _ => apply hwp_copy_out; intros ?
  | |- hwp _ buf_len _ _ _ _ _ => apply hwp_buf_len
  | |- hwp _ get_header _ _ _ _ _ => apply hwp_get_header
  | |- hwp _ (if _ then _ else _) _ _ _ _ _ => case_if
  end.

(** ** The interface *)

(** The process environment: [std::env::var(name).ok()]. *)
Definition environ : Type := string -> option string.

(** [str::parse] at a [w]-bit unsigned type: an optional [+], then at least one
    decimal digit, and no overflow. *)
Fixpoint parse_digits (w acc : Z) (cs : list Ascii.ascii) : option Z :=
  match cs with
  | [] => Some acc
  | c :: cs' =>
      let d := Z.of_nat (Ascii.nat_of_ascii c) - 48 in
      if (0 <=? d) && (d <=? 9)
      then acc' ← checked w (acc * 10 + d); parse_digits w acc' cs'
      else None
  end.

Definition parse_unsigned (w : Z) (s : string) : option Z :=
  match String.list_ascii_of_string s with
  | [] => None
  | c :: cs =>
      if Ascii.eqb c "+"%char
      then match cs with [] => None | _ => parse_digits w 0 cs end
      else parse_digits w 0 (c :: cs)
  end.

Class Backend (B : Type) := {
  create : B;
  reset_from_env : environ -> B -> B;
  dispatch : Profile -> MessageHeader -> list byte -> io B -> rust (reply * io B)
}.

(** What the connection loop relies on: from a state it keeps to, a dispatch leaves a
    response header in range and the response buffer at its length, and answers with at
    most that many bytes.  All three backends promise it. *)
Class BackendSound (B : Type) `{Backend B} `{Profile} := {
  sound_inv : B -> Prop;
  sound_create : sound_inv create;
  sound_reset : forall env b, sound_inv b -> sound_inv (reset_from_env env b);
  dispatch_sound : forall rq pl b h buf r s,
    sound_inv b -> pod_ok rq = true -> pod_ok h = true ->
    dispatch _ rq pl (IO b h buf) = Val (r, s) ->
    sound_inv (io_self s) /\ pod_ok (io_header s) = true /\
    length (io_buf s) = length buf /\ 0 <= default 0 r <= len buf
}.

(** A stronger promise, which the stub and the mock make and the VideoToolbox backend does
    not (the padding of the frames it sends is what the buffer held): the answer does not
    depend on what the response buffer holds. *)
Class BackendSpec (B : Type) `{Backend B} `{Profile} := {
  backend_inv : B -> Prop;
  create_inv : backend_inv create;
  reset_inv : forall env b, backend_inv b -> backend_inv (reset_from_env env b);
  dispatch_spec : forall rq pl b h L,
    backend_inv b -> pod_ok rq = true -> pod_ok h = true ->
    (forall buf, length buf = L -> dispatch _ rq pl (IO b h buf) = Panic) \/
    exists o b' h', backend_inv b' /\ pod_ok h' = true /\
      (forall bs, o = Some bs -> (length bs <= L)%nat) /\
      forall buf, length buf = L ->
        dispatch _ rq pl (IO b h buf) = Val (reply_len o, IO b' h' (write_reply o buf))
}.

#[export] Instance spec_sound (B : Type) `{Backend B} `{Profile} `{!BackendSpec B} : BackendSound B.
Proof.
  refine {| sound_inv := backend_inv |}; [apply create_inv|apply reset_inv|].
  intros rq pl b h buf r s Hb Hrq Hh Hd.
  destruct (dispatch_spec rq pl b h (length buf) Hb Hrq Hh) as [Hp|(o & b' & h' & Hb' & Hh' & Hl & Hv)].
  { by rewrite Hp in Hd. }
  rewrite Hv in Hd by done. injection Hd as <- <-. cbn [io_self io_header io_buf].
  split_and!; [done|done|..].
  - destruct o as [bs|]; simpl; [|done]. apply length_write_at. specialize (Hl _ eq_refl). lia.
  - destruct o as [bs|]; simpl; lia.
  - destruct o as [bs|]; simpl; [specialize (Hl _ eq_refl)|]; lia.
Defined.
