(* ===== verification/Stub.v ===== *)
(** * The stub backend

    [vt_stub.rs]: a stateless backend that answers HELLO, PING and GET_CAPS (with
    no capability) and leaves every other opcode to the server's default error. *)

From S2P Require Import Prelude Wire Protocol Backend.
From stdpp Require Import strings.

Set Default Goal Selector "!".
Open Scope Z_scope.

(** A byte-string literal padded with [n] NUL bytes. *)
Definition bstr (s : string) (n : nat) : list byte :=
  String.list_byte_of_string s ++ replicate n Byte.x00.

Definition VtStubBackend : Type := unit.

Definition stub_hello : HelloReply :=
  {| hr_worker_abi_version := 1; hr_reserved := 0; hr_supported_features := 0;
     hr_worker_name := bstr "vt-ferry-host-worker-vt-stub" 4 |}.

Definition stub_caps : GetCapsReply :=
  {| gc_codec_bits := 0; gc_pixel_format_bits := 0; gc_session_feature_bits := 0;
     gc_max_width := 0; gc_max_height := 0; gc_max_inflight_frames := 0; gc_reserved := 0 |}.

Definition stub_dispatch (req_header : MessageHeader) : arm VtStubBackend :=
  h ← get_header;
  let h' st := mk_MessageHeader VTF_TRANSPORT_VERSION (mh_opcode req_header) (mh_flags h)
                 (mh_request_id req_header) (mh_payload_len h) st in
  _ ← set_header (h' STATUS_OK);
  if negb (mh_version req_header =? VTF_TRANSPORT_VERSION) then
    _ ← set_header (h' STATUS_UNSUPPORTED_VERSION);
    ok 0
  else
  match_opcode (mh_opcode req_header)
    [ (OP_HELLO, copy_out (bytes_of stub_hello));
      (OP_PING, ok 0);
      (OP_GET_CAPS,
        n ← buf_len;
        if len (bytes_of stub_caps) >? n then
          _ ← set_header (h' STATUS_INTERNAL_FAILURE);
          ok 0
        else copy_out (bytes_of stub_caps)) ]
    err.

#[export] Instance stub_backend : Backend VtStubBackend := {
  create := tt;
  reset_from_env _ b := b;
  dispatch _ rq _ s := run (stub_dispatch rq) s
}.

Lemma header_status_ok h rq st :
  pod_ok h = true -> pod_ok rq = true -> 0 <= st < 2 ^ 32 ->
  pod_ok (mk_MessageHeader VTF_TRANSPORT_VERSION (mh_opcode rq) (mh_flags h)
            (mh_request_id rq) (mh_payload_len h) st) = true.
Proof.
  intros Hh Hrq Hst. pod_fields Hh. pod_fields Hrq. pod_ok_split; try assumption.
  - reflexivity.
  - by apply uint_ok_spec.
Qed.

Lemma stub_dispatch_hwp rq h L :
  pod_ok h = true -> pod_ok rq = true ->
  hwp True (stub_dispatch rq) (fun a _ _ => match (a : Empty_set) with end)
    (fun _ _ h' => pod_ok h' = true) tt h L.
Proof.
  intros Hh Hrq. unfold stub_dispatch.
  repeat hstep; try by apply header_status_ok.
  apply hwp_match_opcode; [|by hstep; apply header_status_ok].
  intros k a Ha _. set_unfold in Ha.
  destruct Ha as [[= -> ->]|[[= -> ->]|[[= -> ->]|[]]]];
    repeat hstep; try done; by apply header_status_ok.
Qed.

#[export] Instance stub_spec `{Profile} : BackendSpec VtStubBackend.
Proof.
  refine {| backend_inv _ := True |}; [done|done|].
  intros rq pl [] h L _ Hrq Hh.
  destruct (hwp_run _ _ _ _ _ _ _ (stub_dispatch_hwp rq h L Hh Hrq))
    as [[Hp _]|(o & [] & h' & Hh' & Hl & Hd)]; [by left|].
  right. by exists o, tt, h'.
Defined.
