(* ===== verification/Frameworks.v ===== *)
(** * The host frameworks

    The real backend drives Apple's CoreVideo, CoreMedia, VideoToolbox and
    IOSurface through [extern "C"] functions.  They are the parameters of the
    model: the class [Frameworks] has one operation per foreign function the
    worker calls, over an abstract host state.  CoreFoundation references are
    addresses ([0] is the null pointer), the memory they point to is a byte per
    address.  Calls that may run one of the worker's output callbacks before
    they return also give the list of callback invocations.

    The rest of the file is the worker's own wrapper layer over these calls,
    [iosurface_bridge.rs]. *)

From S2P Require Import Prelude Wire Protocol.
From stdpp Require Import strings.

Set Default Goal Selector "!".
Open Scope Z_scope.

(** ** Memory behind raw pointers *)

Definition memory : Type := Z -> byte.

(** [n] bytes read through the pointer [p]. *)
Definition load (m : memory) (p : Z) (n : nat) : list byte :=
  (fun i => m (p + Z.of_nat i)) <$> seq 0 n.

(** [ptr::copy_nonoverlapping(bs, p, bs.len())] *)
Definition store (p : Z) (bs : list byte) (m : memory) : memory := fun a =>
  if (p <=? a) && (a <? p + len bs) then default Byte.x00 (bs !! Z.to_nat (a - p)) else m a.

Lemma length_load m p n : length (load m p n) = n.
Proof. unfold load. by rewrite length_fmap, length_seq. Qed.

Lemma lookup_load m p n i : (i < n)%nat -> load m p n !! i = Some (m (p + Z.of_nat i)).
Proof.
  intros Hi. unfold load. rewrite list_lookup_fmap, lookup_seq_lt by done. done.
Qed.

Lemma slice_load m p n off k :
  (off + k <= n)%nat -> slice off k (load m p n) = load m (p + Z.of_nat off) k.
Proof.
  intros Hle. apply list_eq_same_length with k.
  - by rewrite length_load.
  - rewrite length_slice; [done|]. rewrite length_load. lia.
  - intros i x y Hi. rewrite lookup_slice, lookup_load by lia.
    case_match; [|lia]. rewrite lookup_load by lia. intros [= <-] [= <-].
    f_equal. lia.
Qed.

Lemma load_store_same m p bs : load (store p bs m) p (length bs) = bs.
Proof.
  apply list_eq_same_length with (length bs); [done|by rewrite length_load|].
  intros i x y Hi. rewrite lookup_load by done. unfold store. case_if; zbool.
  replace (Z.to_nat (p + Z.of_nat i - p)) with i by lia.
  intros [= <-] Hy. by rewrite Hy.
Qed.

Lemma load_store_disjoint m p bs q n :
  q + Z.of_nat n <= p \/ p + len bs <= q -> load (store p bs m) q n = load m q n.
Proof.
  intros Hd. apply list_eq_same_length with n; try by rewrite length_load.
  intros i x y Hi. rewrite !lookup_load by done. unfold store. case_if; zbool. congruence.
Qed.

(** ** Values that cross the boundary *)

Record CMTime := mk_CMTime {
  cmt_value : Z;
  cmt_timescale : Z;
  cmt_flags : Z;
  cmt_epoch : Z
}.

Definition kCMTimeFlags_Valid : Z := 1.

Record CMSampleTimingInfo := mk_CMSampleTimingInfo {
  ti_duration : CMTime;
  ti_presentationTimeStamp : CMTime;
  ti_decodeTimeStamp : CMTime
}.

(** Property values passed to [VTSessionSetProperty]. *)
Inductive cf_value :=
| CFNumber_i32 (n : Z)
| CFNumber_i64 (n : Z)
| CFBoolean (b : bool)
| CFStringConst (name : string)
| CFArray_i64 (l : list Z)
| CFDictionary_i64 (l : list (string * Z)).

(** [vtf_make_source_attributes]: the attribute dictionary as its values. *)
Definition source_attributes : Type := list (string * cf_value).

(** Contexts behind the callbacks' ref-cons.  [output_state] is the backend's
    own queue (shared through an [Arc]), so a context only names the session. *)
Record SessionCallbackContext := mk_SessionCallbackContext {
  scc_session_id : Z;
  scc_codec : Z;
  scc_pixel_format : Z;
  scc_width : Z;
  scc_height : Z
}.

Record FrameContext := mk_FrameContext {
  fc_buffer_id : Z;
  fc_buffer_generation : Z
}.

Record DecodeSessionCallbackContext := mk_DecodeSessionCallbackContext {
  dcc_session_id : Z
}.

(** A [CMSampleBufferRef] handed to the compression callback, as what its
    accessors return.  [cms_data] is the data buffer ([None]: null) as its
    bytes and the status of copying them out; the parameter-set accessors take
    whether the HEVC entry point is used; [cms_attachments] is the attachment
    array ([None]: null) of dictionaries ([None]: null) with their [NotSync]
    value. *)
Record CMSampleBuffer := mk_CMSampleBuffer {
  cms_data : option (list byte * Z);
  cms_pts : CMTime;
  cms_duration : CMTime;
  cms_has_format : bool;
  cms_parameter_set_probe : bool -> Z * Z * Z;
  cms_parameter_set : bool -> Z -> Z * option (list byte);
  cms_attachments : option (list (option (option bool)))
}.

(** An invocation of one of the worker's two output callbacks. *)
Inductive vt_event :=
| CompressionOutput (output_callback_ref_con : option SessionCallbackContext)
    (source_frame_ref_con : option FrameContext) (status : Z)
    (sample_buffer : option CMSampleBuffer)
| DecompressionOutput (decompression_output_ref_con : option DecodeSessionCallbackContext)
    (status : Z) (image_buffer : Z)
    (presentation_time_stamp presentation_duration : CMTime).

Record machine (host : Type) := mk_machine { mc_host : host; mc_mem : memory }.
Arguments mk_machine {host}.
Arguments mc_host {host}.
Arguments mc_mem {host}.

Definition with_mem {host} (f : memory -> memory) (m : machine host) : machine host :=
  mk_machine (mc_host m) (f (mc_mem m)).

(** A foreign call. *)
Definition ffi (host A : Type) : Type := machine host -> A * machine host.

(** ** The foreign functions *)

Class Frameworks (host : Type) := {
  (** IOSurface *)
  IOSurfaceGetBaseAddress : host -> Z -> Z;
  IOSurfaceGetID : host -> Z -> Z;
  IOSurfaceLock : Z -> Z -> ffi host Z;
  (** CoreVideo *)
  CVPixelBufferCreateWithBytes :
    forall (width height pixel_format base bytes_per_row : Z), ffi host (Z * Z);
  CVPixelBufferCreateWithPlanarBytes :
    forall (width height pixel_format data_ptr data_size : Z)
      (plane_bases plane_widths plane_heights plane_bytes_per_row : list Z), ffi host (Z * Z);
  CVPixelBufferLockBaseAddress : Z -> Z -> ffi host Z;
  CVPixelBufferUnlockBaseAddress : Z -> Z -> ffi host Z;
  CVPixelBufferGetBaseAddress : host -> Z -> Z;
  CVPixelBufferGetPlaneCount : host -> Z -> Z;
  CVPixelBufferGetBaseAddressOfPlane : host -> Z -> Z -> Z;
  CVPixelBufferGetBytesPerRowOfPlane : host -> Z -> Z -> Z;
  CVPixelBufferGetWidth : host -> Z -> Z;
  CVPixelBufferGetHeight : host -> Z -> Z;
  CVPixelBufferGetPixelFormatType : host -> Z -> Z;
  (** VideoToolbox, compression *)
  VTCompressionSessionCreate :
    forall (width height codec : Z) (attributes : source_attributes)
      (ref_con : SessionCallbackContext), ffi host (Z * Z);
  VTSessionSetProperty : Z -> string -> cf_value -> ffi host Z;
  VTCompressionSessionPrepareToEncodeFrames : Z -> ffi host Z;
  (** [VTCompressionSession::encode_frame]: whether the result is [Ok]. *)
  encode_frame :
    forall (vt_session image_buffer : Z) (pts dur : CMTime) (frame : FrameContext),
      ffi host (bool * list vt_event);
  VTCompressionSessionCompleteFrames : Z -> ffi host (Z * list vt_event);
  (** CoreMedia *)
  CMTimeMake : Z -> Z -> CMTime;
  from_h264_parameter_sets : list (list byte) -> Z -> ffi host (option Z);
  from_hevc_parameter_sets : list (list byte) -> Z -> ffi host (option Z);
  block_buffer_new_with_memory_block : Z -> ffi host (option Z);
  replace_data_bytes : Z -> list byte -> Z -> ffi host bool;
  CMSampleBufferCreateReady :
    forall (data format : Z) (timing : CMSampleTimingInfo) (sample_size : Z), ffi host (Z * Z);
  (** VideoToolbox, decompression *)
  decompression_new_with_callback :
    Z -> DecodeSessionCallbackContext -> ffi host (option Z);
  can_accept_format_description : Z -> Z -> ffi host bool;
  decode_frame : Z -> Z -> ffi host (bool * list vt_event);
  wait_for_asynchronous_frames : Z -> ffi host (bool * list vt_event)
}.

(** ** [iosurface_bridge.rs] *)

Section bridge.
Context {host : Type} `{!Frameworks host} `{!Profile}.
Abbreviation machine := (machine host).

(** Pointer arithmetic: [p.add(n)]. *)
Definition ptr_add (p n : Z) : Z := p + n.

(** [OwnedIOSurface]: the retained [IOSurfaceRef]. *)
Definition OwnedIOSurface : Type := Z.

Definition base_address (m : machine) (s : OwnedIOSurface) : Z :=
  IOSurfaceGetBaseAddress (mc_host m) s.

(** [Ok(seed)] is [None], [Err(kr)] is [Some kr]; the seed is not used. *)
Definition lock_read_write (s : OwnedIOSurface) (m : machine) : option Z * machine :=
  let '(kr, m) := IOSurfaceLock s 0 m in
  (if kr =? 0 then None else Some kr, m).

(** [CFRetain] returns its argument. *)
Definition clone_ref (s : OwnedIOSurface) : OwnedIOSurface := s.

(** [if status != 0 || pixel_buffer.is_null() { Err(status) } else { Ok(pixel_buffer) }] *)
Definition cv_result (r : Z * Z) : Z + Z :=
  let '(status, pixel_buffer) := r in
  if negb (status =? 0) || (pixel_buffer =? 0) then inr status else inl pixel_buffer.

Definition wrap_bytes_single_plane (base slot_width slot_height bytes_per_row pixel_format : Z)
    (m : machine) : (Z + Z) * machine :=
  let '(r, m) := CVPixelBufferCreateWithBytes slot_width slot_height pixel_format base
                   bytes_per_row m in
  (cv_result r, m).

Definition wrap_bytes_planar (base width height pixel_format slot_total_bytes : Z)
    (plane_offsets plane_widths plane_heights plane_bytes_per_row : list Z)
    (m : machine) : (Z + Z) * machine :=
  let n := length plane_offsets in
  if negb (length plane_widths =? n)%nat || negb (length plane_heights =? n)%nat
     || negb (length plane_bytes_per_row =? n)%nat
  then (inr (-1), m)
  else
    let '(r, m) := CVPixelBufferCreateWithPlanarBytes width height pixel_format base
                     slot_total_bytes (ptr_add base <$> plane_offsets) plane_widths
                     plane_heights plane_bytes_per_row m in
    (cv_result r, m).

Definition wrap_slot_single_plane (s : OwnedIOSurface)
    (slot_offset_bytes slot_width slot_height bytes_per_row pixel_format : Z)
    (m : machine) : (Z + Z) * machine :=
  let slot_base := ptr_add (base_address m s) slot_offset_bytes in
  let '(r, m) := CVPixelBufferCreateWithBytes slot_width slot_height pixel_format slot_base
                   bytes_per_row m in
  (cv_result r, m).

Definition wrap_slot_planar (s : OwnedIOSurface)
    (width height pixel_format slot_base_offset_bytes slot_total_bytes : Z)
    (plane_offsets plane_widths plane_heights plane_bytes_per_row : list Z)
    (m : machine) : (Z + Z) * machine :=
  let n := length plane_offsets in
  if negb (length plane_widths =? n)%nat || negb (length plane_heights =? n)%nat
     || negb (length plane_bytes_per_row =? n)%nat
  then (inr (-1), m)
  else
    let slot_base := ptr_add (base_address m s) slot_base_offset_bytes in
    let '(r, m) := CVPixelBufferCreateWithPlanarBytes width height pixel_format slot_base
                     slot_total_bytes (ptr_add slot_base <$> plane_offsets) plane_widths
                     plane_heights plane_bytes_per_row m in
    (cv_result r, m).

(** [IOSurfaceRegistry]: the surfaces looked up at startup. *)
Record IOSurfaceRegistry := mk_IOSurfaceRegistry { reg_surfaces : list OwnedIOSurface }.

Definition find_by_id (m : machine) (r : IOSurfaceRegistry) (id : Z) : option OwnedIOSurface :=
  List.find (fun s => IOSurfaceGetID (mc_host m) s =? id) (reg_surfaces r).

Definition take_by_id (m : machine) (r : IOSurfaceRegistry) (id : Z)
    : option (OwnedIOSurface * IOSurfaceRegistry) :=
  position ← position (fun s => IOSurfaceGetID (mc_host m) s =? id) (reg_surfaces r);
  s ← reg_surfaces r !! position;
  Some (s, mk_IOSurfaceRegistry (remove_at position (reg_surfaces r))).

End bridge.
