(* ===== verification/PixelCopy.v ===== *)
(** * Copying pixel buffers

    The two copy routines of [vt_real.rs]: [vtf_copy_pixel_buffer_to_bytes]
    flattens a CoreVideo pixel buffer into the wire's canonical layout, and
    [vtf_copy_pixel_buffer_byte_range] produces only a byte range of it for the
    chunked read.  Both translate the source's row stride into the layout's.
    The theorem shows that a chunk is exactly the slice of the flattened frame,
    so the chunks of a frame concatenate to it.

    A destination pointer is a byte list; [dst.add(k)] followed by a copy is
    [write_at k]. *)

From S2P Require Import Prelude Wire Protocol Layout Frameworks.

Set Default Goal Selector "!".
Open Scope Z_scope.

(** [layout.plane_offsets[plane]] and the like: indexing panics out of range. *)
Definition at_plane (l : list Z) (plane : nat) : rust Z :=
  match l !! plane with Some z => Val z | None => Panic end.

Section copy.
Context {host : Type} `{!Frameworks host} `{!Profile}.
Implicit Types (m : machine host) (cv : Z) (dest : list byte).

(** The row loop of [vtf_copy_pixel_buffer_to_bytes], from [row], [n] rows. *)
Fixpoint copy_rows (m : machine host) (n : nat) (row plane_base src_stride dst dst_stride row_bytes : Z)
    (dest : list byte) : rust (list byte) :=
  match n with
  | O => Val dest
  | S n =>
      src ← arith 64 (row * src_stride);
      off ← arith 64 (row * dst_stride);
      copy_rows m n (row + 1) plane_base src_stride dst dst_stride row_bytes
        (write_at (Z.to_nat (dst + off))
           (load (mc_mem m) (ptr_add plane_base src) (Z.to_nat row_bytes)) dest)
  end.

(** The plane loop: [false] as soon as a plane has no base address. *)
Fixpoint copy_planes (m : machine host) (cv : Z) (layout : BufferLayoutReply) (n plane : nat)
    (dest : list byte) : rust (bool * list byte) :=
  match n with
  | O => Val (true, dest)
  | S n =>
      let plane_base := CVPixelBufferGetBaseAddressOfPlane (mc_host m) cv (Z.of_nat plane) in
      if plane_base =? 0 then Val (false, dest)
      else
        dst ← at_plane (bl_plane_offsets layout) plane;
        dst_stride ← at_plane (bl_plane_bytes_per_row layout) plane;
        let src_stride := CVPixelBufferGetBytesPerRowOfPlane (mc_host m) cv (Z.of_nat plane) in
        let row_bytes := Z.min dst_stride src_stride in
        rows ← at_plane (bl_plane_heights layout) plane;
        dest ← copy_rows m (Z.to_nat rows) 0 plane_base src_stride dst dst_stride row_bytes dest;
        copy_planes m cv layout n (S plane) dest
  end.

Definition vtf_copy_pixel_buffer_to_bytes (m : machine host) (cv : Z) (dest : list byte)
    (width height pixel_format : Z) : rust (bool * list byte) :=
  layout ← vtf_fill_buffer_layout width height pixel_format;
  if bl_plane_count layout =? 0 then Val (false, dest)
  else if (bl_plane_count layout =? 1)
          || (CVPixelBufferGetPlaneCount (mc_host m) cv =? 0) then
    let base := CVPixelBufferGetBaseAddress (mc_host m) cv in
    if base =? 0 then Val (false, dest)
    else Val (true, write_at 0 (load (mc_mem m) base (Z.to_nat (bl_total_size layout))) dest)
  else copy_planes m cv layout (Z.to_nat (bl_plane_count layout)) 0 dest.

(** One row of the byte-range copy: the columns of the row the range covers,
    up to what the source row holds. *)
Definition range_row (m : machine host)
    (offset plane_offset plane_stride plane_base src_stride row_content
       plane_local_start plane_local_end row : Z) (dest : list byte) : rust (list byte) :=
  row_byte_offset ← arith 64 (row * plane_stride);
  let row_start := Z.max plane_local_start row_byte_offset in
  row_limit ← arith 64 (row_byte_offset + plane_stride);
  let row_end := Z.min plane_local_end row_limit in
  col_start ← arith 64 (row_start - row_byte_offset);
  col_end ← arith 64 (row_end - row_byte_offset);
  let copy_end := Z.min col_end row_content in
  if col_start >=? copy_end then Val dest
  else
    copy_len ← arith 64 (copy_end - col_start);
    a ← arith 64 (row_byte_offset + col_start);
    b ← arith 64 (a + plane_offset);
    dst_offset_in_chunk ← arith 64 (b - offset);
    r ← arith 64 (row * src_stride);
    src ← arith 64 (r + col_start);
    Val (write_at (Z.to_nat dst_offset_in_chunk)
           (load (mc_mem m) (ptr_add plane_base src) (Z.to_nat copy_len)) dest).

(** [for row in first_row..=last_row], [n] rows from [row]. *)
Fixpoint range_rows (m : machine host)
    (offset plane_offset plane_stride plane_base src_stride row_content
       plane_local_start plane_local_end : Z) (n : nat) (row : Z) (dest : list byte)
    : rust (list byte) :=
  match n with
  | O => Val dest
  | S n =>
      dest ← range_row m offset plane_offset plane_stride plane_base src_stride row_content
               plane_local_start plane_local_end row dest;
      range_rows m offset plane_offset plane_stride plane_base src_stride row_content
        plane_local_start plane_local_end n (row + 1) dest
  end.

(** [a / b]: division by zero panics. *)
Definition checked_div (a b : Z) : rust Z := if b =? 0 then Panic else Val (a / b).

Definition range_plane (m : machine host) (cv : Z) (layout : BufferLayoutReply)
    (offset length : Z) (plane : nat) (dest : list byte) : rust (bool * list byte) :=
  plane_offset ← at_plane (bl_plane_offsets layout) plane;
  plane_stride ← at_plane (bl_plane_bytes_per_row layout) plane;
  plane_height ← at_plane (bl_plane_heights layout) plane;
  plane_size ← arith 64 (plane_stride * plane_height);
  plane_end ← arith 64 (plane_offset + plane_size);
  let range_start := Z.max offset plane_offset in
  limit ← arith 64 (offset + length);
  let range_end := Z.min limit plane_end in
  if range_start >=? range_end then Val (true, dest)
  else
    let plane_base := CVPixelBufferGetBaseAddressOfPlane (mc_host m) cv (Z.of_nat plane) in
    if plane_base =? 0 then Val (false, dest)
    else
      let src_stride := CVPixelBufferGetBytesPerRowOfPlane (mc_host m) cv (Z.of_nat plane) in
      let row_content := Z.min src_stride plane_stride in
      plane_local_start ← arith 64 (range_start - plane_offset);
      plane_local_end ← arith 64 (range_end - plane_offset);
      first_row ← checked_div plane_local_start plane_stride;
      last ← arith 64 (plane_local_end - 1);
      last_row ← checked_div last plane_stride;
      dest ← range_rows m offset plane_offset plane_stride plane_base src_stride row_content
               plane_local_start plane_local_end (Z.to_nat (last_row - first_row + 1)) first_row
               dest;
      Val (true, dest).

Fixpoint range_planes (m : machine host) (cv : Z) (layout : BufferLayoutReply)
    (offset length : Z) (n plane : nat) (dest : list byte) : rust (bool * list byte) :=
  match n with
  | O => Val (true, dest)
  | S n =>
      '(go, dest) ← range_plane m cv layout offset length plane dest;
      if (go : bool) then range_planes m cv layout offset length n (S plane) dest
      else Val (false, dest)
  end.

Definition vtf_copy_pixel_buffer_byte_range (m : machine host) (cv : Z)
    (layout : BufferLayoutReply) (offset length : Z) (dest : list byte)
    : rust (bool * list byte) :=
  if bl_plane_count layout =? 0 then Val (false, dest)
  else
    let total := bl_total_size layout in
    if (offset >? total) || (length >? total - offset) then Val (false, dest)
    else if length =? 0 then Val (true, dest)
    else
      let dest := write_at 0 (replicate (Z.to_nat length) Byte.x00) dest in
      if (bl_plane_count layout =? 1)
         || (CVPixelBufferGetPlaneCount (mc_host m) cv =? 0) then
        let base := CVPixelBufferGetBaseAddress (mc_host m) cv in
        if base =? 0 then Val (false, dest)
        else Val (true, write_at 0 (load (mc_mem m) (ptr_add base offset) (Z.to_nat length)) dest)
      else range_planes m cv layout offset length (Z.to_nat (bl_plane_count layout)) 0 dest.
End copy.

(** ** Overlays

    A sequence of copies into a destination is an overlay: a partial function
    from destination offsets to the bytes copied there. *)

Definition overlay (f : Z -> option byte) (l : list byte) : list byte :=
  imap (fun i x => default x (f (Z.of_nat i))) l.

Lemma lookup_overlay f l i :
  overlay f l !! i = (fun x => default x (f (Z.of_nat i))) <$> l !! i.
Proof. apply list_lookup_imap. Qed.

Lemma length_overlay f l : length (overlay f l) = length l.
Proof. apply length_imap. Qed.

Lemma overlay_ext f g l :
  (forall i, 0 <= i < len l -> f i = g i) -> overlay f l = overlay g l.
Proof.
  intros Hfg. apply list_eq. intros i. rewrite !lookup_overlay.
  destruct (l !! i) eqn:E; [|done]. simpl. apply lookup_lt_Some in E.
  rewrite Hfg by lia. done.
Qed.

Lemma overlay_none f l : (forall i, 0 <= i < len l -> f i = None) -> overlay f l = l.
Proof.
  intros Hf. apply list_eq. intros i. rewrite lookup_overlay.
  destruct (l !! i) eqn:E; [|done]. simpl. apply lookup_lt_Some in E.
  rewrite Hf by lia. done.
Qed.

(** The later copy wins. *)
Definition or_else (x y : option byte) : option byte :=
  match x with Some b => Some b | None => y end.

Lemma overlay_overlay f g l :
  overlay f (overlay g l) = overlay (fun i => or_else (f i) (g i)) l.
Proof.
  apply list_eq. intros i. rewrite !lookup_overlay. destruct (l !! i); [|done]. simpl.
  by destruct (f _), (g _).
Qed.

Lemma slice_overlay f off n l :
  slice off n (overlay f l) = overlay (fun i => f (i + Z.of_nat off)) (slice off n l).
Proof.
  apply list_eq. intros i. rewrite lookup_overlay, !lookup_slice. case_decide; [|done].
  rewrite lookup_overlay. replace (Z.of_nat i + Z.of_nat off) with (Z.of_nat (off + i)) by lia.
  done.
Qed.

Definition window (mem : memory) (p off n : Z) : Z -> option byte := fun i =>
  if decide (off <= i < off + n) then Some (mem (p + (i - off))) else None.

Lemma write_load_overlay mem p off n l :
  0 <= off -> 0 <= n -> off + n <= len l ->
  write_at (Z.to_nat off) (load mem p (Z.to_nat n)) l = overlay (window mem p off n) l.
Proof.
  intros Ho Hn Hl. apply list_eq. intros i.
  rewrite lookup_write_at, lookup_overlay by (rewrite length_load; lia).
  rewrite length_load. unfold window. case_decide.
  - rewrite lookup_load, decide_True by lia.
    destruct (l !! i) eqn:E; [|apply lookup_ge_None in E; lia].
    simpl. do 3 f_equal. lia.
  - rewrite decide_False by lia. by destruct (l !! i).
Qed.

(** The bytes a plane contributes to the canonical offsets whose plane-local
    position is in [lo, hi): row [k / stride], column [k mod stride], absent
    beyond the [rc] bytes a source row holds. *)
Definition plane_src (mem : memory) (base ss po stride rc lo hi : Z) : Z -> option byte := fun c =>
  let k := c - po in
  if decide (lo <= k < hi /\ k mod stride < rc)
  then Some (mem (base + (k / stride * ss + k mod stride))) else None.

Lemma row_div_mod k row stride :
  row * stride <= k < (row + 1) * stride -> k / stride = row /\ k mod stride = k - row * stride.
Proof.
  intros Hk. split.
  - symmetry. apply (Z.div_unique_pos k stride row (k - row * stride)); lia.
  - symmetry. apply (Z.mod_unique_pos k stride row (k - row * stride)); lia.
Qed.

(** One more row below the rows already covered. *)
Lemma plane_src_row mem base ss po stride rc lo hi row c :
  0 <= rc <= stride -> 0 <= lo ->
  or_else (plane_src mem base ss po stride rc (Z.max lo ((row + 1) * stride)) hi c)
    (window mem (base + (row * ss + Z.max 0 (lo - row * stride)))
       (po + Z.max lo (row * stride))
       (Z.max 0 (Z.min hi (row * stride + rc) - Z.max lo (row * stride))) c)
  = plane_src mem base ss po stride rc (Z.max lo (row * stride)) hi c.
Proof.
  intros Hrc Hlo. unfold plane_src, window.
  destruct (decide (row * stride <= c - po < (row + 1) * stride)) as [Hin|Hout].
  - destruct (row_div_mod _ _ _ Hin) as [-> ->].
    repeat case_decide; simpl; try done; try lia. do 2 f_equal. lia.
  - assert (Hs : (row + 1) * stride = row * stride + stride) by lia.
    rewrite Hs in *. generalize dependent (row * stride). intros.
    repeat case_decide; simpl; try done; lia.
Qed.

Lemma window_shift mem p off n d j : window mem p off n (j + d) = window mem p (off - d) n j.
Proof. unfold window. repeat case_decide; try lia; [|done]. do 3 f_equal. lia. Qed.

Lemma plane_src_empty mem base ss po stride rc lo hi c :
  hi <= lo -> plane_src mem base ss po stride rc lo hi c = None.
Proof. intros Hle. unfold plane_src. case_decide; [lia|done]. Qed.

Lemma write_zeros k (l : list byte) :
  length l = k -> write_at 0 (replicate k Byte.x00) l = replicate k Byte.x00.
Proof.
  intros <-. unfold write_at. simpl. rewrite length_replicate, drop_all. apply app_nil_r.
Qed.

(** Row strides of a well-formed pixel buffer stay below 2 GiB. *)
Definition strides_ok {host} `{!Frameworks host} (h : host) (cv : Z) : Prop :=
  forall p, 0 <= CVPixelBufferGetBytesPerRowOfPlane h cv p < 2 ^ 31.

Section rows.
Context {host : Type} `{!Frameworks host} `{!Profile}.
Variables (m : machine host) (base ss st : Z).
Hypotheses (Hss : 0 <= ss < 2 ^ 31) (Hst : 0 <= st < 2 ^ 32).

Lemma row_product row :
  0 <= row < 2 ^ 32 -> 0 <= row * ss < 2 ^ 63 /\ 0 <= row * st < 2 ^ 64 - 2 ^ 32.
Proof.
  intros Hr.
  pose proof (Z.mul_le_mono_nonneg row (2 ^ 32 - 1) ss (2 ^ 31 - 1)).
  pose proof (Z.mul_le_mono_nonneg row (2 ^ 32 - 1) st (2 ^ 32 - 1)).
  pose proof (Z.mul_nonneg_nonneg row ss). pose proof (Z.mul_nonneg_nonneg row st). lia.
Qed.

Lemma copy_rows_overlay n row dst rb dest :
  0 <= row -> row + Z.of_nat n <= 2 ^ 32 -> 0 <= rb <= st -> 0 <= dst ->
  dst + (row + Z.of_nat n) * st <= len dest ->
  copy_rows m n row base ss dst st rb dest =
  Val (overlay (plane_src (mc_mem m) base ss dst st rb (row * st)
                  ((row + Z.of_nat n) * st)) dest).
Proof.
  revert row dest. induction n as [|n IH]; intros row dest Hrow Hn Hrb Hd Hl.
  { simpl. f_equal. rewrite overlay_none; [done|]. intros. apply plane_src_empty. lia. }
  destruct (row_product row ltac:(lia)) as [H1 H2]. simpl.
  rewrite !arith_in by lia. cbv beta iota delta [mbind rust_bind].
  assert (Hnst : 0 <= Z.of_nat n * st) by lia.
  replace ((row + Z.of_nat (S n)) * st) with (row * st + st + Z.of_nat n * st) in * by lia.
  rewrite write_load_overlay by lia. rewrite IH; try lia.
  2: { rewrite length_overlay. lia. }
  f_equal. rewrite overlay_overlay. apply overlay_ext. intros i Hi.
  replace ((row + 1 + Z.of_nat n) * st) with (row * st + st + Z.of_nat n * st) by lia.
  pose proof (plane_src_row (mc_mem m) base ss dst st rb 0 (row * st + st + Z.of_nat n * st)
    row i ltac:(lia) ltac:(lia)) as E.
  rewrite (Z.max_r 0 (row * st)), (Z.max_r 0 ((row + 1) * st)) in E by lia.
  rewrite <- E. f_equal. unfold ptr_add. f_equal; lia.
Qed.

Lemma range_row_overlay offset po rc ls le row dest :
  0 <= row < 2 ^ 32 -> 0 <= rc <= st -> 0 <= ls <= le -> row * st < le -> le < 2 ^ 40 ->
  0 <= po < 2 ^ 33 -> 0 <= offset <= po + ls -> po + le <= offset + len dest ->
  range_row m offset po st base ss rc ls le row dest =
  Val (overlay (fun j =>
         window (mc_mem m) (base + (row * ss + Z.max 0 (ls - row * st)))
           (po + Z.max ls (row * st))
           (Z.max 0 (Z.min le (row * st + rc) - Z.max ls (row * st))) (j + offset)) dest).
Proof.
  intros Hrow Hrc Hls Hle Hle2 Hpo Hoff Hd. unfold range_row.
  destruct (row_product row Hrow) as [H1 H2].
  rewrite (arith_in _ (row * st)) by lia. cbv beta iota delta [mbind rust_bind].
  rewrite (arith_in _ (row * st + st)) by lia.
  rewrite !(arith_in _ (Z.max _ _ - _)), !(arith_in _ (Z.min _ _ - _)) by lia.
  case_if; zbool.
  - rewrite overlay_none; [done|]. intros i Hi. unfold window. case_decide; [lia|done].
  - rewrite !arith_in by lia. f_equal.
    rewrite write_load_overlay by lia. apply overlay_ext. intros i Hi.
    rewrite window_shift. unfold ptr_add. f_equal; lia.
Qed.

Lemma range_rows_overlay offset po rc ls le n row dest :
  0 <= row -> row + Z.of_nat n < 2 ^ 32 -> 0 <= rc <= st -> 0 <= ls <= le -> le < 2 ^ 40 ->
  ((0 < n)%nat -> (row + Z.of_nat n - 1) * st < le) -> le <= (row + Z.of_nat n) * st ->
  0 <= po < 2 ^ 33 -> 0 <= offset <= po + ls -> po + le <= offset + len dest ->
  range_rows m offset po st base ss rc ls le n row dest =
  Val (overlay (fun j => plane_src (mc_mem m) base ss po st rc (Z.max ls (row * st)) le
                           (j + offset)) dest).
Proof.
  intros Hrow Hn Hrc Hls Hle Hlast Hend Hpo Hoff. revert row dest Hrow Hn Hlast Hend.
  induction n as [|n IH]; intros row dest Hrow Hn Hlast Hend Hd.
  { simpl. f_equal. rewrite overlay_none; [done|]. intros. apply plane_src_empty. lia. }
  assert (Hnst : 0 <= Z.of_nat n * st) by lia. specialize (Hlast ltac:(lia)).
  replace ((row + Z.of_nat (S n)) * st) with (row * st + st + Z.of_nat n * st) in * by lia.
  replace ((row + Z.of_nat (S n) - 1) * st) with (row * st + Z.of_nat n * st) in * by lia.
  simpl. assert (row * st < le) by lia. rewrite range_row_overlay by lia. cbv beta iota delta [mbind rust_bind].
  rewrite IH; [|rewrite ?length_overlay; intros; lia..].
  f_equal. rewrite overlay_overlay. apply overlay_ext. intros i Hi.
  apply plane_src_row; lia.
Qed.
End rows.

Section planes.
Context {host : Type} `{!Frameworks host} `{!Profile}.
Variables (m : machine host) (cv : Z).
Hypothesis (Hcv : strides_ok (mc_host m) cv).

(** What plane [p] of the layout contributes to the canonical bytes. *)
Definition plane_bytes (layout : BufferLayoutReply) (p : nat) : Z -> option byte :=
  let st := default 0 (bl_plane_bytes_per_row layout !! p) in
  let ss := CVPixelBufferGetBytesPerRowOfPlane (mc_host m) cv (Z.of_nat p) in
  plane_src (mc_mem m) (CVPixelBufferGetBaseAddressOfPlane (mc_host m) cv (Z.of_nat p)) ss
    (default 0 (bl_plane_offsets layout !! p)) st (Z.min st ss) 0
    (default 0 (bl_plane_heights layout !! p) * st).

(** Plane [p] has the given geometry, inside a 32-bit layout. *)
Definition plane_geom (layout : BufferLayoutReply) (p : nat) (po st h : Z) : Prop :=
  bl_plane_offsets layout !! p = Some po /\ bl_plane_bytes_per_row layout !! p = Some st /\
  bl_plane_heights layout !! p = Some h /\
  0 <= po /\ 0 <= st < 2 ^ 32 /\ 0 <= h < 2 ^ 32 /\ po + h * st <= bl_total_size layout.

Lemma range_rows_cover ls le st :
  0 <= ls < le -> 0 < st ->
  (le - 1) / st * st < le /\ le <= ((le - 1) / st + 1) * st /\ ls / st * st <= ls /\
  0 <= ls / st <= (le - 1) / st.
Proof.
  intros Hl Hs. pose proof (Z_div_mod_eq_full (le - 1) st).
  pose proof (Z.mod_pos_bound (le - 1) st Hs). pose proof (Z_div_mod_eq_full ls st).
  pose proof (Z.mod_pos_bound ls st Hs).
  pose proof (Z.div_pos ls st). pose proof (Z.div_le_mono ls (le - 1) st). lia.
Qed.

Lemma range_plane_overlay layout p po st h offset length dest :
  plane_geom layout p po st h -> bl_total_size layout < 2 ^ 32 ->
  CVPixelBufferGetBaseAddressOfPlane (mc_host m) cv (Z.of_nat p) <> 0 ->
  0 <= offset -> 0 < length -> offset + length <= bl_total_size layout ->
  len dest = length ->
  range_plane m cv layout offset length p dest =
  Val (true, overlay (fun j => plane_bytes layout p (j + offset)) dest).
Proof.
  intros (Ho & Hr & Hh & Hpo & Hst & Hhr & Hend) Ht Hbase Hoff Hlen Hol Hd.
  unfold range_plane, plane_bytes, at_plane. rewrite Ho, Hr, Hh.
  cbv beta iota delta [mbind rust_bind default from_option id].
  pose proof (Z.mul_nonneg_nonneg h st ltac:(lia) ltac:(lia)) as Hsz.
  rewrite !(Z.mul_comm st h). rewrite !arith_in by lia.
  case_if; zbool.
  { do 2 f_equal. rewrite overlay_none; [done|]. intros i Hi. unfold plane_src.
    case_decide; [lia|done]. }
  apply Z.eqb_neq in Hbase. rewrite Hbase.
  set (ls := Z.max offset po - po) in *.
  set (le := Z.min (offset + length) (po + h * st) - po) in *.
  assert (Hstp : 0 < st) by (destruct (decide (st = 0)); subst; lia).
  destruct (range_rows_cover ls le st ltac:(lia) Hstp) as (H1 & H2 & H3 & H4).
  rewrite !arith_in by lia. unfold checked_div.
  replace (st =? 0) with false by (symmetry; apply Z.eqb_neq; lia).
  assert ((le - 1) / st < h) by (apply Z.div_lt_upper_bound; lia).
  rewrite range_rows_overlay; try apply Hcv; try lia.
  2: { pose proof (Hcv (Z.of_nat p)). lia. }
  do 2 f_equal. apply overlay_ext. intros j Hj. unfold plane_src.
  rewrite (Z.max_l ls) by lia. rewrite (Z.min_comm st).
  repeat case_decide; try done; lia.
Qed.

Lemma copy_plane_overlay layout p po st h dest :
  plane_geom layout p po st h -> bl_total_size layout <= len dest ->
  copy_rows m (Z.to_nat h) 0
    (CVPixelBufferGetBaseAddressOfPlane (mc_host m) cv (Z.of_nat p))
    (CVPixelBufferGetBytesPerRowOfPlane (mc_host m) cv (Z.of_nat p)) po st
    (Z.min st (CVPixelBufferGetBytesPerRowOfPlane (mc_host m) cv (Z.of_nat p))) dest =
  Val (overlay (plane_bytes layout p) dest).
Proof.
  intros (Ho & Hr & Hh & Hpo & Hst & Hhr & Hend) Hd. pose proof (Hcv (Z.of_nat p)) as Hs.
  rewrite copy_rows_overlay; try lia. f_equal. unfold plane_bytes. rewrite Ho, Hr, Hh.
  cbv beta iota delta [default from_option id]. rewrite !Z.add_0_l, Z2Nat.id by lia. done.
Qed.
End planes.

Section canonical.
Context {host : Type} `{!Frameworks host} `{!Profile}.
Variables (m : machine host) (cv w h pf : Z).
Hypotheses (Hcv : strides_ok (mc_host m) cv) (Hfits : layout_fits w h pf).
Abbreviation layout := (layout_spec w h pf).

Lemma layout_spec_geom :
  biplanar pf = true ->
  plane_geom layout 0 0 (stride_spec w pf) h /\
  plane_geom layout 1 (stride_spec w pf * h) (stride_spec w pf) (h / 2).
Proof using Hfits.
  intros Hb. destruct Hfits as (Hw & Hh & Hs & Ht).
  pose proof (round64_bounds (w * bytes_per_sample pf)) as Hr.
  assert (Hbps : 1 <= bytes_per_sample pf) by (unfold bytes_per_sample; repeat case_if; lia).
  pose proof (Z.mul_nonneg_nonneg w (bytes_per_sample pf) ltac:(lia) ltac:(lia)).
  assert (Hst : 0 <= stride_spec w pf < 2 ^ 32) by (unfold stride_spec; lia).
  assert (Hh2 : 0 <= h / 2 /\ 2 * (h / 2) <= h)
    by (split; [apply Z.div_pos; lia|apply Z.mul_div_le; lia]).
  unfold total_spec in Ht. rewrite Hb in Ht.
  pose proof (Z.mul_nonneg_nonneg (stride_spec w pf) h ltac:(lia) ltac:(lia)).
  pose proof (Z.mul_nonneg_nonneg (stride_spec w pf) (h / 2) ltac:(lia) ltac:(lia)).
  unfold plane_geom, layout_spec, total_spec. rewrite Hb. simpl. split_and!; lia || done.
Qed.

(** The flattened frame, for a buffer with two planes. *)
Lemma to_bytes_overlay dest full :
  biplanar pf = true -> CVPixelBufferGetPlaneCount (mc_host m) cv <> 0 ->
  total_spec w h pf <= len dest ->
  vtf_copy_pixel_buffer_to_bytes m cv dest w h pf = Val (true, full) ->
  CVPixelBufferGetBaseAddressOfPlane (mc_host m) cv 0 <> 0 /\
  CVPixelBufferGetBaseAddressOfPlane (mc_host m) cv 1 <> 0 /\
  full = overlay (plane_bytes m cv layout 1) (overlay (plane_bytes m cv layout 0) dest).
Proof using Hcv Hfits.
  intros Hb Hpc Hd. destruct (layout_spec_geom Hb) as [G0 G1].
  assert (Htot : bl_total_size layout = total_spec w h pf)
    by (unfold layout_spec; by case_if).
  assert (Hcnt : bl_plane_count layout = 2) by (unfold layout_spec; by rewrite Hb).
  unfold vtf_copy_pixel_buffer_to_bytes. rewrite vtf_fill_buffer_layout_spec by done.
  cbv beta iota delta [mbind rust_bind]. rewrite Hcnt. simpl (2 =? 0). simpl (2 =? 1).
  apply Z.eqb_neq in Hpc. rewrite Hpc. cbv iota. simpl orb. cbv iota.
  change (Z.to_nat 2) with 2%nat. simpl copy_planes.
  pose proof G0 as (Ho & Hr & Hh & _). pose proof G1 as (Ho1 & Hr1 & Hh1 & _).
  unfold at_plane. rewrite Ho, Hr, Hh, Ho1, Hr1, Hh1. unfold mbind, rust_bind.
  destruct (CVPixelBufferGetBaseAddressOfPlane (mc_host m) cv (Z.of_nat 0) =? 0) eqn:B0;
    [done|].
  rewrite (copy_plane_overlay m cv Hcv layout 0 0 (stride_spec w pf) h _ G0) by lia.
  destruct (CVPixelBufferGetBaseAddressOfPlane (mc_host m) cv (Z.of_nat 1) =? 0) eqn:B1;
    [done|].
  rewrite (copy_plane_overlay m cv Hcv layout 1 (stride_spec w pf * h) (stride_spec w pf)
             (h / 2) _ G1) by (rewrite length_overlay; lia).
  intros [= <-]. zbool. done.
Qed.

Lemma byte_range_slice off n dest full :
  vtf_copy_pixel_buffer_to_bytes m cv (replicate (Z.to_nat (total_spec w h pf)) Byte.x00)
    w h pf = Val (true, full) ->
  0 <= off -> 0 <= n -> off + n <= total_spec w h pf -> len dest = n ->
  vtf_copy_pixel_buffer_byte_range m cv layout off n dest =
  Val (true, slice (Z.to_nat off) (Z.to_nat n) full).
Proof using Hcv Hfits.
  intros Hfull Ho Hn Hle Hd. set (zs := replicate _ _) in Hfull.
  assert (Hzs : len zs = total_spec w h pf) by (unfold zs; rewrite length_replicate; lia).
  assert (Hzn : slice (Z.to_nat off) (Z.to_nat n) zs = replicate (Z.to_nat n) Byte.x00).
  { unfold zs, slice. rewrite drop_replicate, take_replicate. f_equal. lia. }
  assert (Htot : bl_total_size layout = total_spec w h pf)
    by (unfold layout_spec; by case_if).
  assert (Hcnt : bl_plane_count layout = if biplanar pf then 2 else 1)
    by (unfold layout_spec; by case_if).
  unfold vtf_copy_pixel_buffer_byte_range. rewrite Htot.
  replace (bl_plane_count layout =? 0) with false by (rewrite Hcnt; by case_if).
  case_if; [apply orb_prop in Heqb as [?|?]; zbool|]. clear Heqb.
  case_if; zbool.
  { replace (Z.to_nat n) with 0%nat by lia. unfold slice. simpl.
    destruct dest; [done|simpl in Hd; lia]. }
  rewrite write_zeros by lia.
  case_if.
  - pose proof Hfull as Hf. unfold vtf_copy_pixel_buffer_to_bytes in Hf.
    rewrite vtf_fill_buffer_layout_spec in Hf by done.
    cbv beta iota delta [mbind rust_bind] in Hf.
    replace (bl_plane_count layout =? 0) with false in Hf by (rewrite Hcnt; by case_if).
    rewrite Heqb0 in Hf. destruct (CVPixelBufferGetBaseAddress (mc_host m) cv =? 0); [done|]. injection Hf as <-. rewrite Htot.
    do 2 f_equal.
    rewrite !write_load_overlay with (off := 0) by (rewrite ?length_replicate; lia).
    rewrite slice_overlay, Hzn. apply overlay_ext. intros i. rewrite length_replicate.
    intros Hi. unfold window, ptr_add. rewrite !decide_True by lia. do 2 f_equal. lia.
  - apply orb_false_elim in Heqb0 as [Hp1 Hp2]. apply Z.eqb_neq in Hp2.
    assert (Hb : biplanar pf = true)
      by (destruct (biplanar pf); [done|by rewrite Hcnt in Hp1]).
    destruct (to_bytes_overlay zs full Hb Hp2 ltac:(lia) Hfull) as (B0 & B1 & ->).
    destruct (layout_spec_geom Hb) as [G0 G1]. rewrite Hcnt, Hb.
    change (Z.to_nat 2) with 2%nat. simpl range_planes. unfold mbind, rust_bind.
    assert (Htot2 : total_spec w h pf < 2 ^ 32) by apply Hfits.
    rewrite (range_plane_overlay m cv Hcv layout 0 _ _ _ off n _ G0)
      by (rewrite ?length_replicate; done || lia).
    rewrite (range_plane_overlay m cv Hcv layout 1 _ _ _ off n _ G1)
      by (rewrite ?length_overlay, ?length_replicate; done || lia).
    do 2 f_equal. rewrite !slice_overlay, Hzn, Z2Nat.id by done. done.
Qed.

Lemma to_bytes_length dest full :
  len dest = total_spec w h pf ->
  vtf_copy_pixel_buffer_to_bytes m cv dest w h pf = Val (true, full) ->
  length full = length dest.
Proof using Hcv Hfits.
  intros Hd Hfull. pose proof Hfull as Hf. unfold vtf_copy_pixel_buffer_to_bytes in Hf.
  rewrite vtf_fill_buffer_layout_spec in Hf by done.
  cbv beta iota delta [mbind rust_bind] in Hf.
  assert (Hcnt : bl_plane_count layout = if biplanar pf then 2 else 1)
    by (unfold layout_spec; by case_if).
  assert (Htot : bl_total_size layout = total_spec w h pf)
    by (unfold layout_spec; by case_if).
  replace (bl_plane_count layout =? 0) with false in Hf by (rewrite Hcnt; by case_if).
  destruct ((bl_plane_count layout =? 1) || _) eqn:E.
  - destruct (CVPixelBufferGetBaseAddress (mc_host m) cv =? 0); [done|]. injection Hf as <-.
    apply length_write_at. rewrite length_load. lia.
  - apply orb_false_elim in E as [Hp1 Hp2]. apply Z.eqb_neq in Hp2.
    assert (Hb : biplanar pf = true)
      by (destruct (biplanar pf); [done|by rewrite Hcnt in Hp1]).
    destruct (to_bytes_overlay dest full Hb Hp2 ltac:(lia) Hfull) as (_ & _ & ->).
    by rewrite !length_overlay.
Qed.
End canonical.

(** C10: the chunked read is a window of the flattened frame.  For every geometry
    whose layout fits 32 bits and every pixel buffer, if flattening the buffer
    into a zeroed destination succeeds with [full], the byte range [off, off+n)
    is exactly that slice of [full], whatever the destination held before and in
    both build profiles; in particular no row, column or plane boundary needs
    the chunk to be aligned. *)
Theorem byte_range_is_slice {host} `{!Frameworks host} `{!Profile} (m : machine host) cv w h pf
    layout off n dest full :
  layout_fits w h pf -> strides_ok (mc_host m) cv ->
  vtf_fill_buffer_layout w h pf = Val layout ->
  vtf_copy_pixel_buffer_to_bytes m cv
    (replicate (Z.to_nat (bl_total_size layout)) Byte.x00) w h pf = Val (true, full) ->
  0 <= off -> 0 <= n -> off + n <= bl_total_size layout -> len dest = n ->
  vtf_copy_pixel_buffer_byte_range m cv layout off n dest =
  Val (true, slice (Z.to_nat off) (Z.to_nat n) full).
Proof.
  intros Hfits Hcv Hl. rewrite vtf_fill_buffer_layout_spec in Hl by done. simplify_eq.
  replace (bl_total_size (layout_spec w h pf)) with (total_spec w h pf)
    by (unfold layout_spec; by case_if).
  by apply byte_range_slice.
Qed.
