(* ===== verification/Sim.v ===== *)
(** * A simulated host

    A concrete instance of [Frameworks]: every call succeeds, references are
    fresh numbers, a compression session emits one sample per encoded frame and
    a decompression session one image per decoded frame.  The theorems over the
    real backend are stated for every [Frameworks]; this instance is where their
    examples are evaluated. *)

From S2P Require Import Prelude Wire Protocol Layout Frameworks PixelCopy.
From stdpp Require Import strings.

Set Default Goal Selector "!".
Open Scope Z_scope.

Record sim := mk_sim {
  sim_next : Z;
  sim_encoders : gmap Z SessionCallbackContext;
  sim_decoders : gmap Z DecodeSessionCallbackContext;
  sim_blocks : gmap Z (list byte);
  sim_samples : gmap Z (list byte * CMSampleTimingInfo);
  sim_decoded : list (list byte)
}.

Definition sim_init : sim := mk_sim 1 ∅ ∅ ∅ ∅ [].

(** Every byte of the initial memory is its address modulo 256. *)
Definition sim_machine : machine sim := mk_machine sim_init (fun a => byte.of_Z (a mod 256)).

Definition sim_call {A} (f : sim -> A * sim) : ffi sim A := fun m =>
  let '(a, h) := f (mc_host m) in (a, mk_machine h (mc_mem m)).

(** Take the next reference. *)
Definition sim_fresh (k : Z -> sim -> sim) (h : sim) : Z * sim :=
  let r := sim_next h in
  (r, k r (mk_sim (r + 1) (sim_encoders h) (sim_decoders h) (sim_blocks h) (sim_samples h)
             (sim_decoded h))).

Definition sim_time : CMTime := mk_CMTime 3 30 1 0.

Definition sim_sample (bs : list byte) : CMSampleBuffer :=
  mk_CMSampleBuffer (Some (bs, 0)) sim_time sim_time true
    (fun _ => (0, 2, 4)) (fun _ i => (0, Some (replicate (Z.to_nat (i + 3)) Byte.x67)))
    (Some [Some (Some false)]).

#[export] Instance sim_frameworks : Frameworks sim := {
  IOSurfaceGetBaseAddress _ s := 65536 * s;
  IOSurfaceGetID _ s := s;
  IOSurfaceLock _ _ := sim_call (fun h => (0, h));
  CVPixelBufferCreateWithBytes _ _ _ base _ := sim_call (fun h => ((0, base), h));
  CVPixelBufferCreateWithPlanarBytes _ _ _ base _ _ _ _ _ := sim_call (fun h => ((0, base), h));
  CVPixelBufferLockBaseAddress _ _ := sim_call (fun h => (0, h));
  CVPixelBufferUnlockBaseAddress _ _ := sim_call (fun h => (0, h));
  CVPixelBufferGetBaseAddress _ cv := cv;
  CVPixelBufferGetPlaneCount _ _ := 2;
  CVPixelBufferGetBaseAddressOfPlane _ cv p := cv + 256 * p;
  CVPixelBufferGetBytesPerRowOfPlane _ _ _ := 48;
  CVPixelBufferGetWidth _ _ := 40;
  CVPixelBufferGetHeight _ _ := 4;
  CVPixelBufferGetPixelFormatType _ _ := FOURCC_420V;
  VTCompressionSessionCreate _ _ _ _ ctx := sim_call (fun h =>
    let '(r, h) := sim_fresh (fun r h =>
      mk_sim (sim_next h) (<[r := ctx]> (sim_encoders h)) (sim_decoders h) (sim_blocks h)
        (sim_samples h) (sim_decoded h)) h in ((0, r), h));
  VTSessionSetProperty _ _ _ := sim_call (fun h => (0, h));
  VTCompressionSessionPrepareToEncodeFrames _ := sim_call (fun h => (0, h));
  encode_frame vt _ _ _ frame := sim_call (fun h =>
    ((true, [CompressionOutput (sim_encoders h !! vt) (Some frame) 0
               (Some (sim_sample [Byte.x01; Byte.x02]))]), h));
  VTCompressionSessionCompleteFrames _ := sim_call (fun h => ((0, []), h));
  CMTimeMake value timescale := mk_CMTime value timescale 1 0;
  from_h264_parameter_sets _ _ := sim_call (fun h =>
    let '(r, h) := sim_fresh (fun _ h => h) h in (Some r, h));
  from_hevc_parameter_sets _ _ := sim_call (fun h =>
    let '(r, h) := sim_fresh (fun _ h => h) h in (Some r, h));
  block_buffer_new_with_memory_block n := sim_call (fun h =>
    let '(r, h) := sim_fresh (fun r h =>
      mk_sim (sim_next h) (sim_encoders h) (sim_decoders h)
        (<[r := replicate (Z.to_nat n) Byte.x00]> (sim_blocks h))
        (sim_samples h) (sim_decoded h)) h in (Some r, h));
  replace_data_bytes bb bs _ := sim_call (fun h =>
    (true, mk_sim (sim_next h) (sim_encoders h) (sim_decoders h)
             (<[bb := bs]> (sim_blocks h)) (sim_samples h) (sim_decoded h)));
  CMSampleBufferCreateReady bb _ timing _ := sim_call (fun h =>
    let '(r, h) := sim_fresh (fun r h =>
      mk_sim (sim_next h) (sim_encoders h) (sim_decoders h) (sim_blocks h)
        (<[r := (default [] (sim_blocks h !! bb), timing)]> (sim_samples h))
        (sim_decoded h)) h in ((0, r), h));
  decompression_new_with_callback _ ctx := sim_call (fun h =>
    let '(r, h) := sim_fresh (fun r h =>
      mk_sim (sim_next h) (sim_encoders h) (<[r := ctx]> (sim_decoders h)) (sim_blocks h)
        (sim_samples h) (sim_decoded h)) h in (Some r, h));
  can_accept_format_description _ _ := sim_call (fun h => (true, h));
  decode_frame vt sample := sim_call (fun h =>
    match sim_samples h !! sample with
    | Some (bs, timing) =>
        ((true, [DecompressionOutput (sim_decoders h !! vt) 0 (4096 + len bs)
                   (ti_presentationTimeStamp timing) (ti_duration timing)]),
         mk_sim (sim_next h) (sim_encoders h) (sim_decoders h) (sim_blocks h) (sim_samples h)
           (sim_decoded h ++ [bs]))
    | None => ((false, []), h)
    end);
  wait_for_asynchronous_frames _ := sim_call (fun h => ((true, []), h))
}.

Lemma sim_strides_ok h cv : strides_ok h cv.
Proof. intros p. simpl. lia. Qed.

(** A 100-byte chunk across the row and plane boundaries of a 40x4 frame whose
    source rows (48 bytes) are shorter than the layout's (64 bytes). *)
Lemma byte_range_is_slice_witness :
  exists layout full,
    vtf_fill_buffer_layout (H:=debug_build) 40 4 FOURCC_420V = Val layout /\
    vtf_copy_pixel_buffer_byte_range (H:=debug_build) sim_machine 4096 layout 200 100
      (replicate 100 Byte.xff) = Val (true, slice 200 100 full).
Proof.
  eexists _, _. split; [reflexivity|].
  eapply (byte_range_is_slice (H:=debug_build) sim_machine 4096 40 4 FOURCC_420V _ 200 100);
    [vm_compute; intuition congruence|apply sim_strides_ok|reflexivity|reflexivity|lia|lia|
     vm_compute; congruence|reflexivity].
Defined.
