(* ===== verification/PoolDirectory.v ===== *)
(** * The IOSurface pool directory

    [iosurface_pool_directory.rs]: the launcher's surfaces, indexed by pool
    shape.  One directory is shared by every connection's backend; an entry is
    claimed by [take_matching] and given back by [release_entry].  The theorems
    show that a claim is exclusive, that a released entry can be claimed again
    and that a shape with [N] entries serves exactly [N] claims. *)

From S2P Require Import Prelude Wire Protocol Backend Frameworks Sim.
From stdpp Require Import strings.

Set Default Goal Selector "!".
Open Scope Z_scope.

Record IOSurfacePoolSpec := mk_IOSurfacePoolSpec {
  ps_width : Z;
  ps_height : Z;
  ps_pixel_format : Z;
  ps_slot_count : Z;
  ps_iosurface_id : Z
}.

(** [#[serde(default = "one")]] of [slot_count]. *)
Definition one : Z := 1.

Record IOSurfacePool := mk_IOSurfacePool {
  ip_spec : IOSurfacePoolSpec;
  ip_surface : OwnedIOSurface
}.

Record PoolShape := mk_PoolShape {
  sh_width : Z;
  sh_height : Z;
  sh_pixel_format : Z
}.

#[export] Instance PoolShape_eq_dec : EqDecision PoolShape.
Proof. solve_decision. Defined.

Record DirectoryEntry := mk_DirectoryEntry {
  de_shape : PoolShape;
  de_pool : IOSurfacePool;
  de_claimed : bool
}.

Record IOSurfacePoolDirectory := mk_IOSurfacePoolDirectory {
  dir_entries : list DirectoryEntry
}.

Definition set_claimed (b : bool) (e : DirectoryEntry) : DirectoryEntry :=
  mk_DirectoryEntry (de_shape e) (de_pool e) b.

Definition dir_empty : IOSurfacePoolDirectory := mk_IOSurfacePoolDirectory [].

Definition dir_len (d : IOSurfacePoolDirectory) : Z := len (dir_entries d).
Definition dir_is_empty (d : IOSurfacePoolDirectory) : bool :=
  bool_decide (dir_entries d = []).

(** The guard of [take_matching]'s loop. *)
Definition matches (width height pixel_format : Z) (e : DirectoryEntry) : bool :=
  negb (de_claimed e) && (sh_width (de_shape e) =? width)
  && (sh_height (de_shape e) =? height) && (sh_pixel_format (de_shape e) =? pixel_format).

Definition take_matching (d : IOSurfacePoolDirectory)
    (width height pixel_format _requested_slot_count : Z)
    : option (nat * IOSurfacePool) * IOSurfacePoolDirectory :=
  match position (matches width height pixel_format) (dir_entries d) with
  | Some id =>
      match dir_entries d !! id with
      | Some entry =>
          (Some (id, mk_IOSurfacePool (ip_spec (de_pool entry))
                       (clone_ref (ip_surface (de_pool entry)))),
           mk_IOSurfacePoolDirectory (update id (set_claimed true) (dir_entries d)))
      | None => (None, d)
      end
  | None => (None, d)
  end.

Definition release_entry (id : nat) (d : IOSurfacePoolDirectory) : IOSurfacePoolDirectory :=
  mk_IOSurfacePoolDirectory (update id (set_claimed false) (dir_entries d)).

Section load.
Context {host : Type} `{!Frameworks host}.

(** The body of [load]'s loop: a spec whose surface is not registered is
    skipped. *)
Definition load_spec (m : machine host) (acc : list DirectoryEntry * IOSurfaceRegistry)
    (spec : IOSurfacePoolSpec) : list DirectoryEntry * IOSurfaceRegistry :=
  let '(entries, registry) := acc in
  match take_by_id m registry (ps_iosurface_id spec) with
  | Some (surface, registry) =>
      (entries ++
         [ mk_DirectoryEntry
             (mk_PoolShape (ps_width spec) (ps_height spec) (ps_pixel_format spec))
             (mk_IOSurfacePool spec surface) false ],
       registry)
  | None => (entries, registry)
  end.

(** [serde_json::from_str] is the parameter [from_str]. *)
Definition dir_load (from_str : string -> option (list IOSurfacePoolSpec)) (env : environ)
    (m : machine host) (registry : IOSurfaceRegistry)
    : IOSurfacePoolDirectory * IOSurfaceRegistry :=
  match env "VT_FERRY_IOSURFACE_POOL_SPECS_JSON"%string with
  | Some raw =>
      if bool_decide (raw = EmptyString) then (dir_empty, registry)
      else match from_str raw with
           | Some specs =>
               let '(entries, registry) := foldl (load_spec m) ([], registry) specs in
               (mk_IOSurfacePoolDirectory entries, registry)
           | None => (dir_empty, registry)
           end
  | None => (dir_empty, registry)
  end.
End load.

(** ** Claims *)

Definition entry_claimed (d : IOSurfacePoolDirectory) (id : nat) : Prop :=
  exists e, dir_entries d !! id = Some e /\ de_claimed e = true.

(** [d'] has the entries of [d], with other claims. *)
Definition same_entries (d d' : IOSurfacePoolDirectory) : Prop :=
  set_claimed false <$> dir_entries d = set_claimed false <$> dir_entries d'.

#[export] Instance same_entries_equiv : Equivalence same_entries.
Proof. unfold same_entries. split; repeat intro; congruence. Qed.

Lemma same_entries_update id b d :
  same_entries d (mk_IOSurfacePoolDirectory (update id (set_claimed b) (dir_entries d))).
Proof. unfold same_entries. simpl. by rewrite fmap_update_same. Qed.

Lemma same_entries_release id d : same_entries d (release_entry id d).
Proof. apply same_entries_update. Qed.

Lemma same_entries_take d w h pf n o d' :
  take_matching d w h pf n = (o, d') -> same_entries d d'.
Proof.
  unfold take_matching. intros E. repeat case_match; simplify_eq; try done.
  apply same_entries_update.
Qed.

Lemma take_matching_Some d w h pf n id p d' :
  take_matching d w h pf n = (Some (id, p), d') ->
  exists e, dir_entries d !! id = Some e /\ matches w h pf e = true /\ p = de_pool e /\
    d' = mk_IOSurfacePoolDirectory (update id (set_claimed true) (dir_entries d)).
Proof.
  unfold take_matching.
  destruct (position _ _) as [i|] eqn:Hp; [|done].
  destruct (position_Some _ _ _ Hp) as (e & He & Hm & _). rewrite He. intros [= <- <- <-].
  exists e. split_and!; try done. unfold clone_ref. by destruct (de_pool e).
Qed.

Lemma take_matching_None d w h pf n d' :
  take_matching d w h pf n = (None, d') ->
  d' = d /\ forall e, e ∈ dir_entries d -> matches w h pf e = false.
Proof.
  unfold take_matching.
  destruct (position _ _) as [i|] eqn:Hp.
  - destruct (position_Some _ _ _ Hp) as (e & He & Hm & _). by rewrite He.
  - intros [= <-]. split; [done|]. by apply position_None.
Qed.

(** A claim hands out an entry nobody held and keeps every other claim. *)
Lemma take_matching_claims d w h pf n id p d' :
  take_matching d w h pf n = (Some (id, p), d') ->
  ~ entry_claimed d id /\ entry_claimed d' id /\
  forall i, i <> id -> entry_claimed d' i <-> entry_claimed d i.
Proof.
  intros (e & He & Hm & -> & ->)%take_matching_Some. unfold entry_claimed. simpl. split_and!.
  - intros (e' & He' & Hc). simplify_eq. unfold matches in Hm. by rewrite Hc in Hm.
  - exists (set_claimed true e). by rewrite (update_lookup _ _ _ _ He).
  - intros i Hi. by rewrite update_lookup_ne.
Qed.

Lemma release_entry_claims id d i :
  entry_claimed (release_entry id d) i <-> i <> id /\ entry_claimed d i.
Proof.
  unfold entry_claimed, release_entry. simpl. destruct (decide (i = id)) as [->|Hi].
  - split; [|naive_solver]. intros (e & He & Hc). exfalso. unfold update in He.
    rewrite list_lookup_alter_eq in He.
    by destruct (dir_entries d !! id); simplify_eq/=.
  - rewrite update_lookup_ne by done. naive_solver.
Qed.

Lemma release_entries_claims ids d i :
  entry_claimed (foldl (fun d id => release_entry id d) d ids) i <->
  (i ∉ ids) /\ entry_claimed d i.
Proof.
  revert d. induction ids as [|id ids IH]; intros d; simpl; [set_solver|].
  rewrite IH, release_entry_claims. set_solver.
Qed.

(** ** Capacity of a shape *)

Definition shape_of (w h pf : Z) : PoolShape := mk_PoolShape w h pf.

Definition entries_of_shape (sh : PoolShape) (d : IOSurfacePoolDirectory) : nat :=
  length (filter (fun e => de_shape e = sh) (dir_entries d)).

Definition free_of_shape (sh : PoolShape) (d : IOSurfacePoolDirectory) : nat :=
  length (filter (fun e => de_shape e = sh /\ de_claimed e = false) (dir_entries d)).

Lemma matches_spec w h pf e :
  matches w h pf e = true <-> de_shape e = shape_of w h pf /\ de_claimed e = false.
Proof.
  unfold matches, shape_of. destruct e as [[w' h' pf'] p c]. simpl.
  rewrite !andb_true_iff, !Z.eqb_eq, negb_true_iff. naive_solver.
Qed.

Lemma length_filter_update {A} (P : A -> Prop) `{!forall x, Decision (P x)} i f (l : list A) x :
  l !! i = Some x ->
  (length (filter P (update i f l)) + (if decide (P x) then 1 else 0) =
   length (filter P l) + (if decide (P (f x)) then 1 else 0))%nat.
Proof.
  intros Hi. unfold update. revert l Hi.
  induction i as [|i IH]; intros [|y l] Hi; simplify_eq/=.
  - rewrite !filter_cons. repeat case_decide; simpl; lia.
  - specialize (IH l Hi). rewrite !filter_cons. repeat case_decide; simpl in *; lia.
Qed.

Lemma take_matching_free d w h pf n id p d' :
  take_matching d w h pf n = (Some (id, p), d') ->
  free_of_shape (shape_of w h pf) d = S (free_of_shape (shape_of w h pf) d').
Proof.
  intros (e & He & Hm & -> & ->)%take_matching_Some. apply matches_spec in Hm.
  unfold free_of_shape. simpl.
  pose proof (length_filter_update
    (fun e => de_shape e = shape_of w h pf /\ de_claimed e = false)
    id (set_claimed true) (dir_entries d) e He) as Hl.
  rewrite decide_True in Hl by done. rewrite decide_False in Hl by (simpl; naive_solver). lia.
Qed.

Lemma take_matching_None_free d w h pf n d' :
  take_matching d w h pf n = (None, d') <-> d' = d /\ free_of_shape (shape_of w h pf) d = 0%nat.
Proof.
  split.
  - intros [-> Hn]%take_matching_None. split; [done|]. unfold free_of_shape.
    destruct (filter _ (dir_entries d)) as [|e l] eqn:E; [done|exfalso].
    assert (He : e ∈ e :: l) by set_solver. rewrite <- E in He.
    apply list_elem_of_filter in He as [Hs%matches_spec He]. by rewrite Hn in Hs.
  - intros [-> Hz]. destruct (take_matching d w h pf n) as [[[id p]|] d2] eqn:E.
    + apply take_matching_free in E. lia.
    + apply take_matching_None in E as [-> _]. done.
Qed.

(** [k] consecutive claims of one shape. *)
Fixpoint claim_n (k : nat) (w h pf n : Z) (d : IOSurfacePoolDirectory)
    : list (option (nat * IOSurfacePool)) * IOSurfacePoolDirectory :=
  match k with
  | O => ([], d)
  | S k =>
      let '(o, d) := take_matching d w h pf n in
      let '(os, d) := claim_n k w h pf n d in
      (o :: os, d)
  end.

Definition claim_ids (os : list (option (nat * IOSurfacePool))) : list nat :=
  omap (fmap fst) os.

Lemma claim_n_spec k w h pf n d os d' :
  claim_n k w h pf n d = (os, d') ->
  NoDup (claim_ids os) /\
  length (claim_ids os) = Nat.min k (free_of_shape (shape_of w h pf) d) /\
  (forall i, entry_claimed d' i <-> i ∈ claim_ids os \/ entry_claimed d i) /\
  (forall i, i ∈ claim_ids os -> ~ entry_claimed d i).
Proof.
  revert d os d'. induction k as [|k IH]; intros d os d'; simpl.
  { intros [= <- <-]. split_and!; [constructor|done|set_solver|set_solver]. }
  destruct (take_matching d w h pf n) as [o d1] eqn:E1.
  destruct (claim_n k w h pf n d1) as [os1 d2] eqn:E2. intros [= <- <-].
  destruct (IH _ _ _ E2) as (Hnd & Hlen & Hcl & Hfresh).
  destruct o as [[id p]|].
  - change (claim_ids (Some (id, p) :: os1)) with (id :: claim_ids os1).
    pose proof (take_matching_free _ _ _ _ _ _ _ _ E1) as Hfree.
    destruct (take_matching_claims _ _ _ _ _ _ _ _ E1) as (Hno & Hyes & Hother).
    split_and!.
    + apply list.NoDup_cons. split; [|done]. intros Hin. by apply (Hfresh id Hin).
    + simpl. rewrite Hfree, Hlen. simpl. done.
    + intros i. rewrite Hcl. destruct (decide (i = id)) as [->|Hi].
      * set_solver.
      * rewrite Hother by done. set_solver.
    + intros i [->|Hi]%elem_of_cons; [done|].
      destruct (decide (i = id)) as [->|Hne]; [by apply Hfresh in Hi|].
      rewrite <- Hother by done. by apply Hfresh.
  - pose proof (proj1 (take_matching_None_free _ _ _ _ _ _) E1) as [-> Hfree].
    change (claim_ids (None :: os1)) with (claim_ids os1). split_and!; [done|by rewrite Hlen, Hfree, !Nat.min_0_r|done|done].
Qed.

(** C40: the directory's capacity is exact. A shape with [N] unclaimed entries
    serves exactly [N] claims, however many are made and whatever the slot
    count they ask for: of [k] consecutive calls of [take_matching] [min k N]
    succeed, they hand out pairwise distinct entries that were not claimed,
    and exactly those become claimed. *)
Theorem claims_capacity k w h pf n d :
  let '(os, d') := claim_n k w h pf n d in
  NoDup (claim_ids os) /\
  length (claim_ids os) = Nat.min k (free_of_shape (shape_of w h pf) d) /\
  (forall i, entry_claimed d' i <-> i ∈ claim_ids os \/ entry_claimed d i) /\
  (forall i, i ∈ claim_ids os -> ~ entry_claimed d i).
Proof.
  destruct (claim_n k w h pf n d) as [os d'] eqn:E. by apply claim_n_spec in E.
Qed.

(** Releasing a claimed entry makes exactly that entry claimable again: a
    claim that failed for lack of free entries of its shape succeeds with it
    right after the release. *)
Theorem release_then_claim w h pf n d id e :
  dir_entries d !! id = Some e -> de_shape e = shape_of w h pf ->
  fst (take_matching d w h pf n) = None ->
  fst (take_matching (release_entry id d) w h pf n) = Some (id, de_pool e).
Proof.
  intros He Hs Hn.
  destruct (take_matching d w h pf n) as [o d0] eqn:E0. simpl in Hn. subst o.
  apply take_matching_None in E0 as [-> Hnone].
  assert (He' : dir_entries (release_entry id d) !! id = Some (set_claimed false e))
    by (simpl; by rewrite (update_lookup _ _ _ _ He)).
  destruct (take_matching (release_entry id d) w h pf n) as [[[i p]|] d1] eqn:E; simpl.
  - apply take_matching_Some in E as (e1 & He1 & Hm & -> & _).
    destruct (decide (i = id)) as [->|Hi]; [by simplify_eq|].
    simpl in He1. rewrite update_lookup_ne in He1 by done.
    rewrite (Hnone e1) in Hm; [done|]. by eapply list_elem_of_lookup_2.
  - apply take_matching_None in E as [_ Hnone'].
    assert (matches w h pf (set_claimed false e) = false) as Hf
      by (apply Hnone'; by eapply list_elem_of_lookup_2).
    exfalso. assert (matches w h pf (set_claimed false e) = true) by by apply matches_spec.
    congruence.
Qed.

Definition demo_spec (id : Z) : IOSurfacePoolSpec := mk_IOSurfacePoolSpec 64 32 1 4 id.

Definition demo_dir : IOSurfacePoolDirectory :=
  mk_IOSurfacePoolDirectory
    [ mk_DirectoryEntry (mk_PoolShape 64 32 1) (mk_IOSurfacePool (demo_spec 7) 7) true;
      mk_DirectoryEntry (mk_PoolShape 64 32 1) (mk_IOSurfacePool (demo_spec 9) 9) true ].

Lemma release_then_claim_witness :
  fst (take_matching (release_entry 1 demo_dir) 64 32 1 4) =
  Some (1%nat, mk_IOSurfacePool (demo_spec 9) 9).
Proof.
  exact (release_then_claim 64 32 1 4 demo_dir 1 _ eq_refl eq_refl eq_refl).
Defined.

(** ** Loading *)

Section load_spec.
Context {host : Type} `{!Frameworks host}.

Lemma take_by_id_spec (m : machine host) r id s r' :
  take_by_id m r id = Some (s, r') ->
  IOSurfaceGetID (mc_host m) s = id /\ reg_surfaces r ≡ₚ s :: reg_surfaces r'.
Proof.
  unfold take_by_id, mbind, option_bind.
  destruct (position _ _) as [i|] eqn:Hp; [|done].
  destruct (position_Some _ _ _ Hp) as (y & Hy & Hid & _).
  destruct (reg_surfaces r !! i) as [x|] eqn:Hx; [|done]. intros [= <- <-].
  assert (y = x) as -> by (unfold OwnedIOSurface in *; congruence). split; [by apply Z.eqb_eq in Hid|].
  by apply delete_Permutation.
Qed.

(** How many surfaces of an id are there. *)
Definition surfaces_with (m : machine host) (r : IOSurfaceRegistry) (id : Z) : nat :=
  length (filter (fun s => IOSurfaceGetID (mc_host m) s = id) (reg_surfaces r)).

(** The specs that get a surface: each of them, in order, while there are surfaces of its
    id left. *)
Fixpoint served (left : Z -> nat) (specs : list IOSurfacePoolSpec) : list IOSurfacePoolSpec :=
  match specs with
  | [] => []
  | spec :: specs =>
      match left (ps_iosurface_id spec) with
      | O => served left specs
      | S n => spec :: served (fun id => if id =? ps_iosurface_id spec then n else left id) specs
      end
  end.

Lemma served_ext left left' specs : (forall id, left id = left' id) -> served left specs = served left' specs.
Proof.
  revert left left'. induction specs as [|spec specs IH]; intros left left' He; [done|]. cbn. rewrite <- He.
  case_match; [by apply IH|]. f_equal. apply IH. intros id. by case_match.
Qed.

Lemma take_by_id_with (m : machine host) r id s r' : take_by_id m r id = Some (s, r') ->
  surfaces_with m r id = S (surfaces_with m r' id) /\
  forall id', id' <> id -> surfaces_with m r' id' = surfaces_with m r id'.
Proof.
  intros [Hid Hp]%take_by_id_spec. unfold surfaces_with.
  split; [|intros id' Hne]; rewrite Hp, filter_cons; [by rewrite decide_True|by rewrite decide_False by congruence].
Qed.

Lemma take_by_id_none (m : machine host) r id : take_by_id m r id = None -> surfaces_with m r id = 0%nat.
Proof.
  unfold take_by_id, mbind, option_bind. destruct (position _ _) as [i|] eqn:Hp.
  - destruct (position_Some _ _ _ Hp) as (y & Hy & _).
    destruct (reg_surfaces r !! i) eqn:Hx; [done|]. unfold OwnedIOSurface in *. congruence.
  - intros _. pose proof (proj1 (position_None (A:=Z) _ _) Hp) as Hn. clear Hp. unfold surfaces_with. induction (reg_surfaces r) as [|x l IH]; [done|].
    rewrite filter_cons. pose proof (Hn x ltac:(set_solver)) as Hx.
    rewrite decide_False by (by apply Z.eqb_neq in Hx). apply IH. intros y Hy. apply Hn. set_solver.
Qed.

(** An entry made of its spec and a surface of the spec's id. *)
Definition fresh_entry (m : machine host) (e : DirectoryEntry) : Prop :=
  let spec := ip_spec (de_pool e) in
  de_shape e = mk_PoolShape (ps_width spec) (ps_height spec) (ps_pixel_format spec) /\
  de_claimed e = false /\ IOSurfaceGetID (mc_host m) (ip_surface (de_pool e)) = ps_iosurface_id spec.

Definition entry_specs (es : list DirectoryEntry) : list IOSurfacePoolSpec := (fun e => ip_spec (de_pool e)) <$> es.
Definition entry_surfaces (es : list DirectoryEntry) : list OwnedIOSurface := (fun e => ip_surface (de_pool e)) <$> es.

Lemma load_spec_fold (m : machine host) specs es r es' r' :
  foldl (load_spec m) (es, r) specs = (es', r') -> Forall (fresh_entry m) es ->
  Forall (fresh_entry m) es' /\
  entry_specs es' = entry_specs es ++ served (surfaces_with m r) specs /\
  entry_surfaces es ++ reg_surfaces r ≡ₚ entry_surfaces es' ++ reg_surfaces r'.
Proof.
  revert es r. induction specs as [|spec specs IH]; intros es r; simpl.
  { intros [= <- <-]. by rewrite app_nil_r. }
  destruct (take_by_id m r (ps_iosurface_id spec)) as [[s r1]|] eqn:E.
  2: { rewrite (take_by_id_none _ _ _ E). apply IH. }
  intros Hf Hes. destruct (take_by_id_with _ _ _ _ _ E) as [Hn Ho]. apply take_by_id_spec in E as [Hid Hperm].
  destruct (IH _ _ Hf) as (H1 & H2 & H3); [by apply Forall_snoc|].
  split_and!; [done| |].
  - rewrite H2, Hn. unfold entry_specs. rewrite fmap_app, <- (assoc_L (++)). simpl. do 2 f_equal.
    apply served_ext. intros id. destruct (Z.eqb_spec id (ps_iosurface_id spec)) as [->|Hne]; [done|by apply Ho].
  - rewrite <- H3. unfold entry_surfaces. rewrite fmap_app. simpl. rewrite <- (assoc_L (++)). simpl. by rewrite Hperm.
Qed.
End load_spec.

(** The specs the launcher left in the environment. *)
Definition launcher_specs (from_str : string -> option (list IOSurfacePoolSpec)) (env : environ)
    : option (list IOSurfacePoolSpec) :=
  raw ← env "VT_FERRY_IOSURFACE_POOL_SPECS_JSON"%string;
  if bool_decide (raw = EmptyString) then None else from_str raw.

(** C34: loading gives every spec a surface while there are any.  Without specs that can be
    read the directory is empty and the registry untouched.  Otherwise the entries are, in
    order, the specs for which a registered surface of their id was left after the specs
    before them; each has the shape of its spec, a surface of its id and no claim.  No
    surface is dropped or duplicated: the entries' surfaces and those left in the registry
    are the registry's; if these are distinct, no two entries share one. *)
Theorem load_conserves_surfaces {host} `{!Frameworks host} from_str env
    (m : machine host) registry :
  let '(d, registry') := dir_load from_str env m registry in
  match launcher_specs from_str env with
  | None => d = dir_empty /\ registry' = registry
  | Some specs =>
      entry_specs (dir_entries d) = served (surfaces_with m registry) specs /\
      Forall (fresh_entry m) (dir_entries d) /\
      entry_surfaces (dir_entries d) ++ reg_surfaces registry' ≡ₚ reg_surfaces registry /\
      (NoDup (reg_surfaces registry) -> NoDup (entry_surfaces (dir_entries d)))
  end.
Proof.
  unfold dir_load, launcher_specs. destruct (env _) as [raw|]; [|done]. cbn. case_bool_decide; [done|].
  destruct (from_str raw) as [specs|]; [|done].
  destruct (foldl _ _ _) as [es r'] eqn:E.
  apply load_spec_fold in E as (H1 & H2 & H3); [|done]. simpl in H3. split_and!; [done|done|done|].
  rewrite H3. by intros [? _]%list.NoDup_app.
Qed.

(** ** A concrete registry *)

(** The surfaces 7, 9 and 5; specs for 9, 8 (not there), 7, 9 again, 5. *)
Definition demo_specs : list IOSurfacePoolSpec := demo_spec <$> [9; 8; 7; 9; 5].
Definition demo_env : environ := fun name =>
  if bool_decide (name = "VT_FERRY_IOSURFACE_POOL_SPECS_JSON"%string) then Some "x"%string else None.

Lemma load_conserves_surfaces_witness :
  let '(d, registry) := dir_load (fun _ => Some demo_specs) demo_env sim_machine (mk_IOSurfaceRegistry [7; 9; 4; 5]) in
  entry_specs (dir_entries d) = demo_spec <$> [9; 7; 5] /\ reg_surfaces registry = [4] /\
  NoDup (entry_surfaces (dir_entries d)).
Proof.
  pose proof (load_conserves_surfaces (fun _ => Some demo_specs) demo_env sim_machine
    (mk_IOSurfaceRegistry [7; 9; 4; 5])) as Hl.
  set (r := dir_load _ _ _ _) in *. assert (reg_surfaces r.2 = [4]) as Er by reflexivity. clearbody r.
  destruct r as [d registry]. destruct Hl as (Hs & _ & _ & Hd). split; [exact Hs|]. split; [exact Er|].
  apply Hd. repeat constructor; set_solver.
Defined.
