(* ===== verification/VtReal.v ===== *)
(** * The VideoToolbox backend: state and callbacks

    [vt_real.rs], first part: the worker's records, its two output queues, the
    two callbacks VideoToolbox runs on its own thread, and the helper methods of
    [VtRealBackend] shared by the handlers.  A [HashMap] is a [gmap]; where the
    code iterates over one, the order is the parameter [hash_iter] of [HashOrder].

    One dispatch call sees a [world]: the connection's own backend, the pool
    directory it shares with the other connections, and the host. *)

From S2P Require Import Prelude Wire Protocol Layout Backend Frameworks PoolDirectory PixelCopy.
From stdpp Require Import strings.

Set Default Goal Selector "!".
Open Scope Z_scope.

(** Iteration over a [HashMap] visits every entry once, in no particular order. *)
Class HashOrder := {
  hash_iter : forall {V : Type}, gmap Z V -> list (Z * V);
  hash_iter_spec : forall V (m : gmap Z V), hash_iter m ≡ₚ map_to_list m
}.

(** Iteration in key order is one of the orders. *)
Definition key_order : HashOrder :=
  {| hash_iter V m := map_to_list m; hash_iter_spec V m := reflexivity _ |}.

(** ** Data *)

Record VtRealSession := mk_VtRealSession {
  vs_id : Z;
  vs_width : Z;
  vs_height : Z;
  vs_payload_version : Z;
  vs_session_type : Z;
  vs_codec : Z;
  vs_pixel_format : Z;
  vs_prepared : bool;
  vs_vt_session : Z;
  vs_callback_context : SessionCallbackContext
}.

Record VtRealDecodeSession := mk_VtRealDecodeSession {
  vd_id : Z;
  vd_codec : Z;
  vd_width : Z;
  vd_height : Z;
  vd_format_description : option Z;
  vd_vt_session : option Z;
  vd_callback_context : option DecodeSessionCallbackContext;
  vd_chunked_output : bool
}.

Record VtRealDecodedOutput := mk_VtRealDecodedOutput {
  vo_session_id : Z;
  vo_pts : CMTime;
  vo_duration : CMTime;
  vo_status : Z;
  vo_image_buffer : Z
}.

Record DecodedOutputQueue := mk_DecodedOutputQueue {
  dq_queued : gmap Z VtRealDecodedOutput;
  dq_session_queues : gmap Z (list Z);
  dq_next_output_id : Z;
  dq_decode_errors : gmap Z Z
}.

Record PendingEncodedFrame := mk_PendingEncodedFrame {
  pf_bytes : list byte;
  pf_total_size : Z;
  pf_pts_value : Z;
  pf_pts_timescale : Z;
  pf_duration_value : Z;
  pf_duration_timescale : Z
}.

Record VtRealBuffer := mk_VtRealBuffer {
  vb_id : Z;
  vb_pool_id : Z;
  vb_generation : Z;
  vb_slot_index : Z;
  vb_slot_offset : Z;
  vb_pixel_buffer : option Z;
  vb_mapped_bytes : Z;
  vb_mapped_size : Z;
  vb_pixel_format : Z;
  vb_width : Z;
  vb_height : Z;
  vb_state : Z
}.

Inductive VtRealOutputStorage := Inline (bytes : list byte).

Record VtRealOutput := mk_VtRealOutput {
  vu_reply : DequeueOutputReply;
  vu_source_buffer_id : Z;
  vu_source_buffer_generation : Z;
  vu_storage : VtRealOutputStorage
}.

Record OutputQueue := mk_OutputQueue {
  oq_queued_outputs : gmap Z VtRealOutput;
  oq_session_queues : gmap Z (list Z);
  oq_next_output_id : Z
}.

Record VtRealPool := mk_VtRealPool {
  vp_id : Z;
  vp_session_id : Z;
  vp_width : Z;
  vp_height : Z;
  vp_pixel_format : Z;
  vp_max_buffers : Z;
  vp_buffer_count : Z;
  vp_slot_region_size : Z;
  vp_iosurfaces : list OwnedIOSurface;
  vp_iosurface_entry_id : option nat
}.

Record VtRealBackend := mk_VtRealBackend {
  vr_sessions : gmap Z VtRealSession;
  vr_decode_sessions : gmap Z VtRealDecodeSession;
  vr_buffers : gmap Z VtRealBuffer;
  vr_pools : gmap Z VtRealPool;
  vr_pending_encoded_frames : gmap Z PendingEncodedFrame;
  vr_next_host_id : Z;
  vr_output_state : OutputQueue;
  vr_decoded_output_state : DecodedOutputQueue
}.

(** ** Queues *)

Definition OutputQueue_new : OutputQueue := mk_OutputQueue ∅ ∅ 50000.

Definition OutputQueue_clear (q : OutputQueue) : OutputQueue := mk_OutputQueue ∅ ∅ 50000.

Definition DecodedOutputQueue_new : DecodedOutputQueue := mk_DecodedOutputQueue ∅ ∅ 70000 ∅.

Definition DecodedOutputQueue_clear (q : DecodedOutputQueue) : DecodedOutputQueue :=
  mk_DecodedOutputQueue ∅ ∅ (dq_next_output_id q) ∅.

(** [queues.entry(session_id).or_default().push_back(output_id)] *)
Definition push_back (session_id output_id : Z) (queues : gmap Z (list Z)) : gmap Z (list Z) :=
  <[session_id := default [] (queues !! session_id) ++ [output_id]]> queues.

(** [queues.get_mut(&session_id).and_then(|queue| queue.pop_front())] *)
Definition pop_front (session_id : Z) (queues : gmap Z (list Z))
    : option Z * gmap Z (list Z) :=
  match queues !! session_id with
  | Some (output_id :: rest) => (Some output_id, <[session_id := rest]> queues)
  | _ => (None, queues)
  end.

Section queues.
Context `{!Profile}.

Definition enqueue (session_id : Z) (output : VtRealDecodedOutput) (q : DecodedOutputQueue)
    : rust DecodedOutputQueue :=
  let output_id := dq_next_output_id q in
  next ← arith 64 (output_id + 1);
  Val (mk_DecodedOutputQueue (<[output_id := output]> (dq_queued q))
         (push_back session_id output_id (dq_session_queues q)) next (dq_decode_errors q)).

Definition record_decode_error (session_id status : Z) (q : DecodedOutputQueue)
    : DecodedOutputQueue :=
  if status =? 0 then q
  else mk_DecodedOutputQueue (dq_queued q) (dq_session_queues q) (dq_next_output_id q)
         (<[session_id := status]> (dq_decode_errors q)).

Definition take_decode_error (session_id : Z) (q : DecodedOutputQueue)
    : option Z * DecodedOutputQueue :=
  (dq_decode_errors q !! session_id,
   mk_DecodedOutputQueue (dq_queued q) (dq_session_queues q) (dq_next_output_id q)
     (delete session_id (dq_decode_errors q))).

(** ** Callbacks *)

Definition vtf_vt_decompression_output_callback
    (decompression_output_ref_con : option DecodeSessionCallbackContext)
    (status image_buffer : Z) (presentation_time_stamp presentation_duration : CMTime)
    (q : DecodedOutputQueue) : rust DecodedOutputQueue :=
  match decompression_output_ref_con with
  | None => Val q
  | Some context =>
      if (image_buffer =? 0) || negb (status =? 0) then
        let recorded_status := if negb (status =? 0) then status else -12911 in
        Val (record_decode_error (dcc_session_id context) recorded_status q)
      else
        enqueue (dcc_session_id context)
          (mk_VtRealDecodedOutput (dcc_session_id context) presentation_time_stamp
             presentation_duration status image_buffer) q
  end.

Definition FOURCC_AVC1 : Z := 0x61766331.
Definition FOURCC_HVC1 : Z := 0x68766331.

(** Parameter sets collected from the sample's format description. *)
Record parameter_sets := mk_parameter_sets {
  pss_count : Z;
  pss_sizes : list Z;
  pss_data : list byte
}.

(** The fetch loop, [n] indices from [index], at [data_offset]. *)
Fixpoint collect_parameter_sets (sample : CMSampleBuffer) (hevc : bool) (n : nat)
    (index data_offset : Z) (acc : parameter_sets) : rust parameter_sets :=
  match n with
  | O => Val acc
  | S n =>
      let '(fetch_status, parameter_set) := cms_parameter_set sample hevc index in
      if negb (fetch_status =? 0) then Val acc
      else match parameter_set with
      | None => Val acc
      | Some bytes =>
          data_end ← arith 64 (data_offset + len bytes);
          if data_end >? len (pss_data acc) then Val acc
          else
            collect_parameter_sets sample hevc n (index + 1) data_end
              (mk_parameter_sets (pss_count acc + 1)
                 (<[Z.to_nat (pss_count acc) := wrap 32 (len bytes)]> (pss_sizes acc))
                 (write_at (Z.to_nat data_offset) bytes (pss_data acc)))
      end
  end.

(** [sample_flags |= 1] when the first attachment says [NotSync = false]. *)
Definition sync_flag (sample : CMSampleBuffer) : Z :=
  match cms_attachments sample with
  | Some (Some (Some false) :: _) => 1
  | _ => 0
  end.

(** The reply the callback fills in, before the output id is assigned. *)
Definition compression_reply (ctx : SessionCallbackContext) (sample : CMSampleBuffer)
    (sample_size : Z) : rust DequeueOutputReply :=
  let empty := mk_parameter_sets 0 (replicate 4 0) (replicate 128 Byte.x00) in
  '(nal, sets) ←
    (if ((scc_codec ctx =? FOURCC_AVC1) || (scc_codec ctx =? FOURCC_HVC1))
        && cms_has_format sample then
       let hevc := scc_codec ctx =? FOURCC_HVC1 in
       let '(probe_status, parameter_set_count, nal_header_length) :=
         cms_parameter_set_probe sample hevc in
       if probe_status =? 0 then
         sets ← collect_parameter_sets sample hevc
                  (Z.to_nat (Z.min parameter_set_count 4)) 0 0 empty;
         Val (wrap 32 nal_header_length, sets)
       else Val (0, empty)
     else Val (0, empty));
  Val {| dor_session_id := scc_session_id ctx;
         dor_output_id := 0;
         dor_codec := scc_codec ctx;
         dor_width := scc_width ctx;
         dor_height := scc_height ctx;
         dor_pixel_format := scc_pixel_format ctx;
         dor_pts_value := cmt_value (cms_pts sample);
         dor_pts_timescale := cmt_timescale (cms_pts sample);
         dor_duration_timescale := cmt_timescale (cms_duration sample);
         dor_duration_value := cmt_value (cms_duration sample);
         dor_sample_size := wrap 32 sample_size;
         dor_sample_flags := sync_flag sample;
         dor_parameter_set_count := pss_count sets;
         dor_nal_header_length := nal;
         dor_parameter_set_sizes := pss_sizes sets;
         dor_parameter_set_data := pss_data sets;
         dor_output_slot_index := 0;
         dor_output_slot_offset := 0;
         dor_output_region_size := 0;
         dor_reserved := 0 |}.

Definition set_output_id (id : Z) (r : DequeueOutputReply) : DequeueOutputReply :=
  {| dor_session_id := dor_session_id r;
     dor_output_id := id;
     dor_codec := dor_codec r;
     dor_width := dor_width r;
     dor_height := dor_height r;
     dor_pixel_format := dor_pixel_format r;
     dor_pts_value := dor_pts_value r;
     dor_pts_timescale := dor_pts_timescale r;
     dor_duration_timescale := dor_duration_timescale r;
     dor_duration_value := dor_duration_value r;
     dor_sample_size := dor_sample_size r;
     dor_sample_flags := dor_sample_flags r;
     dor_parameter_set_count := dor_parameter_set_count r;
     dor_nal_header_length := dor_nal_header_length r;
     dor_parameter_set_sizes := dor_parameter_set_sizes r;
     dor_parameter_set_data := dor_parameter_set_data r;
     dor_output_slot_index := dor_output_slot_index r;
     dor_output_slot_offset := dor_output_slot_offset r;
     dor_output_region_size := dor_output_region_size r;
     dor_reserved := dor_reserved r |}.

Definition vtf_vt_compression_output_callback
    (output_callback_ref_con : option SessionCallbackContext)
    (source_frame_ref_con : option FrameContext) (status : Z)
    (sample_buffer : option CMSampleBuffer) (q : OutputQueue) : rust OutputQueue :=
  match output_callback_ref_con, source_frame_ref_con, sample_buffer with
  | Some session_context, Some frame_context, Some sample =>
      if negb (status =? 0) then Val q
      else match cms_data sample with
      | None => Val q
      | Some (sample_bytes, copy_status) =>
          let sample_size := len sample_bytes in
          if sample_size =? 0 then Val q
          else
            reply ← compression_reply session_context sample sample_size;
            let output_id := oq_next_output_id q in
            next ← arith 64 (output_id + 1);
            let q := mk_OutputQueue (oq_queued_outputs q) (oq_session_queues q) next in
            (* vec![0u8; sample_size] *)
            if sample_size >? ISIZE_MAX then Panic
            else if negb (copy_status =? 0) then Val q
            else
              let vt_output :=
                mk_VtRealOutput (set_output_id output_id reply) (fc_buffer_id frame_context)
                  (fc_buffer_generation frame_context) (Inline sample_bytes) in
              Val (mk_OutputQueue (<[output_id := vt_output]> (oq_queued_outputs q))
                     (push_back (scc_session_id session_context) output_id
                        (oq_session_queues q))
                     (oq_next_output_id q))
      end
  | _, _, _ => Val q
  end.
End queues.

(** ** The world of a dispatch call *)

Record world (host : Type) := mk_world {
  w_self : VtRealBackend;
  w_dir : IOSurfacePoolDirectory;
  w_machine : machine host
}.
Arguments mk_world {host}.
Arguments w_self {host}.
Arguments w_dir {host}.
Arguments w_machine {host}.

Section methods.
Context {host : Type} `{!Frameworks host} `{!HashOrder} `{!Profile}.
Abbreviation world := (world host).
Implicit Types (w : world) (b : VtRealBackend).

Definition on_self (f : VtRealBackend -> VtRealBackend) w : world :=
  mk_world (f (w_self w)) (w_dir w) (w_machine w).
Definition set_dir (d : IOSurfacePoolDirectory) w : world :=
  mk_world (w_self w) d (w_machine w).
Definition set_machine (m : machine host) w : world := mk_world (w_self w) (w_dir w) m.

Definition set_sessions v b := mk_VtRealBackend v (vr_decode_sessions b) (vr_buffers b)
  (vr_pools b) (vr_pending_encoded_frames b) (vr_next_host_id b) (vr_output_state b)
  (vr_decoded_output_state b).
Definition set_decode_sessions v b := mk_VtRealBackend (vr_sessions b) v (vr_buffers b)
  (vr_pools b) (vr_pending_encoded_frames b) (vr_next_host_id b) (vr_output_state b)
  (vr_decoded_output_state b).
Definition set_buffers v b := mk_VtRealBackend (vr_sessions b) (vr_decode_sessions b) v
  (vr_pools b) (vr_pending_encoded_frames b) (vr_next_host_id b) (vr_output_state b)
  (vr_decoded_output_state b).
Definition set_pools v b := mk_VtRealBackend (vr_sessions b) (vr_decode_sessions b)
  (vr_buffers b) v (vr_pending_encoded_frames b) (vr_next_host_id b) (vr_output_state b)
  (vr_decoded_output_state b).
Definition set_pending v b := mk_VtRealBackend (vr_sessions b) (vr_decode_sessions b)
  (vr_buffers b) (vr_pools b) v (vr_next_host_id b) (vr_output_state b)
  (vr_decoded_output_state b).
Definition set_next_host_id v b := mk_VtRealBackend (vr_sessions b) (vr_decode_sessions b)
  (vr_buffers b) (vr_pools b) (vr_pending_encoded_frames b) v (vr_output_state b)
  (vr_decoded_output_state b).
Definition set_output_state v b := mk_VtRealBackend (vr_sessions b) (vr_decode_sessions b)
  (vr_buffers b) (vr_pools b) (vr_pending_encoded_frames b) (vr_next_host_id b) v
  (vr_decoded_output_state b).
Definition set_decoded_output_state v b := mk_VtRealBackend (vr_sessions b)
  (vr_decode_sessions b) (vr_buffers b) (vr_pools b) (vr_pending_encoded_frames b)
  (vr_next_host_id b) (vr_output_state b) v.

Definition set_buffer_state (st : Z) (x : VtRealBuffer) : VtRealBuffer :=
  mk_VtRealBuffer (vb_id x) (vb_pool_id x) (vb_generation x) (vb_slot_index x)
    (vb_slot_offset x) (vb_pixel_buffer x) (vb_mapped_bytes x) (vb_mapped_size x)
    (vb_pixel_format x) (vb_width x) (vb_height x) st.
Definition set_pixel_buffer (cv : option Z) (x : VtRealBuffer) : VtRealBuffer :=
  mk_VtRealBuffer (vb_id x) (vb_pool_id x) (vb_generation x) (vb_slot_index x)
    (vb_slot_offset x) cv (vb_mapped_bytes x) (vb_mapped_size x)
    (vb_pixel_format x) (vb_width x) (vb_height x) (vb_state x).
Definition set_generation (g : Z) (x : VtRealBuffer) : VtRealBuffer :=
  mk_VtRealBuffer (vb_id x) (vb_pool_id x) g (vb_slot_index x)
    (vb_slot_offset x) (vb_pixel_buffer x) (vb_mapped_bytes x) (vb_mapped_size x)
    (vb_pixel_format x) (vb_width x) (vb_height x) (vb_state x).

(** Writing through the [&mut VtRealBuffer] found under [key]. *)
Definition put_buffer (key : Z) (x : VtRealBuffer) b : VtRealBackend :=
  set_buffers (<[key := x]> (vr_buffers b)) b.

(** Run a callback against this connection's queues. *)
Definition run_event (e : vt_event) b : rust VtRealBackend :=
  match e with
  | CompressionOutput ctx frame status sample =>
      q ← vtf_vt_compression_output_callback ctx frame status sample (vr_output_state b);
      Val (set_output_state q b)
  | DecompressionOutput ctx status image pts dur =>
      q ← vtf_vt_decompression_output_callback ctx status image pts dur
            (vr_decoded_output_state b);
      Val (set_decoded_output_state q b)
  end.

Fixpoint run_events (es : list vt_event) b : rust VtRealBackend :=
  match es with
  | [] => Val b
  | e :: es => b ← run_event e b; run_events es b
  end.

(** A foreign call, and one that may run callbacks before it returns. *)
Definition host_call {A} (f : ffi host A) w : rust (A * world) :=
  let '(a, m) := f (w_machine w) in Val (a, set_machine m w).

Definition host_call_events {A} (f : ffi host (A * list vt_event)) w : rust (A * world) :=
  let '((a, es), m) := f (w_machine w) in
  b ← run_events es (w_self w);
  Val (a, mk_world b (w_dir w) m).

Definition VtRealBackend_new : VtRealBackend :=
  mk_VtRealBackend ∅ ∅ ∅ ∅ ∅ 10000 OutputQueue_new DecodedOutputQueue_new.

(** [Drop for VtRealBackend]: give back the entries of the remaining pools. *)
Definition VtRealBackend_drop b (d : IOSurfacePoolDirectory) : IOSurfacePoolDirectory :=
  let entries := omap (fun '(_, pool) => vp_iosurface_entry_id pool) (hash_iter (vr_pools b)) in
  foldl (fun d id => release_entry id d) d entries.

Definition vt_reset_from_env b : VtRealBackend :=
  mk_VtRealBackend ∅ ∅ ∅ ∅ (vr_pending_encoded_frames b) 1
    (OutputQueue_clear (vr_output_state b))
    (DecodedOutputQueue_clear (vr_decoded_output_state b)).

(** [Ok(pixel_buffer)] is [inl], [Err(status)] is [inr]. *)
Definition vtf_wrap_source_slot_bytes (base width height pixel_format slot_total_bytes : Z)
    (m : machine host) : rust ((Z + Z) * machine host) :=
  let planar stride :=
    y_size ← arith 64 (stride * height);
    Val (wrap_bytes_planar base width height pixel_format slot_total_bytes
           [0; y_size] [width; width / 2] [height; height / 2] [stride; stride] m) in
  if pixel_format =? 0x42475241 then
    bytes_per_row ← arith 64 (width * 4);
    Val (wrap_bytes_single_plane base width height bytes_per_row pixel_format m)
  else if pixel_format =? 0x34323076 then
    a ← arith 64 (width + 63);
    planar (Z.land a (u_not 64 63))
  else if (pixel_format =? 0x78343230) || (pixel_format =? 0x78663230) then
    w2 ← arith 64 (width * 2);
    a ← arith 64 (w2 + 63);
    planar (Z.land a (u_not 64 63))
  else Val (inr STATUS_UNSUPPORTED_CODEC_OR_FORMAT, m).

(** The buffer's pixel buffer, wrapped on first use; the buffer is written back
    by the caller. *)
Definition vtf_ensure_source_pixel_buffer (x : VtRealBuffer) (m : machine host)
    : rust ((Z + Z) * VtRealBuffer * machine host) :=
  match vb_pixel_buffer x with
  | Some cv => Val (inl cv, x, m)
  | None =>
      '(r, m) ← vtf_wrap_source_slot_bytes (vb_mapped_bytes x) (wrap 64 (vb_width x))
                  (wrap 64 (vb_height x)) (vb_pixel_format x) (vb_mapped_size x) m;
      match r with
      | inl cv => Val (inl cv, set_pixel_buffer (Some cv) x, m)
      | inr status =>
          Val (inr (if status >? 0 then wrap 32 status else STATUS_INTERNAL_FAILURE), x, m)
      end
  end.

Definition mark_source_buffer_reusable (buffer_id generation : Z) b : VtRealBackend :=
  match vr_buffers b !! buffer_id with
  | Some buffer =>
      if (vb_generation buffer =? generation) && (vb_state buffer =? 2)
      then put_buffer buffer_id (set_buffer_state 0 buffer) b
      else b
  | None => b
  end.

Definition release_output_id (output_id : Z) b : Z * VtRealBackend :=
  let q := vr_output_state b in
  match oq_queued_outputs q !! output_id with
  | None => (STATUS_INVALID_HANDLE, b)
  | Some _ =>
      (STATUS_OK,
       set_output_state
         (mk_OutputQueue (delete output_id (oq_queued_outputs q)) (oq_session_queues q)
            (oq_next_output_id q)) b)
  end.

Definition encode_frame_payload (payload : EncodeFramePayload) w : rust (Z * world) :=
  match vr_sessions (w_self w) !! efp_session_id payload with
  | None => Val (STATUS_INVALID_HANDLE, w)
  | Some session =>
  if negb (vs_prepared session) then Val (STATUS_INVALID_STATE, w)
  else if efp_image_buffer_proxy_id payload =? 0 then Val (STATUS_INVALID_HANDLE, w)
  else
  let key := efp_image_buffer_host_id payload in
  match vr_buffers (w_self w) !! key with
  | None => Val (STATUS_INVALID_HANDLE, w)
  | Some buffer =>
  if negb (vb_generation buffer =? efp_image_buffer_generation payload)
  then Val (STATUS_STALE_GENERATION, w)
  else if negb (vb_state buffer =? 1) then Val (STATUS_INVALID_STATE, w)
  else
  let buffer_id := vb_id buffer in
  let buffer_generation := vb_generation buffer in
  '(r, buffer, m) ← vtf_ensure_source_pixel_buffer buffer (w_machine w);
  let w := on_self (put_buffer key buffer) (set_machine m w) in
  match r with
  | inr status => Val (status, w)
  | inl pixel_buffer =>
  '(status, w) ← host_call (CVPixelBufferLockBaseAddress pixel_buffer 0) w;
  if negb (status =? 0) then Val (STATUS_INTERNAL_FAILURE, w)
  else
  '(_, w) ← host_call (CVPixelBufferUnlockBaseAddress pixel_buffer 0) w;
  let pts := CMTimeMake (efp_pts_value payload) (efp_pts_timescale payload) in
  let dur := CMTimeMake (efp_duration_value payload) (efp_duration_timescale payload) in
  let frame_context := mk_FrameContext buffer_id buffer_generation in
  let w := on_self (put_buffer key (set_buffer_state 2 buffer)) w in
  '(encode_ok, w) ← host_call_events
                      (encode_frame (vs_vt_session session) pixel_buffer pts dur frame_context) w;
  if (encode_ok : bool) then Val (STATUS_OK, w)
  else Val (STATUS_INTERNAL_FAILURE, on_self (put_buffer key (set_buffer_state 1 buffer)) w)
  end end end.

Definition dispatch_decode_assembled_frame (session_id : Z) (encoded_bytes : list byte)
    (pts_value pts_timescale duration_value duration_timescale : Z) w : rust (Z * world) :=
  match vr_decode_sessions (w_self w) !! session_id with
  | None => Val (STATUS_INVALID_HANDLE, w)
  | Some session =>
  match vd_format_description session with
  | None => Val (STATUS_INVALID_STATE, w)
  | Some format_description =>
  match vd_vt_session session with
  | None => Val (STATUS_INVALID_STATE, w)
  | Some vt_session =>
  '(bb, w) ← host_call (block_buffer_new_with_memory_block (len encoded_bytes)) w;
  match bb with
  | None => Val (STATUS_INTERNAL_FAILURE, w)
  | Some block_buffer =>
  '(replaced, w) ← host_call (replace_data_bytes block_buffer encoded_bytes 0) w;
  if negb replaced then Val (STATUS_INTERNAL_FAILURE, w)
  else
  let timing :=
    mk_CMSampleTimingInfo
      (mk_CMTime duration_value duration_timescale kCMTimeFlags_Valid 0)
      (mk_CMTime pts_value pts_timescale kCMTimeFlags_Valid 0)
      (mk_CMTime 0 0 0 0) in
  '(create_status, sample_buffer, w) ←
    ('(r, w) ← host_call (CMSampleBufferCreateReady block_buffer format_description timing
                            (len encoded_bytes)) w;
     Val (fst r, snd r, w));
  if negb (create_status =? 0) || (sample_buffer =? 0) then Val (STATUS_INTERNAL_FAILURE, w)
  else
  '(decoded, w) ← host_call_events (decode_frame vt_session sample_buffer) w;
  if (decoded : bool) then Val (STATUS_OK, w) else Val (STATUS_INTERNAL_FAILURE, w)
  end end end end.
End methods.
