(* ===== verification/VtDispatch.v ===== *)
(** * The VideoToolbox backend: dispatch

    [vt_real.rs], second part: one definition per match arm of
    [VtRealBackend::dispatch], in the source's order.  Unlike the mock, this
    backend reports every error as [Ok(0)] with [res_header.status] set, and it
    copies replies with [copy_from_slice] into a prefix of the response buffer,
    which panics when the buffer is too small. *)

From S2P Require Import Prelude Wire Protocol Layout Backend Frameworks PoolDirectory.
From S2P Require Import PixelCopy VtReal Stub.
From stdpp Require Import strings.

Set Default Goal Selector "!".
Open Scope Z_scope.

Section combinators.
Context {host : Type} `{!Frameworks host} `{!HashOrder} `{!Profile}.
Abbreviation MW := (M (world host)).

(** [res_header.status = st; return Ok(0)] *)
Definition stop {A} (st : Z) : MW A := fun s => Return (Some 0) (with_status st s).

Definition stop_if (st : Z) (b : bool) : MW unit := if b then stop st else mret tt.

Definition some_or_stop {A} (st : Z) (o : option A) : MW A :=
  match o with Some a => mret a | None => stop st end.

Definition set_status (st : Z) : MW unit := fun s => Next tt (with_status st s).

(** [bytemuck::pod_read_unaligned] after the length guard. *)
Definition payload_or (T : Type) `{!Pod T} (st : Z) (req_payload : list byte) : MW T :=
  some_or_stop st (read_pod T req_payload).

(** A method of the backend, and a change of the connection's own state. *)
Definition call {A} (f : world host -> rust (A * world host)) : MW A :=
  w ← get_self;
  '(a, w) ← lift (f w);
  _ ← modify (fun _ => w);
  mret a.

Definition self : MW VtRealBackend := w ← get_self; mret (w_self w).
Definition modify_self (f : VtRealBackend -> VtRealBackend) : MW unit := modify (on_self f).
Definition get_machine : MW (machine host) := w ← get_self; mret (w_machine w).
Definition modify_machine (f : machine host -> machine host) : MW unit :=
  modify (fun w => set_machine (f (w_machine w)) w).

(** [let id = self.next_host_id; self.next_host_id += 1;] *)
Definition take_host_id : MW Z :=
  b ← self;
  next ← lift (arith 64 (vr_next_host_id b + 1));
  _ ← modify_self (set_next_host_id next);
  mret (vr_next_host_id b).

(** [res_payload[off..off + bytes.len()].copy_from_slice(bytes)] *)
Definition write_response (off : nat) (bytes : list byte) : MW unit := fun s =>
  if len (io_buf s) <? Z.of_nat off + len bytes then Panicked
  else Next tt (IO (io_self s) (io_header s) (write_at off bytes (io_buf s))).

Definition get_response : MW (list byte) := fun s => Next (io_buf s) s.

(** [vtf_ensure_source_pixel_buffer] on the buffer stored under [key]. *)
Definition ensure_pixel_buffer (key : Z) (x : VtRealBuffer) : MW Z :=
  m ← get_machine;
  '(r, x, m) ← lift (vtf_ensure_source_pixel_buffer x m);
  _ ← modify_machine (fun _ => m);
  _ ← modify_self (put_buffer key x);
  match r with
  | inl cv => mret cv
  | inr status => stop status
  end.

(** ** Session arms *)

Definition vt_hello (req_payload : list byte) : arm (world host) :=
  _ ← payload_or HelloPayload STATUS_INTERNAL_FAILURE req_payload;
  copy_out (bytes_of
    {| hr_worker_abi_version := VTF_TRANSPORT_VERSION;
       hr_reserved := 0;
       hr_supported_features := 0;
       hr_worker_name := bstr "vt-ferry-host-worker-vt" 9 |}).

Definition vt_get_caps : arm (world host) :=
  copy_out (bytes_of
    {| gc_codec_bits := Z.lor CAP_CODEC_H264 CAP_CODEC_HEVC;
       gc_pixel_format_bits :=
         Z.lor (Z.lor CAP_PIXEL_FORMAT_NV12 CAP_PIXEL_FORMAT_BGRA) CAP_PIXEL_FORMAT_P010;
       gc_session_feature_bits :=
         Z.lor (Z.lor CAP_SESSION_FEATURE_ASYNC_COMPLETE CAP_SESSION_FEATURE_BUFFER_SYNC)
           CAP_SESSION_FEATURE_DECODE;
       gc_max_width := 7680;
       gc_max_height := 4320;
       gc_max_inflight_frames := 16;
       gc_reserved := 0 |}).

Definition create_session_reply (session_id : Z) (payload : CreateSessionPayload)
    : CreateSessionReply :=
  {| csr_session_id := session_id;
     csr_negotiated_width := csp_width payload;
     csr_negotiated_height := csp_height payload;
     csr_pixel_format := csp_pixel_format payload;
     csr_reserved := 0 |}.

Definition vtf_make_source_attributes (width height pixel_format : Z) : source_attributes :=
  [ ("Width"%string, CFNumber_i32 width);
    ("Height"%string, CFNumber_i32 height);
    ("PixelFormatType"%string, CFNumber_i32 (as_signed 32 pixel_format));
    ("IOSurfaceProperties"%string, CFDictionary_i64 []) ].

Definition vt_create_decode_session (payload : CreateSessionPayload) : arm (world host) :=
  session_id ← take_host_id;
  _ ← modify_self (fun b => set_decode_sessions
        (<[session_id := mk_VtRealDecodeSession session_id (csp_codec payload)
             (csp_width payload) (csp_height payload) None None None false]>
           (vr_decode_sessions b)) b);
  copy_out (bytes_of (create_session_reply session_id payload)).

Definition vt_create_session (req_payload : list byte) : arm (world host) :=
  payload ← payload_or CreateSessionPayload STATUS_INTERNAL_FAILURE req_payload;
  if csp_kind payload =? VTF_SESSION_KIND_DECODE then vt_create_decode_session payload
  else
  _ ← stop_if STATUS_UNSUPPORTED_CODEC_OR_FORMAT
        (negb (csp_kind payload =? VTF_SESSION_KIND_ENCODE));
  session_id ← take_host_id;
  let callback_context :=
    mk_SessionCallbackContext session_id (csp_codec payload) (csp_pixel_format payload)
      (csp_width payload) (csp_height payload) in
  let source_attributes :=
    vtf_make_source_attributes (as_signed 32 (csp_width payload))
      (as_signed 32 (csp_height payload)) (csp_pixel_format payload) in
  r ← call (host_call (VTCompressionSessionCreate (as_signed 32 (csp_width payload))
              (as_signed 32 (csp_height payload)) (csp_codec payload) source_attributes
              callback_context));
  let '(status, session_ref) := r in
  _ ← stop_if STATUS_UNSUPPORTED_CODEC_OR_FORMAT
        (negb (status =? 0) || (session_ref =? 0));
  _ ← modify_self (fun b => set_sessions
        (<[session_id := mk_VtRealSession session_id (csp_width payload) (csp_height payload) 1
             (csp_kind payload) (csp_codec payload) (csp_pixel_format payload) false
             session_ref callback_context]> (vr_sessions b)) b);
  copy_out (bytes_of (create_session_reply session_id payload)).

Definition vt_prepare_session (req_payload : list byte) : arm (world host) :=
  payload ← payload_or PrepareSessionPayload STATUS_INTERNAL_FAILURE req_payload;
  b ← self;
  session ← some_or_stop STATUS_INVALID_HANDLE (vr_sessions b !! psp_session_id payload);
  status ← call (host_call
             (VTCompressionSessionPrepareToEncodeFrames (vs_vt_session session)));
  _ ← stop_if STATUS_INTERNAL_FAILURE (negb (status =? 0));
  _ ← modify_self (fun b => set_sessions
        (<[psp_session_id payload :=
             mk_VtRealSession (vs_id session) (vs_width session) (vs_height session)
               (vs_payload_version session) (vs_session_type session) (vs_codec session)
               (vs_pixel_format session) true (vs_vt_session session)
               (vs_callback_context session)]> (vr_sessions b)) b);
  ok 0.

(** ** [OP_SET_PROPERTY] *)

Definition payload_cstr (bytes : list byte) : string :=
  let stop := default (length bytes) (position (fun b => byte.unsigned b =? 0) bytes) in
  let s := take stop bytes in
  if utf8_valid s then String.string_of_list_byte s else EmptyString.

(** The keys [OP_SET_PROPERTY] forwards, each to VideoToolbox's constant of the
    same name. *)
Definition supported_property_keys : list string :=
  [ "AverageBitRate"; "MaxKeyFrameInterval"; "MoreFramesBeforeStart"; "MoreFramesAfterEnd";
    "AllowFrameReordering"; "H264EntropyMode"; "MaxH264SliceBytes"; "TransferFunction";
    "YCbCrMatrix"; "ColorPrimaries"; "DataRateLimits"; "AllowOpenGOP"; "MinAllowedFrameQP";
    "MaxAllowedFrameQP"; "PrioritizeEncodingSpeedOverQuality"; "PixelAspectRatio"; "RealTime";
    "ProfileLevel"; "ConstantBitRate"; "EncoderID"; "ExpectedFrameRate";
    "MaximizePowerEfficiency"; "Quality"; "ReferenceBufferCount"; "SpatialAdaptiveQPLevel";
    "TargetQualityForAlpha" ]%string.

Definition property_key_ref (key : string) : option string :=
  if bool_decide (key ∈ supported_property_keys) then Some key else None.

(** String values: most name one constant; the colour-space names stand for a
    different constant per property key. *)
Definition property_string_ref (key value : string) : option string :=
  if bool_decide (value = "H264_Main_AutoLevel"%string) then
    Some "kVTProfileLevel_H264_Main_AutoLevel"%string
  else if bool_decide (value = "H264_High_AutoLevel"%string) then
    Some "kVTProfileLevel_H264_High_AutoLevel"%string
  else if bool_decide (value = "CABAC"%string) then Some "kVTH264EntropyMode_CABAC"%string
  else if bool_decide (value = "CAVLC"%string) then Some "kVTH264EntropyMode_CAVLC"%string
  else if bool_decide (value = "ITU_R_709_2"%string) then
    if bool_decide (key = "TransferFunction"%string) then
      Some "kCVImageBufferTransferFunction_ITU_R_709_2"%string
    else if bool_decide (key = "YCbCrMatrix"%string) then
      Some "kCVImageBufferYCbCrMatrix_ITU_R_709_2"%string
    else if bool_decide (key = "ColorPrimaries"%string) then
      Some "kCVImageBufferColorPrimaries_ITU_R_709_2"%string
    else None
  else if bool_decide (value = "ITU_R_2020"%string) then
    if bool_decide (key = "TransferFunction"%string) then
      Some "kCVImageBufferTransferFunction_ITU_R_2020"%string
    else if bool_decide (key = "YCbCrMatrix"%string) then
      Some "kCVImageBufferYCbCrMatrix_ITU_R_2020"%string
    else if bool_decide (key = "ColorPrimaries"%string) then
      Some "kCVImageBufferColorPrimaries_ITU_R_2020"%string
    else None
  else if bool_decide (value = "SMPTE_240M_1995"%string) then
    if bool_decide (key = "TransferFunction"%string) then
      Some "kCVImageBufferTransferFunction_SMPTE_240M_1995"%string
    else if bool_decide (key = "YCbCrMatrix"%string) then
      Some "kCVImageBufferYCbCrMatrix_SMPTE_240M_1995"%string
    else None
  else if bool_decide (value = "SMPTE_ST_2084_PQ"%string) then
    Some "kCVImageBufferTransferFunction_SMPTE_ST_2084_PQ"%string
  else if bool_decide (value = "SMPTE_ST_428_1"%string) then
    Some "kCVImageBufferTransferFunction_SMPTE_ST_428_1"%string
  else if bool_decide (value = "ITU_R_2100_HLG"%string) then
    Some "kCVImageBufferTransferFunction_ITU_R_2100_HLG"%string
  else if bool_decide (value = "UseGamma"%string) then
    Some "kCVImageBufferTransferFunction_UseGamma"%string
  else if bool_decide (value = "SMPTE_C"%string) then
    Some "kCVImageBufferColorPrimaries_SMPTE_C"%string
  else if bool_decide (value = "EBU_3213"%string) then
    Some "kCVImageBufferColorPrimaries_EBU_3213"%string
  else if bool_decide (value = "ITU_R_601_4"%string) then
    Some "kCVImageBufferYCbCrMatrix_ITU_R_601_4"%string
  else None.

(** [payload.property_array_i64[i]]: the array has two elements. *)
Definition nth_Z (l : list Z) (i : nat) : Z := default 0 (l !! i).

(** One of the two key/value pairs of a dictionary property. *)
Definition property_dict_pair (payload : SetPropertyPayload) (index : nat)
    : option (string * Z) :=
  let key_name := payload_cstr (default [] (spp_property_dict_keys payload !! index)) in
  if bool_decide (key_name = "HorizontalSpacing"%string
                  \/ key_name = "VerticalSpacing"%string)
  then Some (key_name, nth_Z (spp_property_dict_sint64 payload) index)
  else None.

(** The CoreFoundation value; [None] is [STATUS_PROPERTY_NOT_SUPPORTED]. *)
Definition property_value (payload : SetPropertyPayload) (key : string) : option cf_value :=
  let kind := spp_property_value_kind payload in
  if kind =? 2 then
    if spp_property_number_type payload =? 3
    then Some (CFNumber_i32 (as_signed 32 (spp_property_sint64 payload)))
    else Some (CFNumber_i64 (spp_property_sint64 payload))
  else if kind =? 1 then Some (CFBoolean (negb (spp_property_bool payload =? 0)))
  else if kind =? 3 then
    CFStringConst <$> property_string_ref key (payload_cstr (spp_property_string payload))
  else if kind =? 4 then
    if negb (spp_property_array_count payload =? 2) then None
    else Some (CFArray_i64 [nth_Z (spp_property_array_i64 payload) 0;
                            nth_Z (spp_property_array_i64 payload) 1])
  else if kind =? 5 then
    if negb (spp_property_dict_pair_count payload =? 2) then None
    else first ← property_dict_pair payload 0;
         second ← property_dict_pair payload 1;
         Some (CFDictionary_i64 [first; second])
  else None.

Definition vt_set_property (req_payload : list byte) : arm (world host) :=
  payload ← payload_or SetPropertyPayload STATUS_INTERNAL_FAILURE req_payload;
  b ← self;
  session ← some_or_stop STATUS_INVALID_HANDLE (vr_sessions b !! spp_session_id payload);
  let property_key := payload_cstr (spp_property_key payload) in
  key_ref ← some_or_stop STATUS_PROPERTY_NOT_SUPPORTED (property_key_ref property_key);
  value ← some_or_stop STATUS_PROPERTY_NOT_SUPPORTED (property_value payload property_key);
  property_status ← call (host_call
                      (VTSessionSetProperty (vs_vt_session session) key_ref value));
  _ ← stop_if STATUS_INTERNAL_FAILURE (negb (property_status =? 0));
  ok 0.

(** ** Buffer arms *)

Definition lease_of (buffer_id slot_index slot_offset : Z) : PoolBufferLeaseReply :=
  {| pl_buffer_id := buffer_id;
     pl_generation := 0;
     pl_slot_index := slot_index;
     pl_slot_offset := wrap 32 slot_offset;
     pl_host_backing_kind := VTF_HOST_BACKING_KIND_IOSURFACE;
     pl_flags := 0 |}.

Definition slot_region (slot_bytes iosurface_id : Z) : SharedRegionReply :=
  {| sr_mapping_id := 0;
     sr_region_size := slot_bytes;
     sr_source_offset := 0;
     sr_flags := 1;
     sr_source_kind := VTF_SHARED_REGION_SOURCE_IOSURFACE;
     sr_source_handle := iosurface_id;
     sr_source_path := replicate 256 Byte.x00 |}.

(** Wrap one slot as a pixel buffer: BGRA as one plane, NV12 as two. *)
Definition wrap_slot (payload : CreateBufferPoolPayload) (pool : IOSurfacePool)
    (slot_offset slot_bytes : Z) : MW Z :=
  let width_u := cbp_width payload in
  let height_u := cbp_height payload in
  m ← get_machine;
  '(cv_ref_result, m) ←
    (if cbp_pixel_format payload =? 0x42475241 then
       bpr ← lift (arith 64 (width_u * 4));
       mret (wrap_slot_single_plane (ip_surface pool) slot_offset width_u height_u bpr
               (cbp_pixel_format payload) m)
     else if cbp_pixel_format payload =? 0x34323076 then
       a ← lift (arith 64 (width_u + 63));
       let stride := Z.land a (u_not 64 63) in
       y_size ← lift (arith 64 (stride * height_u));
       mret (wrap_slot_planar (ip_surface pool) width_u height_u (cbp_pixel_format payload)
               slot_offset slot_bytes [0; y_size] [width_u; width_u / 2]
               [height_u; height_u / 2] [stride; stride] m)
     else stop STATUS_UNSUPPORTED_CODEC_OR_FORMAT);
  _ ← modify_machine (fun _ => m);
  match cv_ref_result with
  | inl cv_ref => mret cv_ref
  | inr _ => stop STATUS_INTERNAL_FAILURE
  end.

(** The slot loop, [n] slots from [slot_index]: the replies' per-slot entries. *)
Fixpoint create_slots (payload : CreateBufferPoolPayload) (pool : IOSurfacePool)
    (pool_id slot_bytes : Z) (n : nat) (slot_index : Z)
    (acc : list SharedRegionReply * list PoolBufferLeaseReply)
    : MW (list SharedRegionReply * list PoolBufferLeaseReply) :=
  match n with
  | O => mret acc
  | S n =>
      slot_offset ← lift (arith 64 (slot_index * slot_bytes));
      cv_ref ← wrap_slot payload pool slot_offset slot_bytes;
      m ← get_machine;
      let mapped_bytes := ptr_add (base_address m (ip_surface pool)) slot_offset in
      buffer_id ← take_host_id;
      _ ← modify_self (put_buffer buffer_id
            (mk_VtRealBuffer buffer_id pool_id 0 slot_index slot_offset (Some cv_ref)
               mapped_bytes slot_bytes (cbp_pixel_format payload)
               (as_signed 32 (cbp_width payload)) (as_signed 32 (cbp_height payload)) 0));
      create_slots payload pool pool_id slot_bytes n (slot_index + 1)
        (<[Z.to_nat slot_index := slot_region slot_bytes (ps_iosurface_id (ip_spec pool))]>
           (fst acc),
         <[Z.to_nat slot_index := lease_of buffer_id slot_index slot_offset]> (snd acc))
  end.

(** The branch taken when the directory had a matching entry. *)
Definition vt_create_pool_from (payload : CreateBufferPoolPayload) (layout : BufferLayoutReply)
    (iosurface_entry_id : nat) (pool : IOSurfacePool) : arm (world host) :=
  let slot_region_size := bl_total_size layout in
  let effective_max_buffers := ps_slot_count (ip_spec pool) in
  _ ← stop_if STATUS_UNSUPPORTED_CODEC_OR_FORMAT
        (effective_max_buffers >? VTF_TRANSPORT_MAX_POOL_SLOTS);
  m ← get_machine;
  let '(kr, m) := lock_read_write (ip_surface pool) m in
  _ ← modify_machine (fun _ => m);
  _ ← stop_if STATUS_INTERNAL_FAILURE (bool_decide (kr <> None));
  pool_id ← take_host_id;
  buffer_region_size ← lift (arith 32 (effective_max_buffers * slot_region_size));
  let zero_regions :=
    replicate (Z.to_nat VTF_TRANSPORT_MAX_POOL_SLOTS) (zeroed SharedRegionReply) in
  let zero_leases :=
    replicate (Z.to_nat VTF_TRANSPORT_MAX_POOL_SLOTS) (zeroed PoolBufferLeaseReply) in
  slots ← create_slots payload pool pool_id slot_region_size
            (Z.to_nat effective_max_buffers) 0 (zero_regions, zero_leases);
  _ ← modify_self (fun b => set_pools
        (<[pool_id := mk_VtRealPool pool_id (cbp_session_id payload) (cbp_width payload)
             (cbp_height payload) (cbp_pixel_format payload) effective_max_buffers 0
             slot_region_size [ip_surface pool] (Some iosurface_entry_id)]> (vr_pools b)) b);
  copy_out (bytes_of
    {| cbr_pool_id := pool_id;
       cbr_width := cbp_width payload;
       cbr_height := cbp_height payload;
       cbr_pixel_format := cbp_pixel_format payload;
       cbr_slot_count := effective_max_buffers;
       cbr_buffer_region_size := buffer_region_size;
       cbr_host_backing_kind := VTF_HOST_BACKING_KIND_IOSURFACE;
       cbr_layout := layout;
       cbr_shared_regions := fst slots;
       cbr_buffer_leases := snd slots |}).

Definition vt_create_buffer_pool (req_payload : list byte) : arm (world host) :=
  payload ← payload_or CreateBufferPoolPayload STATUS_INTERNAL_FAILURE req_payload;
  b ← self;
  _ ← stop_if STATUS_INVALID_HANDLE
        (negb (cbp_session_id payload =? 0)
         && bool_decide (vr_sessions b !! cbp_session_id payload = None));
  layout ← lift (vtf_fill_buffer_layout (cbp_width payload) (cbp_height payload)
                   (cbp_pixel_format payload));
  let max_buffers :=
    if cbp_buffer_count payload =? 0 then 16 else cbp_buffer_count payload in
  w ← get_self;
  let '(zc_match, d) :=
    take_matching (w_dir w) (cbp_width payload) (cbp_height payload)
      (cbp_pixel_format payload) max_buffers in
  _ ← modify (set_dir d);
  match zc_match with
  | Some (iosurface_entry_id, pool) =>
      vt_create_pool_from payload layout iosurface_entry_id pool
  | None => stop STATUS_UNSUPPORTED_CODEC_OR_FORMAT
  end.

Definition vt_alloc_buffer (req_payload : list byte) : arm (world host) :=
  payload ← payload_or AllocBufferPayload STATUS_INTERNAL_FAILURE req_payload;
  b ← self;
  pool ← some_or_stop STATUS_INVALID_HANDLE (vr_pools b !! abp_pool_id payload);
  match List.find (fun '(_, x) => (vb_pool_id x =? vp_id pool) && (vb_state x =? 0))
          (hash_iter (vr_buffers b)) with
  | Some (buffer_id, buffer) =>
      generation ← lift (arith 64 (vb_generation buffer + 1));
      let buffer := set_buffer_state 1 (set_generation generation buffer) in
      _ ← modify_self (put_buffer buffer_id buffer);
      cv_ref ← ensure_pixel_buffer buffer_id buffer;
      _ ← call (host_call (CVPixelBufferLockBaseAddress cv_ref 0));
      m ← get_machine;
      let ptr := CVPixelBufferGetBaseAddress (mc_host m) cv_ref in
      _ ← (if negb (ptr =? 0) then
             modify_machine (with_mem
               (store ptr (replicate (Z.to_nat (vb_mapped_size buffer)) Byte.x00)))
           else mret tt);
      _ ← call (host_call (CVPixelBufferUnlockBaseAddress cv_ref 0));
      layout ← lift (vtf_fill_buffer_layout (vp_width pool) (vp_height pool)
                       (vp_pixel_format pool));
      copy_out (bytes_of
        {| abr_buffer_id := buffer_id;
           abr_generation := generation;
           abr_width := vp_width pool;
           abr_height := vp_height pool;
           abr_pixel_format := vp_pixel_format pool;
           abr_slot_index := vb_slot_index buffer;
           abr_slot_offset := wrap 32 (vb_slot_offset buffer);
           abr_host_backing_kind := VTF_HOST_BACKING_KIND_IOSURFACE;
           abr_layout := layout |})
  | None => stop STATUS_RESOURCE_EXHAUSTED
  end.

(** [offset as usize > mapped_size || length as usize > mapped_size - offset] *)
Definition outside (mapped_size offset length : Z) : bool :=
  (offset >? mapped_size) || (length >? mapped_size - offset).

Definition vt_read_buffer (req_payload : list byte) : arm (world host) :=
  payload ← payload_or ReadBufferPayload STATUS_INTERNAL_FAILURE req_payload;
  b ← self;
  let key := rbp_buffer_id payload in
  buffer ← some_or_stop STATUS_INVALID_HANDLE (vr_buffers b !! key);
  _ ← stop_if STATUS_STALE_GENERATION (negb (vb_generation buffer =? rbp_generation payload));
  _ ← stop_if STATUS_INVALID_STATE (vb_state buffer =? 0);
  _ ← stop_if STATUS_BOUNDS_VIOLATION
        (outside (vb_mapped_size buffer) (rbp_offset payload) (rbp_length payload));
  let reply_size := Z.of_nat (size_of ReadBufferReply) + rbp_length payload in
  n ← buf_len;
  _ ← stop_if STATUS_INTERNAL_FAILURE (n <? reply_size);
  _ ← write_response 0 (bytes_of
        {| rbr_buffer_id := vb_id buffer;
           rbr_generation := vb_generation buffer;
           rbr_offset := rbp_offset payload;
           rbr_length := rbp_length payload |});
  cv_ref ← ensure_pixel_buffer key buffer;
  _ ← call (host_call (CVPixelBufferLockBaseAddress cv_ref 0));
  m ← get_machine;
  '(copied, flat_bytes) ←
    lift (vtf_copy_pixel_buffer_to_bytes m cv_ref
            (replicate (Z.to_nat (vb_mapped_size buffer)) Byte.x00)
            (wrap 32 (vb_width buffer)) (wrap 32 (vb_height buffer)) (vb_pixel_format buffer));
  _ ← (if (copied : bool) then
         write_response (size_of ReadBufferReply)
           (slice (Z.to_nat (rbp_offset payload)) (Z.to_nat (rbp_length payload)) flat_bytes)
       else mret tt);
  _ ← call (host_call (CVPixelBufferUnlockBaseAddress cv_ref 0));
  ok reply_size.

Definition vt_write_buffer (req_payload : list byte) : arm (world host) :=
  payload ← payload_or WriteBufferPayload STATUS_BOUNDS_VIOLATION req_payload;
  _ ← stop_if STATUS_BOUNDS_VIOLATION
        (negb (len req_payload =? Z.of_nat (size_of WriteBufferPayload) + wbp_length payload));
  b ← self;
  let key := wbp_buffer_id payload in
  buffer ← some_or_stop STATUS_INVALID_HANDLE (vr_buffers b !! key);
  _ ← stop_if STATUS_STALE_GENERATION (negb (vb_generation buffer =? wbp_generation payload));
  _ ← stop_if STATUS_INVALID_STATE (negb (vb_state buffer =? 1));
  _ ← stop_if STATUS_BOUNDS_VIOLATION
        (outside (vb_mapped_size buffer) (wbp_offset payload) (wbp_length payload));
  cv_ref ← ensure_pixel_buffer key buffer;
  _ ← call (host_call (CVPixelBufferLockBaseAddress cv_ref 0));
  _ ← modify_machine (with_mem
        (store (ptr_add (vb_mapped_bytes buffer) (wbp_offset payload))
           (drop (size_of WriteBufferPayload) req_payload)));
  _ ← call (host_call (CVPixelBufferUnlockBaseAddress cv_ref 0));
  ok 0.

Definition vt_recycle_buffer (req_payload : list byte) : arm (world host) :=
  payload ← payload_or RecycleBufferPayload STATUS_INTERNAL_FAILURE req_payload;
  b ← self;
  let key := rcp_buffer_id payload in
  _ ← some_or_stop STATUS_INVALID_HANDLE (vr_pools b !! rcp_pool_id payload);
  buffer ← some_or_stop STATUS_INVALID_HANDLE (vr_buffers b !! key);
  _ ← stop_if STATUS_INVALID_HANDLE (negb (vb_pool_id buffer =? rcp_pool_id payload));
  _ ← stop_if STATUS_STALE_GENERATION (negb (vb_generation buffer =? rcp_generation payload));
  _ ← stop_if STATUS_INVALID_STATE (vb_state buffer =? 0);
  _ ← modify_self (put_buffer key (set_buffer_state 0 buffer));
  stop STATUS_OK.

(** ** Encode arms *)

Definition vt_encode_frame (req_payload : list byte) : arm (world host) :=
  payload ← payload_or EncodeFramePayload STATUS_INTERNAL_FAILURE req_payload;
  status ← call (encode_frame_payload payload);
  stop status.

(** The batch loop: the first failing frame ends it. *)
Fixpoint encode_batch (session_id : Z) (frames : list EncodeFramePayload) : arm (world host) :=
  match frames with
  | [] => stop STATUS_OK
  | frame :: frames =>
      _ ← stop_if STATUS_INVALID_HANDLE (negb (efp_session_id frame =? session_id));
      status ← call (encode_frame_payload frame);
      _ ← stop_if status (negb (status =? STATUS_OK));
      encode_batch session_id frames
  end.

Definition vt_encode_frame_batch (req_payload : list byte) : arm (world host) :=
  payload ← payload_or EncodeFrameBatchPayload STATUS_INTERNAL_FAILURE req_payload;
  let frame_count := Z.min (efb_frame_count payload) VTF_TRANSPORT_MAX_ENCODE_BATCH in
  encode_batch (efb_session_id payload) (take (Z.to_nat frame_count) (efb_frames payload)).

Definition set_session_queues (v : gmap Z (list Z)) (q : OutputQueue) : OutputQueue :=
  mk_OutputQueue (oq_queued_outputs q) v (oq_next_output_id q).

Definition vt_dequeue_output (req_payload : list byte) : arm (world host) :=
  payload ← payload_or DequeueOutputPayload STATUS_INTERNAL_FAILURE req_payload;
  b ← self;
  let q := vr_output_state b in
  let '(output_id, queues) := pop_front (dop_session_id payload) (oq_session_queues q) in
  _ ← modify_self (set_output_state (set_session_queues queues q));
  match output_id ≫= (fun id => oq_queued_outputs q !! id) with
  | Some out =>
      _ ← modify_self (mark_source_buffer_reusable (vu_source_buffer_id out)
                         (vu_source_buffer_generation out));
      copy_out (bytes_of (vu_reply out))
  | None => stop STATUS_TIMEOUT
  end.

(** [while output_ids.len() < max_outputs { pop_front ... }] *)
Definition pop_up_to (session_id : Z) (max_outputs : nat) (queues : gmap Z (list Z))
    : list Z * gmap Z (list Z) :=
  match queues !! session_id with
  | Some queue =>
      (take max_outputs queue, <[session_id := drop max_outputs queue]> queues)
  | None => ([], queues)
  end.

(** The reply loop: the queued outputs among the popped ids. *)
Definition batch_outputs (q : OutputQueue) (output_ids : list Z) : list VtRealOutput :=
  take (Z.to_nat VTF_TRANSPORT_MAX_OUTPUT_BATCH)
    (omap (fun id => oq_queued_outputs q !! id) output_ids).

Definition vt_dequeue_output_batch (req_payload : list byte) : arm (world host) :=
  payload ← payload_or DequeueOutputBatchPayload STATUS_INTERNAL_FAILURE req_payload;
  let max_outputs :=
    Z.max (Z.min (dbp_max_outputs payload) VTF_TRANSPORT_MAX_OUTPUT_BATCH) 1 in
  b ← self;
  let q := vr_output_state b in
  let '(output_ids, queues) :=
    pop_up_to (dbp_session_id payload) (Z.to_nat max_outputs) (oq_session_queues q) in
  _ ← modify_self (set_output_state (set_session_queues queues q));
  _ ← stop_if STATUS_TIMEOUT (bool_decide (output_ids = []));
  let outs := batch_outputs q output_ids in
  _ ← stop_if STATUS_TIMEOUT (bool_decide (outs = []));
  _ ← modify_self (fun b =>
        foldl (fun b out => mark_source_buffer_reusable (vu_source_buffer_id out)
                              (vu_source_buffer_generation out) b) b outs);
  copy_out (bytes_of
    {| dbr_session_id := dbp_session_id payload;
       dbr_output_count := len outs;
       dbr_reserved := 0;
       dbr_outputs := (vu_reply <$> outs)
         ++ replicate (Z.to_nat VTF_TRANSPORT_MAX_OUTPUT_BATCH - length outs)
              (zeroed DequeueOutputReply) |}).

Definition vt_read_output (req_payload : list byte) : arm (world host) :=
  payload ← payload_or ReadOutputPayload STATUS_INTERNAL_FAILURE req_payload;
  b ← self;
  out ← some_or_stop STATUS_INVALID_HANDLE
          (oq_queued_outputs (vr_output_state b) !! rop_output_id payload);
  let sample_size := dor_sample_size (vu_reply out) in
  let reply_size := Z.of_nat (size_of ReadOutputReply) + sample_size in
  n ← buf_len;
  _ ← stop_if STATUS_INTERNAL_FAILURE (n <? reply_size);
  _ ← write_response 0 (bytes_of
        {| ror_output_id := rop_output_id payload;
           ror_sample_size := sample_size;
           ror_reserved := 0 |});
  let '(Inline sample_data) := vu_storage out in
  (* copy_from_slice panics when the lengths differ *)
  _ ← lift (if len sample_data =? sample_size then Val tt else Panic);
  _ ← write_response (size_of ReadOutputReply) sample_data;
  ok reply_size.

Definition vt_release_output (req_payload : list byte) : arm (world host) :=
  payload ← payload_or ReleaseOutputPayload STATUS_INTERNAL_FAILURE req_payload;
  b ← self;
  let '(status, b) := release_output_id (rlp_output_id payload) b in
  _ ← modify_self (fun _ => b);
  stop status.

Fixpoint release_batch (output_ids : list Z) : arm (world host) :=
  match output_ids with
  | [] => stop STATUS_OK
  | output_id :: output_ids =>
      b ← self;
      let '(status, b) := release_output_id output_id b in
      _ ← modify_self (fun _ => b);
      _ ← stop_if status (negb (status =? STATUS_OK));
      release_batch output_ids
  end.

Definition vt_release_output_batch (req_payload : list byte) : arm (world host) :=
  payload ← payload_or ReleaseOutputBatchPayload STATUS_INTERNAL_FAILURE req_payload;
  let output_count := Z.min (rlb_output_count payload) VTF_TRANSPORT_MAX_OUTPUT_BATCH in
  release_batch (take (Z.to_nat output_count) (rlb_output_ids payload)).

(** [queues.get(&id).map(|q| q.len() as u32).unwrap_or(0)] *)
Definition pending_outputs (session_id : Z) (queues : gmap Z (list Z)) : Z :=
  match queues !! session_id with Some q => wrap 32 (len q) | None => 0 end.

Definition drain_reply (session_id : Z) (queues : gmap Z (list Z)) : DrainReply :=
  {| drr_session_id := session_id;
     drr_pending_outputs := pending_outputs session_id queues;
     drr_reserved := 0 |}.

Definition vt_drain (req_payload : list byte) : arm (world host) :=
  payload ← payload_or DrainPayload STATUS_INTERNAL_FAILURE req_payload;
  let id := drp_session_id payload in
  b ← self;
  match vr_decode_sessions b !! id with
  | Some decode_session =>
      _ ← (match vd_vt_session decode_session with
           | Some vt_session =>
               drained ← call (host_call_events (wait_for_asynchronous_frames vt_session));
               stop_if STATUS_INTERNAL_FAILURE (negb drained)
           | None => mret tt
           end);
      b ← self;
      copy_out (bytes_of (drain_reply id (dq_session_queues (vr_decoded_output_state b))))
  | None =>
      session ← some_or_stop STATUS_INVALID_HANDLE (vr_sessions b !! id);
      drain_status ← call (host_call_events
                       (VTCompressionSessionCompleteFrames (vs_vt_session session)));
      _ ← stop_if STATUS_INTERNAL_FAILURE (negb (drain_status =? 0));
      b ← self;
      copy_out (bytes_of (drain_reply id (oq_session_queues (vr_output_state b))))
  end.

(** ** Teardown arms *)

(** The ids of the entries of a map that satisfy [f], in iteration order. *)
Definition keys_where {V} (f : V -> bool) (m : gmap Z V) : list Z :=
  omap (fun '(k, v) => if f v then Some k else None) (hash_iter m).

(** The part of the arm after the session was removed. *)
Definition destroy_encode_session (session_id : Z) (w : world host) : world host :=
  let b := w_self w in
  let q := vr_output_state b in
  let released_output_ids :=
    keys_where (fun out => dor_session_id (vu_reply out) =? session_id)
      (oq_queued_outputs q) in
  let q := mk_OutputQueue
             (foldl (fun m id => delete id m) (oq_queued_outputs q) released_output_ids)
             (delete session_id (oq_session_queues q)) (oq_next_output_id q) in
  let pool_ids := keys_where (fun pool => vp_session_id pool =? session_id) (vr_pools b) in
  let entries_to_release :=
    omap (fun pool_id => vr_pools b !! pool_id ≫= vp_iosurface_entry_id) pool_ids in
  let d := foldl (fun d id => release_entry id d) (w_dir w) entries_to_release in
  let pools := foldl (fun m id => delete id m) (vr_pools b) pool_ids in
  let buffers := filter (fun '(_, x) => vb_pool_id x ∉ pool_ids) (vr_buffers b) in
  mk_world (set_buffers buffers (set_pools pools (set_output_state q b))) d (w_machine w).

Definition vt_destroy_session (req_payload : list byte) : arm (world host) :=
  payload ← payload_or DestroySessionPayload STATUS_INTERNAL_FAILURE req_payload;
  let id := dsp_session_id payload in
  b ← self;
  match vr_decode_sessions b !! id with
  | Some _ =>
      _ ← modify_self (fun b => set_decode_sessions (delete id (vr_decode_sessions b)) b);
      ok 0
  | None =>
      _ ← some_or_stop STATUS_INVALID_HANDLE (vr_sessions b !! id);
      _ ← modify_self (fun b => set_sessions (delete id (vr_sessions b)) b);
      _ ← modify (destroy_encode_session id);
      ok 0
  end.

Definition vt_destroy_buffer_pool (req_payload : list byte) : arm (world host) :=
  payload ← payload_or DestroyBufferPoolPayload STATUS_INTERNAL_FAILURE req_payload;
  let id := dpp_pool_id payload in
  b ← self;
  match vr_pools b !! id with
  | None => ok 0
  | Some pool =>
      _ ← modify_self (fun b => set_pools (delete id (vr_pools b)) b);
      _ ← modify_self (fun b => set_buffers
            (filter (fun '(_, x) => vb_pool_id x <> id) (vr_buffers b)) b);
      _ ← (match vp_iosurface_entry_id pool with
           | Some entry_id => modify (fun w => set_dir (release_entry entry_id (w_dir w)) w)
           | None => mret tt
           end);
      ok 0
  end.

(** ** Decode arms *)

(** [if status != STATUS_OK { res_header.status = status; } Ok(0)] *)
Definition finish_with (status : Z) : arm (world host) :=
  _ ← (if negb (status =? STATUS_OK) then set_status status else mret tt);
  ok 0.

Definition vt_enqueue_encoded_frame (req_payload : list byte) : arm (world host) :=
  payload ← payload_or EnqueueEncodedFramePayload STATUS_INTERNAL_FAILURE req_payload;
  _ ← stop_if STATUS_BOUNDS_VIOLATION
        (eep_encoded_size payload >? VTF_TRANSPORT_MAX_ENCODED_FRAME_BYTES);
  _ ← stop_if STATUS_BOUNDS_VIOLATION (eep_encoded_size payload =? 0);
  let header_size := size_of EnqueueEncodedFramePayload in
  let expected_total := Z.of_nat header_size + eep_encoded_size payload in
  _ ← stop_if STATUS_BOUNDS_VIOLATION (negb (len req_payload =? expected_total));
  let encoded_bytes := drop header_size req_payload in
  status ← call (dispatch_decode_assembled_frame (eep_session_id payload) encoded_bytes
                   (eep_pts_value payload) (eep_pts_timescale payload)
                   (eep_duration_value payload) (eep_duration_timescale payload));
  finish_with status.

Definition MAX_CHUNKED_ENCODED_FRAME_BYTES : Z := 64 * 1024 * 1024.

(** The validation before the assembly state is touched: the status of the
    first check that fails. *)
Definition chunk_check (payload : EnqueueEncodedFrameChunkPayload) (wire_len : Z)
    (b : VtRealBackend) : option Z :=
  let header_size := Z.of_nat (size_of EnqueueEncodedFrameChunkPayload) in
  if negb (wire_len =? header_size + ekp_chunk_length payload)
  then Some STATUS_BOUNDS_VIOLATION
  else if (ekp_total_encoded_size payload =? 0)
          || (ekp_total_encoded_size payload >? MAX_CHUNKED_ENCODED_FRAME_BYTES)
  then Some STATUS_BOUNDS_VIOLATION
  else if match checked 32 (ekp_chunk_offset payload + ekp_chunk_length payload) with
          | Some chunk_end => chunk_end >? ekp_total_encoded_size payload
          | None => true
          end
  then Some STATUS_BOUNDS_VIOLATION
  else if (ekp_chunk_length payload =? 0) && (ekp_is_final_chunk payload =? 0)
  then Some STATUS_BOUNDS_VIOLATION
  else if bool_decide (vr_decode_sessions b !! ekp_session_id payload = None)
  then Some STATUS_INVALID_HANDLE
  else None.

(** Head chunk: start the assembly (dropping an unfinished one); later chunk:
    append it where the assembly stands.  [None] is [STATUS_INVALID_STATE]. *)
Definition assemble (payload : EnqueueEncodedFrameChunkPayload) (chunk_data : list byte)
    (b : VtRealBackend) : option VtRealBackend :=
  let id := ekp_session_id payload in
  if ekp_chunk_offset payload =? 0 then
    Some (set_pending
      (<[id := mk_PendingEncodedFrame chunk_data (ekp_total_encoded_size payload)
                 (ekp_pts_value payload) (ekp_pts_timescale payload)
                 (ekp_duration_value payload) (ekp_duration_timescale payload)]>
         (vr_pending_encoded_frames b)) b)
  else
    pending ← vr_pending_encoded_frames b !! id;
    if negb (pf_total_size pending =? ekp_total_encoded_size payload) then None
    else if negb (len (pf_bytes pending) =? ekp_chunk_offset payload) then None
    else Some (set_pending
      (<[id := mk_PendingEncodedFrame (pf_bytes pending ++ chunk_data) (pf_total_size pending)
                 (pf_pts_value pending) (pf_pts_timescale pending)
                 (pf_duration_value pending) (pf_duration_timescale pending)]>
         (vr_pending_encoded_frames b)) b).

(** Final chunk: the assembly leaves the map and, if complete, goes to the
    decoder with the head chunk's timing. *)
Definition finish_assembly (session_id : Z) : arm (world host) :=
  b ← self;
  pending ← some_or_stop STATUS_INVALID_STATE (vr_pending_encoded_frames b !! session_id);
  _ ← modify_self (fun b => set_pending (delete session_id (vr_pending_encoded_frames b)) b);
  _ ← stop_if STATUS_INVALID_STATE
        (negb (wrap 32 (len (pf_bytes pending)) =? pf_total_size pending));
  status ← call (dispatch_decode_assembled_frame session_id (pf_bytes pending)
                   (pf_pts_value pending) (pf_pts_timescale pending)
                   (pf_duration_value pending) (pf_duration_timescale pending));
  finish_with status.

Definition vt_enqueue_encoded_frame_chunk (req_payload : list byte) : arm (world host) :=
  payload ← payload_or EnqueueEncodedFrameChunkPayload STATUS_INTERNAL_FAILURE req_payload;
  b ← self;
  _ ← (match chunk_check payload (len req_payload) b with
       | Some status => stop status
       | None => mret tt
       end);
  let chunk_data := drop (size_of EnqueueEncodedFrameChunkPayload) req_payload in
  b ← some_or_stop STATUS_INVALID_STATE (assemble payload chunk_data b);
  _ ← modify_self (fun _ => b);
  if negb (ekp_is_final_chunk payload =? 0) then finish_assembly (ekp_session_id payload)
  else ok 0.

Definition set_decoded_queues (v : gmap Z (list Z)) (q : DecodedOutputQueue)
    : DecodedOutputQueue :=
  mk_DecodedOutputQueue (dq_queued q) v (dq_next_output_id q) (dq_decode_errors q).

(** The error sentinel: [output_id == 0] with the VideoToolbox status. *)
Definition decode_error_reply (session_id vt_status : Z) : DequeueDecodedFrameReply :=
  {| ddr_session_id := session_id;
     ddr_output_id := 0;
     ddr_buffer_proxy_id := 0;
     ddr_buffer_host_id := 0;
     ddr_buffer_generation := 0;
     ddr_width := 0;
     ddr_height := 0;
     ddr_pixel_format := 0;
     ddr_flags := 0;
     ddr_pts_value := 0;
     ddr_pts_timescale := 0;
     ddr_duration_timescale := 0;
     ddr_duration_value := 0;
     ddr_status := wrap 32 vt_status;
     ddr_slot_index := 0 |}.

Definition decoded_frame_reply (h : host) (session_id output_id : Z) (chunked_output : bool)
    (output : VtRealDecodedOutput) : DequeueDecodedFrameReply :=
  let cv := vo_image_buffer output in
  {| ddr_session_id := session_id;
     ddr_output_id := output_id;
     ddr_buffer_proxy_id := 0;
     ddr_buffer_host_id := if chunked_output then output_id else 0;
     ddr_buffer_generation := 0;
     ddr_width := wrap 32 (CVPixelBufferGetWidth h cv);
     ddr_height := wrap 32 (CVPixelBufferGetHeight h cv);
     ddr_pixel_format := CVPixelBufferGetPixelFormatType h cv;
     ddr_flags := 0;
     ddr_pts_value := cmt_value (vo_pts output);
     ddr_pts_timescale := cmt_timescale (vo_pts output);
     ddr_duration_timescale := cmt_timescale (vo_duration output);
     ddr_duration_value := cmt_value (vo_duration output);
     ddr_status := wrap 32 (vo_status output);
     ddr_slot_index := 0 |}.

Definition vt_dequeue_decoded_frame (req_payload : list byte) : arm (world host) :=
  payload ← payload_or DequeueDecodedFramePayload STATUS_INTERNAL_FAILURE req_payload;
  let id := ddp_session_id payload in
  b ← self;
  session ← some_or_stop STATUS_INVALID_HANDLE (vr_decode_sessions b !! id);
  let chunked_output := vd_chunked_output session in
  let q := vr_decoded_output_state b in
  let '(output_id, queues) := pop_front id (dq_session_queues q) in
  _ ← modify_self (set_decoded_output_state (set_decoded_queues queues q));
  match output_id with
  | None =>
      b ← self;
      let '(error, q) := take_decode_error id (vr_decoded_output_state b) in
      _ ← modify_self (set_decoded_output_state q);
      match error with
      | Some vt_status => copy_out (bytes_of (decode_error_reply id vt_status))
      | None => stop STATUS_TIMEOUT
      end
  | Some output_id =>
      output ← some_or_stop STATUS_TIMEOUT (dq_queued q !! output_id);
      m ← get_machine;
      copy_out (bytes_of (decoded_frame_reply (mc_host m) id output_id chunked_output output))
  end.

Definition vt_release_decoded_frame (req_payload : list byte) : arm (world host) :=
  payload ← payload_or ReleaseDecodedFramePayload STATUS_INTERNAL_FAILURE req_payload;
  b ← self;
  let q := vr_decoded_output_state b in
  let removed := dq_queued q !! rdp_output_id payload in
  _ ← modify_self (set_decoded_output_state
        (mk_DecodedOutputQueue (delete (rdp_output_id payload) (dq_queued q))
           (dq_session_queues q) (dq_next_output_id q) (dq_decode_errors q)));
  _ ← (if bool_decide (removed = None) then set_status STATUS_INVALID_HANDLE else mret tt);
  ok 0.

Definition LOCK_FLAGS_READ_ONLY : Z := 1.

Definition vt_read_decoded_frame (req_payload : list byte) : arm (world host) :=
  payload ← payload_or ReadDecodedFramePayload STATUS_INTERNAL_FAILURE req_payload;
  b ← self;
  session ← some_or_stop STATUS_INVALID_HANDLE
              (vr_decode_sessions b !! rfp_session_id payload);
  _ ← stop_if STATUS_INVALID_STATE (vd_chunked_output session);
  output ← some_or_stop STATUS_INVALID_HANDLE
             (dq_queued (vr_decoded_output_state b) !! rfp_output_id payload);
  let cv := vo_image_buffer output in
  m ← get_machine;
  let width := wrap 32 (CVPixelBufferGetWidth (mc_host m) cv) in
  let height := wrap 32 (CVPixelBufferGetHeight (mc_host m) cv) in
  let pixel_format := CVPixelBufferGetPixelFormatType (mc_host m) cv in
  layout ← lift (vtf_fill_buffer_layout width height pixel_format);
  let sample_size := bl_total_size layout in
  _ ← stop_if STATUS_RESOURCE_EXHAUSTED
        (sample_size >? VTF_TRANSPORT_MAX_DECODED_FRAME_BYTES);
  let header_size := size_of ReadDecodedFrameReply in
  let reply_size := Z.of_nat header_size + sample_size in
  n ← buf_len;
  _ ← stop_if STATUS_INTERNAL_FAILURE (n <? reply_size);
  lock_status ← call (host_call (CVPixelBufferLockBaseAddress cv LOCK_FLAGS_READ_ONLY));
  _ ← stop_if STATUS_INTERNAL_FAILURE (negb (lock_status =? 0));
  res_payload ← get_response;
  m ← get_machine;
  '(copied, dest) ← lift (vtf_copy_pixel_buffer_to_bytes m cv (drop header_size res_payload)
                            width height pixel_format);
  _ ← write_response header_size dest;
  _ ← call (host_call (CVPixelBufferUnlockBaseAddress cv LOCK_FLAGS_READ_ONLY));
  _ ← stop_if STATUS_INTERNAL_FAILURE (negb copied);
  _ ← write_response 0 (bytes_of
        {| rfr_output_id := rfp_output_id payload;
           rfr_sample_size := wrap 32 sample_size;
           rfr_status := wrap 32 (vo_status output) |});
  ok reply_size.

(** The sub-slices of [parameter_set_data] given by the size table; indexing
    panics out of range. *)
Fixpoint slice_parameter_sets (sizes : list Z) (offset : Z) (data : list byte)
    : rust (list (list byte)) :=
  match sizes with
  | [] => Val []
  | size :: sizes =>
      stop ← arith 64 (offset + size);
      if stop >? len data then Panic
      else
        rest ← slice_parameter_sets sizes stop data;
        Val (slice (Z.to_nat offset) (Z.to_nat size) data :: rest)
  end.

Definition set_decode_session (id : Z) (s : VtRealDecodeSession) (b : VtRealBackend)
    : VtRealBackend :=
  set_decode_sessions (<[id := s]> (vr_decode_sessions b)) b.

(** Validation of the declared sizes: the status of the first failing check. *)
Definition decode_format_check (payload : SetDecodeFormatPayload) (b : VtRealBackend)
    : option Z :=
  let count := sdf_parameter_set_count payload in
  if count >? VTF_TRANSPORT_MAX_PARAMETER_SETS then Some STATUS_BOUNDS_VIOLATION
  else if sum_Z id (take (Z.to_nat count) (sdf_parameter_set_sizes payload))
          >? VTF_TRANSPORT_MAX_PARAMETER_SET_BYTES then Some STATUS_BOUNDS_VIOLATION
  else if count =? 0 then Some STATUS_BOUNDS_VIOLATION
  else if bool_decide (vr_decode_sessions b !! sdf_session_id payload = None)
  then Some STATUS_INVALID_HANDLE
  else None.

(** Replace the session's VideoToolbox object: the old one is dropped first,
    the callback context is kept if there is one. *)
Definition recreate_decoder (id format_description : Z) (session : VtRealDecodeSession)
    : MW VtRealDecodeSession :=
  let context :=
    match vd_callback_context session with
    | Some context => context
    | None => mk_DecodeSessionCallbackContext id
    end in
  let session :=
    mk_VtRealDecodeSession (vd_id session) (vd_codec session) (vd_width session)
      (vd_height session) (vd_format_description session) None (Some context)
      (vd_chunked_output session) in
  _ ← modify_self (set_decode_session id session);
  vt_result ← call (host_call (decompression_new_with_callback format_description context));
  vt_session ← some_or_stop STATUS_UNSUPPORTED_CODEC_OR_FORMAT vt_result;
  mret (mk_VtRealDecodeSession (vd_id session) (vd_codec session) (vd_width session)
          (vd_height session) (vd_format_description session) (Some vt_session) (Some context)
          (vd_chunked_output session)).

Definition vt_set_decode_format (req_payload : list byte) : arm (world host) :=
  payload ← payload_or SetDecodeFormatPayload STATUS_INTERNAL_FAILURE req_payload;
  let id := sdf_session_id payload in
  b ← self;
  _ ← (match decode_format_check payload b with
       | Some status => stop status
       | None => mret tt
       end);
  parameter_sets ← lift (slice_parameter_sets
                           (take (Z.to_nat (sdf_parameter_set_count payload))
                              (sdf_parameter_set_sizes payload)) 0
                           (sdf_parameter_set_data payload));
  let nal_header_length := as_signed 32 (sdf_nal_header_length payload) in
  format_description_result ←
    (if sdf_codec payload =? FOURCC_AVC1 then
       call (host_call (from_h264_parameter_sets parameter_sets nal_header_length))
     else if sdf_codec payload =? FOURCC_HVC1 then
       call (host_call (from_hevc_parameter_sets parameter_sets nal_header_length))
     else stop STATUS_UNSUPPORTED_CODEC_OR_FORMAT);
  format_description ← some_or_stop STATUS_UNSUPPORTED_CODEC_OR_FORMAT
                         format_description_result;
  b ← self;
  session ← index (vr_decode_sessions b !! id);
  needs_new_vt ←
    (match vd_vt_session session with
     | None => mret true
     | Some existing =>
         accepts ← call (host_call (can_accept_format_description existing format_description));
         mret (negb accepts)
     end);
  session ← (if (needs_new_vt : bool) then recreate_decoder id format_description session
             else mret session);
  _ ← modify_self (set_decode_session id
        (mk_VtRealDecodeSession (vd_id session) (vd_codec session) (vd_width session)
           (vd_height session) (Some format_description) (vd_vt_session session)
           (vd_callback_context session) (vd_chunked_output session)));
  ok 0.

Definition vt_bind_decode_output_pool (req_payload : list byte) : arm (world host) :=
  payload ← payload_or BindDecodeOutputPoolPayload STATUS_INTERNAL_FAILURE req_payload;
  let id := bop_session_id payload in
  _ ← stop_if STATUS_BOUNDS_VIOLATION (negb (bop_pool_id payload =? 0));
  b ← self;
  session ← some_or_stop STATUS_INVALID_HANDLE (vr_decode_sessions b !! id);
  _ ← stop_if STATUS_INVALID_STATE (vd_chunked_output session);
  _ ← modify_self (set_decode_session id
        (mk_VtRealDecodeSession (vd_id session) (vd_codec session) (vd_width session)
           (vd_height session) (vd_format_description session) (vd_vt_session session)
           (vd_callback_context session) true));
  ok 0.

Definition vt_read_decoded_frame_chunk (req_payload : list byte) : arm (world host) :=
  payload ← payload_or ReadDecodedFrameChunkPayload STATUS_INTERNAL_FAILURE req_payload;
  b ← self;
  session ← some_or_stop STATUS_INVALID_HANDLE
              (vr_decode_sessions b !! rkp_session_id payload);
  _ ← stop_if STATUS_INVALID_STATE (negb (vd_chunked_output session));
  output ← some_or_stop STATUS_INVALID_HANDLE
             (dq_queued (vr_decoded_output_state b) !! rkp_output_id payload);
  let cv := vo_image_buffer output in
  m ← get_machine;
  let width := wrap 32 (CVPixelBufferGetWidth (mc_host m) cv) in
  let height := wrap 32 (CVPixelBufferGetHeight (mc_host m) cv) in
  let pixel_format := CVPixelBufferGetPixelFormatType (mc_host m) cv in
  layout ← lift (vtf_fill_buffer_layout width height pixel_format);
  _ ← stop_if STATUS_BOUNDS_VIOLATION
        (outside (bl_total_size layout) (rkp_offset payload) (rkp_length payload));
  let header_size := size_of ReadDecodedFrameChunkReply in
  let reply_size := Z.of_nat header_size + rkp_length payload in
  n ← buf_len;
  _ ← stop_if STATUS_INTERNAL_FAILURE (n <? reply_size);
  lock_status ← call (host_call (CVPixelBufferLockBaseAddress cv LOCK_FLAGS_READ_ONLY));
  _ ← stop_if STATUS_INTERNAL_FAILURE (negb (lock_status =? 0));
  res_payload ← get_response;
  m ← get_machine;
  '(copied, dest) ← lift (vtf_copy_pixel_buffer_byte_range m cv layout (rkp_offset payload)
                            (rkp_length payload)
                            (slice header_size (Z.to_nat (rkp_length payload)) res_payload));
  _ ← write_response header_size dest;
  _ ← call (host_call (CVPixelBufferUnlockBaseAddress cv LOCK_FLAGS_READ_ONLY));
  _ ← stop_if STATUS_INTERNAL_FAILURE (negb copied);
  _ ← write_response 0 (bytes_of
        {| rkr_output_id := rkp_output_id payload;
           rkr_offset := rkp_offset payload;
           rkr_length := rkp_length payload;
           rkr_status := wrap 32 (vo_status output);
           rkr_reserved := 0 |});
  ok reply_size.

(** ** Dispatch *)

Definition vt_arms (pl : list byte) : list (Z * arm (world host)) :=
  [ (OP_HELLO, vt_hello pl);
    (OP_PING, ok 0);
    (OP_GET_CAPS, vt_get_caps);
    (OP_CREATE_SESSION, vt_create_session pl);
    (OP_SET_PROPERTY, vt_set_property pl);
    (OP_CREATE_BUFFER_POOL, vt_create_buffer_pool pl);
    (OP_ALLOC_BUFFER, vt_alloc_buffer pl);
    (OP_READ_BUFFER, vt_read_buffer pl);
    (OP_WRITE_BUFFER, vt_write_buffer pl);
    (OP_PREPARE_SESSION, vt_prepare_session pl);
    (OP_RECYCLE_BUFFER, vt_recycle_buffer pl);
    (OP_ENCODE_FRAME, vt_encode_frame pl);
    (OP_ENCODE_FRAME_BATCH, vt_encode_frame_batch pl);
    (OP_DEQUEUE_OUTPUT, vt_dequeue_output pl);
    (OP_DEQUEUE_OUTPUT_BATCH, vt_dequeue_output_batch pl);
    (OP_READ_OUTPUT, vt_read_output pl);
    (OP_RELEASE_OUTPUT, vt_release_output pl);
    (OP_RELEASE_OUTPUT_BATCH, vt_release_output_batch pl);
    (OP_DRAIN, vt_drain pl);
    (OP_DESTROY_SESSION, vt_destroy_session pl);
    (OP_DESTROY_BUFFER_POOL, vt_destroy_buffer_pool pl);
    (OP_ENQUEUE_ENCODED_FRAME, vt_enqueue_encoded_frame pl);
    (OP_ENQUEUE_ENCODED_FRAME_CHUNK, vt_enqueue_encoded_frame_chunk pl);
    (OP_DEQUEUE_DECODED_FRAME, vt_dequeue_decoded_frame pl);
    (OP_RELEASE_DECODED_FRAME, vt_release_decoded_frame pl);
    (OP_READ_DECODED_FRAME, vt_read_decoded_frame pl);
    (OP_SET_DECODE_FORMAT, vt_set_decode_format pl);
    (OP_BIND_DECODE_OUTPUT_POOL, vt_bind_decode_output_pool pl);
    (OP_READ_DECODED_FRAME_CHUNK, vt_read_decoded_frame_chunk pl) ].

Definition vt_dispatch (req_header : MessageHeader) (req_payload : list byte)
    : arm (world host) :=
  match_opcode (mh_opcode req_header) (vt_arms req_payload) (stop STATUS_UNSUPPORTED_OPCODE).
End combinators.
