(* ===== verification/VtQueue.v ===== *)
(** * The VideoToolbox backend: the decoded-frame queue

    The abstract contract of the decode output path: per session, a FIFO of
    frames and at most one sticky error.  The decoder's callbacks append frames
    and overwrite the error; OP_DEQUEUE_DECODED_FRAME takes the first frame, then
    the error once, then reports a timeout.  [decoded_fifo] is the end-to-end
    statement: what a guest reads after any history of callbacks, of this and
    other sessions. *)

From S2P Require Import Prelude Wire Protocol Layout Backend Frameworks PoolDirectory.
From S2P Require Import PixelCopy Sim VtReal VtDispatch VtDecode.

Set Default Goal Selector "!".
Open Scope Z_scope.

Lemma mapM_option_app {A B} (f : A -> option B) l l' k k' :
  mapM f l = Some k -> mapM f l' = Some k' -> mapM f (l ++ l') = Some (k ++ k').
Proof.
  intros H1 H2. apply mapM_Some in H1, H2. apply mapM_Some. by apply Forall2_app.
Qed.

(** ** Abstract view *)

Definition session_queue (id : Z) (q : DecodedOutputQueue) : list Z :=
  default [] (dq_session_queues q !! id).

(** The frames waiting for session [id] with their output ids; [None] when the
    guest released one before dequeuing it. *)
Definition session_frames (id : Z) (q : DecodedOutputQueue)
    : option (list (Z * VtRealDecodedOutput)) :=
  mapM (fun oid => (fun o => (oid, o)) <$> dq_queued q !! oid) (session_queue id q).

(** Every id waiting in a queue was handed out before. *)
Definition ids_below (q : DecodedOutputQueue) : Prop :=
  forall id, Forall (fun oid => oid < dq_next_output_id q) (session_queue id q).

(** The frame or error a callback invocation brings, with its session. *)
Definition event_frame (e : vt_event) : option (Z * VtRealDecodedOutput) :=
  match e with
  | DecompressionOutput (Some ctx) status image pts dur =>
      if (image =? 0) || negb (status =? 0) then None
      else Some (dcc_session_id ctx,
                 mk_VtRealDecodedOutput (dcc_session_id ctx) pts dur status image)
  | _ => None
  end.

Definition event_error (e : vt_event) : option (Z * Z) :=
  match e with
  | DecompressionOutput (Some ctx) status image _ _ =>
      if (image =? 0) || negb (status =? 0)
      then Some (dcc_session_id ctx, if negb (status =? 0) then status else -12911)
      else None
  | _ => None
  end.

(** The frames of session [id] among the events, with the ids they get when the
    first one handed out is [next]. *)
Fixpoint emitted (id next : Z) (es : list vt_event) : list (Z * VtRealDecodedOutput) :=
  match es with
  | [] => []
  | e :: es =>
      match event_frame e with
      | Some (sid, o) =>
          (if sid =? id then [(next, o)] else []) ++ emitted id (next + 1) es
      | None => emitted id next es
      end
  end.

(** The last error of session [id], [old] if there is none. *)
Fixpoint last_error (id : Z) (old : option Z) (es : list vt_event) : option Z :=
  match es with
  | [] => old
  | e :: es =>
      last_error id
        (match event_error e with
         | Some (sid, st) => if sid =? id then Some st else old
         | None => old
         end) es
  end.

Section queue.
Context `{!Profile}.

Lemma session_queue_push id sid oid q :
  session_queue id (mk_DecodedOutputQueue (dq_queued q) (push_back sid oid (dq_session_queues q))
                      (dq_next_output_id q) (dq_decode_errors q)) =
  session_queue id q ++ (if sid =? id then [oid] else []).
Proof.
  unfold session_queue, push_back. simpl. destruct (Z.eqb_spec sid id) as [->|Hne].
  - by rewrite lookup_insert_eq.
  - by rewrite lookup_insert_ne, app_nil_r.
Qed.

Lemma enqueue_frames sid o q q' id fs :
  enqueue sid o q = Val q' -> ids_below q -> dq_next_output_id q + 1 < 2 ^ 64 ->
  0 <= dq_next_output_id q -> session_frames id q = Some fs ->
  ids_below q' /\ dq_next_output_id q' = dq_next_output_id q + 1 /\
  dq_decode_errors q' = dq_decode_errors q /\
  session_frames id q' = Some (fs ++ if sid =? id then [(dq_next_output_id q, o)] else []).
Proof.
  unfold enqueue. intros E Hb Hn Hn0 Hfs. rewrite arith_in in E by lia.
  simpl in E. injection E as <-.
  assert (Hq : forall i, session_queue i (mk_DecodedOutputQueue
    (<[dq_next_output_id q := o]> (dq_queued q))
    (push_back sid (dq_next_output_id q) (dq_session_queues q)) (dq_next_output_id q + 1)
    (dq_decode_errors q)) = session_queue i q ++ if sid =? i then [dq_next_output_id q] else [])
    by (intros i; apply session_queue_push).
  split_and!; [|done|done|].
  - intros i. rewrite Hq. apply Forall_app. split.
    + eapply Forall_weaken; [|apply Hb]. simpl. lia.
    + case_if; constructor; [simpl; lia|constructor].
  - unfold session_frames. rewrite Hq. apply mapM_option_app.
    + rewrite <- Hfs. unfold session_frames. specialize (Hb id). simpl.
      induction Hb as [|oid l Hlt _ IH]; [done|]. simpl.
      rewrite lookup_insert_ne by lia. by rewrite IH.
    + case_if; simpl; [|done]. by rewrite lookup_insert_eq.
Qed.

Lemma callback_step e b b' id fs :
  run_event e b = Val b' ->
  let q := vr_decoded_output_state b in
  let q' := vr_decoded_output_state b' in
  ids_below q -> 0 <= dq_next_output_id q -> dq_next_output_id q + 1 < 2 ^ 64 ->
  session_frames id q = Some fs ->
  ids_below q' /\
  session_frames id q' = Some (fs ++ emitted id (dq_next_output_id q) [e]) /\
  dq_next_output_id q' =
    dq_next_output_id q + match event_frame e with Some _ => 1 | None => 0 end /\
  dq_decode_errors q' !! id = last_error id (dq_decode_errors q !! id) [e].
Proof.
  intros E q q' Hb Hn0 Hn Hfs. subst q q'.
  destruct e as [ctx fr st sample|[ctx|] st img pts dur].
  - simpl in E. unfold mbind, rust_bind in E. case_match; [|done]. injection E as <-. simpl.
    rewrite app_nil_r, Z.add_0_r. done.
  - simpl in E. simpl. unfold vtf_vt_decompression_output_callback, mbind, rust_bind in E.
    destruct ((img =? 0) || negb (st =? 0)) eqn:Hbad; simpl.
    + injection E as <-. simpl. unfold record_decode_error.
      assert (((if negb (st =? 0) then st else -12911) =? 0) = false) as ->.
      { destruct (negb (st =? 0)) eqn:Hst; [|done]. by apply negb_true_iff. }
      rewrite app_nil_r, Z.add_0_r. split_and!; [done|done|done|]. simpl.
      destruct (Z.eqb_spec (dcc_session_id ctx) id) as [->|Hne].
      * by rewrite lookup_insert_eq.
      * by rewrite lookup_insert_ne.
    + destruct (enqueue _ _ _) as [q1|] eqn:Eq; [|done]. injection E as <-. simpl.
      eapply enqueue_frames in Eq as (H1 & H2 & H3 & H4); [|done..].
      rewrite app_nil_r, H3. done.
  - simpl in E. injection E as <-. destruct b. simpl in *.
    rewrite app_nil_r, Z.add_0_r. done.
Qed.

(** The queue after any history of callbacks. *)
Lemma callbacks_frames es b b' id fs :
  run_events es b = Val b' ->
  let q := vr_decoded_output_state b in
  let q' := vr_decoded_output_state b' in
  ids_below q -> 0 <= dq_next_output_id q -> dq_next_output_id q + len es < 2 ^ 64 ->
  session_frames id q = Some fs ->
  ids_below q' /\
  session_frames id q' = Some (fs ++ emitted id (dq_next_output_id q) es) /\
  dq_decode_errors q' !! id = last_error id (dq_decode_errors q !! id) es.
Proof.
  revert b fs. induction es as [|e es IH]; intros b fs; simpl.
  { intros [= <-] H1 _ _ H2. by rewrite app_nil_r. }
  unfold mbind, rust_bind. destruct (run_event e b) as [b1|] eqn:E1; [|done].
  intros E Hb Hn0 Hn Hfs.
  destruct (callback_step _ _ _ _ _ E1 Hb Hn0 ltac:(lia) Hfs) as (Hb1 & Hf1 & Hn1 & He1).
  destruct (IH b1 _ E Hb1 ltac:(destruct (event_frame e); lia)
              ltac:(destruct (event_frame e); lia) Hf1) as (H1 & H2 & H3).
  split_and!; [done| |].
  - rewrite H2, Hn1. simpl. rewrite <- (assoc_L (++)). do 2 f_equal.
    destruct (event_frame e) as [[sid o]|]; simpl; [|by rewrite Z.add_0_r].
    by rewrite app_nil_r.
  - by rewrite H3, He1.
Qed.
End queue.

(** ** Dequeuing *)

Section dequeue.
Context {host : Type} `{!Frameworks host} `{!HashOrder} `{!Profile}.
Abbreviation world := (world host).

Definition dequeue (id : Z) (L : nat) (w : world) : rust (Z * list byte * world) :=
  vt_exec OP_DEQUEUE_DECODED_FRAME (bytes_of (mk_DequeueDecodedFramePayload id)) L w.

Fixpoint dequeue_n (n : nat) (id : Z) (L : nat) (w : world)
    : rust (list (Z * list byte) * world) :=
  match n with
  | O => Val ([], w)
  | S n =>
      '(st, body, w) ← dequeue id L w;
      '(rs, w) ← dequeue_n n id L w;
      Val ((st, body) :: rs, w)
  end.

Definition dq_world (w : world) : DecodedOutputQueue := vr_decoded_output_state (w_self w).

(** [w'] differs from [w] only in the decoded queue. *)
Definition only_decoded_queue (w w' : world) : Prop :=
  exists q, w' = on_self (set_decoded_output_state q) w.

#[local] Instance only_decoded_queue_preorder : PreOrder only_decoded_queue.
Proof.
  split.
  - intros w. exists (dq_world w). by destruct w as [[] ? ?].
  - intros w w' w'' (q & ->) (q' & ->). by exists q'.
Qed.

Lemma dequeue_eq id session L w :
  0 <= id < 2 ^ 64 -> vr_decode_sessions (w_self w) !! id = Some session ->
  dequeue id L w =
  match run (let q := dq_world w in
    let '(output_id, queues) := pop_front id (dq_session_queues q) in
    _ ← modify_self (set_decoded_output_state (set_decoded_queues queues q));
    match output_id with
    | None =>
        b ← self;
        let '(error, q) := take_decode_error id (vr_decoded_output_state b) in
        _ ← modify_self (set_decoded_output_state q);
        match error with
        | Some vt_status => copy_out (bytes_of (decode_error_reply id vt_status))
        | None => stop STATUS_TIMEOUT
        end
    | Some output_id =>
        output ← some_or_stop STATUS_TIMEOUT (dq_queued q !! output_id);
        m ← get_machine;
        copy_out (bytes_of (decoded_frame_reply (mc_host m) id output_id
                              (vd_chunked_output session) output))
    end : arm world) (IO w ok_header (replicate L Byte.x00)) with
  | Val (Some n, s) =>
      Val (mh_status (io_header s), take (Z.to_nat n) (io_buf s), io_self s)
  | Val (None, s) => Val (mh_status (io_header s), [], io_self s)
  | Panic => Panic
  end.
Proof.
  intros Hid Hs. unfold dequeue, vt_exec. f_equal.
  change (run (vt_dispatch _ ?pl) ?s) with (run (vt_dequeue_decoded_frame pl) s).
  unfold vt_dequeue_decoded_frame, payload_or.
  rewrite (run_some _ _ _ (mk_DequeueDecodedFramePayload id)).
  2: { rewrite <- (app_nil_r (bytes_of _)). apply read_pod_bytes_of.
       by apply (uint_ok_spec 8). }
  rewrite run_self. simpl io_self. simpl ddp_session_id.
  rewrite (run_some _ _ _ session) by done. done.
Qed.

Lemma copy_out_full (bs : list byte) L (w : world) :
  (length bs <= L)%nat ->
  match run (copy_out bs) (IO w ok_header (replicate L Byte.x00)) with
  | Val (Some n, s) =>
      Val (mh_status (io_header s), take (Z.to_nat n) (io_buf s), io_self s)
  | Val (None, s) => Val (mh_status (io_header s), [], io_self s)
  | Panic => Panic
  end = Val (STATUS_OK, bs, w).
Proof.
  intros Hl. unfold run, copy_out. simpl. rewrite length_replicate.
  replace (Z.of_nat L <? len bs) with false by lia. simpl.
  by rewrite Nat2Z.id, take_write_at_0.
Qed.

Lemma length_decoded_reply (r : DequeueDecodedFrameReply) :
  length (bytes_of r) = size_of DequeueDecodedFrameReply.
Proof. reflexivity. Qed.

Lemma session_frames_cons id q oid o fs :
  session_frames id q = Some ((oid, o) :: fs) ->
  exists rest, dq_session_queues q !! id = Some (oid :: rest) /\ dq_queued q !! oid = Some o /\
    mapM (fun oid => (fun o => (oid, o)) <$> dq_queued q !! oid) rest = Some fs.
Proof.
  unfold session_frames, session_queue. intros Hf.
  destruct (dq_session_queues q !! id) as [[|x rest]|]; simpl in Hf; [done| |done].
  exists rest. destruct (dq_queued q !! x) as [y|] eqn:Hx; simpl in Hf; [|done].
  destruct (mapM _ rest) as [k|] eqn:E; simpl in Hf; [|done]. injection Hf as -> -> ->. done.
Qed.

Lemma session_frames_nil id q :
  session_frames id q = Some [] ->
  dq_session_queues q !! id = None \/ dq_session_queues q !! id = Some [].
Proof.
  unfold session_frames, session_queue. destruct (_ !! id) as [[|x l]|]; [by right| |by left].
  intros Hf. simpl in Hf. destruct (dq_queued q !! x); simpl in Hf; [|done].
  by destruct (mapM _ l).
Qed.

Lemma dequeue_frame id session oid o fs L w :
  0 <= id < 2 ^ 64 -> vr_decode_sessions (w_self w) !! id = Some session ->
  (size_of DequeueDecodedFrameReply <= L)%nat ->
  session_frames id (dq_world w) = Some ((oid, o) :: fs) ->
  exists w', dequeue id L w = Val (STATUS_OK,
      bytes_of (decoded_frame_reply (mc_host (w_machine w)) id oid (vd_chunked_output session) o),
      w') /\
    only_decoded_queue w w' /\ session_frames id (dq_world w') = Some fs /\
    dq_decode_errors (dq_world w') = dq_decode_errors (dq_world w).
Proof.
  intros Hid Hs HL Hf. rewrite (dequeue_eq id session) by done.
  apply session_frames_cons in Hf as (rest & Hq & Ho & Hrest).
  unfold pop_front. cbv zeta. rewrite Hq. rewrite run_modify_self. simpl io_self.
  rewrite (run_some _ _ _ o) by done.
  eexists. split; [|split_and!].
  - change (run (get_machine ≫= ?f) ?s) with (run (f (w_machine (io_self s))) s). cbv beta.
    apply copy_out_full. by rewrite length_decoded_reply.
  - by eexists.
  - unfold session_frames, session_queue. simpl. by rewrite lookup_insert_eq.
  - done.
Qed.

Lemma dequeue_empty id session L w :
  0 <= id < 2 ^ 64 -> vr_decode_sessions (w_self w) !! id = Some session ->
  (size_of DequeueDecodedFrameReply <= L)%nat ->
  session_frames id (dq_world w) = Some [] ->
  exists w', dequeue id L w = Val
      (match dq_decode_errors (dq_world w) !! id with
       | Some e => (STATUS_OK, bytes_of (decode_error_reply id e))
       | None => (STATUS_TIMEOUT, [])
       end, w') /\
    only_decoded_queue w w' /\ session_frames id (dq_world w') = Some [] /\
    dq_decode_errors (dq_world w') !! id = None.
Proof.
  intros Hid Hs HL Hf. rewrite (dequeue_eq id session) by done.
  assert (Hpop : pop_front id (dq_session_queues (dq_world w)) =
                 (None, dq_session_queues (dq_world w))).
  { unfold pop_front. by destruct (session_frames_nil _ _ Hf) as [-> | ->]. }
  cbv zeta. rewrite Hpop, run_modify_self. simpl io_self. rewrite run_self. simpl io_self.
  unfold take_decode_error. simpl vr_decoded_output_state. simpl dq_decode_errors.
  rewrite run_modify_self. simpl io_self.
  assert (Hw : forall q, only_decoded_queue w
    (on_self (set_decoded_output_state q) (on_self (set_decoded_output_state
       (set_decoded_queues (dq_session_queues (dq_world w)) (dq_world w))) w)))
    by (intros q; by exists q).
  destruct (dq_decode_errors (dq_world w) !! id) as [e|].
  - eexists. split; [|split_and!].
    + apply copy_out_full. by rewrite length_decoded_reply.
    + apply Hw.
    + exact Hf.
    + simpl. by rewrite lookup_delete_eq.
  - eexists. split; [reflexivity|split_and!].
    + apply Hw.
    + exact Hf.
    + simpl. by rewrite lookup_delete_eq.
Qed.

(** What [n] dequeues of a session answer: its frames in order, then its sticky
    error if there is one, then timeouts. *)
Definition replies (h : host) (id : Z) (chunked : bool) (fs : list (Z * VtRealDecodedOutput))
    (error : option Z) : list (Z * list byte) :=
  ((fun '(oid, o) => (STATUS_OK, bytes_of (decoded_frame_reply h id oid chunked o))) <$> fs)
  ++ match error with
     | Some e => [(STATUS_OK, bytes_of (decode_error_reply id e)); (STATUS_TIMEOUT, [])]
     | None => [(STATUS_TIMEOUT, []); (STATUS_TIMEOUT, [])]
     end.

Lemma dequeue_n_replies id session fs L w :
  0 <= id < 2 ^ 64 -> vr_decode_sessions (w_self w) !! id = Some session ->
  (size_of DequeueDecodedFrameReply <= L)%nat ->
  session_frames id (dq_world w) = Some fs ->
  exists w', dequeue_n (length fs + 2) id L w =
    Val (replies (mc_host (w_machine w)) id (vd_chunked_output session) fs
           (dq_decode_errors (dq_world w) !! id), w') /\ only_decoded_queue w w'.
Proof.
  intros Hid Hs HL. revert w Hs. induction fs as [|[oid o] fs IH]; intros w Hs Hf.
  - destruct (dequeue_empty id session L w Hid Hs HL Hf) as (w1 & E1 & Hw1 & Hf1 & He1).
    assert (Hs1 : vr_decode_sessions (w_self w1) !! id = Some session)
      by by destruct Hw1 as (q & ->).
    destruct (dequeue_empty id session L w1 Hid Hs1 HL Hf1) as (w2 & E2 & Hw2 & _ & _).
    rewrite He1 in E2. exists w2. split; [|by etrans]. simpl.
    unfold mbind, rust_bind. rewrite E1. destruct (dq_decode_errors _ !! id); by rewrite E2.
  - destruct (dequeue_frame id session oid o fs L w Hid Hs HL Hf)
      as (w1 & E1 & Hw1 & Hf1 & He1).
    assert (Hs1 : vr_decode_sessions (w_self w1) !! id = Some session)
      by by destruct Hw1 as (q & ->).
    destruct (IH w1 Hs1 Hf1) as (w2 & E2 & Hw2). exists w2. split; [|by etrans].
    simpl. unfold mbind, rust_bind. rewrite E1, E2, He1.
    by destruct Hw1 as (q & ->).
Qed.
End dequeue.

(** C22: decoded frames come out in the order the decoder produced them, and a
    decode failure is reported exactly once, after the frames that preceded it.
    From a state where session [id] has no frame waiting and no error recorded,
    after any list of callback invocations (of any sessions, in any order),
    dequeuing [id] answers its frames in production order, each with its own
    image geometry and timing, then (if a callback reported an error) one error
    sentinel carrying the most recent VideoToolbox status, then timeouts. *)
Theorem decoded_fifo {host} `{!Frameworks host} `{!HashOrder} `{!Profile} es id session L
    (w : world host) b' :
  0 <= id < 2 ^ 64 -> vr_decode_sessions (w_self w) !! id = Some session ->
  (size_of DequeueDecodedFrameReply <= L)%nat ->
  ids_below (dq_world w) -> session_queue id (dq_world w) = [] ->
  dq_decode_errors (dq_world w) !! id = None ->
  0 <= dq_next_output_id (dq_world w) -> dq_next_output_id (dq_world w) + len es < 2 ^ 64 ->
  run_events es (w_self w) = Val b' ->
  let fs := emitted id (dq_next_output_id (dq_world w)) es in
  exists w', dequeue_n (length fs + 2) id L (on_self (fun _ => b') w) =
    Val (replies (mc_host (w_machine w)) id (vd_chunked_output session) fs
           (last_error id None es), w').
Proof.
  intros Hid Hs HL Hb Hq He Hn0 Hn E fs.
  assert (Hf : session_frames id (dq_world w) = Some [])
    by (unfold session_frames; by rewrite Hq).
  destruct (callbacks_frames _ _ _ _ _ E Hb Hn0 Hn Hf) as (_ & Hfs & Herr).
  assert (Hs' : vr_decode_sessions b' !! id = Some session).
  { apply run_events_frame in E as (q & q' & ->). done. }
  destruct (dequeue_n_replies id session fs L (on_self (fun _ => b') w) Hid Hs' HL Hfs)
    as (w' & E' & _).
  exists w'. rewrite E'. unfold dq_world in *. simpl. by rewrite Herr, He.
Qed.

#[local] Existing Instance key_order.

Definition demo_events : list vt_event :=
  let frame sid image :=
    DecompressionOutput (Some (mk_DecodeSessionCallbackContext sid)) 0 image sim_time sim_time in
  let error sid st :=
    DecompressionOutput (Some (mk_DecodeSessionCallbackContext sid)) st 0 sim_time sim_time in
  [frame 10000 11; error 10000 (-12909); frame 777 12; frame 10000 13].

(** Two frames (ids 70000 and 70002), then the error, then a timeout. *)
Lemma decoded_fifo_witness :
  exists b', run_events (H0:=debug_build) demo_events (w_self demo_world) = Val b' /\
  exists w', dequeue_n (H0:=debug_build) 4 10000 200 (on_self (fun _ => b') demo_world) =
    Val (replies (mc_host demo_machine) 10000 true
           (emitted 10000 70000 demo_events) (Some (-12909)), w') /\
  (fst <$> emitted 10000 70000 demo_events) = [70000; 70002].
Proof.
  eexists. split; [vm_compute; reflexivity|].
  edestruct (decoded_fifo (H0:=debug_build) demo_events 10000 demo_session 200 demo_world)
    as (w' & E);
    [lia|reflexivity|vm_compute; lia|intros i; constructor|reflexivity|reflexivity| | | |].
  - vm_compute. discriminate.
  - vm_compute. reflexivity.
  - vm_compute. reflexivity.
  - exists w'. split; [exact E|reflexivity].
Defined.
