(* ===== verification/VtRead.v ===== *)
(** * The VideoToolbox backend: reading decoded pixels in chunks

    OP_READ_DECODED_FRAME_CHUNK returns a byte range of a decoded frame.  The
    theorem of this file is the contract the guest's read loop relies on:
    consecutive ranges that cover the frame concatenate to the flattened frame,
    and the frame stays queued until it is released. *)

From S2P Require Import Prelude Wire Protocol Layout Backend Frameworks PoolDirectory.
From S2P Require Import PixelCopy Sim VtReal VtDispatch VtDecode VtQueue.

Set Default Goal Selector "!".
Open Scope Z_scope.

(** Locking a pixel buffer succeeds and does not change what it contains. *)
Definition lock_transparent {host} `{!Frameworks host} (cv : Z) : Prop :=
  forall flags m, CVPixelBufferLockBaseAddress cv flags m = (0, m) /\
    snd (CVPixelBufferUnlockBaseAddress cv flags m) = m.

Section read.
Context {host : Type} `{!Frameworks host} `{!HashOrder} `{!Profile}.
Abbreviation world := (world host).

Definition read_chunk (p : ReadDecodedFrameChunkPayload) (L : nat) (w : world)
    : rust (Z * list byte * world) :=
  vt_exec OP_READ_DECODED_FRAME_CHUNK (bytes_of p) L w.

Definition chunk_reply (p : ReadDecodedFrameChunkPayload) (o : VtRealDecodedOutput)
    : ReadDecodedFrameChunkReply :=
  {| rkr_output_id := rkp_output_id p; rkr_offset := rkp_offset p; rkr_length := rkp_length p;
     rkr_status := wrap 32 (vo_status o); rkr_reserved := 0 |}.

(** The frame [o] as the flat bytes of the wire's layout. *)
Definition flat_frame (m : machine host) (o : VtRealDecodedOutput) (layout : BufferLayoutReply)
    (full : list byte) : Prop :=
  let cv := vo_image_buffer o in
  let width := wrap 32 (CVPixelBufferGetWidth (mc_host m) cv) in
  let height := wrap 32 (CVPixelBufferGetHeight (mc_host m) cv) in
  let pf := CVPixelBufferGetPixelFormatType (mc_host m) cv in
  layout_fits width height pf /\ vtf_fill_buffer_layout width height pf = Val layout /\
  vtf_copy_pixel_buffer_to_bytes m cv
    (replicate (Z.to_nat (bl_total_size layout)) Byte.x00) width height pf = Val (true, full).

Lemma run_skip (f : unit -> arm world) s : run (mret tt ≫= f) s = run (f tt) s.
Proof. reflexivity. Qed.

Lemma run_lift {A} (c : rust A) a (f : A -> arm world) s :
  c = Val a -> run (lift c ≫= f) s = run (f a) s.
Proof. by intros ->. Qed.

Lemma run_machine (f : machine host -> arm world) s :
  run (get_machine ≫= f) s = run (f (w_machine (io_self s))) s.
Proof. reflexivity. Qed.

Lemma run_buf_len (f : Z -> arm world) s : run (buf_len ≫= f) s = run (f (len (io_buf s))) s.
Proof. reflexivity. Qed.

Lemma run_response (f : list byte -> arm world) s :
  run (get_response ≫= f) s = run (f (io_buf s)) s.
Proof. reflexivity. Qed.

Lemma run_write off bs (f : unit -> arm world) s :
  (off + length bs <= length (io_buf s))%nat ->
  run (write_response off bs ≫= f) s =
  run (f tt) (IO (io_self s) (io_header s) (write_at off bs (io_buf s))).
Proof.
  intros Hl. unfold run, write_response, mbind, M_bind.
  by replace (_ <? _) with false by lia.
Qed.

Lemma length_chunk_reply (r : ReadDecodedFrameChunkReply) :
  length (bytes_of r) = size_of ReadDecodedFrameChunkReply.
Proof. reflexivity. Qed.

Lemma read_pod_exact {T} `{!Pod T} (p : T) :
  pod_ok p = true -> read_pod T (bytes_of p) = Some p.
Proof. intros Hp. rewrite <- (app_nil_r (bytes_of p)). by apply read_pod_bytes_of. Qed.

Lemma read_chunk_slice p session o layout full L w :
  pod_ok p = true ->
  vr_decode_sessions (w_self w) !! rkp_session_id p = Some session ->
  vd_chunked_output session = true ->
  dq_queued (dq_world w) !! rkp_output_id p = Some o ->
  lock_transparent (vo_image_buffer o) -> strides_ok (mc_host (w_machine w)) (vo_image_buffer o) ->
  flat_frame (w_machine w) o layout full ->
  rkp_offset p + rkp_length p <= bl_total_size layout ->
  Z.of_nat (size_of ReadDecodedFrameChunkReply) + rkp_length p <= Z.of_nat L ->
  read_chunk p L w =
  Val (STATUS_OK,
       bytes_of (chunk_reply p o)
         ++ slice (Z.to_nat (rkp_offset p)) (Z.to_nat (rkp_length p)) full, w).
Proof.
  intros Hp Hs Hch Ho Hlock Hst (Hfits & Hlay & Hcopy) Hle HL.
  rewrite vtf_fill_buffer_layout_spec in Hlay by done. injection Hlay as <-.
  set (wd := wrap 32 (CVPixelBufferGetWidth _ _)) in *.
  set (ht := wrap 32 (CVPixelBufferGetHeight _ _)) in *.
  set (pf := CVPixelBufferGetPixelFormatType _ _) in *.
  assert (Htot : bl_total_size (layout_spec wd ht pf) = total_spec wd ht pf)
    by (unfold layout_spec; by case_if).
  rewrite Htot in *.
  assert (Hr : 0 <= rkp_offset p /\ 0 <= rkp_length p).
  { pose proof Hp as Hp'. pod_fields Hp'.
    pose proof (proj1 (uint_ok_spec 4 (rkp_offset p)) ltac:(assumption)).
    pose proof (proj1 (uint_ok_spec 4 (rkp_length p)) ltac:(assumption)). lia. }
  assert (Hfl : len full = total_spec wd ht pf).
  { erewrite to_bytes_length; [|exact Hst|exact Hfits| |exact Hcopy];
      rewrite length_replicate; lia. }
  set (hs := size_of ReadDecodedFrameChunkReply) in *.
  set (sl := slice (Z.to_nat (rkp_offset p)) (Z.to_nat (rkp_length p)) full).
  assert (Hsl : length sl = Z.to_nat (rkp_length p)) by (apply length_slice; lia).
  unfold read_chunk, vt_exec.
  change (run (vt_dispatch _ ?pl) ?s) with (run (vt_read_decoded_frame_chunk pl) s).
  unfold vt_read_decoded_frame_chunk, payload_or.
  rewrite (run_some _ _ _ p) by by apply read_pod_exact.
  rewrite run_self. simpl io_self. rewrite (run_some _ _ _ session) by done.
  rewrite Hch. simpl negb. unfold stop_if. rewrite run_skip.
  rewrite (run_some _ _ _ o) by done. cbv zeta. rewrite run_machine. simpl io_self.
  erewrite run_lift by (by apply vtf_fill_buffer_layout_spec). unfold outside.
  fold wd ht pf. rewrite Htot.
  replace (_ || _) with false by lia. rewrite run_skip, run_buf_len. simpl io_buf.
  rewrite length_replicate. replace (Z.of_nat L <? _) with false by lia.
  rewrite run_skip, run_call. unfold host_call at 1. simpl io_self.
  destruct (Hlock LOCK_FLAGS_READ_ONLY (w_machine w)) as [-> Hun].
  change (negb (0 =? 0)) with false. cbv iota. rewrite run_skip, run_response, run_machine.
  simpl io_self. simpl io_buf. simpl w_machine. fold hs.
  erewrite run_lift.
  2: { eapply (byte_range_slice _ _ wd ht pf); try done; [lia|lia|].
       rewrite length_slice; [lia|]. rewrite length_replicate. lia. }
  fold sl. cbv beta iota. rewrite run_write; simpl io_buf; [|rewrite length_replicate; lia].
  rewrite run_call. unfold host_call. simpl io_self. simpl w_machine.
  destruct (CVPixelBufferUnlockBaseAddress _ _ _) as [ust m'] eqn:Eun. simpl in Hun. subst m'.
  simpl negb. cbv iota. rewrite run_skip. simpl io_buf. simpl io_header.
  rewrite run_write; simpl io_buf;
    [|rewrite length_chunk_reply, length_write_at; rewrite length_replicate; fold hs; lia].
  unfold run, ok. simpl io_header. simpl io_buf. simpl io_self.
  do 2 f_equal; [f_equal|by destruct w].
  fold (chunk_reply p o).
  replace (Z.to_nat _) with (length (bytes_of (chunk_reply p o)) + length sl)%nat
    by (rewrite length_chunk_reply; fold hs; lia).
  replace hs with (length (bytes_of (chunk_reply p o))) by apply length_chunk_reply.
  apply take_header_body. rewrite length_chunk_reply, length_replicate. fold hs. lia.
Qed.

(** The guest's loop: read [ns] consecutive ranges from [off], keep the pixels. *)
Fixpoint read_chunks (id oid off : Z) (ns : list Z) (L : nat) (w : world)
    : rust (list (list byte) * world) :=
  match ns with
  | [] => Val ([], w)
  | n :: ns =>
      '(_, body, w) ← read_chunk (mk_ReadDecodedFrameChunkPayload id oid off n) L w;
      '(rest, w) ← read_chunks id oid (off + n) ns L w;
      Val (drop (size_of ReadDecodedFrameChunkReply) body :: rest, w)
  end.

Lemma read_chunks_slice id oid off ns session o layout full L w :
  0 <= id < 2 ^ 64 -> 0 <= oid < 2 ^ 64 -> 0 <= off ->
  Forall (fun n => 0 <= n /\ Z.of_nat (size_of ReadDecodedFrameChunkReply) + n <= Z.of_nat L) ns ->
  vr_decode_sessions (w_self w) !! id = Some session -> vd_chunked_output session = true ->
  dq_queued (dq_world w) !! oid = Some o ->
  lock_transparent (vo_image_buffer o) -> strides_ok (mc_host (w_machine w)) (vo_image_buffer o) ->
  flat_frame (w_machine w) o layout full -> bl_total_size layout < 2 ^ 32 ->
  off + sum_Z (fun n => n) ns <= bl_total_size layout ->
  exists ds, read_chunks id oid off ns L w = Val (ds, w) /\
    concat ds = slice (Z.to_nat off) (Z.to_nat (sum_Z (fun n => n) ns)) full.
Proof.
  intros Hid Hoid Hoff Hns Hs Hch Ho Hl Hst Hf Ht. revert off Hoff.
  induction Hns as [|n ns [Hn HL] Hns IH]; intros off Hoff Hle.
  { exists []. split; [done|]. unfold slice. done. }
  assert (Hnn : 0 <= sum_Z (fun n => n) ns)
    by (apply sum_Z_nonneg; intros x Hx; rewrite list.Forall_forall in Hns; by apply Hns).
  change (sum_Z (fun n => n) (n :: ns)) with (n + sum_Z (fun n => n) ns) in *.
  destruct (IH (off + n) ltac:(lia) ltac:(lia)) as (ds & E & Hds).
  assert (Hp : pod_ok (mk_ReadDecodedFrameChunkPayload id oid off n) = true)
    by (pod_ok_split; apply uint_ok_spec; simpl; lia).
  assert (Er := read_chunk_slice _ session o layout full L w Hp Hs Hch Ho Hl Hst Hf
                  ltac:(simpl; lia) HL).
  simpl read_chunks. rewrite Er. unfold mbind, rust_bind. rewrite E. eexists. split; [done|].
  rewrite drop_app_length' by (by rewrite length_chunk_reply). simpl concat. rewrite Hds.
  rewrite !Z2Nat.inj_add by lia. apply slice_app_split.
Qed.
End read.

(** C26: reading a decoded frame in chunks reassembles it. For a session in
    chunked mode and a frame that is queued, dequeued or not (the handler does
    not ask whether it was, although the protocol's documentation does), whose
    layout fits 32 bits, whose image has row strides below 2^31 and can be
    locked and unlocked without changing the host or its memory
    ([lock_transparent]), and which can be flattened: reading any consecutive
    ranges that together cover the frame (each small enough for the response
    buffer) succeeds, leaves the backend unchanged, and the pixel bytes of the
    replies concatenate to the flattened frame. *)
Theorem chunked_read_reassembles {host} `{!Frameworks host} `{!HashOrder} `{!Profile}
    id oid ns session o layout full L (w : world host) :
  0 <= id < 2 ^ 64 -> 0 <= oid < 2 ^ 64 ->
  Forall (fun n => 0 <= n /\ Z.of_nat (size_of ReadDecodedFrameChunkReply) + n <= Z.of_nat L) ns ->
  vr_decode_sessions (w_self w) !! id = Some session -> vd_chunked_output session = true ->
  dq_queued (dq_world w) !! oid = Some o ->
  lock_transparent (vo_image_buffer o) -> strides_ok (mc_host (w_machine w)) (vo_image_buffer o) ->
  flat_frame (w_machine w) o layout full -> sum_Z (fun n => n) ns = bl_total_size layout ->
  exists ds, read_chunks id oid 0 ns L w = Val (ds, w) /\ concat ds = full.
Proof.
  intros Hid Hoid Hns Hs Hch Ho Hl Hst Hf Hsum.
  pose proof Hf as (Hfits & Hlay & Hcopy). rewrite vtf_fill_buffer_layout_spec in Hlay by done.
  injection Hlay as Hlay.
  assert (Htot : bl_total_size layout = total_spec _ _ _)
    by (rewrite <- Hlay; unfold layout_spec; case_if; reflexivity).
  assert (Hnn : 0 <= bl_total_size layout).
  { rewrite <- Hsum. apply sum_Z_nonneg. intros x Hx. rewrite list.Forall_forall in Hns.
    by apply Hns. }
  assert (Hlen : len full = bl_total_size layout).
  { erewrite to_bytes_length; [|exact Hst|exact Hfits| |exact Hcopy];
      rewrite length_replicate; lia. }
  destruct (read_chunks_slice id oid 0 ns session o layout full L w) as (ds & E & Hds); try done.
  { rewrite Htot. apply Hfits. }
  { lia. }
  exists ds. split; [done|]. rewrite Hds, Hsum, <- Hlen, Nat2Z.id. apply slice_full.
Qed.

#[local] Existing Instance key_order.

(** A queued 40x4 NV12 frame, read as 100 + 284 bytes. *)
Definition demo_output : VtRealDecodedOutput :=
  mk_VtRealDecodedOutput 10000 sim_time sim_time 0 4096.

Definition demo_read_world : world sim :=
  on_self (set_decoded_output_state
    (mk_DecodedOutputQueue {[70000 := demo_output]} ∅ 70001 ∅)) demo_world.

Lemma chunked_read_reassembles_witness :
  exists ds full, read_chunks (H0:=debug_build) 10000 70000 0 [100; 284] 400 demo_read_world =
    Val (ds, demo_read_world) /\ concat ds = full /\ len full = 384.
Proof.
  edestruct (chunked_read_reassembles (H0:=debug_build) 10000 70000 [100; 284] demo_session
    demo_output (layout_spec 40 4 FOURCC_420V)
    (replicate 384 Byte.x00) 400 demo_read_world) as (ds & E & Hc); try reflexivity.
  - lia.
  - lia.
  - repeat constructor; vm_compute; congruence.
  - by intros flags m; destruct m.
  - apply sim_strides_ok.
  - split_and!; [|reflexivity|vm_compute; reflexivity]. vm_compute. intuition congruence.
  - exists ds, (replicate 384 Byte.x00). split_and!; [exact E|exact Hc|reflexivity].
Defined.
