(* ===== verification/VtInv.v ===== *)
(** * The VideoToolbox backend: invariants

    A Hoare logic for the handlers that ignores the host (whatever the foreign
    functions answer) and the response buffer, the invariant of one backend and
    the proof that every arm and every callback preserves it, together with the
    claims the backend holds in the shared pool directory, for any set [F] of
    entries held by other connections. *)

From S2P Require Import Prelude Wire Protocol Layout Backend Frameworks PoolDirectory.
From S2P Require Import PixelCopy VtReal VtDispatch VtDecode.

Set Default Goal Selector "!".
Open Scope Z_scope.

(** ** The invariant *)

(** Directory entries held by the pools of a backend. *)
Definition claims (b : VtRealBackend) : list nat :=
  omap (fun kp => vp_iosurface_entry_id kp.2) (map_to_list (vr_pools b)).

(** Every entry this backend or the others ([F]) hold is marked claimed, and no
    entry is held twice. *)
Definition claims_ok (F : list nat) (b : VtRealBackend) (d : IOSurfacePoolDirectory) : Prop :=
  NoDup (claims b ++ F) /\ Forall (entry_claimed d) (claims b ++ F).

Definition buffer_ok (k : Z) (x : VtRealBuffer) : Prop :=
  vb_id x = k /\ vb_state x ∈ [0; 1; 2] /\ is_Some (vb_pixel_buffer x).

Definition session_ok (k : Z) (s : VtRealSession) : Prop :=
  vs_id s = k /\ scc_session_id (vs_callback_context s) = k /\ vs_vt_session s <> 0.

(** A decoder exists only with a format and a callback context of its session. *)
Definition decode_session_ok (k : Z) (s : VtRealDecodeSession) : Prop :=
  vd_id s = k /\
  (forall ctx, vd_callback_context s = Some ctx -> dcc_session_id ctx = k) /\
  (is_Some (vd_vt_session s) ->
   is_Some (vd_format_description s) /\ is_Some (vd_callback_context s)).

Definition pool_ok (k : Z) (p : VtRealPool) : Prop :=
  vp_id p = k /\ is_Some (vp_iosurface_entry_id p).

(** Encoded samples carry their own id and, up to the 32-bit truncation, their
    length; decoded frames have an image and no error. *)
Definition output_ok (k : Z) (o : VtRealOutput) : Prop :=
  dor_output_id (vu_reply o) = k /\
  let '(Inline bs) := vu_storage o in dor_sample_size (vu_reply o) = wrap 32 (len bs).

Definition decoded_ok (k : Z) (o : VtRealDecodedOutput) : Prop :=
  vo_status o = 0 /\ vo_image_buffer o <> 0.

Record backend_ok (b : VtRealBackend) : Prop := {
  ok_sessions : map_Forall session_ok (vr_sessions b);
  ok_decode_sessions : map_Forall decode_session_ok (vr_decode_sessions b);
  ok_buffers : map_Forall buffer_ok (vr_buffers b);
  ok_pools : map_Forall pool_ok (vr_pools b);
  ok_pending : pending_ok b;
  ok_outputs : map_Forall output_ok (oq_queued_outputs (vr_output_state b));
  ok_decoded : map_Forall decoded_ok (dq_queued (vr_decoded_output_state b))
}.

Definition vt_inv (F : list nat) (b : VtRealBackend) (d : IOSurfacePoolDirectory) : Prop :=
  backend_ok b /\ claims_ok F b d.

(** ** A logic over the backend and the directory *)

Section logic.
Context {host : Type} `{!Frameworks host} `{!HashOrder} `{!Profile}.
Variable (I : VtRealBackend -> IOSurfacePoolDirectory -> Prop).
Abbreviation MW := (M (world host)).
Implicit Types (b : VtRealBackend) (d : IOSurfacePoolDirectory).

(** From backend [b] and directory [d], on any host and response buffer, [m]
    continues in [Q] or returns in [I]. *)
Definition wpi {A} (m : MW A) (Q : A -> VtRealBackend -> IOSurfacePoolDirectory -> Prop)
    (b : VtRealBackend) (d : IOSurfacePoolDirectory) : Prop :=
  forall s, w_self (io_self s) = b -> w_dir (io_self s) = d ->
    match m s with
    | Next a s' => Q a (w_self (io_self s')) (w_dir (io_self s'))
    | Return _ s' => I (w_self (io_self s')) (w_dir (io_self s'))
    | Panicked => True
    end.

Lemma wpi_bind {A A'} (m : MW A) (f : A -> MW A') Q b d :
  wpi m (fun a b d => wpi (f a) Q b d) b d -> wpi (m ≫= f) Q b d.
Proof.
  intros Hm s Hb Hd. specialize (Hm s Hb Hd). unfold mbind, M_bind.
  destruct (m s) as [a s'| |]; [|done|done]. by apply Hm.
Qed.

Lemma wpi_mono {A} (m : MW A) (Q Q' : A -> VtRealBackend -> IOSurfacePoolDirectory -> Prop) b d :
  wpi m Q b d -> (forall a b' d', Q a b' d' -> Q' a b' d') -> wpi m Q' b d.
Proof.
  intros Hm HQ s Hb Hd. specialize (Hm s Hb Hd). destruct (m s); try done. by apply HQ.
Qed.

Lemma wpi_ret {A} (a : A) (Q : A -> _ -> _ -> Prop) b d : Q a b d -> wpi (mret a) Q b d.
Proof. by intros HQ s <- <-. Qed.
Lemma wpi_stop {A} st (Q : A -> _ -> _ -> Prop) b d : I b d -> wpi (stop st) Q b d.
Proof. by intros HI s <- <-. Qed.
Lemma wpi_ok {A} n (Q : A -> _ -> _ -> Prop) b d : I b d -> wpi (ok n) Q b d.
Proof. by intros HI s <- <-. Qed.
Lemma wpi_copy_out {A} bs (Q : A -> _ -> _ -> Prop) b d : I b d -> wpi (copy_out bs) Q b d.
Proof. intros HI s <- <-. unfold copy_out. by case_if. Qed.
Lemma wpi_stop_if st (c : bool) (Q : unit -> _ -> _ -> Prop) b d :
  (c = true -> I b d) -> (c = false -> Q tt b d) -> wpi (stop_if st c) Q b d.
Proof. destruct c; intros H1 H2; [apply wpi_stop|apply wpi_ret]; auto. Qed.
Lemma wpi_some_or_stop {A} st (o : option A) (Q : A -> _ -> _ -> Prop) b d :
  I b d -> (forall a, o = Some a -> Q a b d) -> wpi (some_or_stop st o) Q b d.
Proof. destruct o; intros H1 H2; [apply wpi_ret|apply wpi_stop]; auto. Qed.
Lemma wpi_set_status st (Q : unit -> _ -> _ -> Prop) b d : Q tt b d -> wpi (set_status st) Q b d.
Proof. by intros HI s <- <-. Qed.
Lemma wpi_payload T `{!Pod T} st pl (Q : T -> _ -> _ -> Prop) b d :
  I b d -> (forall p, pod_ok p = true -> Q p b d) -> wpi (payload_or T st pl) Q b d.
Proof.
  intros H1 H2. apply wpi_some_or_stop; [done|]. intros p Hp. by eapply H2, read_pod_ok.
Qed.
Lemma wpi_self (Q : _ -> _ -> _ -> Prop) b d : Q b b d -> wpi self Q b d.
Proof. by intros HI s <- <-. Qed.
Lemma wpi_modify_self f (Q : unit -> _ -> _ -> Prop) b d : Q tt (f b) d -> wpi (modify_self f) Q b d.
Proof. by intros HI s <- <-. Qed.
Lemma wpi_get_self (Q : world host -> _ -> _ -> Prop) b d :
  (forall w, w_self w = b -> w_dir w = d -> Q w b d) -> wpi get_self Q b d.
Proof. intros HQ s Hb Hd. simpl. rewrite Hb, Hd. by apply HQ. Qed.
Lemma wpi_modify f (Q : unit -> _ -> _ -> Prop) b d :
  (forall w : world host, w_self w = b -> w_dir w = d -> Q tt (w_self (f w)) (w_dir (f w))) ->
  wpi (modify f) Q b d.
Proof. intros HQ s Hb Hd. simpl. by apply HQ. Qed.
Lemma wpi_machine (Q : machine host -> _ -> _ -> Prop) b d :
  (forall m, Q m b d) -> wpi get_machine Q b d.
Proof. intros HQ s <- <-. apply HQ. Qed.
Lemma wpi_modify_machine f (Q : unit -> _ -> _ -> Prop) b d :
  Q tt b d -> wpi (modify_machine f) Q b d.
Proof. by intros HI s <- <-. Qed.
Lemma wpi_buf_len (Q : Z -> _ -> _ -> Prop) b d : (forall n, Q n b d) -> wpi buf_len Q b d.
Proof. intros HQ s <- <-. apply HQ. Qed.
Lemma wpi_response (Q : list byte -> _ -> _ -> Prop) b d :
  (forall l, Q l b d) -> wpi get_response Q b d.
Proof. intros HQ s <- <-. apply HQ. Qed.
Lemma wpi_write off bs (Q : unit -> _ -> _ -> Prop) b d :
  Q tt b d -> wpi (write_response off bs) Q b d.
Proof. intros HQ s <- <-. unfold write_response. by case_if. Qed.
Lemma wpi_lift {A} (c : rust A) (Q : A -> _ -> _ -> Prop) b d :
  (forall a, c = Val a -> Q a b d) -> wpi (lift c) Q b d.
Proof. intros HQ s <- <-. unfold lift. destruct c; [by apply HQ|done]. Qed.
Lemma wpi_index {A} (o : option A) (Q : A -> _ -> _ -> Prop) b d :
  (forall a, o = Some a -> Q a b d) -> wpi (index o) Q b d.
Proof. intros HQ s <- <-. unfold index. destruct o; [by apply HQ|done]. Qed.

Lemma wpi_call {A} (c : world host -> rust (A * world host)) (Q : A -> _ -> _ -> Prop) b d :
  (forall w a w', w_self w = b -> w_dir w = d -> c w = Val (a, w') ->
     Q a (w_self w') (w_dir w')) -> wpi (call c) Q b d.
Proof.
  intros HQ s Hb Hd. unfold call, mbind, M_bind, get_self, lift.
  destruct (c (io_self s)) as [[a w']|] eqn:E; [|done]. simpl. by eapply HQ.
Qed.

Lemma wpi_host_call {A} (f : ffi host A) (Q : A -> _ -> _ -> Prop) b d :
  (forall a, Q a b d) -> wpi (call (host_call f)) Q b d.
Proof.
  intros HQ. apply wpi_call. intros w a w' <- <-. unfold host_call.
  destruct (f _) as [a' m]. intros [= <- <-]. apply HQ.
Qed.

Lemma wpi_take_host_id (Q : Z -> _ -> _ -> Prop) b d :
  (forall next, Q (vr_next_host_id b) (set_next_host_id next b) d) -> wpi take_host_id Q b d.
Proof.
  intros HQ. unfold take_host_id. apply wpi_bind, wpi_self, wpi_bind, wpi_lift. intros next _.
  apply wpi_bind, wpi_modify_self, wpi_ret. apply HQ.
Qed.

Lemma wpi_match_opcode op arms (df : arm (world host)) (Q : Empty_set -> _ -> _ -> Prop) b d :
  Forall (fun ka => wpi ka.2 Q b d) arms -> wpi df Q b d ->
  wpi (match_opcode op arms df) Q b d.
Proof.
  intros Ha Hd. unfold match_opcode. induction Ha as [|[k a] arms H1 _ IH]; simpl; [done|].
  by destruct (op =? k).
Qed.

Lemma wpi_run (m : arm (world host)) s r s' :
  wpi m (fun _ _ _ => False) (w_self (io_self s)) (w_dir (io_self s)) ->
  run m s = Val (r, s') -> I (w_self (io_self s')) (w_dir (io_self s')).
Proof.
  intros Hm. specialize (Hm s eq_refl eq_refl). unfold run. destruct (m s); [done| |done].
  intros [= <- <-]. done.
Qed.
End logic.

(** One step of a handler proof. *)
Ltac wstep :=
  match goal with
  | |- wpi _ (mbind _ _) _ _ _ => apply wpi_bind
  | |- wpi _ (mret _) _ _ _ => apply wpi_ret
  | |- wpi _ (stop _) _ _ _ => apply wpi_stop
  | |- wpi _ (ok _) _ _ _ => apply wpi_ok
  | |- wpi _ (copy_out _) _ _ _ => apply wpi_copy_out
  | |- wpi _ (stop_if _ _) _ _ _ => apply wpi_stop_if; intros ?
  | |- wpi _ (some_or_stop _ _) _ _ _ => apply wpi_some_or_stop; [|intros ? ?]
  | |- wpi _ (set_status _) _ _ _ => apply wpi_set_status
  | |- wpi _ (payload_or _ _ _) _ _ _ => apply wpi_payload; [|intros ? ?]
  | |- wpi _ self _ _ _ => apply wpi_self
  | |- wpi _ (modify_self _) _ _ _ => apply wpi_modify_self
  | |- wpi _ get_machine _ _ _ => apply wpi_machine; intros ?
  | |- wpi _ (modify_machine _) _ _ _ => apply wpi_modify_machine
  | |- wpi _ buf_len _ _ _ => apply wpi_buf_len; intros ?
  | |- wpi _ get_response _ _ _ => apply wpi_response; intros ?
  | |- wpi _ (write_response _ _) _ _ _ => apply wpi_write
  | |- wpi _ (lift _) _ _ _ => apply wpi_lift; intros ? ?
  | |- wpi _ (index _) _ _ _ => apply wpi_index; intros ? ?
  | |- wpi _ (call (host_call _)) _ _ _ => apply wpi_host_call; intros ?
  | |- wpi _ take_host_id _ _ _ => apply wpi_take_host_id; intros ?
  | |- wpi _ (if ?c then _ else _) _ _ _ => destruct c eqn:?
  | |- wpi _ (let '(_, _) := ?p in _) _ _ _ => destruct p eqn:?
  | |- wpi _ (match ?p with inl _ => _ | inr _ => _ end) _ _ _ => destruct p eqn:?
  | |- wpi _ (match ?p with Some _ => _ | None => _ end) _ _ _ => destruct p eqn:?
  end.

(** ** Field updates *)

Section updates.
Context (F : list nat).
Implicit Types (b : VtRealBackend) (d : IOSurfacePoolDirectory).

Ltac update_field := intros; destruct_and?; match goal with
  | H : vt_inv F _ _ |- _ => destruct H as [[] [Hn Hc]]
  end; split; [constructor; simpl; assumption|split; assumption].

Lemma inv_next n b d : vt_inv F b d -> vt_inv F (set_next_host_id n b) d.
Proof. update_field. Qed.
Lemma inv_sessions v b d :
  map_Forall session_ok v -> vt_inv F b d -> vt_inv F (set_sessions v b) d.
Proof. update_field. Qed.
Lemma inv_decode_sessions v b d :
  map_Forall decode_session_ok v -> vt_inv F b d -> vt_inv F (set_decode_sessions v b) d.
Proof. update_field. Qed.
Lemma inv_buffers v b d :
  map_Forall buffer_ok v -> vt_inv F b d -> vt_inv F (set_buffers v b) d.
Proof. update_field. Qed.
Lemma inv_pending v b d :
  pending_ok (set_pending v b) -> vt_inv F b d -> vt_inv F (set_pending v b) d.
Proof. update_field. Qed.
Lemma inv_output_state q b d :
  map_Forall output_ok (oq_queued_outputs q) -> vt_inv F b d ->
  vt_inv F (set_output_state q b) d.
Proof. update_field. Qed.
Lemma inv_decoded_state q b d :
  map_Forall decoded_ok (dq_queued q) -> vt_inv F b d ->
  vt_inv F (set_decoded_output_state q b) d.
Proof. update_field. Qed.

Lemma inv_put_buffer k x b d :
  buffer_ok k x -> vt_inv F b d -> vt_inv F (put_buffer k x b) d.
Proof.
  intros Hx Hi. apply inv_buffers; [|done]. apply map_Forall_insert_2; [done|]. apply Hi.
Qed.

Lemma inv_set_decode_session k s b d :
  decode_session_ok k s -> vt_inv F b d -> vt_inv F (set_decode_session k s b) d.
Proof.
  intros Hs Hi. apply inv_decode_sessions; [|done]. apply map_Forall_insert_2; [done|]. apply Hi.
Qed.

Lemma inv_mark_reusable id g b d :
  vt_inv F b d -> vt_inv F (mark_source_buffer_reusable id g b) d.
Proof.
  intros Hi. unfold mark_source_buffer_reusable. destruct (_ !! id) as [x|] eqn:Hx; [|done].
  case_if; [|done]. apply inv_put_buffer; [|done].
  destruct (ok_buffers _ (proj1 Hi) _ _ Hx) as (H1 & _ & H3).
  split_and!; [done|set_solver|done].
Qed.

Lemma inv_release_output id b st b' d :
  release_output_id id b = (st, b') -> vt_inv F b d -> vt_inv F b' d.
Proof.
  unfold release_output_id. destruct (_ !! id); intros [= <- <-] Hi; [|done].
  apply inv_output_state; [|done]. apply map_Forall_delete, Hi.
Qed.
End updates.

(** ** Callbacks *)

Section callbacks.
Context `{!Profile}.

Lemma compression_reply_size ctx sample n r :
  compression_reply ctx sample n = Val r -> dor_sample_size r = wrap 32 n.
Proof.
  unfold compression_reply, mbind, rust_bind. intros E.
  repeat case_match; simplify_eq; done.
Qed.

Lemma compression_callback_ok ctx fr st sample q q' :
  vtf_vt_compression_output_callback ctx fr st sample q = Val q' ->
  map_Forall output_ok (oq_queued_outputs q) -> map_Forall output_ok (oq_queued_outputs q').
Proof.
  unfold vtf_vt_compression_output_callback, mbind, rust_bind. intros E Hq.
  repeat case_match; simplify_eq/=; try done.
  apply map_Forall_insert_2; [|done]. split; [done|]. simpl.
  by eapply compression_reply_size.
Qed.

Lemma decompression_callback_ok ctx st img pts dur q q' :
  vtf_vt_decompression_output_callback ctx st img pts dur q = Val q' ->
  map_Forall decoded_ok (dq_queued q) -> map_Forall decoded_ok (dq_queued q').
Proof.
  unfold vtf_vt_decompression_output_callback, record_decode_error, enqueue, mbind, rust_bind.
  intros E Hq. destruct ctx; [|by simplify_eq].
  destruct ((img =? 0) || negb (st =? 0)) eqn:Hb.
  - injection E as <-. by case_if.
  - destruct (arith _ _); [|done]. injection E as <-. simpl.
    apply map_Forall_insert_2; [|done]. apply orb_false_elim in Hb as [H1 H2]. zbool. done.
Qed.

Lemma run_event_inv F e b b' d :
  run_event e b = Val b' -> vt_inv F b d -> vt_inv F b' d.
Proof.
  destruct e; simpl; unfold mbind, rust_bind; intros E Hi;
    match type of E with
      match ?x with Val _ => _ | Panic => _ end = _ => destruct x as [q|] eqn:Ec; [|done]
    end; injection E as <-.
  - apply inv_output_state; [|done]. eapply compression_callback_ok; [done|]. apply Hi.
  - apply inv_decoded_state; [|done]. eapply decompression_callback_ok; [done|]. apply Hi.
Qed.

Lemma run_events_inv F es b b' d :
  run_events es b = Val b' -> vt_inv F b d -> vt_inv F b' d.
Proof.
  revert b. induction es as [|e es IH]; intros b; simpl; [by intros [= ->]|].
  unfold mbind, rust_bind. destruct (run_event e b) as [b1|] eqn:E; [|done].
  intros H1 Hi. eapply IH; [done|]. by eapply run_event_inv.
Qed.
End callbacks.

Section methods.
Context {host : Type} `{!Frameworks host} `{!HashOrder} `{!Profile}.
Context (F : list nat).
Abbreviation inv := (vt_inv F).

Lemma host_call_events_inv {A} (f : ffi host (A * list vt_event)) w a w' :
  host_call_events f w = Val (a, w') -> inv (w_self w) (w_dir w) -> inv (w_self w') (w_dir w').
Proof.
  unfold host_call_events, mbind, rust_bind. destruct (f _) as [[x es] m].
  destruct (run_events es (w_self w)) eqn:E; [|done]. intros [= <- <-] Hi. simpl.
  by eapply run_events_inv.
Qed.

Lemma wpi_host_call_events {A} (f : ffi host (A * list vt_event)) (Q : A -> _ -> _ -> Prop) b d :
  inv b d -> (forall a b' d', inv b' d' -> Q a b' d') ->
  wpi inv (call (host_call_events f)) Q b d.
Proof.
  intros Hi HQ. apply wpi_call. intros w a w' <- <- E. apply HQ.
  by eapply host_call_events_inv.
Qed.

Lemma ensure_ok k x m r x' m' :
  vtf_ensure_source_pixel_buffer x m = Val (r, x', m') -> buffer_ok k x ->
  x' = x /\ m' = m /\ exists cv, r = inl cv /\ vb_pixel_buffer x = Some cv.
Proof.
  unfold vtf_ensure_source_pixel_buffer. intros E (_ & _ & cv & Hcv). rewrite Hcv in E.
  simplify_eq. eauto.
Qed.

Lemma wpi_ensure k x (Q : Z -> _ -> _ -> Prop) b d :
  inv b d -> buffer_ok k x ->
  (forall cv, vb_pixel_buffer x = Some cv -> inv (put_buffer k x b) d ->
     Q cv (put_buffer k x b) d) ->
  wpi inv (ensure_pixel_buffer k x) Q b d.
Proof.
  intros Hi Hx HQ. unfold ensure_pixel_buffer. do 4 wstep.
  destruct a as [[r x'] m']. destruct (ensure_ok _ _ _ _ _ _ H1 Hx) as (-> & -> & cv & -> & Hcv).
  repeat wstep. apply HQ; [done|]. by apply inv_put_buffer.
Qed.

Lemma encode_frame_payload_inv p w st w' :
  encode_frame_payload p w = Val (st, w') -> inv (w_self w) (w_dir w) ->
  inv (w_self w') (w_dir w').
Proof.
  unfold encode_frame_payload. intros E Hi.
  destruct (_ !! efp_session_id p) as [s|]; [|by simplify_eq].
  case_if_in E; [by simplify_eq|]. case_if_in E; [by simplify_eq|].
  destruct (_ !! efp_image_buffer_host_id p) as [x|] eqn:Hx; [|by simplify_eq].
  case_if_in E; [by simplify_eq|]. case_if_in E; [by simplify_eq|].
  pose proof (ok_buffers _ (proj1 Hi) _ _ Hx) as Hbx.
  unfold mbind, rust_bind in E.
  destruct (vtf_ensure_source_pixel_buffer x (w_machine w)) as [[[r x'] m']|] eqn:Hen; [|done].
  destruct (ensure_ok _ _ _ _ _ _ Hen Hbx) as (-> & -> & cv & -> & Hcv).
  unfold host_call in E.
  destruct (CVPixelBufferLockBaseAddress _ _ _) as [lst m1]. simpl in E.
  assert (Hput : forall s, s ∈ [0; 1; 2] -> buffer_ok (efp_image_buffer_host_id p)
    (set_buffer_state s x)) by (intros s0 Hs0; destruct Hbx as (? & ? & ?); by split_and!).
  case_if_in E; [simplify_eq; simpl; by apply inv_put_buffer|].
  destruct (CVPixelBufferUnlockBaseAddress _ _ _) as [ust m2]. simpl in E.
  destruct (host_call_events _ _) as [[eok w1]|] eqn:Hev; [|done].
  apply host_call_events_inv in Hev.
  2: { simpl. apply inv_put_buffer; [apply Hput; set_solver|]. by apply inv_put_buffer. }
  case_if_in E; simplify_eq; [done|]. simpl. apply inv_put_buffer; [apply Hput; set_solver|done].
Qed.

Lemma dispatch_decode_inv id bs a1 a2 a3 a4 w st w' :
  dispatch_decode_assembled_frame id bs a1 a2 a3 a4 w = Val (st, w') ->
  inv (w_self w) (w_dir w) -> inv (w_self w') (w_dir w').
Proof.
  unfold dispatch_decode_assembled_frame, host_call, mbind, rust_bind. intros E Hi.
  repeat (case_match; simplify_eq; try done).
  all: match goal with H : host_call_events _ _ = _ |- _ =>
    apply host_call_events_inv in H; simpl in H; auto end.
Qed.
End methods.

(** ** Arms *)

Section arms.
Context {host : Type} `{!Frameworks host} `{!HashOrder} `{!Profile}.
Context (F : list nat).
Abbreviation inv := (vt_inv F).
Implicit Types (b : VtRealBackend) (d : IOSurfacePoolDirectory).

(** An arm that returns only in states satisfying the invariant. *)
Definition keeps (m : arm (world host)) : Prop :=
  forall b d, inv b d -> wpi inv m (fun _ _ _ => False) b d.

#[local] Hint Resolve inv_next inv_put_buffer : core.

Ltac arm Hi := repeat (wstep; try exact Hi).

Lemma hello_keeps pl : keeps (vt_hello pl).
Proof. intros b d Hi. unfold vt_hello. by arm Hi. Qed.

Lemma get_caps_keeps : keeps vt_get_caps.
Proof. intros b d Hi. unfold vt_get_caps. by arm Hi. Qed.

Lemma create_session_keeps pl : keeps (vt_create_session pl).
Proof.
  intros b d Hi. unfold vt_create_session. arm Hi; auto.
  - unfold vt_create_decode_session. repeat wstep.
    apply inv_decode_sessions; [|by apply inv_next].
    apply map_Forall_insert_2; [|apply Hi]. split_and!; [done|done|by intros []].
  - apply inv_sessions; [|by apply inv_next]. apply map_Forall_insert_2; [|apply Hi].
    match goal with H : _ || _ = false |- _ => apply orb_false_elim in H as [? ?] end.
    zbool. done.
Qed.

Lemma set_property_keeps pl : keeps (vt_set_property pl).
Proof. intros b d Hi. unfold vt_set_property. by arm Hi. Qed.

Lemma prepare_keeps pl : keeps (vt_prepare_session pl).
Proof.
  intros b d Hi. unfold vt_prepare_session. arm Hi. apply inv_sessions; [|done].
  apply map_Forall_insert_2; [|apply Hi].
  match goal with H : vr_sessions _ !! _ = Some _ |- _ => apply (ok_sessions _ (proj1 Hi)) in H end.
  done.
Qed.

Lemma alloc_keeps pl : keeps (vt_alloc_buffer pl).
Proof.
  intros b d Hi. unfold vt_alloc_buffer. do 6 (wstep; try exact Hi).
  destruct (List.find _ _) as [[k x]|] eqn:Hf; [|by wstep].
  apply find_some in Hf as [Hin _].
  assert (Hx : vr_buffers b !! k = Some x).
  { apply elem_of_map_to_list. rewrite <- hash_iter_spec. by apply list_elem_of_In. }
  destruct (ok_buffers _ (proj1 Hi) _ _ Hx) as (Hbi & _ & Hbp).
  do 4 wstep.
  assert (Hok : buffer_ok k (set_buffer_state 1 (set_generation a0 x)))
    by (split_and!; [done|set_solver|done]).
  wstep. apply wpi_ensure; [by apply inv_put_buffer|done|].
  intros cv _ Hi2. repeat wstep; done.
Qed.

Lemma read_buffer_keeps pl : keeps (vt_read_buffer pl).
Proof.
  intros b d Hi. unfold vt_read_buffer. arm Hi.
  apply wpi_ensure; [done| |].
  - by eapply (ok_buffers _ (proj1 Hi)).
  - intros cv _ Hi2. repeat wstep; done.
Qed.

Lemma write_buffer_keeps pl : keeps (vt_write_buffer pl).
Proof.
  intros b d Hi. unfold vt_write_buffer. arm Hi.
  apply wpi_ensure; [done| |].
  - by eapply (ok_buffers _ (proj1 Hi)).
  - intros cv _ Hi2. repeat wstep; done.
Qed.

Lemma recycle_keeps pl : keeps (vt_recycle_buffer pl).
Proof.
  intros b d Hi. unfold vt_recycle_buffer. arm Hi. apply inv_put_buffer; [|done].
  match goal with H : vr_buffers _ !! _ = Some _ |- _ =>
    apply (ok_buffers _ (proj1 Hi)) in H as (? & _ & ?) end.
  split_and!; [done|set_solver|done].
Qed.

Lemma wpi_encode p (Q : Z -> _ -> _ -> Prop) b d :
  inv b d -> (forall st b' d', inv b' d' -> Q st b' d') ->
  wpi inv (call (encode_frame_payload p)) Q b d.
Proof.
  intros Hi HQ. apply wpi_call. intros w a w' <- <- E. apply HQ.
  by eapply encode_frame_payload_inv.
Qed.

Lemma encode_keeps pl : keeps (vt_encode_frame pl).
Proof.
  intros b d Hi. unfold vt_encode_frame. arm Hi.
  apply wpi_encode; [done|]. intros st b' d' Hi'. by wstep.
Qed.

Lemma encode_batch_keeps id fs : keeps (encode_batch id fs).
Proof.
  induction fs as [|f fs IH]; intros b d Hi; simpl; [by wstep|].
  arm Hi. apply wpi_encode; [done|]. intros st b' d' Hi'.
  repeat (wstep; try done). by apply IH.
Qed.

Lemma encode_frame_batch_keeps pl : keeps (vt_encode_frame_batch pl).
Proof.
  intros b d Hi. unfold vt_encode_frame_batch. arm Hi.
  by apply encode_batch_keeps.
Qed.

Lemma dequeue_output_keeps pl : keeps (vt_dequeue_output pl).
Proof.
  intros b d Hi. unfold vt_dequeue_output. arm Hi.
  - apply inv_mark_reusable, inv_output_state; [apply Hi|done].
  - apply inv_output_state; [apply Hi|done].
Qed.

Lemma dequeue_batch_keeps pl : keeps (vt_dequeue_output_batch pl).
Proof.
  assert (Hfold : forall outs b d, inv b d -> inv (foldl (fun b out =>
    mark_source_buffer_reusable (vu_source_buffer_id out) (vu_source_buffer_generation out) b)
    b outs) d).
  { induction outs as [|o outs IH]; intros b d Hi; [done|]. simpl.
    apply IH. by apply inv_mark_reusable. }
  intros b d Hi. unfold vt_dequeue_output_batch. arm Hi.
  - apply inv_output_state; [apply Hi|done].
  - apply inv_output_state; [apply Hi|done].
  - apply Hfold, inv_output_state; [apply Hi|done].
Qed.

Lemma read_output_keeps pl : keeps (vt_read_output pl).
Proof.
  intros b d Hi. unfold vt_read_output. arm Hi.
  destruct (vu_storage a). repeat wstep. done.
Qed.

Lemma release_output_keeps pl : keeps (vt_release_output pl).
Proof. intros b d Hi. unfold vt_release_output. arm Hi. by eapply inv_release_output. Qed.

Lemma release_batch_keeps ids : keeps (release_batch ids).
Proof.
  induction ids as [|id ids IH]; intros b d Hi; simpl; [by wstep|].
  do 2 wstep. destruct (release_output_id id b) as [st b'] eqn:E.
  assert (Hi' : inv b' d) by by eapply inv_release_output.
  repeat (wstep; try done). by apply IH.
Qed.

Lemma release_output_batch_keeps pl : keeps (vt_release_output_batch pl).
Proof.
  intros b d Hi. unfold vt_release_output_batch. arm Hi.
  by apply release_batch_keeps.
Qed.

Lemma drain_keeps pl : keeps (vt_drain pl).
Proof.
  intros b d Hi. unfold vt_drain. arm Hi;
    (apply wpi_host_call_events; [done|]; intros st b' d' Hi'; repeat (wstep; try done)).
Qed.
End arms.

(** ** Claims *)

Definition pool_claims (m : gmap Z VtRealPool) : list nat :=
  omap (fun kp => vp_iosurface_entry_id kp.2) (map_to_list m).

Lemma pool_claims_delete m k p :
  m !! k = Some p ->
  pool_claims m ≡ₚ option_list (vp_iosurface_entry_id p) ++ pool_claims (delete k m).
Proof.
  intros Hk. unfold pool_claims. rewrite <- (insert_delete_id m k p Hk) at 1.
  rewrite map_to_list_insert by apply lookup_delete_eq. simpl.
  by destruct (vp_iosurface_entry_id p).
Qed.

Lemma pool_claims_insert m k p :
  pool_claims (<[k := p]> m) ≡ₚ option_list (vp_iosurface_entry_id p) ++ pool_claims (delete k m).
Proof.
  rewrite (pool_claims_delete _ k p) by apply lookup_insert_eq.
  by rewrite delete_insert_eq.
Qed.

Lemma pool_claims_delete_any m k :
  exists l, pool_claims m ≡ₚ l ++ pool_claims (delete k m).
Proof.
  destruct (m !! k) as [p|] eqn:Hk.
  - eexists. by apply pool_claims_delete.
  - exists []. by rewrite delete_id.
Qed.

Definition delete_keys {V} (m : gmap Z V) (ks : list Z) : gmap Z V :=
  foldl (fun m k => delete k m) m ks.

Lemma lookup_delete_keys {V} (m : gmap Z V) ks k :
  delete_keys m ks !! k = if decide (k ∈ ks) then None else m !! k.
Proof.
  unfold delete_keys. revert m. induction ks as [|x ks IH]; intros m.
  { by rewrite decide_False by set_solver. }
  change (foldl _ m (x :: ks)) with (foldl (fun (m : gmap Z V) k => delete k m) (delete x m) ks).
  rewrite IH. destruct (decide (k = x)) as [->|Hne].
  - rewrite (decide_True (P := x ∈ x :: ks)) by set_solver.
    case_decide; [done|]. apply lookup_delete_eq.
  - rewrite lookup_delete_ne by done. repeat case_decide; set_solver.
Qed.

(** The entries of the pools [ks]. *)
Definition entries_of (m : gmap Z VtRealPool) (ks : list Z) : list nat :=
  omap (fun k => m !! k ≫= vp_iosurface_entry_id) ks.

Lemma entries_of_delete m k ks : k ∉ ks -> entries_of (delete k m) ks = entries_of m ks.
Proof.
  unfold entries_of. induction ks as [|x ks IH]; intros Hk; [done|]. csimpl.
  rewrite lookup_delete_ne, IH by set_solver. done.
Qed.

Lemma entries_of_cons m k p ks :
  m !! k = Some p ->
  entries_of m (k :: ks) = option_list (vp_iosurface_entry_id p) ++ entries_of m ks.
Proof. intros Hp. unfold entries_of. csimpl. rewrite Hp. csimpl. by destruct (vp_iosurface_entry_id p). Qed.

Lemma pool_claims_delete_keys m ks :
  NoDup ks -> (forall k, k ∈ ks -> is_Some (m !! k)) ->
  pool_claims m ≡ₚ entries_of m ks ++ pool_claims (delete_keys m ks).
Proof.
  revert m. induction ks as [|k ks IH]; intros m Hnd Hin; [done|].
  apply list.NoDup_cons in Hnd as [Hk Hnd].
  destruct (Hin k) as [p Hp]; [set_solver|].
  change (delete_keys m (k :: ks)) with (delete_keys (delete k m) ks).
  rewrite (pool_claims_delete m k p Hp), (entries_of_cons m k p) by done.
  rewrite (IH (delete k m)); [|done|].
  2: { intros k' Hk'. rewrite lookup_delete_ne by set_solver. apply Hin. set_solver. }
  by rewrite entries_of_delete, (assoc_L (++)).
Qed.

Lemma claims_ok_perm F F' b b' d l :
  claims b ++ F ≡ₚ l ++ claims b' ++ F' -> claims_ok F b d -> claims_ok F' b' d.
Proof.
  intros Hp [Hn Hc]. rewrite Hp in Hn, Hc.
  apply list.NoDup_app in Hn as (_ & _ & Hn). apply Forall_app in Hc as [_ Hc]. by split.
Qed.

(** Entries [es] are given back: the others stay held. *)
Lemma claims_ok_release F b b' d es :
  claims b ≡ₚ es ++ claims b' -> claims_ok F b d ->
  claims_ok F b' (foldl (fun d id => release_entry id d) d es).
Proof.
  intros Hp [Hn Hc]. rewrite Hp, <- (assoc_L (++)) in Hn, Hc.
  apply list.NoDup_app in Hn as (_ & Hdisj & Hn). apply Forall_app in Hc as [_ Hc].
  split; [done|]. rewrite list.Forall_forall in *. intros i Hi.
  apply release_entries_claims. split; [|by apply Hc]. intros Hes. by apply (Hdisj i).
Qed.

Section keys.
Context `{!HashOrder}.

Lemma elem_of_hash_iter {V} (m : gmap Z V) k v : (k, v) ∈ hash_iter m <-> m !! k = Some v.
Proof. rewrite hash_iter_spec. apply elem_of_map_to_list. Qed.

Lemma elem_of_keys_where {V} (f : V -> bool) (m : gmap Z V) k :
  k ∈ keys_where f m <-> exists v, m !! k = Some v /\ f v = true.
Proof.
  unfold keys_where. rewrite list_elem_of_omap. split.
  - intros ([k' v] & Hin & Hf). apply elem_of_hash_iter in Hin. simpl in Hf.
    case_if_in Hf; simplify_eq. eauto.
  - intros (v & Hv & Hf). exists (k, v). split; [by apply elem_of_hash_iter|]. by rewrite Hf.
Qed.

Lemma NoDup_keys_where {V} (f : V -> bool) (m : gmap Z V) : NoDup (keys_where f m).
Proof.
  unfold keys_where. assert (Hn : NoDup (hash_iter m).*1).
  { rewrite hash_iter_spec. apply NoDup_fst_map_to_list. }
  induction (hash_iter m) as [|[k v] l IH]; simpl; [constructor|].
  rewrite fmap_cons in Hn. apply list.NoDup_cons in Hn as [Hk Hn]. simpl in Hk.
  destruct (f v); [|by apply IH]. apply list.NoDup_cons. split; [|by apply IH].
  intros ([k' v'] & Hin & Hf)%list_elem_of_omap. apply Hk. simpl in Hf.
  case_if_in Hf; simplify_eq. apply list_elem_of_fmap. by exists (k, v').
Qed.
End keys.

(** ** Pool and decode arms *)

Section arms2.
Context {host : Type} `{!Frameworks host} `{!HashOrder} `{!Profile}.
Implicit Types (b : VtRealBackend) (d : IOSurfacePoolDirectory) (F : list nat).

Ltac arm Hi := repeat (wstep; try exact Hi).

(** An invariant under which entry [e] is held on behalf of this backend
    implies the one where it is leaked. *)
Lemma inv_drop_claim F e b d : vt_inv (e :: F) b d -> vt_inv F b d.
Proof.
  intros [Hb Hc]. split; [done|]. eapply (claims_ok_perm (e :: F) F b b d [e]); [|done].
  simpl. by rewrite Permutation_middle.
Qed.

Lemma inv_take F b d w h pf n e p d' :
  take_matching d w h pf n = (Some (e, p), d') -> vt_inv F b d -> vt_inv (e :: F) b d'.
Proof.
  intros E [Hb [Hn Hc]]. apply take_matching_claims in E as (Hno & Hyes & Hother).
  split; [done|]. split.
  - rewrite <- Permutation_middle. apply list.NoDup_cons. split; [|done].
    intros Hin. apply Hno. rewrite list.Forall_forall in Hc. by apply Hc.
  - rewrite list.Forall_forall in *. intros i Hi.
    destruct (decide (i = e)) as [->|Hne]; [done|]. apply Hother; [done|]. apply Hc. set_solver.
Qed.

Lemma inv_take_none F b d w h pf n d' :
  take_matching d w h pf n = (None, d') -> vt_inv F b d -> vt_inv F b d'.
Proof. by intros [-> _]%take_matching_None. Qed.

(** The new pool takes over the claim. *)
Lemma inv_insert_pool F e k p b d :
  pool_ok k p -> vp_iosurface_entry_id p = Some e -> vt_inv (e :: F) b d ->
  vt_inv F (set_pools (<[k := p]> (vr_pools b)) b) d.
Proof.
  intros Hp He [[] Hc]. split.
  - constructor; simpl; try assumption. by apply map_Forall_insert_2.
  - destruct (pool_claims_delete_any (vr_pools b) k) as [l Hl].
    eapply (claims_ok_perm (e :: F) F b _ d l); [|done].
    change (claims b) with (pool_claims (vr_pools b)).
    change (claims (set_pools ?m b)) with (pool_claims m).
    rewrite Hl, pool_claims_insert, He. simpl. rewrite <- (assoc_L (++)).
    by rewrite Permutation_middle.
Qed.

Lemma wpi_wrap_slot F payload pool off sz (Q : Z -> _ -> _ -> Prop) b d :
  vt_inv F b d -> (forall cv, Q cv b d) -> wpi (host:=host) (vt_inv F) (wrap_slot payload pool off sz) Q b d.
Proof. intros Hi HQ. unfold wrap_slot. arm Hi; apply HQ. Qed.

Lemma wpi_create_slots F payload pool pool_id sz n i acc
    (Q : list SharedRegionReply * list PoolBufferLeaseReply -> _ -> _ -> Prop) b d :
  vt_inv F b d -> (forall acc b' , vt_inv F b' d -> Q acc b' d) ->
  wpi (host:=host) (vt_inv F) (create_slots payload pool pool_id sz n i acc) Q b d.
Proof.
  revert i acc b. induction n as [|n IH]; intros i acc b Hi HQ; simpl.
  { wstep. by apply HQ. }
  repeat wstep. apply wpi_wrap_slot; [done|]. intros cv. repeat wstep.
  apply IH; [|done]. apply inv_put_buffer; [|by apply inv_next].
  split_and!; [done|set_solver|by eexists].
Qed.

Lemma wpi_imp {A} (I I' : VtRealBackend -> IOSurfacePoolDirectory -> Prop) (m : M (world host) A)
    (Q : A -> _ -> _ -> Prop) b d :
  (forall b d, I b d -> I' b d) -> wpi I m Q b d -> wpi I' m Q b d.
Proof. intros HI Hm s Hb Hd. specialize (Hm s Hb Hd). destruct (m s); auto. Qed.

Lemma create_buffer_pool_keeps F pl : keeps (host:=host) F (vt_create_buffer_pool pl).
Proof.
  intros b d Hi. unfold vt_create_buffer_pool. arm Hi. apply wpi_get_self. intros w Hw Hd.
  destruct (take_matching _ _ _ _ _) as [o d'] eqn:E. rewrite Hd in E.
  wstep. apply wpi_modify. intros w' Hw' Hd'. simpl. rewrite Hw'.
  destruct o as [[e p']|]; [|wstep; by eapply inv_take_none].
  pose proof (inv_take _ _ _ _ _ _ _ _ _ _ E Hi) as Hi'.
  pose proof (inv_drop_claim _ _ _ _ Hi') as Hd2.
  unfold vt_create_pool_from. arm Hd2.
  apply wpi_imp with (I := vt_inv (e :: F)); [apply inv_drop_claim|].
  apply wpi_create_slots; [by apply inv_next|]. intros acc b' Hb'.
  arm Hb'. eapply inv_insert_pool; [|done|done]. split; [done|by eexists].
Qed.

Lemma map_Forall_filtered {V} (P : Z -> V -> Prop) (Q : Z * V -> Prop)
    `{!forall x, Decision (Q x)} (m : gmap Z V) : map_Forall P m -> map_Forall P (filter Q m).
Proof. intros HP k v [Hk _]%map_lookup_filter_Some. by apply HP. Qed.

Lemma destroy_encode_session_inv F id (w : world host) :
  vt_inv F (w_self w) (w_dir w) ->
  vt_inv F (w_self (destroy_encode_session id w)) (w_dir (destroy_encode_session id w)).
Proof.
  intros [[] Hc]. unfold destroy_encode_session.
  set (ids := keys_where _ (vr_pools _)). split.
  - constructor; simpl; try assumption.
    + by apply map_Forall_filtered.
    + intros k p Hk. change (foldl _ _ ids) with (delete_keys (vr_pools (w_self w)) ids) in Hk.
      rewrite lookup_delete_keys in Hk. case_decide; [done|]. by apply ok_pools0.
    + intros k o Hk.
      match type of Hk with foldl _ ?m ?l !! _ = _ =>
        change (delete_keys m l !! k = Some o) in Hk end.
      rewrite lookup_delete_keys in Hk. case_decide; [done|]. by apply ok_outputs0.
  - simpl. eapply claims_ok_release; [|done].
    change (claims ?b) with (pool_claims (vr_pools b)). simpl.
    apply pool_claims_delete_keys; [apply NoDup_keys_where|].
    intros k (v & Hv & _)%elem_of_keys_where. by eexists.
Qed.

Lemma destroy_session_keeps F pl : keeps (host:=host) F (vt_destroy_session pl).
Proof.
  intros b d Hi. unfold vt_destroy_session. arm Hi.
  - apply inv_decode_sessions; [|done]. apply map_Forall_delete, Hi.
  - apply wpi_modify. intros w Hw Hd. wstep. apply destroy_encode_session_inv.
    rewrite Hw, Hd. apply inv_sessions; [|done]. apply map_Forall_delete, Hi.
Qed.

Lemma destroy_pool_inv F k p b d :
  vr_pools b !! k = Some p -> vt_inv F b d ->
  vt_inv F (set_buffers (filter (fun '(_, x) => vb_pool_id x <> k) (vr_buffers b))
              (set_pools (delete k (vr_pools b)) b))
    (foldl (fun d id => release_entry id d) d (option_list (vp_iosurface_entry_id p))).
Proof.
  intros Hp [[] Hc]. split.
  - constructor; simpl; try assumption; [by apply map_Forall_filtered|by apply map_Forall_delete].
  - eapply claims_ok_release; [|done]. by apply pool_claims_delete.
Qed.

Lemma destroy_buffer_pool_keeps F pl : keeps (host:=host) F (vt_destroy_buffer_pool pl).
Proof.
  intros b d Hi. unfold vt_destroy_buffer_pool. do 4 (wstep; try exact Hi).
  destruct (_ !! _) as [pool|] eqn:Hp; [|by wstep].
  pose proof (destroy_pool_inv F _ _ _ _ Hp Hi) as Hinv.
  do 5 wstep. destruct (vp_iosurface_entry_id pool) as [e|].
  - apply wpi_modify. intros w Hw Hd. simpl. rewrite Hw, Hd. by wstep.
  - do 2 wstep. done.
Qed.

Lemma wpi_decode F id bs a1 a2 a3 a4 (Q : Z -> _ -> _ -> Prop) b d :
  vt_inv F b d -> (forall st b' d', vt_inv F b' d' -> Q st b' d') ->
  wpi (host:=host) (vt_inv F) (call (dispatch_decode_assembled_frame id bs a1 a2 a3 a4)) Q b d.
Proof.
  intros Hi HQ. apply wpi_call. intros w a w' <- <- E. apply HQ. by eapply dispatch_decode_inv.
Qed.

Lemma finish_with_keeps F st : keeps (host:=host) F (finish_with st).
Proof. intros b d Hi. unfold finish_with. arm Hi. Qed.

Lemma enqueue_keeps F pl : keeps (host:=host) F (vt_enqueue_encoded_frame pl).
Proof.
  intros b d Hi. unfold vt_enqueue_encoded_frame. arm Hi. apply wpi_decode; [done|].
  intros. by apply finish_with_keeps.
Qed.

Lemma finish_assembly_keeps F id : keeps (host:=host) F (finish_assembly id).
Proof.
  intros b d Hi. unfold finish_assembly.
  assert (Hi' : vt_inv F (set_pending (delete id (vr_pending_encoded_frames b)) b) d)
    by (apply inv_pending; [apply map_Forall_delete, Hi|done]).
  repeat (wstep; try done). apply wpi_decode; [done|]. intros. by apply finish_with_keeps.
Qed.

Lemma assemble_inv F p (payload : list byte) chunk b b' d :
  pod_ok p = true -> payload = bytes_of p ++ chunk ->
  chunk_check p (len payload) b = None -> assemble p chunk b = Some b' ->
  vt_inv F b d -> vt_inv F b' d.
Proof.
  intros Hp -> Hck Ha Hi. destruct (chunk_check_bounds _ _ _ Hp Hck) as (H1 & H2 & H3).
  destruct (assemble_assembled _ _ _ _ Ha) as (q & _ & -> & Ht & Hl).
  apply inv_pending; [|done]. apply map_Forall_insert_2; [lia|apply Hi].
Qed.

Lemma enqueue_chunk_keeps F pl : keeps (host:=host) F (vt_enqueue_encoded_frame_chunk pl).
Proof.
  intros b d Hi. unfold vt_enqueue_encoded_frame_chunk, payload_or.
  do 2 (wstep; try exact Hi). apply read_pod_split in H1 as [Hp Hpl].
  do 2 wstep. wstep. destruct (chunk_check _ _ _) as [st|] eqn:Hck; [by wstep|].
  wstep. do 2 (wstep; try exact Hi). pose proof (assemble_inv F _ _ _ _ _ _ Hp Hpl Hck H1 Hi).
  do 3 wstep; [by apply finish_assembly_keeps|by wstep].
Qed.

Lemma dequeue_decoded_keeps F pl : keeps (host:=host) F (vt_dequeue_decoded_frame pl).
Proof.
  intros b d Hi. unfold vt_dequeue_decoded_frame. do 6 (wstep; try exact Hi).
  destruct (pop_front _ _) as [o queues].
  assert (Hd : forall q, dq_queued q = dq_queued (vr_decoded_output_state b) ->
    forall b', vt_inv F b' d -> vt_inv F (set_decoded_output_state q b') d).
  { intros q Hq b' Hb'. apply inv_decoded_state; [|done]. rewrite Hq. apply Hi. }
  do 2 wstep. destruct o as [oid|].
  - repeat wstep; by apply Hd.
  - do 2 wstep. unfold take_decode_error. cbv beta iota. simpl. repeat wstep;
      (apply Hd; [done|]; by apply Hd).
Qed.

Lemma release_decoded_keeps F pl : keeps (host:=host) F (vt_release_decoded_frame pl).
Proof.
  intros b d Hi. unfold vt_release_decoded_frame. arm Hi;
    (apply inv_decoded_state; [apply map_Forall_delete, Hi|done]).
Qed.

Lemma read_decoded_keeps F pl : keeps (host:=host) F (vt_read_decoded_frame pl).
Proof. intros b d Hi. unfold vt_read_decoded_frame. arm Hi. Qed.

Lemma read_decoded_chunk_keeps F pl : keeps (host:=host) F (vt_read_decoded_frame_chunk pl).
Proof. intros b d Hi. unfold vt_read_decoded_frame_chunk. arm Hi. Qed.

Lemma bind_keeps F pl : keeps (host:=host) F (vt_bind_decode_output_pool pl).
Proof.
  intros b d Hi. unfold vt_bind_decode_output_pool. arm Hi. apply inv_set_decode_session; [|done].
  match goal with H : vr_decode_sessions _ !! _ = Some _ |- _ =>
    by apply (ok_decode_sessions _ (proj1 Hi)) in H end.
Qed.

Lemma wpi_recreate F id fd s (Q : VtRealDecodeSession -> _ -> _ -> Prop) b d :
  vt_inv F b d -> decode_session_ok id s ->
  (forall s' b', vt_inv F b' d -> vd_id s' = id ->
     (forall ctx, vd_callback_context s' = Some ctx -> dcc_session_id ctx = id) ->
     is_Some (vd_callback_context s') -> Q s' b' d) ->
  wpi (host:=host) (vt_inv F) (recreate_decoder id fd s) Q b d.
Proof.
  intros Hi (H1 & H2 & H3) HQ. unfold recreate_decoder.
  set (ctx := match vd_callback_context s with Some c => c | None => _ end).
  assert (Hctx : dcc_session_id ctx = id).
  { unfold ctx. destruct (vd_callback_context s); [by apply H2|done]. }
  do 2 wstep.
  match goal with |- wpi _ _ _ ?b' _ => assert (Hi' : vt_inv F b' d) end.
  { apply inv_set_decode_session; [|done]. split_and!; [done|naive_solver|by intros []]. }
  repeat (wstep; try exact Hi'). apply HQ; simpl; [done|done|naive_solver|by eexists].
Qed.

Lemma set_decode_format_keeps F pl : keeps (host:=host) F (vt_set_decode_format pl).
Proof.
  intros b d Hi. unfold vt_set_decode_format. do 5 (wstep; try exact Hi).
  assert (Hend : forall fd s b' (Hb' : vt_inv F b' d), vd_id s = sdf_session_id p ->
    (forall ctx, vd_callback_context s = Some ctx -> dcc_session_id ctx = sdf_session_id p) ->
    (is_Some (vd_vt_session s) -> is_Some (vd_callback_context s)) ->
    vt_inv F (set_decode_session (sdf_session_id p)
      (mk_VtRealDecodeSession (vd_id s) (vd_codec s) (vd_width s) (vd_height s) (Some fd)
         (vd_vt_session s) (vd_callback_context s) (vd_chunked_output s)) b') d).
  { intros fd s b' Hb' E1 E2 E3. apply inv_set_decode_session; [|done].
    split_and!; [done|done|]. simpl. intros Hs. split; [by eexists|by apply E3]. }
  repeat (wstep; try exact Hi).
  all: match goal with H : vr_decode_sessions _ !! _ = Some _ |- _ =>
    apply (ok_decode_sessions _ (proj1 Hi)) in H as (E1 & E2 & E3) end.
  all: try (apply Hend; [done|done|done|]; intros Hs; by apply E3).
  all: apply wpi_recreate; [done|done|]; intros s' b' Hb' F1 F2 F3; repeat wstep;
    apply Hend; [done|done|done|]; by intros _.
Qed.

(** Every request preserves the invariant, whatever the host answers. *)
Lemma dispatch_keeps F rq pl : keeps (host:=host) F (vt_dispatch rq pl).
Proof.
  intros b d Hi. unfold vt_dispatch. apply wpi_match_opcode; [|by wstep].
  unfold vt_arms. repeat apply Forall_cons; simpl; split_and?; try done.
  all: first
    [ by apply hello_keeps | by wstep | by apply get_caps_keeps | by apply create_session_keeps
    | by apply set_property_keeps | by apply create_buffer_pool_keeps | by apply alloc_keeps
    | by apply read_buffer_keeps | by apply write_buffer_keeps | by apply prepare_keeps
    | by apply recycle_keeps | by apply encode_keeps | by apply encode_frame_batch_keeps
    | by apply dequeue_output_keeps | by apply dequeue_batch_keeps | by apply read_output_keeps
    | by apply release_output_keeps | by apply release_output_batch_keeps | by apply drain_keeps
    | by apply destroy_session_keeps | by apply destroy_buffer_pool_keeps
    | by apply enqueue_keeps | by apply enqueue_chunk_keeps | by apply dequeue_decoded_keeps
    | by apply release_decoded_keeps | by apply read_decoded_keeps
    | by apply set_decode_format_keeps | by apply bind_keeps
    | by apply read_decoded_chunk_keeps ].
Qed.
End arms2.
