(* ===== verification/VtSystem.v ===== *)
(** * The worker process: concurrent connections

    Each accepted connection owns a backend; all of them share one pool
    directory and the host.  The process is a step relation: connections come
    and go ([handle_connection] resets a fresh backend, [Drop] gives back what it
    still holds), serve requests one at a time each, VideoToolbox runs callbacks,
    and the host changes on its own (a guest writing pixels into a surface).

    The threads meet in the directory, behind its mutex.  A request locks it at most once
    ([take_matching] in [OP_CREATE_BUFFER_POOL], the loop of [release_entry] in
    [OP_DESTROY_SESSION], the one [release_entry] in [OP_DESTROY_BUFFER_POOL]), and so does
    [Drop]; the rest of a request is the connection's own state.  So a request acts on the
    others at its lock, and is one step there, with one exception: [OP_DESTROY_SESSION] and
    [Drop] give the entries back before the records of the pools are removed.  The records
    that are still there after the lock are [sys_torn]; they go in a step of their own,
    between which and the lock the other connections take steps. *)

From S2P Require Import Prelude Wire Protocol Layout Backend Frameworks PoolDirectory.
From S2P Require Import PixelCopy Sim VtReal VtDispatch VtDecode VtInv.

Set Default Goal Selector "!".
Open Scope Z_scope.

Record system (host : Type) := mk_system {
  sys_conns : gmap Z VtRealBackend;
  sys_torn : gmap Z (gmap Z VtRealPool);
  sys_dir : IOSurfacePoolDirectory;
  sys_machine : machine host
}.
Arguments mk_system {host}.
Arguments sys_conns {host}.
Arguments sys_torn {host}.
Arguments sys_dir {host}.
Arguments sys_machine {host}.

Section system.
Context {host : Type} `{!Frameworks host} `{!HashOrder} `{!Profile}.
Abbreviation system := (system host).

(** The records still in [pools] when the lock of the request is released: those
    [OP_DESTROY_SESSION] is about to remove ([OP_DESTROY_BUFFER_POOL] has removed its record
    before it locks). *)
Definition leaving (rq : MessageHeader) (b b' : VtRealBackend) : gmap Z VtRealPool :=
  if mh_opcode rq =? OP_DESTROY_SESSION then vr_pools b ∖ vr_pools b' else ∅.

Inductive sys_step : system -> system -> Prop :=
| step_connect c s :
    sys_conns s !! c = None -> sys_torn s !! c = None ->
    sys_step s (mk_system (<[c := vt_reset_from_env VtRealBackend_new]> (sys_conns s))
                  (sys_torn s) (sys_dir s) (sys_machine s))
| step_request c b rq pl h buf r w' h' buf' s :
    sys_conns s !! c = Some b -> sys_torn s !! c = None ->
    run (vt_dispatch rq pl) (IO (mk_world b (sys_dir s) (sys_machine s)) h buf) =
      Val (r, IO w' h' buf') ->
    sys_step s (mk_system (<[c := w_self w']> (sys_conns s))
                  (<[c := leaving rq b (w_self w')]> (sys_torn s)) (w_dir w') (w_machine w'))
| step_callback c b e b' s :
    sys_conns s !! c = Some b -> run_event e b = Val b' ->
    sys_step s (mk_system (<[c := b']> (sys_conns s)) (sys_torn s) (sys_dir s) (sys_machine s))
| step_disconnect c b s :
    sys_conns s !! c = Some b -> sys_torn s !! c = None ->
    sys_step s (mk_system (delete c (sys_conns s)) (<[c := vr_pools b]> (sys_torn s))
                  (VtRealBackend_drop b (sys_dir s)) (sys_machine s))
| step_finish c s :
    sys_step s (mk_system (sys_conns s) (delete c (sys_torn s)) (sys_dir s) (sys_machine s))
| step_host m s : sys_step s (mk_system (sys_conns s) (sys_torn s) (sys_dir s) m).

(** The process starts without connections and with nothing claimed. *)
Inductive reachable : system -> Prop :=
| reach_init s :
    sys_conns s = ∅ -> sys_torn s = ∅ -> (forall i, ~ entry_claimed (sys_dir s) i) -> reachable s
| reach_step s s' : reachable s -> sys_step s s' -> reachable s'.

(** ** Claims of all connections *)

Definition all_claims (conns : gmap Z VtRealBackend) : list nat :=
  concat ((fun cb => claims cb.2) <$> map_to_list conns).

Lemma all_claims_delete conns c b :
  conns !! c = Some b -> all_claims conns ≡ₚ claims b ++ all_claims (delete c conns).
Proof.
  intros Hc. unfold all_claims. rewrite <- (insert_delete_id conns c b Hc) at 1.
  rewrite map_to_list_insert by apply lookup_delete_eq. by rewrite fmap_cons.
Qed.

Lemma all_claims_insert conns c b :
  all_claims (<[c := b]> conns) ≡ₚ claims b ++ all_claims (delete c conns).
Proof.
  rewrite (all_claims_delete _ c b) by apply lookup_insert_eq. by rewrite delete_insert_eq.
Qed.

(** The records that are going are no pools of the connection any more. *)
Definition torn_gone (s : system) : Prop :=
  forall c b t, sys_conns s !! c = Some b -> sys_torn s !! c = Some t -> t ##ₘ vr_pools b.

(** Every backend is well formed, and the entries held are claimed and held by
    one pool of one connection. *)
Definition sys_inv (s : system) : Prop :=
  map_Forall (fun _ b => backend_ok b) (sys_conns s) /\
  NoDup (all_claims (sys_conns s)) /\
  Forall (entry_claimed (sys_dir s)) (all_claims (sys_conns s)).

Lemma sys_inv_conn s c b :
  sys_inv s -> sys_conns s !! c = Some b ->
  vt_inv (all_claims (delete c (sys_conns s))) b (sys_dir s).
Proof.
  intros (H1 & H2 & H3) Hc. rewrite (all_claims_delete _ _ _ Hc) in H2, H3.
  split; [by apply (H1 c)|by split].
Qed.

(** Replace the backend of one connection. *)
Lemma sys_inv_put s c b t d m :
  sys_inv s -> vt_inv (all_claims (delete c (sys_conns s))) b d ->
  sys_inv (mk_system (<[c := b]> (sys_conns s)) t d m).
Proof.
  intros (H1 & _ & _) [Hb [Hn Hc]]. split_and!; simpl.
  - by apply map_Forall_insert_2.
  - by rewrite all_claims_insert.
  - by rewrite all_claims_insert.
Qed.

Lemma backend_ok_reset : backend_ok (vt_reset_from_env VtRealBackend_new).
Proof. constructor; apply map_Forall_empty. Qed.

Lemma drop_entries b :
  omap (fun '(_, pool) => vp_iosurface_entry_id pool) (hash_iter (vr_pools b)) ≡ₚ claims b.
Proof.
  unfold claims. rewrite hash_iter_spec.
  induction (map_to_list (vr_pools b)) as [|[k p] l IH]; [done|]. csimpl.
  destruct (vp_iosurface_entry_id p); by rewrite IH.
Qed.

Lemma sys_step_inv s s' : sys_step s s' -> sys_inv s -> sys_inv s'.
Proof.
  destruct 1 as [c s Hc Ht|c b rq pl h buf r w' h' buf' s Hc Ht Hr|c b e b' s Hc He|c b s Hc Ht|c s|m s];
    intros Hi; [| | | |done|done].
  - apply (sys_inv_put s); [done|]. split; [apply backend_ok_reset|].
    rewrite delete_id by done. destruct Hi as (_ & H2 & H3). by split.
  - apply (sys_inv_put s); [done|].
    eapply (wpi_run (vt_inv _)) in Hr; [exact Hr|]. simpl. apply dispatch_keeps.
    by apply sys_inv_conn.
  - apply (sys_inv_put s); [done|]. eapply run_event_inv; [done|]. by apply sys_inv_conn.
  - pose proof (sys_inv_conn _ _ _ Hi Hc) as [_ [Hn Hcl]]. destruct Hi as (H1 & _ & _).
    apply list.NoDup_app in Hn as (_ & Hdisj & Hn). apply Forall_app in Hcl as [_ Hcl].
    split_and!; simpl; [by apply map_Forall_delete|done|].
    rewrite list.Forall_forall in *. intros i Hi. unfold VtRealBackend_drop.
    apply release_entries_claims. split; [|by apply Hcl].
    rewrite drop_entries. intros Hin. by apply (Hdisj i).
Qed.

Lemma run_event_pools e b b' : run_event e b = Val b' -> vr_pools b' = vr_pools b.
Proof.
  intros E. destruct (run_events_frame [e] b b') as (q & q' & ->); [|done]. cbn.
  unfold mbind, rust_bind. by rewrite E.
Qed.

Lemma leaving_gone rq b b' : leaving rq b b' ##ₘ vr_pools b'.
Proof.
  unfold leaving. case_match; [|apply map_disjoint_empty_l]. by apply map_disjoint_difference_l1.
Qed.

Lemma sys_step_gone s s' : sys_step s s' -> torn_gone s -> torn_gone s'.
Proof.
  destruct 1 as [c s Hc Ht|c b rq pl h buf r w' h' buf' s Hc Ht Hr|c b e b' s Hc He|c b s Hc Ht|c s|m s];
    intros Hg c0 b0 t0; cbn; [| | | | |by apply Hg].
  - destruct (decide (c = c0)) as [->|Hne]; [intros _; congruence|]. rewrite lookup_insert_ne by done. by apply Hg.
  - destruct (decide (c = c0)) as [->|Hne].
    + rewrite !lookup_insert_eq. intros [= <-] [= <-]. apply leaving_gone.
    + rewrite !lookup_insert_ne by done. by apply Hg.
  - destruct (decide (c = c0)) as [->|Hne].
    + rewrite lookup_insert_eq. intros [= <-] Ht. rewrite (run_event_pools _ _ _ He). by apply (Hg c0).
    + rewrite lookup_insert_ne by done. by apply Hg.
  - destruct (decide (c = c0)) as [->|Hne]; [by rewrite lookup_delete_eq|].
    rewrite lookup_delete_ne, lookup_insert_ne by done. by apply Hg.
  - intros Hc [_ Ht]%lookup_delete_Some. by apply (Hg c0).
Qed.

Lemma reachable_inv s : reachable s -> sys_inv s /\ torn_gone s.
Proof.
  induction 1 as [s Hc Ht Hd|s s' _ [IH Hg] Hs]; [|by split; [eapply sys_step_inv|eapply sys_step_gone]].
  unfold sys_inv, torn_gone. rewrite Hc.
  split_and!; [apply map_Forall_empty|constructor|constructor|by intros c b t E].
Qed.

(** Two pools holding the same entry are the same pool. *)
Lemma claims_unique conns c1 b1 k1 p1 c2 b2 k2 p2 e :
  NoDup (all_claims conns) ->
  conns !! c1 = Some b1 -> vr_pools b1 !! k1 = Some p1 -> vp_iosurface_entry_id p1 = Some e ->
  conns !! c2 = Some b2 -> vr_pools b2 !! k2 = Some p2 -> vp_iosurface_entry_id p2 = Some e ->
  c1 = c2 /\ k1 = k2.
Proof.
  assert (Hin : forall b k p, vr_pools b !! k = Some p -> vp_iosurface_entry_id p = Some e ->
    claims b ≡ₚ e :: pool_claims (delete k (vr_pools b))).
  { intros b k p Hk He. change (claims b) with (pool_claims (vr_pools b)).
    by rewrite (pool_claims_delete _ _ _ Hk), He. }
  intros Hn Hc1 Hk1 He1 Hc2 Hk2 He2. rewrite (all_claims_delete _ _ _ Hc1) in Hn.
  rewrite (Hin _ _ _ Hk1 He1) in Hn. simpl in Hn. apply list.NoDup_cons in Hn as [Hnotin _].
  destruct (decide (c1 = c2)) as [->|Hc].
  - split; [done|]. simplify_eq. destruct (decide (k1 = k2)) as [|Hk]; [done|exfalso].
    apply Hnotin, elem_of_app. left. unfold pool_claims. apply list_elem_of_omap.
    exists (k2, p2). split; [|done]. apply elem_of_map_to_list. by rewrite lookup_delete_ne.
  - exfalso. apply Hnotin, elem_of_app. right.
    rewrite (all_claims_delete _ c2 b2) by (by rewrite lookup_delete_ne).
    rewrite (Hin _ _ _ Hk2 He2). set_solver.
Qed.
End system.

(** C5: no two guests share an IOSurface, but for records on their way out.  In every
    reachable state of the worker (any interleaving of connects, the requests' and the
    drops' accesses to the directory, the removal of the pools they gave back, callbacks
    and host activity, whatever the frameworks answer), a directory entry held by a pool of
    a connection is marked claimed and is held by exactly one pool of one connection; and
    that pool is not one whose entry the connection gave back and whose record
    [OP_DESTROY_SESSION] has yet to remove. *)
Theorem pools_never_share_entry {host} `{!Frameworks host} `{!HashOrder} `{!Profile}
    (s : system host) c1 b1 k1 p1 c2 b2 k2 p2 e :
  reachable s ->
  sys_conns s !! c1 = Some b1 -> vr_pools b1 !! k1 = Some p1 ->
  vp_iosurface_entry_id p1 = Some e ->
  entry_claimed (sys_dir s) e /\
  (sys_conns s !! c2 = Some b2 -> vr_pools b2 !! k2 = Some p2 ->
   vp_iosurface_entry_id p2 = Some e -> c1 = c2 /\ k1 = k2) /\
  (forall t, sys_torn s !! c1 = Some t -> t !! k1 = None).
Proof.
  intros [(_ & Hn & Hc) Hg]%reachable_inv H1 H2 H3. split_and!.
  - rewrite list.Forall_forall in Hc. apply Hc. rewrite (all_claims_delete _ _ _ H1).
    apply elem_of_app. left. apply list_elem_of_omap. exists (k1, p1).
    split; [by apply elem_of_map_to_list|done].
  - intros. by eapply claims_unique.
  - intros t Ht. eapply map_disjoint_Some_r; [by apply (Hg c1)|done].
Qed.

(** C23: the well-formedness of a backend is an invariant of the worker.  In every
    reachable state every connection's maps are keyed by their records' own ids,
    buffers are recycled, writable or queued and have a pixel buffer, a decoder
    exists only with its format and a callback context of its own session,
    assembly buffers respect their declared size and the 64 MiB cap, and every
    queued output carries its own id and a usable payload. *)
Theorem reachable_backends_ok {host} `{!Frameworks host} `{!HashOrder} `{!Profile}
    (s : system host) c b :
  reachable s -> sys_conns s !! c = Some b -> backend_ok b.
Proof. intros [(H1 & _ & _) _]%reachable_inv Hc. by apply (H1 c). Qed.

(** ** Example: two connections, two surfaces of one shape *)

#[local] Existing Instance key_order.

Definition pool_request : list byte :=
  bytes_of {| cbp_session_id := 0; cbp_buffer_count := 1; cbp_pixel_format := FOURCC_420V;
              cbp_width := 64; cbp_height := 32; cbp_usage_flags := 0; cbp_padding := 0 |}.

Definition shape_entry (surface : Z) : DirectoryEntry :=
  mk_DirectoryEntry (mk_PoolShape 64 32 FOURCC_420V)
    (mk_IOSurfacePool (mk_IOSurfacePoolSpec 64 32 FOURCC_420V 1 surface) surface) false.

Definition demo_sys0 : system sim :=
  mk_system ∅ ∅ (mk_IOSurfacePoolDirectory [shape_entry 7; shape_entry 9]) sim_machine.

Definition demo_buf : list byte := replicate (Z.to_nat 30000) Byte.x00.

Definition demo_connect (c : Z) (s : system sim) : system sim :=
  mk_system (<[c := vt_reset_from_env VtRealBackend_new]> (sys_conns s)) (sys_torn s) (sys_dir s)
    (sys_machine s).

(** Connection [c] asks for a pool; the state is unchanged if it cannot. *)
Definition demo_pool (c : Z) (s : system sim) : option (system sim) :=
  b ← sys_conns s !! c;
  let rq := mk_MessageHeader 1 OP_CREATE_BUFFER_POOL 0 0 0 0 in
  match run (vt_dispatch (H0:=debug_build) rq pool_request)
          (IO (mk_world b (sys_dir s) (sys_machine s)) ok_header demo_buf) with
  | Val (_, IO w' _ _) =>
      Some (mk_system (<[c := w_self w']> (sys_conns s)) (<[c := leaving rq b (w_self w')]> (sys_torn s))
              (w_dir w') (w_machine w'))
  | Panic => None
  end.

Lemma demo_pool_step c s s' :
  demo_pool c s = Some s' -> sys_torn s !! c = None -> sys_step (H0:=debug_build) s s'.
Proof.
  unfold demo_pool. destruct (sys_conns s !! c) as [b|] eqn:Hc; [|done].
  unfold mbind, option_bind.
  destruct (run _ _) as [[r [w' h' buf']]|] eqn:E; [|done]. intros [= <-] Ht.
  by eapply step_request.
Qed.

Lemma demo_pool_other c c' s s' :
  demo_pool c s = Some s' -> c <> c' ->
  sys_conns s' !! c' = sys_conns s !! c' /\ sys_torn s' !! c' = sys_torn s !! c'.
Proof.
  unfold demo_pool. destruct (sys_conns s !! c) as [b|] eqn:Hc; [|done].
  unfold mbind, option_bind.
  destruct (run _ _) as [[r [w' h' buf']]|] eqn:E; [|done]. intros [= <-] Hne.
  split; by apply lookup_insert_ne.
Qed.

Definition demo_sys : option (system sim) :=
  demo_pool 0 (demo_connect 0 demo_sys0) ≫= fun s => demo_pool 1 (demo_connect 1 s).

Lemma demo_sys0_reachable : reachable (H0:=debug_build) demo_sys0.
Proof.
  apply reach_init; [done|done|]. intros i (e & He & Hc). simpl in He.
  destruct i as [|[|i]]; simplify_eq/=.
Qed.

Lemma demo_first_reachable s : demo_pool 0 (demo_connect 0 demo_sys0) = Some s ->
  reachable (H0:=debug_build) s.
Proof.
  intros H1. eapply reach_step; [|by eapply demo_pool_step].
  eapply reach_step; [apply demo_sys0_reachable|by apply step_connect].
Qed.

Lemma demo_sys_reachable s : demo_sys = Some s -> reachable (H0:=debug_build) s.
Proof.
  unfold demo_sys. intros (s1 & H1 & H2)%bind_Some.
  destruct (demo_pool_other _ 1 _ _ H1 ltac:(done)) as [Hc Ht].
  eapply reach_step; [|by eapply demo_pool_step].
  eapply reach_step; [by apply demo_first_reachable|by apply step_connect].
Qed.

(** The entries held by connections 0 and 1 in [demo_sys]. *)
Definition held (c : Z) (s : system sim) : list nat :=
  match sys_conns s !! c with Some b => claims b | None => [] end.

Lemma demo_sys_held :
  exists s, demo_sys = Some s /\ held 0 s = [0%nat] /\ held 1 s = [1%nat].
Proof.
  assert (Hh : (fun s => (held 0 s, held 1 s)) <$> demo_sys = Some ([0%nat], [1%nat]))
    by (vm_compute; reflexivity).
  apply fmap_Some in Hh as (s & Hs & Hh). exists s.
  split; [exact Hs|]. injection Hh as H0 H1. split; symmetry; assumption.
Qed.

Lemma pools_never_share_entry_witness :
  exists s b k p, demo_sys = Some s /\ sys_conns s !! 0 = Some b /\ vr_pools b !! k = Some p /\
    entry_claimed (sys_dir s) 0.
Proof.
  destruct demo_sys_held as (s & E & Hh & _). unfold held in Hh.
  destruct (sys_conns s !! 0) as [b|] eqn:Hb; [|discriminate].
  assert (Hin : 0%nat ∈ claims b) by (rewrite Hh; apply elem_of_cons; left; reflexivity).
  apply list_elem_of_omap in Hin as ([k p] & Hk%elem_of_map_to_list & Hp).
  exists s, b, k, p. split; [exact E|]. split; [exact Hb|]. split; [exact Hk|].
  exact (proj1 (pools_never_share_entry (H0:=debug_build) s 0 b k p 1 b k p 0
    (demo_sys_reachable s E) Hb Hk Hp)).
Defined.

Lemma reachable_backends_ok_witness :
  exists s b, demo_sys = Some s /\ sys_conns s !! 1 = Some b /\ backend_ok b.
Proof.
  destruct demo_sys_held as (s & E & _ & Hh). unfold held in Hh.
  destruct (sys_conns s !! 1) as [b|] eqn:Hb; [|discriminate].
  exists s, b. split; [exact E|]. split; [exact Hb|].
  exact (reachable_backends_ok (H0:=debug_build) s 1 b (demo_sys_reachable s E) Hb).
Defined.

(** ** The records that outlive their claims *)

(** Connection 0 goes: its thread has given the entries back, the records are still there. *)
Definition demo_drop (s : system sim) : option (system sim) :=
  b ← sys_conns s !! 0;
  Some (mk_system (delete 0 (sys_conns s)) (<[0 := vr_pools b]> (sys_torn s))
          (VtRealBackend_drop b (sys_dir s)) (sys_machine s)).

Definition demo_window : option (system sim) :=
  s ← demo_pool 0 (demo_connect 0 demo_sys0);
  s ← demo_drop (mk_system (sys_conns s) (delete 0 (sys_torn s)) (sys_dir s) (sys_machine s));
  demo_pool 1 (demo_connect 1 s).

Lemma demo_window_reachable s : demo_window = Some s -> reachable (H0:=debug_build) s.
Proof.
  unfold demo_window. intros (s1 & H1 & (s2 & H2 & H3)%bind_Some)%bind_Some.
  destruct (demo_pool_other _ 1 _ _ H1 ltac:(done)) as [Hc Ht].
  unfold demo_drop in H2. apply bind_Some in H2 as (b & Hb & [= <-]). cbn in Hb.
  eapply reach_step; [|eapply demo_pool_step; [exact H3|]].
  - eapply reach_step; [|apply step_connect].
    + apply (reach_step (mk_system (sys_conns s1) (delete 0 (sys_torn s1)) (sys_dir s1) (sys_machine s1))).
      * eapply reach_step; [by apply demo_first_reachable|by apply step_finish].
      * eapply (step_disconnect 0 b (mk_system _ _ _ _)); [exact Hb|apply lookup_delete_eq].
    + cbn. by rewrite lookup_delete_ne, Hc.
    + cbn. by rewrite lookup_insert_ne, lookup_delete_ne, Ht.
  - cbn. by rewrite lookup_insert_ne, lookup_delete_ne, Ht.
Qed.

(** The entries of a set of pool records. *)
Definition entries_of (t : gmap Z VtRealPool) : list (option nat) :=
  (fun kp => vp_iosurface_entry_id kp.2) <$> map_to_list t.

(** Between the release in [Drop] (or in [OP_DESTROY_SESSION]) and the removal of the
    records, the surface of an old pool, with its pixel buffers, is another connection's. *)
Theorem released_pool_shares_surface : exists s,
  demo_window = Some s /\ reachable (H0:=debug_build) s /\
  entries_of <$> sys_torn s !! 0 = Some [Some 0%nat] /\ held 1 s = [0%nat].
Proof.
  assert (Hh : (fun s => (entries_of <$> sys_torn s !! 0, held 1 s)) <$> demo_window =
    Some (Some [Some 0%nat], [0%nat])) by (vm_compute; reflexivity).
  apply fmap_Some in Hh as (s & Hs & Hh). exists s. injection Hh as H0 H1.
  split_and!; [done|by apply demo_window_reachable|done|done].
Qed.
