(* ===== verification/Leases.v ===== *)
(** * The layouts of leases

    The guest uses the layout of an [OP_ALLOC_BUFFER] reply without a check of its own.
    The VideoToolbox backend answers with one that [vtf_fill_buffer_layout] computed. *)

From S2P Require Import Prelude Wire Protocol Layout Backend Frameworks PoolDirectory.
From S2P Require Import PixelCopy VtReal VtDispatch.

Set Default Goal Selector "!".
Open Scope Z_scope.

(** ** What a handler answers *)

Section answers.
Context {B : Type} (P : list byte -> Prop).

(** Every answer of [m] is empty or satisfies [P]. *)
Definition answers {A} (m : M B A) : Prop := forall s,
  match m s with
  | Return (Some n) s' => n = 0 \/ P (take (Z.to_nat n) (io_buf s'))
  | _ => True
  end.

Lemma answers_bind {A A'} (m : M B A) (f : A -> M B A') :
  answers m -> (forall a, answers (f a)) -> answers (m ≫= f).
Proof.
  intros Hm Hf s. specialize (Hm s). unfold mbind, M_bind. destruct (m s) as [a s'| |]; [|done|done]. apply Hf.
Qed.

Lemma answers_lift {A A'} (c : rust A) (f : A -> M B A') :
  (forall a, c = Val a -> answers (f a)) -> answers (lift c ≫= f).
Proof. intros Hf s. unfold mbind, M_bind, lift. destruct c as [a|]; [|done]. by apply (Hf a). Qed.

(** Steps that go on, or stop with an empty answer. *)
Lemma answers_silent {A} (m : M B A) :
  (forall s, match m s with Return (Some n) _ => n = 0 | _ => True end) -> answers m.
Proof. intros Hm s. specialize (Hm s). destruct (m s) as [|[n|]|]; [done|by left|done..]. Qed.

Lemma answers_copy_out {A} bs : P bs -> answers (copy_out (A:=A) bs).
Proof.
  intros HP s. unfold copy_out. destruct (Z.ltb_spec (len (io_buf s)) (len bs)); [done|]. right. cbn.
  rewrite Nat2Z.id. unfold write_at. rewrite take_0. by rewrite app_nil_l, take_app_length.
Qed.
End answers.

Section alloc.
Context {host : Type} `{!Frameworks host} `{!HashOrder} `{!Profile}.

Lemma answers_some_or_stop {A} P st (o : option A) : answers P (some_or_stop (host:=host) st o).
Proof. by apply answers_silent; destruct o. Qed.

Lemma answers_call {A} P (c : world host -> rust (A * world host)) : answers P (call c).
Proof. apply answers_silent. intros s. unfold call, mbind, M_bind, get_self, lift. cbn. by destruct (c _) as [[]|]. Qed.

Lemma answers_ensure P key x : answers P (ensure_pixel_buffer (host:=host) key x).
Proof.
  apply answers_silent. intros s. unfold ensure_pixel_buffer, get_machine, mbind, M_bind, get_self, lift. cbn.
  by destruct (vtf_ensure_source_pixel_buffer _ _) as [[[[] ?] ?]|].
Qed.

(** A non-empty answer to [OP_ALLOC_BUFFER] is a reply whose layout [vtf_fill_buffer_layout]
    computed for the pool's geometry. *)
Theorem alloc_replies_computed pl :
  answers (fun bs => exists reply w h pf, bs = bytes_of (A:=AllocBufferReply) reply /\
             vtf_fill_buffer_layout w h pf = Val (abr_layout reply)) (vt_alloc_buffer (host:=host) pl).
Proof.
  unfold vt_alloc_buffer. apply answers_bind; [apply answers_some_or_stop|]. intros payload.
  apply answers_bind; [by apply answers_silent|]. intros b.
  apply answers_bind; [apply answers_some_or_stop|]. intros pool.
  destruct (List.find _ _) as [[id buffer]|]; [|by apply answers_silent].
  apply answers_lift. intros generation _.
  apply answers_bind; [by apply answers_silent|]. intros [].
  apply answers_bind; [apply answers_ensure|]. intros cv.
  apply answers_bind; [apply answers_call|]. intros ?.
  apply answers_bind; [by apply answers_silent|]. intros m.
  apply answers_bind; [by apply answers_silent; case_match|]. intros [].
  apply answers_bind; [apply answers_call|]. intros ?.
  apply answers_lift. intros layout E. apply answers_copy_out. by do 4 eexists.
Qed.
End alloc.
