(* ===== verification/Server.v ===== *)
(** * The worker's connection loop

    [server.rs], [handle_connection]: one backend per accepted connection, a
    24-byte header read, a payload read, [dispatch] into a response buffer
    that is allocated once and reused, and the framed response written back.
    The socket is a [stream]: the bytes the client sends before it closes, the
    bytes it received, and how many more it will accept.  The loop is proved
    to terminate and to refine [serve_spec], which frames the input, hands
    every request to the backend with the buffer as the request before left it,
    and frames the replies. *)

From S2P Require Import Prelude Wire Protocol Backend Stub.

Set Default Goal Selector "!".
Open Scope Z_scope.

Definition VTF_TRANSPORT_STORAGE_CAPACITY : Z := 2 * 1024 * 1024.

(** [tx_room = None]: the client accepts everything. *)
Record stream := Stream {
  rx : list byte;
  tx : list byte;
  tx_room : option nat
}.

Definition read_exact (n : nat) (st : stream) : option (list byte * stream) :=
  if (length (rx st) <? n)%nat then None
  else Some (take n (rx st), Stream (drop n (rx st)) (tx st) (tx_room st)).

Definition write_all (bs : list byte) (st : stream) : bool * stream :=
  match tx_room st with
  | None => (true, Stream (rx st) (tx st ++ bs) None)
  | Some r =>
      if (length bs <=? r)%nat
      then (true, Stream (rx st) (tx st ++ bs) (Some (r - length bs)%nat))
      else (false, Stream (rx st) (tx st ++ take r bs) (Some 0%nat))
  end.

(** How a connection thread ends. *)
Inductive conn_end (B : Type) :=
| Closed (b : B) (st : stream)
| Crashed (st : stream).
Arguments Closed {B}.
Arguments Crashed {B}.

Inductive iteration (B : Type) :=
| Continue (b : B) (buf : list byte) (st : stream)
| Break (e : conn_end B).
Arguments Continue {B}.
Arguments Break {B}.

(** The header the loop sends for a dispatch result. *)
Definition response_header (rq h : MessageHeader) (r : reply) : MessageHeader :=
  let '(output_len, status) :=
    match r with
    | Some n => (n, mh_status h)
    | None => (0, if mh_status h =? 0 then STATUS_UNSUPPORTED_OPCODE else mh_status h)
    end in
  {| mh_version := 1;
     mh_opcode := mh_opcode rq;
     mh_flags := mh_flags h;
     mh_request_id := mh_request_id rq;
     mh_payload_len := wrap 32 output_len;
     mh_status := status |}.

Section server.
Context {B : Type} `{Backend B} `{Profile}.
Context (capacity : Z).

(** The reading half of an iteration; [inr] is a [break]. *)
Definition read_request (st : stream) : (MessageHeader * list byte) * stream + stream :=
  match read_exact (size_of MessageHeader) st with
  | None => inr st
  | Some (header_buf, st1) =>
      let rq := pod_read_unaligned (A:=MessageHeader) header_buf in
      if mh_payload_len rq >? capacity then inr st1 else
      if mh_payload_len rq >? 0 then
        match read_exact (Z.to_nat (mh_payload_len rq)) st1 with
        | None => inr st1
        | Some (payload, st2) => inl (rq, payload, st2)
        end
      else inl (rq, [], st1)
  end.

(** The dispatching and writing half. *)
Definition answer_request (b : B) (buf : list byte) (rq : MessageHeader)
    (payload : list byte) (st : stream) : iteration B :=
  match dispatch _ rq payload (IO b (zeroed MessageHeader) buf) with
  | Panic => Break (Crashed st)
  | Val (r, s) =>
      let output_len := default 0 r in
      let '(sent, st3) := write_all (bytes_of (response_header rq (io_header s) r)) st in
      if negb sent then Break (Closed (io_self s) st3) else
      if output_len >? 0 then
        if output_len >? len (io_buf s) then Break (Crashed st3) else
        let '(sent', st4) := write_all (take (Z.to_nat output_len) (io_buf s)) st3 in
        if negb sent' then Break (Closed (io_self s) st4)
        else Continue (io_self s) (io_buf s) st4
      else Continue (io_self s) (io_buf s) st3
  end.

(** One iteration of the [loop]. *)
Definition serve_one (b : B) (buf : list byte) (st : stream) : iteration B :=
  match read_request st with
  | inr st' => Break (Closed b st')
  | inl (rq, payload, st') => answer_request b buf rq payload st'
  end.

(** [None]: out of fuel. *)
Fixpoint connection_loop (fuel : nat) (b : B) (buf : list byte) (st : stream)
    : option (conn_end B) :=
  match fuel with
  | O => None
  | S fuel' =>
      match serve_one b buf st with
      | Continue b' buf' st' => connection_loop fuel' b' buf' st'
      | Break e => Some e
      end
  end.

(** [blocking] is the result of [set_nonblocking(false)].  Every iteration that
    continues consumes a 24-byte header, so one unit of fuel per input byte and
    one for the final failing read are enough. *)
Definition handle_connection (env : environ) (blocking : bool) (st : stream)
    : option (conn_end B) :=
  if negb blocking then Some (Closed create st) else
  connection_loop (S (length (rx st))) (reset_from_env env create)
    (replicate (Z.to_nat capacity) Byte.x00) st.

(** ** Specification: framed requests, framed replies *)

Definition frame : Type := MessageHeader * list byte.

Definition encode_frame (f : frame) : list byte := bytes_of f.1 ++ f.2.
Definition encode_frames (fs : list frame) : list byte := concat (encode_frame <$> fs).

(** A frame a peer can send: an in-range header whose [payload_len] is the length
    of the payload, within the capacity. *)
Definition frame_ok (f : frame) : bool :=
  pod_ok f.1 && (mh_payload_len f.1 =? len f.2) && (len f.2 <=? capacity).

Fixpoint parse_frames (fuel : nat) (bs : list byte) : list frame :=
  match fuel with
  | O => []
  | S fuel' =>
      if (length bs <? size_of MessageHeader)%nat then [] else
      let h := pod_read_unaligned (take (size_of MessageHeader) bs) in
      let rest := drop (size_of MessageHeader) bs in
      if (mh_payload_len h >? capacity) || (len rest <? mh_payload_len h) then [] else
      let n := Z.to_nat (mh_payload_len h) in
      (h, take n rest) :: parse_frames fuel' (drop n rest)
  end.

Definition requests (bs : list byte) : list frame := parse_frames (S (length bs)) bs.

(** The reply to one request, and the state and the response buffer it leaves. *)
Definition respond (b : B) (buf : list byte) (rq : frame) : option (B * list byte * frame) :=
  match dispatch _ rq.1 rq.2 (IO b (zeroed MessageHeader) buf) with
  | Panic => None
  | Val (r, s) =>
      Some (io_self s, io_buf s,
            (response_header rq.1 (io_header s) r, take (Z.to_nat (default 0 r)) (io_buf s)))
  end.

(** Replies in order, up to the first request that panics the backend; the final
    state is [None] in that case. *)
Fixpoint serve_spec (b : B) (buf : list byte) (rqs : list frame) : list frame * option B :=
  match rqs with
  | [] => ([], Some b)
  | rq :: rqs' =>
      match respond b buf rq with
      | None => ([], None)
      | Some (b', buf', rs) =>
          let '(rss, fin) := serve_spec b' buf' rqs' in (rs :: rss, fin)
      end
  end.

(** The response buffer of a new connection. *)
Definition fresh_buffer : list byte := replicate (Z.to_nat capacity) Byte.x00.

(** What a client that accepts [room] bytes receives of [bs]. *)
Definition accepted (room : option nat) (bs : list byte) : list byte :=
  match room with None => bs | Some r => take r bs end.
End server.

Arguments frame : clear implicits.

(** ** Lemmas on the stream *)

Lemma write_all_sent bs st st' :
  write_all bs st = (true, st') ->
  rx st' = rx st /\ tx st' = tx st ++ bs /\ (tx_room st = None -> tx_room st' = None) /\
  forall bs', accepted (tx_room st) (bs ++ bs') = bs ++ accepted (tx_room st') bs'.
Proof.
  unfold write_all. destruct (tx_room st) as [r|] eqn:Er.
  - destruct (Nat.leb_spec (length bs) r); intros [= <-].
    split_and!; [done..|]. intros bs'. simpl. by rewrite take_app, take_ge by lia.
  - intros [= <-]. by split_and!.
Qed.

Lemma write_all_refused bs st st' :
  write_all bs st = (false, st') ->
  tx_room st <> None /\ forall bs', tx st' = tx st ++ accepted (tx_room st) (bs ++ bs').
Proof.
  unfold write_all. destruct (tx_room st) as [r|] eqn:Er; [|done].
  destruct (Nat.leb_spec (length bs) r); intros [= <-]. split; [done|].
  intros bs'. simpl. by rewrite take_app_le by lia.
Qed.

Lemma encode_frames_cons f fs : encode_frames (f :: fs) = encode_frame f ++ encode_frames fs.
Proof. reflexivity. Qed.

Lemma encode_frames_app fs fs' :
  encode_frames (fs ++ fs') = encode_frames fs ++ encode_frames fs'.
Proof. unfold encode_frames. by rewrite fmap_app, concat_app. Qed.

Definition end_stream {B} (e : conn_end B) : stream :=
  match e with Closed _ st => st | Crashed st => st end.
Definition end_state {B} (e : conn_end B) : option B :=
  match e with Closed b _ => Some b | Crashed _ => None end.

Section refinement.
Context {B : Type} `{Backend B} `{Profile} `{!BackendSound B}.
Context (capacity : Z) (Hcap : 0 <= capacity < 2 ^ 32).
Abbreviation cap_nat := (Z.to_nat capacity).

Lemma header_payload_len_range (h : MessageHeader) :
  pod_ok h = true -> 0 <= mh_payload_len h < 2 ^ 32.
Proof. intros Hh. pod_fields Hh. by apply (uint_ok_spec 4). Qed.

(** What the reply to one request is made of. *)
Lemma respond_sound b buf rq :
  sound_inv b -> length buf = cap_nat -> pod_ok rq.1 = true ->
  match respond b buf rq with
  | None => dispatch _ rq.1 rq.2 (IO b (zeroed MessageHeader) buf) = Panic
  | Some (b', buf', rs) => exists h r,
      dispatch _ rq.1 rq.2 (IO b (zeroed MessageHeader) buf) = Val (r, IO b' h buf') /\
      sound_inv b' /\ pod_ok h = true /\ length buf' = cap_nat /\ 0 <= default 0 r <= capacity /\
      rs = (response_header rq.1 h r, take (Z.to_nat (default 0 r)) buf')
  end.
Proof.
  intros Hb Hbuf Hrq. unfold respond.
  destruct (dispatch _ rq.1 rq.2 _) as [[r [b' h buf']]|] eqn:E; [|done].
  destruct (dispatch_sound _ _ _ _ _ _ _ Hb Hrq (zeroed_ok) E) as (Hb' & Hh & Hl & Hr).
  exists h, r. cbn [io_self io_header io_buf] in *. split_and!; [done..| |lia|lia|done]. congruence.
Qed.

(** Reading one request is parsing one frame. *)
Lemma read_request_spec st :
  match parse_frames capacity 1 (rx st) with
  | [] => exists st', read_request capacity st = inr st' /\ tx st' = tx st
  | rq :: _ =>
      pod_ok rq.1 = true /\ mh_payload_len rq.1 = len rq.2 /\ len rq.2 <= capacity /\
      (size_of MessageHeader + length rq.2 <= length (rx st))%nat /\
      read_request capacity st =
        inl (rq, Stream (drop (size_of MessageHeader + length rq.2) (rx st)) (tx st) (tx_room st))
  end.
Proof.
  cbn [parse_frames]. unfold read_request, read_exact.
  destruct (Nat.ltb_spec (length (rx st)) (size_of MessageHeader)) as [Hl|Hl]; [eauto|].
  set (h := pod_read_unaligned _).
  assert (pod_ok h = true) as Hok by (apply pod_read_ok; rewrite length_take; lia).
  pose proof (header_payload_len_range h Hok) as Hr.
  destruct (Z.gtb_spec (mh_payload_len h) capacity) as [Hc|Hc]; cbn [orb];
    [by eexists|].
  cbn [rx tx tx_room].
  destruct (Z.ltb_spec (len (drop (size_of MessageHeader) (rx st))) (mh_payload_len h)) as [Ht|Ht];
    destruct (Z.gtb_spec (mh_payload_len h) 0) as [Hz|Hz].
  - destruct (Nat.ltb_spec (length (drop (size_of MessageHeader) (rx st)))
                (Z.to_nat (mh_payload_len h))); [eauto|lia].
  - lia.
  - destruct (Nat.ltb_spec (length (drop (size_of MessageHeader) (rx st)))
                (Z.to_nat (mh_payload_len h))); [lia|].
    rewrite length_drop in *. cbn [fst snd].
    rewrite length_take, length_drop, drop_drop, Nat.min_l by lia.
    split_and!; [done|lia..|done].
  - assert (mh_payload_len h = 0) as E by lia. rewrite E. change (Z.to_nat 0) with 0%nat.
    rewrite take_0. cbn [fst snd length]. split_and!; [done|lia..|].
    by rewrite Nat.add_0_r.
Qed.

(** The two writes of a response put its frame on the wire. *)
Lemma answer_request_spec b buf rq pl st :
  sound_inv b -> length buf = cap_nat -> pod_ok rq = true ->
  match respond b buf (rq, pl) with
  | None => answer_request b buf rq pl st = Break (Crashed st)
  | Some (b', buf', rs) =>
      sound_inv b' /\ length buf' = cap_nat /\
      ((exists st', answer_request b buf rq pl st = Continue b' buf' st' /\
          tx st' = tx st ++ encode_frame rs /\ rx st' = rx st /\
          (tx_room st = None -> tx_room st' = None) /\
          forall bs, accepted (tx_room st) (encode_frame rs ++ bs)
                     = encode_frame rs ++ accepted (tx_room st') bs) \/
       (exists st', answer_request b buf rq pl st = Break (Closed b' st') /\
          tx_room st <> None /\
          forall bs, tx st' = tx st ++ accepted (tx_room st) (encode_frame rs ++ bs)))
  end.
Proof.
  intros Hb Hbuf Hrq. pose proof (respond_sound b buf (rq, pl) Hb Hbuf Hrq) as Hs.
  cbn [fst snd] in Hs. unfold answer_request.
  destruct (respond b buf (rq, pl)) as [[[b' buf'] rs]|]; [|by rewrite Hs].
  destruct Hs as (h & r & Hd & Hb' & Hh & Hl & Hr & ->).
  split_and!; [done|done|]. rewrite Hd. cbn [io_self io_header io_buf].
  set (hdr := response_header rq h r). set (body := take (Z.to_nat (default 0 r)) buf').
  destruct (write_all (bytes_of hdr) st) as [[] st3] eqn:E3; cbn [negb].
  2: { right. apply write_all_refused in E3 as [Hn E3]. exists st3. split_and!; [done|done|].
       intros bs. rewrite (E3 (body ++ bs)). unfold encode_frame. cbn. by rewrite <- app_assoc. }
  apply write_all_sent in E3 as (Hrx & Htx & Hroom & Hacc).
  destruct (Z.gtb_spec (default 0 r) 0) as [Hz|Hz].
  - destruct (Z.gtb_spec (default 0 r) (len buf')); [lia|].
    destruct (write_all body st3) as [[] st4] eqn:E4; cbn [negb].
    + left. apply write_all_sent in E4 as (Hrx' & Htx' & Hroom' & Hacc').
      exists st4. split_and!; [done| |congruence|auto|].
      * rewrite Htx', Htx. unfold encode_frame. cbn. by rewrite <- app_assoc.
      * intros bs'. unfold encode_frame. cbn [fst snd]. rewrite <- !app_assoc.
        by rewrite Hacc, Hacc'.
    + right. apply write_all_refused in E4 as [Hn E4]. exists st4. split_and!; [done|auto|].
      intros bs'. unfold encode_frame. cbn [fst snd]. rewrite <- !app_assoc.
      rewrite Hacc, (E4 bs'), Htx. by rewrite <- app_assoc.
  - left. exists st3. assert (body = []) as -> by (unfold body; by rewrite (Z2Nat.nonpos (default 0 r))).
    unfold encode_frame. cbn [fst snd]. rewrite app_nil_r. by split_and!.
Qed.

(** Fuel beyond the input length changes nothing. *)
Lemma parse_frames_fuel n m bs :
  (length bs < n)%nat -> (length bs < m)%nat ->
  parse_frames capacity n bs = parse_frames capacity m bs.
Proof.
  revert m bs. induction n as [|n IH]; intros [|m] bs Hn Hm; [lia..|].
  cbn [parse_frames]. destruct (Nat.ltb_spec (length bs) (size_of MessageHeader)); [done|].
  case_if; [done|]. f_equal. assert (0 < size_of MessageHeader)%nat by (cbn; lia).
  apply IH; rewrite !length_drop; lia.
Qed.

Lemma parse_frames_cons n bs :
  parse_frames capacity (S n) bs =
  match parse_frames capacity 1 bs with
  | [] => []
  | rq :: _ =>
      rq :: parse_frames capacity n (drop (size_of MessageHeader + length rq.2) bs)
  end.
Proof.
  cbn [parse_frames]. destruct (Nat.ltb_spec (length bs) (size_of MessageHeader)) as [|Hl]; [done|].
  set (h := pod_read_unaligned _).
  assert (pod_ok h = true) as Hok by (apply pod_read_ok; rewrite length_take; lia).
  pose proof (header_payload_len_range h Hok).
  destruct (_ || _) eqn:E; [done|]. zbool. cbn [snd]. f_equal.
  rewrite drop_drop, length_take. do 2 f_equal. lia.
Qed.

Lemma serve_spec_cons b buf rq rqs :
  serve_spec b buf (rq :: rqs) =
  match respond b buf rq with
  | None => ([], None)
  | Some (b', buf', rs) => let '(rss, fin) := serve_spec b' buf' rqs in (rs :: rss, fin)
  end.
Proof. reflexivity. Qed.

Lemma accepted_nil room : accepted room [] = [].
Proof. destruct room; simpl; [apply take_nil|done]. Qed.

Lemma connection_loop_spec fuel b buf st :
  sound_inv b -> length buf = cap_nat -> (length (rx st) < fuel)%nat ->
  exists e, connection_loop capacity fuel b buf st = Some e /\
    tx (end_stream e) = tx st ++
      accepted (tx_room st) (encode_frames (serve_spec b buf (parse_frames capacity fuel (rx st))).1) /\
    (tx_room st = None ->
     end_state e = (serve_spec b buf (parse_frames capacity fuel (rx st))).2).
Proof.
  revert b buf st. induction fuel as [|fuel IH]; intros b buf st Hb Hbuf Hf; [lia|].
  rewrite parse_frames_cons. cbn [connection_loop]. unfold serve_one.
  pose proof (read_request_spec st) as Hrd.
  destruct (parse_frames capacity 1 (rx st)) as [|rq ?].
  { destruct Hrd as (st' & -> & Htx). eexists. split_and!; [done| |done].
    cbn. by rewrite accepted_nil, app_nil_r. }
  destruct Hrd as (Hok & _ & _ & Hlen & ->). destruct rq as [rq pl]. cbn [fst snd] in *.
  rewrite serve_spec_cons.
  set (st1 := Stream _ (tx st) (tx_room st)).
  pose proof (answer_request_spec b buf rq pl st1 Hb Hbuf Hok) as Ha.
  destruct (respond b buf (rq, pl)) as [[[b' buf'] rs]|].
  2: { rewrite Ha. eexists. split_and!; [done| |done].
       cbn. by rewrite accepted_nil, app_nil_r. }
  destruct Ha as (Hb' & Hbuf' & [(st' & -> & Htx & Hrx & Hroom & Hacc)|(st' & -> & Hroom & Htx)]).
  - assert (0 < size_of MessageHeader)%nat by (cbn; lia).
    destruct (IH b' buf' st' Hb' Hbuf') as (e & He & Hetx & Hest).
    { rewrite Hrx. subst st1. cbn. rewrite length_drop. lia. }
    rewrite Hrx in Hetx, Hest. subst st1. cbn [rx tx tx_room] in *.
    destruct (serve_spec b' buf' _) as [rss fin]. cbn [fst snd] in *.
    exists e. split_and!; [done| |].
    + rewrite Hetx, Htx, encode_frames_cons, Hacc. by rewrite <- app_assoc.
    + auto.
  - destruct (serve_spec b' buf' _) as [rss fin]. cbn [fst snd] in *.
    eexists. split_and!; [done| |].
    + cbn [end_stream]. by rewrite (Htx (encode_frames rss)), encode_frames_cons.
    + intros Hn. subst st1. done.
Qed.

(** ** Framing *)

Lemma frame_ok_spec f :
  frame_ok capacity f = true <->
  pod_ok f.1 = true /\ mh_payload_len f.1 = len f.2 /\ len f.2 <= capacity.
Proof. unfold frame_ok. rewrite !andb_true_iff, Z.eqb_eq, Z.leb_le. tauto. Qed.

Lemma parse_frames_encode_cons n f rest :
  frame_ok capacity f = true ->
  parse_frames capacity (S n) (encode_frame f ++ rest) = f :: parse_frames capacity n rest.
Proof.
  intros (Hok & Hlen & Hc)%frame_ok_spec. destruct f as [h pl]. cbn [fst snd] in *.
  pose proof (length_bytes_of h Hok) as Hh. unfold encode_frame. cbn [fst snd].
  rewrite <- app_assoc. cbn [parse_frames].
  destruct (Nat.ltb_spec (length (bytes_of h ++ pl ++ rest)) (size_of MessageHeader));
    [rewrite length_app in *; lia|].
  rewrite take_app_length', drop_app_length' by done. rewrite pod_read_bytes_of by done.
  rewrite Hlen, Nat2Z.id, take_app_length, drop_app_length.
  destruct (_ || _) eqn:E; [|done]. exfalso. rewrite length_app in E.
  apply orb_true_iff in E as [E|E]; [apply Z.gtb_lt in E; lia|zbool].
Qed.

Lemma encode_frame_length f :
  frame_ok capacity f = true -> (0 < length (encode_frame f))%nat.
Proof.
  intros (Hok & _)%frame_ok_spec. unfold encode_frame.
  rewrite length_app, length_bytes_of by done. cbn. lia.
Qed.

(** Well-formed frames parse back, whatever follows them. *)
Lemma requests_encode fs rest :
  Forall (fun f => frame_ok capacity f = true) fs ->
  requests capacity (encode_frames fs ++ rest) = fs ++ requests capacity rest.
Proof.
  intros Hfs. unfold requests.
  remember (S (length (encode_frames fs ++ rest))) as n eqn:Hn.
  assert (length (encode_frames fs ++ rest) < n)%nat as Hlt by lia. clear Hn.
  revert n Hlt. induction Hfs as [|f fs Hf _ IH]; intros n Hlt.
  - change (encode_frames [] ++ rest) with rest in *. rewrite app_nil_l.
    apply parse_frames_fuel; lia.
  - destruct n as [|n]; [lia|]. rewrite encode_frames_cons in *.
    pose proof (encode_frame_length f Hf). rewrite <- app_assoc in *.
    rewrite parse_frames_encode_cons by done. simpl. f_equal. apply IH.
    rewrite !length_app in *. lia.
Qed.

Lemma requests_nil : requests capacity [] = [].
Proof. reflexivity. Qed.

Lemma requests_oversized h rest :
  pod_ok h = true -> capacity < mh_payload_len h ->
  requests capacity (bytes_of h ++ rest) = [].
Proof.
  intros Hok Hbig. unfold requests. cbn [parse_frames].
  pose proof (length_bytes_of h Hok). case_if; [done|].
  rewrite take_app_length' by done. rewrite pod_read_bytes_of by done.
  assert ((mh_payload_len h >? capacity) = true) as -> by (apply Z.gtb_lt; lia). done.
Qed.

(** A response answers its request. *)
Definition answers (rq rs : frame) : Prop :=
  mh_version rs.1 = VTF_TRANSPORT_VERSION /\ mh_opcode rs.1 = mh_opcode rq.1 /\
  mh_request_id rs.1 = mh_request_id rq.1 /\ frame_ok capacity rs = true.

Lemma respond_answers b buf rq b' buf' rs :
  sound_inv b -> length buf = cap_nat -> pod_ok rq.1 = true ->
  respond b buf rq = Some (b', buf', rs) ->
  sound_inv b' /\ length buf' = cap_nat /\ answers rq rs.
Proof.
  intros Hb Hbuf Hrq Hr. pose proof (respond_sound b buf rq Hb Hbuf Hrq) as Hs. rewrite Hr in Hs.
  destruct Hs as (h & r & _ & Hb' & Hh & Hl & Hlen & ->). split_and!; [done|done|].
  set (body := take (Z.to_nat (default 0 r)) buf').
  assert (len body = default 0 r) as Hbl by (unfold body; rewrite length_take; lia).
  assert (mh_payload_len (response_header rq.1 h r) = len body) as Hp.
  { rewrite Hbl. destruct r as [n|]; simpl in *; [|done]. apply Z.mod_small. lia. }
  unfold answers. split_and!; [by destruct r..|].
  apply frame_ok_spec. split_and!; [|done|cbn [snd]; lia].
  cbn [fst snd] in *. clear Hp. pod_fields Hrq. pod_fields Hh.
  assert (uint_ok 4 (wrap 32 (default 0 r)) = true) by (apply (uint_ok_spec 4), Z.mod_pos_bound; lia).
  unfold response_header in *. destruct r as [n|]; cbn [default] in *; pod_ok_split;
    try assumption; try uint_range.
  case_if; [reflexivity|assumption].
Qed.

Lemma serve_spec_answers b buf rqs :
  sound_inv b -> length buf = cap_nat -> Forall (fun rq => pod_ok rq.1 = true) rqs ->
  Forall2 answers (take (length (serve_spec b buf rqs).1) rqs) (serve_spec b buf rqs).1 /\
  ((serve_spec b buf rqs).2 <> None -> length (serve_spec b buf rqs).1 = length rqs).
Proof.
  intros Hb Hbuf Hrqs. revert b buf Hb Hbuf. induction Hrqs as [|rq rqs Hrq _ IH]; intros b buf Hb Hbuf.
  { by split; [constructor|]. }
  rewrite serve_spec_cons. destruct (respond b buf rq) as [[[b' buf'] rs]|] eqn:Er.
  - destruct (respond_answers _ _ _ _ _ _ Hb Hbuf Hrq Er) as (Hb' & Hbuf' & Ha).
    destruct (IH b' buf' Hb' Hbuf') as [IHa IHl]. destruct (serve_spec b' buf' rqs). simpl in *.
    split; [by constructor|]. intros Hn. by rewrite IHl.
  - by split; [constructor|].
Qed.

(** Requests that do not panic are served one after the other, and the loop goes on with
    what follows them. *)
Lemma connection_loop_prefix rqs : forall fuel b buf rest out,
  sound_inv b -> length buf = cap_nat -> Forall (fun f => frame_ok capacity f = true) rqs ->
  (length rqs <= fuel)%nat ->
  match (serve_spec b buf rqs).2 with
  | Some b' => exists buf', length buf' = cap_nat /\
      connection_loop capacity fuel b buf (Stream (encode_frames rqs ++ rest) out None) =
      connection_loop capacity (fuel - length rqs) b' buf'
        (Stream rest (out ++ encode_frames (serve_spec b buf rqs).1) None)
  | None => exists st, connection_loop capacity fuel b buf (Stream (encode_frames rqs ++ rest) out None) =
      Some (Crashed st) /\ tx st = out ++ encode_frames (serve_spec b buf rqs).1
  end.
Proof.
  induction rqs as [|rq rqs IH]; intros fuel b buf rest out Hb Hbuf Hok Hf.
  { cbn. exists buf. rewrite Nat.sub_0_r, app_nil_r. done. }
  apply list.Forall_cons in Hok as [Hrq Hok]. destruct fuel as [|fuel]; [simpl in Hf; lia|].
  pose proof (parse_frames_encode_cons 0 rq (encode_frames rqs ++ rest) Hrq) as Hp.
  apply frame_ok_spec in Hrq as (Hpod & Hlen & Hcp). destruct rq as [h pl]. cbn [fst snd] in *.
  rewrite encode_frames_cons, <- app_assoc. cbn [connection_loop]. unfold serve_one.
  pose proof (read_request_spec (Stream (encode_frame (h, pl) ++ encode_frames rqs ++ rest) out None)) as Hrd.
  cbn [rx tx tx_room] in Hrd. rewrite Hp in Hrd. destruct Hrd as (_ & _ & _ & _ & ->). cbn [snd].
  assert (drop (size_of MessageHeader + length pl) (encode_frame (h, pl) ++ encode_frames rqs ++ rest) =
    encode_frames rqs ++ rest) as ->.
  { rewrite drop_app_length'; [done|]. unfold encode_frame. rewrite length_app, length_bytes_of by done. done. }
  rewrite serve_spec_cons.
  pose proof (answer_request_spec b buf h pl (Stream (encode_frames rqs ++ rest) out None) Hb Hbuf Hpod) as Ha.
  destruct (respond b buf (h, pl)) as [[[b' buf'] rs]|].
  2: { rewrite Ha. cbn [snd fst]. eexists. split; [done|]. cbn. by rewrite app_nil_r. }
  destruct Ha as (Hb' & Hbuf' & [(st' & -> & Htx & Hrx & Hroom & _)|(st' & _ & Hroom & _)]); [|done].
  destruct st' as [rx' tx' room']. cbn [rx tx tx_room] in *. rewrite Hrx, (Hroom eq_refl), Htx.
  specialize (IH fuel b' buf' rest (out ++ encode_frame rs) Hb' Hbuf' Hok ltac:(simpl in Hf; lia)).
  destruct (serve_spec b' buf' rqs) as [rss [fin|]]; cbn [fst snd] in *.
  - destruct IH as (buf2 & Hl & E). exists buf2. split; [done|]. cbn [length]. rewrite E.
    rewrite encode_frames_cons, app_assoc. do 2 f_equal.
  - destruct IH as (st & E & Et). exists st. split; [done|]. by rewrite Et, encode_frames_cons, app_assoc.
Qed.
End refinement.

(** ** Properties *)

Section properties.
Context {B : Type} `{Backend B} `{Profile} `{!BackendSound B}.
Context (capacity : Z).

Definition start (env : environ) : B := reset_from_env env create.

Lemma fresh_length : length (fresh_buffer capacity) = Z.to_nat capacity.
Proof. apply length_replicate. Qed.

Lemma start_sound env : sound_inv (start env).
Proof. by apply sound_reset, sound_create. Qed.

Lemma handle_connection_spec env st :
  0 <= capacity < 2 ^ 32 ->
  exists e : conn_end B, handle_connection capacity env true st = Some e /\
    tx (end_stream e) = tx st ++
      accepted (tx_room st)
        (encode_frames (serve_spec (start env) (fresh_buffer capacity) (requests capacity (rx st))).1) /\
    (tx_room st = None ->
     end_state e = (serve_spec (start env) (fresh_buffer capacity) (requests capacity (rx st))).2).
Proof.
  intros Hcap. unfold handle_connection, requests. cbn [negb].
  apply connection_loop_spec; [lia|apply start_sound|apply fresh_length|lia].
Qed.

(** C1: the connection loop refines its specification, for every backend that keeps its
    replies within the response buffer ([BackendSound]: the stub, the mock and the
    VideoToolbox backend).  It terminates on every input, and the client receives exactly
    the encoding of [serve_spec]'s replies to the requests framed in its input (a prefix
    of it when the client stops accepting): one dispatch per request, each with the state
    and the response buffer the one before left.  A client that reads everything leaves
    the backend in the specification's final state, [None] when a request panicked the
    thread. *)
Theorem handle_connection_refines env st :
  0 <= capacity < 2 ^ 32 ->
  exists e : conn_end B, handle_connection capacity env true st = Some e /\
    tx (end_stream e) = tx st ++
      accepted (tx_room st)
        (encode_frames (serve_spec (start env) (fresh_buffer capacity) (requests capacity (rx st))).1) /\
    (tx_room st = None ->
     end_state e = (serve_spec (start env) (fresh_buffer capacity) (requests capacity (rx st))).2).
Proof. apply handle_connection_spec. Qed.

(** One reply per request, in order: when a client sends well-formed
    requests and none panics the backend, parsing what it receives yields
    as many frames as it sent, the i-th carrying the i-th request's opcode
    and request id, version 1, and a [payload_len] that is the length of the
    payload that follows. *)
Theorem one_reply_per_request env rqs :
  0 <= capacity < 2 ^ 32 ->
  Forall (fun f => frame_ok capacity f = true) rqs ->
  (serve_spec (start env) (fresh_buffer capacity) rqs).2 <> None ->
  exists e : conn_end B,
    handle_connection capacity env true (Stream (encode_frames rqs) [] None) = Some e /\
    Forall2 (answers capacity) rqs (requests capacity (tx (end_stream e))).
Proof.
  intros Hcap Hrqs Hfin.
  destruct (handle_connection_spec env (Stream (encode_frames rqs) [] None) Hcap)
    as (e & He & Htx & _). exists e. split; [done|].
  assert (requests capacity (encode_frames rqs) = rqs) as Hreq.
  { rewrite <- (app_nil_r (encode_frames rqs)).
    rewrite requests_encode by done. by rewrite requests_nil, app_nil_r. }
  cbn [rx tx tx_room accepted] in Htx. rewrite Hreq in Htx.
  assert (Forall (fun rq => pod_ok rq.1 = true) rqs) as Hpods
    by (revert Hrqs; apply Forall_impl; intros f Hf; by apply frame_ok_spec in Hf as [? _]).
  destruct (serve_spec_answers capacity Hcap (start env) (fresh_buffer capacity) rqs) as [Ha Hl];
    [apply start_sound|apply fresh_length|done|].
  specialize (Hl Hfin). rewrite Hl, take_ge in Ha by done.
  rewrite Htx, app_nil_l. rewrite <- (app_nil_r (encode_frames _)), requests_encode.
  - by rewrite requests_nil, app_nil_r.
  - done.
  - apply Forall_lookup. intros i rs Hi.
    destruct (Forall2_lookup_r _ _ _ _ _ Ha Hi) as (rq & _ & Hans). apply Hans.
Qed.

(** C37: an oversized request closes the connection. After requests that are
    served, a header whose [payload_len] exceeds the transport capacity is
    read, but neither dispatched nor answered: the loop ends, the client has
    the replies to the requests before it, the backend is in the state they
    left, and all that follows the header, its payload included, is still
    unread. For every backend that keeps its replies within the response
    buffer ([BackendSound]: the stub, the mock and the VideoToolbox backend).
    *)
Theorem oversized_request_closes env rqs h rest b :
  0 <= capacity < 2 ^ 32 ->
  Forall (fun f => frame_ok capacity f = true) rqs ->
  (serve_spec (start env) (fresh_buffer capacity) rqs).2 = Some b ->
  pod_ok h = true -> capacity < mh_payload_len h ->
  handle_connection capacity env true
    (Stream (encode_frames rqs ++ bytes_of h ++ rest) [] None) =
  Some (Closed b (Stream rest
    (encode_frames (serve_spec (start env) (fresh_buffer capacity) rqs).1) None)).
Proof.
  intros Hcap Hrqs Hfin Hh Hbig. unfold handle_connection. cbn [negb rx].
  assert (length rqs <= length (encode_frames rqs))%nat as Hle.
  { clear -Hrqs Hcap. induction Hrqs as [|f fs Hf _ IH]; [simpl; lia|].
    pose proof (encode_frame_length capacity Hcap f Hf). rewrite encode_frames_cons, length_app. simpl. lia. }
  pose proof (length_bytes_of h Hh) as Hhl.
  set (fuel := S (length (encode_frames rqs ++ bytes_of h ++ rest))).
  assert (exists k, fuel - length rqs = S k)%nat as [k Hk].
  { exists (fuel - length rqs - 1)%nat. unfold fuel. rewrite length_app. lia. }
  pose proof (connection_loop_prefix capacity Hcap rqs fuel (start env) (fresh_buffer capacity)
    (bytes_of h ++ rest) [] (start_sound env) fresh_length Hrqs ltac:(unfold fuel; rewrite length_app; lia)) as Hp.
  rewrite Hfin in Hp. destruct Hp as (buf' & _ & E). unfold fresh_buffer, start in *. rewrite E, Hk. cbn [connection_loop].
  unfold serve_one, read_request, read_exact. cbn [rx tx tx_room].
  destruct (Nat.ltb_spec (length (bytes_of h ++ rest)) (size_of MessageHeader));
    [rewrite length_app in *; lia|].
  rewrite take_app_length', drop_app_length' by done. rewrite pod_read_bytes_of by done.
  by rewrite (proj2 (Z.gtb_lt _ _)) by lia.
Qed.

(** A failed dispatch is never reported as success: whatever the
    backend left in the response header, an [Err] is answered with a non-zero
    status and no payload. *)
Theorem error_reply_has_status b buf rq s :
  dispatch _ rq.1 rq.2 (IO b (zeroed MessageHeader) buf) = Val (None, s) ->
  exists rs, respond b buf rq = Some (io_self s, io_buf s, rs) /\
    mh_status rs.1 <> STATUS_OK /\ mh_payload_len rs.1 = 0 /\ rs.2 = [].
Proof.
  intros Hd. unfold respond. rewrite Hd. eexists. split; [done|]. cbn.
  split_and!; [|done|done]. destruct (mh_status (io_header s) =? 0) eqn:E; [done|].
  by apply Z.eqb_neq in E.
Qed.
End properties.

(** A HELLO, an unknown opcode, then a half header. *)
Definition demo_header (op id n : Z) : MessageHeader :=
  {| mh_version := 1; mh_opcode := op; mh_flags := 0; mh_request_id := id;
     mh_payload_len := n; mh_status := 0 |}.
Definition demo_requests : list frame :=
  [(demo_header OP_HELLO 7 0, []); (demo_header 0x00ff 8 3, [Byte.x01; Byte.x02; Byte.x03])].

Definition no_env : environ := fun _ => None.

Lemma handle_connection_refines_witness :
  exists e, @handle_connection VtStubBackend _ debug_build 4096 no_env true
      (Stream (encode_frames demo_requests ++ [Byte.x01]) [] (Some 100%nat)) = Some e /\
    length (tx (end_stream e)) = 96%nat.
Proof.
  destruct (handle_connection_refines (B:=VtStubBackend) (H0:=debug_build) 4096 no_env
              (Stream (encode_frames demo_requests ++ [Byte.x01]) [] (Some 100%nat)))
    as (e & He & Htx & _); [lia|].
  exists e. split; [exact He|]. rewrite Htx. vm_compute. reflexivity.
Defined.

Lemma one_reply_per_request_witness :
  exists e, @handle_connection VtStubBackend _ debug_build 4096 no_env true
      (Stream (encode_frames demo_requests) [] None) = Some e /\
    Forall2 (answers 4096) demo_requests (requests 4096 (tx (end_stream e))).
Proof.
  apply (one_reply_per_request (B:=VtStubBackend) (H0:=debug_build) 4096 no_env demo_requests).
  - lia.
  - repeat constructor; vm_compute; reflexivity.
  - vm_compute. discriminate.
Defined.

Lemma oversized_request_closes_witness :
  exists tx, @handle_connection VtStubBackend _ debug_build 4096 no_env true
      (Stream (encode_frames demo_requests ++
               bytes_of (demo_header OP_WRITE_BUFFER 9 5000) ++ encode_frames demo_requests)
         [] None) = Some (Closed tt (Stream (encode_frames demo_requests) tx None)) /\
    length tx = 96%nat.
Proof.
  eexists. split.
  - apply (oversized_request_closes (B:=VtStubBackend) (H0:=debug_build) 4096 no_env demo_requests
             (demo_header OP_WRITE_BUFFER 9 5000) (encode_frames demo_requests) tt).
    + lia.
    + repeat constructor; vm_compute; reflexivity.
    + vm_compute. reflexivity.
    + reflexivity.
    + vm_compute. reflexivity.
  - vm_compute. reflexivity.
Defined.

Lemma error_reply_has_status_witness :
  exists rs, @respond VtStubBackend _ debug_build tt (replicate 64 Byte.x00) (demo_header 0x00ff 8 0, [])
      = Some (tt, replicate 64 Byte.x00, rs) /\
    mh_status rs.1 <> STATUS_OK /\ mh_payload_len rs.1 = 0 /\ rs.2 = [].
Proof.
  apply (error_reply_has_status (B:=VtStubBackend) (H0:=debug_build) tt (replicate 64 Byte.x00)
           (demo_header 0x00ff 8 0, []) (IO tt (demo_header 0x00ff 8 0) (replicate 64 Byte.x00))).
  vm_compute. reflexivity.
Defined.

(** ** Backends that do not look at the response buffer *)

Section pure.
Context {B : Type} `{Backend B} `{Profile} `{!BackendSpec B}.

(** For the stub and the mock no stale byte reaches the wire: the replies are those to
    zeroed buffers. *)
Lemma respond_pure (b : B) buf buf0 rq :
  backend_inv b -> pod_ok rq.1 = true -> length buf0 = length buf ->
  match respond b buf0 rq with
  | None => respond b buf rq = None
  | Some (b', _, rs) => backend_inv b' /\ exists buf', length buf' = length buf /\
      respond b buf rq = Some (b', buf', rs)
  end.
Proof.
  intros Hb Hrq Hl. unfold respond.
  destruct (dispatch_spec rq.1 rq.2 b (zeroed MessageHeader) (length buf) Hb Hrq (zeroed_ok))
    as [Hp|(o & b' & h' & Hb' & _ & Hlo & Hd)]; [by rewrite !Hp|].
  rewrite !Hd by done. cbn [io_self io_header io_buf]. split; [done|].
  exists (write_reply o buf). split.
  - destruct o as [bs|]; simpl; [|done]. apply length_write_at. specialize (Hlo _ eq_refl). lia.
  - do 3 f_equal. destruct o as [bs|]; simpl; [|done]. by rewrite Nat2Z.id, !take_write_at_0.
Qed.

Theorem no_stale_bytes rqs : forall (b : B) buf buf0,
  backend_inv b -> Forall (fun rq => pod_ok rq.1 = true) rqs -> length buf0 = length buf ->
  serve_spec b buf rqs = serve_spec b buf0 rqs.
Proof.
  induction rqs as [|rq rqs IH]; intros b buf buf0 Hb Hrqs Hl; [done|].
  apply list.Forall_cons in Hrqs as [Hrq Hrqs]. cbn [serve_spec].
  pose proof (respond_pure b buf buf0 rq Hb Hrq Hl) as Hp.
  pose proof (respond_pure b buf0 buf rq Hb Hrq (eq_sym Hl)) as Hq.
  destruct (respond b buf0 rq) as [[[b' buf1] rs]|]; [|by rewrite Hp].
  destruct Hp as (Hb' & buf2 & Hl2 & E). rewrite E in Hq |- *. destruct Hq as (_ & buf3 & Hl3 & [= ->]).
  rewrite (IH b' buf2 buf3); [done|done|done|]. congruence.
Qed.
End pure.
