(* ===== verification/Transport.v ===== *)
(** * The guest's transport

    [vt-ferry-shim/src/transport.rs]: the client side of the connection.  One
    process-wide connection ([TRANSPORT_BACKEND]) carries all requests; an I/O
    error poisons it, after which the transport is killed for good
    ([TRANSPORT_KILLED]).  Large buffers and frames are cut into chunks, output
    releases can be deferred and batched.  The socket calls of the operating
    system are the class [Net]; [api_call] lists the entry points the rest of
    the shim uses. *)

From S2P Require Import Prelude Wire Protocol Backend.
From stdpp Require Import strings.

Set Default Goal Selector "!".
Open Scope Z_scope.

Definition VSOCK_PORT_DEFAULT : Z := 6600.
Definition TCP_HOST_DEFAULT : string := "127.0.0.1".
Definition TCP_PORT_DEFAULT : Z := 6600.
Definition WRITE_BUFFER_CHUNK_BYTES : Z := 1024 * 1024.
Definition TRANSPORT_TIMEOUT_MS_DEFAULT : Z := 60000.
Definition HEARTBEAT_INTERVAL_MS_DEFAULT : Z := 10000.

(** [kVTParameterErr], the status of a request that never reached the worker. *)
Definition TRANSPORT_ERROR : Z := -12902.

Inductive StreamSelection :=
| Tcp (host : string) (port : Z)
| Vsock (port : Z).

(** ** The operating system

    A connected socket is a file descriptor; [net_connect] covers name
    resolution, [connect] and the socket flags.  [net_now] is [Instant::now] in
    nanoseconds. *)
Class Net (os : Type) := {
  net_connect : StreamSelection -> os -> option Z * os;
  net_setsockopt : Z -> Z -> Z * Z -> os -> bool * os;
  net_write_all : Z -> list byte -> os -> bool * os;
  net_read_exact : Z -> nat -> os -> option (list byte) * os;
  net_now : os -> Z
}.

(** Option names of [setsockopt] on Linux. *)
Definition SO_RCVTIMEO : Z := 20.
Definition SO_SNDTIMEO : Z := 21.

Record StreamBackend := mk_StreamBackend {
  sb_stream : Z;
  sb_request_id : Z;
  sb_poisoned : bool;
  sb_last_activity : Z
}.

(** The statics of the module and the operating system.  [tp_heartbeat] is the
    [OnceLock] of the heartbeat thread: not decided, disabled, or its interval
    and staleness threshold. *)
Record transport (os : Type) := mk_transport {
  tp_backend : option StreamBackend;
  tp_killed : bool;
  tp_deferred : list Z;
  tp_heartbeat : option (option (Z * Z));
  tp_os : os
}.
Arguments mk_transport {os}.
Arguments tp_backend {os}.
Arguments tp_killed {os}.
Arguments tp_deferred {os}.
Arguments tp_heartbeat {os}.
Arguments tp_os {os}.

(** [Result<A, i32>] over the transport, or a panic. *)
Definition T (os A : Type) : Type := transport os -> rust ((A + Z) * transport os).
#[export] Instance T_ret {os} : MRet (T os) := fun A a t => Val (inl a, t).
#[export] Instance T_bind {os} : MBind (T os) := fun A B f m t =>
  match m t with
  | Val (inl a, t') => f a t'
  | Val (inr e, t') => Val (inr e, t')
  | Panic => Panic
  end.
Definition T_err {os A} (status : Z) : T os A := fun t => Val (inr status, t).

Section transport.
Context {os : Type} `{!Net os} `{!Profile} (env : environ).
Abbreviation transport := (transport os).
Abbreviation T := (T os).

(** ** Configuration *)

Definition transport_timeout_ms : Z :=
  default TRANSPORT_TIMEOUT_MS_DEFAULT
    (value ← env "VT_FERRY_TRANSPORT_TIMEOUT_MS"; parse_unsigned 64 value).

Definition heartbeat_interval_ms : Z :=
  default HEARTBEAT_INTERVAL_MS_DEFAULT
    (value ← env "VT_FERRY_HEARTBEAT_INTERVAL_MS"; parse_unsigned 64 value).

Definition tcp_endpoint_from_env : StreamSelection :=
  Tcp (default TCP_HOST_DEFAULT (env "VT_FERRY_TCP_HOST"))
      (default TCP_PORT_DEFAULT (value ← env "VT_FERRY_TCP_PORT"; parse_unsigned 16 value)).

Definition vsock_port_from_env : option Z :=
  port ← env "VT_FERRY_VSOCK_PORT"; parse_unsigned 32 port.

Definition stream_selection_from_env : option StreamSelection :=
  if bool_decide (env "VT_FERRY_TRANSPORT" = Some "tcp") then Some tcp_endpoint_from_env
  else if bool_decide (env "VT_FERRY_TRANSPORT" = Some "vsock") then
    Some (Vsock (default VSOCK_PORT_DEFAULT vsock_port_from_env))
  else if bool_decide (is_Some (env "VT_FERRY_TCP_PORT")) then Some tcp_endpoint_from_env
  else Vsock <$> vsock_port_from_env.

Definition is_enabled : bool := bool_decide (is_Some stream_selection_from_env).

(** [std::env::var(name).map(|value| value != "0").unwrap_or(false)] *)
Definition env_flag (name : string) : bool :=
  match env name with Some value => negb (bool_decide (value = "0")) | None => false end.

Definition defer_output_releases_enabled : bool := env_flag "VT_FERRY_DEFER_OUTPUT_RELEASES".

Definition drop_deferred_output_releases_on_destroy_enabled : bool :=
  env_flag "VT_FERRY_DROP_DEFERRED_OUTPUT_RELEASES_ON_DESTROY".

Definition output_release_batch_size : Z :=
  let n := default VTF_TRANSPORT_MAX_OUTPUT_BATCH
             (value ← env "VT_FERRY_OUTPUT_RELEASE_BATCH_SIZE"; parse_unsigned 64 value) in
  Z.max 1 (Z.min n VTF_TRANSPORT_MAX_OUTPUT_BATCH).

(** ** Connecting *)

Definition apply_socket_timeouts (fd timeout_ms : Z) (o : os) : bool * os :=
  let tv := (timeout_ms / 1000, (timeout_ms mod 1000) * 1000) in
  let '(ok, o) := net_setsockopt fd SO_RCVTIMEO tv o in
  if negb ok then (false, o) else net_setsockopt fd SO_SNDTIMEO tv o.

(** [StreamBackend::wrap] *)
Definition wrap_stream (stream : Z) (o : os) : option StreamBackend * os :=
  let timeout_ms := transport_timeout_ms in
  let '(ok, o) :=
    if timeout_ms >? 0 then apply_socket_timeouts stream timeout_ms o else (true, o) in
  if negb ok then (None, o)
  else (Some (mk_StreamBackend stream 1 false (net_now o)), o).

(** [connect_tcp] and [connect_vsock] *)
Definition connect_stream (sel : StreamSelection) (o : os) : option StreamBackend * os :=
  let '(fd, o) := net_connect sel o in
  match fd with Some stream => wrap_stream stream o | None => (None, o) end.

Definition open_backend (o : os) : option StreamBackend * os :=
  match stream_selection_from_env with
  | Some sel => connect_stream sel o
  | None => (None, o)
  end.

(** Durations are in nanoseconds. *)
Definition ensure_heartbeat_thread (t : transport) : transport :=
  match tp_heartbeat t with
  | Some _ => t
  | None =>
      let interval_ms := heartbeat_interval_ms in
      let interval := interval_ms * 1000000 in
      mk_transport (tp_backend t) (tp_killed t) (tp_deferred t)
        (Some (if interval_ms =? 0 then None else Some (interval, interval / 2))) (tp_os t)
  end.

Definition ensure_backend (t : transport) : transport :=
  match tp_backend t with
  | Some _ => t
  | None =>
      if tp_killed t then t
      else
        let '(backend, o) := open_backend (tp_os t) in
        let t := mk_transport backend (tp_killed t) (tp_deferred t) (tp_heartbeat t) o in
        match backend with Some _ => ensure_heartbeat_thread t | None => t end
  end.

(** ** One round trip *)

Definition poison (self : StreamBackend) : StreamBackend :=
  mk_StreamBackend (sb_stream self) (sb_request_id self) true (sb_last_activity self).

(** [StreamBackend::send_request_dynamic]; [inr] is [Err]. *)
Definition stream_send_request_dynamic (self : StreamBackend) (opcode : Z)
    (payload : list byte) (o : os) : rust ((list byte + Z) * StreamBackend * os) :=
  let request_id := sb_request_id self in
  next ← arith 64 (sb_request_id self + 1);
  let self := mk_StreamBackend (sb_stream self) next (sb_poisoned self) (sb_last_activity self) in
  let lost o := Val (inr (as_signed 32 STATUS_INTERNAL_FAILURE), poison self, o) in
  let header := mk_MessageHeader VTF_TRANSPORT_VERSION opcode 0 request_id
                  (wrap 32 (len payload)) 0 in
  let '(sent, o) := net_write_all (sb_stream self) (bytes_of header) o in
  if negb sent then lost o else
  let '(sent, o) :=
    match payload with [] => (true, o) | _ => net_write_all (sb_stream self) payload o end in
  if negb sent then lost o else
  let '(response_header, o) := net_read_exact (sb_stream self) (size_of MessageHeader) o in
  match response_header with
  | None => lost o
  | Some response_header =>
      let response := pod_read_unaligned (A:=MessageHeader) response_header in
      let '(response_payload, o) :=
        if negb (mh_payload_len response =? 0)
        then net_read_exact (sb_stream self) (Z.to_nat (mh_payload_len response)) o
        else (Some [], o) in
      match response_payload with
      | None => lost o
      | Some response_payload =>
          let self := mk_StreamBackend (sb_stream self) (sb_request_id self) (sb_poisoned self)
                        (net_now o) in
          if negb (mh_status response =? STATUS_OK)
          then Val (inr (as_signed 32 (mh_status response)), self, o)
          else Val (inl response_payload, self, o)
      end
  end.

(** Store the backend after a round trip; a poisoned one is dropped for good. *)
Definition put_stream (backend : StreamBackend) (o : os) (t : transport) : transport :=
  if sb_poisoned backend
  then mk_transport None true (tp_deferred t) (tp_heartbeat t) o
  else mk_transport (Some backend) (tp_killed t) (tp_deferred t) (tp_heartbeat t) o.

Definition send_request_bytes (opcode : Z) (payload : list byte) : T (list byte) := fun t =>
  let t := ensure_backend t in
  match tp_backend t with
  | None => Val (inr TRANSPORT_ERROR, t)
  | Some backend =>
      '(result, backend, o) ← stream_send_request_dynamic backend opcode payload (tp_os t);
      Val (result, put_stream backend o t)
  end.

(** One iteration of [heartbeat_loop] after its sleep. *)
Definition heartbeat (staleness : Z) : T unit := fun t =>
  match tp_backend t with
  | Some backend =>
      if negb (sb_poisoned backend)
         && (Z.max 0 (net_now (tp_os t) - sb_last_activity backend) >=? staleness) then
        '(_, backend, o) ← stream_send_request_dynamic backend OP_PING [] (tp_os t);
        Val (inl tt, put_stream backend o t)
      else Val (inl tt, t)
  | None => Val (inl tt, t)
  end.

(** ** Typed requests *)

Definition send_request {P} (R : Type) `{!Pod P} `{!Pod R} (opcode : Z) (payload : P) : T R :=
  reply_payload_bytes ← send_request_bytes opcode (bytes_of payload);
  match read_pod R reply_payload_bytes with
  | Some reply => mret reply
  | None => T_err TRANSPORT_ERROR
  end.

Definition send_request_dynamic {P} `{!Pod P} (opcode : Z) (payload : P) : T (list byte) :=
  send_request_bytes opcode (bytes_of payload).

(** [let _ = send_request_dynamic(..)?; Ok(())] *)
Definition send_request_unit {P} `{!Pod P} (opcode : Z) (payload : P) : T unit :=
  _ ← send_request_dynamic opcode payload; mret tt.

Definition create_session (payload : CreateSessionPayload) : T Z :=
  reply ← send_request CreateSessionReply OP_CREATE_SESSION payload;
  mret (csr_session_id reply).

Definition destroy_buffer_pool (pool_id : Z) : T unit :=
  send_request_unit OP_DESTROY_BUFFER_POOL (mk_DestroyBufferPoolPayload pool_id).

Definition expand_compact_reply (compact : CreateBufferPoolCompactReply)
    : CreateBufferPoolReply :=
  let reply := zeroed CreateBufferPoolReply in
  {| cbr_pool_id := cbc_pool_id compact;
     cbr_width := cbc_width compact;
     cbr_height := cbc_height compact;
     cbr_pixel_format := cbc_pixel_format compact;
     cbr_slot_count := cbc_slot_count compact;
     cbr_buffer_region_size := cbc_buffer_region_size compact;
     cbr_host_backing_kind := cbc_host_backing_kind compact;
     cbr_layout := cbc_layout compact;
     cbr_shared_regions := cbr_shared_regions reply;
     cbr_buffer_leases := cbc_buffer_leases compact |}.

Definition create_buffer_pool (payload : CreateBufferPoolPayload) : T CreateBufferPoolReply :=
  reply_payload_bytes ← send_request_bytes OP_CREATE_BUFFER_POOL (bytes_of payload);
  match read_pod CreateBufferPoolReply reply_payload_bytes with
  | Some reply => mret reply
  | None =>
      match read_pod CreateBufferPoolCompactReply reply_payload_bytes with
      | Some compact =>
          if negb (cbc_format compact =? CREATE_BUFFER_POOL_COMPACT_REPLY_FORMAT)
          then T_err (as_signed 32 STATUS_INTERNAL_FAILURE)
          else mret (expand_compact_reply compact)
      | None => T_err (as_signed 32 STATUS_INTERNAL_FAILURE)
      end
  end.

(** [read_output] and [read_decoded_frame]: the raw reply, at least as long as its
    header. *)
Definition at_least (n : nat) (bytes : list byte) : T (list byte) :=
  if len bytes <? Z.of_nat n then T_err TRANSPORT_ERROR else mret bytes.

Definition read_output (payload : ReadOutputPayload) : T (list byte) :=
  bytes ← send_request_dynamic OP_READ_OUTPUT payload; at_least (size_of ReadOutputReply) bytes.

Definition read_decoded_frame (payload : ReadDecodedFramePayload) : T (list byte) :=
  bytes ← send_request_dynamic OP_READ_DECODED_FRAME payload;
  at_least (size_of ReadDecodedFrameReply) bytes.

(** ** Chunked transfers

    The loops [while offset < total]: every iteration moves at least one byte, so
    a fuel above the remaining bytes is enough; running out is a [Panic], which
    the theorems exclude. *)

Fixpoint write_buffer_loop (fuel : nat) (buffer_id generation : Z) (bytes : list byte)
    (offset : Z) : T unit :=
  match fuel with
  | O => fun _ => Panic
  | S fuel =>
      if offset <? len bytes then
        let chunk_len := Z.min (len bytes - offset) WRITE_BUFFER_CHUNK_BYTES in
        let payload := mk_WriteBufferPayload buffer_id generation (wrap 32 offset)
                         (wrap 32 chunk_len) in
        _ ← send_request_bytes OP_WRITE_BUFFER
              (bytes_of payload ++ slice (Z.to_nat offset) (Z.to_nat chunk_len) bytes);
        write_buffer_loop fuel buffer_id generation bytes (offset + chunk_len)
      else mret tt
  end.

Definition write_buffer (buffer_id generation : Z) (bytes : list byte) : T unit :=
  write_buffer_loop (S (length bytes)) buffer_id generation bytes 0.

(** [read_buffer] and [read_decoded_frame_chunk]: [request offset chunk_len] sends
    one read, whose reply is a header of [header_len] bytes and the data. *)
Fixpoint read_loop (fuel : nat) (request : Z -> Z -> T (list byte)) (header_len : nat)
    (total_len offset : Z) (out : list byte) : T (list byte) :=
  match fuel with
  | O => fun _ => Panic
  | S fuel =>
      if offset <? total_len then
        let chunk_len := Z.min (total_len - offset) WRITE_BUFFER_CHUNK_BYTES in
        bytes ← request offset chunk_len;
        if len bytes <? Z.of_nat header_len + chunk_len then T_err TRANSPORT_ERROR
        else
          read_loop fuel request header_len total_len (offset + chunk_len)
            (out ++ slice header_len (Z.to_nat chunk_len) bytes)
      else mret out
  end.

Definition read_buffer (buffer_id generation total_len : Z) : T (list byte) :=
  read_loop (S (Z.to_nat total_len))
    (fun offset chunk_len =>
       send_request_dynamic OP_READ_BUFFER
         (mk_ReadBufferPayload buffer_id generation (wrap 32 offset) (wrap 32 chunk_len)))
    (size_of ReadBufferReply) total_len 0 [].

Definition read_decoded_frame_chunk (session_id output_id total_len : Z) : T (list byte) :=
  read_loop (S (Z.to_nat total_len))
    (fun offset chunk_len =>
       send_request_dynamic OP_READ_DECODED_FRAME_CHUNK
         (mk_ReadDecodedFrameChunkPayload session_id output_id (wrap 32 offset)
            (wrap 32 chunk_len)))
    (size_of ReadDecodedFrameChunkReply) total_len 0 [].

Definition enqueue_encoded_frame (payload : EnqueueEncodedFramePayload)
    (encoded_bytes : list byte) : T unit :=
  if negb (eep_encoded_size payload =? len encoded_bytes) then T_err TRANSPORT_ERROR
  else
    _ ← send_request_bytes OP_ENQUEUE_ENCODED_FRAME (bytes_of payload ++ encoded_bytes);
    mret tt.

(** The header of the chunk [offset .. offset + chunk_len) of [total] bytes. *)
Definition chunk_payload (head : EnqueueEncodedFrameChunkPayload) (total offset chunk_len : Z)
    : EnqueueEncodedFrameChunkPayload :=
  {| ekp_session_id := ekp_session_id head;
     ekp_pts_value := ekp_pts_value head;
     ekp_duration_value := ekp_duration_value head;
     ekp_chunk_offset := wrap 32 offset;
     ekp_chunk_length := wrap 32 chunk_len;
     ekp_total_encoded_size := wrap 32 total;
     ekp_is_final_chunk := if offset + chunk_len =? total then 1 else 0;
     ekp_flags := ekp_flags head;
     ekp_pts_timescale := ekp_pts_timescale head;
     ekp_duration_timescale := ekp_duration_timescale head;
     ekp_reserved := 0 |}.

Fixpoint enqueue_loop (fuel : nat) (head : EnqueueEncodedFrameChunkPayload)
    (encoded_bytes : list byte) (offset : Z) : T unit :=
  match fuel with
  | O => fun _ => Panic
  | S fuel =>
      let total := len encoded_bytes in
      if offset <? total then
        let chunk_len := Z.min (total - offset) VTF_TRANSPORT_MAX_ENCODED_FRAME_BYTES in
        _ ← send_request_bytes OP_ENQUEUE_ENCODED_FRAME_CHUNK
              (bytes_of (chunk_payload head total offset chunk_len) ++
               slice (Z.to_nat offset) (Z.to_nat chunk_len) encoded_bytes);
        enqueue_loop fuel head encoded_bytes (offset + chunk_len)
      else mret tt
  end.

Definition enqueue_encoded_frame_chunked (head_payload : EnqueueEncodedFrameChunkPayload)
    (encoded_bytes : list byte) : T unit :=
  if len encoded_bytes =? 0 then T_err TRANSPORT_ERROR
  else if len encoded_bytes >? U32_MAX then T_err TRANSPORT_ERROR
  else enqueue_loop (S (length encoded_bytes)) head_payload encoded_bytes 0.

(** ** Output releases *)

Definition release_output_now (output_id : Z) : T unit :=
  send_request_unit OP_RELEASE_OUTPUT (mk_ReleaseOutputPayload output_id).

Definition release_each (output_ids : list Z) : T unit :=
  foldr (fun output_id rest => _ ← release_output_now output_id; rest) (mret tt) output_ids.

(** [payload.output_ids[..n].copy_from_slice(output_ids)] *)
Definition release_batch_payload (output_ids : list Z) : ReleaseOutputBatchPayload :=
  mk_ReleaseOutputBatchPayload (wrap 32 (len output_ids)) 0
    (output_ids ++ replicate (Z.to_nat VTF_TRANSPORT_MAX_OUTPUT_BATCH - length output_ids) 0).

(** A worker that does not know the batch opcode gets single releases. *)
Definition release_output_batch_now (output_ids : list Z) : T unit :=
  match output_ids with
  | [] => mret tt
  | _ => fun t =>
      if len output_ids >? VTF_TRANSPORT_MAX_OUTPUT_BATCH then Panic else
      match send_request_dynamic OP_RELEASE_OUTPUT_BATCH (release_batch_payload output_ids) t with
      | Val (inl _, t) => Val (inl tt, t)
      | Val (inr status, t) =>
          if status =? as_signed 32 STATUS_UNSUPPORTED_OPCODE
          then release_each output_ids t
          else Val (inr status, t)
      | Panic => Panic
      end
  end.

(** [slice::chunks(n)] *)
Fixpoint chunks_of {A} (fuel n : nat) (l : list A) : list (list A) :=
  match fuel, l with
  | S fuel, _ :: _ => take n l :: chunks_of fuel n (drop n l)
  | _, _ => []
  end.
Definition chunks {A} (n : nat) (l : list A) : list (list A) := chunks_of (length l) n l.

Definition release_batches (batches : list (list Z)) : T unit :=
  foldr (fun batch rest => _ ← release_output_batch_now batch; rest) (mret tt) batches.

Definition set_deferred (releases : list Z) (t : transport) : transport :=
  mk_transport (tp_backend t) (tp_killed t) releases (tp_heartbeat t) (tp_os t).

Definition flush_deferred_output_releases : T unit := fun t =>
  match tp_deferred t with
  | [] => Val (inl tt, t)
  | releases =>
      release_batches (chunks (Z.to_nat VTF_TRANSPORT_MAX_OUTPUT_BATCH) releases)
        (set_deferred [] t)
  end.

Definition clear_deferred_output_releases : T unit := fun t =>
  Val (inl tt, set_deferred [] t).

Definition transport_release_output (output_id : Z) : T unit :=
  if defer_output_releases_enabled then fun t =>
    let t := set_deferred (tp_deferred t ++ [output_id]) t in
    if len (tp_deferred t) >=? output_release_batch_size
    then flush_deferred_output_releases t
    else Val (inl tt, t)
  else release_output_now output_id.

Definition destroy_session (session_id : Z) : T unit :=
  _ ← (if drop_deferred_output_releases_on_destroy_enabled
       then clear_deferred_output_releases
       else flush_deferred_output_releases);
  send_request_unit OP_DESTROY_SESSION (mk_DestroySessionPayload session_id).

(** ** The entry points, and the heartbeat *)

Inductive api_call :=
| call_create_session (payload : CreateSessionPayload)
| call_destroy_session (session_id : Z)
| call_destroy_buffer_pool (pool_id : Z)
| call_create_buffer_pool (payload : CreateBufferPoolPayload)
| call_alloc_buffer (payload : AllocBufferPayload)
| call_encode_frame (payload : EncodeFramePayload)
| call_encode_frame_batch (payload : EncodeFrameBatchPayload)
| call_set_property (payload : SetPropertyPayload)
| call_dequeue_output (payload : DequeueOutputPayload)
| call_dequeue_output_batch (payload : DequeueOutputBatchPayload)
| call_read_output (payload : ReadOutputPayload)
| call_write_buffer (buffer_id generation : Z) (bytes : list byte)
| call_read_buffer (buffer_id generation total_len : Z)
| call_release_output (output_id : Z)
| call_set_decode_format (payload : SetDecodeFormatPayload)
| call_enqueue_encoded_frame (payload : EnqueueEncodedFramePayload) (encoded_bytes : list byte)
| call_enqueue_encoded_frame_chunked (head_payload : EnqueueEncodedFrameChunkPayload)
    (encoded_bytes : list byte)
| call_dequeue_decoded_frame (payload : DequeueDecodedFramePayload)
| call_read_decoded_frame (payload : ReadDecodedFramePayload)
| call_release_decoded_frame (payload : ReleaseDecodedFramePayload)
| call_bind_decode_output_pool (payload : BindDecodeOutputPoolPayload)
| call_read_decoded_frame_chunk (session_id output_id total_len : Z)
| call_flush_deferred_output_releases
| call_recycle_buffer (payload : RecycleBufferPayload)
| call_drain (session_id : Z)
| call_heartbeat (staleness : Z).

(** The call, its result dropped. *)
Definition perform (c : api_call) : T unit :=
  match c with
  | call_create_session payload => _ ← create_session payload; mret tt
  | call_destroy_session session_id => destroy_session session_id
  | call_destroy_buffer_pool pool_id => destroy_buffer_pool pool_id
  | call_create_buffer_pool payload => _ ← create_buffer_pool payload; mret tt
  | call_alloc_buffer payload => _ ← send_request AllocBufferReply OP_ALLOC_BUFFER payload; mret tt
  | call_encode_frame payload => send_request_unit OP_ENCODE_FRAME payload
  | call_encode_frame_batch payload => send_request_unit OP_ENCODE_FRAME_BATCH payload
  | call_set_property payload => send_request_unit OP_SET_PROPERTY payload
  | call_dequeue_output payload =>
      _ ← send_request DequeueOutputReply OP_DEQUEUE_OUTPUT payload; mret tt
  | call_dequeue_output_batch payload =>
      _ ← send_request DequeueOutputBatchReply OP_DEQUEUE_OUTPUT_BATCH payload; mret tt
  | call_read_output payload => _ ← read_output payload; mret tt
  | call_write_buffer buffer_id generation bytes => write_buffer buffer_id generation bytes
  | call_read_buffer buffer_id generation total_len =>
      _ ← read_buffer buffer_id generation total_len; mret tt
  | call_release_output output_id => transport_release_output output_id
  | call_set_decode_format payload => send_request_unit OP_SET_DECODE_FORMAT payload
  | call_enqueue_encoded_frame payload bytes => enqueue_encoded_frame payload bytes
  | call_enqueue_encoded_frame_chunked head bytes => enqueue_encoded_frame_chunked head bytes
  | call_dequeue_decoded_frame payload =>
      _ ← send_request DequeueDecodedFrameReply OP_DEQUEUE_DECODED_FRAME payload; mret tt
  | call_read_decoded_frame payload => _ ← read_decoded_frame payload; mret tt
  | call_release_decoded_frame payload => send_request_unit OP_RELEASE_DECODED_FRAME payload
  | call_bind_decode_output_pool payload => send_request_unit OP_BIND_DECODE_OUTPUT_POOL payload
  | call_read_decoded_frame_chunk session_id output_id total_len =>
      _ ← read_decoded_frame_chunk session_id output_id total_len; mret tt
  | call_flush_deferred_output_releases => flush_deferred_output_releases
  | call_recycle_buffer payload => send_request_unit OP_RECYCLE_BUFFER payload
  | call_drain session_id => _ ← send_request DrainReply OP_DRAIN (mk_DrainPayload session_id); mret tt
  | call_heartbeat staleness => heartbeat staleness
  end.

(** A sequence of calls, errors included; the results in order. *)
Fixpoint perform_all (cs : list api_call) (t : transport) : rust (list (unit + Z) * transport) :=
  match cs with
  | [] => Val ([], t)
  | c :: cs =>
      '(r, t) ← perform c t;
      '(rs, t) ← perform_all cs t;
      Val (r :: rs, t)
  end.
End transport.

(** ** Reasoning on transport programs *)

Section logic.
Context {os : Type} `{!Net os} `{!Profile}.
Implicit Types (t : transport os).

(** Every outcome of [m] from [t] satisfies [Q]; [pan] says whether it may panic. *)
Definition twp {A} (pan : Prop) (m : T os A) (Q : A + Z -> transport os -> Prop) t : Prop :=
  match m t with Val (r, t') => Q r t' | Panic => pan end.

Lemma twp_ret {A} pan (a : A) (Q : A + Z -> _ -> Prop) t : Q (inl a) t -> twp pan (mret a) Q t.
Proof. done. Qed.

Lemma twp_err {A} pan st (Q : A + Z -> _ -> Prop) t : Q (inr st) t -> twp pan (T_err st) Q t.
Proof. done. Qed.

Lemma twp_bind {A B} pan (m : T os A) (f : A -> T os B) Q t :
  twp pan m (fun r t' => match r with inl a => twp pan (f a) Q t' | inr e => Q (inr e) t' end) t ->
  twp pan (m ≫= f) Q t.
Proof.
  unfold twp, mbind, T_bind. destruct (m t) as [[[a|e] t']|]; done.
Qed.

Lemma twp_mono {A} pan (m : T os A) (Q Q' : A + Z -> _ -> Prop) t :
  twp pan m Q t -> (forall r t', Q r t' -> Q' r t') -> twp pan m Q' t.
Proof. unfold twp. destruct (m t) as [[r t']|]; auto. Qed.

(** The transport's invariant: a killed transport has no connection, and the
    connection it keeps is healthy. *)
Definition tp_ok t : Prop :=
  (tp_killed t = true -> tp_backend t = None) /\
  (forall b, tp_backend t = Some b -> sb_poisoned b = false).

(** A transport that will never use the network again. *)
Definition dead t : Prop := tp_killed t = true /\ tp_backend t = None.

Definition keeps_ok {A} (m : T os A) : Prop := forall t, tp_ok t -> twp True m (fun _ => tp_ok) t.

(** From a dead transport: no network activity, and no result but success
    (for what needs no worker) or [TRANSPORT_ERROR]. *)
Definition silent t (t' : transport os) : Prop := dead t' /\ tp_os t' = tp_os t.
Definition quiet {A} (m : T os A) : Prop := forall t, dead t ->
  twp False m (fun r t' => silent t t' /\ (forall e, r = inr e -> e = TRANSPORT_ERROR)) t.
Definition fails {A} (m : T os A) : Prop := forall t, dead t ->
  twp False m (fun r t' => silent t t' /\ r = inr TRANSPORT_ERROR) t.

Lemma keeps_ok_ret {A} (a : A) : keeps_ok (mret a).
Proof. by intros t Ht. Qed.
Lemma keeps_ok_err {A} st : keeps_ok (A:=A) (T_err st).
Proof. by intros t Ht. Qed.
Lemma keeps_ok_panic {A} : keeps_ok (A:=A) (fun _ => Panic).
Proof. by intros t Ht. Qed.
Lemma keeps_ok_bind {A B} (m : T os A) (f : A -> T os B) :
  keeps_ok m -> (forall a, keeps_ok (f a)) -> keeps_ok (m ≫= f).
Proof.
  intros Hm Hf t Ht. apply twp_bind. eapply twp_mono; [by apply Hm|].
  intros [a|e] t' Ht'; [by apply Hf|done].
Qed.

Lemma silent_trans t t1 t2 : silent t t1 -> silent t1 t2 -> silent t t2.
Proof. intros [_ E1] [? E2]. split; [done|congruence]. Qed.

Lemma fails_quiet {A} (m : T os A) : fails m -> quiet m.
Proof.
  intros Hm t Ht. eapply twp_mono; [by apply Hm|]. intros r t' [Hs ->]. split; [done|].
  intros e He. by simplify_eq.
Qed.
Lemma quiet_ret {A} (a : A) : quiet (mret a).
Proof. intros t Ht. by split. Qed.
Lemma fails_err {A} : fails (A:=A) (T_err TRANSPORT_ERROR).
Proof. intros t Ht. by split. Qed.
Lemma quiet_bind {A B} (m : T os A) (f : A -> T os B) :
  quiet m -> (forall a, quiet (f a)) -> quiet (m ≫= f).
Proof.
  intros Hm Hf t Ht. apply twp_bind. eapply twp_mono; [by apply Hm|].
  intros [a|e] t' [Hs He].
  - eapply twp_mono; [apply Hf, Hs|]. intros r t2 [Hs2 Hr]. split; [|done].
    by eapply silent_trans.
  - split; [done|]. intros e' E. apply He. by simplify_eq.
Qed.
Lemma fails_bind {A B} (m : T os A) (f : A -> T os B) : fails m -> fails (m ≫= f).
Proof.
  intros Hm t Ht. apply twp_bind. eapply twp_mono; [by apply Hm|]. by intros r t' [Hs ->].
Qed.
Lemma fails_after {A B} (m : T os A) (f : A -> T os B) :
  quiet m -> (forall a, fails (f a)) -> fails (m ≫= f).
Proof.
  intros Hm Hf t Ht. apply twp_bind. eapply twp_mono; [by apply Hm|].
  intros [a|e] t' [Hs He].
  - eapply twp_mono; [apply Hf, Hs|]. intros r t2 [Hs2 Hr]. split; [|done].
    by eapply silent_trans.
  - split; [done|]. f_equal. by apply He.
Qed.
End logic.

Create HintDb transport.
#[export] Hint Resolve keeps_ok_ret keeps_ok_err keeps_ok_panic keeps_ok_bind
  fails_quiet quiet_ret fails_err quiet_bind fails_bind : transport.

Section dead.
Context {os : Type} `{!Net os} `{!Profile} (env : environ).
Implicit Types (t : transport os).

Lemma put_stream_ok b o t : tp_ok t -> tp_backend t <> None -> tp_ok (put_stream b o t).
Proof.
  intros [H1 H2] Hb. unfold put_stream. destruct (sb_poisoned b) eqn:Eb; split; simpl.
  - done.
  - done.
  - intros Hk. by rewrite H1 in Hb.
  - intros b' [= <-]. done.
Qed.

Lemma ensure_backend_ok t : tp_ok t -> tp_ok (ensure_backend env t).
Proof.
  intros Ht. unfold ensure_backend. destruct (tp_backend t) as [b|] eqn:Eb; [done|].
  destruct (tp_killed t) eqn:Ek; [done|].
  destruct (open_backend env (tp_os t)) as [[b|] o] eqn:Eo; [|by split].
  assert (sb_poisoned b = false) as Hp.
  { unfold open_backend, connect_stream, wrap_stream in Eo.
    repeat case_match; simplify_eq/=; done. }
  unfold ensure_heartbeat_thread. case_match; split; simpl; intros; simplify_eq; done.
Qed.

Lemma send_request_bytes_ok op pl : keeps_ok (send_request_bytes (os:=os) env op pl).
Proof.
  intros t Ht. apply ensure_backend_ok in Ht. unfold twp, send_request_bytes.
  set (t1 := ensure_backend env t) in *. destruct (tp_backend t1) as [b|] eqn:Eb; [|done].
  destruct (stream_send_request_dynamic b op pl (tp_os t1)) as [[[r b'] o]|]; [|done].
  simpl. apply put_stream_ok; [done|congruence].
Qed.

Lemma heartbeat_ok d : keeps_ok (heartbeat (os:=os) d).
Proof.
  intros t Ht. unfold twp, heartbeat. destruct (tp_backend t) as [b|] eqn:Eb; [|done].
  destruct (_ && _); [|done].
  destruct (stream_send_request_dynamic b OP_PING [] (tp_os t)) as [[[r b'] o]|]; [|done].
  simpl. apply put_stream_ok; [done|congruence].
Qed.

Lemma send_request_bytes_fails op pl : fails (send_request_bytes (os:=os) env op pl).
Proof.
  intros t [Hk Hb]. unfold twp, send_request_bytes, ensure_backend.
  rewrite Hb, Hk, Hb. by split.
Qed.

Lemma heartbeat_quiet d : quiet (heartbeat (os:=os) d).
Proof. intros t [Hk Hb]. unfold twp, heartbeat. by rewrite Hb. Qed.
End dead.
#[export] Hint Resolve send_request_bytes_ok heartbeat_ok send_request_bytes_fails heartbeat_quiet
  : transport.

(** ** Every entry point *)

Lemma chunks_of_bound {A} fuel n (l : list A) : Forall (fun c => length c <= n)%nat (chunks_of fuel n l).
Proof.
  revert l. induction fuel as [|fuel IH]; intros [|x l]; simpl; constructor; [|apply IH].
  rewrite length_take. lia.
Qed.

Lemma concat_chunks_of {A} fuel n (l : list A) :
  (0 < n)%nat -> (length l <= fuel)%nat -> concat (chunks_of fuel n l) = l.
Proof.
  intros Hn. revert l. induction fuel as [|fuel IH]; intros [|x l] Hl; simpl in *; try done; [lia|].
  rewrite IH; [apply (take_drop n (x :: l))|]. rewrite length_drop. simpl. lia.
Qed.

Section api.
Context {os : Type} `{!Net os} `{!Profile} (env : environ).
Implicit Types (t : transport os).

Ltac case_T := repeat match goal with
  | |- keeps_ok (match ?x with _ => _ end) => destruct x
  | |- quiet (match ?x with _ => _ end) => destruct x
  | |- fails (match ?x with _ => _ end) => destruct x
  end.
Ltac tauto_T := intros; case_T; eauto 10 with transport.

Lemma typed_ok {P} R `{!Pod P} `{!Pod R} op (p : P) : keeps_ok (os:=os) (send_request env R op p).
Proof. apply keeps_ok_bind; tauto_T. Qed.
Lemma typed_fails {P} R `{!Pod P} `{!Pod R} op (p : P) : fails (os:=os) (send_request env R op p).
Proof. apply fails_bind. tauto_T. Qed.
Lemma unit_ok {P} `{!Pod P} op (p : P) : keeps_ok (os:=os) (send_request_unit env op p).
Proof. apply keeps_ok_bind; unfold send_request_dynamic; tauto_T. Qed.
Lemma unit_fails {P} `{!Pod P} op (p : P) : fails (os:=os) (send_request_unit env op p).
Proof. apply fails_bind. unfold send_request_dynamic. tauto_T. Qed.
Hint Resolve typed_ok typed_fails unit_ok unit_fails : transport.

Lemma write_loop_ok fuel i g bs off : keeps_ok (os:=os) (write_buffer_loop env fuel i g bs off).
Proof. revert off. induction fuel; intros off; cbn -[Z.min]; tauto_T. Qed.
Lemma enqueue_loop_ok fuel hd bs off : keeps_ok (os:=os) (enqueue_loop env fuel hd bs off).
Proof. revert off. induction fuel; intros off; cbn -[Z.min]; tauto_T. Qed.
Lemma read_loop_ok fuel (rq : Z -> Z -> T os (list byte)) n total off out :
  (forall a b, keeps_ok (rq a b)) -> keeps_ok (read_loop fuel rq n total off out).
Proof.
  intros Hrq. revert off out. induction fuel; intros off out; cbn -[Z.min]; [tauto_T|].
  destruct (off <? total); [|tauto_T]. apply keeps_ok_bind; tauto_T.
Qed.

(** A loop with something to send fails at its first request. *)
Lemma write_loop_quiet fuel i g bs off : quiet (os:=os) (write_buffer_loop env (S fuel) i g bs off).
Proof. cbn -[Z.min]. tauto_T. Qed.
Lemma enqueue_loop_fails fuel hd bs off :
  off < len bs -> fails (os:=os) (enqueue_loop env (S fuel) hd bs off).
Proof. intros Hl. cbn -[Z.min]. rewrite (proj2 (Z.ltb_lt _ _)) by done. tauto_T. Qed.
Lemma read_loop_quiet fuel (rq : Z -> Z -> T os (list byte)) n total off out :
  (forall a b, fails (rq a b)) -> quiet (read_loop (S fuel) rq n total off out).
Proof.
  intros Hrq. cbn -[Z.min]. destruct (off <? total); [|tauto_T]. apply fails_quiet, fails_bind, Hrq.
Qed.
Hint Resolve write_loop_ok enqueue_loop_ok write_loop_quiet : transport.

Lemma release_each_ok ids : keeps_ok (os:=os) (release_each env ids).
Proof. unfold release_each, release_output_now. induction ids; simpl; tauto_T. Qed.
Lemma release_each_quiet ids : quiet (os:=os) (release_each env ids).
Proof. unfold release_each, release_output_now. destruct ids; simpl; tauto_T. Qed.

Lemma batch_ok ids : keeps_ok (os:=os) (release_output_batch_now env ids).
Proof.
  destruct ids as [|i ids]; [apply keeps_ok_ret|]. intros t Ht. unfold twp, release_output_batch_now.
  destruct (_ >? _); [done|].
  pose proof (send_request_bytes_ok env OP_RELEASE_OUTPUT_BATCH
    (bytes_of (release_batch_payload (i :: ids))) t Ht) as Hs.
  unfold send_request_dynamic. revert Hs. unfold twp.
  destruct (send_request_bytes _ _ _ t) as [[[r|e] t']|]; [done| |done]. intros Ht'.
  destruct (e =? _); [by apply release_each_ok|done].
Qed.

Lemma batch_fails ids :
  (0 < length ids)%nat -> len ids <= VTF_TRANSPORT_MAX_OUTPUT_BATCH ->
  fails (os:=os) (release_output_batch_now env ids).
Proof.
  intros Hpos Hlen t Ht. destruct ids as [|i ids]; [simpl in Hpos; lia|].
  unfold twp, release_output_batch_now. destruct (Z.gtb_spec (len (i :: ids)) VTF_TRANSPORT_MAX_OUTPUT_BATCH); [lia|].
  pose proof (send_request_bytes_fails env OP_RELEASE_OUTPUT_BATCH
    (bytes_of (release_batch_payload (i :: ids))) t Ht) as Hs.
  unfold send_request_dynamic. revert Hs. unfold twp.
  destruct (send_request_bytes _ _ _ t) as [[r t']|]; [|done]. intros [Hs ->]. by split.
Qed.

Lemma batches_ok bs : keeps_ok (os:=os) (release_batches env bs).
Proof.
  unfold release_batches. induction bs; simpl; [tauto_T|]. apply keeps_ok_bind; [apply batch_ok|done].
Qed.

Lemma set_deferred_ok l t : tp_ok t -> tp_ok (set_deferred l t).
Proof. done. Qed.

Lemma flush_ok : keeps_ok (os:=os) (flush_deferred_output_releases env).
Proof.
  intros t Ht. unfold twp, flush_deferred_output_releases. destruct (tp_deferred t); [done|].
  apply batches_ok. by apply set_deferred_ok.
Qed.

Lemma flush_quiet : quiet (os:=os) (flush_deferred_output_releases env).
Proof.
  intros t Ht. unfold twp, flush_deferred_output_releases. destruct (tp_deferred t) as [|i l]; [done|].
  pose proof (chunks_of_bound (length (i :: l)) (Z.to_nat VTF_TRANSPORT_MAX_OUTPUT_BATCH) (i :: l)) as Hb.
  unfold chunks. cbn [length chunks_of] in *. apply list.Forall_cons in Hb as [Hb _].
  assert (quiet (os:=os) (release_batches env
    (take (Z.to_nat VTF_TRANSPORT_MAX_OUTPUT_BATCH) (i :: l) ::
     chunks_of (length l) (Z.to_nat VTF_TRANSPORT_MAX_OUTPUT_BATCH)
       (drop (Z.to_nat VTF_TRANSPORT_MAX_OUTPUT_BATCH) (i :: l))))) as Hq.
  { apply fails_quiet, fails_bind, batch_fails; [|unfold VTF_TRANSPORT_MAX_OUTPUT_BATCH in *; lia].
    rewrite length_take. simpl. unfold VTF_TRANSPORT_MAX_OUTPUT_BATCH. lia. }
  exact (Hq (set_deferred [] t) Ht).
Qed.
Hint Resolve flush_ok flush_quiet : transport.

Lemma release_ok id : keeps_ok (os:=os) (transport_release_output env id).
Proof.
  unfold transport_release_output, release_output_now. destruct (defer_output_releases_enabled _); [|tauto_T].
  intros t Ht. unfold twp. destruct (_ >=? _); [by apply flush_ok|done].
Qed.
Lemma release_quiet id : quiet (os:=os) (transport_release_output env id).
Proof.
  unfold transport_release_output, release_output_now. destruct (defer_output_releases_enabled _); [|tauto_T].
  intros t Ht. unfold twp. destruct (_ >=? _); [|by split].
  exact (flush_quiet (set_deferred (tp_deferred t ++ [id]) t) Ht).
Qed.

Lemma clear_ok : keeps_ok (os:=os) clear_deferred_output_releases.
Proof. by intros t Ht. Qed.
Hint Resolve clear_ok : transport.

Lemma transport_destroy_session_ok id : keeps_ok (os:=os) (destroy_session env id).
Proof.
  unfold destroy_session. apply keeps_ok_bind; [|tauto_T].
  destruct (drop_deferred_output_releases_on_destroy_enabled _); tauto_T.
Qed.
Lemma destroy_session_fails id : fails (os:=os) (destroy_session env id).
Proof.
  unfold destroy_session. apply fails_after; [|tauto_T].
  destruct (drop_deferred_output_releases_on_destroy_enabled _); [|tauto_T]. intros t Ht. by split.
Qed.
Hint Resolve release_ok release_quiet transport_destroy_session_ok destroy_session_fails : transport.

Lemma perform_ok c : keeps_ok (os:=os) (perform env c).
Proof.
  destruct c; simpl;
    unfold create_session, destroy_buffer_pool, create_buffer_pool, read_output,
      read_decoded_frame, at_least, write_buffer, read_buffer, read_decoded_frame_chunk,
      enqueue_encoded_frame, enqueue_encoded_frame_chunked, send_request_dynamic;
    repeat first [apply keeps_ok_bind; intros | apply read_loop_ok; intros
                 | progress case_T]; eauto with transport.
Qed.

(** The calls that cannot succeed without the worker: all but empty transfers,
    releases (which may be deferred) and the heartbeat. *)
Definition needs_worker (c : api_call) : bool :=
  match c with
  | call_write_buffer _ _ bytes => 0 <? len bytes
  | call_read_buffer _ _ total_len | call_read_decoded_frame_chunk _ _ total_len => 0 <? total_len
  | call_release_output _ | call_flush_deferred_output_releases | call_heartbeat _ => false
  | _ => true
  end.

Lemma perform_fails c : needs_worker c = true -> fails (os:=os) (perform env c).
Proof.
  intros Hc. destruct c; simpl in *; try discriminate Hc;
    unfold create_session, destroy_buffer_pool, create_buffer_pool, read_output,
      read_decoded_frame, send_request_dynamic; eauto 6 with transport.
  - unfold write_buffer. cbn -[Z.min]. rewrite Hc. eauto with transport.
  - unfold read_buffer. cbn -[Z.min]. rewrite Hc. do 2 apply fails_bind.
    unfold send_request_dynamic. eauto with transport.
  - unfold enqueue_encoded_frame. case_T; eauto with transport.
  - unfold enqueue_encoded_frame_chunked. destruct (Z.eqb_spec (len encoded_bytes) 0); [tauto_T|].
    case_T; [tauto_T|]. apply enqueue_loop_fails. lia.
  - unfold read_decoded_frame_chunk. cbn -[Z.min]. rewrite Hc. do 2 apply fails_bind.
    unfold send_request_dynamic. eauto with transport.
Qed.

Lemma perform_quiet c : quiet (os:=os) (perform env c).
Proof.
  destruct (needs_worker c) eqn:Hc; [by apply fails_quiet, perform_fails|].
  destruct c; simpl in *; try discriminate Hc; eauto with transport.
  - apply quiet_bind; [|tauto_T]. apply read_loop_quiet. unfold send_request_dynamic. tauto_T.
  - apply quiet_bind; [|tauto_T]. apply read_loop_quiet. unfold send_request_dynamic. tauto_T.
Qed.

Lemma perform_all_ok cs t rs t' : tp_ok t -> perform_all env cs t = Val (rs, t') -> tp_ok t'.
Proof.
  revert t rs. induction cs as [|c cs IH]; intros t rs Ht E; simpl in E; [by simplify_eq|].
  pose proof (perform_ok c t Ht) as Hc. unfold twp in Hc.
  destruct (perform env c t) as [[r t1]|]; [|done]. simpl in E.
  destruct (perform_all env cs t1) as [[rs1 t2]|] eqn:E1; [|done]. simplify_eq/=. by eapply IH.
Qed.

(** The outcome of calls on a dead transport. *)
Definition refused (c : api_call) (r : unit + Z) : Prop :=
  r = inr TRANSPORT_ERROR \/ (r = inl tt /\ needs_worker c = false).

Lemma perform_all_quiet cs t :
  dead t -> exists rs t', perform_all env cs t = Val (rs, t') /\ silent t t' /\ Forall2 refused cs rs.
Proof.
  revert t. induction cs as [|c cs IH]; intros t Ht; [by exists [], t|].
  assert (exists r t1, perform env c t = Val (r, t1) /\ silent t t1 /\ refused c r)
    as (r & t1 & E & Hs & Hr).
  { destruct (needs_worker c) eqn:Hn.
    - pose proof (perform_fails c Hn t Ht) as Hc. unfold twp in Hc.
      destruct (perform env c t) as [[r t1]|]; [|done]. destruct Hc as [? ->].
      exists (inr TRANSPORT_ERROR), t1. split_and!; [done|done|by left].
    - pose proof (perform_quiet c t Ht) as Hc. unfold twp in Hc.
      destruct (perform env c t) as [[r t1]|]; [|done]. destruct Hc as [? He].
      exists r, t1. split_and!; [done|done|].
      destruct r as [[]|e]; [by right|left; f_equal; by apply He]. }
  destruct (IH t1) as (rs & t2 & E2 & Hs2 & Hrs); [apply Hs|].
  exists (r :: rs), t2. simpl. rewrite E. simpl. rewrite E2. split_and!; [done| |by constructor].
  by eapply silent_trans.
Qed.
End api.

(** ** The chunked loops

    [Inv off] holds when the bytes before [off] have been transferred; a loop whose
    every chunk goes through transfers everything, in chunks of at most
    [WRITE_BUFFER_CHUNK_BYTES]. *)

Section loops.
Context {os : Type} `{!Net os} `{!Profile} (env : environ).
Context (Inv : Z -> transport os -> Prop).

Lemma write_loop_spec buffer_id generation bytes :
  (forall off n t, 0 <= off -> 0 < n <= WRITE_BUFFER_CHUNK_BYTES -> off + n <= len bytes ->
     Inv off t ->
     exists r t', send_request_bytes env OP_WRITE_BUFFER
       (bytes_of (mk_WriteBufferPayload buffer_id generation (wrap 32 off) (wrap 32 n)) ++
        slice (Z.to_nat off) (Z.to_nat n) bytes) t = Val (inl r, t') /\ Inv (off + n) t') ->
  forall fuel off t, 0 <= off <= len bytes -> len bytes - off < Z.of_nat fuel -> Inv off t ->
  exists t', write_buffer_loop env fuel buffer_id generation bytes off t = Val (inl tt, t') /\
    Inv (len bytes) t'.
Proof.
  intros Hstep. induction fuel as [|fuel IH]; intros off t Hoff Hf Hi; [lia|].
  cbn [write_buffer_loop]. destruct (Z.ltb_spec off (len bytes)).
  - assert (0 < WRITE_BUFFER_CHUNK_BYTES) by done.
    set (n := Z.min (len bytes - off) WRITE_BUFFER_CHUNK_BYTES).
    destruct (Hstep off n t) as (r & t1 & E & Hi1); [lia..|done|].
    unfold mbind at 1, T_bind. rewrite E. apply IH; [lia|lia|done].
  - exists t. split; [done|]. by replace (len bytes) with off by lia.
Qed.

Lemma read_loop_spec request header_len total (full : list byte) :
  total <= len full ->
  (forall off n t, 0 <= off -> 0 < n <= WRITE_BUFFER_CHUNK_BYTES -> off + n <= total ->
     Inv off t ->
     exists hdr t', request off n t = Val (inl (hdr ++ slice (Z.to_nat off) (Z.to_nat n) full), t') /\
       length hdr = header_len /\ Inv (off + n) t') ->
  forall fuel off out t, 0 <= off <= total -> total - off < Z.of_nat fuel -> Inv off t ->
  exists t', read_loop fuel request header_len total off out t =
    Val (inl (out ++ slice (Z.to_nat off) (Z.to_nat (total - off)) full), t') /\ Inv total t'.
Proof.
  intros Hlen Hstep. induction fuel as [|fuel IH]; intros off out t Hoff Hf Hi; [lia|].
  cbn [read_loop]. destruct (Z.ltb_spec off total).
  - assert (0 < WRITE_BUFFER_CHUNK_BYTES) by done.
    set (n := Z.min (total - off) WRITE_BUFFER_CHUNK_BYTES).
    destruct (Hstep off n t) as (hdr & t1 & E & Hh & Hi1); [lia..|done|].
    unfold mbind at 1, T_bind. rewrite E, length_app, length_slice, Hh by lia.
    destruct (Z.ltb_spec (Z.of_nat (header_len + Z.to_nat n)) (Z.of_nat header_len + n)); [lia|].
    destruct (IH (off + n) (out ++ slice header_len (Z.to_nat n)
      (hdr ++ slice (Z.to_nat off) (Z.to_nat n) full)) t1) as (t' & E' & Hi'); [lia|lia|done|].
    exists t'. rewrite E'. split; [|done]. do 3 f_equal. rewrite <- app_assoc. f_equal.
    unfold slice at 1. rewrite drop_app_length' by done.
    rewrite take_ge by (rewrite length_slice by lia; lia).
    replace (Z.to_nat (off + n)) with (Z.to_nat off + Z.to_nat n)%nat by lia.
    rewrite slice_app_split. f_equal. lia.
  - exists t. replace total with off by lia. rewrite Z.sub_diag. unfold slice. simpl.
    by rewrite app_nil_r.
Qed.
End loops.

(** ** Panics

    A request panics only where the request counter overflows, in a build with
    overflow checks; the loops end and the batches are small enough. *)
Section calm.
Context {os : Type} `{!Net os} `{!Profile}.

Definition calm {A} (m : T os A) : Prop := forall t, twp (overflow_checks = true) m (fun _ _ => True) t.

Lemma calm_ret {A} (a : A) : calm (mret a).
Proof. by intros t. Qed.
Lemma calm_err {A} st : calm (A:=A) (T_err st).
Proof. by intros t. Qed.
Lemma calm_bind {A B} (m : T os A) (f : A -> T os B) :
  calm m -> (forall a, calm (f a)) -> calm (m ≫= f).
Proof.
  intros Hm Hf t. apply twp_bind. eapply twp_mono; [apply Hm|].
  intros [a|e] t' _; [by apply Hf|done].
Qed.

Lemma stream_send_panic b op pl (o : os) :
  stream_send_request_dynamic b op pl o = Panic -> overflow_checks = true.
Proof.
  unfold stream_send_request_dynamic. destruct (arith 64 (sb_request_id b + 1)) as [n|] eqn:E.
  - simpl. repeat case_match; done.
  - intros _. by apply arith_panic in E as [_ ?].
Qed.
End calm.
#[export] Hint Resolve calm_ret calm_err calm_bind : transport.

Ltac calm := repeat match goal with
  | |- calm (match ?x with _ => _ end) => destruct x
  end; eauto 10 with transport.

Section calm_api.
Context {os : Type} `{!Net os} `{!Profile} (env : environ).

Lemma send_request_bytes_calm op pl : calm (send_request_bytes (os:=os) env op pl).
Proof.
  intros t. unfold twp, send_request_bytes. destruct (tp_backend _) as [b|]; [|done].
  destruct (stream_send_request_dynamic b op pl _) as [[[r b'] o]|] eqn:E; [done|].
  by apply stream_send_panic in E.
Qed.
Hint Resolve send_request_bytes_calm : transport.

Lemma typed_calm {P} R `{!Pod P} `{!Pod R} op (p : P) : calm (os:=os) (send_request env R op p).
Proof. apply calm_bind; intros; calm. Qed.
Lemma dynamic_calm {P} `{!Pod P} op (p : P) : calm (os:=os) (send_request_dynamic env op p).
Proof. unfold send_request_dynamic. calm. Qed.
Lemma unit_calm {P} `{!Pod P} op (p : P) : calm (os:=os) (send_request_unit env op p).
Proof. apply calm_bind; [apply dynamic_calm|]. calm. Qed.
Hint Resolve typed_calm dynamic_calm unit_calm : transport.

Lemma write_loop_calm fuel i g bs off :
  0 <= len bs - off < Z.of_nat fuel -> calm (os:=os) (write_buffer_loop env fuel i g bs off).
Proof.
  revert off. induction fuel as [|fuel IH]; intros off Hf; cbn -[Z.min Z.of_nat]; [lia|].
  destruct (Z.ltb_spec off (len bs)); [|calm]. apply calm_bind; [calm|]. intros _. apply IH.
  unfold WRITE_BUFFER_CHUNK_BYTES. lia.
Qed.
Lemma enqueue_loop_calm fuel hd bs off :
  0 <= len bs - off < Z.of_nat fuel -> calm (os:=os) (enqueue_loop env fuel hd bs off).
Proof.
  revert off. induction fuel as [|fuel IH]; intros off Hf; cbn -[Z.min Z.of_nat]; [lia|].
  destruct (Z.ltb_spec off (len bs)); [|calm]. apply calm_bind; [calm|]. intros _. apply IH.
  unfold VTF_TRANSPORT_MAX_ENCODED_FRAME_BYTES. lia.
Qed.
Lemma read_loop_calm fuel (rq : Z -> Z -> T os (list byte)) n total off out :
  (forall a b, calm (rq a b)) -> total - off < Z.of_nat fuel -> (0 < fuel)%nat ->
  calm (read_loop fuel rq n total off out).
Proof.
  intros Hrq. revert off out. induction fuel as [|fuel IH]; intros off out Hf Hpos; [lia|].
  cbn -[Z.min Z.of_nat]. destruct (Z.ltb_spec off total); [|calm].
  apply calm_bind; [apply Hrq|]. intros bytes. destruct (_ <? _); [calm|].
  apply IH; unfold WRITE_BUFFER_CHUNK_BYTES; lia.
Qed.
Hint Resolve write_loop_calm enqueue_loop_calm : transport.

Lemma release_each_calm ids : calm (os:=os) (release_each env ids).
Proof. unfold release_each, release_output_now. induction ids; simpl; calm. Qed.

Lemma batch_calm ids :
  len ids <= VTF_TRANSPORT_MAX_OUTPUT_BATCH -> calm (os:=os) (release_output_batch_now env ids).
Proof.
  intros Hlen. destruct ids as [|i ids]; [calm|]. intros t. unfold twp, release_output_batch_now.
  destruct (Z.gtb_spec (len (i :: ids)) VTF_TRANSPORT_MAX_OUTPUT_BATCH); [lia|].
  pose proof (dynamic_calm OP_RELEASE_OUTPUT_BATCH (release_batch_payload (i :: ids)) t) as Hs.
  revert Hs. unfold twp. destruct (send_request_dynamic _ _ _ t) as [[[r|e] t']|]; [done| |done].
  intros _. destruct (e =? _); [by apply release_each_calm|done].
Qed.

Lemma flush_calm : calm (os:=os) (flush_deferred_output_releases env).
Proof.
  intros t. unfold twp, flush_deferred_output_releases. destruct (tp_deferred t) as [|i l] eqn:E; [done|].
  assert (forall bs, Forall (fun c => length c <= Z.to_nat VTF_TRANSPORT_MAX_OUTPUT_BATCH)%nat bs ->
            calm (os:=os) (release_batches env bs)) as Hall.
  { unfold release_batches. induction 1 as [|c bs Hc _ IH]; simpl; [calm|].
    apply calm_bind; [|done]. apply batch_calm. unfold VTF_TRANSPORT_MAX_OUTPUT_BATCH in *. lia. }
  apply (Hall _ (chunks_of_bound _ _ _)).
Qed.
Hint Resolve flush_calm : transport.

Lemma release_calm id : calm (os:=os) (transport_release_output env id).
Proof.
  unfold transport_release_output, release_output_now.
  destruct (defer_output_releases_enabled _); [|calm].
  intros t. unfold twp. destruct (_ >=? _); [by apply flush_calm|done].
Qed.

Lemma clear_calm : calm (os:=os) clear_deferred_output_releases.
Proof. by intros t. Qed.
Hint Resolve clear_calm : transport.

Lemma destroy_session_calm id : calm (os:=os) (destroy_session env id).
Proof.
  unfold destroy_session. apply calm_bind; [|calm].
  destruct (drop_deferred_output_releases_on_destroy_enabled _); [by intros t|calm].
Qed.

Lemma heartbeat_calm d : calm (os:=os) (heartbeat d).
Proof.
  intros t. unfold twp, heartbeat. destruct (tp_backend t) as [b|]; [|done].
  destruct (_ && _); [|done].
  destruct (stream_send_request_dynamic b OP_PING [] (tp_os t)) as [[[r b'] o]|] eqn:E; [done|].
  by apply stream_send_panic in E.
Qed.
Hint Resolve release_calm destroy_session_calm heartbeat_calm : transport.

Ltac calm_op := repeat first [apply calm_bind; intros | apply read_loop_calm; intros
  | apply write_loop_calm | apply enqueue_loop_calm | progress calm]; try lia.

Lemma create_pool_calm payload : calm (os:=os) (create_buffer_pool env payload).
Proof. unfold create_buffer_pool. calm_op. Qed.
Hint Resolve create_pool_calm : transport.

Lemma perform_calm c : calm (os:=os) (perform env c).
Proof.
  destruct c; simpl;
    unfold create_session, destroy_buffer_pool, read_output,
      read_decoded_frame, at_least, write_buffer, read_buffer, read_decoded_frame_chunk,
      enqueue_encoded_frame, enqueue_encoded_frame_chunked; calm_op.
Qed.
End calm_api.
#[export] Hint Resolve send_request_bytes_calm typed_calm dynamic_calm unit_calm flush_calm
  release_calm destroy_session_calm heartbeat_calm create_pool_calm : transport.

(** C25: a lost connection is final. Whatever calls were made, once the
    transport is killed no later sequence of calls (heartbeats included)
    panics, reconnects or does any other network operation: the operating
    system's state stays as it was, and every call that needs the worker is
    answered [TRANSPORT_ERROR] = -12902, which is what [ensure_backend]
    returns (the comment on [TRANSPORT_KILLED] names
    [STATUS_INTERNAL_FAILURE]). *)
Theorem failure_is_terminal {os} `{!Net os} `{!Profile} env before after (t : transport os) rs t1 :
  tp_ok t -> perform_all env before t = Val (rs, t1) -> tp_killed t1 = true ->
  exists rs' t2, perform_all env after t1 = Val (rs', t2) /\
    tp_os t2 = tp_os t1 /\ tp_killed t2 = true /\ Forall2 refused after rs'.
Proof.
  intros Ht E Hk. apply perform_all_ok in E as [Hb _]; [|done].
  destruct (perform_all_quiet env after t1) as (rs' & t2 & E2 & [[Hk2 _] Ho] & Hr);
    [by split; [|apply Hb]|].
  by exists rs', t2.
Qed.
