(* ===== verification/Objects.v ===== *)
(** * The objects of the guest

    The C object model of the shim: the common header ([runtime.rs]), the object
    types of [corefoundation.rs], [coremedia.rs], [corevideo.rs] and
    [videotoolbox.rs], the exported constant objects, and the memory of the guest
    process they live in.  A [CFTypeRef] is an address ([0] is null); an object
    is an entry of the heap, a boxed byte array a block of its own, so a raw
    pointer is a block and an offset.  Using a pointer to freed memory, freeing
    a block twice or reading an object at the wrong type is the outcome [UB];
    freed addresses are not handed out again, so none of these goes unnoticed. *)

From S2P Require Import Prelude Wire Protocol Backend Transport.
From stdpp Require Import strings.

Set Default Goal Selector "!".
Open Scope Z_scope.

(** ** Type identifiers and flags *)

Definition VTF_TYPE_STRING : Z := 1.
Definition VTF_TYPE_NUMBER : Z := 2.
Definition VTF_TYPE_DATA : Z := 3.
Definition VTF_TYPE_ARRAY : Z := 4.
Definition VTF_TYPE_DICTIONARY : Z := 5.
Definition VTF_TYPE_BOOLEAN : Z := 6.
Definition VTF_TYPE_BLOCK_BUFFER : Z := 7.
Definition VTF_TYPE_FORMAT_DESCRIPTION : Z := 8.
Definition VTF_TYPE_SAMPLE_BUFFER : Z := 9.
Definition VTF_TYPE_PIXEL_BUFFER : Z := 10.
Definition VTF_TYPE_PIXEL_BUFFER_POOL : Z := 11.
Definition VTF_TYPE_VT_SESSION : Z := 12.
Definition VTF_TYPE_VT_DECOMPRESSION_SESSION : Z := 13.
Definition VTF_OBJECT_FLAG_STATIC : Z := 1.
Definition VTF_OBJECT_MAGIC : Z := 0x534d5654.

(** The finalize hooks, a function pointer in the source. *)
Inductive finalizer :=
| Finalize_string
| Finalize_number
| Finalize_data
| Finalize_array
| Finalize_dictionary
| Finalize_block_buffer
| Finalize_format_description
| Finalize_sample_buffer
| Finalize_pixel_buffer
| Finalize_pixel_buffer_pool
| Finalize_vt_session
| Finalize_vt_decompression_session.

Record vtf_cf_object := mk_vtf_cf_object {
  cf_magic : Z;
  cf_type_id : Z;
  cf_refcount : Z;
  cf_flags : Z;
  cf_proxy_id : Z;
  cf_generation : Z;
  cf_host_id : Z;
  cf_finalize : option finalizer
}.

(** A raw byte pointer: null, or an offset in a block. *)
Definition rawptr : Type := option (Z * Z).

(** [p.add(n)] *)
Definition raw_add (p : rawptr) (n : Z) : rawptr :=
  match p with Some (b, off) => Some (b, off + n) | None => None end.

(** ** Core Foundation objects *)

Record vtf_cf_string := mk_vtf_cf_string {
  cfs_bytes : rawptr;
  cfs_length : Z;
  cfs_owns_bytes : bool
}.

(** [cfn_f64] is the bit pattern of the double. *)
Record vtf_cf_number := mk_vtf_cf_number {
  cfn_number_type : Z;
  cfn_sint64 : Z;
  cfn_f64 : Z
}.

Record vtf_cf_data := mk_vtf_cf_data { cfd_bytes : list byte }.

Record vtf_cf_array := mk_vtf_cf_array { cfa_values : list Z }.

Record vtf_cf_dictionary := mk_vtf_cf_dictionary {
  cfd_keys : list Z;
  cfd_values : list Z
}.

Record vtf_cf_boolean := mk_vtf_cf_boolean { cfb_value : bool }.

(** ** Core Media objects *)

Record CMTime := mk_CMTime {
  cmt_value : Z;
  cmt_timescale : Z;
  cmt_flags : Z;
  cmt_epoch : Z
}.

Record vtf_cm_block_buffer := mk_vtf_cm_block_buffer {
  bb_bytes : rawptr;
  bb_length : Z;
  bb_owns_bytes : bool;
  bb_output_id : Z
}.

Record vtf_cm_format_description := mk_vtf_cm_format_description {
  fd_codec_type : Z;
  fd_width : Z;
  fd_height : Z;
  fd_extensions : Z;
  fd_nal_header_length : Z;
  fd_parameter_set_count : Z;
  fd_parameter_set_sizes : list Z;
  fd_parameter_sets : list rawptr
}.

Record vtf_cm_sample_buffer := mk_vtf_cm_sample_buffer {
  smp_data_buffer : Z;
  smp_format_description : Z;
  smp_decode_timestamp : CMTime;
  smp_presentation_timestamp : CMTime;
  smp_total_sample_size : Z;
  smp_attachments : Z;
  smp_source_image_buffer : Z;
  smp_output_id : Z
}.

#[export] Instance block_buffer_eta : Eta vtf_cm_block_buffer := fun r =>
  mk_vtf_cm_block_buffer (bb_bytes r) (bb_length r) (bb_owns_bytes r) (bb_output_id r).

(** ** Core Video objects *)

Record vtf_cv_pixel_buffer := mk_vtf_cv_pixel_buffer {
  px_pool_ref : Z;
  px_pool_host_id : Z;
  px_host_generation : Z;
  px_host_backing_kind : Z;
  px_recycled : bool;
  px_cache_valid : bool;
  px_backing_store_owned : bool;
  px_mapped_backing_active : bool;
  px_state : Z;
  px_slot_index : Z;
  px_slot_offset : Z;
  px_slot_region_size : Z;
  px_lock_flags : Z;
  px_lock_snapshot : rawptr;
  px_lock_snapshot_size : Z;
  px_backing_store : rawptr;
  px_backing_store_size : Z;
  px_mapped_region_base : rawptr;
  px_mapped_region_size : Z;
  px_total_size : Z;
  px_width : Z;
  px_height : Z;
  px_pixel_format : Z;
  px_plane_count : Z;
  px_plane_offsets : list Z;
  px_plane_widths : list Z;
  px_plane_heights : list Z;
  px_plane_bytes_per_row : list Z;
  px_plane_data : list rawptr;
  px_attachments : Z;
  px_locked : bool
}.

Record vtf_cv_pixel_buffer_pool := mk_vtf_cv_pixel_buffer_pool {
  pool_width : Z;
  pool_height : Z;
  pool_pixel_format : Z;
  pool_host_backing_kind : Z;
  pool_slot_count : Z;
  pool_buffer_region_size : Z;
  pool_layout : BufferLayoutReply;
  pool_owner_session : Z;
  pool_pixel_buffer_attributes : Z
}.

(** ** VideoToolbox sessions

    The two [malloc]ed arrays of pending buffers are [None] while null; the first
    [pending_count] elements are in use. *)

Record vtf_vt_session_property := mk_vtf_vt_session_property {
  prop_key : list byte;
  prop_value : Z
}.

Record vtf_vt_session := mk_vtf_vt_session {
  vts_width : Z;
  vts_height : Z;
  vts_codec_type : Z;
  vts_pixel_format : Z;
  vts_properties : Z;
  vts_source_image_buffer_attributes : Z;
  vts_output_callback : option Z;
  vts_output_refcon : Z;
  vts_pixel_buffer_pool : Z;
  vts_prepared : bool;
  vts_invalidated : bool;
  vts_pending_count : Z;
  vts_pending_capacity : Z;
  vts_pending_image_buffers : option (list Z);
  vts_pending_source_frame_refcons : option (list Z);
  vts_pending_encode_count : Z;
  vts_pending_encode_payloads : list EncodeFramePayload;
  vts_stored_property_count : Z;
  vts_stored_properties : list vtf_vt_session_property
}.

Record vtf_vt_decompression_session := mk_vtf_vt_decompression_session {
  vtd_codec_type : Z;
  vtd_width : Z;
  vtd_height : Z;
  vtd_output_callback : option Z;
  vtd_output_refcon : Z;
  vtd_format_description : Z;
  vtd_format_set : bool;
  vtd_invalidated : bool;
  vtd_chunked_output : bool
}.

(** What follows the header of an object. *)
Inductive object_body :=
| String_ (s : vtf_cf_string)
| Number (n : vtf_cf_number)
| Data (d : vtf_cf_data)
| Array (a : vtf_cf_array)
| Dictionary (d : vtf_cf_dictionary)
| Boolean_ (b : vtf_cf_boolean)
| BlockBuffer (b : vtf_cm_block_buffer)
| FormatDescription (f : vtf_cm_format_description)
| SampleBuffer (s : vtf_cm_sample_buffer)
| PixelBuffer (b : vtf_cv_pixel_buffer)
| PixelBufferPool (p : vtf_cv_pixel_buffer_pool)
| VtSession (s : vtf_vt_session)
| VtDecompressionSession (s : vtf_vt_decompression_session).

Record object := mk_object { ob_base : vtf_cf_object; ob_body : object_body }.

(** Setters of the records that are updated in place. *)
#[export] Instance vtf_cf_object_eta : Eta vtf_cf_object := fun r =>
  mk_vtf_cf_object (cf_magic r) (cf_type_id r) (cf_refcount r) (cf_flags r) (cf_proxy_id r)
    (cf_generation r) (cf_host_id r) (cf_finalize r).
#[export] Instance vtf_cf_dictionary_eta : Eta vtf_cf_dictionary := fun r =>
  mk_vtf_cf_dictionary (cfd_keys r) (cfd_values r).
#[export] Instance vtf_cm_format_description_eta : Eta vtf_cm_format_description := fun r =>
  mk_vtf_cm_format_description (fd_codec_type r) (fd_width r) (fd_height r) (fd_extensions r)
    (fd_nal_header_length r) (fd_parameter_set_count r) (fd_parameter_set_sizes r)
    (fd_parameter_sets r).
#[export] Instance vtf_cv_pixel_buffer_eta : Eta vtf_cv_pixel_buffer := fun r =>
  mk_vtf_cv_pixel_buffer (px_pool_ref r) (px_pool_host_id r) (px_host_generation r)
    (px_host_backing_kind r) (px_recycled r) (px_cache_valid r) (px_backing_store_owned r)
    (px_mapped_backing_active r) (px_state r) (px_slot_index r) (px_slot_offset r)
    (px_slot_region_size r) (px_lock_flags r) (px_lock_snapshot r) (px_lock_snapshot_size r)
    (px_backing_store r) (px_backing_store_size r) (px_mapped_region_base r)
    (px_mapped_region_size r) (px_total_size r) (px_width r) (px_height r) (px_pixel_format r)
    (px_plane_count r) (px_plane_offsets r) (px_plane_widths r) (px_plane_heights r)
    (px_plane_bytes_per_row r) (px_plane_data r) (px_attachments r) (px_locked r).
#[export] Instance vtf_vt_session_eta : Eta vtf_vt_session := fun r =>
  mk_vtf_vt_session (vts_width r) (vts_height r) (vts_codec_type r) (vts_pixel_format r)
    (vts_properties r) (vts_source_image_buffer_attributes r) (vts_output_callback r)
    (vts_output_refcon r) (vts_pixel_buffer_pool r) (vts_prepared r) (vts_invalidated r)
    (vts_pending_count r) (vts_pending_capacity r) (vts_pending_image_buffers r)
    (vts_pending_source_frame_refcons r) (vts_pending_encode_count r)
    (vts_pending_encode_payloads r) (vts_stored_property_count r) (vts_stored_properties r).
#[export] Instance vtf_vt_decompression_session_eta : Eta vtf_vt_decompression_session := fun r =>
  mk_vtf_vt_decompression_session (vtd_codec_type r) (vtd_width r) (vtd_height r)
    (vtd_output_callback r) (vtd_output_refcon r) (vtd_format_description r) (vtd_format_set r)
    (vtd_invalidated r) (vtd_chunked_output r).
#[export] Instance object_eta : Eta object := fun r =>
  mk_object (ob_base r) (ob_body r).

(** ** The process

    The statics of [runtime.rs] beside the memory; [gs_next] is the allocator. *)
Record guest (os : Type) := mk_guest {
  gs_heap : gmap Z object;
  gs_blocks : gmap Z (list byte);
  gs_next : Z;
  gs_next_proxy_id : Z;
  gs_alive : Z;
  gs_data_copy_bytes : Z;
  gs_data_copy_events : Z;
  gs_sessions_created : Z;
  gs_sessions_destroyed : Z;
  gs_transport : transport os
}.
Arguments mk_guest {os}.
Arguments gs_heap {os}.
Arguments gs_blocks {os}.
Arguments gs_next {os}.
Arguments gs_next_proxy_id {os}.
Arguments gs_alive {os}.
Arguments gs_data_copy_bytes {os}.
Arguments gs_data_copy_events {os}.
Arguments gs_sessions_created {os}.
Arguments gs_sessions_destroyed {os}.
Arguments gs_transport {os}.
#[export] Instance guest_eta os : Eta (guest os) := fun r =>
  mk_guest (gs_heap r) (gs_blocks r) (gs_next r) (gs_next_proxy_id r) (gs_alive r)
    (gs_data_copy_bytes r) (gs_data_copy_events r) (gs_sessions_created r)
    (gs_sessions_destroyed r) (gs_transport r).

(** Outcomes of guest code.  [NoFuel] is the only one no real run has. *)
Inductive gres (A : Type) : Type :=
| Done (a : A)
| Aborted
| UB
| NoFuel.
Arguments Done {A} a.
Arguments Aborted {A}.
Arguments UB {A}.
Arguments NoFuel {A}.

Definition G (os A : Type) : Type := guest os -> gres (A * guest os).
#[export] Instance G_ret {os} : MRet (G os) := fun A a w => Done (a, w).
#[export] Instance G_bind {os} : MBind (G os) := fun A B f m w =>
  match m w with
  | Done (a, w') => f a w'
  | Aborted => Aborted
  | UB => UB
  | NoFuel => NoFuel
  end.

(** Signed arithmetic on [i64]. *)
Definition arith_i64 `{!Profile} (z : Z) : rust Z :=
  if (- 2 ^ 63 <=? z) && (z <? 2 ^ 63) then Val z
  else if overflow_checks then Panic else Val (as_signed 64 z).

Section guest.
Context {os : Type}.
Abbreviation G := (G os).
Abbreviation guest := (guest os).

Definition ub {A} : G A := fun _ => UB.
(** An index out of bounds. *)
Definition abort {A} : G A := fun _ => Aborted.
Definition no_fuel {A} : G A := fun _ => NoFuel.
Definition gets {A} (f : guest -> A) : G A := fun w => Done (f w, w).
Definition modify_guest (f : guest -> guest) : G unit := fun w => Done (tt, f w).

(** A panic in an [extern "C"] function aborts the process. *)
Definition of_rust {A} (r : rust A) : G A := fun w =>
  match r with Val a => Done (a, w) | Panic => Aborted end.

(** A call of the transport; its [Result] is a value. *)
Definition transport_call {A} (m : T os A) : G (A + Z) := fun w =>
  match m (gs_transport w) with
  | Val (r, t) => Done (r, w <| gs_transport := t |>)
  | Panic => Aborted
  end.

Fixpoint for_each {A} (f : A -> G unit) (l : list A) : G unit :=
  match l with
  | [] => mret tt
  | x :: l => _ ← f x; for_each f l
  end.

(** ** Memory *)

Definition get_object (p : Z) : G object := fun w =>
  match gs_heap w !! p with Some o => Done (o, w) | None => UB end.

Definition put_object (p : Z) (o : object) : G unit := fun w =>
  match gs_heap w !! p with
  | Some _ => Done (tt, w <| gs_heap ::= insert p o |>)
  | None => UB
  end.

(** [Box::from_raw(obj)], dropped. *)
Definition free_object (p : Z) : G unit := fun w =>
  match gs_heap w !! p with
  | Some _ => Done (tt, w <| gs_heap ::= delete p |>)
  | None => UB
  end.

(** [Box::into_raw(Box::new(..))] *)
Definition new_object (o : object) : G Z := fun w =>
  Done (gs_next w, w <| gs_heap ::= insert (gs_next w) o |> <| gs_next ::= Z.succ |>).

(** A boxed byte slice; an empty one is a dangling pointer. *)
Definition dangling : rawptr := Some (-1, 0).

Definition box_bytes (bs : list byte) : G rawptr :=
  match bs with
  | [] => mret dangling
  | _ => fun w =>
      Done (Some (gs_next w, 0),
            w <| gs_blocks ::= insert (gs_next w) bs |> <| gs_next ::= Z.succ |>)
  end.

(** [Box::from_raw(slice::from_raw_parts_mut(p, n))], dropped. *)
Definition free_bytes (p : rawptr) (n : Z) : G unit :=
  if n =? 0 then mret tt else fun w =>
  match p with
  | Some (b, 0) =>
      match gs_blocks w !! b with
      | Some bs => if len bs =? n then Done (tt, w <| gs_blocks ::= delete b |>) else UB
      | None => UB
      end
  | _ => UB
  end.

Definition read_bytes (p : rawptr) (n : Z) : G (list byte) :=
  if n =? 0 then mret [] else fun w =>
  match p with
  | Some (b, off) =>
      match gs_blocks w !! b with
      | Some bs =>
          if (0 <=? off) && (0 <=? n) && (off + n <=? len bs)
          then Done (slice (Z.to_nat off) (Z.to_nat n) bs, w)
          else UB
      | None => UB
      end
  | None => UB
  end.

Definition write_bytes (p : rawptr) (bs : list byte) : G unit :=
  match bs with
  | [] => mret tt
  | _ => fun w =>
      match p with
      | Some (b, off) =>
          match gs_blocks w !! b with
          | Some old =>
              if (0 <=? off) && (off + len bs <=? len old)
              then Done (tt, w <| gs_blocks ::= insert b (write_at (Z.to_nat off) bs old) |>)
              else UB
          | None => UB
          end
      | None => UB
      end
  end.

(** ** Reading an object at a type: [&*(p as *const T)] *)

Definition as_string (p : Z) : G vtf_cf_string :=
  o ← get_object p; match ob_body o with String_ s => mret s | _ => ub end.
Definition as_number (p : Z) : G vtf_cf_number :=
  o ← get_object p; match ob_body o with Number n => mret n | _ => ub end.
Definition as_data (p : Z) : G vtf_cf_data :=
  o ← get_object p; match ob_body o with Data d => mret d | _ => ub end.
Definition as_array (p : Z) : G vtf_cf_array :=
  o ← get_object p; match ob_body o with Array a => mret a | _ => ub end.
Definition as_dictionary (p : Z) : G vtf_cf_dictionary :=
  o ← get_object p; match ob_body o with Dictionary d => mret d | _ => ub end.
Definition as_boolean (p : Z) : G vtf_cf_boolean :=
  o ← get_object p; match ob_body o with Boolean_ b => mret b | _ => ub end.
Definition as_block_buffer (p : Z) : G vtf_cm_block_buffer :=
  o ← get_object p; match ob_body o with BlockBuffer b => mret b | _ => ub end.
Definition as_format_description (p : Z) : G vtf_cm_format_description :=
  o ← get_object p; match ob_body o with FormatDescription f => mret f | _ => ub end.
Definition as_sample_buffer (p : Z) : G vtf_cm_sample_buffer :=
  o ← get_object p; match ob_body o with SampleBuffer s => mret s | _ => ub end.
Definition as_pixel_buffer (p : Z) : G vtf_cv_pixel_buffer :=
  o ← get_object p; match ob_body o with PixelBuffer b => mret b | _ => ub end.
Definition as_pixel_buffer_pool (p : Z) : G vtf_cv_pixel_buffer_pool :=
  o ← get_object p; match ob_body o with PixelBufferPool q => mret q | _ => ub end.
Definition as_vt_session (p : Z) : G vtf_vt_session :=
  o ← get_object p; match ob_body o with VtSession s => mret s | _ => ub end.
Definition as_vt_decompression_session (p : Z) : G vtf_vt_decompression_session :=
  o ← get_object p; match ob_body o with VtDecompressionSession s => mret s | _ => ub end.

(** Assignments through a typed pointer. *)
Definition put_body (p : Z) (b : object_body) : G unit :=
  o ← get_object p; put_object p (o <| ob_body := b |>).

(** ** The header *)

(** [vtf_cf_object::init] *)
Definition vtf_cf_object_init (type_id : Z) (finalize : option finalizer) : G vtf_cf_object :=
  fun w =>
  let w := w <| gs_alive ::= (fun n => as_signed 64 (n + 1)) |> in
  Done (mk_vtf_cf_object VTF_OBJECT_MAGIC type_id 1 0 (gs_next_proxy_id w) 1 0 finalize,
        w <| gs_next_proxy_id ::= (fun n => wrap 64 (n + 1)) |>).

(** [vtf_cf_object::with_host_id] *)
Definition vtf_cf_object_with_host_id (type_id : Z) (finalize : option finalizer)
    (proxy_id host_id generation : Z) : G vtf_cf_object := fun w =>
  Done (mk_vtf_cf_object VTF_OBJECT_MAGIC type_id 1 0 proxy_id generation host_id finalize,
        w <| gs_alive ::= (fun n => as_signed 64 (n + 1)) |>).

Definition vtf_record_proxy_alive_increment : G unit :=
  modify_guest (fun w => w <| gs_alive ::= (fun n => as_signed 64 (n + 1)) |>).

Definition vtf_record_data_copy (bytes : Z) : G unit :=
  modify_guest (fun w => w <| gs_data_copy_bytes ::= (fun n => wrap 64 (n + bytes)) |>
                           <| gs_data_copy_events ::= (fun n => wrap 64 (n + 1)) |>).

Definition vtf_record_vt_session_created : G unit :=
  modify_guest (fun w => w <| gs_sessions_created ::= (fun n => wrap 64 (n + 1)) |>).

Definition vtf_record_vt_session_destroyed : G unit :=
  modify_guest (fun w => w <| gs_sessions_destroyed ::= (fun n => wrap 64 (n + 1)) |>).

(** The counters, as the diagnostics read them. *)
Definition vtf_proxy_alive_count : G Z := gets gs_alive.
Definition vtf_data_copy_bytes : G Z := gets gs_data_copy_bytes.
Definition vtf_data_copy_events : G Z := gets gs_data_copy_events.
Definition vtf_vt_sessions_created : G Z := gets gs_sessions_created.
Definition vtf_vt_sessions_destroyed : G Z := gets gs_sessions_destroyed.
Definition vtf_vt_sessions_live `{!Profile} : G Z :=
  created ← vtf_vt_sessions_created;
  destroyed ← vtf_vt_sessions_destroyed;
  of_rust (arith_i64 (as_signed 64 created - as_signed 64 destroyed)).

(** [vtf_get_type_id] and the other getters: [0] on null. *)
Definition header_field (get : vtf_cf_object -> Z) (value : Z) : G Z :=
  if value =? 0 then mret 0 else o ← get_object value; mret (get (ob_base o)).

Definition vtf_get_type_id : Z -> G Z := header_field cf_type_id.
Definition vtf_get_proxy_id : Z -> G Z := header_field cf_proxy_id.
Definition vtf_get_generation : Z -> G Z := header_field cf_generation.
Definition vtf_get_host_id : Z -> G Z := header_field cf_host_id.

Definition vtf_bind_host_id (value host_id : Z) : G unit :=
  if value =? 0 then mret tt
  else o ← get_object value;
       put_object value (o <| ob_base ::= (fun b => b <| cf_host_id := host_id |>) |>).

Definition vtf_bump_generation `{!Profile} (value : Z) : G Z :=
  if value =? 0 then mret 0
  else o ← get_object value;
       next ← of_rust (arith 64 (cf_generation (ob_base o) + 1));
       _ ← put_object value
             (o <| ob_base ::= (fun b => b <| cf_generation := next |> <| cf_host_id := 0 |>) |>);
       mret next.

(** Pointer equality, whatever the types. *)
Definition CFEqual (lhs rhs : Z) : G bool :=
  if lhs =? rhs then mret true
  else if (lhs =? 0) || (rhs =? 0) then mret false
  else lhs_type ← vtf_get_type_id lhs;
       rhs_type ← vtf_get_type_id rhs;
       if negb (lhs_type =? rhs_type) then mret false else mret (lhs =? rhs).

Definition CFRetain (value : Z) : G Z :=
  if value =? 0 then mret 0
  else
    obj ← get_object value;
    _ ← (if Z.land (cf_flags (ob_base obj)) VTF_OBJECT_FLAG_STATIC =? 0
         then put_object value
                (obj <| ob_base ::= (fun b =>
                   b <| cf_refcount ::= (fun n => as_signed 32 (n + 1)) |>) |>)
         else mret tt);
    mret value.
End guest.

(** ** The exported constants

    The string keys of the four files (exported symbol, literal).  The two
    booleans are at addresses [1] and [2], the strings follow; the literals are
    blocks of the same number. *)

Definition coremedia_keys : list (string * string) := [
  ("kCMSampleAttachmentKey_NotSync", "NotSync");
  ("kCMFormatDescriptionKey_PixelAspectRatioHorizontalSpacing", "HorizontalSpacing");
  ("kCMFormatDescriptionKey_PixelAspectRatioVerticalSpacing", "VerticalSpacing");
  ("kCMFormatDescriptionExtension_SampleDescriptionExtensionAtoms", "SampleDescriptionExtensionAtoms");
  ("kCMFormatDescriptionExtension_VerbatimSampleDescription", "VerbatimSampleDescription")
].

Definition pixel_buffer_keys : list (string * string) := [
  ("kCVPixelBufferPixelFormatTypeKey", "PixelFormatType");
  ("kCVPixelBufferWidthKey", "Width");
  ("kCVPixelBufferHeightKey", "Height");
  ("kCVPixelBufferBytesPerRowAlignmentKey", "BytesPerRowAlignment");
  ("kCVPixelBufferIOSurfacePropertiesKey", "IOSurfaceProperties");
  ("kCVPixelBufferOpenGLESCompatibilityKey", "OpenGLESCompatibility");
  ("kCVPixelBufferIOSurfaceOpenGLTextureCompatibilityKey", "IOSurfaceOpenGLTextureCompatibility");
  ("kCVImageBufferPixelAspectRatioKey", "PixelAspectRatio");
  ("kCVImageBufferPixelAspectRatioHorizontalSpacingKey", "PixelAspectRatioHorizontalSpacing");
  ("kCVImageBufferPixelAspectRatioVerticalSpacingKey", "PixelAspectRatioVerticalSpacing")
].

Definition color_keys : list (string * string) := [
  ("kCVImageBufferYCbCrMatrixKey", "YCbCrMatrix");
  ("kCVImageBufferYCbCrMatrix_ITU_R_709_2", "ITU_R_709_2");
  ("kCVImageBufferYCbCrMatrix_ITU_R_601_4", "ITU_R_601_4");
  ("kCVImageBufferYCbCrMatrix_SMPTE_240M_1995", "SMPTE_240M_1995");
  ("kCVImageBufferYCbCrMatrix_ITU_R_2020", "ITU_R_2020");
  ("kCVImageBufferColorPrimariesKey", "ColorPrimaries");
  ("kCVImageBufferColorPrimaries_ITU_R_709_2", "ITU_R_709_2");
  ("kCVImageBufferColorPrimaries_SMPTE_C", "SMPTE_C");
  ("kCVImageBufferColorPrimaries_EBU_3213", "EBU_3213");
  ("kCVImageBufferColorPrimaries_ITU_R_2020", "ITU_R_2020")
].

Definition transfer_function_keys : list (string * string) := [
  ("kCVImageBufferTransferFunctionKey", "TransferFunction");
  ("kCVImageBufferTransferFunction_ITU_R_709_2", "ITU_R_709_2");
  ("kCVImageBufferTransferFunction_SMPTE_240M_1995", "SMPTE_240M_1995");
  ("kCVImageBufferTransferFunction_UseGamma", "UseGamma");
  ("kCVImageBufferTransferFunction_ITU_R_2020", "ITU_R_2020");
  ("kCVImageBufferTransferFunction_SMPTE_ST_428_1", "SMPTE_ST_428_1");
  ("kCVImageBufferTransferFunction_SMPTE_ST_2084_PQ", "SMPTE_ST_2084_PQ");
  ("kCVImageBufferTransferFunction_ITU_R_2100_HLG", "ITU_R_2100_HLG");
  ("kCVImageBufferGammaLevelKey", "GammaLevel");
  ("kCVImageBufferCGColorSpaceKey", "CGColorSpace")
].

Definition chroma_location_keys : list (string * string) := [
  ("kCVImageBufferChromaLocation_Left", "Left");
  ("kCVImageBufferChromaLocation_Center", "Center");
  ("kCVImageBufferChromaLocation_Top", "Top");
  ("kCVImageBufferChromaLocation_Bottom", "Bottom");
  ("kCVImageBufferChromaLocation_TopLeft", "TopLeft");
  ("kCVImageBufferChromaLocation_BottomLeft", "BottomLeft");
  ("kCVImageBufferChromaLocationTopFieldKey", "ChromaLocationTopField")
].

Definition corevideo_keys : list (string * string) :=
  pixel_buffer_keys ++ color_keys ++ transfer_function_keys ++ chroma_location_keys.

Definition compression_property_keys : list (string * string) := [
  ("kVTCompressionPropertyKey_RealTime", "RealTime");
  ("kVTCompressionPropertyKey_ProfileLevel", "ProfileLevel");
  ("kVTCompressionPropertyKey_AverageBitRate", "AverageBitRate");
  ("kVTCompressionPropertyKey_ColorPrimaries", "ColorPrimaries");
  ("kVTCompressionPropertyKey_ExpectedFrameRate", "ExpectedFrameRate");
  ("kVTCompressionPropertyKey_MaxKeyFrameInterval", "MaxKeyFrameInterval");
  ("kVTCompressionPropertyKey_MoreFramesAfterEnd", "MoreFramesAfterEnd");
  ("kVTCompressionPropertyKey_MoreFramesBeforeStart", "MoreFramesBeforeStart");
  ("kVTCompressionPropertyKey_AllowFrameReordering", "AllowFrameReordering");
  ("kVTCompressionPropertyKey_DataRateLimits", "DataRateLimits");
  ("kVTCompressionPropertyKey_H264EntropyMode", "H264EntropyMode");
  ("kVTH264EntropyMode_CABAC", "CABAC");
  ("kVTH264EntropyMode_CAVLC", "CAVLC");
  ("kVTCompressionPropertyKey_PixelAspectRatio", "PixelAspectRatio")
].

Definition more_property_keys : list (string * string) := [
  ("kVTCompressionPropertyKey_Quality", "Quality");
  ("kVTCompressionPropertyKey_TransferFunction", "TransferFunction");
  ("kVTCompressionPropertyKey_YCbCrMatrix", "YCbCrMatrix");
  ("kVTCompressionPropertyKey_EncoderID", "EncoderID");
  ("kVTCompressionPropertyKey_MaxH264SliceBytes", "MaxH264SliceBytes");
  ("kVTCompressionPropertyKey_ConstantBitRate", "ConstantBitRate");
  ("kVTCompressionPropertyKey_TargetQualityForAlpha", "TargetQualityForAlpha");
  ("kVTCompressionPropertyKey_PrioritizeEncodingSpeedOverQuality", "PrioritizeEncodingSpeedOverQuality");
  ("kVTCompressionPropertyKey_AllowOpenGOP", "AllowOpenGOP");
  ("kVTCompressionPropertyKey_MaximizePowerEfficiency", "MaximizePowerEfficiency");
  ("kVTCompressionPropertyKey_SpatialAdaptiveQPLevel", "SpatialAdaptiveQPLevel");
  ("kVTCompressionPropertyKey_ReferenceBufferCount", "ReferenceBufferCount");
  ("kVTCompressionPropertyKey_MaxAllowedFrameQP", "MaxAllowedFrameQP");
  ("kVTCompressionPropertyKey_MinAllowedFrameQP", "MinAllowedFrameQP")
].

Definition encoder_option_keys : list (string * string) := [
  ("kVTVideoEncoderSpecification_EncoderID", "EncoderID");
  ("kVTVideoEncoderSpecification_EnableHardwareAcceleratedVideoEncoder", "EnableHardwareAcceleratedVideoEncoder");
  ("kVTVideoEncoderSpecification_RequireHardwareAcceleratedVideoEncoder", "RequireHardwareAcceleratedVideoEncoder");
  ("kVTVideoEncoderSpecification_EnableLowLatencyRateControl", "EnableLowLatencyRateControl");
  ("kVTEncodeFrameOptionKey_ForceKeyFrame", "ForceKeyFrame")
].

Definition videotoolbox_property_keys : list (string * string) :=
  compression_property_keys ++ more_property_keys ++ encoder_option_keys.

Definition baseline_levels : list (string * string) := [
  ("kVTProfileLevel_H264_Baseline_1_3", "H264_Baseline_1_3");
  ("kVTProfileLevel_H264_Baseline_3_0", "H264_Baseline_3_0");
  ("kVTProfileLevel_H264_Baseline_3_1", "H264_Baseline_3_1");
  ("kVTProfileLevel_H264_Baseline_3_2", "H264_Baseline_3_2");
  ("kVTProfileLevel_H264_Baseline_4_0", "H264_Baseline_4_0");
  ("kVTProfileLevel_H264_Baseline_4_1", "H264_Baseline_4_1");
  ("kVTProfileLevel_H264_Baseline_4_2", "H264_Baseline_4_2");
  ("kVTProfileLevel_H264_Baseline_5_0", "H264_Baseline_5_0");
  ("kVTProfileLevel_H264_Baseline_5_1", "H264_Baseline_5_1");
  ("kVTProfileLevel_H264_Baseline_5_2", "H264_Baseline_5_2");
  ("kVTProfileLevel_H264_Baseline_AutoLevel", "H264_Baseline_AutoLevel")
].

Definition main_levels : list (string * string) := [
  ("kVTProfileLevel_H264_Main_3_0", "H264_Main_3_0");
  ("kVTProfileLevel_H264_Main_3_1", "H264_Main_3_1");
  ("kVTProfileLevel_H264_Main_3_2", "H264_Main_3_2");
  ("kVTProfileLevel_H264_Main_4_0", "H264_Main_4_0");
  ("kVTProfileLevel_H264_Main_4_1", "H264_Main_4_1");
  ("kVTProfileLevel_H264_Main_4_2", "H264_Main_4_2");
  ("kVTProfileLevel_H264_Main_5_0", "H264_Main_5_0");
  ("kVTProfileLevel_H264_Main_5_1", "H264_Main_5_1");
  ("kVTProfileLevel_H264_Main_5_2", "H264_Main_5_2");
  ("kVTProfileLevel_H264_Main_AutoLevel", "H264_Main_AutoLevel")
].

Definition high_levels : list (string * string) := [
  ("kVTProfileLevel_H264_High_3_0", "H264_High_3_0");
  ("kVTProfileLevel_H264_High_3_1", "H264_High_3_1");
  ("kVTProfileLevel_H264_High_3_2", "H264_High_3_2");
  ("kVTProfileLevel_H264_High_4_0", "H264_High_4_0");
  ("kVTProfileLevel_H264_High_4_1", "H264_High_4_1");
  ("kVTProfileLevel_H264_High_4_2", "H264_High_4_2");
  ("kVTProfileLevel_H264_High_5_0", "H264_High_5_0");
  ("kVTProfileLevel_H264_High_5_1", "H264_High_5_1");
  ("kVTProfileLevel_H264_High_5_2", "H264_High_5_2");
  ("kVTProfileLevel_H264_High_AutoLevel", "H264_High_AutoLevel");
  ("kVTProfileLevel_H264_Extended_5_0", "H264_Extended_5_0");
  ("kVTProfileLevel_H264_Extended_AutoLevel", "H264_Extended_AutoLevel");
  ("kVTProfileLevel_H264_ConstrainedBaseline_AutoLevel", "H264_ConstrainedBaseline_AutoLevel");
  ("kVTProfileLevel_H264_ConstrainedHigh_AutoLevel", "H264_ConstrainedHigh_AutoLevel")
].

Definition videotoolbox_profile_levels : list (string * string) :=
  baseline_levels ++ main_levels ++ high_levels.

Definition string_keys : list (string * string) :=
  coremedia_keys ++ corevideo_keys ++ videotoolbox_property_keys ++ videotoolbox_profile_levels.

Definition kCFBooleanTrue : Z := 1.
Definition kCFBooleanFalse : Z := 2.

(** The address of an exported string key. *)
Definition symbol (name : string) : Z :=
  match position (fun k => bool_decide (k.1 = name)) string_keys with
  | Some i => 3 + Z.of_nat i
  | None => 0
  end.

Definition static_base (type_id : Z) : vtf_cf_object :=
  mk_vtf_cf_object VTF_OBJECT_MAGIC type_id 1 VTF_OBJECT_FLAG_STATIC 0 1 0 None.

Definition static_boolean (value : bool) : object :=
  mk_object (static_base VTF_TYPE_BOOLEAN) (Boolean_ (mk_vtf_cf_boolean value)).

Definition string_bytes (s : string) : list byte := String.list_byte_of_string s.

(** [define_string_key!] *)
Definition static_string (address : Z) (literal : string) : object :=
  mk_object (static_base VTF_TYPE_STRING)
    (String_ (mk_vtf_cf_string (Some (address, 0)) (len (string_bytes literal)) false)).

Definition numbered : list (Z * string) :=
  imap (fun i k => (3 + Z.of_nat i, k.2)) string_keys.

Definition static_heap : gmap Z object :=
  <[kCFBooleanTrue := static_boolean true]> (<[kCFBooleanFalse := static_boolean false]>
    (list_to_map ((fun '(a, s) => (a, static_string a s)) <$> numbered))).

(** The literals end with a NUL byte. *)
Definition static_blocks : gmap Z (list byte) :=
  list_to_map ((fun '(a, s) => (a, string_bytes s ++ [Byte.x00])) <$> numbered).

(** The process before its first call. *)
Definition guest_start {os} (t : transport os) : guest os :=
  mk_guest static_heap static_blocks (3 + len string_keys) 1 0 0 0 0 0 t.
