(* ===== verification/Release.v ===== *)
(** * Reference counting

    [CFRelease] of [runtime.rs] and the finalize hooks of the object types: the
    release of the last reference runs the hook of the object's type, which
    releases what the object refers to, tells the worker where the object stands
    for something it holds (an output, a leased buffer, a pool, a session), and
    frees the object.  The invariant [heap_ok] counts references: the count of
    an object is the number of references to it, those of the program and those
    in other objects. *)

From S2P Require Import Prelude Wire Protocol Backend Transport Objects.
From stdpp Require Import strings gmultiset.

Set Default Goal Selector "!".
Open Scope Z_scope.

Definition VTF_CV_BUFFER_STATE_GUEST_WRITABLE : Z := 0.
Definition VTF_CV_BUFFER_STATE_QUEUED_TO_HOST : Z := 1.
Definition VTF_CV_BUFFER_STATE_RECYCLED : Z := 2.

Section release.
Context {os : Type} `{!Net os} `{!Profile} (env : environ).
Abbreviation G := (G os).

(** ** The finalize hooks

    [release] is [CFRelease], which calls them. *)
Section finalizers.
Variable release : Z -> G unit.

Definition vtf_finalize_string (obj : Z) : G unit :=
  string_obj ← as_string obj;
  _ ← (if cfs_owns_bytes string_obj && bool_decide (is_Some (cfs_bytes string_obj))
       then free_bytes (cfs_bytes string_obj) (cfs_length string_obj) else mret tt);
  free_object obj.

Definition vtf_finalize_number (obj : Z) : G unit := _ ← as_number obj; free_object obj.

Definition vtf_finalize_data (obj : Z) : G unit := _ ← as_data obj; free_object obj.

Definition vtf_finalize_array (obj : Z) : G unit :=
  array ← as_array obj;
  _ ← for_each release (cfa_values array);
  free_object obj.

Definition vtf_finalize_dictionary (obj : Z) : G unit :=
  dictionary ← as_dictionary obj;
  _ ← for_each release (cfd_keys dictionary);
  _ ← for_each release (cfd_values dictionary);
  free_object obj.

Definition vtf_finalize_block_buffer (obj : Z) : G unit :=
  bb ← as_block_buffer obj;
  _ ← (if bb_owns_bytes bb && bool_decide (is_Some (bb_bytes bb)) && (bb_length bb >? 0)
       then free_bytes (bb_bytes bb) (bb_length bb) else mret tt);
  free_object obj.

(** The parameter sets in use. *)
Definition parameter_set_boxes (fd : vtf_cm_format_description) : list (rawptr * Z) :=
  take (Z.to_nat (fd_parameter_set_count fd))
    (zip (fd_parameter_sets fd) (fd_parameter_set_sizes fd)).

Definition vtf_finalize_format_description (obj : Z) : G unit :=
  fd ← as_format_description obj;
  _ ← release (fd_extensions fd);
  _ ← for_each (fun x => if bool_decide (is_Some x.1) then free_bytes x.1 x.2 else mret tt)
       (parameter_set_boxes fd);
  free_object obj.

Definition vtf_finalize_sample_buffer (obj : Z) : G unit :=
  sb ← as_sample_buffer obj;
  _ ← (if negb (smp_output_id sb =? 0)
       then _ ← transport_call (transport_release_output env (smp_output_id sb)); mret tt
       else mret tt);
  _ ← (if negb (smp_source_image_buffer sb =? 0)
       then pixel_buffer ← as_pixel_buffer (smp_source_image_buffer sb);
            put_body (smp_source_image_buffer sb)
              (PixelBuffer (pixel_buffer <| px_state := VTF_CV_BUFFER_STATE_GUEST_WRITABLE |>))
       else mret tt);
  _ ← release (smp_source_image_buffer sb);
  _ ← release (smp_data_buffer sb);
  _ ← release (smp_format_description sb);
  _ ← release (smp_attachments sb);
  free_object obj.

Definition vtf_recycle_pixel_buffer (buffer : Z) : G unit :=
  if buffer =? 0 then mret tt else
  o ← get_object buffer;
  b ← as_pixel_buffer buffer;
  if px_recycled b then mret tt else
  result ← transport_call (send_request_unit env OP_RECYCLE_BUFFER
             (mk_RecycleBufferPayload (px_pool_host_id b) (cf_proxy_id (ob_base o))
                (px_host_generation b)));
  match result with
  | inl _ => put_body buffer (PixelBuffer (b <| px_recycled := true |>))
  | inr _ => mret tt
  end.

Definition vtf_finalize_pixel_buffer (obj : Z) : G unit :=
  _ ← as_pixel_buffer obj;
  _ ← vtf_recycle_pixel_buffer obj;
  buffer ← as_pixel_buffer obj;
  _ ← (if negb (px_pool_ref buffer =? 0)
       then _ ← release (px_pool_ref buffer);
            buffer ← as_pixel_buffer obj;
            put_body obj (PixelBuffer (buffer <| px_pool_ref := 0 |>))
       else mret tt);
  buffer ← as_pixel_buffer obj;
  _ ← (if negb (px_attachments buffer =? 0) then release (px_attachments buffer) else mret tt);
  _ ← (if px_backing_store_owned buffer && bool_decide (is_Some (px_backing_store buffer))
       then free_bytes (px_backing_store buffer) (px_backing_store_size buffer) else mret tt);
  _ ← (if bool_decide (is_Some (px_lock_snapshot buffer)) && (px_lock_snapshot_size buffer >? 0)
       then free_bytes (px_lock_snapshot buffer) (px_lock_snapshot_size buffer) else mret tt);
  free_object obj.

Definition vtf_finalize_pixel_buffer_pool (obj : Z) : G unit :=
  o ← get_object obj;
  pool ← as_pixel_buffer_pool obj;
  _ ← (if negb (cf_proxy_id (ob_base o) =? 0)
       then _ ← transport_call (destroy_buffer_pool env (cf_proxy_id (ob_base o))); mret tt
       else mret tt);
  _ ← release (pool_pixel_buffer_attributes pool);
  free_object obj.

(** The stored values and the pending buffers in use. *)
Definition stored_values (s : vtf_vt_session) : list Z :=
  prop_value <$> take (Z.to_nat (vts_stored_property_count s)) (vts_stored_properties s).

Definition pending_buffers (s : vtf_vt_session) : list Z :=
  take (Z.to_nat (vts_pending_count s)) (default [] (vts_pending_image_buffers s)).

(** The counts stay within the arrays: an index outside [stored_properties] panics,
    one outside the [malloc]ed array is undefined. *)
Definition session_counts (s : vtf_vt_session) : G unit :=
  if vts_stored_property_count s >? len (vts_stored_properties s) then abort
  else match vts_pending_image_buffers s with
       | Some buffers => if vts_pending_count s >? len buffers then ub else mret tt
       | None => mret tt
       end.

Definition vtf_finalize_vt_session (obj : Z) : G unit :=
  _ ← vtf_record_vt_session_destroyed;
  o ← get_object obj;
  session ← as_vt_session obj;
  _ ← (if negb (vts_invalidated session)
       then _ ← transport_call (destroy_session env (cf_proxy_id (ob_base o)));
            put_body obj (VtSession (session <| vts_invalidated := true |>))
       else mret tt);
  _ ← (if negb (vts_pixel_buffer_pool session =? 0)
       then release (vts_pixel_buffer_pool session) else mret tt);
  _ ← session_counts session;
  _ ← for_each release (stored_values session);
  _ ← for_each release (pending_buffers session);
  _ ← release (vts_source_image_buffer_attributes session);
  _ ← release (vts_properties session);
  free_object obj.

Definition vtf_finalize_vt_decompression_session (obj : Z) : G unit :=
  if obj =? 0 then mret tt else
  o ← get_object obj;
  session ← as_vt_decompression_session obj;
  _ ← (if negb (vtd_invalidated session)
       then _ ← transport_call (destroy_session env (cf_proxy_id (ob_base o)));
            put_body obj (VtDecompressionSession (session <| vtd_invalidated := true |>))
       else mret tt);
  _ ← (if negb (vtd_format_description session =? 0)
       then release (vtd_format_description session) else mret tt);
  _ ← free_object obj;
  vtf_record_vt_session_destroyed.

Definition run_finalizer (fin : finalizer) : Z -> G unit :=
  match fin with
  | Finalize_string => vtf_finalize_string
  | Finalize_number => vtf_finalize_number
  | Finalize_data => vtf_finalize_data
  | Finalize_array => vtf_finalize_array
  | Finalize_dictionary => vtf_finalize_dictionary
  | Finalize_block_buffer => vtf_finalize_block_buffer
  | Finalize_format_description => vtf_finalize_format_description
  | Finalize_sample_buffer => vtf_finalize_sample_buffer
  | Finalize_pixel_buffer => vtf_finalize_pixel_buffer
  | Finalize_pixel_buffer_pool => vtf_finalize_pixel_buffer_pool
  | Finalize_vt_session => vtf_finalize_vt_session
  | Finalize_vt_decompression_session => vtf_finalize_vt_decompression_session
  end.
End finalizers.

(** [CFRelease], with a bound on the nesting of finalizers. *)
Fixpoint release_within (fuel : nat) (value : Z) : G unit :=
  match fuel with
  | O => no_fuel
  | S fuel =>
      if value =? 0 then mret tt else
      obj ← get_object value;
      if negb (Z.land (cf_flags (ob_base obj)) VTF_OBJECT_FLAG_STATIC =? 0) then mret tt else
      _ ← put_object value
            (obj <| ob_base ::= (fun b =>
               b <| cf_refcount ::= (fun n => as_signed 32 (n - 1)) |>) |>);
      if cf_refcount (ob_base obj) =? 1 then
        _ ← match cf_finalize (ob_base obj) with
            | Some fin => run_finalizer (release_within fuel) fin value
            | None => mret tt
            end;
        modify_guest (fun w => w <| gs_alive ::= (fun n => as_signed 64 (n - 1)) |>)
      else mret tt
  end.

(** One object more than there are objects is enough. *)
Definition CFRelease (value : Z) : G unit := fun w =>
  release_within (S (size (gs_heap w))) value w.
End release.
