(* ===== verification/Refcount.v ===== *)
(** * References are counted

    The invariant of the guest's heap and its preservation by [CFRelease].
    [C] gives, for every object that is not being finalized, the references it
    holds; [own] the references the running code holds.  The reference count of
    an object is the number of times it occurs in both. *)

From S2P Require Import Prelude Wire Protocol Backend Transport Objects Release.
From stdpp Require Import strings gmultiset fin_maps.

Set Default Goal Selector "!".
Open Scope Z_scope.

(** ** What an object refers to *)

(** The references of a list of pointers, null ones left out. *)
Definition refs_of (l : list Z) : gmultiset Z := list_to_set_disj (filter (fun p => p <> 0) l).

Definition body_fields (b : object_body) : list Z :=
  match b with
  | Array a => cfa_values a
  | Dictionary d => cfd_keys d ++ cfd_values d
  | FormatDescription f => [fd_extensions f]
  | SampleBuffer s =>
      [smp_source_image_buffer s; smp_data_buffer s; smp_format_description s; smp_attachments s]
  | PixelBuffer b => [px_pool_ref b; px_attachments b]
  | PixelBufferPool p => [pool_pixel_buffer_attributes p]
  | VtSession s =>
      vts_pixel_buffer_pool s :: stored_values s ++ pending_buffers s ++
      [vts_source_image_buffer_attributes s; vts_properties s]
  | VtDecompressionSession s => [vtd_format_description s]
  | String_ _ | Number _ | Data _ | Boolean_ _ | BlockBuffer _ => []
  end.

(** The block of a boxed slice, if it has one. *)
Definition box_of (p : rawptr) (n : Z) : list (Z * Z) :=
  match p with Some (b, _) => if n =? 0 then [] else [(b, n)] | None => [] end.

Definition body_boxes (b : object_body) : list (rawptr * Z) :=
  match b with
  | String_ s => if cfs_owns_bytes s then [(cfs_bytes s, cfs_length s)] else []
  | BlockBuffer b => if bb_owns_bytes b then [(bb_bytes b, bb_length b)] else []
  | FormatDescription f => parameter_set_boxes f
  | PixelBuffer b =>
      (if px_backing_store_owned b then [(px_backing_store b, px_backing_store_size b)] else []) ++
      [(px_lock_snapshot b, px_lock_snapshot_size b)]
  | _ => []
  end.

(** The blocks an object frees with itself. *)
Definition body_blocks (b : object_body) : list (Z * Z) :=
  '(p, n) ← body_boxes b; box_of p n.

(** ** Kinds *)

Definition type_of (b : object_body) : Z :=
  match b with
  | String_ _ => VTF_TYPE_STRING
  | Number _ => VTF_TYPE_NUMBER
  | Data _ => VTF_TYPE_DATA
  | Array _ => VTF_TYPE_ARRAY
  | Dictionary _ => VTF_TYPE_DICTIONARY
  | Boolean_ _ => VTF_TYPE_BOOLEAN
  | BlockBuffer _ => VTF_TYPE_BLOCK_BUFFER
  | FormatDescription _ => VTF_TYPE_FORMAT_DESCRIPTION
  | SampleBuffer _ => VTF_TYPE_SAMPLE_BUFFER
  | PixelBuffer _ => VTF_TYPE_PIXEL_BUFFER
  | PixelBufferPool _ => VTF_TYPE_PIXEL_BUFFER_POOL
  | VtSession _ => VTF_TYPE_VT_SESSION
  | VtDecompressionSession _ => VTF_TYPE_VT_DECOMPRESSION_SESSION
  end.

Definition finalizer_of (b : object_body) : option finalizer :=
  match b with
  | String_ _ => Some Finalize_string
  | Number _ => Some Finalize_number
  | Data _ => Some Finalize_data
  | Array _ => Some Finalize_array
  | Dictionary _ => Some Finalize_dictionary
  | Boolean_ _ => None
  | BlockBuffer _ => Some Finalize_block_buffer
  | FormatDescription _ => Some Finalize_format_description
  | SampleBuffer _ => Some Finalize_sample_buffer
  | PixelBuffer _ => Some Finalize_pixel_buffer
  | PixelBufferPool _ => Some Finalize_pixel_buffer_pool
  | VtSession _ => Some Finalize_vt_session
  | VtDecompressionSession _ => Some Finalize_vt_decompression_session
  end.

(** Fields the code reads at a type without looking at the type tag. *)
Definition typed_fields (b : object_body) : list (Z * Z) :=
  match b with
  | SampleBuffer s =>
      [(smp_source_image_buffer s, VTF_TYPE_PIXEL_BUFFER);
       (smp_data_buffer s, VTF_TYPE_BLOCK_BUFFER);
       (smp_format_description s, VTF_TYPE_FORMAT_DESCRIPTION)]
  | PixelBuffer b =>
      [(px_pool_ref b, VTF_TYPE_PIXEL_BUFFER_POOL); (px_attachments b, VTF_TYPE_DICTIONARY)]
  | VtSession s =>
      (vts_pixel_buffer_pool s, VTF_TYPE_PIXEL_BUFFER_POOL) ::
      ((fun p => (p, VTF_TYPE_PIXEL_BUFFER)) <$> pending_buffers s)
  | VtDecompressionSession s => [(vtd_format_description s, VTF_TYPE_FORMAT_DESCRIPTION)]
  | _ => []
  end.

Definition is_static (o : object) : Prop :=
  Z.land (cf_flags (ob_base o)) VTF_OBJECT_FLAG_STATIC <> 0.
#[export] Instance is_static_dec o : Decision (is_static o) := _.

(** A pointer that can be given back: null, empty, or the start of a block. *)
Definition boxed (p : rawptr) (n : Z) : Prop :=
  0 <= n /\ (p = None \/ n = 0 \/ exists b, p = Some (b, 0)).

(** The memory of a pixel buffer, present or to be allocated. *)
Definition pixel_extent (b : vtf_cv_pixel_buffer) : Z :=
  match px_backing_store b with
  | Some _ => px_backing_store_size b
  | None => Z.max (px_total_size b) 1
  end.

(** The rows of plane [i] lie inside it. *)
Record plane_fits (b : vtf_cv_pixel_buffer) (i : nat) (off stride rows : Z) : Prop := {
  pf_offset : px_plane_offsets b !! i = Some off;
  pf_stride : px_plane_bytes_per_row b !! i = Some stride;
  pf_rows : px_plane_heights b !! i = Some rows;
  pf_range : 0 <= off /\ 0 <= stride /\ 0 <= rows;
  pf_end : off + stride * rows <= pixel_extent b
}.

Definition plane_pointer (b : vtf_cv_pixel_buffer) (i : nat) (off : Z) : Prop :=
  is_Some (px_backing_store b) -> px_plane_data b !! i = Some (raw_add (px_backing_store b) off).

Record pixel_ok (b : vtf_cv_pixel_buffer) : Prop := {
  po_unmapped : px_mapped_backing_active b = false;
  po_owned : is_Some (px_backing_store b) -> px_backing_store_owned b = true;
  po_total : 0 <= px_total_size b < 2 ^ 32;
  po_data : length (px_plane_data b) = 4%nat;
  po_planes : forall i, Z.of_nat i < Z.min (px_plane_count b) 4 -> exists off stride rows,
    plane_fits b i off stride rows /\ plane_pointer b i off;
  po_strides : length (px_plane_bytes_per_row b) = 4%nat;
  po_extent : is_Some (px_backing_store b) -> px_total_size b <= px_backing_store_size b
}.

(** Both arrays have [pending_capacity] entries, and [malloc] could give them. *)
Record queue_ok (s : vtf_vt_session) : Prop := {
  qo_count : 0 <= vts_pending_count s <= vts_pending_capacity s;
  qo_bytes : vts_pending_capacity s * 8 <= ISIZE_MAX;
  qo_arrays :
    vts_pending_capacity s = 0 /\ vts_pending_image_buffers s = None /\
      vts_pending_source_frame_refcons s = None \/
    exists l r, vts_pending_image_buffers s = Some l /\ vts_pending_source_frame_refcons s = Some r /\
      len l = vts_pending_capacity s /\ len r = vts_pending_capacity s
}.

Record vts_ok (s : vtf_vt_session) : Prop := {
  vo_stored : 0 <= vts_stored_property_count s <= len (vts_stored_properties s);
  vo_slots : len (vts_stored_properties s) = 16;
  vo_queue : queue_ok s;
  vo_encodes : 0 <= vts_pending_encode_count s <= len (vts_pending_encode_payloads s)
}.

(** It looks at the arrays and their counts only. *)
Definition vts_view (s : vtf_vt_session) :=
  (vts_stored_property_count s, vts_stored_properties s, vts_pending_count s, vts_pending_capacity s,
   vts_pending_image_buffers s, vts_pending_source_frame_refcons s,
   (vts_pending_encode_count s, vts_pending_encode_payloads s)).

Lemma vts_ok_view s s' : vts_view s = vts_view s' -> vts_ok s -> vts_ok s'.
Proof.
  intros [= E1 E2 E3 E4 E5 E6 E7 E8] [H1 H0 [H2 H3 H4] H5]. rewrite E1, E2 in H1. rewrite E2 in H0.
  rewrite E3, E4 in H2. rewrite E4 in H3. rewrite E4, E5, E6 in H4. rewrite E7, E8 in H5.
  by split; [| |split|].
Qed.

(** What the code relies on in the fields of an object. *)
Definition body_ok (b : object_body) : Prop :=
  match b with
  | VtSession s => vts_ok s
  | Dictionary d => length (cfd_keys d) = length (cfd_values d)
  | PixelBuffer b => pixel_ok b
  | _ => True
  end.

Record object_ok (o : object) : Prop := {
  oo_type : cf_type_id (ob_base o) = type_of (ob_body o);
  oo_final : ~ is_static o ->
    cf_finalize (ob_base o) = finalizer_of (ob_body o) /\ is_Some (finalizer_of (ob_body o));
  oo_boxed : Forall (fun '(p, n) => boxed p n) (body_boxes (ob_body o));
  oo_blocks : NoDup (body_blocks (ob_body o)).*1;
  oo_static : is_static o ->
    type_of (ob_body o) = VTF_TYPE_STRING \/ type_of (ob_body o) = VTF_TYPE_BOOLEAN;
  oo_counts : body_ok (ob_body o)
}.

(** Objects with the same references, blocks and kind: equal but for the count and
    the state of a pixel buffer. *)
Definition norm_body (b : object_body) : object_body :=
  match b with PixelBuffer b => PixelBuffer (b <| px_state := 0 |>) | _ => b end.
Definition norm (o : object) : object :=
  mk_object ((ob_base o) <| cf_refcount := 0 |>) (norm_body (ob_body o)).
Definition shape_eq (o o' : object) : Prop := norm o = norm o'.

#[export] Instance shape_eq_equiv : Equivalence shape_eq.
Proof. unfold shape_eq. split; [by intros ?|by intros ???|intros ??? -> ->; done]. Qed.

Lemma norm_fields b : body_fields (norm_body b) = body_fields b.
Proof. by destruct b. Qed.
Lemma norm_boxes b : body_boxes (norm_body b) = body_boxes b.
Proof. by destruct b. Qed.
Lemma norm_type b : type_of (norm_body b) = type_of b.
Proof. by destruct b. Qed.
Lemma norm_final b : finalizer_of (norm_body b) = finalizer_of b.
Proof. by destruct b. Qed.
Lemma norm_typed b : typed_fields (norm_body b) = typed_fields b.
Proof. by destruct b. Qed.

(** [pixel_ok] looks at the memory and the planes only. *)
Definition pixel_view (b : vtf_cv_pixel_buffer) :=
  (px_mapped_backing_active b, px_backing_store_owned b, px_backing_store b, px_backing_store_size b,
   px_total_size b, px_plane_data b,
   (px_plane_count b, px_plane_offsets b, px_plane_bytes_per_row b, px_plane_heights b)).

Lemma pixel_ok_view b b' : pixel_view b = pixel_view b' -> pixel_ok b -> pixel_ok b'.
Proof.
  intros [= E1 E2 E3 E4 E5 E6 E7 E8 E9 E10] [H1 H2 H3 H4 H5 H6 H7].
  rewrite E1 in H1. rewrite E2, E3 in H2. rewrite E5 in H3. rewrite E6 in H4. rewrite E9 in H6.
  rewrite E3, E4, E5 in H7. split; try done.
  intros i Hi. rewrite E7 in H5. destruct (H5 i Hi) as (off & stride & rows & [F1 F2 F3 F4 F5] & Hp).
  exists off, stride, rows. unfold plane_pointer, pixel_extent in *. rewrite E3, E4, E5 in F5.
  rewrite E3, E6 in Hp. rewrite E8 in F1. rewrite E9 in F2. rewrite E10 in F3. by split.
Qed.
Lemma norm_body_ok b : body_ok (norm_body b) <-> body_ok b.
Proof. destruct b; try done. by split; apply pixel_ok_view. Qed.

Lemma shape_fields o o' : shape_eq o o' -> body_fields (ob_body o) = body_fields (ob_body o').
Proof. intros E. apply (f_equal ob_body) in E. rewrite <- norm_fields, <- (norm_fields (ob_body o')). by f_equal. Qed.
Lemma shape_boxes o o' : shape_eq o o' -> body_boxes (ob_body o) = body_boxes (ob_body o').
Proof. intros E. apply (f_equal ob_body) in E. rewrite <- norm_boxes, <- (norm_boxes (ob_body o')). by f_equal. Qed.
Lemma shape_type o o' : shape_eq o o' -> type_of (ob_body o) = type_of (ob_body o').
Proof. intros E. apply (f_equal ob_body) in E. rewrite <- norm_type, <- (norm_type (ob_body o')). by f_equal. Qed.
Lemma shape_typed o o' : shape_eq o o' -> typed_fields (ob_body o) = typed_fields (ob_body o').
Proof. intros E. apply (f_equal ob_body) in E. rewrite <- norm_typed, <- (norm_typed (ob_body o')). by f_equal. Qed.
Lemma shape_final o o' : shape_eq o o' -> finalizer_of (ob_body o) = finalizer_of (ob_body o').
Proof. intros E. apply (f_equal ob_body) in E. rewrite <- norm_final, <- (norm_final (ob_body o')). by f_equal. Qed.

Lemma shape_static o o' : shape_eq o o' -> is_static o <-> is_static o'.
Proof.
  intros E. apply (f_equal (fun o => cf_flags (ob_base o))) in E. simpl in E.
  unfold is_static. by rewrite E.
Qed.

Lemma shape_ok o o' : shape_eq o o' -> object_ok o -> object_ok o'.
Proof.
  intros E [H1 H2 H3 H4 H6 H5].
  pose proof (f_equal (fun o => cf_type_id (ob_base o)) E) as Et.
  pose proof (f_equal (fun o => cf_finalize (ob_base o)) E) as Ef. simpl in Et, Ef.
  split.
  - by rewrite <- Et, <- (shape_type _ _ E).
  - intros Hs. rewrite <- Ef, <- (shape_final _ _ E). apply H2. by rewrite (shape_static _ _ E).
  - by rewrite <- (shape_boxes _ _ E).
  - unfold body_blocks. by rewrite <- (shape_boxes _ _ E).
  - rewrite <- (shape_static _ _ E), <- (shape_type _ _ E). done.
  - apply (f_equal ob_body) in E. simpl in E. rewrite <- norm_body_ok, <- E. by rewrite norm_body_ok.
Qed.

Lemma static_fields o : object_ok o -> is_static o -> body_fields (ob_body o) = [].
Proof. intros Ho [E|E]%(oo_static _ Ho); by destruct (ob_body o). Qed.

(** ** Sums of references *)

Definition total_refs (C : gmap Z (gmultiset Z)) : gmultiset Z :=
  map_fold (fun _ m acc => m ⊎ acc) ∅ C.

Lemma total_insert C p m : C !! p = None -> total_refs (<[p:=m]> C) = m ⊎ total_refs C.
Proof.
  intros Hp. unfold total_refs. apply (map_fold_insert_L (fun (_ : Z) (m acc : gmultiset Z) => m ⊎ acc)); [|done].
  intros. multiset_solver.
Qed.

Lemma total_delete C p m : C !! p = Some m -> total_refs C = m ⊎ total_refs (delete p C).
Proof.
  intros Hp. rewrite <- (total_insert (delete p C) p m) by apply lookup_delete_eq.
  by rewrite insert_delete_id.
Qed.

Lemma refs_nil : refs_of [] = ∅.
Proof. done. Qed.
Lemma refs_app l l' : refs_of (l ++ l') = refs_of l ⊎ refs_of l'.
Proof. unfold refs_of. by rewrite filter_app, list_to_set_disj_app. Qed.
Lemma refs_cons p l : refs_of (p :: l) = refs_of [p] ⊎ refs_of l.
Proof. by rewrite <- refs_app. Qed.
Lemma refs_null : refs_of [0] = ∅.
Proof. done. Qed.
Lemma refs_single p : p <> 0 -> refs_of [p] = {[+ p +]}.
Proof. intros Hp. unfold refs_of. rewrite filter_cons_True by done. simpl. multiset_solver. Qed.
Lemma elem_of_refs p l : p ∈ refs_of l <-> p <> 0 /\ p ∈ l.
Proof. unfold refs_of. by rewrite elem_of_list_to_set_disj, list_elem_of_filter. Qed.

(** ** The invariant

    [X] are the objects the running code is in the middle of changing: they are
    alive, but hold references that are not those of their fields. *)
Section heap_ok.
Context {os : Type}.
Implicit Types (w : guest os) (C : gmap Z (gmultiset Z)) (own : gmultiset Z) (X : gset Z).

Record heap_ok X C own w : Prop := {
  ho_next : 0 < gs_next w;
  ho_addr : forall p o, gs_heap w !! p = Some o -> 0 < p < gs_next w;
  ho_block_addr : forall b bs, gs_blocks w !! b = Some bs -> 0 < b < gs_next w;
  ho_object : forall p o, gs_heap w !! p = Some o -> object_ok o;
  ho_live : forall p, p ∈ dom C -> p ∈ dom (gs_heap w);
  ho_static : forall p o, gs_heap w !! p = Some o -> is_static o -> p ∈ dom C;
  ho_count : forall p o, gs_heap w !! p = Some o -> ~ is_static o ->
    cf_refcount (ob_base o) = Z.of_nat (multiplicity p (own ⊎ total_refs C)) /\
    (p ∈ dom C <-> 0 < cf_refcount (ob_base o)) /\
    cf_refcount (ob_base o) < 2 ^ 31;
  ho_refs : forall p, p ∈ own ⊎ total_refs C -> p ∈ dom C;
  ho_fields : forall p m o, C !! p = Some m -> gs_heap w !! p = Some o -> p ∉ X ->
    m = refs_of (body_fields (ob_body o)) /\
    forall q k, (q, k) ∈ typed_fields (ob_body o) -> q <> 0 ->
      exists o', gs_heap w !! q = Some o' /\ type_of (ob_body o') = k;
  ho_blocks : forall p o b n, gs_heap w !! p = Some o -> (b, n) ∈ body_blocks (ob_body o) ->
    exists bs, gs_blocks w !! b = Some bs /\ len bs = n;
  ho_disjoint : forall p q o o' b n n', gs_heap w !! p = Some o -> gs_heap w !! q = Some o' ->
    (b, n) ∈ body_blocks (ob_body o) -> (b, n') ∈ body_blocks (ob_body o') -> p = q
}.

(** [alive] counts the objects, up to the constant ones (and [2^64]). *)
Definition alive_gap w : Z := wrap 64 (gs_alive w - Z.of_nat (size (gs_heap w))).

(** What a release may do: objects go, none comes; what remains is as it was, but
    for the counts, the state of pixel buffers and the transport.  Objects that
    are being finalized are not touched, but for those in [E], by their own
    finalizers. *)
Record kept (E : gset Z) C w C' w' : Prop := {
  k_sub : C' ⊆ C;
  k_next : gs_next w' = gs_next w;
  k_gone : forall q, q ∈ dom C -> q ∉ dom C' -> gs_heap w' !! q = None;
  k_live : forall q o', q ∈ dom C' -> gs_heap w' !! q = Some o' ->
    exists o, gs_heap w !! q = Some o /\ shape_eq o o';
  k_zombie : forall q, q ∉ dom C -> q ∉ E -> gs_heap w' !! q = gs_heap w !! q;
  k_self : forall q o', q ∉ dom C -> q ∈ E -> gs_heap w' !! q = Some o' ->
    exists o, gs_heap w !! q = Some o /\ body_blocks (ob_body o) = body_blocks (ob_body o');
  k_blocks_sub : gs_blocks w' ⊆ gs_blocks w;
  k_blocks : forall b bs, gs_blocks w !! b = Some bs ->
    (forall q o n, gs_heap w !! q = Some o -> (b, n) ∈ body_blocks (ob_body o) ->
       is_Some (gs_heap w' !! q)) ->
    gs_blocks w' !! b = Some bs
}.

Lemma dom_sub C C' : C' ⊆ C -> dom C' ⊆ dom C.
Proof. apply subseteq_dom. Qed.

Lemma kept_refl E C w : kept E C w C w.
Proof. split; try done; eauto; set_solver. Qed.

(** Whatever is left was there before, with the same blocks. *)
Lemma kept_from E C w C' w' q o' : kept E C w C' w' -> gs_heap w' !! q = Some o' ->
  exists o, gs_heap w !! q = Some o /\ body_blocks (ob_body o) = body_blocks (ob_body o').
Proof.
  intros K Ho. destruct (decide (q ∈ dom C)) as [Hq|Hq].
  - destruct (decide (q ∈ dom C')) as [Hq'|Hq'].
    + destruct (k_live _ _ _ _ _ K q o' Hq' Ho) as (o1 & ? & E1). exists o1. split; [done|].
      unfold body_blocks. by rewrite (shape_boxes _ _ E1).
    + by rewrite (k_gone _ _ _ _ _ K q Hq Hq') in Ho.
  - destruct (decide (q ∈ E)) as [He|He]; [by apply (k_self _ _ _ _ _ K)|].
    exists o'. by rewrite <- (k_zombie _ _ _ _ _ K q Hq He).
Qed.

Lemma kept_trans E C w C1 w1 C2 w2 :
  kept E C w C1 w1 -> kept E C1 w1 C2 w2 -> kept E C w C2 w2.
Proof.
  intros K K2. pose proof (dom_sub _ _ (k_sub _ _ _ _ _ K)) as D1.
  pose proof (dom_sub _ _ (k_sub _ _ _ _ _ K2)) as D2. split.
  - etrans; [apply K2|apply K].
  - etrans; [apply K2|apply K].
  - intros q Hq Hq2. destruct (gs_heap w2 !! q) as [o|] eqn:Ho; [|done].
    destruct (decide (q ∈ dom C1)) as [H1|H1].
    + by rewrite (k_gone _ _ _ _ _ K2 q H1 Hq2) in Ho.
    + destruct (kept_from _ _ _ _ _ q o K2 Ho) as (o1 & Ho1 & _).
      by rewrite (k_gone _ _ _ _ _ K q Hq H1) in Ho1.
  - intros q o' Hq Ho. destruct (k_live _ _ _ _ _ K2 q o' Hq Ho) as (o1 & Ho1 & E1).
    destruct (k_live _ _ _ _ _ K q o1 ltac:(set_solver) Ho1) as (o & Ho0 & E0).
    exists o. split; [done|by etrans].
  - intros q Hq He. rewrite (k_zombie _ _ _ _ _ K2 q) by set_solver.
    by apply (k_zombie _ _ _ _ _ K).
  - intros q o2 Hq He Ho2.
    destruct (k_self _ _ _ _ _ K2 q o2 ltac:(set_solver) He Ho2) as (o1 & Ho1 & E1).
    destruct (k_self _ _ _ _ _ K q o1 Hq He Ho1) as (o & Ho & E0).
    exists o. split; [done|congruence].
  - etrans; [apply K2|apply K].
  - intros b bs Hb Hown. apply (k_blocks _ _ _ _ _ K2).
    + apply (k_blocks _ _ _ _ _ K); [done|]. intros q o n Ho Hn.
      destruct (Hown q o n Ho Hn) as [o2 Ho2].
      destruct (kept_from _ _ _ _ _ q o2 K2 Ho2) as (o1 & ? & _). eauto.
    + intros q o1 n Ho1 Hn. destruct (kept_from _ _ _ _ _ q o1 K Ho1) as (o & Ho & E0).
      eapply Hown; [done|by rewrite E0].
Qed.

Lemma kept_weaken E C w C' w' : kept ∅ C w C' w' -> kept E C w C' w'.
Proof.
  intros K. pose proof K as [H1 H2 H3 H4 H5 H6 H7 H8]. split; try done.
  - intros q Hq _. apply H5; [done|set_solver].
  - intros q o' Hq _ Ho. by apply (kept_from _ _ _ _ _ q o' K).
Qed.

(** [heap_ok] looks at the memory only. *)
Lemma heap_ok_ext X C own w w' :
  gs_heap w' = gs_heap w -> gs_blocks w' = gs_blocks w -> gs_next w' = gs_next w ->
  heap_ok X C own w -> heap_ok X C own w'.
Proof.
  intros E1 E2 E3 [H0 H1 H2 H3 H4 H5 H6 H7 H8 H9 H10].
  split; rewrite ?E1, ?E2, ?E3; eauto.
Qed.

Lemma kept_ext E C w w' :
  gs_heap w' = gs_heap w -> gs_blocks w' = gs_blocks w -> gs_next w' = gs_next w ->
  kept E C w C w'.
Proof.
  intros E1 E2 E3. split; rewrite ?E1, ?E2, ?E3; try done; eauto. set_solver.
Qed.

(** The code that runs holds what it is changing. *)
Definition held X own : Prop := forall q, q ∈ X -> q ∈ own.

Lemma typed_sub b q k : (q, k) ∈ typed_fields b -> q ∈ body_fields b.
Proof.
  destruct b; simpl; set_solver.
Qed.

Lemma total_lookup C p m q : C !! p = Some m -> q ∈ m -> q ∈ total_refs C.
Proof. intros Hp Hq. rewrite (total_delete C p m Hp). multiset_solver. Qed.

Lemma heap_ok_lookup X C own w p : heap_ok X C own w -> p ∈ own -> exists o m,
  gs_heap w !! p = Some o /\ C !! p = Some m /\ object_ok o /\ 0 < p.
Proof.
  intros Hw Hp. assert (p ∈ dom C) as Hd by (apply (ho_refs _ _ _ _ Hw); multiset_solver).
  pose proof (ho_live _ _ _ _ Hw p Hd) as [o Ho]%elem_of_dom.
  apply elem_of_dom in Hd as [m Hm].
  exists o, m. split_and!; try done; [by apply (ho_object _ _ _ _ Hw p)|].
  pose proof (ho_addr _ _ _ _ Hw p o Ho). lia.
Qed.

(** *** Writing an object in place *)

(** The blocks of [o'] are those of [o], or no object's. *)
Definition blocks_from w (o o' : object) : Prop := forall b n, (b, n) ∈ body_blocks (ob_body o') ->
  (b, n) ∈ body_blocks (ob_body o) \/
  ((exists bs, gs_blocks w !! b = Some bs /\ len bs = n) /\
   forall q oq n', gs_heap w !! q = Some oq -> (b, n') ∉ body_blocks (ob_body oq)).

Lemma heap_ok_put_blocks X C own w p o o' :
  heap_ok X C own w -> gs_heap w !! p = Some o ->
  ob_base o' = ob_base o -> object_ok o' -> blocks_from w o o' ->
  type_of (ob_body o') = type_of (ob_body o) ->
  (p ∈ dom C -> p ∉ X -> body_fields (ob_body o') = body_fields (ob_body o) /\
                         typed_fields (ob_body o') = typed_fields (ob_body o)) ->
  heap_ok X C own (w <| gs_heap ::= insert p o' |>).
Proof.
  intros [H0 H1 H2 H3 H4 H5 H6 H7 H8 H9 H10] Hp Hb Ho' Hbl Ht Hf.
  assert (Hlk : forall q oq, gs_heap (w <| gs_heap ::= insert p o' |>) !! q = Some oq ->
    exists oo, gs_heap w !! q = Some oo /\ ob_base oo = ob_base oq /\
      type_of (ob_body oq) = type_of (ob_body oo) /\ (q = p /\ oq = o' /\ oo = o \/ oq = oo)).
  { intros q oq. simpl. intros [[<- <-]|[? ?]]%lookup_insert_Some; eauto 10. }
  split; simpl; [done|..].
  - intros q oq (oo & ? & _)%Hlk. eauto.
  - done.
  - intros q oq [[<- <-]|[? ?]]%lookup_insert_Some; eauto.
  - intros q Hq. rewrite dom_insert. apply elem_of_union_r. by apply H4.
  - intros q oq (oo & ? & E & _)%Hlk Hs. apply (H5 q oo); [done|]. unfold is_static in *. by rewrite E.
  - intros q oq (oo & ? & E & _)%Hlk Hs. rewrite <- E. apply H6; [done|].
    unfold is_static in *. by rewrite E.
  - done.
  - intros q m oq Hm Hq Hx. destruct (Hlk q oq Hq) as (oo & Hoo & _ & _ & Hcase).
    assert (body_fields (ob_body oq) = body_fields (ob_body oo) /\
            typed_fields (ob_body oq) = typed_fields (ob_body oo)) as [-> ->].
    { destruct Hcase as [(-> & -> & ->)| ->]; [|done]. apply Hf; [|done]. apply elem_of_dom. eauto. }
    destruct (H8 q m oo Hm Hoo Hx) as [Em Hty]. split; [done|]. intros r k Hr Hr0.
    destruct (Hty r k Hr Hr0) as (o2 & Ho2 & Hk).
    destruct (decide (r = p)) as [->|Hne].
    + exists o'. rewrite lookup_insert_eq. split; [done|]. by simplify_eq.
    + exists o2. by rewrite lookup_insert_ne.
  - intros q oq b n [[<- <-]|[? Hq]]%lookup_insert_Some Hn; [|by eapply H9].
    destruct (Hbl b n Hn) as [Hn'|[? _]]; [by eapply H9|done].
  - intros q r oq ox b n n' [[<- <-]|[Hqp Hq]]%lookup_insert_Some
      [[<- <-]|[Hrp Hr]]%lookup_insert_Some Hn Hn'; [done|..|by eapply H10].
    + destruct (Hbl b n Hn) as [Hn2|[_ Hno]]; [by eapply H10|]. by destruct (Hno r ox n' Hr).
    + destruct (Hbl b n' Hn') as [Hn2|[_ Hno]]; [by eapply H10|]. by destruct (Hno q oq n Hq).
Qed.

Lemma heap_ok_put X C own w p o o' :
  heap_ok X C own w -> gs_heap w !! p = Some o ->
  ob_base o' = ob_base o -> object_ok o' ->
  body_blocks (ob_body o') = body_blocks (ob_body o) ->
  type_of (ob_body o') = type_of (ob_body o) ->
  (p ∈ dom C -> p ∉ X -> body_fields (ob_body o') = body_fields (ob_body o) /\
                         typed_fields (ob_body o') = typed_fields (ob_body o)) ->
  heap_ok X C own (w <| gs_heap ::= insert p o' |>).
Proof.
  intros Hw Hp Hb Ho Hbl. apply (heap_ok_put_blocks X C own w p o o'); try done.
  intros b n Hn. left. by rewrite <- Hbl.
Qed.

Lemma kept_put_live E C w p o o' : p ∈ dom C -> gs_heap w !! p = Some o -> shape_eq o o' ->
  kept E C w C (w <| gs_heap ::= insert p o' |>).
Proof.
  intros Hp Ho Hs. split; simpl; try done.
  - intros q oq Hq [[<- <-]|[? ?]]%lookup_insert_Some; [by eauto|by exists oq].
  - intros q Hq _. rewrite lookup_insert_ne; [done|]. by intros ->.
  - intros q oq Hq _ [[<- <-]|[? ?]]%lookup_insert_Some; [done|by exists oq].
Qed.

Lemma kept_put_self C w p o o' : p ∉ dom C -> gs_heap w !! p = Some o ->
  body_blocks (ob_body o) = body_blocks (ob_body o') ->
  kept {[p]} C w C (w <| gs_heap ::= insert p o' |>).
Proof.
  intros Hp Ho Hs. split; simpl; try done.
  - intros q oq Hq [[<- <-]|[? ?]]%lookup_insert_Some; [done|by exists oq].
  - intros q Hq He. rewrite lookup_insert_ne; [done|]. set_solver.
  - intros q oq Hq _ [[<- <-]|[? ?]]%lookup_insert_Some; [by eauto|by exists oq].
Qed.

Lemma alive_gap_put w p o o' : gs_heap w !! p = Some o ->
  alive_gap (w <| gs_heap ::= insert p o' |>) = alive_gap w.
Proof.
  intros Ho. unfold alive_gap. simpl. rewrite map_size_insert_Some; [done|eauto].
Qed.

(** *** Changing a count *)

Definition with_count (n : Z) (o : object) : object :=
  o <| ob_base ::= (fun b => b <| cf_refcount := n |>) |>.

Lemma with_count_shape n o : shape_eq o (with_count n o).
Proof. by destruct o as [[] ?]. Qed.

Lemma heap_ok_recount X C own C' own' w p o n :
  heap_ok X C own w -> gs_heap w !! p = Some o -> ~ is_static o ->
  C' ⊆ C -> (forall q, q <> p -> C' !! q = C !! q) ->
  (forall q, q <> p ->
     multiplicity q (own' ⊎ total_refs C') = multiplicity q (own ⊎ total_refs C)) ->
  n = Z.of_nat (multiplicity p (own' ⊎ total_refs C')) ->
  (p ∈ dom C' <-> 0 < n) -> n < 2 ^ 31 ->
  heap_ok X C' own' (w <| gs_heap ::= insert p (with_count n o) |>).
Proof.
  intros [H0 H1 H2 H3 H4 H5 H6 H7 H8 H9 H10] Hp Hst Hsub HC Hmult Hn Hlive Hmax.
  pose proof (with_count_shape n o) as Hsh.
  assert (Hlk : forall q oq, gs_heap (w <| gs_heap ::= insert p (with_count n o) |>) !! q = Some oq ->
    exists oo, gs_heap w !! q = Some oo /\ shape_eq oo oq /\ (q <> p -> oq = oo)).
  { intros q oq. simpl. intros [[<- <-]|[? ?]]%lookup_insert_Some; [by exists o|by exists oq]. }
  assert (Hdom : forall q, q <> p -> q ∈ dom C' <-> q ∈ dom C).
  { intros q Hq. by rewrite !elem_of_dom, HC. }
  split; simpl; [done|..].
  - intros q oq (oo & ? & _)%Hlk. eauto.
  - done.
  - intros q oq (oo & Hoo & Hs & _)%Hlk. eapply shape_ok; eauto.
  - intros q Hq. rewrite dom_insert. apply elem_of_union_r, H4. by eapply subseteq_dom.
  - intros q oq Hq Hs. destruct (Hlk q oq Hq) as (oo & Hoo & Hso & _).
    assert (is_static oo) as Hs' by by rewrite (shape_static _ _ Hso).
    assert (q <> p) as Hne by (intros ->; by simplify_eq). rewrite Hdom by done. by eapply H5.
  - intros q oq [[<- <-]|[Hne Hq]]%lookup_insert_Some Hs; [done|].
    rewrite Hmult, Hdom by done. by apply H6.
  - intros q Hq. destruct (decide (q = p)) as [->|Hne].
    + apply Hlive. rewrite elem_of_multiplicity in Hq. lia.
    + rewrite Hdom by done. apply H7. rewrite elem_of_multiplicity.
      rewrite elem_of_multiplicity in Hq. by rewrite <- Hmult.
  - intros q m oq Hm Hq Hx. destruct (Hlk q oq Hq) as (oo & Hoo & Hso & _).
    destruct (H8 q m oo ltac:(by eapply lookup_weaken) Hoo Hx) as [Em Hty].
    rewrite <- (shape_fields _ _ Hso), <- (shape_typed _ _ Hso). split; [done|].
    intros r k Hr Hr0. destruct (Hty r k Hr Hr0) as (o2 & Ho2 & Hk).
    destruct (decide (r = p)) as [->|Hne].
    + eexists. rewrite lookup_insert_eq. split; [done|]. rewrite <- (shape_type _ _ Hsh).
      by simplify_eq.
    + exists o2. by rewrite lookup_insert_ne.
  - intros q oq b n0 (oo & ? & Hso & _)%Hlk. unfold body_blocks.
    rewrite <- (shape_boxes _ _ Hso). eauto.
  - intros q r oq ox b n1 n2 (oo & ? & Hso & _)%Hlk (oy & ? & Hsy & _)%Hlk. unfold body_blocks.
    rewrite <- (shape_boxes _ _ Hso), <- (shape_boxes _ _ Hsy). eauto.
Qed.

Lemma refs_single_own p own : p <> 0 -> refs_of [p] ⊎ own = {[+ p +]} ⊎ own.
Proof. intros. by rewrite refs_single. Qed.

(** A reference more. *)
Lemma heap_ok_retain X C own w p o :
  heap_ok X C own w -> gs_heap w !! p = Some o -> ~ is_static o -> p ∈ dom C ->
  cf_refcount (ob_base o) + 1 < 2 ^ 31 ->
  heap_ok X C ({[+ p +]} ⊎ own)
    (w <| gs_heap ::= insert p (with_count (cf_refcount (ob_base o) + 1) o) |>).
Proof.
  intros Hw Ho Hs Hd Hroom. pose proof (ho_count _ _ _ _ Hw p o Ho Hs) as (Hc & Hl & _).
  eapply heap_ok_recount; try done.
  - intros q Hq. rewrite !multiplicity_disj_union, multiplicity_singleton_ne by done. lia.
  - rewrite Hc, !multiplicity_disj_union, multiplicity_singleton_eq. lia.
  - split; [intros _; apply Hl in Hd; lia|done].
Qed.

(** A reference less, and others remain. *)
Lemma heap_ok_drop X C own w p o :
  heap_ok X C ({[+ p +]} ⊎ own) w -> gs_heap w !! p = Some o -> ~ is_static o ->
  cf_refcount (ob_base o) <> 1 ->
  heap_ok X C own (w <| gs_heap ::= insert p (with_count (cf_refcount (ob_base o) - 1) o) |>).
Proof.
  intros Hw Ho Hs Hne. pose proof (ho_count _ _ _ _ Hw p o Ho Hs) as (Hc & Hl & Hmax).
  rewrite !multiplicity_disj_union, multiplicity_singleton_eq in Hc.
  eapply heap_ok_recount; try done.
  - intros q Hq. rewrite !multiplicity_disj_union, multiplicity_singleton_ne by done. lia.
  - rewrite Hc, !multiplicity_disj_union. lia.
  - rewrite Hl. lia.
  - lia.
Qed.

(** A reference to a constant less. *)
Lemma heap_ok_drop_static X C own w p o :
  heap_ok X C ({[+ p +]} ⊎ own) w -> gs_heap w !! p = Some o -> is_static o ->
  heap_ok X C own w.
Proof.
  intros [H0 H1 H2 H3 H4 H5 H6 H7 H8 H9 H10] Ho Hs. split; try done.
  - intros q oq Hq Hsq. assert (q <> p) by (intros ->; by simplify_eq).
    destruct (H6 q oq Hq Hsq) as (E & ? & ?). split; [|done]. rewrite E.
    rewrite !multiplicity_disj_union, multiplicity_singleton_ne by done. lia.
  - intros q Hq. apply H7. multiset_solver.
Qed.

(** The last reference goes: the object's references are the running code's. *)
Lemma heap_ok_last X C own w p o :
  heap_ok X C ({[+ p +]} ⊎ own) w -> held X own -> gs_heap w !! p = Some o -> ~ is_static o ->
  cf_refcount (ob_base o) = 1 ->
  p ∈ dom C /\ p ∉ own /\
  (forall q k, (q, k) ∈ typed_fields (ob_body o) -> q <> 0 ->
     exists o', gs_heap w !! q = Some o' /\ type_of (ob_body o') = k /\ q <> p) /\
  heap_ok X (delete p C) (refs_of (body_fields (ob_body o)) ⊎ own)
    (w <| gs_heap ::= insert p (with_count 0 o) |>).
Proof.
  intros Hw Hheld Ho Hs H1. pose proof (ho_count _ _ _ _ Hw p o Ho Hs) as (Hc & Hl & _).
  rewrite H1, !multiplicity_disj_union, multiplicity_singleton_eq in Hc.
  assert (p ∈ dom C) as Hd by (apply Hl; lia).
  pose proof Hd as [m Hm]%elem_of_dom.
  assert (p ∉ own) as Hown by (rewrite elem_of_multiplicity; lia).
  assert (p ∉ X) as HX by (intros ?; by apply Hown, Hheld).
  destruct (ho_fields _ _ _ _ Hw p m o Hm Ho HX) as [-> Hty].
  assert (multiplicity p (total_refs C) = 0%nat) as Hpt by lia.
  split_and!; try done.
  - intros q k Hq Hq0. destruct (Hty q k Hq Hq0) as (o' & ? & ?). exists o'. split_and!; try done.
    intros ->. assert (p ∈ total_refs C) as Hin; [|rewrite elem_of_multiplicity in Hin; lia].
    eapply total_lookup; [done|]. apply elem_of_refs. split; [done|]. by eapply typed_sub.
  - rewrite (total_delete C p _ Hm), multiplicity_disj_union in Hpt.
    eapply heap_ok_recount; try done.
    + apply delete_subseteq.
    + intros q Hq. by rewrite lookup_delete_ne.
    + intros q Hq. rewrite (total_delete C p _ Hm), !multiplicity_disj_union,
        multiplicity_singleton_ne by done. lia.
    + rewrite !multiplicity_disj_union.
      rewrite elem_of_multiplicity in Hown. lia.
    + rewrite dom_delete. set_solver by lia.
Qed.

(** *** A new object *)

Lemma heap_ok_fresh X C own w : heap_ok X C own w ->
  gs_heap w !! gs_next w = None /\ gs_blocks w !! gs_next w = None /\
  C !! gs_next w = None /\ gs_next w ∉ own ⊎ total_refs C.
Proof.
  intros Hw. assert (gs_heap w !! gs_next w = None) as Hh.
  { destruct (gs_heap w !! gs_next w) eqn:E; [|done]. apply (ho_addr _ _ _ _ Hw) in E. lia. }
  assert (gs_next w ∉ dom C) as Hd.
  { intros Hd%(ho_live _ _ _ _ Hw). by apply elem_of_dom in Hd as [? ?]; simplify_eq. }
  split_and!; try done.
  - destruct (gs_blocks w !! gs_next w) eqn:E; [|done]. apply (ho_block_addr _ _ _ _ Hw) in E. lia.
  - by apply not_elem_of_dom.
  - intros ?%(ho_refs _ _ _ _ Hw). done.
Qed.

Lemma heap_ok_new X C own w o :
  heap_ok X C (refs_of (body_fields (ob_body o)) ⊎ own) w ->
  object_ok o -> ~ is_static o -> cf_refcount (ob_base o) = 1 ->
  (forall q k, (q, k) ∈ typed_fields (ob_body o) -> q <> 0 ->
     exists o', gs_heap w !! q = Some o' /\ type_of (ob_body o') = k) ->
  (forall b n, (b, n) ∈ body_blocks (ob_body o) ->
     (exists bs, gs_blocks w !! b = Some bs /\ len bs = n) /\
     forall p op n', gs_heap w !! p = Some op -> (b, n') ∉ body_blocks (ob_body op)) ->
  heap_ok X (<[gs_next w := refs_of (body_fields (ob_body o))]> C) ({[+ gs_next w +]} ⊎ own)
    (w <| gs_heap ::= insert (gs_next w) o |> <| gs_next ::= Z.succ |>).
Proof.
  intros Hw Ho Hs H1 Hty Hbl. destruct (heap_ok_fresh _ _ _ _ Hw) as (Fh & Fb & FC & Fo).
  destruct Hw as [Hn Ha Hba Hok Hlive Hstat Hcount Hrefs Hfields Hblocks Hdisj].
  assert (Hsum : forall q, multiplicity q (({[+ gs_next w +]} ⊎ own) ⊎
            total_refs (<[gs_next w := refs_of (body_fields (ob_body o))]> C)) =
          (multiplicity q {[+ gs_next w +]} + multiplicity q
             ((refs_of (body_fields (ob_body o)) ⊎ own) ⊎ total_refs C))%nat).
  { intros q. rewrite total_insert by done. rewrite !multiplicity_disj_union. lia. }
  split; simpl.
  - lia.
  - intros p op [[<- <-]|[? Hp]]%lookup_insert_Some; [lia|]. apply Ha in Hp. lia.
  - intros b bs Hb%Hba. lia.
  - intros p op [[<- <-]|[? Hp]]%lookup_insert_Some; eauto.
  - intros p. rewrite !dom_insert. set_solver.
  - intros p op [[<- <-]|[? Hp]]%lookup_insert_Some Hsp; [done|].
    rewrite dom_insert. apply elem_of_union_r. eauto.
  - intros p op [[<- <-]|[Hne Hp]]%lookup_insert_Some Hsp.
    + rewrite Hsum, multiplicity_singleton_eq, H1. rewrite elem_of_multiplicity in Fo.
      rewrite dom_insert. split_and!; [lia|set_solver by lia|lia].
    + rewrite Hsum, multiplicity_singleton_ne by done. rewrite dom_insert.
      destruct (Hcount p op Hp Hsp) as (-> & Hl & Hmax). split_and!; [lia| |done].
      rewrite <- Hl. set_solver.
  - intros p. rewrite elem_of_multiplicity, Hsum, dom_insert.
    destruct (decide (p = gs_next w)) as [->|Hne]; [set_solver|].
    rewrite multiplicity_singleton_ne by done. intros Hp.
    apply elem_of_union_r, Hrefs. rewrite elem_of_multiplicity. lia.
  - intros p m op Hm Hp Hx. assert (Hext : forall q k, (exists o', gs_heap w !! q = Some o' /\
      type_of (ob_body o') = k) -> exists o', <[gs_next w := o]> (gs_heap w) !! q = Some o' /\
      type_of (ob_body o') = k).
    { intros q k (o' & Hq & Hk). exists o'. rewrite lookup_insert_ne; [done|]. by intros <-; simplify_eq. }
    apply lookup_insert_Some in Hm as [[<- <-]|[Hne Hm]].
    + rewrite lookup_insert_eq in Hp. simplify_eq. split; [done|]. intros q k Hq Hq0. eauto.
    + rewrite lookup_insert_ne in Hp by done. destruct (Hfields p m op Hm Hp Hx) as [Em Ht].
      split; [done|]. intros q k Hq Hq0. eauto.
  - intros p op b n [[<- <-]|[? Hp]]%lookup_insert_Some Hb; [by apply Hbl|eauto].
  - intros p q op oq b n n' [[<- <-]|[? Hp]]%lookup_insert_Some
      [[<- <-]|[? Hq]]%lookup_insert_Some Hb Hb'; [done|..|eauto].
    + destruct (Hbl b n Hb) as [_ Hno]. by destruct (Hno q oq n' Hq).
    + destruct (Hbl b n' Hb') as [_ Hno]. by destruct (Hno p op n Hp).
Qed.

(** *** Freeing an object and its blocks *)

Definition drop_blocks (l : list (Z * Z)) (B : gmap Z (list byte)) : gmap Z (list byte) :=
  foldr (fun x B => delete x.1 B) B l.

Lemma drop_blocks_Some l B b bs :
  drop_blocks l B !! b = Some bs <-> b ∉ l.*1 /\ B !! b = Some bs.
Proof.
  induction l as [|[c n] l IH]; simpl; [set_solver|].
  rewrite lookup_delete_Some, IH. set_solver.
Qed.

Lemma heap_ok_free X C own w p o :
  heap_ok X C own w -> gs_heap w !! p = Some o -> p ∉ dom C ->
  let w' := w <| gs_heap ::= delete p |>
              <| gs_blocks ::= drop_blocks (body_blocks (ob_body o)) |> in
  heap_ok X C own w' /\ kept {[p]} C w C w'.
Proof.
  intros Hw Ho Hd w'. pose proof Hw as [Hn Ha Hba Hok Hlive Hstat Hcount Hrefs Hfields Hblocks Hdisj].
  assert (Hown : forall q oq b n, q <> p -> gs_heap w !! q = Some oq ->
            (b, n) ∈ body_blocks (ob_body oq) -> b ∉ (body_blocks (ob_body o)).*1).
  { intros q oq b n Hne Hq Hb ((b' & n') & -> & Hb')%list_elem_of_fmap.
    by destruct Hne; eapply (Hdisj q p). }
  split; split; simpl; try done.
  - intros q oq [? Hq]%lookup_delete_Some. eauto.
  - intros b bs [? Hb]%drop_blocks_Some. eauto.
  - intros q oq [? Hq]%lookup_delete_Some. eauto.
  - intros q Hq. rewrite dom_delete. apply elem_of_difference. split; [by apply Hlive|set_solver].
  - intros q oq [? Hq]%lookup_delete_Some. eauto.
  - intros q oq [? Hq]%lookup_delete_Some. eauto.
  - intros q m oq Hm [Hne Hq]%lookup_delete_Some Hx.
    destruct (Hfields q m oq Hm Hq Hx) as [Em Ht]. split; [done|]. intros r k Hr Hr0.
    destruct (Ht r k Hr Hr0) as (o' & Ho' & Hk). exists o'. split; [|done].
    rewrite lookup_delete_ne; [done|]. intros <-. apply Hd, Hrefs.
    apply gmultiset_elem_of_disj_union. right. eapply total_lookup; [done|].
    rewrite Em. apply elem_of_refs. split; [done|]. by eapply typed_sub.
  - intros q oq b n [Hne Hq]%lookup_delete_Some Hb.
    destruct (Hblocks q oq b n Hq Hb) as (bs & Hbs & Hl). exists bs. split; [|done].
    apply drop_blocks_Some. split; [by eapply Hown|done].
  - intros q r oq or' b n n' [? Hq]%lookup_delete_Some [? Hr]%lookup_delete_Some. eauto.
  - intros q oq Hq [? Hoq]%lookup_delete_Some. by exists oq.
  - intros q Hq He. rewrite lookup_delete_ne; [done|set_solver].
  - intros q oq Hq He [? Hoq]%lookup_delete_Some. set_solver.
  - apply map_subseteq_spec. intros b bs [_ Hb]%drop_blocks_Some. done.
  - intros b bs Hb Hkeep. apply drop_blocks_Some. split; [|done].
    intros ((b' & n) & -> & Hb')%list_elem_of_fmap.
    destruct (Hkeep p o n Ho Hb') as [? Hx]. by rewrite lookup_delete_eq in Hx.
Qed.
End heap_ok.
