(* ===== verification/ReleaseSafe.v ===== *)
(** * Releasing is safe

    [CFRelease] keeps the counts of [Refcount]: the release of a reference the
    running code holds never touches freed memory, frees nothing twice, ends, and
    frees exactly the objects whose last reference is gone. *)

From S2P Require Import Prelude Wire Protocol Backend Transport Objects Release Refcount.
From stdpp Require Import strings gmultiset fin_maps.

Set Default Goal Selector "!".
Open Scope Z_scope.

(** ** Reasoning on guest code *)

Section logic.
Context {os : Type}.
Implicit Types (w : guest os).

(** The outcomes of [m]: no undefined behaviour, no lack of fuel, an abort only if
    [pan]. *)
Definition gwp {A} (pan : Prop) (m : G os A) (Q : A -> guest os -> Prop) w : Prop :=
  match m w with
  | Done (a, w') => Q a w'
  | Aborted => pan
  | UB | NoFuel => False
  end.

Lemma gwp_ret {A} pan (a : A) (Q : A -> _ -> Prop) w : Q a w -> gwp pan (mret a) Q w.
Proof. done. Qed.

Lemma gwp_bind {A B} pan (m : G os A) (f : A -> G os B) Q w :
  gwp pan m (fun a w' => gwp pan (f a) Q w') w -> gwp pan (m ≫= f) Q w.
Proof. unfold gwp, mbind, G_bind. destruct (m w) as [[a w']| | |]; done. Qed.

Lemma gwp_mono {A} pan (m : G os A) (Q Q' : A -> _ -> Prop) w :
  gwp pan m Q w -> (forall a w', Q a w' -> Q' a w') -> gwp pan m Q' w.
Proof. unfold gwp. destruct (m w) as [[a w']| | |]; auto. Qed.

Lemma gwp_seq {A B} pan (m : G os A) (f : A -> G os B) (Q : A -> _ -> Prop) R w :
  gwp pan m Q w -> (forall a w', Q a w' -> gwp pan (f a) R w') -> gwp pan (m ≫= f) R w.
Proof. intros Hm Hf. apply gwp_bind. by eapply gwp_mono. Qed.

Lemma gwp_modify pan f (Q : unit -> _ -> Prop) w : Q tt (f w) -> gwp pan (modify_guest f) Q w.
Proof. done. Qed.

Lemma gwp_get pan p o (Q : object -> _ -> Prop) w :
  gs_heap w !! p = Some o -> Q o w -> gwp pan (get_object p) Q w.
Proof. intros Hp HQ. unfold gwp, get_object. by rewrite Hp. Qed.

Lemma gwp_put pan p o o' (Q : unit -> _ -> Prop) w :
  gs_heap w !! p = Some o -> Q tt (w <| gs_heap ::= insert p o' |>) -> gwp pan (put_object p o') Q w.
Proof. intros Hp HQ. unfold gwp, put_object. by rewrite Hp. Qed.

Lemma gwp_put_body pan p o b (Q : unit -> _ -> Prop) w :
  gs_heap w !! p = Some o -> Q tt (w <| gs_heap ::= insert p (o <| ob_body := b |>) |>) ->
  gwp pan (put_body p b) Q w.
Proof. intros Hp HQ. apply gwp_bind, gwp_get with o; [done|]. by apply gwp_put with o. Qed.

Lemma gwp_transport `{!Net os, !Profile} {A} (m : T os A) (Q : A + Z -> _ -> Prop) w :
  calm m -> (forall r t, Q r (w <| gs_transport := t |>)) ->
  gwp (overflow_checks = true) (transport_call m) Q w.
Proof.
  intros Hm HQ. unfold gwp, transport_call. pose proof (Hm (gs_transport w)) as Ht.
  revert Ht. unfold twp. by destruct (m (gs_transport w)) as [[r t]|].
Qed.
End logic.

(** [as_T p w = Done (body, w)] for an object of the right type. *)
Ltac read_body := unfold as_string, as_number, as_data, as_array, as_dictionary, as_boolean,
  as_block_buffer, as_format_description, as_sample_buffer, as_pixel_buffer, as_pixel_buffer_pool,
  as_vt_session, as_vt_decompression_session, mbind, G_bind, get_object;
  match goal with
  | Ho : gs_heap ?w !! ?p = Some _ |- context [gs_heap ?w !! ?p] => rewrite Ho
  end; simpl; try match goal with
  | E : ob_body ?o = _ |- context [ob_body ?o] => rewrite E
  end; reflexivity.

Section release.
Context {os : Type} `{!Net os} `{!Profile} (env : environ).
Implicit Types (w : guest os) (C : gmap Z (gmultiset Z)) (own : gmultiset Z) (X : gset Z).
Abbreviation pan := (overflow_checks = true).

(** ** Freeing *)

(** Give back a boxed slice, the way the finalizers do. *)
Definition free_box (x : rawptr * Z) : G os unit :=
  if bool_decide (is_Some x.1) then free_bytes x.1 x.2 else mret tt.

Arguments free_box : simpl never.

Lemma drop_blocks_delete l b (B : gmap Z (list byte)) :
  drop_blocks l (delete b B) = delete b (drop_blocks l B).
Proof.
  induction l as [|[c n] l IH]; simpl; [done|]. by rewrite IH, delete_delete.
Qed.

Lemma free_boxes boxes w :
  Forall (fun '(p, n) => boxed p n) boxes -> NoDup (('(p, n) ← boxes; box_of p n).*1) ->
  (forall b n, (b, n) ∈ ('(p, n) ← boxes; box_of p n) ->
     exists bs, gs_blocks w !! b = Some bs /\ len bs = n) ->
  for_each free_box boxes w =
    Done (tt, w <| gs_blocks ::= drop_blocks ('(p, n) ← boxes; box_of p n) |>).
Proof.
  revert w. induction boxes as [|[p n] boxes IH]; intros w Hbx Hnd Hbl; simpl.
  { by destruct w. }
  apply list.Forall_cons in Hbx as [[Hn Hp] Hbx]. simpl in Hnd, Hbl.
  assert (Hskip : box_of p n = [] -> free_box (p, n) w = Done (tt, w) ->
    for_each free_box ((p, n) :: boxes) w = Done (tt, w <| gs_blocks ::=
      drop_blocks (box_of p n ++ ('(p, n) ← boxes; box_of p n)) |>)).
  { intros E1 E2. simpl. unfold mbind at 1, G_bind. rewrite E2. rewrite E1 in *. by apply IH. }
  destruct Hp as [->|[->|[c Hp]]]; [by apply Hskip|apply Hskip; [by destruct p as [[]|]|]|].
  { unfold free_box, free_bytes. simpl. by destruct p. }
  destruct (Z.eqb_spec n 0) as [->|Hne]; [by apply Hskip; rewrite Hp|].
  assert (box_of p n = [(c, n)]) as E.
  { rewrite Hp. simpl. by destruct (Z.eqb_spec n 0). }
  rewrite E in *. simpl in Hnd. apply NoDup_cons in Hnd as [Hc Hnd].
  destruct (Hbl c n) as (bs & Hbs & Hlen); [by left|].
  assert (free_box (p, n) w = Done (tt, w <| gs_blocks ::= delete c |>)) as Ef.
  { unfold free_box, free_bytes. rewrite Hp. simpl. destruct (Z.eqb_spec n 0); [done|].
    by rewrite Hbs, Hlen, Z.eqb_refl. }
  simpl. unfold mbind at 1, G_bind. rewrite Ef, IH; [..|done|done|].
  - simpl. by rewrite drop_blocks_delete.
  - intros b n' Hb. destruct (Hbl b n') as (bs' & ? & ?); [by right|]. exists bs'. simpl.
    rewrite lookup_delete_ne; [done|]. intros <-. apply Hc.
    apply list_elem_of_fmap. by exists (c, n').
Qed.

(** ** Finalizing

    [p] is no longer counted ([p ∉ dom C]); its finalizer gives back the references
    its fields hold, its blocks and itself. *)
Definition fin_post X C own p w (_ : unit) w' : Prop :=
  exists C', heap_ok X C' own w' /\ kept {[p]} C w C' w' /\ gs_heap w' !! p = None /\
    alive_gap w' = wrap 64 (alive_gap w + 1).

Definition rel_post X C own w (_ : unit) w' : Prop :=
  exists C', heap_ok X C' own w' /\ kept ∅ C w C' w' /\ alive_gap w' = alive_gap w.

Lemma fin_post_from X C C1 own p w w1 a w' :
  kept {[p]} C w C1 w1 -> alive_gap w1 = alive_gap w ->
  fin_post X C1 own p w1 a w' -> fin_post X C own p w a w'.
Proof.
  intros K E (C' & ? & ? & ? & Ea). exists C'. split_and!; try done; [by eapply kept_trans|].
  by rewrite Ea, E.
Qed.

Lemma size_sub C C' : C' ⊆ C -> (size C' <= size C)%nat.
Proof. intros Hs. rewrite <- !size_dom. by apply subseteq_size, subseteq_dom. Qed.

Lemma tail_ok X C own p w o :
  heap_ok X C own w -> gs_heap w !! p = Some o -> p ∉ dom C ->
  gwp pan (_ ← for_each free_box (body_boxes (ob_body o)); free_object p)
    (fin_post X C own p w) w.
Proof.
  intros Hw Ho Hp. destruct (ho_object _ _ _ _ Hw p o Ho) as [_ _ Hbx Hnd _ _].
  unfold gwp, mbind, G_bind. rewrite free_boxes; [|done|done|].
  - unfold free_object. simpl. rewrite Ho.
    destruct (heap_ok_free X C own w p o Hw Ho Hp) as [Hok K].
    exists C. split_and!; [done|done|apply lookup_delete_eq|].
    unfold alive_gap. simpl. rewrite map_size_delete, Ho.
    assert (size (gs_heap w) <> 0%nat) by (apply map_size_ne_0_lookup; eauto).
    unfold wrap. rewrite Zplus_mod_idemp_l. f_equal. lia.
  - intros b n Hb. by apply (ho_blocks _ _ _ _ Hw p o).
Qed.

Section finalizers.
Variable release : Z -> G os unit.
Variable bound : nat.

(** What the finalizers rely on: [release] for heaps with fewer objects. *)
Definition release_spec : Prop := forall X C own w q,
  heap_ok X C (refs_of [q] ⊎ own) w -> held X own -> (size C < bound)%nat ->
  gwp pan (release q) (rel_post X C own w) w.
Hypothesis Hrel : release_spec.

Lemma release_all X C own w l :
  heap_ok X C (refs_of l ⊎ own) w -> held X own -> (size C < bound)%nat ->
  gwp pan (for_each release l) (rel_post X C own w) w.
Proof.
  revert C w. induction l as [|q l IH]; intros C w Hw Hh Hs; simpl.
  - apply gwp_ret. rewrite refs_nil, (left_id_L ∅ (⊎)) in Hw. exists C.
    split_and!; [done|apply kept_refl|done].
  - rewrite refs_cons, <- (assoc_L (⊎)) in Hw.
    eapply gwp_seq; [apply Hrel; [done| |done]|].
    { intros x Hx. apply gmultiset_elem_of_disj_union. right. by apply Hh. }
    intros [] w1 (C1 & Hw1 & K1 & E1). pose proof (size_sub _ _ (k_sub _ _ _ _ _ K1)).
    eapply gwp_mono; [by apply (IH C1 w1); [..|lia]|].
    intros [] w2 (C2 & Hw2 & K2 & E2). exists C2.
    split_and!; [done|by eapply kept_trans|congruence].
Qed.

Section one.
Variables (X : gset Z) (own : gmultiset Z) (p : Z).
Hypothesis Hheld : held X own.

Lemma held_more m : held X (m ⊎ own).
Proof. intros q Hq. apply gmultiset_elem_of_disj_union. right. by apply Hheld. Qed.

(** A step of the finalizer of [p], and the rest of it. *)
Definition finalizes C w (m : G os unit) : Prop := gwp pan m (fin_post X C own p w) w.

Lemma finalize_from C w C1 w1 m :
  kept {[p]} C w C1 w1 -> alive_gap w1 = alive_gap w -> finalizes C1 w1 m ->
  gwp pan m (fin_post X C own p w) w1.
Proof. intros K E Hm. eapply gwp_mono; [done|]. intros a w' ?. by eapply fin_post_from. Qed.

Lemma finalize_release_all C w o rest l (k : unit -> G os unit) :
  heap_ok X C (refs_of l ⊎ (rest ⊎ own)) w -> gs_heap w !! p = Some o -> p ∉ dom C ->
  (size C < bound)%nat ->
  (forall C1 w1, heap_ok X C1 (rest ⊎ own) w1 -> gs_heap w1 !! p = Some o -> p ∉ dom C1 ->
     (size C1 < bound)%nat -> finalizes C1 w1 (k tt)) ->
  finalizes C w (for_each release l ≫= k).
Proof.
  intros Hw Ho Hp Hs Hk. unfold finalizes.
  eapply gwp_seq; [by apply release_all; [|apply held_more|]|].
  intros [] w1 (C1 & Hw1 & K1 & E1). pose proof (size_sub _ _ (k_sub _ _ _ _ _ K1)).
  eapply finalize_from; [by eapply kept_weaken|done|]. apply Hk; [done|..|lia].
  - by rewrite (k_zombie _ _ _ _ _ K1) by set_solver.
  - intros Hd. by apply Hp, (dom_sub _ _ (k_sub _ _ _ _ _ K1)).
Qed.

Lemma finalize_release C w o rest q (k : unit -> G os unit) :
  heap_ok X C (refs_of [q] ⊎ (rest ⊎ own)) w -> gs_heap w !! p = Some o -> p ∉ dom C ->
  (size C < bound)%nat ->
  (forall C1 w1, heap_ok X C1 (rest ⊎ own) w1 -> gs_heap w1 !! p = Some o -> p ∉ dom C1 ->
     (size C1 < bound)%nat -> finalizes C1 w1 (k tt)) ->
  finalizes C w (release q ≫= k).
Proof.
  intros Hw Ho Hp Hs Hk. unfold finalizes.
  pose proof (finalize_release_all C w o rest [q] k Hw Ho Hp Hs Hk) as Hr. revert Hr.
  unfold finalizes, gwp, mbind, G_bind. simpl. unfold mbind, G_bind.
  by destruct (release q w) as [[[] w1]| | |].
Qed.

Lemma finalize_release_opt C w o rest q (k : unit -> G os unit) :
  heap_ok X C (refs_of [q] ⊎ (rest ⊎ own)) w -> gs_heap w !! p = Some o -> p ∉ dom C ->
  (size C < bound)%nat ->
  (forall C1 w1, heap_ok X C1 (rest ⊎ own) w1 -> gs_heap w1 !! p = Some o -> p ∉ dom C1 ->
     (size C1 < bound)%nat -> finalizes C1 w1 (k tt)) ->
  finalizes C w ((if negb (q =? 0) then release q else mret tt) ≫= k).
Proof.
  intros Hw Ho Hp Hs Hk. destruct (Z.eqb_spec q 0) as [->|Hq]; simpl.
  - rewrite refs_null, (left_id_L ∅ (⊎)) in Hw. by apply (Hk C w).
  - by eapply finalize_release.
Qed.

Lemma finalize_transport {A} C w (m : T os A) (k : A + Z -> G os unit) :
  calm m -> (forall r t, finalizes C (w <| gs_transport := t |>) (k r)) ->
  finalizes C w (transport_call m ≫= k).
Proof.
  intros Hm Hk. apply gwp_bind, gwp_transport; [done|]. intros r t.
  eapply finalize_from; [by apply kept_ext|done|apply Hk].
Qed.

Lemma finalize_get C w o (k : object -> G os unit) :
  gs_heap w !! p = Some o -> finalizes C w (k o) -> finalizes C w (get_object p ≫= k).
Proof. intros Ho Hk. by apply gwp_bind, gwp_get with o. Qed.

Lemma finalize_read {A} C w (m : G os A) x (k : A -> G os unit) :
  m w = Done (x, w) -> finalizes C w (k x) -> finalizes C w (m ≫= k).
Proof. unfold finalizes, gwp, mbind, G_bind. by intros ->. Qed.

(** [p] writes to itself. *)
Lemma finalize_put_self C w o b rest (k : unit -> G os unit) :
  heap_ok X C (rest ⊎ own) w -> gs_heap w !! p = Some o -> p ∉ dom C ->
  object_ok (o <| ob_body := b |>) -> type_of b = type_of (ob_body o) ->
  body_blocks b = body_blocks (ob_body o) ->
  (forall w1, heap_ok X C (rest ⊎ own) w1 -> gs_heap w1 !! p = Some (o <| ob_body := b |>) ->
     gs_transport w1 = gs_transport w -> finalizes C w1 (k tt)) ->
  finalizes C w (put_body p b ≫= k).
Proof.
  intros Hw Ho Hp Hok Ht Hb Hk. apply gwp_bind, gwp_put_body with o; [done|].
  eapply finalize_from; [by eapply kept_put_self|by eapply alive_gap_put|]. apply Hk; [|apply lookup_insert_eq|done].
  eapply heap_ok_put; [done..|]. done.
Qed.

Lemma finalize_tail C w o :
  heap_ok X C (∅ ⊎ own) w -> gs_heap w !! p = Some o -> p ∉ dom C ->
  finalizes C w (_ ← for_each free_box (body_boxes (ob_body o)); free_object p).
Proof. rewrite (left_id_L ∅ (⊎)). apply tail_ok. Qed.

Lemma finalize_releases C w o l (k : G os unit) :
  heap_ok X C (refs_of l ⊎ own) w -> gs_heap w !! p = Some o -> p ∉ dom C ->
  (size C < bound)%nat ->
  (forall C1 w1, heap_ok X C1 (∅ ⊎ own) w1 -> gs_heap w1 !! p = Some o -> p ∉ dom C1 ->
     (size C1 < bound)%nat -> finalizes C1 w1 k) ->
  finalizes C w (foldr (fun q k => _ ← release q; k) k l).
Proof.
  revert C w. induction l as [|q l IH]; intros C w Hw Ho Hp Hs Hk; simpl; [by apply Hk|].
  rewrite refs_cons, <- (assoc_L (⊎)) in Hw.
  apply finalize_release with (o:=o) (rest:=refs_of l); try done.
  intros C1 w1 Hw1 Ho1 Hp1 Hs1. by apply IH.
Qed.

(** A write to an object that remains. *)
Lemma finalize_put_live C w q oq b rest (k : unit -> G os unit) :
  heap_ok X C (rest ⊎ own) w -> gs_heap w !! q = Some oq -> q ∈ dom C ->
  shape_eq oq (oq <| ob_body := b |>) ->
  (forall w1, heap_ok X C (rest ⊎ own) w1 ->
     (forall r, r <> q -> gs_heap w1 !! r = gs_heap w !! r) -> finalizes C w1 (k tt)) ->
  finalizes C w (put_body q b ≫= k).
Proof.
  intros Hw Hq Hd Hsh Hk. apply gwp_bind, gwp_put_body with oq; [done|].
  eapply finalize_from; [by eapply kept_put_live|by eapply alive_gap_put|]. apply Hk.
  - eapply heap_ok_put; [done|done|done|..].
    + eapply shape_ok; [done|]. by apply (ho_object _ _ _ _ Hw q).
    + unfold body_blocks. by rewrite <- (shape_boxes _ _ Hsh).
    + by rewrite <- (shape_type _ _ Hsh).
    + intros _ _. by rewrite <- (shape_fields _ _ Hsh), <- (shape_typed _ _ Hsh).
  - intros r Hr. simpl. by rewrite lookup_insert_ne.
Qed.

Lemma object_ok_body o b :
  object_ok o -> ~ is_static o -> type_of b = type_of (ob_body o) ->
  finalizer_of b = finalizer_of (ob_body o) -> body_boxes b = body_boxes (ob_body o) ->
  body_ok b -> object_ok (o <| ob_body := b |>).
Proof.
  intros [H1 H2 H3 H4 H5 _] Hs Et Ef Eb Hc. split; simpl; rewrite ?Et, ?Ef, ?Eb; try done.
  unfold body_blocks. by rewrite Eb.
Qed.

(** The hooks, one by one. *)
Section hooks.
Variables (C : gmap Z (gmultiset Z)) (w : guest os) (o : object).
Hypothesis Hw : heap_ok X C (refs_of (body_fields (ob_body o)) ⊎ own) w.
Hypothesis Ho : gs_heap w !! p = Some o.
Hypothesis Hp : p ∉ dom C.
Hypothesis Hs : (size C < bound)%nat.

Lemma for_each_one {A B} (f : A -> G os unit) x (k : G os B) w' :
  (_ ← for_each f [x]; k) w' = (_ ← f x; k) w'.
Proof. unfold mbind, G_bind. simpl. unfold mbind, G_bind. by destruct (f x w') as [[[] ?]| | |]. Qed.

Lemma finalizes_eq C' w' m m' : m w' = m' w' -> finalizes C' w' m' -> finalizes C' w' m.
Proof. unfold finalizes, gwp. by intros ->. Qed.

Lemma fin_string s : ob_body o = String_ s -> finalizes C w (vtf_finalize_string p).
Proof.
  intros E. apply finalize_read with s; [read_body|]. pose proof (finalize_tail C w o) as Ht.
  rewrite E in *. simpl in *. specialize (Ht Hw Ho Hp).
  destruct (cfs_owns_bytes s); [|exact Ht].
  refine (finalizes_eq _ _ _ _ _ Ht). symmetry. exact (for_each_one free_box _ _ w).
Qed.

Lemma fin_number n : ob_body o = Number n -> finalizes C w (vtf_finalize_number p).
Proof.
  intros E. apply finalize_read with n; [read_body|]. pose proof (finalize_tail C w o) as Ht.
  rewrite E in *. exact (Ht Hw Ho Hp).
Qed.

Lemma fin_data d : ob_body o = Data d -> finalizes C w (vtf_finalize_data p).
Proof.
  intros E. apply finalize_read with d; [read_body|]. pose proof (finalize_tail C w o) as Ht.
  rewrite E in *. exact (Ht Hw Ho Hp).
Qed.

Lemma fin_array a : ob_body o = Array a -> finalizes C w (vtf_finalize_array release p).
Proof.
  intros E. apply finalize_read with a; [read_body|]. rewrite E in *. simpl in *.
  apply finalize_release_all with (o:=o) (rest:=∅); try done; [by rewrite (left_id_L ∅ (⊎))|].
  intros C1 w1 Hw1 Ho1 Hp1 _. pose proof (finalize_tail C1 w1 o Hw1 Ho1 Hp1) as Ht. by rewrite E in Ht.
Qed.

Lemma fin_dictionary d : ob_body o = Dictionary d -> finalizes C w (vtf_finalize_dictionary release p).
Proof.
  intros E. apply finalize_read with d; [read_body|]. rewrite E in *. simpl in *.
  rewrite refs_app, <- (assoc_L (⊎)) in Hw.
  apply finalize_release_all with (o:=o) (rest:=refs_of (cfd_values d)); try done.
  intros C1 w1 Hw1 Ho1 Hp1 Hs1.
  apply finalize_release_all with (o:=o) (rest:=∅); try done; [by rewrite (left_id_L ∅ (⊎))|].
  intros C2 w2 Hw2 Ho2 Hp2 _. pose proof (finalize_tail C2 w2 o Hw2 Ho2 Hp2) as Ht. by rewrite E in Ht.
Qed.

Lemma fin_block_buffer b : ob_body o = BlockBuffer b -> finalizes C w (vtf_finalize_block_buffer p).
Proof.
  intros E. apply finalize_read with b; [read_body|]. pose proof (finalize_tail C w o) as Ht.
  pose proof (oo_boxed _ (ho_object _ _ _ _ Hw p o Ho)) as Hb.
  rewrite E in *. simpl in *. specialize (Ht Hw Ho Hp).
  destruct (bb_owns_bytes b); [|exact Ht]. apply list.Forall_cons in Hb as [[Hn _] _].
  refine (finalizes_eq _ _ _ _ _ Ht). rewrite (for_each_one free_box).
  unfold free_box, free_bytes. simpl. destruct (Z.gtb_spec (bb_length b) 0); [by rewrite andb_true_r|].
  replace (bb_length b) with 0 by lia. rewrite andb_false_r. by destruct (bool_decide _).
Qed.

Lemma fin_format_description f : ob_body o = FormatDescription f ->
  finalizes C w (vtf_finalize_format_description release p).
Proof.
  intros E. apply finalize_read with f; [read_body|]. rewrite E in *. simpl in *.
  apply finalize_release with (o:=o) (rest:=∅); try done; [by rewrite (left_id_L ∅ (⊎))|].
  intros C1 w1 Hw1 Ho1 Hp1 _. pose proof (finalize_tail C1 w1 o Hw1 Ho1 Hp1) as Ht. by rewrite E in Ht.
Qed.

(** The fields read at a type. *)
Hypothesis Hty : forall q k, (q, k) ∈ typed_fields (ob_body o) -> q <> 0 ->
  exists o', gs_heap w !! q = Some o' /\ type_of (ob_body o') = k.

Lemma pixel_buffer_of b : type_of b = VTF_TYPE_PIXEL_BUFFER -> exists x, b = PixelBuffer x.
Proof. destruct b; try done. eauto. Qed.

Lemma fin_sample_buffer s : ob_body o = SampleBuffer s ->
  finalizes C w (vtf_finalize_sample_buffer env release p).
Proof.
  intros E. apply finalize_read with s; [read_body|]. rewrite E in *. simpl in Hw.
  set (src := smp_source_image_buffer s) in *.
  set (fs := [src; smp_data_buffer s; smp_format_description s; smp_attachments s]) in *.
  assert (Hrest : forall w1, heap_ok X C (refs_of fs ⊎ own) w1 -> gs_heap w1 !! p = Some o ->
    finalizes C w1 (foldr (fun q k => _ ← release q; k) (free_object p) fs)).
  { intros w1 Hw1 Ho1. apply finalize_releases with o; try done. intros C2 w2 Hw2 Ho2 Hp2 _.
    pose proof (finalize_tail C2 w2 o Hw2 Ho2 Hp2) as Ht. by rewrite E in Ht. }
  assert (Hmid : forall w1, heap_ok X C (refs_of fs ⊎ own) w1 -> gs_heap w1 = gs_heap w ->
    finalizes C w1 (_ ← (if negb (src =? 0)
       then pixel_buffer ← as_pixel_buffer src;
            put_body src (PixelBuffer (pixel_buffer <| px_state := VTF_CV_BUFFER_STATE_GUEST_WRITABLE |>))
       else mret tt); foldr (fun q k => _ ← release q; k) (free_object p) fs)).
  { intros w1 Hw1 Eh. destruct (Z.eqb_spec src 0) as [E0|E0]; simpl negb; cbv iota.
    { apply (Hrest w1 Hw1). by rewrite Eh. }
    destruct (Hty src VTF_TYPE_PIXEL_BUFFER) as (ob & Hob & Htb); [by left|done|].
    destruct (pixel_buffer_of _ Htb) as [x Ex]. rewrite <- Eh in Hob.
    assert (src ∈ dom C) as Hd.
    { apply (ho_refs _ _ _ _ Hw). do 2 (apply gmultiset_elem_of_disj_union; left).
      apply elem_of_refs. split; [done|by left]. }
    refine (finalizes_eq _ _ _ _ _ (finalize_put_live C w1 src ob
      (PixelBuffer (x <| px_state := VTF_CV_BUFFER_STATE_GUEST_WRITABLE |>)) (refs_of fs) _
      Hw1 Hob Hd _ _)).
    - unfold as_pixel_buffer, mbind, G_bind, get_object. rewrite Hob, Ex. reflexivity.
    - destruct ob as [bs bd]. simpl in Ex. subst bd. unfold shape_eq, norm. simpl.
      by destruct bs, x.
    - intros w2 Hw2 Hsame. apply Hrest; [done|]. rewrite Hsame; [by rewrite Eh|].
      by intros <-. }
  destruct (negb (smp_output_id s =? 0)); [|by apply Hmid].
  refine (finalizes_eq _ _ _ _ _ (finalize_transport C w
    (transport_release_output env (smp_output_id s)) _ (release_calm env _) _)).
  - unfold mbind, G_bind. by destruct (transport_call _ w) as [[r w1]| | |].
  - intros r t. apply Hmid; [|done]. by eapply heap_ok_ext; [..|exact Hw].
Qed.

Lemma fin_pool q : ob_body o = PixelBufferPool q ->
  finalizes C w (vtf_finalize_pixel_buffer_pool env release p).
Proof.
  intros E. apply finalize_get with o; [done|]. apply finalize_read with q; [read_body|].
  rewrite E in *. simpl in Hw.
  assert (Hrest : forall w1, heap_ok X C (refs_of [pool_pixel_buffer_attributes q] ⊎ own) w1 ->
    gs_heap w1 !! p = Some o ->
    finalizes C w1 (_ ← release (pool_pixel_buffer_attributes q); free_object p)).
  { intros w1 Hw1 Ho1. apply finalize_release with (o:=o) (rest:=∅); try done;
      [by rewrite (left_id_L ∅ (⊎))|].
    intros C2 w2 Hw2 Ho2 Hp2 _. pose proof (finalize_tail C2 w2 o Hw2 Ho2 Hp2) as Ht.
    by rewrite E in Ht. }
  destruct (negb (cf_proxy_id (ob_base o) =? 0)); [|by apply Hrest].
  refine (finalizes_eq _ _ _ _ _ (finalize_transport C w
    (destroy_buffer_pool env (cf_proxy_id (ob_base o))) _ (unit_calm env _ _) _)).
  - unfold mbind, G_bind. by destruct (transport_call _ w) as [[r w1]| | |].
  - intros r t. apply Hrest; [|done]. by eapply heap_ok_ext; [..|exact Hw].
Qed.

Lemma fin_vt_decompression_session d : ob_body o = VtDecompressionSession d ->
  finalizes C w (vtf_finalize_vt_decompression_session env release p).
Proof.
  intros E. unfold vtf_finalize_vt_decompression_session.
  pose proof (ho_addr _ _ _ _ Hw p o Ho). destruct (Z.eqb_spec p 0); [lia|].
  apply finalize_get with o; [done|]. apply finalize_read with d; [read_body|].
  rewrite E in *. simpl in Hw.
  assert (Hrest : forall w1 o1, heap_ok X C (refs_of [vtd_format_description d] ⊎ own) w1 ->
    gs_heap w1 !! p = Some o1 -> body_boxes (ob_body o1) = [] ->
    finalizes C w1 (_ ← (if negb (vtd_format_description d =? 0)
       then release (vtd_format_description d) else mret tt);
       _ ← free_object p; vtf_record_vt_session_destroyed)).
  { intros w1 o1 Hw1 Ho1 Hb1. apply finalize_release_opt with (o:=o1) (rest:=∅); try done;
      [by rewrite (left_id_L ∅ (⊎))|].
    intros C2 w2 Hw2 Ho2 Hp2 _. pose proof (finalize_tail C2 w2 o1 Hw2 Ho2 Hp2) as Ht.
    rewrite Hb1 in Ht. apply gwp_bind. eapply gwp_mono; [exact Ht|].
    intros [] w3 (C3 & Hw3 & K3 & Hn3 & E3). exists C3. split_and!; try done.
    - by eapply heap_ok_ext; [..|exact Hw3].
    - eapply kept_trans; [done|by apply kept_ext]. }
  destruct (negb (vtd_invalidated d)); [|by apply (Hrest w o Hw Ho); rewrite E].
  refine (finalizes_eq _ _ _ _ _ (finalize_transport C w
    (destroy_session env (cf_proxy_id (ob_base o))) _ (destroy_session_calm env _) _)).
  - unfold mbind, G_bind. by destruct (transport_call _ w) as [[r w1]| | |].
  - intros r t. apply finalize_put_self with (o:=o) (rest:=refs_of [vtd_format_description d]); try done.
    + by eapply heap_ok_ext; [..|exact Hw].
    + apply object_ok_body; rewrite ?E; try done; [by apply (ho_object _ _ _ _ Hw p)|].
      intros Hst. by apply Hp, (ho_static _ _ _ _ Hw p o).
    + by rewrite E.
    + by rewrite E.
    + intros w1 Hw1 Ho1 _. by eapply Hrest.
Qed.

Lemma session_counts_ok d w1 : object_ok o -> ob_body o = VtSession d ->
  session_counts (os:=os) d w1 = Done (tt, w1).
Proof.
  intros [_ _ _ _ _ Hc] E. rewrite E in Hc. destruct Hc as [H1 _ [H2 _ H3] _]. unfold session_counts.
  destruct (Z.gtb_spec (vts_stored_property_count d) (len (vts_stored_properties d))); [lia|].
  destruct H3 as [(_ & -> & _)|(l & r & -> & _ & Hl & _)]; [done|].
  destruct (Z.gtb_spec (vts_pending_count d) (len l)); [lia|done].
Qed.

Lemma fin_vt_session d : ob_body o = VtSession d ->
  finalizes C w (vtf_finalize_vt_session env release p).
Proof.
  intros E. pose proof (ho_object _ _ _ _ Hw p o Ho) as Hok.
  set (w0 := w <| gs_sessions_destroyed ::= (fun n => wrap 64 (n + 1)) |>).
  assert (heap_ok X C (refs_of (body_fields (ob_body o)) ⊎ own) w0) as Hw0
    by (by eapply heap_ok_ext; [..|exact Hw]).
  eapply (finalize_from C w C w0); [by apply kept_ext|done|].
  apply finalize_get with o; [done|]. apply finalize_read with d.
  { unfold as_vt_session, mbind, G_bind, get_object. simpl. by rewrite Ho, E. }
  rewrite E in Hw0. simpl in Hw0. rewrite refs_cons, !refs_app, <- !(assoc_L (⊎)) in Hw0.
  set (tailm := _ ← for_each release (stored_values d); _ ← for_each release (pending_buffers d);
    _ ← release (vts_source_image_buffer_attributes d); _ ← release (vts_properties d); free_object p).
  assert (Hrest : forall w1 o1, heap_ok X C (refs_of [vts_pixel_buffer_pool d] ⊎
      (refs_of (stored_values d) ⊎ (refs_of (pending_buffers d) ⊎
        (refs_of [vts_source_image_buffer_attributes d; vts_properties d] ⊎ own)))) w1 ->
    gs_heap w1 !! p = Some o1 -> body_boxes (ob_body o1) = [] ->
    finalizes C w1 (_ ← (if negb (vts_pixel_buffer_pool d =? 0)
       then release (vts_pixel_buffer_pool d) else mret tt); _ ← session_counts d; tailm)).
  { intros w1 o1 Hw1 Ho1 Hb1.
    apply finalize_release_opt with (o:=o1) (rest:=refs_of (stored_values d) ⊎
      (refs_of (pending_buffers d) ⊎
        refs_of [vts_source_image_buffer_attributes d; vts_properties d])); try done;
      [by rewrite <- !(assoc_L (⊎))|].
    clear w1 Hw1 Ho1. intros C1 w1 Hw1 Ho1 Hp1 Hs1.
    apply finalize_read with tt; [by apply session_counts_ok|]. rewrite <- !(assoc_L (⊎)) in Hw1.
    apply finalize_release_all with (o:=o1) (rest:=refs_of (pending_buffers d) ⊎
      refs_of [vts_source_image_buffer_attributes d; vts_properties d]); try done;
      [by rewrite <- !(assoc_L (⊎))|].
    clear w1 C1 Hw1 Ho1 Hp1 Hs1. intros C1 w1 Hw1 Ho1 Hp1 Hs1. rewrite <- (assoc_L (⊎)) in Hw1.
    apply finalize_release_all with (o:=o1)
      (rest:=refs_of [vts_source_image_buffer_attributes d; vts_properties d]); try done.
    clear w1 C1 Hw1 Ho1 Hp1 Hs1. intros C1 w1 Hw1 Ho1 Hp1 Hs1.
    apply (finalize_releases C1 w1 o1 [_; _]); try done.
    intros C2 w2 Hw2 Ho2 Hp2 _. pose proof (finalize_tail C2 w2 o1 Hw2 Ho2 Hp2) as Ht.
    by rewrite Hb1 in Ht. }
  destruct (negb (vts_invalidated d)); [|by apply (Hrest w0 o); rewrite ?E].
  refine (finalizes_eq _ _ _ _ _ (finalize_transport C w0
    (destroy_session env (cf_proxy_id (ob_base o))) _ (destroy_session_calm env _) _)).
  - unfold mbind, G_bind. by destruct (transport_call _ w0) as [[r w1]| | |].
  - intros r t. eapply finalize_put_self with (o:=o)
      (rest:=refs_of [vts_pixel_buffer_pool d] ⊎ (refs_of (stored_values d) ⊎
        (refs_of (pending_buffers d) ⊎
          refs_of [vts_source_image_buffer_attributes d; vts_properties d]))); try done.
    + rewrite <- !(assoc_L (⊎)). by eapply heap_ok_ext; [..|exact Hw0].
    + apply object_ok_body; rewrite ?E; try done;
        [intros Hst; by apply Hp, (ho_static _ _ _ _ Hw p o)|].
      destruct Hok as [_ _ _ _ _ Hc]. rewrite E in Hc. by apply (vts_ok_view d).
    + by rewrite E.
    + by rewrite E.
    + intros w1 Hw1 Ho1 _. rewrite <- !(assoc_L (⊎)) in Hw1. by eapply Hrest.
Qed.
End hooks.

(** [vtf_finalize_pixel_buffer] from the release of the attachments on. *)
Definition pixel_end : G os unit :=
  buffer ← as_pixel_buffer p;
  _ ← (if negb (px_attachments buffer =? 0) then release (px_attachments buffer) else mret tt);
  _ ← (if px_backing_store_owned buffer && bool_decide (is_Some (px_backing_store buffer))
       then free_bytes (px_backing_store buffer) (px_backing_store_size buffer) else mret tt);
  _ ← (if bool_decide (is_Some (px_lock_snapshot buffer)) && (px_lock_snapshot_size buffer >? 0)
       then free_bytes (px_lock_snapshot buffer) (px_lock_snapshot_size buffer) else mret tt);
  free_object p.

(** And from the release of the pool on. *)
Definition pixel_rest : G os unit :=
  buffer ← as_pixel_buffer p;
  _ ← (if negb (px_pool_ref buffer =? 0)
       then _ ← release (px_pool_ref buffer);
            buffer ← as_pixel_buffer p;
            put_body p (PixelBuffer (buffer <| px_pool_ref := 0 |>))
       else mret tt);
  pixel_end.

Lemma fin_pixel_end C w o b :
  heap_ok X C (refs_of [px_attachments b] ⊎ own) w -> gs_heap w !! p = Some o -> p ∉ dom C ->
  (size C < bound)%nat -> ob_body o = PixelBuffer b -> finalizes C w pixel_end.
Proof.
  intros Hw Ho Hp Hs E. apply finalize_read with b; [read_body|].
  apply finalize_release_opt with (o:=o) (rest:=∅); try done; [by rewrite (left_id_L ∅ (⊎))|].
  intros C1 w1 Hw1 Ho1 Hp1 _. pose proof (finalize_tail C1 w1 o Hw1 Ho1 Hp1) as Ht.
  pose proof (oo_boxed _ (ho_object _ _ _ _ Hw1 p o Ho1)) as Hb. rewrite E in Ht, Hb.
  simpl in Ht, Hb. apply Forall_app in Hb as [_ [[Hn _] _]%list.Forall_cons].
  assert (Hsnap : forall w2, (if bool_decide (is_Some (px_lock_snapshot b)) &&
      (px_lock_snapshot_size b >? 0) then free_bytes (px_lock_snapshot b) (px_lock_snapshot_size b)
      else mret tt) w2 = free_box (px_lock_snapshot b, px_lock_snapshot_size b) w2).
  { intros w2. unfold free_box, free_bytes. simpl.
    destruct (Z.gtb_spec (px_lock_snapshot_size b) 0); [by rewrite andb_true_r|].
    replace (px_lock_snapshot_size b) with 0 by lia. rewrite andb_false_r. by destruct (bool_decide _). }
  refine (finalizes_eq _ _ _ _ _ Ht). destruct (px_backing_store_owned b); simpl.
  - change (if bool_decide (is_Some (px_backing_store b))
            then free_bytes (os:=os) (px_backing_store b) (px_backing_store_size b) else mret tt)
      with (free_box (px_backing_store b, px_backing_store_size b)).
    unfold mbind, G_bind. destruct (free_box _ w1) as [[[] w2]| | |]; try done.
    rewrite Hsnap. by destruct (free_box _ w2) as [[[] w3]| | |].
  - etrans; [|symmetry; exact (for_each_one free_box _ _ w1)].
    unfold mbind, G_bind. change (mret (M:=G os) tt w1) with (Done (tt, w1)). cbv beta iota.
    by rewrite Hsnap.
Qed.

Lemma fin_pixel_rest C w o b :
  heap_ok X C (refs_of [px_pool_ref b; px_attachments b] ⊎ own) w -> gs_heap w !! p = Some o ->
  p ∉ dom C -> (size C < bound)%nat -> ob_body o = PixelBuffer b -> finalizes C w pixel_rest.
Proof.
  intros Hw Ho Hp Hs E. apply finalize_read with b; [read_body|].
  rewrite refs_cons, <- (assoc_L (⊎)) in Hw.
  destruct (Z.eqb_spec (px_pool_ref b) 0) as [E0|E0]; cbn [negb].
  { apply (fin_pixel_end C w o b); try done. by rewrite E0, refs_null, (left_id_L ∅ (⊎)) in Hw. }
  assert (forall (m : G os unit) w', (_ ← (_ ← release (px_pool_ref b); m); pixel_end) w' =
            (_ ← release (px_pool_ref b); _ ← m; pixel_end) w') as Hassoc.
  { intros m w'. unfold mbind, G_bind. by destruct (release _ w') as [[[] w1]| | |]. }
  refine (finalizes_eq _ _ _ _ (Hassoc _ _) _).
  apply finalize_release with (o:=o) (rest:=refs_of [px_attachments b]); try done.
  intros C1 w1 Hw1 Ho1 Hp1 Hs1.
  refine (finalizes_eq _ _ _ _ _ (finalize_put_self C1 w1 o
    (PixelBuffer (b <| px_pool_ref := 0 |>)) (refs_of [px_attachments b]) (fun _ => pixel_end)
    Hw1 Ho1 Hp1 _ _ _ _)).
  - unfold as_pixel_buffer, mbind, G_bind, get_object. by rewrite Ho1, E.
  - apply object_ok_body; rewrite ?E; try done; [by apply (ho_object _ _ _ _ Hw1 p)| |].
    { intros Hst. by apply Hp1, (ho_static _ _ _ _ Hw1 p o). }
    pose proof (oo_counts _ (ho_object _ _ _ _ Hw1 p o Ho1)) as Hb. rewrite E in Hb.
    by apply (pixel_ok_view b).
  - by rewrite E.
  - by rewrite E.
  - intros w2 Hw2 Ho2 _. set (b' := b <| px_pool_ref := 0 |>) in *.
    exact (fin_pixel_end C1 w2 _ b' Hw2 Ho2 Hp1 Hs1 eq_refl).
Qed.

Lemma fin_pixel_buffer C w o b :
  heap_ok X C (refs_of (body_fields (ob_body o)) ⊎ own) w -> gs_heap w !! p = Some o ->
  p ∉ dom C -> (size C < bound)%nat -> ob_body o = PixelBuffer b ->
  finalizes C w (vtf_finalize_pixel_buffer env release p).
Proof.
  intros Hw Ho Hp Hs E. pose proof (ho_addr _ _ _ _ Hw p o Ho) as Hpos.
  apply finalize_read with b; [read_body|].
  assert (heap_ok X C (refs_of [px_pool_ref b; px_attachments b] ⊎ own) w) as Hwb by by rewrite E in Hw.
  change (finalizes C w (_ ← vtf_recycle_pixel_buffer env p; pixel_rest)).
  unfold vtf_recycle_pixel_buffer. destruct (Z.eqb_spec p 0); [lia|].
  destruct (px_recycled b) eqn:Er.
  { eapply finalizes_eq; [|by apply (fin_pixel_rest C w o b)].
    unfold as_pixel_buffer, mbind, G_bind, get_object. rewrite Ho. simpl. rewrite Ho. simpl.
    rewrite E. simpl. by rewrite Er. }
  eapply finalizes_eq; [|apply (finalize_transport C w (send_request_unit env OP_RECYCLE_BUFFER
    (mk_RecycleBufferPayload (px_pool_host_id b) (cf_proxy_id (ob_base o)) (px_host_generation b)))
    (fun result => _ ← match result with
       | inl _ => put_body p (PixelBuffer (b <| px_recycled := true |>))
       | inr _ => mret tt end; pixel_rest) (unit_calm env _ _))].
  - unfold as_pixel_buffer, mbind, G_bind, get_object. rewrite Ho. simpl. rewrite Ho. simpl.
    rewrite E. simpl. rewrite Er. by destruct (transport_call _ w) as [[[u|e] w1]| | |].
  - intros [u|e] t.
    + apply finalize_put_self with (o:=o) (rest:=refs_of [px_pool_ref b; px_attachments b]);
        rewrite ?E; try done.
      * by eapply heap_ok_ext; [..|exact Hwb].
      * apply object_ok_body; rewrite ?E; try done; [by apply (ho_object _ _ _ _ Hw p)| |].
        { intros Hst. by apply Hp, (ho_static _ _ _ _ Hw p o). }
        pose proof (oo_counts _ (ho_object _ _ _ _ Hw p o Ho)) as Hb. rewrite E in Hb.
        by apply (pixel_ok_view b).
      * intros w1 Hw1 Ho1 _. set (b' := b <| px_recycled := true |>) in *.
        by apply (fin_pixel_rest C w1 _ b' Hw1 Ho1).
    + apply (fin_pixel_rest C _ o b); try done. by eapply heap_ok_ext; [..|exact Hwb].
Qed.
End one.

Lemma run_finalizer_ok X own p C w o fin : held X own ->
  heap_ok X C (refs_of (body_fields (ob_body o)) ⊎ own) w -> gs_heap w !! p = Some o ->
  p ∉ dom C -> (size C < bound)%nat ->
  (forall q k, (q, k) ∈ typed_fields (ob_body o) -> q <> 0 ->
     exists o', gs_heap w !! q = Some o' /\ type_of (ob_body o') = k) ->
  finalizer_of (ob_body o) = Some fin ->
  gwp pan (run_finalizer env release fin p) (fin_post X C own p w) w.
Proof.
  intros Hh Hw Ho Hp Hs Hty Hf.
  destruct (ob_body o) eqn:E; simpl in Hf; simplify_eq; simpl run_finalizer; rewrite <- E in Hw, Hty.
  - by eapply fin_string.
  - by eapply fin_number.
  - by eapply fin_data.
  - by eapply fin_array.
  - by eapply fin_dictionary.
  - by eapply fin_block_buffer.
  - by eapply fin_format_description.
  - by eapply fin_sample_buffer.
  - by eapply fin_pixel_buffer.
  - by eapply fin_pool.
  - by eapply fin_vt_session.
  - by eapply fin_vt_decompression_session.
Qed.
End finalizers.

(** ** [CFRelease] *)

Lemma as_signed_small n z : 0 < n -> - 2 ^ (n - 1) <= z < 2 ^ (n - 1) -> as_signed n z = z.
Proof.
  intros Hn Hz. unfold as_signed. assert (2 ^ n = 2 * 2 ^ (n - 1)) as E.
  { rewrite <- Z.pow_succ_r by lia. f_equal. lia. }
  rewrite Z.mod_small by lia. lia.
Qed.

Lemma wrap_as_signed n z c : 0 <= n -> wrap n (as_signed n z + c) = wrap n (z + c).
Proof.
  intros Hn. unfold wrap, as_signed. assert (2 ^ n <> 0) by (apply Z.pow_nonzero; lia).
  replace ((z + 2 ^ (n - 1)) mod 2 ^ n - 2 ^ (n - 1) + c)
    with ((z + 2 ^ (n - 1)) mod 2 ^ n + (c - 2 ^ (n - 1))) by lia.
  rewrite Zplus_mod_idemp_l. f_equal. lia.
Qed.

(** A finalized object, seen from before its last release. *)
Lemma kept_last C w q o n C' w' :
  q ∈ dom C -> gs_heap w !! q = Some o ->
  kept {[q]} (delete q C) (w <| gs_heap ::= insert q (with_count n o) |>) C' w' ->
  gs_heap w' !! q = None -> kept ∅ C w C' w'.
Proof.
  intros Hq Ho K Hn. pose proof (dom_sub _ _ (k_sub _ _ _ _ _ K)) as Hd. rewrite dom_delete in Hd.
  assert (Hlk : forall r, r <> q -> gs_heap (w <| gs_heap ::= insert q (with_count n o) |>) !! r =
    gs_heap w !! r) by (intros r Hr; simpl; by rewrite lookup_insert_ne).
  split.
  - etrans; [apply K|apply delete_subseteq].
  - apply (k_next _ _ _ _ _ K).
  - intros r Hr Hr'. destruct (decide (r = q)) as [->|Hne]; [done|].
    apply (k_gone _ _ _ _ _ K); [rewrite dom_delete; set_solver|done].
  - intros r o' Hr Hr'. destruct (k_live _ _ _ _ _ K r o' Hr Hr') as (o1 & Ho1 & E1).
    rewrite Hlk in Ho1; [by exists o1|]. set_solver.
  - intros r Hr _. rewrite (k_zombie _ _ _ _ _ K r); [apply Hlk; by intros ->|..].
    + rewrite dom_delete. set_solver.
    + intros ->%elem_of_singleton. done.
  - set_solver.
  - apply (k_blocks_sub _ _ _ _ _ K).
  - intros b bs Hb Hown. apply (k_blocks _ _ _ _ _ K); [done|]. intros r or' n' Hr Hb'.
    destruct (decide (r = q)) as [->|Hne].
    + simpl in Hr. rewrite lookup_insert_eq in Hr. simplify_eq. by apply (Hown q o n').
    + rewrite Hlk in Hr by done. by apply (Hown r or' n').
Qed.

Lemma release_within_ok fuel : release_spec (release_within env fuel) fuel.
Proof.
  induction fuel as [|fuel IH]; intros X C own w q Hw Hh Hs; [lia|].
  cbn [release_within].
  destruct (Z.eqb_spec q 0) as [->|Hq].
  { apply gwp_ret. rewrite refs_null, (left_id_L ∅ (⊎)) in Hw. exists C.
    split_and!; [done|apply kept_refl|done]. }
  rewrite refs_single in Hw by done.
  destruct (heap_ok_lookup _ _ _ _ q Hw) as (o & m & Ho & Hm & Hok & _); [multiset_solver|].
  apply gwp_bind, gwp_get with o; [done|].
  assert (q ∈ dom C) as Hd by (apply elem_of_dom; eauto).
  destruct (Z.eqb_spec (Z.land (cf_flags (ob_base o)) VTF_OBJECT_FLAG_STATIC) 0) as [Hst|Hst];
    simpl negb; cbv iota.
  2: { apply gwp_ret. exists C. split_and!; [by eapply heap_ok_drop_static|apply kept_refl|done]. }
  assert (~ is_static o) as Hns by (unfold is_static; lia).
  pose proof (ho_count _ _ _ _ Hw q o Ho Hns) as (_ & Hl & Hmax). apply Hl in Hd as Hpos.
  assert ((o <| ob_base ::= (fun b => b <| cf_refcount ::= (fun n => as_signed 32 (n - 1)) |>) |>) =
          with_count (cf_refcount (ob_base o) - 1) o) as ->.
  { unfold with_count. simpl. rewrite as_signed_small by lia. done. }
  apply gwp_bind, gwp_put with o; [done|].
  destruct (Z.eqb_spec (cf_refcount (ob_base o)) 1) as [E1|E1].
  2: { apply gwp_ret. exists C. split_and!; [by apply heap_ok_drop| |by eapply alive_gap_put].
       eapply kept_put_live; [done|done|apply with_count_shape]. }
  destruct (heap_ok_last X C own w q o Hw Hh Ho Hns E1) as (_ & Hqown & Hty & Hw1).
  destruct (oo_final _ Hok Hns) as [Hf [fin Hfin]]. rewrite Hf, Hfin. rewrite E1. simpl (1 - 1).
  set (w1 := w <| gs_heap ::= insert q (with_count 0 o) |>) in *.
  assert (gs_heap w1 !! q = Some (with_count 0 o)) as Ho1 by apply lookup_insert_eq.
  eapply gwp_seq; [apply (run_finalizer_ok _ fuel IH X own q (delete q C) w1 (with_count 0 o) fin)|];
    try done.
  - rewrite dom_delete. set_solver.
  - rewrite map_size_delete, Hm. assert (size C <> 0%nat) as Hne0; [|lia].
    intros E0%map_size_empty_inv. by rewrite E0, lookup_empty in Hm.
  - intros r k Hr Hr0. destruct (Hty r k Hr Hr0) as (o' & Ho' & Hk & Hne). exists o'.
    unfold w1. simpl. by rewrite lookup_insert_ne.
  - intros [] w2 (C' & Hw2 & K2 & Hn2 & E2). apply gwp_modify. exists C'. split_and!.
    + by eapply heap_ok_ext; [..|exact Hw2].
    + eapply kept_trans; [by eapply kept_last|by apply kept_ext].
    + unfold alive_gap in *. simpl. replace (size (gs_heap w2)) with (size (gs_heap w2)) by done.
      pose proof (wrap_as_signed 64 (gs_alive w2 - 1) (- Z.of_nat (size (gs_heap w2))) ltac:(lia)) as Ew.
      rewrite Z.add_opp_r in Ew. rewrite Ew.
      assert (wrap 64 (gs_alive w2 - 1 + - Z.of_nat (size (gs_heap w2))) =
              wrap 64 (wrap 64 (gs_alive w2 - Z.of_nat (size (gs_heap w2))) - 1)) as ->.
      { unfold wrap. rewrite Zminus_mod_idemp_l. f_equal. lia. }
      rewrite E2. unfold w1. simpl. rewrite map_size_insert_Some by eauto.
      unfold wrap. rewrite Zminus_mod_idemp_l, Z.add_simpl_r. by rewrite Zmod_mod.
Qed.
End release.

(** ** Between calls

    No object is being finalized and none is half changed: the references counted
    are those of the fields. *)
Definition credits (h : gmap Z object) : gmap Z (gmultiset Z) :=
  (fun o => refs_of (body_fields (ob_body o))) <$> h.

Definition counted {os} (own : gmultiset Z) (w : guest os) : Prop :=
  heap_ok ∅ (credits (gs_heap w)) own w.

Section counted.
Context {os : Type} `{!Net os} `{!Profile} (env : environ).
Implicit Types (w : guest os) (C : gmap Z (gmultiset Z)) (own : gmultiset Z) (X : gset Z).
Abbreviation pan := (overflow_checks = true).

Lemma credits_lookup h p : credits h !! p = (fun o => refs_of (body_fields (ob_body o))) <$> h !! p.
Proof. apply lookup_fmap. Qed.

Lemma dom_credits h : dom (credits h) = dom h.
Proof. apply dom_fmap_L. Qed.

(** An invariant with everything counted is the settled one. *)
Lemma settled C own w : heap_ok ∅ C own w -> dom (gs_heap w) ⊆ dom C -> C = credits (gs_heap w).
Proof.
  intros Hw Hd. apply map_eq. intros p. rewrite credits_lookup.
  destruct (C !! p) as [m|] eqn:E.
  - assert (p ∈ dom (gs_heap w)) as [o Ho]%elem_of_dom
      by (apply (ho_live _ _ _ _ Hw), elem_of_dom; eauto).
    rewrite Ho. simpl. f_equal. by destruct (ho_fields _ _ _ _ Hw p m o E Ho) as [-> _]; [set_solver|].
  - assert (gs_heap w !! p = None) as ->; [|done]. apply not_elem_of_dom. intros ?%Hd.
    by apply not_elem_of_dom in E.
Qed.

Lemma counted_settle C own w : heap_ok ∅ C own w -> dom (gs_heap w) ⊆ dom C -> counted own w.
Proof. intros Hw Hd. unfold counted. by rewrite <- (settled C own w). Qed.

Lemma kept_dom C w C' w' : kept ∅ C w C' w' -> dom (gs_heap w) ⊆ dom C -> dom (gs_heap w') ⊆ dom C'.
Proof.
  intros K Hd p Hp. destruct (decide (p ∈ dom C')) as [|Hn]; [done|exfalso].
  apply elem_of_dom in Hp as [o Ho]. destruct (decide (p ∈ dom C)) as [Hc|Hc].
  - by rewrite (k_gone _ _ _ _ _ K p Hc Hn) in Ho.
  - rewrite (k_zombie _ _ _ _ _ K p Hc) in Ho by set_solver. apply Hc, Hd, elem_of_dom. eauto.
Qed.

(** In the middle of a change. *)
Lemma CFRelease_within X C own w p :
  heap_ok X C (refs_of [p] ⊎ own) w -> held X own ->
  gwp pan (CFRelease env p) (rel_post X C own w) w.
Proof.
  intros Hw Hh. unfold gwp, CFRelease. apply (release_within_ok env _ X C own w p Hw Hh).
  assert (size C <= size (gs_heap w))%nat; [|lia]. rewrite <- !size_dom. apply subseteq_size.
  intros q. apply (ho_live _ _ _ _ Hw).
Qed.

Definition released (own : gmultiset Z) w w' : Prop :=
  counted own w' /\ kept ∅ (credits (gs_heap w)) w (credits (gs_heap w')) w' /\
  alive_gap w' = alive_gap w.

Lemma CFRelease_ok own w p :
  counted (refs_of [p] ⊎ own) w -> gwp pan (CFRelease env p) (fun _ => released own w) w.
Proof.
  intros Hw. eapply gwp_mono; [apply CFRelease_within; [exact Hw|intros q Hq; set_solver]|].
  intros [] w' (C' & Hw' & K & E).
  assert (dom (gs_heap w') ⊆ dom C') as Hd by (eapply kept_dom; [done|by rewrite dom_credits]).
  pose proof (settled C' own w' Hw' Hd) as EC. subst C'. done.
Qed.

(** ** Leaks *)

(** [p] refers to [q], directly or through other objects. *)
Inductive reaches (h : gmap Z object) : Z -> Z -> Prop :=
| reaches_self p : reaches h p p
| reaches_field p q r o : h !! p = Some o -> q ∈ body_fields (ob_body o) -> q <> 0 ->
    reaches h q r -> reaches h p r.

(** No object refers to itself through others. *)
Definition acyclic (h : gmap Z object) : Prop := exists rank : Z -> nat,
  forall p o q, h !! p = Some o -> q ∈ body_fields (ob_body o) -> q <> 0 -> (rank q < rank p)%nat.

Lemma reaches_snoc h p q r o :
  reaches h p q -> h !! q = Some o -> r ∈ body_fields (ob_body o) -> r <> 0 -> reaches h p r.
Proof. induction 1; intros; econstructor; eauto. constructor. Qed.

Lemma elem_of_total C q : q ∈ total_refs C -> exists p m, C !! p = Some m /\ q ∈ m.
Proof.
  induction C as [|p m C Hp IH] using map_ind.
  - intros []%gmultiset_not_elem_of_empty.
  - rewrite total_insert by done. intros [Hq|Hq]%gmultiset_elem_of_disj_union.
    + exists p, m. by rewrite lookup_insert_eq.
    + destruct (IH Hq) as (p' & m' & Hl & Hq'). exists p', m'. split; [|done].
      rewrite lookup_insert_ne; [done|]. by intros <-; simplify_eq.
Qed.

Lemma rank_bound (h : gmap Z object) (rank : Z -> nat) :
  exists N, forall p, p ∈ dom h -> (rank p <= N)%nat.
Proof.
  induction h as [|p o h _ [N IH]] using map_ind; [exists 0%nat; set_solver|].
  exists (rank p `max` N)%nat. intros q [->%elem_of_singleton|Hq]%dom_insert%elem_of_union; [lia|].
  specialize (IH q Hq). lia.
Qed.

Lemma owned_root own w p o : counted own w -> acyclic (gs_heap w) ->
  gs_heap w !! p = Some o -> ~ is_static o -> exists q, q ∈ own /\ reaches (gs_heap w) q p.
Proof.
  intros Hw [rank Hrank]. destruct (rank_bound (gs_heap w) rank) as [N HN].
  remember (N - rank p)%nat as d eqn:Ed. revert p o Ed.
  induction d as [d IH] using lt_wf_ind. intros p o -> Ho Hs.
  destruct (ho_count _ _ _ _ Hw p o Ho Hs) as (Hc & Hl & _).
  assert (p ∈ own ⊎ total_refs (credits (gs_heap w))) as Hp.
  { rewrite elem_of_multiplicity. assert (p ∈ dom (credits (gs_heap w))) as Hd%Hl; [|lia].
    rewrite dom_credits. apply elem_of_dom. eauto. }
  apply gmultiset_elem_of_disj_union in Hp as [Hp|Hp]; [exists p; split; [done|constructor]|].
  apply elem_of_total in Hp as (q & m & Hq & Hpm). rewrite credits_lookup in Hq.
  apply fmap_Some in Hq as (oq & Hoq & ->). apply elem_of_refs in Hpm as [Hp0 Hpf].
  pose proof (Hrank q oq p Hoq Hpf Hp0). pose proof (HN q ltac:(apply elem_of_dom; eauto)).
  destruct (IH (N - rank q)%nat ltac:(lia) q oq eq_refl Hoq) as (r & Hr & Hreach).
  { intros Hst. rewrite (static_fields _ (ho_object _ _ _ _ Hw q oq Hoq) Hst) in Hpf. set_solver. }
  exists r. split; [done|]. by eapply reaches_snoc.
Qed.
End counted.
