(* ===== verification/CoreFoundation.v ===== *)
(** * Core Foundation of the guest

    [vt-ferry-shim/src/corefoundation.rs]: strings, numbers, data, arrays and
    dictionaries.  A dictionary is a pair of parallel vectors searched by pointer
    identity.  Arguments that are C arrays of pointers are [option (list Z)]
    ([None] is null), reading past their end is undefined; an out-parameter is
    whether it is given, and what is written to it is part of the result. *)

From S2P Require Import Prelude Wire Protocol Backend Transport Objects Release.
From coqutil Require Import Word.LittleEndianList.
From stdpp Require Import strings.

Set Default Goal Selector "!".
Open Scope Z_scope.

Definition kCFStringEncodingUTF8 : Z := 0x08000100.
Definition K_CF_NUMBER_SINT32_TYPE : Z := 3.
Definition K_CF_NUMBER_SINT64_TYPE : Z := 4.
Definition K_CF_NUMBER_DOUBLE_TYPE : Z := 6.
Definition K_CF_NUMBER_INT_TYPE : Z := 9.

Record CFRange := mk_CFRange { range_location : Z; range_length : Z }.

(** ** Integers and doubles

    [value as f64] and [value as i64] on the bit pattern of a double: to nearest,
    ties to even; truncation, saturating, [NaN] to [0]. *)

Definition f64_of_i64 (z : Z) : Z :=
  if z =? 0 then 0 else
  let m := Z.abs z in
  let e := Z.log2 m in
  let mantissa :=
    if e <=? 52 then Z.shiftl m (52 - e)
    else
      let s := e - 52 in
      let q := Z.shiftr m s in
      let r := m - Z.shiftl q s in
      let half := Z.shiftl 1 (s - 1) in
      if (half <? r) || ((r =? half) && Z.odd q) then q + 1 else q in
  (if z <? 0 then 2 ^ 63 else 0) + (e + 1023) * 2 ^ 52 + (mantissa - 2 ^ 52).

Definition i64_of_f64 (bits : Z) : Z :=
  let negative := Z.testbit bits 63 in
  let e := Z.land (Z.shiftr bits 52) 2047 in
  let m := Z.land bits (2 ^ 52 - 1) in
  if e =? 2047 then
    if negb (m =? 0) then 0 else if negative then - 2 ^ 63 else 2 ^ 63 - 1
  else if e <? 1023 then 0
  else
    let a := if e <? 1075 then Z.shiftr (2 ^ 52 + m) (1075 - e)
             else Z.shiftl (2 ^ 52 + m) (e - 1075) in
    if negative then Z.max (- 2 ^ 63) (- a) else Z.min (2 ^ 63 - 1) a.

(** What [CFNumberGetValue] writes. *)
Inductive number_out :=
| Out_i32 (z : Z)
| Out_i64 (z : Z)
| Out_f64 (bits : Z).

Section corefoundation.
Context {os : Type} `{!Net os} `{!Profile} (env : environ).
Abbreviation G := (G os).

(** [Vec::with_capacity(n)] of pointers: a capacity overflow panics. *)
Definition with_capacity (n : Z) : G unit :=
  if n * 8 >? ISIZE_MAX then abort else mret tt.

(** [*values.add(index)] of an array argument that may be null. *)
Definition array_arg (values : option (list Z)) (index : nat) : G Z :=
  match values with
  | None => mret 0
  | Some l => match l !! index with Some v => mret v | None => ub end
  end.

(** ** Strings *)

Definition vtf_string_contents (value : Z) : G (option (list byte)) :=
  if value =? 0 then mret None else
  ty ← vtf_get_type_id value;
  if negb (ty =? VTF_TYPE_STRING) then mret None else
  string ← as_string value;
  match cfs_bytes string with
  | None => mret None
  | Some _ => bytes ← read_bytes (cfs_bytes string) (cfs_length string); mret (Some bytes)
  end.

(** [CStr::from_ptr(p).to_bytes()]: the bytes before the first NUL. *)
Definition c_str (p : rawptr) : G (list byte) := fun w =>
  match p with
  | Some (b, off) =>
      match gs_blocks w !! b with
      | Some bs =>
          let l := drop (Z.to_nat off) bs in
          match position (fun c => Byte.eqb c Byte.x00) l with
          | Some n => if 0 <=? off then Done (take n l, w) else UB
          | None => UB
          end
      | None => UB
      end
  | None => UB
  end.

Definition VTF_CFStringCreateStatic (bytes : rawptr) : G Z :=
  if bool_decide (bytes = None) then mret 0 else
  cstr ← c_str bytes;
  base ← vtf_cf_object_init VTF_TYPE_STRING (Some Finalize_string);
  new_object (mk_object base (String_ (mk_vtf_cf_string bytes (len cstr) false))).

Definition CFGetTypeID (value : Z) : G Z := vtf_get_type_id value.

Definition CFStringGetLength (value : Z) : G Z :=
  contents ← vtf_string_contents value;
  mret (match contents with Some bytes => len bytes | None => 0 end).

Definition CFStringGetMaximumSizeForEncoding (length : Z) : G Z :=
  if length <? 0 then mret 0 else of_rust (arith_i64 (length + 1)).

Definition CFStringGetCString (value : Z) (buffer : rawptr) (buffer_size : Z) : G Z :=
  contents ← vtf_string_contents value;
  match contents with
  | None => mret 0
  | Some bytes =>
      if bool_decide (buffer = None) || (buffer_size <=? 0) || (buffer_size <=? len bytes)
      then mret 0
      else _ ← write_bytes buffer bytes;
           _ ← write_bytes (raw_add buffer (len bytes)) [Byte.x00];
           mret 1
  end.

(** ** Numbers *)

Definition CFNumberCreate (number_type : Z) (value_ptr : rawptr) : G Z :=
  if bool_decide (value_ptr = None) then mret 0 else
  let create sint64 f64 :=
    base ← vtf_cf_object_init VTF_TYPE_NUMBER (Some Finalize_number);
    new_object (mk_object base (Number (mk_vtf_cf_number number_type sint64 f64))) in
  if (number_type =? K_CF_NUMBER_SINT32_TYPE) || (number_type =? K_CF_NUMBER_INT_TYPE) then
    bytes ← read_bytes value_ptr 4;
    let value := as_signed 32 (le_combine bytes) in
    create value (f64_of_i64 value)
  else if number_type =? K_CF_NUMBER_SINT64_TYPE then
    bytes ← read_bytes value_ptr 8;
    let value := as_signed 64 (le_combine bytes) in
    create value (f64_of_i64 value)
  else if number_type =? K_CF_NUMBER_DOUBLE_TYPE then
    bytes ← read_bytes value_ptr 8;
    let value := le_combine bytes in
    create (i64_of_f64 value) value
  else mret 0.

Definition CFNumberGetTypeID : Z := VTF_TYPE_NUMBER.

Definition CFNumberGetType (value : Z) : G Z :=
  if value =? 0 then mret 0 else
  ty ← vtf_get_type_id value;
  if negb (ty =? VTF_TYPE_NUMBER) then mret 0
  else number ← as_number value; mret (cfn_number_type number).

(** The [Boolean] and what is written to [out_value]. *)
Definition CFNumberGetValue (value number_type : Z) (out_value : bool) : G (Z * option number_out) :=
  if (value =? 0) || negb out_value then mret (0, None) else
  ty ← vtf_get_type_id value;
  if negb (ty =? VTF_TYPE_NUMBER) then mret (0, None) else
  number ← as_number value;
  mret
    (if (number_type =? K_CF_NUMBER_SINT32_TYPE) || (number_type =? K_CF_NUMBER_INT_TYPE)
     then (1, Some (Out_i32 (as_signed 32 (cfn_sint64 number))))
     else if number_type =? K_CF_NUMBER_SINT64_TYPE then (1, Some (Out_i64 (cfn_sint64 number)))
     else if number_type =? K_CF_NUMBER_DOUBLE_TYPE then (1, Some (Out_f64 (cfn_f64 number)))
     else (0, None)).

(** ** Data *)

Definition CFDataGetTypeID : Z := VTF_TYPE_DATA.

Definition CFDataCreate (bytes : rawptr) (length : Z) : G Z :=
  if length <? 0 then mret 0 else
  data ← (if bool_decide (bytes = None) || (length =? 0) then mret []
          else read_bytes bytes length);
  base ← vtf_cf_object_init VTF_TYPE_DATA (Some Finalize_data);
  new_object (mk_object base (Data (mk_vtf_cf_data data))).

Definition CFDataGetLength (data : Z) : G Z :=
  if data =? 0 then mret 0 else
  ty ← vtf_get_type_id data;
  if negb (ty =? VTF_TYPE_DATA) then mret 0
  else d ← as_data data; mret (len (cfd_bytes d)).

Definition CFDataGetBytes (data : Z) (range : CFRange) (buffer : rawptr) : G unit :=
  if (data =? 0) || bool_decide (buffer = None) then mret tt else
  ty ← vtf_get_type_id data;
  if negb (ty =? VTF_TYPE_DATA) then mret tt else
  d ← as_data data;
  if (range_location range <? 0) || (range_length range <? 0) then mret tt else
  if range_location range >? len (cfd_bytes d) then mret tt else
  stop ← of_rust (arith 64 (range_location range + range_length range));
  if stop >? len (cfd_bytes d) then mret tt
  else write_bytes buffer
         (slice (Z.to_nat (range_location range)) (Z.to_nat (range_length range)) (cfd_bytes d)).

(** ** Arrays *)

(** The loops that retain the elements of an array argument. *)
Fixpoint retain_args (arg : nat -> G Z) (index : list nat) : G (list Z) :=
  match index with
  | [] => mret []
  | i :: index =>
      value ← arg i;
      value ← CFRetain value;
      rest ← retain_args arg index;
      mret (value :: rest)
  end.

Definition CFArrayCreate (values : option (list Z)) (num_values : Z) : G Z :=
  if num_values <? 0 then mret 0 else
  _ ← with_capacity num_values;
  retained ← retain_args (array_arg values) (seq 0 (Z.to_nat num_values));
  base ← vtf_cf_object_init VTF_TYPE_ARRAY (Some Finalize_array);
  new_object (mk_object base (Array (mk_vtf_cf_array retained))).

Definition CFArrayGetTypeID : Z := VTF_TYPE_ARRAY.

Definition CFArrayGetCount (the_array : Z) : G Z :=
  if the_array =? 0 then mret 0 else
  ty ← vtf_get_type_id the_array;
  if negb (ty =? VTF_TYPE_ARRAY) then mret 0
  else a ← as_array the_array; mret (len (cfa_values a)).

Definition CFArrayGetValueAtIndex (the_array index : Z) : G Z :=
  if the_array =? 0 then mret 0 else
  ty ← vtf_get_type_id the_array;
  if negb (ty =? VTF_TYPE_ARRAY) || (index <? 0) then mret 0
  else array ← as_array the_array; mret (default 0 (cfa_values array !! Z.to_nat index)).

(** ** Dictionaries *)

Definition vtf_dictionary_find_index (d : vtf_cf_dictionary) (key : Z) : option nat :=
  position (fun existing => existing =? key) (cfd_keys d).

(** Key and value of each index are retained in turn. *)
Fixpoint retain_pairs (keys values : nat -> G Z) (index : list nat) : G (list Z * list Z) :=
  match index with
  | [] => mret ([], [])
  | i :: index =>
      key ← keys i;
      value ← values i;
      key ← CFRetain key;
      value ← CFRetain value;
      '(ks, vs) ← retain_pairs keys values index;
      mret (key :: ks, value :: vs)
  end.

Definition CFDictionaryCreate (keys values : option (list Z)) (num_values : Z) : G Z :=
  if num_values <? 0 then mret 0 else
  _ ← with_capacity num_values;
  '(retained_keys, retained_values) ←
    retain_pairs (array_arg keys) (array_arg values) (seq 0 (Z.to_nat num_values));
  base ← vtf_cf_object_init VTF_TYPE_DICTIONARY (Some Finalize_dictionary);
  new_object (mk_object base (Dictionary (mk_vtf_cf_dictionary retained_keys retained_values))).

Definition CFDictionaryCreateMutable (capacity : Z) : G Z :=
  base ← vtf_cf_object_init VTF_TYPE_DICTIONARY (Some Finalize_dictionary);
  _ ← with_capacity (Z.max capacity 0);
  new_object (mk_object base (Dictionary (mk_vtf_cf_dictionary [] []))).

Definition CFDictionarySetValue (dictionary key value : Z) : G unit :=
  if dictionary =? 0 then mret tt else
  ty ← vtf_get_type_id dictionary;
  if negb (ty =? VTF_TYPE_DICTIONARY) then mret tt else
  d ← as_dictionary dictionary;
  match vtf_dictionary_find_index d key with
  | Some index =>
      match cfd_values d !! index with
      | Some old =>
          _ ← CFRelease env old;
          value ← CFRetain value;
          d ← as_dictionary dictionary;
          put_body dictionary (Dictionary (d <| cfd_values ::= (fun l : list Z => <[index := value]> l) |>))
      | None => abort
      end
  | None =>
      key ← CFRetain key;
      d ← as_dictionary dictionary;
      _ ← put_body dictionary (Dictionary (d <| cfd_keys ::= (fun l => l ++ [key]) |>));
      value ← CFRetain value;
      d ← as_dictionary dictionary;
      put_body dictionary (Dictionary (d <| cfd_values ::= (fun l => l ++ [value]) |>))
  end.

Definition CFDictionaryGetValue (dictionary key : Z) : G Z :=
  if dictionary =? 0 then mret 0 else
  ty ← vtf_get_type_id dictionary;
  if negb (ty =? VTF_TYPE_DICTIONARY) then mret 0 else
  d ← as_dictionary dictionary;
  match vtf_dictionary_find_index d key with
  | Some index =>
      match cfd_values d !! index with Some v => mret v | None => abort end
  | None => mret 0
  end.

Definition CFDictionaryGetValueIfPresent (dictionary key : Z) (value : bool) : G (Z * option Z) :=
  found ← CFDictionaryGetValue dictionary key;
  mret (if found =? 0 then (0, None) else (1, if value then Some found else None)).

Definition CFDictionaryContainsKey (dictionary key : Z) : G Z :=
  if dictionary =? 0 then mret 0 else
  ty ← vtf_get_type_id dictionary;
  if negb (ty =? VTF_TYPE_DICTIONARY) then mret 0 else
  d ← as_dictionary dictionary;
  mret (if bool_decide (is_Some (vtf_dictionary_find_index d key)) then 1 else 0).

Definition CFDictionaryGetTypeID : Z := VTF_TYPE_DICTIONARY.

Definition CFDictionaryCreateCopy (dictionary : Z) : G Z :=
  if dictionary =? 0 then mret 0 else
  ty ← vtf_get_type_id dictionary;
  if negb (ty =? VTF_TYPE_DICTIONARY) then mret 0 else
  d ← as_dictionary dictionary;
  copied_keys ← retain_args (array_arg (Some (cfd_keys d))) (seq 0 (length (cfd_keys d)));
  copied_values ← retain_args (array_arg (Some (cfd_values d))) (seq 0 (length (cfd_values d)));
  base ← vtf_cf_object_init VTF_TYPE_DICTIONARY (Some Finalize_dictionary);
  new_object (mk_object base (Dictionary (mk_vtf_cf_dictionary copied_keys copied_values))).

Definition CFBooleanGetValue (boolean_value : Z) : G Z :=
  if boolean_value =? 0 then mret 0 else
  ty ← vtf_get_type_id boolean_value;
  if negb (ty =? VTF_TYPE_BOOLEAN) then mret 0
  else b ← as_boolean boolean_value; mret (if cfb_value b then 1 else 0).
End corefoundation.
