(* ===== verification/Ownership.v ===== *)
(** * Ownership

    What the calls of Core Foundation do to the references the caller holds: a
    [Create] or [Copy] function hands one out, [CFRetain] adds one, [CFRelease]
    takes one, and a container takes its own.  Each operation keeps the counts of
    [Refcount], and none touches freed memory. *)

From S2P Require Import Prelude Wire Protocol Backend Transport Objects Release Refcount.
From S2P Require Import ReleaseSafe CoreFoundation.
From coqutil Require Import Word.LittleEndianList.
From stdpp Require Import strings gmultiset fin_maps.

Set Default Goal Selector "!".
Open Scope Z_scope.

Lemma alter_absent {A} (f : A -> A) (h : gmap Z A) p : h !! p = None -> alter f p h = h.
Proof. intros Hp. apply alter_id. by rewrite Hp. Qed.

Lemma alter_present {A} (f : A -> A) (h : gmap Z A) p x :
  h !! p = Some x -> alter f p h = <[p := f x]> h.
Proof.
  intros Hp. apply map_eq. intros q. destruct (decide (q = p)) as [->|Hne].
  - by rewrite lookup_alter_eq, lookup_insert_eq, Hp.
  - by rewrite lookup_alter_ne, lookup_insert_ne.
Qed.

Section ownership.
Context {os : Type} `{!Net os} `{!Profile} (env : environ).
Implicit Types (w : guest os) (C : gmap Z (gmultiset Z)) (own m : gmultiset Z) (X : gset Z).
Abbreviation pan := (overflow_checks = true).

Lemma heap_upd_ext f g w : f (gs_heap w) = g (gs_heap w) ->
  w <| gs_heap ::= f |> = w <| gs_heap ::= g |>.
Proof. destruct w. simpl. by intros ->. Qed.

Lemma heap_upd_id f w : f (gs_heap w) = gs_heap w -> w <| gs_heap ::= f |> = w.
Proof. destruct w. simpl. by intros ->. Qed.

(** ** Moving references *)

(** The running code gives [m] to an object it is changing, or takes it. *)
Lemma heap_ok_give X C own w d m m0 :
  heap_ok X C (m ⊎ own) w -> C !! d = Some m0 ->
  heap_ok ({[d]} ∪ X) (<[d := m ⊎ m0]> C) own w.
Proof.
  intros [H0 H1 H2 H3 H4 H5 H6 H7 H8 H9 H10] Hd.
  assert (E : own ⊎ total_refs (<[d := m ⊎ m0]> C) = (m ⊎ own) ⊎ total_refs C).
  { rewrite (total_delete C d m0 Hd), (total_delete (<[d:=_]> C) d (m ⊎ m0)) by apply lookup_insert_eq.
    rewrite delete_insert_eq. multiset_solver. }
  assert (Ed : dom (<[d := m ⊎ m0]> C) = dom C).
  { rewrite dom_insert_L. assert (d ∈ dom C) by (apply elem_of_dom; eauto). set_solver. }
  split; rewrite ?Ed, ?E; try done.
  intros p mp o Hp Ho Hx. rewrite lookup_insert_ne in Hp by set_solver.
  apply (H8 p mp o Hp Ho). set_solver.
Qed.

Lemma heap_ok_take X C own w d m m0 :
  heap_ok X C own w -> C !! d = Some (m ⊎ m0) ->
  heap_ok ({[d]} ∪ X) (<[d := m0]> C) (m ⊎ own) w.
Proof.
  intros [H0 H1 H2 H3 H4 H5 H6 H7 H8 H9 H10] Hd.
  assert (E : (m ⊎ own) ⊎ total_refs (<[d := m0]> C) = own ⊎ total_refs C).
  { rewrite (total_delete C d _ Hd), (total_delete (<[d:=_]> C) d m0) by apply lookup_insert_eq.
    rewrite delete_insert_eq. multiset_solver. }
  assert (Ed : dom (<[d := m0]> C) = dom C).
  { rewrite dom_insert_L. assert (d ∈ dom C) by (apply elem_of_dom; eauto). set_solver. }
  split; rewrite ?Ed, ?E; try done.
  intros p mp o Hp Ho Hx. rewrite lookup_insert_ne in Hp by set_solver.
  apply (H8 p mp o Hp Ho). set_solver.
Qed.

(** The change is complete. *)
Lemma heap_ok_settle X C own w d o :
  heap_ok ({[d]} ∪ X) C own w -> gs_heap w !! d = Some o ->
  C !! d = Some (refs_of (body_fields (ob_body o))) ->
  (forall q k, (q, k) ∈ typed_fields (ob_body o) -> q <> 0 ->
     exists o', gs_heap w !! q = Some o' /\ type_of (ob_body o') = k) ->
  heap_ok X C own w.
Proof.
  intros [H0 H1 H2 H3 H4 H5 H6 H7 H8 H9 H10] Hd HC Hty. split; try done.
  intros p m op Hp Ho Hx. destruct (decide (p = d)) as [->|Hne]; [by simplify_eq|].
  apply (H8 p m op Hp Ho). set_solver.
Qed.

Lemma heap_ok_own X C own own' w : own = own' -> heap_ok X C own w -> heap_ok X C own' w.
Proof. by intros ->. Qed.

(** ** Retaining *)

Definition bump (o : object) : object :=
  if bool_decide (is_static o) then o else with_count (cf_refcount (ob_base o) + 1) o.

(** Every count can grow by [n]. *)
Definition room (n : Z) w : Prop := forall p o, gs_heap w !! p = Some o -> ~ is_static o ->
  cf_refcount (ob_base o) + n < 2 ^ 31.

Lemma room_mono n n' w : n <= n' -> room n' w -> room n w.
Proof. intros Hn Hr p o Ho Hs. specialize (Hr p o Ho Hs). lia. Qed.

Definition retained p w : guest os := w <| gs_heap ::= alter bump p |>.

Lemma bump_shape o : shape_eq o (bump o).
Proof. unfold bump. case_bool_decide; [done|apply with_count_shape]. Qed.

Lemma bump_static o : is_static (bump o) <-> is_static o.
Proof. unfold bump. case_bool_decide; by destruct o as [[] ?]. Qed.

Definition set_body (b : object_body) (o : object) : object := o <| ob_body := b |>.

Lemma bump_body o b : bump (set_body b o) = set_body b (bump o).
Proof.
  unfold bump. change (is_static (set_body b o)) with (is_static o). repeat case_bool_decide; done || by destruct o as [[] ?].
Qed.

Lemma body_bump o : ob_body (bump o) = ob_body o.
Proof. unfold bump. case_bool_decide; [done|]. by destruct o. Qed.

Lemma retained_lookup p q w :
  gs_heap (retained p w) !! q = (if decide (p = q) then bump else id) <$> gs_heap w !! q.
Proof.
  unfold retained. simpl. case_decide as E.
  - subst. apply lookup_alter_eq.
  - rewrite lookup_alter_ne by done. by destruct (gs_heap w !! q).
Qed.

Lemma retained_body p q w :
  ob_body <$> gs_heap (retained p w) !! q = ob_body <$> gs_heap w !! q.
Proof.
  rewrite retained_lookup. destruct (gs_heap w !! q); simpl; [|done].
  case_decide; simpl; by rewrite ?body_bump.
Qed.

Lemma retained_credits p w : credits (gs_heap (retained p w)) = credits (gs_heap w).
Proof.
  apply map_eq. intros q. rewrite !credits_lookup.
  pose proof (retained_body p q w) as E.
  destruct (gs_heap (retained p w) !! q) as [o|], (gs_heap w !! q) as [o'|]; try done.
  injection E as E. simpl. by rewrite E.
Qed.

Lemma retained_room n p w : room (n + 1) w -> room n (retained p w).
Proof.
  intros Hr q o Hq Hs. rewrite retained_lookup in Hq.
  apply fmap_Some in Hq as (o1 & Ho1 & ->).
  assert (~ is_static o1) as Hs1 by (destruct (decide (p = q)); [intros ?%bump_static; contradiction|done]).
  specialize (Hr q o1 Ho1 Hs1). case_decide; simpl; [|lia].
  unfold bump. rewrite bool_decide_eq_false_2 by done. destruct o1 as [[] ?]; simpl in *. lia.
Qed.

Lemma retained_gap p w : alive_gap (retained p w) = alive_gap w.
Proof.
  unfold alive_gap, retained. simpl. do 3 f_equal. rewrite <- !size_dom. f_equal.
  apply dom_alter_L.
Qed.

(** [CFRetain] runs wherever the object is and its count has room. *)
Definition ready w p : Prop := forall o, gs_heap w !! p = Some o -> ~ is_static o ->
  0 <= cf_refcount (ob_base o) < 2 ^ 31 - 1.

Lemma CFRetain_run w p : gs_heap w !! 0 = None -> p = 0 \/ is_Some (gs_heap w !! p) -> ready w p ->
  CFRetain p w = Done (p, retained p w).
Proof.
  intros E0 Hp Hr. unfold CFRetain, retained. destruct (Z.eqb_spec p 0) as [->|Hp0].
  { by rewrite heap_upd_id by (by apply alter_absent). }
  destruct Hp as [|[o Ho]]; [done|]. specialize (Hr o Ho).
  rewrite (heap_upd_ext (alter bump p) (insert p (bump o))) by (by apply alter_present).
  unfold mbind, G_bind, get_object. rewrite Ho. unfold bump, is_static in *.
  destruct (Z.eqb_spec (Z.land (cf_flags (ob_base o)) VTF_OBJECT_FLAG_STATIC) 0) as [Hs|Hs].
  - rewrite bool_decide_eq_false_2 by (by intros ?). unfold put_object. simpl. rewrite Ho.
    rewrite as_signed_small; [done..|]. assert (0 <= cf_refcount (ob_base o) < 2 ^ 31 - 1); [|lia].
    apply Hr. by intros ?.
  - rewrite bool_decide_eq_true_2 by done. by rewrite heap_upd_id by (by apply insert_id).
Qed.

Lemma heap_ok_null X C own w : heap_ok X C own w -> gs_heap w !! 0 = None.
Proof.
  intros Hw. destruct (gs_heap w !! 0) eqn:E; [|done]. apply (ho_addr _ _ _ _ Hw) in E. lia.
Qed.

Lemma heap_ok_ready X C own w p : heap_ok X C own w -> room 1 w -> ready w p.
Proof.
  intros Hw Hr o Ho Hs. specialize (Hr p o Ho Hs).
  destruct (ho_count _ _ _ _ Hw p o Ho Hs) as (? & _ & _). lia.
Qed.

(** References to constants are free. *)
Lemma heap_ok_add_static X C own w p o :
  heap_ok X C own w -> gs_heap w !! p = Some o -> is_static o -> heap_ok X C ({[+ p +]} ⊎ own) w.
Proof.
  intros [H0 H1 H2 H3 H4 H5 H6 H7 H8 H9 H10] Ho Hs. split; try done.
  - intros q oq Hq Hsq. assert (q <> p) by (intros ->; by simplify_eq).
    destruct (H6 q oq Hq Hsq) as (E & ? & ?). split; [|done]. rewrite E.
    rewrite !multiplicity_disj_union, multiplicity_singleton_ne by done. lia.
  - intros q [[->%gmultiset_elem_of_singleton|Hq]%gmultiset_elem_of_disj_union|Hq]
      %gmultiset_elem_of_disj_union; [by eapply H5|apply H7; multiset_solver..].
Qed.

Lemma heap_ok_retained X C own w p :
  heap_ok X C own w -> p = 0 \/ p ∈ dom C -> room 1 w ->
  heap_ok X C (refs_of [p] ⊎ own) (retained p w).
Proof.
  intros Hw Hp Hr. unfold retained. destruct (decide (p = 0)) as [->|Hp0].
  { rewrite heap_upd_id by (by eapply alter_absent, heap_ok_null).
    by rewrite refs_null, (left_id_L ∅ (⊎)). }
  destruct Hp as [|Hp]; [done|]. rewrite refs_single by done.
  pose proof (ho_live _ _ _ _ Hw p Hp) as [o Ho]%elem_of_dom.
  rewrite (heap_upd_ext (alter bump p) (insert p (bump o))) by (by apply alter_present).
  unfold bump. case_bool_decide as Hs.
  - rewrite heap_upd_id by (by apply insert_id). by eapply heap_ok_add_static.
  - apply heap_ok_retain; try done. by apply (Hr p o).
Qed.

Lemma CFRetain_eq X C own w p :
  heap_ok X C own w -> p = 0 \/ p ∈ dom C -> room 1 w ->
  CFRetain p w = Done (p, retained p w) /\ heap_ok X C (refs_of [p] ⊎ own) (retained p w).
Proof.
  intros Hw Hp Hr. split; [|by apply heap_ok_retained].
  apply CFRetain_run; [by eapply heap_ok_null| |by eapply heap_ok_ready].
  destruct Hp as [|Hp]; [by left|]. right. by apply elem_of_dom, (ho_live _ _ _ _ Hw).
Qed.

(** *** Several references *)

Definition retained_all (l : list Z) w : guest os := foldl (fun w p => retained p w) w l.

Definition live C p : Prop := p = 0 \/ p ∈ dom C.

Lemma retain_args_eq X C own w arg index l :
  heap_ok X C own w -> Forall (live C) l -> room (len l) w ->
  Forall2 (fun i v => forall w', arg i w' = Done (v, w')) index l ->
  retain_args arg index w = Done (l, retained_all l w) /\
  heap_ok X C (refs_of l ⊎ own) (retained_all l w).
Proof.
  intros Hw Hl Hr Ha. revert own w Hw Hr.
  induction Ha as [|i v index l Hi Ha IH]; intros own w Hw Hr; simpl.
  { by rewrite refs_nil, (left_id_L ∅ (⊎)). }
  apply list.Forall_cons in Hl as [Hv Hl]. change (len (v :: l)) with (Z.of_nat (S (length l))) in Hr. rewrite Nat2Z.inj_succ, <- Z.add_1_l in Hr.
  destruct (CFRetain_eq X C own w v Hw Hv) as [E Hw1]; [apply room_mono with (1 + len l); [lia|done]|].
  destruct (IH Hl _ _ Hw1) as [E1 Hw2]; [apply retained_room; by rewrite Z.add_comm|].
  unfold mbind, G_bind in *. rewrite Hi, E, E1. split; [done|].
  rewrite refs_cons.
  refine (heap_ok_own _ _ _ _ _ _ Hw2). multiset_solver.
Qed.

Definition interleave (l : list (Z * Z)) : list Z := '(k, v) ← l; [k; v].

Lemma retain_pairs_eq X C own w keys values index l :
  heap_ok X C own w -> Forall (fun x => live C x.1 /\ live C x.2) l -> room (2 * len l) w ->
  Forall2 (fun i x => forall w', keys i w' = Done (x.1, w') /\ values i w' = Done (x.2, w')) index l ->
  retain_pairs keys values index w = Done ((l.*1, l.*2), retained_all (interleave l) w) /\
  heap_ok X C (refs_of (l.*1 ++ l.*2) ⊎ own) (retained_all (interleave l) w).
Proof.
  intros Hw Hl Hr Ha. revert own w Hw Hr.
  induction Ha as [|i [k v] index l Hi Ha IH]; intros own w Hw Hr; simpl.
  { by rewrite refs_nil, (left_id_L ∅ (⊎)). }
  apply list.Forall_cons in Hl as [[Hk Hv] Hl]. simpl in *.
  assert (room (2 * len l + 1 + 1) w) as Hr2 by (revert Hr; apply room_mono; lia).
  destruct (CFRetain_eq X C own w k Hw Hk) as [E Hw1]; [revert Hr2; apply room_mono; lia|].
  apply (retained_room _ k) in Hr2.
  destruct (CFRetain_eq X C _ _ v Hw1 Hv) as [E1 Hw2]; [revert Hr2; apply room_mono; lia|].
  apply (retained_room _ v) in Hr2. destruct (IH Hl _ _ Hw2 Hr2) as [E2 Hw3].
  unfold mbind, G_bind in *. rewrite (proj1 (Hi w)), (proj2 (Hi w)), E, E1, E2. split; [done|].
  rewrite refs_cons, refs_app, (refs_cons v). rewrite refs_app in Hw3.
  refine (heap_ok_own _ _ _ _ _ _ Hw3). 
  change (list_fmap _ _ fst l) with l.*1. change (list_fmap _ _ snd l) with l.*2. multiset_solver.
Qed.

Lemma retained_all_credits l w : credits (gs_heap (retained_all l w)) = credits (gs_heap w).
Proof.
  revert w. induction l as [|p l IH]; intros w; [done|]. simpl. by rewrite IH, retained_credits.
Qed.

Lemma retained_all_gap l w : alive_gap (retained_all l w) = alive_gap w.
Proof. revert w. induction l as [|p l IH]; intros w; [done|]. simpl. by rewrite IH, retained_gap. Qed.

Lemma retained_all_body l q w :
  ob_body <$> gs_heap (retained_all l w) !! q = ob_body <$> gs_heap w !! q.
Proof.
  revert w. induction l as [|p l IH]; intros w; [done|]. simpl. by rewrite IH, retained_body.
Qed.

(** *** Arguments *)

Definition args_of (values : option (list Z)) (n : nat) : list Z :=
  match values with None => replicate n 0 | Some l => take n l end.

Definition enough (values : option (list Z)) (n : nat) : Prop :=
  forall l, values = Some l -> (n <= length l)%nat.

Lemma length_args values n : enough values n -> length (args_of values n) = n.
Proof.
  intros He. destruct values as [l|]; simpl; [|apply length_replicate].
  rewrite length_take. specialize (He l eq_refl). lia.
Qed.

Lemma array_arg_at values n i v : args_of values n !! i = Some v ->
  forall w, array_arg (os:=os) values i w = Done (v, w).
Proof.
  destruct values as [l|]; simpl.
  - intros [Hi _]%lookup_take_Some w. by rewrite Hi.
  - by intros [-> _]%lookup_replicate w.
Qed.

Lemma array_args values n : enough values n ->
  Forall2 (fun i v => forall w, array_arg (os:=os) values i w = Done (v, w)) (seq 0 n) (args_of values n).
Proof.
  intros He. apply Forall2_same_length_lookup. split.
  { by rewrite length_seq, length_args. }
  intros i x v [-> _]%lookup_seq Hv. by apply array_arg_at with n.
Qed.

Lemma array_arg_pairs keys values n : enough keys n -> enough values n ->
  Forall2 (fun i x => forall w, array_arg (os:=os) keys i w = Done (x.1, w) /\
                                array_arg (os:=os) values i w = Done (x.2, w))
    (seq 0 n) (zip (args_of keys n) (args_of values n)).
Proof.
  intros Hk Hv. apply Forall2_same_length_lookup. split.
  { rewrite length_seq, length_zip_with, !length_args by done. lia. }
  intros i x [k v] [-> _]%lookup_seq [Ek Ev]%lookup_zip_Some w. simpl.
  by rewrite (array_arg_at keys n i k), (array_arg_at values n i v).
Qed.

(** ** New objects *)

(** What a [Create] function leaves: the caller owns a new object with body [b],
    and nothing else has changed but counts. *)
(** The constants are where they were. *)
Definition statics_stay w w' : Prop := forall q o, gs_heap w !! q = Some o -> is_static o ->
  exists o', gs_heap w' !! q = Some o' /\ is_static o'.

Lemma statics_refl w w' : gs_heap w' = gs_heap w -> statics_stay w w'.
Proof. intros E q o Ho Hs. exists o. by rewrite E. Qed.

Lemma statics_trans w w1 w2 : statics_stay w w1 -> statics_stay w1 w2 -> statics_stay w w2.
Proof. intros H1 H2 q o Ho Hs. destruct (H1 q o Ho Hs) as (o1 & Ho1 & Hs1). by eapply H2. Qed.

Lemma statics_retained p w : statics_stay w (retained p w).
Proof.
  intros q o Ho Hs. rewrite retained_lookup, Ho. simpl. eexists. split; [done|].
  case_decide; [by apply bump_static|done].
Qed.

Record made (b : object_body) own w (r : Z) w' : Prop := {
  made_counted : counted ({[+ r +]} ⊎ own) w';
  made_gap : alive_gap w' = alive_gap w;
  made_body : ob_body <$> gs_heap w' !! r = Some b;
  made_new : gs_heap w !! r = None;
  made_others : forall q, q <> r -> ob_body <$> gs_heap w' !! q = ob_body <$> gs_heap w !! q;
  made_blocks : gs_blocks w' = gs_blocks w;
  made_static : statics_stay w w'
}.

(** A body that may become an object: what it refers to by type is there, and the
    blocks it owns are no other object's. *)
Record sound (b : object_body) w : Prop := {
  snd_boxed : Forall (fun '(p, n) => boxed p n) (body_boxes b);
  snd_blocks : NoDup (body_blocks b).*1;
  snd_body : body_ok b;
  snd_typed : forall q k, (q, k) ∈ typed_fields b -> q <> 0 ->
    exists o, gs_heap w !! q = Some o /\ type_of (ob_body o) = k;
  snd_owned : forall x n, (x, n) ∈ body_blocks b ->
    (exists bs, gs_blocks w !! x = Some bs /\ len bs = n) /\
    forall p o n', gs_heap w !! p = Some o -> (x, n') ∉ body_blocks (ob_body o)
}.

(** Bodies without blocks and without typed references. *)
Definition plain (b : object_body) : Prop :=
  body_boxes b = [] /\ typed_fields b = [] /\ body_ok b.

Lemma plain_sound b w : plain b -> sound b w.
Proof.
  intros (Hb & Ht & Hok). assert (body_blocks b = []) as Ebl by (unfold body_blocks; by rewrite Hb).
  split; rewrite ?Ebl, ?Hb, ?Ht.
  - constructor.
  - constructor.
  - done.
  - by intros q k []%elem_of_nil.
  - by intros x n []%elem_of_nil.
Qed.

Lemma made_from b own w w1 r w' :
  (forall q, ob_body <$> gs_heap w1 !! q = ob_body <$> gs_heap w !! q) ->
  gs_blocks w1 = gs_blocks w -> alive_gap w1 = alive_gap w -> statics_stay w w1 ->
  made b own w1 r w' -> made b own w r w'.
Proof.
  intros Hb Ebl Eg Hst [H1 H2 H3 H4 H5 H6 H7]. split; try done; try (by eapply statics_trans).
  - by rewrite H2.
  - specialize (Hb r). rewrite H4 in Hb. by destruct (gs_heap w !! r).
  - intros q Hq. by rewrite H5.
  - by rewrite H6.
Qed.

Lemma wrap_as_signed_gap (n : Z) (k : nat) :
  wrap 64 (as_signed 64 (n + 1) - Z.of_nat (S k)) = wrap 64 (n - Z.of_nat k).
Proof. rewrite <- Z.add_opp_r, wrap_as_signed by lia. f_equal. lia. Qed.

(** The header a [Create] function gives an object with body [b]. *)
Definition header_for (b : object_body) (base : vtf_cf_object) : Prop :=
  cf_type_id base = type_of b /\ cf_flags base = 0 /\ cf_refcount base = 1 /\
  cf_finalize base = finalizer_of b /\ is_Some (finalizer_of b).

(** [w1] is [w] with the object announced to the counter. *)
Lemma new_made b base own w w1 :
  gs_heap w1 = gs_heap w -> gs_blocks w1 = gs_blocks w -> gs_next w1 = gs_next w ->
  gs_alive w1 = as_signed 64 (gs_alive w + 1) ->
  counted (refs_of (body_fields b) ⊎ own) w -> sound b w -> header_for b base ->
  exists r w', new_object (mk_object base b) w1 = Done (r, w') /\ made b own w r w'.
Proof.
  intros Eh Eb En Ea Hw [Hbx Hnd Hbok Hty Hbl] (Ht & Hfl & Hrc & Hf & Hfs).
  eexists _, _. split; [reflexivity|]. set (o := mk_object base b).
  assert (~ is_static o) as Hst by (unfold is_static, o; simpl; rewrite Hfl; by intros []).
  assert (object_ok o) as Hok by (by split).
  destruct (heap_ok_fresh _ _ _ _ Hw) as (Fh & _ & _ & _). rewrite En.
  assert (heap_ok ∅ (credits (gs_heap w)) (refs_of (body_fields (ob_body o)) ⊎ own) w1) as Hw1
    by (eapply heap_ok_ext; [exact Eh|exact Eb|exact En|exact Hw]).
  split.
  - pose proof (heap_ok_new _ _ _ _ o Hw1 Hok Hst Hrc) as Hn. rewrite Eh, Eb, En in Hn.
    eapply counted_settle; [by apply Hn|]. simpl. by rewrite Eh, !dom_insert, dom_credits.
  - unfold alive_gap. simpl. rewrite Eh, Ea, map_size_insert_None by done. apply wrap_as_signed_gap.
  - simpl. by rewrite lookup_insert_eq.
  - done.
  - intros q Hq. simpl. by rewrite lookup_insert_ne, Eh.
  - done.
  - intros q o' Hq Hs. exists o'. simpl. rewrite lookup_insert_ne, Eh; [done|]. by intros <-; simplify_eq.
Qed.

Lemma create_sound b own w ty fin :
  counted (refs_of (body_fields b) ⊎ own) w -> sound b w ->
  type_of b = ty -> finalizer_of b = Some fin ->
  exists r w', (base ← vtf_cf_object_init ty (Some fin); new_object (mk_object base b)) w = Done (r, w') /\
    made b own w r w'.
Proof.
  intros Hw Hs Et Ef. unfold mbind, G_bind, vtf_cf_object_init. cbv beta zeta.
  by apply new_made.
Qed.

Lemma create_ok b own w ty fin :
  counted (refs_of (body_fields b) ⊎ own) w -> plain b ->
  type_of b = ty -> finalizer_of b = Some fin ->
  exists r w', (base ← vtf_cf_object_init ty (Some fin); new_object (mk_object base b)) w = Done (r, w') /\
    made b own w r w'.
Proof. intros Hw Hp. apply create_sound; [done|by apply plain_sound]. Qed.

(** An object that stands for something of the worker. *)
Lemma create_hosted b own w ty fin proxy host generation :
  counted (refs_of (body_fields b) ⊎ own) w -> sound b w ->
  type_of b = ty -> finalizer_of b = Some fin ->
  exists r w', (base ← vtf_cf_object_with_host_id ty (Some fin) proxy host generation;
                new_object (mk_object base b)) w = Done (r, w') /\ made b own w r w'.
Proof.
  intros Hw Hs Et Ef. unfold mbind, G_bind, vtf_cf_object_with_host_id.
  by apply new_made.
Qed.

Lemma statics_retained_all l w : statics_stay w (retained_all l w).
Proof.
  revert w. induction l as [|p l IH]; intros w; simpl; [by apply statics_refl|].
  eapply statics_trans; [apply statics_retained|apply IH].
Qed.

Lemma create_retained b own w l ty fin :
  heap_ok ∅ (credits (gs_heap w)) (refs_of (body_fields b) ⊎ own) (retained_all l w) -> plain b ->
  type_of b = ty -> finalizer_of b = Some fin ->
  exists r w', (base ← vtf_cf_object_init ty (Some fin); new_object (mk_object base b)) (retained_all l w) =
    Done (r, w') /\ made b own w r w'.
Proof.
  intros Hw Hp Et Ef. destruct (create_ok b own (retained_all l w) ty fin) as (r & w' & E & Hm); try done.
  - unfold counted. by rewrite retained_all_credits.
  - exists r, w'. split; [done|]. revert Hm. apply made_from.
    + intros q. apply retained_all_body.
    + clear. revert w. induction l as [|p l IH]; intros w; simpl; [done|]. by rewrite IH.
    + apply retained_all_gap.
    + apply statics_retained_all.
Qed.

(** *** New memory *)

Definition with_block (bs : list byte) w : guest os :=
  w <| gs_blocks ::= insert (gs_next w) bs |> <| gs_next ::= Z.succ |>.

Lemma counted_block own w bs : counted own w -> counted own (with_block bs w).
Proof.
  intros Hw. destruct (heap_ok_fresh _ _ _ _ Hw) as (_ & Fb & _ & _).
  destruct Hw as [H0 H1 H2 H3 H4 H5 H6 H7 H8 H9 H10]. split; simpl; try done.
  - lia.
  - intros p o Hp. apply H1 in Hp. lia.
  - intros x l [[<- <-]|[? Hx]]%lookup_insert_Some; [lia|]. apply H2 in Hx. lia.
  - intros p o x n Hp Hx. destruct (H9 p o x n Hp Hx) as (l & Hl & El). exists l.
    rewrite lookup_insert_ne; [done|]. by intros <-; simplify_eq.
Qed.

Lemma box_block_run bs w : bs <> [] -> box_bytes bs w = Done (Some (gs_next w, 0), with_block bs w).
Proof. by destruct bs. Qed.

(** The new block is no object's. *)
Lemma block_fresh own w p o n : counted own w -> gs_heap w !! p = Some o ->
  (gs_next w, n) ∉ body_blocks (ob_body o).
Proof.
  intros Hw Ho Hn. destruct (ho_blocks _ _ _ _ Hw p o _ _ Ho Hn) as (l & Hl & _).
  apply (ho_block_addr _ _ _ _ Hw) in Hl. lia.
Qed.

(** *** The [Create] functions *)

Lemma CFArrayCreate_ok own w values n :
  counted own w -> 0 <= n -> n * 8 <= ISIZE_MAX -> enough values (Z.to_nat n) ->
  Forall (live (credits (gs_heap w))) (args_of values (Z.to_nat n)) -> room n w ->
  exists r w', CFArrayCreate values n w = Done (r, w') /\
    made (Array (mk_vtf_cf_array (args_of values (Z.to_nat n)))) own w r w'.
Proof.
  intros Hw Hn Hcap He Hl Hr. unfold CFArrayCreate.
  destruct (Z.ltb_spec n 0); [lia|]. unfold with_capacity.
  destruct (Z.gtb_spec (n * 8) ISIZE_MAX); [lia|].
  destruct (retain_args_eq ∅ _ own w (array_arg values) (seq 0 (Z.to_nat n)) _ Hw Hl) as [E Hw1].
  { rewrite length_args by done. by rewrite Z2Nat.id. }
  { by apply array_args. }
  destruct (create_retained (Array (mk_vtf_cf_array (args_of values (Z.to_nat n)))) own w _
    VTF_TYPE_ARRAY Finalize_array Hw1) as (r & w' & E' & Hm); try done.
  exists r, w'. split; [|done]. unfold mbind, G_bind in *. simpl. by rewrite E.
Qed.

Lemma CFDictionaryCreate_ok own w keys values n :
  let ks := args_of keys (Z.to_nat n) in
  let vs := args_of values (Z.to_nat n) in
  counted own w -> 0 <= n -> n * 8 <= ISIZE_MAX ->
  enough keys (Z.to_nat n) -> enough values (Z.to_nat n) ->
  Forall (live (credits (gs_heap w))) ks -> Forall (live (credits (gs_heap w))) vs ->
  room (2 * n) w ->
  exists r w', CFDictionaryCreate keys values n w = Done (r, w') /\
    made (Dictionary (mk_vtf_cf_dictionary ks vs)) own w r w'.
Proof.
  intros ks vs Hw Hn Hcap Hk Hv Lk Lv Hr. unfold CFDictionaryCreate.
  destruct (Z.ltb_spec n 0); [lia|]. unfold with_capacity.
  destruct (Z.gtb_spec (n * 8) ISIZE_MAX); [lia|].
  pose proof (length_args _ _ Hk) as Ek. pose proof (length_args _ _ Hv) as Ev.
  fold ks in Ek. fold vs in Ev.
  destruct (retain_pairs_eq ∅ _ own w (array_arg keys) (array_arg values) (seq 0 (Z.to_nat n))
    (zip ks vs) Hw) as [E Hw1].
  { apply list.Forall_forall. intros [k v] Hx. simpl. rewrite list.Forall_forall in Lk, Lv.
    apply elem_of_zip_l in Hx as Hx1. apply elem_of_zip_r in Hx. auto. }
  { rewrite length_zip_with, Ek, Ev. revert Hr. apply room_mono. lia. }
  { by apply array_arg_pairs. }
  rewrite fst_zip, snd_zip in E, Hw1 by lia.
  destruct (create_retained (Dictionary (mk_vtf_cf_dictionary ks vs)) own w _
    VTF_TYPE_DICTIONARY Finalize_dictionary Hw1) as (r & w' & E' & Hm); try done.
  { split_and!; try done. simpl. by rewrite Ek, Ev. }
  exists r, w'. split; [|done]. unfold mbind, G_bind in *. simpl. by rewrite E.
Qed.

Lemma CFDictionaryCreateMutable_ok own w capacity :
  counted own w -> capacity * 8 <= ISIZE_MAX ->
  exists r w', CFDictionaryCreateMutable capacity w = Done (r, w') /\
    made (Dictionary (mk_vtf_cf_dictionary [] [])) own w r w'.
Proof.
  intros Hw Hcap. destruct (create_ok (Dictionary (mk_vtf_cf_dictionary [] [])) own w
    VTF_TYPE_DICTIONARY Finalize_dictionary) as (r & w' & E & Hm); try done.
  { simpl. by rewrite refs_nil, (left_id_L ∅ (⊎)). }
  exists r, w'. split; [|done]. rewrite <- E. unfold CFDictionaryCreateMutable, mbind, G_bind. simpl.
  unfold with_capacity. destruct (Z.gtb_spec (Z.max capacity 0 * 8) ISIZE_MAX); [|done].
  unfold ISIZE_MAX in *. lia.
Qed.

Lemma CFDataCreate_ok own w (bytes : rawptr) length bs :
  counted own w -> 0 <= length ->
  (if bytes then read_bytes bytes length w = Done (bs, w) else bs = []) ->
  exists r w', CFDataCreate bytes length w = Done (r, w') /\ made (Data (mk_vtf_cf_data bs)) own w r w'.
Proof.
  intros Hw Hn Hr. destruct (create_ok (Data (mk_vtf_cf_data bs)) own w
    VTF_TYPE_DATA Finalize_data) as (r & w' & E & Hm); try done.
  { simpl. by rewrite refs_nil, (left_id_L ∅ (⊎)). }
  exists r, w'. split; [|done]. unfold CFDataCreate. destruct (Z.ltb_spec length 0); [lia|].
  unfold mbind, G_bind in *. destruct bytes as [x|]; simpl; [|by subst].
  destruct (Z.eqb_spec length 0) as [->|Hne]; simpl; [|by rewrite Hr]. by injection Hr as <-.
Qed.

(** The width of a supported number type, and the number read from that many bytes. *)
Definition number_width (number_type : Z) : option Z :=
  if (number_type =? K_CF_NUMBER_SINT32_TYPE) || (number_type =? K_CF_NUMBER_INT_TYPE) then Some 4
  else if (number_type =? K_CF_NUMBER_SINT64_TYPE) || (number_type =? K_CF_NUMBER_DOUBLE_TYPE)
  then Some 8 else None.

Definition number_read (number_type : Z) (bs : list byte) : vtf_cf_number :=
  if number_type =? K_CF_NUMBER_DOUBLE_TYPE
  then mk_vtf_cf_number number_type (i64_of_f64 (le_combine bs)) (le_combine bs)
  else let v := as_signed (8 * len bs) (le_combine bs) in
       mk_vtf_cf_number number_type v (f64_of_i64 v).

Lemma read_bytes_len p n bs w w' : read_bytes p n w = Done (bs, w') -> len bs = n.
Proof.
  unfold read_bytes. destruct (Z.eqb_spec n 0) as [->|Hn]; [by intros [= <- _]|].
  destruct p as [[b off]|]; [|done]. destruct (gs_blocks w !! b) as [l|]; [|done].
  destruct (Z.leb_spec 0 off); [|done]. destruct (Z.leb_spec 0 n); [|done].
  destruct (Z.leb_spec (off + n) (len l)); [|done]. intros [= <- _]. rewrite length_slice; lia.
Qed.

Lemma CFNumberCreate_ok own w number_type (ptr : rawptr) width bs :
  counted own w -> number_width number_type = Some width ->
  read_bytes ptr width w = Done (bs, w) -> ptr <> None ->
  exists r w', CFNumberCreate number_type ptr w = Done (r, w') /\
    made (Number (number_read number_type bs)) own w r w'.
Proof.
  intros Hw Ewd Hr Hp. pose proof (read_bytes_len _ _ _ _ _ Hr) as Hlen.
  destruct (create_ok (Number (number_read number_type bs)) own w
    VTF_TYPE_NUMBER Finalize_number) as (r & w' & E & Hm); try done.
  { simpl. by rewrite refs_nil, (left_id_L ∅ (⊎)). }
  exists r, w'. split; [|done]. rewrite <- E. unfold CFNumberCreate, number_read.
  rewrite (bool_decide_eq_false_2 (ptr = None)) by done. rewrite Hlen.
  unfold number_width in Ewd. unfold mbind, G_bind in *.
  destruct (Z.eqb_spec number_type K_CF_NUMBER_SINT32_TYPE) as [->|_];
    [|destruct (Z.eqb_spec number_type K_CF_NUMBER_INT_TYPE) as [->|_];
    [|destruct (Z.eqb_spec number_type K_CF_NUMBER_SINT64_TYPE) as [->|_];
    [|destruct (Z.eqb_spec number_type K_CF_NUMBER_DOUBLE_TYPE) as [->|_]; [|done]]]];
    injection Ewd as <-; simpl; by rewrite Hr.
Qed.

Lemma CFNumberCreate_unsupported w number_type (ptr : rawptr) :
  number_width number_type = None \/ ptr = None ->
  CFNumberCreate (os:=os) number_type ptr w = Done (0, w).
Proof.
  unfold CFNumberCreate. intros [Hn| ->]; [|done]. case_bool_decide; [done|].
  unfold number_width in Hn. destruct (_ || _); [done|].
  by destruct (number_type =? K_CF_NUMBER_SINT64_TYPE), (number_type =? K_CF_NUMBER_DOUBLE_TYPE).
Qed.

Lemma field_live own w p o : counted own w -> gs_heap w !! p = Some o ->
  Forall (live (credits (gs_heap w))) (body_fields (ob_body o)).
Proof.
  intros Hw Ho. apply list.Forall_forall. intros q Hq. destruct (decide (q = 0)) as [|Hq0]; [by left|].
  right. apply (ho_refs _ _ _ _ Hw), gmultiset_elem_of_disj_union. right.
  eapply total_lookup; [by rewrite credits_lookup, Ho|]. by apply elem_of_refs.
Qed.

Lemma retained_all_app l l' w : retained_all (l ++ l') w = retained_all l' (retained_all l w).
Proof. apply foldl_app. Qed.

Lemma retained_all_room n l w : room (n + len l) w -> room n (retained_all l w).
Proof.
  revert w. induction l as [|p l IH]; intros w Hr; simpl; [by rewrite Z.add_0_r in Hr|].
  apply IH, retained_room. revert Hr. simpl. apply room_mono. lia.
Qed.

Lemma retain_list_eq X C own w l :
  heap_ok X C own w -> Forall (live C) l -> room (len l) w ->
  retain_args (array_arg (Some l)) (seq 0 (length l)) w = Done (l, retained_all l w) /\
  heap_ok X C (refs_of l ⊎ own) (retained_all l w).
Proof.
  intros Hw Hl Hr. apply retain_args_eq; try done.
  pose proof (array_args (Some l) (length l)) as Ha. simpl in Ha. rewrite take_ge in Ha by done.
  apply Ha. by intros ? [= ->].
Qed.

Lemma bind_eq {A B} (m : G os A) a w w' (k : A -> G os B) :
  m w = Done (a, w') -> (m ≫= k) w = k a w'.
Proof. unfold mbind, G_bind. by intros ->. Qed.

Lemma bind_ext {A B} (m : G os A) (k k' : A -> G os B) w :
  (forall a w', k a w' = k' a w') -> (m ≫= k) w = (m ≫= k') w.
Proof. intros E. unfold mbind, G_bind. destruct (m w) as [[a w']| | |]; auto. Qed.

Lemma type_id_eq w p o : gs_heap w !! p = Some o ->
  vtf_get_type_id p w = Done (if p =? 0 then 0 else cf_type_id (ob_base o), w).
Proof.
  intros Ho. unfold vtf_get_type_id, header_field. destruct (p =? 0); [done|].
  unfold mbind, G_bind, get_object. by rewrite Ho.
Qed.

Lemma as_dictionary_eq w p o d : gs_heap w !! p = Some o -> ob_body o = Dictionary d ->
  as_dictionary p w = Done (d, w).
Proof. intros Ho E. read_body. Qed.

Lemma CFDictionaryCreateCopy_ok own w p o d :
  counted own w -> gs_heap w !! p = Some o -> ob_body o = Dictionary d ->
  room (2 * len (cfd_keys d)) w ->
  exists r w', CFDictionaryCreateCopy p w = Done (r, w') /\ made (Dictionary d) own w r w'.
Proof.
  intros Hw Ho Eo Hr. pose proof (field_live own w p o Hw Ho) as Hl.
  destruct (ho_object _ _ _ _ Hw p o Ho) as [Ety _ _ _ _ Hc]. rewrite Eo in *. simpl in *.
  apply Forall_app in Hl as [Hk Hv].
  destruct (retain_list_eq ∅ _ own w (cfd_keys d) Hw Hk) as [E1 Hw1]; [revert Hr; apply room_mono; lia|].
  destruct (retain_list_eq ∅ _ _ (retained_all (cfd_keys d) w) (cfd_values d) Hw1 Hv) as [E2 Hw2].
  { apply retained_all_room. revert Hr. apply room_mono. lia. }
  rewrite <- retained_all_app in Hw2.
  destruct (create_retained (Dictionary d) own w (cfd_keys d ++ cfd_values d)
    VTF_TYPE_DICTIONARY Finalize_dictionary) as (r & w' & E & Hm); try done.
  { refine (heap_ok_own _ _ _ _ _ _ Hw2). simpl. rewrite refs_app. multiset_solver. }
  exists r, w'. split; [|done]. unfold CFDictionaryCreateCopy.
  pose proof (ho_addr _ _ _ _ Hw p o Ho). destruct (Z.eqb_spec p 0) as [|Hp0]; [lia|].
  rewrite (bind_eq _ _ _ _ _ (type_id_eq w p o Ho)), (proj2 (Z.eqb_neq p 0) Hp0), Ety. simpl.
  rewrite (bind_eq _ _ _ _ _ (as_dictionary_eq w p o d Ho Eo)), (bind_eq _ _ _ _ _ E1),
    (bind_eq _ _ _ _ _ E2), <- retained_all_app. destruct d. exact E.
Qed.

(** ** Setting a value *)

Definition rebodied p b w : guest os := w <| gs_heap ::= alter (set_body b) p |>.

Lemma put_body_eq w p b : is_Some (gs_heap w !! p) -> put_body p b w = Done (tt, rebodied p b w).
Proof.
  intros [o Ho]. unfold put_body, mbind, G_bind, get_object, put_object, rebodied. rewrite Ho, Ho.
  do 2 f_equal. apply heap_upd_ext. symmetry. by apply alter_present.
Qed.

Lemma retained_rebodied p b q w : retained q (rebodied p b w) = rebodied p b (retained q w).
Proof.
  destruct w. unfold retained, rebodied. simpl. f_equal. destruct (decide (p = q)) as [->|Hne].
  - rewrite !alter_alter_eq. apply alter_ext. intros o _. simpl. by rewrite bump_body.
  - by apply alter_alter_ne.
Qed.

Lemma rebodied_rebodied p b b' w : rebodied p b (rebodied p b' w) = rebodied p b w.
Proof. destruct w. unfold rebodied. simpl. f_equal. by rewrite alter_alter_eq. Qed.

Lemma rebodied_lookup p b w o : gs_heap w !! p = Some o ->
  gs_heap (rebodied p b w) !! p = Some (set_body b o).
Proof. intros Ho. unfold rebodied. simpl. by rewrite lookup_alter_eq, Ho. Qed.


(** The object being changed gets a body with the references it has been given. *)
Lemma heap_ok_rebodied X C own w p o b :
  heap_ok ({[p]} ∪ X) C own w -> gs_heap w !! p = Some o -> C !! p = Some (refs_of (body_fields b)) ->
  ~ is_static o -> plain b -> body_boxes (ob_body o) = [] ->
  type_of b = type_of (ob_body o) -> finalizer_of b = finalizer_of (ob_body o) ->
  heap_ok X C own (rebodied p b w).
Proof.
  intros Hw Ho HC Hs (Hbx & Hty & Hcnt) Eb Et Ef. unfold rebodied.
  rewrite (heap_upd_ext (alter (set_body b) p) (insert p (set_body b o))) by (by apply alter_present).
  eapply (heap_ok_settle _ _ _ _ p (set_body b o)).
  - eapply heap_ok_put; [exact Hw|exact Ho|done| | |done|set_solver].
    + apply object_ok_body; try done; [by eapply ho_object|by rewrite Hbx].
    + unfold body_blocks. simpl. by rewrite Hbx, Eb.
  - simpl. apply lookup_insert_eq.
  - done.
  - simpl. rewrite Hty. intros q k []%elem_of_nil.
Qed.

Lemma dictionary_of b : type_of b = VTF_TYPE_DICTIONARY -> exists d, b = Dictionary d.
Proof. destruct b; try done. eauto. Qed.

(** The dictionary with the association, and what the caller is left with. *)
Definition dictionary_set (d : vtf_cf_dictionary) (key value : Z) : vtf_cf_dictionary :=
  match vtf_dictionary_find_index d key with
  | Some index => d <| cfd_values ::= (fun l : list Z => <[index := value]> l) |>
  | None => mk_vtf_cf_dictionary (cfd_keys d ++ [key]) (cfd_values d ++ [value])
  end.

Definition stored (p : Z) (b : object_body) own w w' : Prop :=
  counted own w' /\ alive_gap w' = alive_gap w /\ ob_body <$> gs_heap w' !! p = Some b.

Lemma not_static_dictionary o d : object_ok o -> ob_body o = Dictionary d -> ~ is_static o.
Proof. intros Ho E [Hs|Hs]%(oo_static _ Ho); by rewrite E in Hs. Qed.

Lemma rebodied_gap p b w : alive_gap (rebodied p b w) = alive_gap w.
Proof.
  unfold alive_gap, rebodied. simpl. do 3 f_equal. rewrite <- !size_dom. f_equal. apply dom_alter_L.
Qed.

(** What is left is as it was, but for counts and the states of pixel buffers. *)
Definition rest_kept p w w' : Prop := forall q o', q <> p -> gs_heap w' !! q = Some o' ->
  exists o, gs_heap w !! q = Some o /\ shape_eq o o'.

Lemma rest_kept_trans p w w1 w2 : rest_kept p w w1 -> rest_kept p w1 w2 -> rest_kept p w w2.
Proof.
  intros H1 H2 q o2 Hq Ho2. destruct (H2 q o2 Hq Ho2) as (o1 & Ho1 & E1).
  destruct (H1 q o1 Hq Ho1) as (o & Ho & E). exists o. split; [done|by etrans].
Qed.

Lemma retained_rest p q w : rest_kept p w (retained q w).
Proof.
  intros x o' _ Ho'. rewrite retained_lookup in Ho'. apply fmap_Some in Ho' as (o & Ho & ->).
  exists o. split; [done|]. case_decide; [apply bump_shape|done].
Qed.

Lemma rebodied_rest p b w : rest_kept p w (rebodied p b w).
Proof.
  intros q o' Hq Ho'. unfold rebodied in Ho'. simpl in Ho'. rewrite lookup_alter_ne in Ho' by done.
  by exists o'.
Qed.

(** Object [p] has body [b]; the objects of [X] are still being changed. *)
Record stored_in X C (p : Z) (b : object_body) own w C' w' : Prop := {
  si_ok : heap_ok X C' own w';
  si_dom : dom (gs_heap w') ⊆ dom C';
  si_gap : alive_gap w' = alive_gap w;
  si_body : ob_body <$> gs_heap w' !! p = Some b;
  si_held : forall x, x ∈ X -> C' !! x = C !! x;
  si_rest : rest_kept p w w'
}.

Lemma stored_settle p b own w C C' w' : stored_in ∅ C p b own w C' w' -> stored p b own w w'.
Proof. intros [Hw Hd Hg Hb _ _]. split_and!; [by eapply counted_settle|done|done]. Qed.

Lemma stored_rebodied X C0 C own w0 w p o b :
  heap_ok ({[p]} ∪ X) C own w -> gs_heap w !! p = Some o -> C !! p = Some (refs_of (body_fields b)) ->
  ~ is_static o -> plain b -> body_boxes (ob_body o) = [] ->
  type_of b = type_of (ob_body o) -> finalizer_of b = finalizer_of (ob_body o) ->
  dom (gs_heap w) ⊆ dom C -> alive_gap w = alive_gap w0 -> (forall x, x ∈ X -> C !! x = C0 !! x) ->
  rest_kept p w0 w -> stored_in X C0 p b own w0 C (rebodied p b w).
Proof.
  intros Hw Ho HC Hs Hp Eb Et Ef Hd Eg HX Hk. split.
  - by eapply heap_ok_rebodied.
  - unfold rebodied. simpl. by rewrite dom_alter_L.
  - by rewrite rebodied_gap.
  - by rewrite (rebodied_lookup _ _ _ o Ho).
  - done.
  - eapply rest_kept_trans; [exact Hk|apply rebodied_rest].
Qed.

Lemma fmap_body w p b : ob_body <$> gs_heap w !! p = Some b ->
  exists o, gs_heap w !! p = Some o /\ ob_body o = b.
Proof. intros (o & ? & ->)%fmap_Some. eauto. Qed.

Lemma as_dictionary_run w p d : ob_body <$> gs_heap w !! p = Some (Dictionary d) ->
  as_dictionary p w = Done (d, w).
Proof. intros (o & Ho & E)%fmap_body. by apply as_dictionary_eq with o. Qed.

Lemma ready_rebodied w p b q : ready w q -> ready (rebodied p b w) q.
Proof.
  intros Hr o Ho. unfold rebodied in Ho. simpl in Ho. destruct (decide (p = q)) as [->|Hne].
  - rewrite lookup_alter_eq in Ho. apply fmap_Some in Ho as (o1 & Ho1 & ->). exact (Hr o1 Ho1).
  - rewrite lookup_alter_ne in Ho by done. exact (Hr o Ho).
Qed.

Lemma rebodied_dom w p b q : is_Some (gs_heap (rebodied p b w) !! q) <-> is_Some (gs_heap w !! q).
Proof. rewrite <- !elem_of_dom. unfold rebodied. simpl. by rewrite dom_alter_L. Qed.

(** The references of an object nobody is changing. *)
Lemma credit_of X C own w p o : heap_ok X C own w -> p ∈ own -> p ∉ X -> gs_heap w !! p = Some o ->
  C !! p = Some (refs_of (body_fields (ob_body o))).
Proof.
  intros Hw Hp HX Ho. destruct (heap_ok_lookup _ _ _ _ p Hw Hp) as (o' & m & Ho' & Hm & _).
  simplify_eq. by destruct (ho_fields _ _ _ _ Hw p m o Hm Ho HX) as [-> _].
Qed.

Lemma set_new_ok X C own w p o d key value :
  heap_ok X C own w -> dom (gs_heap w) ⊆ dom C -> p ∈ own -> p ∉ X ->
  gs_heap w !! p = Some o -> ob_body o = Dictionary d ->
  vtf_dictionary_find_index d key = None -> live C key -> live C value -> room 2 w ->
  exists C' w', CFDictionarySetValue env p key value w = Done (tt, w') /\
    stored_in X C p (Dictionary (dictionary_set d key value)) own w C' w'.
Proof.
  intros Hw Hdom Hp HpX Ho Eo Hf Hk Hv Hr. pose proof (ho_object _ _ _ _ Hw p o Ho) as Hok.
  assert (room (1 + 1) w) as Hr1 by done. apply (retained_room _ key) in Hr1.
  destruct (CFRetain_eq X C own w key Hw Hk) as [E1 Hw1]; [revert Hr; apply room_mono; lia|].
  pose proof (heap_ok_retained X C _ _ value Hw1 Hv Hr1) as Hw2.
  set (w1 := retained key w) in *. set (w2 := retained value w1) in *.
  set (mid := Dictionary (d <| cfd_keys ::= (fun l => l ++ [key]) |>)).
  assert (Hd0 : ob_body <$> gs_heap w !! p = Some (Dictionary d)) by (by rewrite Ho, <- Eo).
  assert (Hd1 : ob_body <$> gs_heap w1 !! p = Some (Dictionary d)) by (unfold w1; by rewrite retained_body).
  assert (Hd2 : ob_body <$> gs_heap w2 !! p = Some (Dictionary d)) by (unfold w2; by rewrite retained_body).
  destruct (fmap_body _ _ _ Hd1) as (o1 & Ho1 & _). destruct (fmap_body _ _ _ Hd2) as (o2 & Ho2 & Eo2).
  assert (CFRetain value (rebodied p mid w1) = Done (value, rebodied p mid w2)) as E2.
  { unfold w2. rewrite <- retained_rebodied. apply CFRetain_run.
    - destruct (gs_heap (rebodied p mid w1) !! 0) eqn:E; [|done].
      assert (is_Some (gs_heap w1 !! 0)) as Hn by (apply (rebodied_dom w1 p mid); eauto).
      by rewrite (heap_ok_null _ _ _ _ Hw1) in Hn; destruct Hn.
    - destruct Hv as [|Hv]; [by left|right]. apply rebodied_dom, elem_of_dom.
      by apply (ho_live _ _ _ _ Hw1).
    - by eapply ready_rebodied, heap_ok_ready. }
  set (m := refs_of [key] ⊎ refs_of [value]).
  set (m0 := refs_of (body_fields (Dictionary d))).
  assert (C !! p = Some m0) as HC by (unfold m0; rewrite <- Eo; exact (credit_of X C own w p o Hw Hp HpX Ho)).
  exists (<[p := m ⊎ m0]> C), (rebodied p (Dictionary (dictionary_set d key value)) w2). split.
  - unfold CFDictionarySetValue. pose proof (ho_addr _ _ _ _ Hw p o Ho).
    destruct (Z.eqb_spec p 0) as [|Hp0]; [lia|].
    rewrite (bind_eq _ _ _ _ _ (type_id_eq w p o Ho)), (proj2 (Z.eqb_neq p 0) Hp0),
      (oo_type _ Hok), Eo. simpl.
    rewrite (bind_eq _ _ _ _ _ (as_dictionary_run w p d Hd0)), Hf, (bind_eq _ _ _ _ _ E1).
    rewrite (bind_eq _ _ _ _ _ (as_dictionary_run w1 p d Hd1)).
    rewrite (bind_eq _ _ _ _ _ (put_body_eq w1 p mid ltac:(eauto))), (bind_eq _ _ _ _ _ E2).
    pose proof (rebodied_lookup p mid w2 o2 Ho2) as Ho3.
    rewrite (bind_eq _ _ _ _ _ (as_dictionary_eq _ p _ _ Ho3 eq_refl)).
    rewrite put_body_eq by eauto. rewrite rebodied_rebodied. unfold dictionary_set. by rewrite Hf.
  - assert (heap_ok X C (m ⊎ own) w2) as Hw2' by (refine (heap_ok_own _ _ _ _ _ _ Hw2); multiset_solver).
    pose proof (heap_ok_give _ _ _ _ _ _ _ Hw2' HC) as Hg.
    eapply stored_rebodied; [exact Hg|exact Ho2|..]; rewrite ?Eo2; try done.
    + rewrite lookup_insert_eq. f_equal. unfold m, m0, dictionary_set. rewrite Hf. simpl.
      rewrite !refs_app. multiset_solver.
    + eapply not_static_dictionary; [exact (ho_object _ _ _ _ Hw2 p o2 Ho2)|done].
    + unfold dictionary_set. rewrite Hf. split_and!; try done. simpl.
      destruct Hok as [_ _ _ _ _ Hc]. rewrite Eo in Hc. simpl in Hc. rewrite !length_app. simpl. lia.
    + rewrite dom_insert. unfold w2, w1, retained. simpl. rewrite !dom_alter_L. set_solver.
    + unfold w2, w1. by rewrite !retained_gap.
    + intros x Hx. rewrite lookup_insert_ne; [done|]. by intros ->.
    + unfold w2, w1. eapply rest_kept_trans; apply retained_rest.
Qed.

(** *** Replacing a value

    The old value is released before the new one is retained. *)

Lemma total_sub C C' : C' ⊆ C -> total_refs C' ⊆ total_refs C.
Proof.
  revert C. induction C' as [|p m C' Hp IH] using map_ind; intros C Hs.
  - intros q. unfold total_refs. rewrite map_fold_empty, multiplicity_empty. lia.
  - assert (C !! p = Some m) as Hm by (eapply lookup_weaken; [|done]; apply lookup_insert_eq).
    rewrite total_insert by done. rewrite (total_delete C p m Hm).
    apply gmultiset_disj_union_mono_l, IH.
    apply (delete_mono _ _ p) in Hs. by rewrite delete_insert_id in Hs.
Qed.

Lemma room_released X C C' own m w w' n :
  heap_ok X C (m ⊎ own) w -> heap_ok X C' own w' -> kept ∅ C w C' w' ->
  dom (gs_heap w) ⊆ dom C -> room n w -> room n w'.
Proof.
  intros Hw Hw' K Hd Hr p o' Ho' Hs.
  assert (p ∈ dom C') as Hp by (eapply kept_dom; [done..|]; apply elem_of_dom; eauto).
  destruct (k_live _ _ _ _ _ K p o' Hp Ho') as (o & Ho & Es).
  assert (~ is_static o) as Hso by (by rewrite (shape_static _ _ Es)).
  specialize (Hr p o Ho Hso). destruct (ho_count _ _ _ _ Hw p o Ho Hso) as (E & _ & _).
  destruct (ho_count _ _ _ _ Hw' p o' Ho' Hs) as (E' & _ & _).
  assert (multiplicity p (total_refs C') <= multiplicity p (total_refs C))%nat
    by apply total_sub, K.
  rewrite !multiplicity_disj_union in E. rewrite multiplicity_disj_union in E'. lia.
Qed.

Lemma find_index_lt d key i : vtf_dictionary_find_index d key = Some i ->
  length (cfd_keys d) = length (cfd_values d) -> exists old, cfd_values d !! i = Some old.
Proof.
  intros (k & Hk & _)%position_Some El. apply lookup_lt_is_Some. rewrite <- El.
  by eapply lookup_lt_Some.
Qed.

Lemma refs_insert l i old new : l !! i = Some old ->
  refs_of [old] ⊎ refs_of (<[i := new]> l) = refs_of [new] ⊎ refs_of l.
Proof.
  intros Hi. pose proof (lookup_lt_Some _ _ _ Hi). rewrite insert_take_drop by done.
  assert (refs_of l = refs_of (take i l) ⊎ (refs_of [old] ⊎ refs_of (drop (S i) l))) as ->.
  { by rewrite <- refs_cons, <- refs_app, take_drop_middle. }
  rewrite refs_app, (refs_cons new). multiset_solver.
Qed.

(** The reference to a value, taken out of the dictionary. *)
Lemma taken_value X C own w p o d i old :
  heap_ok X C own w -> p ∈ own -> p ∉ X -> gs_heap w !! p = Some o -> ob_body o = Dictionary d ->
  cfd_values d !! i = Some old ->
  heap_ok ({[p]} ∪ X) (<[p := refs_of (cfd_keys d ++ <[i := 0]> (cfd_values d))]> C)
    (refs_of [old] ⊎ own) w.
Proof.
  intros Hw Hp HX Ho Eo Hold. set (rest := refs_of (cfd_keys d ++ <[i := 0]> (cfd_values d))).
  assert (refs_of (body_fields (Dictionary d)) = refs_of [old] ⊎ rest) as Er.
  { unfold rest. simpl. rewrite !refs_app. pose proof (refs_insert _ i old 0 Hold) as E.
    rewrite refs_null, (left_id_L ∅ (⊎)) in E. rewrite <- E. multiset_solver. }
  apply (heap_ok_take _ _ _ _ _ _ _ Hw). rewrite <- Er, <- Eo. exact (credit_of X C own w p o Hw Hp HX Ho).
Qed.

(** A pointer the caller may use whatever is released: null, a constant, or one it
    holds a reference to. *)
Definition lasting own w v : Prop :=
  v = 0 \/ v ∈ own \/ exists o, gs_heap w !! v = Some o /\ is_static o.

Lemma CFRelease_lasting X C own w q v :
  heap_ok X C (refs_of [q] ⊎ own) w -> held X own -> lasting own w v ->
  gwp pan (CFRelease env q) (fun a w' => exists C', heap_ok X C' own w' /\ kept ∅ C w C' w' /\
    alive_gap w' = alive_gap w /\ (v = 0 \/ v ∈ dom C')) w.
Proof.
  intros Hw Hh [->|[Hv|(o & Ho & Hs)]].
  { eapply gwp_mono; [by apply CFRelease_within|]. intros [] w' (C' & Hw' & K & E).
    exists C'. split_and!; try done. by left. }
  { eapply gwp_mono; [by apply CFRelease_within|]. intros [] w' (C' & Hw' & K & E).
    exists C'. split_and!; try done. right. apply (ho_refs _ _ _ _ Hw'). multiset_solver. }
  pose proof (heap_ok_add_static _ _ _ _ _ _ Hw Ho Hs) as Hw0.
  eapply gwp_mono.
  { apply (CFRelease_within env X C ({[+ v +]} ⊎ own)).
    - refine (heap_ok_own _ _ _ _ _ _ Hw0). multiset_solver.
    - intros x Hx. specialize (Hh x Hx). multiset_solver. }
  intros [] w' (C' & Hw' & K & E). exists C'.
  destruct (heap_ok_lookup _ _ _ _ v Hw') as (o' & m & Ho' & Hm & _); [multiset_solver|].
  assert (v ∈ dom C') as Hd by (apply elem_of_dom; eauto).
  destruct (k_live _ _ _ _ _ K v o' Hd Ho') as (o0 & Ho0 & Es). simplify_eq.
  split_and!; try done; [|by right]. eapply heap_ok_drop_static; [done..|].
  by apply (shape_static _ _ Es).
Qed.

Lemma shape_dictionary o o' d : shape_eq o o' -> ob_body o = Dictionary d -> ob_body o' = Dictionary d.
Proof.
  intros E%(f_equal ob_body) Eo. simpl in E. rewrite Eo in E. by destruct (ob_body o'); simplify_eq/=.
Qed.

Lemma set_found_ok X C own w p o d key value i :
  heap_ok X C own w -> held X own -> dom (gs_heap w) ⊆ dom C -> p ∈ own -> p ∉ X ->
  gs_heap w !! p = Some o -> ob_body o = Dictionary d ->
  vtf_dictionary_find_index d key = Some i -> lasting own w value -> room 1 w ->
  gwp pan (CFDictionarySetValue env p key value)
    (fun _ w' => exists C', stored_in X C p (Dictionary (dictionary_set d key value)) own w C' w') w.
Proof.
  intros Hw Hh Hdom Hp HpX Ho Eo Hf Hv Hr. pose proof (ho_object _ _ _ _ Hw p o Ho) as Hok.
  pose proof (oo_counts _ Hok) as Hc. rewrite Eo in Hc.
  destruct (find_index_lt d key i Hf Hc) as [old Hold].
  unfold CFDictionarySetValue. pose proof (ho_addr _ _ _ _ Hw p o Ho).
  destruct (Z.eqb_spec p 0) as [|Hp0]; [lia|]. unfold gwp.
  rewrite (bind_eq _ _ _ _ _ (type_id_eq w p o Ho)), (proj2 (Z.eqb_neq p 0) Hp0),
    (oo_type _ Hok), Eo. simpl.
  rewrite (bind_eq _ _ _ _ _ (as_dictionary_eq w p o d Ho Eo)), Hf, Hold.
  set (rest := refs_of (cfd_keys d ++ <[i := 0]> (cfd_values d))).
  pose proof (taken_value X C own w p o d i old Hw Hp HpX Ho Eo Hold) as Ht.
  fold rest in Ht. set (C1 := <[p := rest]> C) in *.
  assert (dom (gs_heap w) ⊆ dom C1) as Hd by (unfold C1; rewrite dom_insert; set_solver).
  change (gwp pan (CFRelease env old ≫= (fun _ => value ← CFRetain value;
    d ← as_dictionary p; put_body p (Dictionary (d <| cfd_values ::= (fun l : list Z => <[i := value]> l) |>))))
    (fun _ w' => exists C', stored_in X C p (Dictionary (dictionary_set d key value)) own w C' w') w).
  eapply gwp_seq; [apply (CFRelease_lasting ({[p]} ∪ X) C1 own w old value);
    [exact Ht|by intros q [->%elem_of_singleton|?]%elem_of_union; [|apply Hh]|done]|].
  intros [] w1 (C2 & Hw1 & K & Eg & Hv2).
  pose proof (kept_dom _ _ _ _ K Hd) as Hd1.
  destruct (heap_ok_lookup _ _ _ _ p Hw1 Hp) as (o1 & m1 & Ho1 & Hm1 & Hok1 & _).
  assert (m1 = rest) as ->.
  { pose proof (lookup_weaken _ _ _ _ Hm1 (k_sub _ _ _ _ _ K)) as E. unfold C1 in E.
    rewrite lookup_insert_eq in E. by simplify_eq. }
  destruct (k_live _ _ _ _ _ K p o1) as (o' & Ho' & Es); [apply elem_of_dom; eauto|done|].
  assert (ob_body o1 = Dictionary d) as Eo1 by (eapply shape_dictionary; [|exact Eo]; by simplify_eq).
  destruct (CFRetain_eq ({[p]} ∪ X) C2 own w1 value Hw1 Hv2) as [E2 Hw2].
  { by eapply room_released; [exact Ht|exact Hw1|..]. }
  set (w2 := retained value w1) in *. pose proof (heap_ok_give _ _ _ _ _ _ _ Hw2 Hm1) as Hg.
  rewrite (assoc_L (∪)), union_idemp_L in Hg.
  assert (ob_body <$> gs_heap w2 !! p = Some (Dictionary d)) as Hd2
    by (unfold w2; by rewrite retained_body, Ho1, <- Eo1).
  destruct (fmap_body _ _ _ Hd2) as (o2 & Ho2 & Eo2).
  unfold gwp. rewrite (bind_eq _ _ _ _ _ E2), (bind_eq _ _ _ _ _ (as_dictionary_run _ _ _ Hd2)),
    put_body_eq by eauto.
  assert (dictionary_set d key value = d <| cfd_values ::= (fun l : list Z => <[i:=value]> l) |>) as Ed
    by (unfold dictionary_set; by rewrite Hf).
  rewrite Ed. eexists. eapply stored_rebodied; [exact Hg|exact Ho2|..]; try by rewrite Eo2.
  - rewrite lookup_insert_eq. f_equal. unfold rest. simpl. rewrite !refs_app.
    pose proof (refs_insert (<[i := 0]> (cfd_values d)) i 0 value) as E.
    rewrite list_insert_insert_eq, refs_null, (left_id_L ∅ (⊎)) in E. rewrite E; [multiset_solver|].
    apply list_lookup_insert_eq. by eapply lookup_lt_Some.
  - eapply not_static_dictionary; [by eapply (ho_object _ _ _ _ Hw2)|done].
  - split_and!; try done. simpl. by rewrite length_insert.
  - rewrite dom_insert. unfold w2, retained. simpl. rewrite dom_alter_L. set_solver.
  - unfold w2. by rewrite retained_gap.
  - intros x Hx. assert (x <> p) by (by intros ->). rewrite lookup_insert_ne by done.
    destruct (heap_ok_lookup _ _ _ _ x Hw1 (Hh x Hx)) as (_ & mx & _ & Hmx & _). rewrite Hmx.
    pose proof (lookup_weaken _ _ _ _ Hmx (k_sub _ _ _ _ _ K)) as E. unfold C1 in E.
    by rewrite lookup_insert_ne in E.
  - unfold w2. eapply rest_kept_trans; [|apply retained_rest]. intros q oq Hq Hoq.
    apply (k_live _ _ _ _ _ K); [|done]. apply Hd1, elem_of_dom. eauto.
Qed.

Lemma set_value_in X C own w p o d key value :
  heap_ok X C own w -> held X own -> dom (gs_heap w) ⊆ dom C -> p ∈ own -> p ∉ X ->
  gs_heap w !! p = Some o -> ob_body o = Dictionary d ->
  live C key -> lasting own w value -> room 2 w ->
  gwp pan (CFDictionarySetValue env p key value)
    (fun _ w' => exists C', stored_in X C p (Dictionary (dictionary_set d key value)) own w C' w') w.
Proof.
  intros Hw Hh Hd Hp HpX Ho Eo Hk Hv Hr. destruct (vtf_dictionary_find_index d key) as [i|] eqn:Hf.
  - eapply set_found_ok; try done. revert Hr. apply room_mono. lia.
  - destruct (set_new_ok X C own w p o d key value) as (C' & w' & E & Hs); try done.
    + destruct Hv as [->|[Hv|(ov & Hov & Hs)]]; [by left|right..].
      * apply (ho_refs _ _ _ _ Hw). multiset_solver.
      * by eapply ho_static.
    + unfold gwp. rewrite E. by exists C'.
Qed.

Lemma lasting_live own w v : counted own w -> lasting own w v -> live (credits (gs_heap w)) v.
Proof.
  intros Hw [->|[Hv|(o & Ho & Hs)]]; [by left|right..].
  - apply (ho_refs _ _ _ _ Hw). multiset_solver.
  - by eapply ho_static.
Qed.

Lemma CFDictionarySetValue_ok own w p o d key value :
  counted own w -> gs_heap w !! p = Some o -> ob_body o = Dictionary d -> p ∈ own ->
  live (credits (gs_heap w)) key -> lasting own w value -> room 2 w ->
  gwp pan (CFDictionarySetValue env p key value)
    (fun _ => stored p (Dictionary (dictionary_set d key value)) own w) w.
Proof.
  intros Hw Ho Eo Hp Hk Hv Hr. eapply gwp_mono; [eapply (set_value_in ∅); try done|].
  - by rewrite dom_credits.
  - intros [] w' (C' & Hs). by eapply stored_settle.
Qed.
End ownership.
