(* ===== verification/Access.v ===== *)
(** * Reading objects

    The accessors of Core Foundation: on a pointer to a live object, of whatever
    type, or null, they return and change nothing. *)

From S2P Require Import Prelude Wire Protocol Backend Transport Objects Release Refcount.
From S2P Require Import ReleaseSafe CoreFoundation Ownership.
From stdpp Require Import strings gmultiset fin_maps.

Set Default Goal Selector "!".
Open Scope Z_scope.

Ltac read_typed := intros o Ho Hok Et; destruct (ob_body o) eqn:Eo; try done; eexists; read_body.

Section access.
Context {os : Type} `{!Net os} `{!Profile} (env : environ).
Implicit Types (w : guest os) (own : gmultiset Z).

Definition alive w p : Prop := live (credits (gs_heap w)) p.

Lemma alive_some w p o : gs_heap w !! p = Some o -> alive w p.
Proof. intros Ho. right. rewrite dom_credits. apply elem_of_dom. eauto. Qed.

(** Either null or an object of the heap. *)
Lemma alive_cases own w p : counted own w -> alive w p ->
  p = 0 \/ exists o, gs_heap w !! p = Some o /\ object_ok o /\ p <> 0.
Proof.
  intros Hw [->|Hp]; [by left|right]. rewrite dom_credits in Hp. apply elem_of_dom in Hp as [o Ho].
  pose proof (ho_addr _ _ _ _ Hw p o Ho). exists o. split_and!; [done|by eapply ho_object|lia].
Qed.

(** The accessors: a type check, then a read at that type. *)
Lemma accessor_run own w p ty (k : G os Z) :
  counted own w -> alive w p ->
  (forall o, gs_heap w !! p = Some o -> object_ok o -> type_of (ob_body o) = ty ->
     exists r, k w = Done (r, w)) ->
  exists r, (if p =? 0 then mret 0 else
    t ← vtf_get_type_id p; if negb (t =? ty) then mret 0 else k) w = Done (r, w).
Proof.
  intros Hw Hp Hk. destruct (alive_cases own w p Hw Hp) as [->|(o & Ho & Hok & Hp0)]; [by eexists|].
  rewrite (proj2 (Z.eqb_neq p 0) Hp0), (bind_eq _ _ _ _ _ (type_id_eq w p o Ho)),
    (proj2 (Z.eqb_neq p 0) Hp0), (oo_type _ Hok).
  destruct (Z.eqb_spec (type_of (ob_body o)) ty); simpl; eauto.
Qed.

Lemma number_type_run own w p : counted own w -> alive w p ->
  exists r, CFNumberGetType p w = Done (r, w).
Proof. intros Hw Hp. eapply accessor_run; [done..|]. read_typed. Qed.

Lemma number_value_run own w p ty out : counted own w -> alive w p ->
  exists r, CFNumberGetValue p ty out w = Done (r, w).
Proof.
  intros Hw Hp. unfold CFNumberGetValue.
  destruct (alive_cases own w p Hw Hp) as [->|(o & Ho & Hok & Hp0)]; [by eexists|].
  rewrite (proj2 (Z.eqb_neq p 0) Hp0). destruct out; [|by eexists]. simpl.
  rewrite (bind_eq _ _ _ _ _ (type_id_eq w p o Ho)), (proj2 (Z.eqb_neq p 0) Hp0), (oo_type _ Hok).
  destruct (Z.eqb_spec (type_of (ob_body o)) VTF_TYPE_NUMBER) as [Et|]; simpl; [|by eexists].
  destruct (ob_body o) eqn:Eo; try done. eexists. read_body.
Qed.

Lemma data_length_run own w p : counted own w -> alive w p ->
  exists r, CFDataGetLength p w = Done (r, w).
Proof. intros Hw Hp. eapply accessor_run; [done..|]. read_typed. Qed.

Lemma array_count_run own w p : counted own w -> alive w p ->
  exists r, CFArrayGetCount p w = Done (r, w).
Proof. intros Hw Hp. eapply accessor_run; [done..|]. read_typed. Qed.

Lemma array_value_run own w p i : counted own w -> alive w p ->
  exists r, CFArrayGetValueAtIndex p i w = Done (r, w).
Proof.
  intros Hw Hp. unfold CFArrayGetValueAtIndex. destruct (Z.ltb_spec i 0) as [Hi|Hi].
  - destruct (alive_cases own w p Hw Hp) as [->|(o & Ho & Hok & Hp0)]; [by eexists|].
    rewrite (proj2 (Z.eqb_neq p 0) Hp0), (bind_eq _ _ _ _ _ (type_id_eq w p o Ho)).
    rewrite orb_true_r. by eexists.
  - destruct (accessor_run own w p VTF_TYPE_ARRAY (array ← as_array p;
      mret (default 0 (cfa_values array !! Z.to_nat i))) Hw Hp) as [r E]; [read_typed|].
    exists r. rewrite <- E. destruct (p =? 0); [done|]. apply bind_ext. intros t w'. by rewrite orb_false_r.
Qed.

Lemma dictionary_value_run own w p k : counted own w -> alive w p ->
  exists r, CFDictionaryGetValue p k w = Done (r, w).
Proof.
  intros Hw Hp. eapply accessor_run; [done..|]. intros o Ho Hok Et.
  apply dictionary_of in Et as [d Ed]. pose proof (oo_counts _ Hok) as Hc. rewrite Ed in Hc.
  rewrite (bind_eq _ _ _ _ _ (as_dictionary_eq w p o d Ho Ed)).
  destruct (vtf_dictionary_find_index d k) as [i|] eqn:Hf; [|by eexists].
  destruct (find_index_lt d k i Hf Hc) as [v ->]. by eexists.
Qed.

Lemma dictionary_contains_run own w p k : counted own w -> alive w p ->
  exists r, CFDictionaryContainsKey p k w = Done (r, w).
Proof. intros Hw Hp. eapply accessor_run; [done..|]. read_typed. Qed.

Lemma boolean_run own w p : counted own w -> alive w p ->
  exists r, CFBooleanGetValue p w = Done (r, w).
Proof. intros Hw Hp. eapply accessor_run; [done..|]. read_typed. Qed.

Lemma type_id_run own w p : counted own w -> alive w p -> exists r, vtf_get_type_id p w = Done (r, w).
Proof.
  intros Hw Hp. destruct (alive_cases own w p Hw Hp) as [->|(o & Ho & Hok & Hp0)]; [by eexists|].
  rewrite (type_id_eq w p o Ho). by eexists.
Qed.

Lemma equal_run own w p q : counted own w -> alive w p -> alive w q ->
  exists r, CFEqual p q w = Done (r, w).
Proof.
  intros Hw Hp Hq. unfold CFEqual. destruct (p =? q); [by eexists|].
  destruct (_ || _); [by eexists|]. destruct (type_id_run own w p Hw Hp) as [r1 E1].
  destruct (type_id_run own w q Hw Hq) as [r2 E2].
  rewrite (bind_eq _ _ _ _ _ E1), (bind_eq _ _ _ _ _ E2). destruct (r1 =? r2); by eexists.
Qed.

(** The value of the first key that is [key], null if there is none. *)
Definition dictionary_get (d : vtf_cf_dictionary) (key : Z) : Z :=
  match vtf_dictionary_find_index d key with
  | Some i => default 0 (cfd_values d !! i)
  | None => 0
  end.

Lemma get_value_run own w p d k : counted own w ->
  ob_body <$> gs_heap w !! p = Some (Dictionary d) ->
  CFDictionaryGetValue p k w = Done (dictionary_get d k, w).
Proof.
  intros Hw (o & Ho & Ed)%fmap_body. pose proof (ho_object _ _ _ _ Hw p o Ho) as Hok.
  pose proof (ho_addr _ _ _ _ Hw p o Ho). unfold CFDictionaryGetValue, dictionary_get.
  pose proof (oo_counts _ Hok) as Hc. rewrite Ed in Hc.
  destruct (Z.eqb_spec p 0) as [|Hp0]; [lia|].
  rewrite (bind_eq _ _ _ _ _ (type_id_eq w p o Ho)), (proj2 (Z.eqb_neq p 0) Hp0), (oo_type _ Hok), Ed.
  simpl. rewrite (bind_eq _ _ _ _ _ (as_dictionary_eq w p o d Ho Ed)).
  destruct (vtf_dictionary_find_index d k) as [i|] eqn:Hf; [|done].
  by destruct (find_index_lt d k i Hf Hc) as [v ->].
Qed.

End access.
