(* ===== verification/Bitstream.v ===== *)
(** * Parameter sets and NAL units in the guest

    The parsers of [coremedia.rs] for [avcC] and [hvcC] configuration records, and
    the splitting of length-prefixed streams and choice of parameter sets of
    [videotoolbox.rs].  The code walks the input by offset, indexing it; each
    parser is shown to compute what a reading of the grammar from the front of
    the input gives, for every input, and so never to panic. *)

From S2P Require Import Prelude Wire Protocol.
From stdpp Require Import strings.

Set Default Goal Selector "!".
Open Scope Z_scope.

(** [bytes[i]] *)
Definition byte_at (bytes : list byte) (i : Z) : rust Z :=
  match bytes !! Z.to_nat i with Some b => Val (byte.unsigned b) | None => Panic end.

Section parsers.
Context `{!Profile}.

(** ** Configuration records *)

(** A 16-bit big-endian length and that many bytes, and the offset after them. *)
Definition sized_blob (bytes : list byte) (offset : Z) : rust (option (list byte * Z)) :=
  header_end ← arith 64 (offset + 2);
  if header_end >? len bytes then Val None else
  hi ← byte_at bytes offset;
  next ← arith 64 (offset + 1);
  lo ← byte_at bytes next;
  let length := hi * 256 + lo in
  blob_end ← arith 64 (header_end + length);
  if blob_end >? len bytes then Val None
  else Val (Some (slice (Z.to_nat header_end) (Z.to_nat length) bytes, blob_end)).

(** The loops over the sets of a kind: the first one, and the offset after all. *)
Fixpoint avcc_sets (n : nat) (bytes : list byte) (offset : Z) (first : option (list byte))
    : rust (option (option (list byte) * Z)) :=
  match n with
  | O => Val (Some (first, offset))
  | S n =>
      blob ← sized_blob bytes offset;
      match blob with
      | None => Val None
      | Some (blob, offset) =>
          avcc_sets n bytes offset (match first with None => Some blob | Some _ => first end)
      end
  end.

Definition vtf_parse_avcc_config_record (bytes : list byte)
    : rust (option (list (list byte) * Z)) :=
  if len bytes <? 7 then Val None else
  version ← byte_at bytes 0;
  if negb (version =? 1) then Val None else
  b4 ← byte_at bytes 4;
  length_size ← arith 8 (Z.land b4 0x03 + 1);
  b5 ← byte_at bytes 5;
  let num_sps := Z.land b5 0x1F in
  if num_sps =? 0 then Val None else
  sps ← avcc_sets (Z.to_nat num_sps) bytes 6 None;
  match sps with
  | None => Val None
  | Some (sps, offset) =>
      if offset >=? len bytes then Val None else
      num_pps ← byte_at bytes offset;
      offset ← arith 64 (offset + 1);
      if num_pps =? 0 then Val None else
      pps ← avcc_sets (Z.to_nat num_pps) bytes offset None;
      Val (match pps with
           | None => None
           | Some (pps, _) =>
               match sps, pps with
               | Some sps, Some pps => Some ([sps; pps], length_size)
               | _, _ => None
               end
           end)
  end.

(** The parameter sets found so far. *)
Record hvcc_sets := mk_hvcc_sets {
  hv_vps : option (list byte);
  hv_sps : option (list byte);
  hv_pps : option (list byte)
}.

Definition hvcc_keep (nal_unit_type : Z) (blob : list byte) (s : hvcc_sets) : hvcc_sets :=
  if (nal_unit_type =? 32) && bool_decide (hv_vps s = None)
  then mk_hvcc_sets (Some blob) (hv_sps s) (hv_pps s)
  else if (nal_unit_type =? 33) && bool_decide (hv_sps s = None)
  then mk_hvcc_sets (hv_vps s) (Some blob) (hv_pps s)
  else if (nal_unit_type =? 34) && bool_decide (hv_pps s = None)
  then mk_hvcc_sets (hv_vps s) (hv_sps s) (Some blob)
  else s.

Fixpoint hvcc_nalus (n : nat) (nal_unit_type : Z) (bytes : list byte) (offset : Z) (s : hvcc_sets)
    : rust (option (hvcc_sets * Z)) :=
  match n with
  | O => Val (Some (s, offset))
  | S n =>
      blob ← sized_blob bytes offset;
      match blob with
      | None => Val None
      | Some (blob, offset) => hvcc_nalus n nal_unit_type bytes offset (hvcc_keep nal_unit_type blob s)
      end
  end.

Fixpoint hvcc_arrays (n : nat) (bytes : list byte) (offset : Z) (s : hvcc_sets)
    : rust (option (hvcc_sets * Z)) :=
  match n with
  | O => Val (Some (s, offset))
  | S n =>
      header_end ← arith 64 (offset + 3);
      if header_end >? len bytes then Val None else
      kind ← byte_at bytes offset;
      i1 ← arith 64 (offset + 1);
      hi ← byte_at bytes i1;
      i2 ← arith 64 (offset + 2);
      lo ← byte_at bytes i2;
      nalus ← hvcc_nalus (Z.to_nat (hi * 256 + lo)) (Z.land kind 0x3F) bytes header_end s;
      match nalus with
      | None => Val None
      | Some (s, offset) => hvcc_arrays n bytes offset s
      end
  end.

Definition vtf_parse_hvcc_config_record (bytes : list byte)
    : rust (option (list (list byte) * Z)) :=
  if len bytes <? 23 then Val None else
  version ← byte_at bytes 0;
  if negb (version =? 1) then Val None else
  b21 ← byte_at bytes 21;
  length_size ← arith 8 (Z.land b21 0x03 + 1);
  num_arrays ← byte_at bytes 22;
  arrays ← hvcc_arrays (Z.to_nat num_arrays) bytes 23 (mk_hvcc_sets None None None);
  Val (match arrays with
       | None => None
       | Some (s, _) =>
           match hv_vps s, hv_sps s, hv_pps s with
           | Some vps, Some sps, Some pps => Some ([vps; sps; pps], length_size)
           | _, _, _ => None
           end
       end).

(** ** Length-prefixed streams *)

(** [nal_len = (nal_len << 8) | data[offset + i]], over the bytes of the prefix. *)
Fixpoint prefix_value (n : nat) (data : list byte) (offset nal_len : Z) : rust Z :=
  match n with
  | O => Val nal_len
  | S n =>
      b ← byte_at data offset;
      prefix_value n data (offset + 1) (Z.lor (wrap 64 (Z.shiftl nal_len 8)) b)
  end.

(** [None] when the fuel runs out; the length of the data and one more is enough. *)
Fixpoint split_units (fuel : nat) (data : list byte) (length_prefix_bytes : nat) (offset : Z)
    : rust (option (list (list byte))) :=
  match fuel with
  | O => Val None
  | S fuel =>
      stop ← arith 64 (offset + Z.of_nat length_prefix_bytes);
      if stop >? len data then Val (Some []) else
      nal_len ← prefix_value length_prefix_bytes data offset 0;
      if nal_len =? 0 then Val (Some []) else
      unit_end ← arith 64 (stop + nal_len);
      if unit_end >? len data then Val (Some []) else
      rest ← split_units fuel data length_prefix_bytes unit_end;
      Val (match rest with
           | Some units => Some (slice (Z.to_nat stop) (Z.to_nat nal_len) data :: units)
           | None => None
           end)
  end.

Definition vtf_split_avcc_bitstream (data : list byte) (length_prefix_bytes : Z)
    : rust (option (list (list byte))) :=
  if (length_prefix_bytes =? 0) || (length_prefix_bytes >? 4) then Val (Some [])
  else split_units (S (length data)) data (Z.to_nat length_prefix_bytes) 0.

Definition FOURCC_AVC1 : Z := 0x61766331.
Definition FOURCC_HVC1 : Z := 0x68766331.

Definition vtf_nal_unit_type (nal : list byte) (codec : Z) : option Z :=
  match nal with
  | [] => None
  | b :: rest =>
      if codec =? FOURCC_AVC1 then Some (Z.land (byte.unsigned b) 0x1F)
      else match rest with
           | [] => None
           | _ => Some (Z.land (Z.shiftr (byte.unsigned b) 1) 0x3F)
           end
  end.

(** The first unit of each wanted type; the arms are tried in order. *)
Record inband_sets := mk_inband_sets {
  ib_sps : option (list byte);
  ib_pps : option (list byte);
  ib_vps : option (list byte)
}.

Definition inband_keep (codec sps_type pps_type : Z) (vps_type : option Z) (s : inband_sets)
    (nal : list byte) : inband_sets :=
  match vtf_nal_unit_type nal codec with
  | Some t =>
      if (t =? sps_type) && bool_decide (ib_sps s = None) then mk_inband_sets (Some nal) (ib_pps s) (ib_vps s)
      else if (t =? pps_type) && bool_decide (ib_pps s = None) then mk_inband_sets (ib_sps s) (Some nal) (ib_vps s)
      else if bool_decide (vps_type = Some t) && bool_decide (ib_vps s = None)
      then mk_inband_sets (ib_sps s) (ib_pps s) (Some nal)
      else s
  | None => s
  end.

End parsers.

(** ** The grammar, read from the front *)

Definition take_blob (l : list byte) : option (list byte * list byte) :=
  match l with
  | hi :: lo :: l =>
      let n := Z.to_nat (byte.unsigned hi * 256 + byte.unsigned lo) in
      if decide (n <= length l)%nat then Some (take n l, drop n l) else None
  | _ => None
  end.

Fixpoint take_blobs (n : nat) (l : list byte) : option (list (list byte) * list byte) :=
  match n with
  | O => Some ([], l)
  | S n => '(b, l) ← take_blob l; '(bs, l) ← take_blobs n l; Some (b :: bs, l)
  end.

(** Version, three bytes of profile, length size, the sequence parameter sets, the
    picture parameter sets: the first of each. *)
Definition avcc_grammar (bytes : list byte) : option (list (list byte) * Z) :=
  match bytes with
  | version :: _ :: _ :: _ :: b4 :: b5 :: l =>
      if negb (byte.unsigned version =? 1) || (Z.land (byte.unsigned b5) 0x1F =? 0) then None else
      '(spss, l) ← take_blobs (Z.to_nat (Z.land (byte.unsigned b5) 0x1F)) l;
      match l with
      | [] => None
      | num_pps :: l =>
          '(ppss, _) ← take_blobs (Z.to_nat (byte.unsigned num_pps)) l;
          sps ← head spss;
          pps ← head ppss;
          Some ([sps; pps], Z.land (byte.unsigned b4) 0x03 + 1)
      end
  | _ => None
  end.

(** A type, a 16-bit number of units, the units. *)
Definition take_array (l : list byte) : option (Z * list (list byte) * list byte) :=
  match l with
  | kind :: hi :: lo :: l =>
      '(units, l) ← take_blobs (Z.to_nat (byte.unsigned hi * 256 + byte.unsigned lo)) l;
      Some (Z.land (byte.unsigned kind) 0x3F, units, l)
  | _ => None
  end.

Fixpoint take_arrays (n : nat) (l : list byte) : option (list (Z * list (list byte)) * list byte) :=
  match n with
  | O => Some ([], l)
  | S n => '(a, l) ← take_array l; '(arrays, l) ← take_arrays n l; Some (a :: arrays, l)
  end.

(** The first unit of a type. *)
Definition first_unit (kind : Z) (arrays : list (Z * list (list byte))) : option (list byte) :=
  head ('(k, units) ← arrays; if k =? kind then units else []).

Definition hvcc_grammar (bytes : list byte) : option (list (list byte) * Z) :=
  if (length bytes <? 23)%nat then None else
  if negb (from_option byte.unsigned 0 (bytes !! 0%nat) =? 1) then None else
  '(arrays, _) ← take_arrays (Z.to_nat (from_option byte.unsigned 0 (bytes !! 22%nat)))
                   (drop 23 bytes);
  vps ← first_unit 32 arrays;
  sps ← first_unit 33 arrays;
  pps ← first_unit 34 arrays;
  Some ([vps; sps; pps], Z.land (from_option byte.unsigned 0 (bytes !! 21%nat)) 0x03 + 1).

(** ** The parsers read the grammar *)

Section grammar.
Context `{!Profile}.

Lemma byte_at_app pre b l : byte_at (pre ++ b :: l) (len pre) = Val (byte.unsigned b).
Proof.
  unfold byte_at. rewrite Nat2Z.id, lookup_app_r, Nat.sub_diag by done. done.
Qed.

Lemma byte_at_app_add pre l n b : l !! n = Some b ->
  byte_at (pre ++ l) (len pre + Z.of_nat n) = Val (byte.unsigned b).
Proof.
  intros Hb. unfold byte_at. rewrite lookup_app_r by lia.
  by replace (Z.to_nat (len pre + Z.of_nat n) - length pre)%nat with n by lia; rewrite Hb.
Qed.

Lemma byte_range b : 0 <= byte.unsigned b < 256.
Proof. apply byte.unsigned_range. Qed.

Lemma sized_blob_eq pre l : len (pre ++ l) <= ISIZE_MAX ->
  sized_blob (pre ++ l) (len pre) =
    Val ((fun x => (x.1, len (pre ++ l) - len x.2)) <$> take_blob l).
Proof.
  unfold ISIZE_MAX. intros Hlen. rewrite length_app in Hlen. unfold sized_blob.
  rewrite (arith_in 64 (len pre + 2)) by lia. unfold mbind, rust_bind. cbv beta iota.
  rewrite length_app.
  destruct l as [|hi [|lo l]]; simpl length in *.
  { by rewrite (proj2 (Z.gtb_lt _ _)) by lia. }
  { by rewrite (proj2 (Z.gtb_lt _ _)) by lia. }
  destruct (Z.gtb_spec (len pre + 2) (Z.of_nat (length pre + S (S (length l))))); [lia|].
  rewrite byte_at_app, (arith_in 64 (len pre + 1)) by lia.
  change (len pre + 1) with (len pre + Z.of_nat 1).
  rewrite (byte_at_app_add pre (hi :: lo :: l) 1 lo) by done.
  pose proof (byte_range hi). pose proof (byte_range lo).
  rewrite arith_in by lia. simpl. set (n := byte.unsigned hi * 256 + byte.unsigned lo) in *.
  destruct (decide (Z.to_nat n <= length l)%nat) as [Hn|Hn].
  - destruct (Z.gtb_spec (len pre + 2 + n) (Z.of_nat (length pre + S (S (length l))))); [lia|].
    simpl. do 3 f_equal.
    + unfold slice. rewrite drop_app_ge by lia.
      by replace (Z.to_nat (len pre + 2) - length pre)%nat with 2%nat by lia.
    + rewrite length_drop. lia.
  - destruct (Z.gtb_spec (len pre + 2 + n) (Z.of_nat (length pre + S (S (length l))))); [done|lia].
Qed.

(** What is left after a blob is a suffix. *)
Lemma take_blob_suffix l b l' : take_blob l = Some (b, l') -> exists p, l = p ++ l'.
Proof.
  destruct l as [|hi [|lo l]]; simpl; try done. case_decide; [|done]. intros [= <- <-].
  exists (hi :: lo :: take (Z.to_nat (byte.unsigned hi * 256 + byte.unsigned lo)) l).
  simpl. by rewrite take_drop.
Qed.

Lemma take_blobs_suffix n l bs l' : take_blobs n l = Some (bs, l') -> exists p, l = p ++ l'.
Proof.
  revert l bs. induction n as [|n IH]; intros l bs; simpl; [intros [= <- <-]; by exists []|].
  destruct (take_blob l) as [[b l1]|] eqn:E; simpl; [|done].
  destruct (take_blobs n l1) as [[bs1 l2]|] eqn:E1; simpl; [|done]. intros [= <- <-].
  apply take_blob_suffix in E as [p ->]. apply IH in E1 as [p' ->]. exists (p ++ p'). by rewrite app_assoc.
Qed.

Lemma suffix_offset (pre p l : list byte) :
  len (pre ++ p ++ l) - len l = len (pre ++ p).
Proof. rewrite !length_app. lia. Qed.

Lemma avcc_sets_eq n pre l first : len (pre ++ l) <= ISIZE_MAX ->
  avcc_sets n (pre ++ l) (len pre) first =
    Val ((fun x => (match first with Some _ => first | None => head x.1 end,
                    len (pre ++ l) - len x.2)) <$> take_blobs n l).
Proof.
  revert pre l first. induction n as [|n IH]; intros pre l first Hlen; simpl.
  - do 3 f_equal; [by destruct first|rewrite length_app; lia].
  - rewrite sized_blob_eq by done. simpl.
    destruct (take_blob l) as [[b l1]|] eqn:E; simpl; [|done].
    destruct (take_blob_suffix l b l1 E) as [p ->]. rewrite suffix_offset, (app_assoc pre p l1).
    rewrite IH by (by rewrite <- app_assoc).
    destruct (take_blobs n l1) as [[bs l2]|]; simpl; [|done]. by destruct first.
Qed.

Lemma land_small z n : 0 <= n -> 0 <= Z.land z (Z.ones n) < 2 ^ n.
Proof. intros Hn. rewrite Z.land_ones by done. apply Z.mod_pos_bound. lia. Qed.

Lemma length_size_arith z : arith 8 (Z.land z 0x03 + 1) = Val (Z.land z 0x03 + 1).
Proof. apply arith_in. pose proof (land_small z 2). change (Z.ones 2) with 3 in *. lia. Qed.

Lemma avcc_record_eq bytes : len bytes <= ISIZE_MAX ->
  vtf_parse_avcc_config_record bytes = Val (avcc_grammar bytes).
Proof.
  intros Hlen. destruct bytes as [|v [|b1 [|b2 [|b3 [|b4 [|b5 l]]]]]]; try done.
  unfold vtf_parse_avcc_config_record, avcc_grammar.
  destruct (Z.ltb_spec (len (v :: b1 :: b2 :: b3 :: b4 :: b5 :: l)) 7) as [Hs|Hs].
  { destruct l; [|simpl in Hs; lia]. destruct (_ || _) eqn:E; [done|].
    apply orb_false_elim in E as [_ E%Z.eqb_neq]. pose proof (land_small (byte.unsigned b5) 5).
    change (Z.ones 5) with 31 in *. by destruct (Z.to_nat (Z.land (byte.unsigned b5) 31)) eqn:E1; [lia|]. }
  set (pre := [v; b1; b2; b3; b4; b5]). change (v :: b1 :: b2 :: b3 :: b4 :: b5 :: l) with (pre ++ l) in *.
  change (byte_at (pre ++ l) 0) with (Val (byte.unsigned v)).
  change (byte_at (pre ++ l) 4) with (Val (byte.unsigned b4)).
  change (byte_at (pre ++ l) 5) with (Val (byte.unsigned b5)).
  unfold mbind, rust_bind. cbv beta iota. destruct (byte.unsigned v =? 1); [|done]. cbv beta iota.
  rewrite length_size_arith. simpl orb.
  destruct (Z.land (byte.unsigned b5) 31 =? 0); [done|].
  change 6 with (len pre). rewrite avcc_sets_eq by done. unfold option_bind.
  destruct (take_blobs _ l) as [[spss l1]|] eqn:E; [|done]. cbn [fmap option_fmap option_map fst snd].
  destruct (take_blobs_suffix _ _ _ _ E) as [p ->]. rewrite suffix_offset, app_assoc in *.
  destruct l1 as [|m l1].
  { rewrite app_nil_r. by rewrite (proj2 (Z.geb_le _ _)) by lia. }
  destruct (Z.geb_spec (len (pre ++ p)) (len ((pre ++ p) ++ m :: l1))) as [Hge|_].
  { rewrite length_app in Hge. simpl in Hge. lia. }
  rewrite byte_at_app. cbv beta iota.
  assert (len (pre ++ p) + 1 + len l1 < 2 ^ 63) as Hl.
  { unfold ISIZE_MAX in Hlen. rewrite (length_app (pre ++ p)) in Hlen. cbn [length] in Hlen. lia. }
  rewrite (arith_in 64 (len (pre ++ p) + 1)) by lia. cbv beta iota.
  pose proof (byte_range m). destruct (Z.eqb_spec (byte.unsigned m) 0) as [->|Hm].
  { simpl. by destruct (head spss). }
  replace (len (pre ++ p) + 1) with (len ((pre ++ p) ++ [m])) by (rewrite (length_app (pre ++ p)); simpl; lia).
  change (m :: l1) with ([m] ++ l1). rewrite (app_assoc (pre ++ p)), avcc_sets_eq.
  2: { rewrite (length_app (_ ++ [m])), (length_app (pre ++ p)). unfold ISIZE_MAX. cbn [length]. lia. }
  destruct (take_blobs (Z.to_nat (byte.unsigned m)) l1) as [[ppss l2]|]; [|done].
  cbn [fmap option_fmap option_map fst snd]. by destruct (head spss), (head ppss).
Qed.

(** *** HEVC records *)

Definition keep_array (s : hvcc_sets) (a : Z * list (list byte)) : hvcc_sets :=
  foldl (fun s b => hvcc_keep a.1 b s) s a.2.

Lemma hvcc_nalus_eq n k pre l s : len (pre ++ l) <= ISIZE_MAX ->
  hvcc_nalus n k (pre ++ l) (len pre) s =
    Val ((fun x => (keep_array s (k, x.1), len (pre ++ l) - len x.2)) <$> take_blobs n l).
Proof.
  revert pre l s. induction n as [|n IH]; intros pre l s Hlen; simpl.
  - do 3 f_equal. rewrite length_app. lia.
  - rewrite sized_blob_eq by done. simpl.
    destruct (take_blob l) as [[b l1]|] eqn:E; simpl; [|done].
    destruct (take_blob_suffix l b l1 E) as [p ->]. rewrite suffix_offset, (app_assoc pre p l1).
    rewrite IH by (by rewrite <- app_assoc).
    by destruct (take_blobs n l1) as [[bs l2]|].
Qed.

Lemma take_array_suffix l a l' : take_array l = Some (a, l') -> exists p, l = p ++ l'.
Proof.
  destruct l as [|k [|hi [|lo l]]]; simpl; try done.
  destruct (take_blobs _ l) as [[units l1]|] eqn:E; simpl; [|done]. intros [= <- <-].
  apply take_blobs_suffix in E as [p ->]. by exists (k :: hi :: lo :: p).
Qed.

Lemma hvcc_arrays_eq n pre l s : len (pre ++ l) <= ISIZE_MAX ->
  hvcc_arrays n (pre ++ l) (len pre) s =
    Val ((fun x => (foldl keep_array s x.1, len (pre ++ l) - len x.2)) <$> take_arrays n l).
Proof.
  revert pre l s. induction n as [|n IH]; intros pre l s Hlen; simpl.
  { do 3 f_equal. rewrite length_app. lia. }
  assert (len pre + len l < 2 ^ 63) as Hl by (unfold ISIZE_MAX in Hlen; rewrite length_app in Hlen; lia).
  destruct l as [|k [|hi [|lo l]]]; cbn [length] in Hl.
  1-3: rewrite (arith_in 64 (len pre + 3)) by lia; unfold mbind, rust_bind; cbv beta iota;
    rewrite length_app; cbn [length]; by rewrite (proj2 (Z.gtb_lt _ _)) by lia.
  rewrite (arith_in 64 (len pre + 3)) by lia. unfold mbind at 1, rust_bind at 1. cbv beta iota.
  destruct (Z.gtb_spec (len pre + 3) (len (pre ++ k :: hi :: lo :: l))) as [Hgt|_].
  { rewrite length_app in Hgt. cbn [length] in Hgt. lia. }
  rewrite byte_at_app. rewrite (arith_in 64 (len pre + 1)), (arith_in 64 (len pre + 2)) by lia.
  change (len pre + 1) with (len pre + Z.of_nat 1). change (len pre + 2) with (len pre + Z.of_nat 2).
  unfold mbind, rust_bind. cbv beta iota.
  rewrite (byte_at_app_add pre _ 1 hi), (byte_at_app_add pre _ 2 lo) by done. cbv beta iota.
  replace (len pre + 3) with (len (pre ++ [k; hi; lo])) by (rewrite length_app; simpl; lia).
  change (k :: hi :: lo :: l) with ([k; hi; lo] ++ l). rewrite app_assoc.
  rewrite hvcc_nalus_eq by (by rewrite <- app_assoc). simpl.
  destruct (take_blobs _ l) as [[units l1]|] eqn:E; simpl; [|done].
  destruct (take_blobs_suffix _ _ _ _ E) as [p ->]. rewrite suffix_offset, app_assoc in *.
  rewrite IH; [by destruct (take_arrays n l1) as [[arrays l2]|]|].
  revert Hlen. rewrite !length_app. cbn [length]. rewrite ?length_app. lia.
Qed.

(** The first of two, if any. *)
Definition or_else {A} (x y : option A) : option A := match x with Some _ => x | None => y end.

Lemma first_unit_cons kind k units arrays :
  first_unit kind ((k, units) :: arrays) =
    or_else (if k =? kind then head units else None) (first_unit kind arrays).
Proof.
  unfold first_unit. simpl. destruct (k =? kind); [|done]. by destruct units.
Qed.

Lemma hvcc_keep_eq k b s :
  hvcc_keep k b s = mk_hvcc_sets
    (or_else (hv_vps s) (if k =? 32 then Some b else None))
    (or_else (hv_sps s) (if k =? 33 then Some b else None))
    (or_else (hv_pps s) (if k =? 34 then Some b else None)).
Proof.
  unfold hvcc_keep, or_else. destruct s as [v sp pp]. simpl.
  destruct (Z.eqb_spec k 32) as [->|_]; [|destruct (Z.eqb_spec k 33) as [->|_];
    [|destruct (Z.eqb_spec k 34) as [->|_]]]; simpl; by destruct v, sp, pp.
Qed.

Lemma keep_array_eq s k units :
  keep_array s (k, units) = mk_hvcc_sets
    (or_else (hv_vps s) (if k =? 32 then head units else None))
    (or_else (hv_sps s) (if k =? 33 then head units else None))
    (or_else (hv_pps s) (if k =? 34 then head units else None)).
Proof.
  unfold keep_array. simpl. revert s. induction units as [|b units IH]; intros [v sp pp]; simpl.
  - destruct (k =? 32), (k =? 33), (k =? 34); simpl; by destruct v, sp, pp.
  - rewrite IH, hvcc_keep_eq. simpl. destruct (k =? 32), (k =? 33), (k =? 34); by destruct v, sp, pp.
Qed.

Lemma keep_arrays_eq arrays s :
  foldl keep_array s arrays = mk_hvcc_sets
    (or_else (hv_vps s) (first_unit 32 arrays))
    (or_else (hv_sps s) (first_unit 33 arrays))
    (or_else (hv_pps s) (first_unit 34 arrays)).
Proof.
  revert s. induction arrays as [|[k units] arrays IH]; intros s.
  - destruct s as [v sp pp]. simpl. by destruct v, sp, pp.
  - simpl foldl. rewrite IH, keep_array_eq, !first_unit_cons. cbn [hv_vps hv_sps hv_pps].
    f_equal; [destruct (hv_vps s)|destruct (hv_sps s)|destruct (hv_pps s)]; done.
Qed.

Lemma byte_at_default bytes (z : Z) (i : nat) : Z.to_nat z = i -> (i < length bytes)%nat ->
  byte_at bytes z = Val (from_option byte.unsigned 0 (bytes !! i)).
Proof.
  intros <- [b Hb]%lookup_lt_is_Some. unfold byte_at. by rewrite Hb.
Qed.

Lemma hvcc_record_eq bytes : len bytes <= ISIZE_MAX ->
  vtf_parse_hvcc_config_record bytes = Val (hvcc_grammar bytes).
Proof.
  intros Hlen. unfold vtf_parse_hvcc_config_record, hvcc_grammar.
  destruct (Z.ltb_spec (len bytes) 23) as [Hs|Hs]; destruct (Nat.ltb_spec (length bytes) 23); try lia; [done|].
  rewrite (byte_at_default bytes 0 0), (byte_at_default bytes 21 21), (byte_at_default bytes 22 22) by lia.
  unfold mbind, rust_bind. cbv beta iota. destruct (_ =? 1); [|done]. cbv beta iota.
  rewrite length_size_arith. unfold option_bind.
  pose proof (hvcc_arrays_eq (Z.to_nat (from_option byte.unsigned 0 (bytes !! 22%nat)))
    (take 23 bytes) (drop 23 bytes) (mk_hvcc_sets None None None)) as E.
  rewrite take_drop, length_take_le in E by lia. change (Z.of_nat 23) with 23 in E. rewrite (E Hlen). simpl negb. cbv beta iota.
  destruct (take_arrays _ _) as [[arrays l2]|]; [|done]. cbn [fmap option_fmap option_map fst snd].
  rewrite keep_arrays_eq. simpl.
  by destruct (first_unit 32 arrays), (first_unit 33 arrays), (first_unit 34 arrays).
Qed.
End grammar.

(** ** Writing records

    The records as the standard lays them out (ISO/IEC 14496-15). *)

Definition be16 (n : Z) : list byte := [byte.of_Z (n / 256); byte.of_Z n].
Definition blob (b : list byte) : list byte := be16 (len b) ++ b.

Definition avcc_record (profile compatibility level : byte) (length_size : Z)
    (spss ppss : list (list byte)) : list byte :=
  [Byte.x01; profile; compatibility; level; byte.of_Z (0xFC + (length_size - 1));
   byte.of_Z (0xE0 + len spss)] ++
  concat (blob <$> spss) ++ [byte.of_Z (len ppss)] ++ concat (blob <$> ppss).

Definition hvcc_array (a : byte * list (list byte)) : list byte :=
  [a.1] ++ be16 (len a.2) ++ concat (blob <$> a.2).

Definition hvcc_record (header : list byte) (length_size : Z) (arrays : list (byte * list (list byte)))
    : list byte :=
  [Byte.x01] ++ header ++ [byte.of_Z (0xFC + (length_size - 1)); byte.of_Z (len arrays)] ++
  concat (hvcc_array <$> arrays).

Lemma be16_value n : 0 <= n < 2 ^ 16 ->
  byte.unsigned (byte.of_Z (n / 256)) * 256 + byte.unsigned (byte.of_Z n) = n.
Proof.
  intros Hn. rewrite !byte.unsigned_of_Z. unfold byte.wrap.
  rewrite (Z.mod_small (n / 256)) by (split; [apply Z.div_pos; lia|apply Z.div_lt_upper_bound; lia]).
  rewrite (Z.div_mod n 256) at 3 by lia. change (2 ^ 8) with 256. lia.
Qed.

Definition short (b : list byte) : Prop := len b < 2 ^ 16.

Lemma take_blob_blob b l : short b -> take_blob (blob b ++ l) = Some (b, l).
Proof.
  intros Hb. unfold short in Hb. unfold blob, be16. simpl. rewrite be16_value by lia. rewrite Nat2Z.id.
  rewrite decide_True by (rewrite length_app; lia). by rewrite take_app_length, drop_app_length.
Qed.

Lemma take_blobs_blobs bs l : Forall short bs ->
  take_blobs (length bs) (concat (blob <$> bs) ++ l) = Some (bs, l).
Proof.
  induction 1 as [|b bs Hb Hbs IH]; [done|].
  change (concat (blob <$> b :: bs) ++ l) with ((blob b ++ concat (blob <$> bs)) ++ l).
  rewrite <- app_assoc. cbn [length take_blobs]. rewrite take_blob_blob by done. simpl. by rewrite IH.
Qed.

Lemma take_array_array k units l : len units < 2 ^ 16 -> Forall short units ->
  take_array (hvcc_array (k, units) ++ l) = Some (Z.land (byte.unsigned k) 0x3F, units, l).
Proof.
  intros Hn Hu. unfold hvcc_array, be16. cbn [fst snd app take_array]. rewrite be16_value by lia.
  rewrite Nat2Z.id, take_blobs_blobs by done. done.
Qed.

(** An array of a record: its number of units and their lengths fit. *)
Definition array_fits (a : byte * list (list byte)) : Prop := len a.2 < 2 ^ 16 /\ Forall short a.2.

Definition typed (a : byte * list (list byte)) : Z * list (list byte) :=
  (Z.land (byte.unsigned a.1) 0x3F, a.2).

Lemma take_arrays_arrays arrays l : Forall array_fits arrays ->
  take_arrays (length arrays) (concat (hvcc_array <$> arrays) ++ l) = Some (typed <$> arrays, l).
Proof.
  induction 1 as [|[k units] arrays [Hn Hu] _ IH]; [done|].
  change (concat (hvcc_array <$> (k, units) :: arrays) ++ l)
    with ((hvcc_array (k, units) ++ concat (hvcc_array <$> arrays)) ++ l).
  rewrite <- app_assoc. cbn [length take_arrays]. rewrite take_array_array by done. simpl. by rewrite IH.
Qed.

(** The two reserved fields of ones. *)
Lemma length_size_bits n : 1 <= n <= 4 ->
  Z.land (byte.unsigned (byte.of_Z (0xFC + (n - 1)))) 0x03 + 1 = n.
Proof.
  intros Hn. assert (n = 1 \/ n = 2 \/ n = 3 \/ n = 4) as Hc by lia. by destruct Hc as [->|[->|[->| ->]]].
Qed.

Lemma set_count_bits n : 0 <= n < 32 -> Z.land (byte.unsigned (byte.of_Z (0xE0 + n))) 0x1F = n.
Proof.
  intros Hn. rewrite byte.unsigned_of_Z. unfold byte.wrap. rewrite Z.mod_small by lia.
  change 31 with (Z.ones 5). rewrite Z.land_ones by lia. change 0xE0 with (7 * 2 ^ 5).
  rewrite Z.add_comm, Z.mod_add by lia. by apply Z.mod_small.
Qed.

Lemma avcc_grammar_record p c v n sps spss pps ppss trailing :
  1 <= n <= 4 -> len (sps :: spss) < 32 -> len (pps :: ppss) < 256 ->
  Forall short (sps :: spss) -> Forall short (pps :: ppss) ->
  avcc_grammar (avcc_record p c v n (sps :: spss) (pps :: ppss) ++ trailing) = Some ([sps; pps], n).
Proof.
  intros Hn Hs Hp Fs Fp. unfold avcc_record. rewrite <- !app_assoc. unfold avcc_grammar.
  cbn [app]. rewrite set_count_bits, length_size_bits by lia.
  rewrite (proj2 (Z.eqb_neq (len (sps :: spss)) 0)) by (simpl; lia). simpl orb.
  change (negb (byte.unsigned Byte.x01 =? 1)) with false. cbv iota. rewrite Nat2Z.id.
  rewrite take_blobs_blobs by done. unfold mbind, option_bind. cbv beta iota.
  rewrite byte.unsigned_of_Z. unfold byte.wrap. change (2 ^ 8) with 256.
  rewrite (Z.mod_small (len (pps :: ppss))) by lia. by rewrite Nat2Z.id, take_blobs_blobs.
Qed.

Lemma hvcc_grammar_record header n arrays trailing :
  1 <= n <= 4 -> length header = 20%nat -> len arrays < 256 -> Forall array_fits arrays ->
  hvcc_grammar (hvcc_record header n arrays ++ trailing) =
    (vps ← first_unit 32 (typed <$> arrays); sps ← first_unit 33 (typed <$> arrays);
     pps ← first_unit 34 (typed <$> arrays); Some ([vps; sps; pps], n)).
Proof.
  intros Hn Hh Ha Hf. unfold hvcc_record. rewrite <- !app_assoc. unfold hvcc_grammar.
  set (rest := concat (hvcc_array <$> arrays) ++ trailing).
  assert (Hlk : forall (i : nat) b, [byte.of_Z (0xFC + (n - 1)); byte.of_Z (len arrays)] !! i = Some b ->
    ([Byte.x01] ++ header ++ [byte.of_Z (0xFC + (n - 1)); byte.of_Z (len arrays)] ++ rest) !! (21 + i)%nat
      = Some b).
  { intros i b Hi. simpl. rewrite lookup_app_r by lia. rewrite Hh.
    replace (20 + i - 20)%nat with i by lia. by destruct i as [|[|i]]. }
  destruct (Nat.ltb_spec (length ([Byte.x01] ++ header ++
    [byte.of_Z (0xFC + (n - 1)); byte.of_Z (len arrays)] ++ rest)) 23) as [Hl|_].
  { rewrite !length_app in Hl. simpl in Hl. lia. }
  pose proof (Hlk 0%nat _ eq_refl) as H21. pose proof (Hlk 1%nat _ eq_refl) as H22.
  simpl plus in H21, H22. rewrite H21, H22.
  change ([Byte.x01] ++ _) with (Byte.x01 :: (header ++
    [byte.of_Z (0xFC + (n - 1)); byte.of_Z (len arrays)] ++ rest)).
  cbn [lookup list_lookup from_option]. change (negb (byte.unsigned Byte.x01 =? 1)) with false. cbv iota.
  rewrite length_size_bits by done. rewrite byte.unsigned_of_Z. unfold byte.wrap. change (2 ^ 8) with 256.
  rewrite Z.mod_small, Nat2Z.id by lia.
  replace (drop 23 _) with rest.
  - unfold rest. by rewrite take_arrays_arrays.
  - change 23%nat with (S 22). cbn [drop]. rewrite drop_app_ge by lia. by rewrite Hh.
Qed.

(** C32: the parsers of configuration records are total and read the grammar: on
    every byte string, of any length a slice can have and in every build profile,
    the [avcC] and [hvcC] parsers return, without a panic, what reading the record
    from the front gives. *)
Theorem config_parsers_read_grammar `{!Profile} bytes (Hlen : len bytes <= ISIZE_MAX) :
  vtf_parse_avcc_config_record bytes = Val (avcc_grammar bytes) /\
  vtf_parse_hvcc_config_record bytes = Val (hvcc_grammar bytes).
Proof. split; [by apply avcc_record_eq|by apply hvcc_record_eq]. Qed.

Lemma config_parsers_read_grammar_witness :
  vtf_parse_avcc_config_record (H:=debug_build) [Byte.x01; Byte.x64] = Val None.
Proof.
  destruct (config_parsers_read_grammar (H:=debug_build) [Byte.x01; Byte.x64]) as [E _]; [done|].
  rewrite E. done.
Defined.

(** C33: configuration records round-trip: from a record written as the standard
    lays it out, with any number of parameter sets and whatever follows it, the
    parsers give back the first sequence and picture parameter set (for HEVC the
    first video parameter set too) and the size of the length prefix. *)
Theorem config_records_roundtrip `{!Profile} p c v n sps spss pps ppss header arrays trailing
    (Hn : 1 <= n <= 4) (Hs : len (sps :: spss) < 32) (Hp : len (pps :: ppss) < 256)
    (Fs : Forall short (sps :: spss)) (Fp : Forall short (pps :: ppss))
    (Hh : length header = 20%nat) (Ha : len arrays < 256) (Fa : Forall array_fits arrays)
    (Hl : len (avcc_record p c v n (sps :: spss) (pps :: ppss) ++ trailing) <= ISIZE_MAX)
    (Hl' : len (hvcc_record header n arrays ++ trailing) <= ISIZE_MAX) :
  vtf_parse_avcc_config_record (avcc_record p c v n (sps :: spss) (pps :: ppss) ++ trailing) =
    Val (Some ([sps; pps], n)) /\
  vtf_parse_hvcc_config_record (hvcc_record header n arrays ++ trailing) =
    Val (vps ← first_unit 32 (typed <$> arrays); sps ← first_unit 33 (typed <$> arrays);
         pps ← first_unit 34 (typed <$> arrays); Some ([vps; sps; pps], n)).
Proof.
  rewrite avcc_record_eq, hvcc_record_eq by done.
  by rewrite avcc_grammar_record, hvcc_grammar_record.
Qed.

Lemma config_records_roundtrip_witness :
  let sps := [Byte.x67; Byte.x64] in let pps := [Byte.x68] in
  let header := repeat Byte.x00 20 in
  let arrays := [(Byte.xa0, [[Byte.x40]]); (Byte.xa1, [[Byte.x42]; [Byte.x43]]); (Byte.xa2, [[Byte.x44]])] in
  vtf_parse_avcc_config_record (H:=debug_build)
    (avcc_record Byte.x64 Byte.x00 Byte.x1f 4 [sps] [pps] ++ [Byte.xfd]) = Val (Some ([sps; pps], 4)) /\
  vtf_parse_hvcc_config_record (H:=debug_build) (hvcc_record header 4 arrays ++ [Byte.xfd]) =
    Val (Some ([[Byte.x40]; [Byte.x42]; [Byte.x44]], 4)).
Proof.
  intros sps pps header arrays.
  apply (config_records_roundtrip (H:=debug_build) Byte.x64 Byte.x00 Byte.x1f 4 sps [] pps [] header arrays
    [Byte.xfd]); try done; repeat constructor; done.
Defined.

(** ** Splitting streams *)

(** The big-endian value of the bytes, after [acc]. *)
Definition be_value (acc : Z) (l : list byte) : Z := foldl (fun a b => a * 256 + byte.unsigned b) acc l.

Lemma be_value_range acc l : 0 <= acc ->
  0 <= be_value acc l < (acc + 1) * 256 ^ len l.
Proof.
  revert acc. induction l as [|b l IH]; intros acc Ha; [simpl; lia|].
  pose proof (byte_range b). unfold be_value in *. cbn [foldl length]. destruct (IH (acc * 256 + byte.unsigned b)) as [H1 H2]; [lia|].
  split; [done|]. rewrite Nat2Z.inj_succ, Z.pow_succ_r by lia.
  assert (0 < 256 ^ len l) by (apply Z.pow_pos_nonneg; lia). nia.
Qed.

Lemma lor_shift a b : 0 <= a -> 0 <= b < 256 -> Z.lor (Z.shiftl a 8) b = a * 256 + b.
Proof.
  intros Ha Hb. pose proof (Z.add_lor_land (Z.shiftl a 8) b) as E.
  assert (Z.land (Z.shiftl a 8) b = 0) as E0.
  { apply Z.bits_inj'. intros n Hn. rewrite Z.land_spec, Z.bits_0. destruct (Z.lt_ge_cases n 8).
    - rewrite Z.shiftl_spec_low by done. done.
    - assert (2 ^ 8 <= 2 ^ n) by (apply Z.pow_le_mono_r; lia).
      rewrite (Z.testbit_odd b), Z.shiftr_div_pow2, Z.div_small by lia. apply andb_false_r. }
  rewrite E0, Z.shiftl_mul_pow2 in E by lia. change (2 ^ 8) with 256 in E. rewrite Z.shiftl_mul_pow2 by lia.
  change (2 ^ 8) with 256. lia.
Qed.

Lemma prefix_value_eq n pre l acc : (n <= length l)%nat -> 0 <= acc -> (acc + 1) * 256 ^ Z.of_nat n <= 2 ^ 64 ->
  prefix_value n (pre ++ l) (len pre) acc = Val (be_value acc (take n l)).
Proof.
  revert pre l acc. induction n as [|n IH]; intros pre l acc Hn Ha Hacc; [by rewrite take_0|].
  destruct l as [|b l]; [simpl in Hn; lia|]. simpl. rewrite byte_at_app. simpl.
  pose proof (byte_range b). rewrite Nat2Z.inj_succ, Z.pow_succ_r in Hacc by lia.
  assert (0 < 256 ^ Z.of_nat n) by (apply Z.pow_pos_nonneg; lia).
  assert (wrap 64 (Z.shiftl acc 8) = Z.shiftl acc 8) as ->.
  { rewrite Z.shiftl_mul_pow2 by lia. unfold wrap. apply Z.mod_small. change (2 ^ 8) with 256. nia. }
  rewrite lor_shift by lia.
  replace (len pre + 1) with (len (pre ++ [b])) by (rewrite length_app; simpl; lia).
  change (b :: l) with ([b] ++ l). rewrite app_assoc. apply IH; [simpl in Hn; lia|lia|nia].
Qed.

Section split.
Context `{!Profile}.

(** A step of the loop, from the front of what is left. *)
Definition take_unit (n : nat) (l : list byte) : option (list byte * list byte) :=
  if decide (n <= length l)%nat then
    let size := Z.to_nat (be_value 0 (take n l)) in
    if decide (0 < size <= length l - n)%nat
    then Some (take size (drop n l), drop (n + size) l) else None
  else None.

Lemma split_units_step fuel pre l n : (1 <= n <= 4)%nat -> len (pre ++ l) <= ISIZE_MAX ->
  split_units (S fuel) (pre ++ l) n (len pre) =
    match take_unit n l with
    | None => Val (Some [])
    | Some (u, rest) =>
        units ← split_units fuel (pre ++ l) n (len (pre ++ l) - len rest);
        Val (match units with Some units => Some (u :: units) | None => None end)
    end.
Proof.
  intros Hn Hlen. rewrite length_app in Hlen. unfold ISIZE_MAX in Hlen. cbn [split_units]. unfold take_unit.
  rewrite (arith_in 64 (len pre + Z.of_nat n)) by lia. unfold mbind, rust_bind. cbv beta iota. rewrite length_app.
  destruct (decide (n <= length l)%nat) as [Hle|Hle].
  2: { by rewrite (proj2 (Z.gtb_lt _ _)) by lia. }
  destruct (Z.gtb_spec (len pre + Z.of_nat n) (Z.of_nat (length pre + length l))) as [|_]; [lia|].
  assert (0 <= be_value 0 (take n l) < 2 ^ 32) as Hv.
  { pose proof (be_value_range 0 (take n l)) as Hr. rewrite length_take, Nat.min_l in Hr by done.
    assert (256 ^ Z.of_nat n <= 256 ^ 4) by (apply Z.pow_le_mono_r; lia). lia. }
  rewrite prefix_value_eq; [|done|done|].
  2: { assert (256 ^ Z.of_nat n <= 256 ^ 4) by (apply Z.pow_le_mono_r; lia). lia. }
  cbv beta iota zeta. set (v := be_value 0 (take n l)) in *.
  destruct (Z.eqb_spec v 0) as [E0|E0]; [by rewrite decide_False by lia|].
  rewrite (arith_in 64 (len pre + Z.of_nat n + v)) by lia. cbv beta iota.
  destruct (Z.gtb_spec (len pre + Z.of_nat n + v) (Z.of_nat (length pre + length l))) as [Hgt|Hgt].
  { by rewrite decide_False by lia. }
  rewrite decide_True by lia. rewrite length_drop.
  replace (Z.of_nat (length pre + length l) - Z.of_nat (length l - (n + Z.to_nat v)))
    with (len pre + Z.of_nat n + v) by lia.
  destruct (split_units _ _ _ _) as [[units|]|]; [|done..]. do 3 f_equal.
  unfold slice. rewrite drop_app_ge by lia. do 2 f_equal. lia.
Qed.

Lemma take_unit_suffix n l u rest : take_unit n l = Some (u, rest) ->
  exists p, l = p ++ rest /\ (0 < length p)%nat /\ u <> [].
Proof.
  unfold take_unit. do 2 (case_decide; [|done]). intros [= <- <-].
  set (size := Z.to_nat _) in *. exists (take (n + size) l). rewrite take_drop. split_and!; [done| |].
  - rewrite length_take. lia.
  - intros E%(f_equal length). rewrite length_take, length_drop in E. simpl in E. lia.
Qed.

(** Whatever the data, the loop ends, without a panic. *)
Lemma split_units_total fuel pre l n : (1 <= n <= 4)%nat -> len (pre ++ l) <= ISIZE_MAX -> (length l < fuel)%nat ->
  exists units, split_units fuel (pre ++ l) n (len pre) = Val (Some units) /\ Forall (fun u => u <> []) units.
Proof.
  intros Hn. revert pre l. induction fuel as [|fuel IH]; intros pre l Hlen Hf; [lia|].
  rewrite split_units_step by done. destruct (take_unit n l) as [[u rest]|] eqn:E; [|by exists []].
  destruct (take_unit_suffix n l u rest E) as (p & -> & Hp & Hu). rewrite suffix_offset, app_assoc.
  destruct (IH (pre ++ p) rest) as (units & Eu & Hne).
  - by rewrite <- app_assoc.
  - rewrite length_app in Hf. lia.
  - exists (u :: units). rewrite Eu. simpl. split; [done|]. by constructor.
Qed.

Lemma split_total data n : len data <= ISIZE_MAX -> 0 <= n ->
  exists units, vtf_split_avcc_bitstream data n = Val (Some units) /\ Forall (fun u => u <> []) units.
Proof.
  intros Hlen Hn. unfold vtf_split_avcc_bitstream. destruct (Z.eqb_spec n 0) as [|H0]; [by exists []|].
  destruct (Z.gtb_spec n 4) as [|H4]; [by exists []|].
  apply (split_units_total (S (length data)) [] data); [lia|done|lia].
Qed.
End split.

(** A stream of units, each after its length on [n] bytes. *)
Fixpoint be_bytes (n : nat) (z : Z) : list byte :=
  match n with O => [] | S n => byte.of_Z (z / 256 ^ Z.of_nat n) :: be_bytes n z end.

Definition framed (n : nat) (units : list (list byte)) : list byte :=
  concat ((fun u => be_bytes n (len u) ++ u) <$> units).

Lemma length_be_bytes n z : length (be_bytes n z) = n.
Proof. induction n as [|n IH]; simpl; [done|]. by rewrite IH. Qed.

Lemma be_value_bytes n z acc : 0 <= z ->
  be_value acc (be_bytes n z) = acc * 256 ^ Z.of_nat n + z mod 256 ^ Z.of_nat n.
Proof.
  intros Hz. revert acc. induction n as [|n IH]; intros acc.
  - simpl. rewrite Z.mod_1_r. unfold be_value. simpl. lia.
  - unfold be_value in *. cbn [be_bytes foldl]. rewrite IH, byte.unsigned_of_Z. unfold byte.wrap.
    rewrite Nat2Z.inj_succ, Z.pow_succ_r by lia. change (2 ^ 8) with 256.
    assert (0 < 256 ^ Z.of_nat n) by (apply Z.pow_pos_nonneg; lia).
    rewrite (Z.mul_comm 256), Z.rem_mul_r by lia. lia.
Qed.

Lemma take_unit_frame n u rest : u <> [] -> len u < 256 ^ Z.of_nat n ->
  take_unit n (be_bytes n (len u) ++ u ++ rest) = Some (u, rest).
Proof.
  intros Hu Hl. unfold take_unit. rewrite !length_app, length_be_bytes.
  rewrite decide_True by lia. rewrite take_app_length' by (by rewrite length_be_bytes).
  rewrite be_value_bytes by lia. rewrite Z.mod_small, Z.mul_0_l, Z.add_0_l, Nat2Z.id by lia.
  assert (0 < length u)%nat by (destruct u; [done|simpl; lia]). rewrite decide_True by lia.
  rewrite drop_app_length' by (by rewrite length_be_bytes). rewrite take_app_length.
  rewrite <- drop_drop, drop_app_length' by (by rewrite length_be_bytes). by rewrite drop_app_length.
Qed.

(** Splitting undoes framing. *)
Theorem split_framed `{!Profile} n units : (1 <= n <= 4)%nat -> len (framed n units) <= ISIZE_MAX ->
  Forall (fun u => u <> [] /\ len u < 256 ^ Z.of_nat n) units ->
  vtf_split_avcc_bitstream (framed n units) (Z.of_nat n) = Val (Some units).
Proof.
  intros Hn Hlen Hu. unfold vtf_split_avcc_bitstream.
  rewrite (proj2 (Z.eqb_neq (Z.of_nat n) 0)), Z.gtb_ltb, (proj2 (Z.ltb_ge _ _)) by lia. simpl orb. cbv iota.
  rewrite Nat2Z.id.
  assert (Hgen : forall fuel pre, len (pre ++ framed n units) <= ISIZE_MAX ->
    (length (framed n units) < fuel)%nat ->
    split_units fuel (pre ++ framed n units) n (len pre) = Val (Some units)).
  { clear Hlen. induction Hu as [|u units [Hne Hs] _ IH]; intros fuel pre Hlen Hf.
    - destruct fuel; [simpl in Hf; lia|]. rewrite split_units_step by done. unfold take_unit.
      by rewrite decide_False by (simpl; lia).
    - destruct fuel; [lia|]. change (framed n (u :: units)) with ((be_bytes n (len u) ++ u) ++ framed n units) in *.
      rewrite <- app_assoc in *. rewrite split_units_step by done. rewrite take_unit_frame by done.
      assert (Hp : len (pre ++ be_bytes n (len u) ++ u ++ framed n units) - len (framed n units) =
        len (pre ++ be_bytes n (len u) ++ u)) by (rewrite !length_app; lia).
      rewrite Hp. rewrite !app_assoc in *. rewrite IH; [done| |].
      + by rewrite <- !app_assoc in *.
      + rewrite !length_app, length_be_bytes in Hf. lia. }
  apply (Hgen (S (length (framed n units))) []); [done|lia].
Qed.
