(* ===== verification/CoreMedia.v ===== *)
(** * Core Media of the guest

    [vt-ferry-shim/src/coremedia.rs]: times, block buffers, sample buffers and
    video format descriptions.  An out-parameter is whether it is given; what is
    written to it is part of the result.  Doubles are those of [SpecFloat]
    (binary64). *)

From S2P Require Import Prelude Wire Protocol Backend Transport Objects Release.
From S2P Require Import CoreFoundation Bitstream.
From Stdlib Require Import SpecFloat.
From stdpp Require Import strings.

Set Default Goal Selector "!".
Open Scope Z_scope.

#[export] Instance byte_eq_decision : EqDecision byte := Byte.byte_eq_dec.

Definition noErr : Z := 0.
Definition kCMFormatDescriptionError_InvalidParameter : Z := -12710.
Definition kCMSampleBufferError_RequiredParameterMissing : Z := -12731.
Definition kCMTimeFlags_Valid : Z := 1.
Definition kCMTimeFlags_Indefinite : Z := 16.
Definition VTF_ENCODE_OUTPUT_FLAG_SYNC : Z := 1.
Definition VTF_CM_MEDIA_TYPE_VIDEO : Z := 0x76696465.
Definition VTF_VIDEO_CODEC_H264 : Z := 0x61766331.
Definition VTF_VIDEO_CODEC_HEVC : Z := 0x68766331.

(** ** Times *)

Definition kCMTimeInvalid : CMTime := mk_CMTime 0 0 0 0.
Definition kCMTimeIndefinite : CMTime :=
  mk_CMTime 0 0 (Z.lor kCMTimeFlags_Valid kCMTimeFlags_Indefinite) 0.

Definition CMTimeMake (value timescale : Z) : CMTime :=
  if timescale =? 0 then kCMTimeInvalid else mk_CMTime value timescale kCMTimeFlags_Valid 0.

Definition is_cmtime_invalid (time : CMTime) : bool :=
  Z.land (cmt_flags time) kCMTimeFlags_Valid =? 0.

(** [value as f64] and [/] *)
Definition f64_of_int (z : Z) : spec_float := binary_normalize 53 1024 z 0 false.
Definition seconds (t : CMTime) : spec_float :=
  SFdiv 53 1024 (f64_of_int (cmt_value t)) (f64_of_int (cmt_timescale t)).

Definition CMTimeCompare (lhs rhs : CMTime) : Z :=
  if is_cmtime_invalid lhs && is_cmtime_invalid rhs then 0
  else if is_cmtime_invalid lhs then -1
  else if is_cmtime_invalid rhs then 1
  else if SFltb (seconds lhs) (seconds rhs) then -1
  else if SFltb (seconds rhs) (seconds lhs) then 1
  else 0.

Record CMSampleTimingInfo := mk_CMSampleTimingInfo {
  sti_duration : CMTime;
  sti_presentationTimeStamp : CMTime;
  sti_decodeTimeStamp : CMTime
}.

Record CMVideoDimensions := mk_CMVideoDimensions { cvd_width : Z; cvd_height : Z }.

Section coremedia.
Context {os : Type} `{!Net os} `{!Profile} (env : environ).
Abbreviation G := (G os).

(** ** Block buffers *)

(** [vec![0u8; n]]: a capacity overflow panics. *)
Definition zero_bytes (n : Z) : G (list byte) :=
  if n >? ISIZE_MAX then abort else mret (replicate (Z.to_nat n) Byte.x00).

Definition CMBlockBufferCreateWithMemoryBlock (memoryBlock : rawptr) (blockLength offsetToData dataLength : Z)
    (blockBufferOut : bool) : G (Z * option Z) :=
  if negb blockBufferOut || (offsetToData >? blockLength) || (dataLength >? blockLength - offsetToData)
  then mret (kCMFormatDescriptionError_InvalidParameter, None) else
  base ← vtf_cf_object_init VTF_TYPE_BLOCK_BUFFER (Some Finalize_block_buffer);
  bb ← new_object (mk_object base (BlockBuffer (mk_vtf_cm_block_buffer None dataLength true 0)));
  _ ← (if dataLength >? 0 then
         slice ← zero_bytes dataLength;
         slice ← (match memoryBlock with
                  | Some _ =>
                      bytes ← read_bytes (raw_add memoryBlock offsetToData) dataLength;
                      _ ← vtf_record_data_copy dataLength;
                      mret bytes
                  | None => mret slice
                  end);
         bytes ← box_bytes slice;
         b ← as_block_buffer bb;
         put_body bb (BlockBuffer (b <| bb_bytes := bytes |>))
       else mret tt);
  mret (noErr, Some bb).

Definition CMBlockBufferGetDataLength (buffer_ref : Z) : G Z :=
  if buffer_ref =? 0 then mret 0 else bb ← as_block_buffer buffer_ref; mret (bb_length bb).

(** [ptr.add(n)]; null stays null. *)
Definition vtf_copy_from_mmio (src dst : rawptr) (n : Z) : G unit :=
  bytes ← read_bytes src n;
  _ ← write_bytes dst bytes;
  vtf_record_data_copy n.

Definition CMBlockBufferCopyDataBytes (buffer_ref offsetToData dataLength : Z) (destination : rawptr) : G Z :=
  if (buffer_ref =? 0) || bool_decide (destination = None)
  then mret kCMFormatDescriptionError_InvalidParameter else
  bb ← as_block_buffer buffer_ref;
  if (offsetToData >? bb_length bb) || (dataLength >? bb_length bb - offsetToData)
  then mret kCMFormatDescriptionError_InvalidParameter else
  let source := raw_add (bb_bytes bb) offsetToData in
  _ ← (if negb (bb_owns_bytes bb) && negb (bb_output_id bb =? 0)
       then vtf_copy_from_mmio source destination dataLength
       else bytes ← read_bytes source dataLength;
            _ ← write_bytes destination bytes;
            vtf_record_data_copy dataLength);
  mret noErr.

(** The status, and what is written to [lengthAtOffsetOut], [totalLengthOut] and
    [dataPointerOut] where they are given. *)
Definition CMBlockBufferGetDataPointer (buffer_ref offset : Z)
    (lengthAtOffsetOut totalLengthOut dataPointerOut : bool)
    : G (Z * option Z * option Z * option rawptr) :=
  if buffer_ref =? 0 then mret (kCMFormatDescriptionError_InvalidParameter, None, None, None) else
  bb ← as_block_buffer buffer_ref;
  if offset >? bb_length bb then mret (kCMFormatDescriptionError_InvalidParameter, None, None, None) else
  let at_offset := if lengthAtOffsetOut then Some (bb_length bb - offset) else None in
  let total := if totalLengthOut then Some (bb_length bb) else None in
  if dataPointerOut then
    if negb (bb_owns_bytes bb) && negb (bb_output_id bb =? 0)
    then mret (kCMFormatDescriptionError_InvalidParameter, at_offset, total, None)
    else mret (noErr, at_offset, total, Some (raw_add (bb_bytes bb) offset))
  else mret (noErr, at_offset, total, None).

(** [bytes] is a slice of the caller. *)
Definition vtf_create_block_buffer_from_bytes (bytes : rawptr) (length : Z) : G Z :=
  '(status, out) ← CMBlockBufferCreateWithMemoryBlock bytes length 0 length true;
  mret (if negb (status =? noErr) then 0 else default 0 out).

Definition vtf_create_block_buffer_alias_from_bytes (bytes : rawptr) (length output_id : Z) : G Z :=
  base ← vtf_cf_object_init VTF_TYPE_BLOCK_BUFFER (Some Finalize_block_buffer);
  new_object (mk_object base (BlockBuffer (mk_vtf_cm_block_buffer bytes length false output_id))).

(** ** Sample buffers *)

(** The accessors: a default on null, else a field. *)
Definition sample_field {A} (d : A) (get : vtf_cm_sample_buffer -> A) (sampleBuffer_ref : Z) : G A :=
  if sampleBuffer_ref =? 0 then mret d else sb ← as_sample_buffer sampleBuffer_ref; mret (get sb).

Definition CMSampleBufferGetDataBuffer : Z -> G Z := sample_field 0 smp_data_buffer.
Definition CMSampleBufferGetFormatDescription : Z -> G Z := sample_field 0 smp_format_description.
Definition CMSampleBufferGetPresentationTimeStamp : Z -> G CMTime :=
  sample_field kCMTimeInvalid smp_presentation_timestamp.
Definition CMSampleBufferGetDecodeTimeStamp : Z -> G CMTime :=
  sample_field kCMTimeInvalid smp_decode_timestamp.
Definition CMSampleBufferGetSampleAttachmentsArray : Z -> G Z := sample_field 0 smp_attachments.
Definition CMSampleBufferGetTotalSampleSize : Z -> G Z := sample_field 0 smp_total_sample_size.

Definition kCMSampleAttachmentKey_NotSync : Z := symbol "kCMSampleAttachmentKey_NotSync".

Definition vtf_create_sample_buffer (data_buffer format_description : Z) (pts dts : CMTime)
    (total_sample_size sample_flags output_id source_image_buffer : Z) : G Z :=
  let not_sync_value :=
    if negb (Z.land sample_flags VTF_ENCODE_OUTPUT_FLAG_SYNC =? 0) then kCFBooleanFalse
    else kCFBooleanTrue in
  attachment ← CFDictionaryCreate (Some [kCMSampleAttachmentKey_NotSync]) (Some [not_sync_value]) 1;
  attachments ← CFArrayCreate (Some [attachment]) 1;
  _ ← CFRelease env attachment;
  base ← vtf_cf_object_init VTF_TYPE_SAMPLE_BUFFER (Some Finalize_sample_buffer);
  data_buffer ← CFRetain data_buffer;
  format_description ← CFRetain format_description;
  source_image_buffer ← CFRetain source_image_buffer;
  new_object (mk_object base (SampleBuffer
    (mk_vtf_cm_sample_buffer data_buffer format_description dts pts total_sample_size attachments
       source_image_buffer output_id))).

(** [sample_timing_array] and [sample_size_array] by their first entries. *)
Definition CMSampleBufferCreateReady (data_buffer format_description num_samples num_sample_timing_entries : Z)
    (sample_timing_array : option CMSampleTimingInfo) (num_sample_size_entries : Z)
    (sample_size_array : option Z) (sample_buffer_out : bool) : G (Z * option Z) :=
  if negb sample_buffer_out then mret (kCMSampleBufferError_RequiredParameterMissing, None) else
  if (data_buffer =? 0) || (format_description =? 0)
  then mret (kCMSampleBufferError_RequiredParameterMissing, Some 0) else
  if negb (num_samples =? 1) then mret (kCMSampleBufferError_RequiredParameterMissing, Some 0) else
  let timing := if num_sample_timing_entries >? 0 then sample_timing_array else None in
  let pts := from_option sti_presentationTimeStamp (mk_CMTime 0 0 0 0) timing in
  let dts := from_option sti_decodeTimeStamp (mk_CMTime 0 0 0 0) timing in
  total_sample_size ←
    (match (if num_sample_size_entries >? 0 then sample_size_array else None) with
     | Some size => mret size
     | None => block ← as_block_buffer data_buffer; mret (bb_length block)
     end);
  sample ← vtf_create_sample_buffer data_buffer format_description pts dts total_sample_size
             VTF_ENCODE_OUTPUT_FLAG_SYNC 0 0;
  mret (noErr, Some sample).

Definition CMSampleBufferCreate := CMSampleBufferCreateReady.

(** ** Format descriptions *)

Definition CMFormatDescriptionGetExtension (formatDescription : Z) : G Z :=
  if formatDescription =? 0 then mret 0
  else fd ← as_format_description formatDescription; mret (fd_extensions fd).

Definition CMFormatDescriptionGetMediaType (formatDescription : Z) : G Z :=
  mret (if formatDescription =? 0 then 0 else VTF_CM_MEDIA_TYPE_VIDEO).

Definition CMFormatDescriptionGetMediaSubType (formatDescription : Z) : G Z :=
  if formatDescription =? 0 then mret 0
  else fd ← as_format_description formatDescription; mret (fd_codec_type fd).

Definition CMVideoFormatDescriptionGetDimensions (videoDesc : Z) : G CMVideoDimensions :=
  if videoDesc =? 0 then mret (mk_CMVideoDimensions 0 0)
  else fd ← as_format_description videoDesc; mret (mk_CMVideoDimensions (fd_width fd) (fd_height fd)).

(** What the accessor writes to its out-parameters. *)
Record parameter_set_out := mk_parameter_set_out {
  pso_pointer : option rawptr;
  pso_size : option Z;
  pso_count : option Z;
  pso_nal_header_length : option Z
}.

Definition given {A} (out : bool) (a : A) : option A := if out then Some a else None.

(** [array[i]] of a fixed array: out of range panics. *)
Definition nth_or_abort {A} (l : list A) (i : Z) : G A :=
  match l !! Z.to_nat i with Some x => mret x | None => abort end.

Definition vtf_video_format_description_get_parameter_set_at_index (videoDesc expected_codec index : Z)
    (pointer_out size_out count_out nal_out : bool) : G (Z * parameter_set_out) :=
  if videoDesc =? 0
  then mret (kCMFormatDescriptionError_InvalidParameter, mk_parameter_set_out None None None None) else
  fd ← as_format_description videoDesc;
  if negb (fd_codec_type fd =? expected_codec)
  then mret (kCMFormatDescriptionError_InvalidParameter, mk_parameter_set_out None None None None) else
  let count := given count_out (fd_parameter_set_count fd) in
  let nal := given nal_out (fd_nal_header_length fd) in
  if index >=? fd_parameter_set_count fd
  then mret (kCMFormatDescriptionError_InvalidParameter,
             mk_parameter_set_out (given pointer_out None) (given size_out 0) count nal) else
  pointer ← (if pointer_out then p ← nth_or_abort (fd_parameter_sets fd) index; mret (Some p)
             else mret None);
  size ← (if size_out then n ← nth_or_abort (fd_parameter_set_sizes fd) index; mret (Some n)
          else mret None);
  mret (noErr, mk_parameter_set_out pointer size count nal).

Definition CMVideoFormatDescriptionGetH264ParameterSetAtIndex (videoDesc : Z) :=
  vtf_video_format_description_get_parameter_set_at_index videoDesc VTF_VIDEO_CODEC_H264.
Definition CMVideoFormatDescriptionGetHEVCParameterSetAtIndex (videoDesc : Z) :=
  vtf_video_format_description_get_parameter_set_at_index videoDesc VTF_VIDEO_CODEC_HEVC.

(** The fixed arrays, from the entries in use. *)
Definition pad4 {A} (d : A) (l : list A) : list A := take 4 (l ++ replicate 4 d).

(** The loop over the parameter sets: it ends early at an empty one or one past the
    end of the data. *)
Fixpoint store_parameter_sets (sizes : list Z) (offset : Z) (data : list byte)
    : G (list (rawptr * Z)) :=
  match sizes with
  | [] => mret []
  | size :: sizes =>
      if size =? 0 then mret [] else
      stop ← of_rust (arith 64 (offset + size));
      if stop >? len data then mret [] else
      p ← box_bytes (slice (Z.to_nat offset) (Z.to_nat size) data);
      rest ← store_parameter_sets sizes stop data;
      mret ((p, size) :: rest)
  end.

(** A size the table does not have counts as [0]. *)
Definition vtf_create_video_format_description (codec_type width height parameter_set_count : Z)
    (parameter_set_sizes : list Z) (parameter_set_data : list byte) (nal_header_length : Z) : G Z :=
  base ← vtf_cf_object_init VTF_TYPE_FORMAT_DESCRIPTION (Some Finalize_format_description);
  sets ← store_parameter_sets (take (Z.to_nat (Z.min parameter_set_count 4)) parameter_set_sizes) 0
           parameter_set_data;
  new_object (mk_object base (FormatDescription
    (mk_vtf_cm_format_description codec_type width height 0 nal_header_length (len sets)
       (pad4 0 sets.*2) (pad4 None sets.*1)))).

Definition vtf_create_h264_format_description (width height parameter_set_count : Z)
    (parameter_set_sizes : list Z) (parameter_set_data : list byte) (nal_header_length : Z) : G Z :=
  vtf_create_video_format_description VTF_VIDEO_CODEC_H264 width height parameter_set_count
    parameter_set_sizes parameter_set_data nal_header_length.

(** The first loop: the sizes, if all are in range. *)
Fixpoint parameter_set_sizes_of (index : list nat) (sizes : list Z) (total_bytes : Z)
    : G (option (list Z * Z)) :=
  match index with
  | [] => mret (Some ([], total_bytes))
  | i :: index =>
      size ← array_arg (Some sizes) i;
      if (size =? 0) || (size >? U32_MAX) then mret None else
      match checked 64 (total_bytes + size) with
      | None => mret None
      | Some total =>
          rest ← parameter_set_sizes_of index sizes total;
          mret (match rest with Some (l, t) => Some (size :: l, t) | None => None end)
      end
  end.

(** [*pointers.add(i)] *)
Definition pointer_arg (pointers : list rawptr) (i : nat) : G rawptr :=
  match pointers !! i with Some p => mret p | None => ub end.

(** The second: the bytes, one after another. *)
Fixpoint concatenate_sets (index : list nat) (pointers : list rawptr) (sizes : list Z)
    : G (option (list byte)) :=
  match index with
  | [] => mret (Some [])
  | i :: index =>
      size ← array_arg (Some sizes) i;
      src ← pointer_arg pointers i;
      if bool_decide (src = None) then mret None else
      bytes ← read_bytes src size;
      rest ← concatenate_sets index pointers sizes;
      mret (match rest with Some l => Some (bytes ++ l) | None => None end)
  end.

Definition vtf_format_description_from_parameter_sets (codec_type parameter_set_count : Z)
    (parameter_set_pointers : option (list rawptr)) (parameter_set_sizes_ptr : option (list Z))
    (nal_unit_header_length : Z) (format_description_out : bool) : G (Z * option Z) :=
  if negb format_description_out then mret (kCMFormatDescriptionError_InvalidParameter, None) else
  match parameter_set_pointers, parameter_set_sizes_ptr with
  | Some pointers, Some sizes =>
      if (parameter_set_count =? 0) || (parameter_set_count >? 4)
      then mret (kCMFormatDescriptionError_InvalidParameter, Some 0) else
      let index := seq 0 (Z.to_nat parameter_set_count) in
      sizes_u32 ← parameter_set_sizes_of index sizes 0;
      match sizes_u32 with
      | None => mret (kCMFormatDescriptionError_InvalidParameter, Some 0)
      | Some (sizes_u32, total_bytes) =>
          _ ← (if total_bytes >? ISIZE_MAX then abort else mret tt);
          concatenated ← concatenate_sets index pointers sizes;
          match concatenated with
          | None => mret (kCMFormatDescriptionError_InvalidParameter, Some 0)
          | Some concatenated =>
              fd ← vtf_create_video_format_description codec_type 0 0 parameter_set_count
                     (pad4 0 sizes_u32) concatenated nal_unit_header_length;
              mret (noErr, Some fd)
          end
      end
  | _, _ => mret (kCMFormatDescriptionError_InvalidParameter, Some 0)
  end.

Definition CMVideoFormatDescriptionCreateFromH264ParameterSets :=
  vtf_format_description_from_parameter_sets VTF_VIDEO_CODEC_H264.
Definition CMVideoFormatDescriptionCreateFromHEVCParameterSets :=
  vtf_format_description_from_parameter_sets VTF_VIDEO_CODEC_HEVC.

(** *** From an extensions dictionary *)

Definition atoms_key : Z := symbol "kCMFormatDescriptionExtension_SampleDescriptionExtensionAtoms".

(** The value of the first string key with these bytes. *)
Fixpoint find_atom (want_key : list byte) (keys : list Z) (i : nat) (values : list Z) : G Z :=
  match keys with
  | [] => mret 0
  | key :: keys =>
      if key =? 0 then find_atom want_key keys (S i) values else
      ty ← vtf_get_type_id key;
      if negb (ty =? VTF_TYPE_STRING) then find_atom want_key keys (S i) values else
      key_string ← as_string key;
      key_bytes ← read_bytes (cfs_bytes key_string) (cfs_length key_string);
      if bool_decide (key_bytes = want_key) then nth_or_abort values (Z.of_nat i)
      else find_atom want_key keys (S i) values
  end.

Definition vtf_extract_param_sets_from_extensions (extensions codec_type : Z)
    : G (option (list (list byte) * Z)) :=
  atoms ← CFDictionaryGetValue extensions atoms_key;
  if atoms =? 0 then mret None else
  let want_key :=
    if codec_type =? VTF_VIDEO_CODEC_H264 then Some (string_bytes "avcC")
    else if codec_type =? VTF_VIDEO_CODEC_HEVC then Some (string_bytes "hvcC")
    else None in
  match want_key with
  | None => mret None
  | Some want_key =>
      inner ← as_dictionary atoms;
      data_ref ← find_atom want_key (cfd_keys inner) 0 (cfd_values inner);
      ty ← vtf_get_type_id data_ref;
      if (data_ref =? 0) || negb (ty =? VTF_TYPE_DATA) then mret None else
      data ← as_data data_ref;
      if codec_type =? VTF_VIDEO_CODEC_H264
      then of_rust (vtf_parse_avcc_config_record (cfd_bytes data))
      else of_rust (vtf_parse_hvcc_config_record (cfd_bytes data))
  end.

Fixpoint box_all (blobs : list (list byte)) : G (list (rawptr * Z)) :=
  match blobs with
  | [] => mret []
  | b :: blobs => p ← box_bytes b; rest ← box_all blobs; mret ((p, len b) :: rest)
  end.

Definition CMVideoFormatDescriptionCreate (codec_type width height extensions : Z)
    (format_description_out : bool) : G (Z * option Z) :=
  if negb format_description_out then mret (kCMFormatDescriptionError_InvalidParameter, None) else
  extracted ← (if extensions =? 0 then mret None
               else vtf_extract_param_sets_from_extensions extensions codec_type);
  let '(param_blobs, nal_header_length) := default ([], 0) extracted in
  sets ← box_all (take 4 param_blobs);
  base ← vtf_cf_object_init VTF_TYPE_FORMAT_DESCRIPTION (Some Finalize_format_description);
  retained ← (if extensions =? 0 then mret 0 else CFRetain extensions);
  fd ← new_object (mk_object base (FormatDescription
         (mk_vtf_cm_format_description codec_type width height retained nal_header_length (len sets)
            (pad4 0 sets.*2) (pad4 None sets.*1))));
  mret (noErr, Some fd).
End coremedia.

(** Times are compared as doubles: two that differ in the 54th bit are equal. *)
Example times_beyond_double_precision :
  CMTimeCompare (CMTimeMake (2 ^ 53 + 1) 1) (CMTimeMake (2 ^ 53) 1) = 0.
Proof. by vm_compute. Qed.
