(* ===== verification/CoreVideo.v ===== *)
(** * Core Video of the guest

    [vt-ferry-shim/src/corevideo.rs]: pixel buffer pools, which stand for pools of
    the worker, the pixel buffers leased from them, their memory and planes, and
    their attachments.  An out-parameter is whether it is given; what is written to
    it is part of the result.  The pixels of a buffer are a block of the guest,
    allocated when they are first asked for. *)

From S2P Require Import Prelude Wire Protocol Backend Transport Objects Release.
From S2P Require Import CoreFoundation Bitstream CoreMedia.
From stdpp Require Import strings.

Set Default Goal Selector "!".
Open Scope Z_scope.

Definition kCVReturnSuccess : Z := 0.
Definition kCVReturnInvalidArgument : Z := -6661.
Definition kCVReturnError : Z := -6660.
Definition VTF_GUEST_POOL_DEFAULT_BUFFER_COUNT : Z := 4.

Section corevideo.
Context {os : Type} `{!Net os} `{!Profile} (env : environ).
Abbreviation G := (G os).

(** ** Pools *)

Definition read_pool_attribute_int (attrs key_ptr : Z) : G (option Z) :=
  if (attrs =? 0) || (key_ptr =? 0) then mret None else
  value ← CFDictionaryGetValue attrs key_ptr;
  if value =? 0 then mret None else
  '(ok, out) ← CFNumberGetValue value K_CF_NUMBER_SINT64_TYPE true;
  if negb (ok =? 0)
  then mret (Some (match out with Some (Out_i64 z) => z | _ => 0 end))
  else
    '(ok32, out32) ← CFNumberGetValue value K_CF_NUMBER_SINT32_TYPE true;
    mret (if negb (ok32 =? 0)
          then Some (match out32 with Some (Out_i32 z) => z | _ => 0 end) else None).

Definition kCVPixelBufferWidthKey : Z := symbol "kCVPixelBufferWidthKey".
Definition kCVPixelBufferHeightKey : Z := symbol "kCVPixelBufferHeightKey".
Definition kCVPixelBufferPixelFormatTypeKey : Z := symbol "kCVPixelBufferPixelFormatTypeKey".

Definition CVPixelBufferPoolCreate (pixelBufferAttributes : Z) (poolOut : bool) : G (Z * option Z) :=
  if negb (is_enabled env) then mret (kCVReturnError, None) else
  width_attr ← read_pool_attribute_int pixelBufferAttributes kCVPixelBufferWidthKey;
  height_attr ← read_pool_attribute_int pixelBufferAttributes kCVPixelBufferHeightKey;
  pf_attr ← read_pool_attribute_int pixelBufferAttributes kCVPixelBufferPixelFormatTypeKey;
  let payload :=
    {| cbp_session_id := 0;
       cbp_buffer_count := 0;
       cbp_pixel_format := wrap 32 (default 0x34323076 pf_attr);
       cbp_width := wrap 32 (default 640 width_attr);
       cbp_height := wrap 32 (default 360 height_attr);
       cbp_usage_flags := 0;
       cbp_padding := 0 |} in
  result ← transport_call (create_buffer_pool env payload);
  match result with
  | inl reply =>
      base ← vtf_cf_object_with_host_id VTF_TYPE_PIXEL_BUFFER_POOL (Some Finalize_pixel_buffer_pool)
               (cbr_pool_id reply) (cbr_pool_id reply) 1;
      pool ← new_object (mk_object base (PixelBufferPool
        {| pool_width := cbp_width payload;
           pool_height := cbp_height payload;
           pool_pixel_format := cbp_pixel_format payload;
           pool_host_backing_kind := VTF_HOST_BACKING_KIND_UNKNOWN;
           pool_slot_count := cbr_slot_count reply;
           pool_buffer_region_size := cbr_buffer_region_size reply;
           pool_layout := cbr_layout reply;
           pool_owner_session := 0;
           pool_pixel_buffer_attributes := 0 |}));
      mret (kCVReturnSuccess, given poolOut pool)
  | inr _ => mret (kCVReturnError, None)
  end.

Definition vtf_requested_pool_buffer_count : Z :=
  match env "VT_FERRY_GUEST_POOL_BUFFER_COUNT" with
  | Some value =>
      match parse_unsigned 32 value with
      | Some parsed => Z.max 1 (Z.min parsed VTF_TRANSPORT_MAX_POOL_SLOTS)
      | None => VTF_GUEST_POOL_DEFAULT_BUFFER_COUNT
      end
  | None => VTF_GUEST_POOL_DEFAULT_BUFFER_COUNT
  end.

(** [inr] is [Err]. *)
Definition vtf_create_pixel_buffer_pool_for_session
    (session session_id width height pixel_format pixel_buffer_attributes : Z) : G (Z + Z) :=
  if negb (is_enabled env) then mret (inr kCVReturnError) else
  let payload :=
    {| cbp_session_id := session_id;
       cbp_buffer_count := vtf_requested_pool_buffer_count;
       cbp_pixel_format := pixel_format;
       cbp_width := width;
       cbp_height := height;
       cbp_usage_flags := 0;
       cbp_padding := 0 |} in
  result ← transport_call (create_buffer_pool env payload);
  match result with
  | inr _ => mret (inr kCVReturnError)
  | inl reply =>
      retained_attributes ← CFRetain pixel_buffer_attributes;
      base ← vtf_cf_object_with_host_id VTF_TYPE_PIXEL_BUFFER_POOL (Some Finalize_pixel_buffer_pool)
               (cbr_pool_id reply) (cbr_pool_id reply) 1;
      pool ← new_object (mk_object base (PixelBufferPool
        {| pool_width := width;
           pool_height := height;
           pool_pixel_format := pixel_format;
           pool_host_backing_kind := cbr_host_backing_kind reply;
           pool_slot_count := cbr_slot_count reply;
           pool_buffer_region_size := cbr_buffer_region_size reply;
           pool_layout := cbr_layout reply;
           pool_owner_session := session;
           pool_pixel_buffer_attributes := retained_attributes |}));
      mret (inl pool)
  end.

Definition CVPixelBufferPoolRelease (pool : Z) : G unit :=
  if negb (pool =? 0) then CFRelease env pool else mret tt.

Definition CVPixelBufferPoolGetPixelBufferAttributes (pool : Z) : G Z :=
  if pool =? 0 then mret 0
  else pool ← as_pixel_buffer_pool pool; CFRetain (pool_pixel_buffer_attributes pool).

(** ** Pixel buffers *)

(** The entries of the planes in use, the others [0]. *)
Definition plane_table (layout : BufferLayoutReply) (entries : list Z) : list Z :=
  pad4 0 (take (Z.to_nat (Z.min (bl_plane_count layout) 4)) entries).

(** What a lease from [pool] makes. *)
Definition leased_pixel_buffer (pool : Z) (header : vtf_cf_object) (p : vtf_cv_pixel_buffer_pool)
    (lease : PoolBufferLeaseReply) (layout : BufferLayoutReply) : vtf_cv_pixel_buffer :=
  {| px_pool_ref := pool;
     px_pool_host_id := cf_host_id header;
     px_host_generation := pl_generation lease;
     px_host_backing_kind := pl_host_backing_kind lease;
     px_recycled := false;
     px_cache_valid := false;
     px_backing_store_owned := false;
     px_mapped_backing_active := false;
     px_state := 0;
     px_slot_index := pl_slot_index lease;
     px_slot_offset := pl_slot_offset lease;
     px_slot_region_size := bl_total_size layout;
     px_lock_flags := 0;
     px_lock_snapshot := None;
     px_lock_snapshot_size := 0;
     px_backing_store := None;
     px_backing_store_size := 0;
     px_mapped_region_base := None;
     px_mapped_region_size := 0;
     px_total_size := bl_total_size layout;
     px_width := pool_width p;
     px_height := pool_height p;
     px_pixel_format := pool_pixel_format p;
     px_plane_count := bl_plane_count layout;
     px_plane_offsets := plane_table layout (bl_plane_offsets layout);
     px_plane_widths := plane_table layout (bl_plane_widths layout);
     px_plane_heights := plane_table layout (bl_plane_heights layout);
     px_plane_bytes_per_row := plane_table layout (bl_plane_bytes_per_row layout);
     px_plane_data := replicate 4 None;
     px_attachments := 0;
     px_locked := false |}.

Definition vtf_create_pixel_buffer_from_lease (pool : Z) (lease : PoolBufferLeaseReply)
    (layout : BufferLayoutReply) (require_mapped_backing : bool) : G Z :=
  if require_mapped_backing then mret 0 else
  base ← vtf_cf_object_with_host_id VTF_TYPE_PIXEL_BUFFER (Some Finalize_pixel_buffer)
           (pl_buffer_id lease) (pl_buffer_id lease) (pl_generation lease);
  pool_ref ← CFRetain pool;
  o ← get_object pool;
  p ← as_pixel_buffer_pool pool;
  new_object (mk_object base (PixelBuffer (leased_pixel_buffer pool_ref (ob_base o) p lease layout))).

Definition CVPixelBufferPoolCreatePixelBuffer (pixelBufferPool : Z) (pixelBufferOut : bool)
    : G (Z * option Z) :=
  if (pixelBufferPool =? 0) || negb pixelBufferOut then mret (kCVReturnError, None) else
  o ← get_object pixelBufferPool;
  _ ← as_pixel_buffer_pool pixelBufferPool;
  result ← transport_call (send_request env AllocBufferReply OP_ALLOC_BUFFER
             (mk_AllocBufferPayload (cf_proxy_id (ob_base o))));
  match result with
  | inl reply =>
      let lease :=
        {| pl_buffer_id := abr_buffer_id reply;
           pl_generation := abr_generation reply;
           pl_slot_index := abr_slot_index reply;
           pl_slot_offset := abr_slot_offset reply;
           pl_host_backing_kind := abr_host_backing_kind reply;
           pl_flags := 0 |} in
      buffer ← vtf_create_pixel_buffer_from_lease pixelBufferPool lease (abr_layout reply) false;
      mret (if buffer =? 0 then (kCVReturnError, None) else (kCVReturnSuccess, Some buffer))
  | inr _ => mret (kCVReturnError, None)
  end.

Definition CVPixelBufferRelease (buffer : Z) : G unit :=
  if negb (buffer =? 0) then CFRelease env buffer else mret tt.

Definition CVPixelBufferRetain (buffer : Z) : G Z := CFRetain buffer.

Definition vtf_is_planar_pixel_format (pixel_format : Z) : bool :=
  bool_decide (pixel_format ∈ ([0x34323076; 0x34323066; 0x79343230; 0x66343230; 0x78343230;
                                0x78663230; 0x34323276; 0x34343476] : list Z)).

(** *** Memory *)

(** [base.add(n)] inside an allocation or at its end, undefined outside;
    [base.add(0)] is [base], whatever it is. *)
Definition add_within (base : rawptr) (n : Z) : G rawptr := fun w =>
  if n =? 0 then Done (base, w) else
  match base with
  | Some (b, off) =>
      match gs_blocks w !! b with
      | Some bs => if (0 <=? off + n) && (off + n <=? len bs)
                   then Done (Some (b, off + n), w) else UB
      | None => UB
      end
  | None => UB
  end.

(** One iteration of the loops that set [plane_data]. *)
Definition point_plane (buffer : Z) (base : rawptr) (plane : nat) : G unit :=
  b ← as_pixel_buffer buffer;
  offset ← nth_or_abort (px_plane_offsets b) (Z.of_nat plane);
  p ← add_within base offset;
  put_body buffer (PixelBuffer (b <| px_plane_data ::= (fun l : list rawptr => <[plane := p]> l) |>)).

Definition planes_in_use (b : vtf_cv_pixel_buffer) : list nat :=
  seq 0 (Z.to_nat (Z.min (px_plane_count b) 4)).

Definition vtf_ensure_backing_store (buffer : Z) : G bool :=
  b ← as_pixel_buffer buffer;
  if px_mapped_backing_active b && bool_decide (is_Some (px_mapped_region_base b)) then
    let base := px_mapped_region_base b in
    _ ← put_body buffer (PixelBuffer (b <| px_backing_store := base |>
                                        <| px_backing_store_size := Z.max (px_total_size b) 1 |>));
    _ ← for_each (point_plane buffer base) (planes_in_use b);
    mret true
  else if bool_decide (is_Some (px_backing_store b)) then mret true
  else
    let size := Z.max (px_total_size b) 1 in
    storage ← zero_bytes size;
    base ← box_bytes storage;
    _ ← put_body buffer (PixelBuffer (b <| px_backing_store := base |>
                                        <| px_backing_store_size := size |>
                                        <| px_backing_store_owned := true |>));
    _ ← for_each (point_plane buffer base) (planes_in_use b);
    mret true.

Definition CVPixelBufferLockBaseAddress (pixelBuffer flags : Z) : G Z :=
  if pixelBuffer =? 0 then mret kCVReturnInvalidArgument else
  ok ← vtf_ensure_backing_store pixelBuffer;
  if negb ok then mret kCVReturnError else
  b ← as_pixel_buffer pixelBuffer;
  _ ← put_body pixelBuffer (PixelBuffer (b <| px_lock_flags := flags |> <| px_locked := true |>));
  mret kCVReturnSuccess.

Definition CVPixelBufferUnlockBaseAddress (pixelBuffer : Z) : G Z :=
  if pixelBuffer =? 0 then mret kCVReturnInvalidArgument else
  b ← as_pixel_buffer pixelBuffer;
  _ ← put_body pixelBuffer (PixelBuffer (b <| px_locked := false |>));
  mret kCVReturnSuccess.

Definition CVPixelBufferGetBaseAddress (pixelBuffer : Z) : G rawptr :=
  if pixelBuffer =? 0 then mret None else
  ok ← vtf_ensure_backing_store pixelBuffer;
  if negb ok then mret None else
  b ← as_pixel_buffer pixelBuffer; mret (px_backing_store b).

Definition CVPixelBufferGetBaseAddressOfPlane (pixelBuffer planeIndex : Z) : G rawptr :=
  if pixelBuffer =? 0 then mret None else
  b ← as_pixel_buffer pixelBuffer;
  if planeIndex >=? Z.min (px_plane_count b) 4 then mret None else
  ok ← vtf_ensure_backing_store pixelBuffer;
  if negb ok then mret None else
  b ← as_pixel_buffer pixelBuffer; nth_or_abort (px_plane_data b) planeIndex.

(** *** Geometry *)

(** The accessors: a default on null, else a field. *)
Definition pixel_field {A} (d : A) (get : vtf_cv_pixel_buffer -> A) (pixelBuffer : Z) : G A :=
  if pixelBuffer =? 0 then mret d else b ← as_pixel_buffer pixelBuffer; mret (get b).

Definition CVPixelBufferGetBytesPerRow (pixelBuffer : Z) : G Z :=
  if pixelBuffer =? 0 then mret 0 else
  b ← as_pixel_buffer pixelBuffer;
  if px_plane_count b =? 0 then mret 0 else nth_or_abort (px_plane_bytes_per_row b) 0.

Definition CVPixelBufferGetBytesPerRowOfPlane (pixelBuffer planeIndex : Z) : G Z :=
  if pixelBuffer =? 0 then mret 0 else
  b ← as_pixel_buffer pixelBuffer;
  if planeIndex >=? Z.min (px_plane_count b) 4 then mret 0
  else nth_or_abort (px_plane_bytes_per_row b) planeIndex.

Definition CVPixelBufferGetWidth : Z -> G Z := pixel_field 0 px_width.
Definition CVPixelBufferGetHeight : Z -> G Z := pixel_field 0 px_height.
Definition CVPixelBufferGetPixelFormatType : Z -> G Z := pixel_field 0 px_pixel_format.
Definition CVPixelBufferGetPlaneCount : Z -> G Z := pixel_field 0 px_plane_count.
Definition CVPixelBufferIsPlanar : Z -> G bool :=
  pixel_field false (fun b => (px_plane_count b >? 1) || vtf_is_planar_pixel_format (px_pixel_format b)).

(** ** Attachments *)

Definition vtf_attachment_dictionary (buffer : Z) : G Z :=
  b ← as_pixel_buffer buffer;
  _ ← (if px_attachments b =? 0
       then attachments ← CFDictionaryCreateMutable 0;
            b ← as_pixel_buffer buffer;
            put_body buffer (PixelBuffer (b <| px_attachments := attachments |>))
       else mret tt);
  b ← as_pixel_buffer buffer;
  mret (px_attachments b).

Definition CVBufferSetAttachment (buffer key value : Z) : G unit :=
  if (buffer =? 0) || (key =? 0) then mret tt else
  dict ← vtf_attachment_dictionary buffer;
  CFDictionarySetValue env dict key value.

Definition CVBufferRemoveAttachment (buffer key : Z) : G unit :=
  if (buffer =? 0) || (key =? 0) then mret tt else
  b ← as_pixel_buffer buffer;
  if px_attachments b =? 0 then mret tt else
  let dict := px_attachments b in
  d ← as_dictionary dict;
  match position (fun existing => existing =? key) (cfd_keys d) with
  | None => mret tt
  | Some index =>
      key_value ← nth_or_abort (cfd_keys d) (Z.of_nat index);
      value ← nth_or_abort (cfd_values d) (Z.of_nat index);
      _ ← put_body dict (Dictionary (mk_vtf_cf_dictionary (delete index (cfd_keys d))
                                                          (delete index (cfd_values d))));
      _ ← CFRelease env key_value;
      CFRelease env value
  end.

Definition CVBufferGetAttachments (buffer : Z) : G Z :=
  if buffer =? 0 then mret 0 else
  b ← as_pixel_buffer buffer;
  if px_attachments b =? 0 then mret 0 else CFRetain (px_attachments b).

Definition CVBufferCopyAttachments (buffer : Z) : G Z :=
  if buffer =? 0 then mret 0 else
  b ← as_pixel_buffer buffer;
  if px_attachments b =? 0 then mret 0 else CFDictionaryCreateCopy (px_attachments b).
End corevideo.
