(* ===== verification/Pixels.v ===== *)
(** * Pixel buffers

    What the calls of Core Video do to the references and the memory of the guest:
    a pixel buffer leased from a pool keeps the pool, its pixels are one block of
    its own, allocated when they are first asked for, and every plane lies inside
    it. *)

From S2P Require Import Prelude Wire Protocol Layout Backend Transport Objects Release Refcount.
From S2P Require Import ReleaseSafe CoreFoundation Ownership Access Bitstream CoreMedia CoreVideo.
From stdpp Require Import strings gmultiset fin_maps.

Set Default Goal Selector "!".
Open Scope Z_scope.

Section pixels.
Context {os : Type} `{!Net os} `{!Profile} (env : environ).
Implicit Types (w : guest os) (C : gmap Z (gmultiset Z)) (own m : gmultiset Z) (X : gset Z).
Abbreviation pan := (overflow_checks = true).

(** ** Changing an object in place *)

(** Object [p] has body [b], and no other object has changed. *)
Record changed (p : Z) (b : object_body) own w w' : Prop := {
  ch_counted : counted own w';
  ch_gap : alive_gap w' = alive_gap w;
  ch_body : ob_body <$> gs_heap w' !! p = Some b;
  ch_others : forall q, q <> p -> gs_heap w' !! q = gs_heap w !! q;
  ch_blocks : gs_blocks w ⊆ gs_blocks w'
}.

Lemma changed_refl p b own w : counted own w -> ob_body <$> gs_heap w !! p = Some b ->
  changed p b own w w.
Proof. by split. Qed.

Lemma changed_trans p b b' own w w1 w2 :
  changed p b own w w1 -> changed p b' own w1 w2 -> changed p b' own w w2.
Proof.
  intros [A1 A2 A3 A4 A5] [B1 B2 B3 B4 B5]. split; [done|congruence|done| |by etrans].
  intros q Hq. by rewrite B4, A4.
Qed.

Lemma counted_rebodied own w p o b :
  counted own w -> gs_heap w !! p = Some o -> ~ is_static o ->
  type_of b = type_of (ob_body o) -> finalizer_of b = finalizer_of (ob_body o) ->
  body_fields b = body_fields (ob_body o) -> typed_fields b = typed_fields (ob_body o) ->
  body_ok b -> Forall (fun '(p, n) => boxed p n) (body_boxes b) -> NoDup (body_blocks b).*1 ->
  blocks_from w o (set_body b o) -> counted own (rebodied p b w).
Proof.
  intros Hw Ho Hs Et Ef Efl Ety Hb Hbx Hnd Hbl. pose proof (ho_object _ _ _ _ Hw p o Ho) as Hok.
  unfold rebodied. rewrite (heap_upd_ext (alter (set_body b) p) (insert p (set_body b o)))
    by (by apply alter_present).
  eapply counted_settle.
  - eapply heap_ok_put_blocks; [exact Hw|exact Ho|done| |done|done|done].
    destruct Hok as [H1 H2 H3 H4 H5 H6]. split; simpl; rewrite ?Et, ?Ef; try done.
  - simpl. rewrite dom_insert, dom_credits. assert (p ∈ dom (gs_heap w)) by (apply elem_of_dom; eauto).
    set_solver.
Qed.

(** An object takes over references of the running code, or gives some back. *)
Lemma rebodied_settle C own w p o b :
  heap_ok {[p]} C own w -> gs_heap w !! p = Some o -> dom (gs_heap w) ⊆ dom C ->
  C !! p = Some (refs_of (body_fields b)) -> object_ok (set_body b o) ->
  body_blocks b = body_blocks (ob_body o) -> type_of b = type_of (ob_body o) ->
  (forall q k, (q, k) ∈ typed_fields b -> q <> 0 ->
     exists o', gs_heap w !! q = Some o' /\ type_of (ob_body o') = k) ->
  counted own (rebodied p b w).
Proof.
  intros Hw Ho Hd HC Hok Hbl Et Hty. unfold rebodied.
  rewrite (heap_upd_ext (alter (set_body b) p) (insert p (set_body b o))) by (by apply alter_present).
  eapply counted_settle; [eapply (heap_ok_settle ∅ _ _ _ p (set_body b o))|].
  - rewrite union_empty_r_L. eapply heap_ok_put; [exact Hw|exact Ho|done|done|done|done|set_solver].
  - simpl. apply lookup_insert_eq.
  - done.
  - simpl. intros q k Hq Hq0. destruct (Hty q k Hq Hq0) as (o' & Ho' & Hk).
    destruct (decide (q = p)) as [->|Hne]; [|exists o'; by rewrite lookup_insert_ne].
    exists (set_body b o). rewrite lookup_insert_eq. split; [done|]. simplify_eq. done.
  - simpl. rewrite dom_insert. assert (p ∈ dom C) by (apply elem_of_dom; eauto). set_solver.
Qed.

Lemma counted_give own m w p o b :
  counted (m ⊎ own) w -> gs_heap w !! p = Some o -> object_ok (set_body b o) ->
  body_blocks b = body_blocks (ob_body o) -> type_of b = type_of (ob_body o) ->
  refs_of (body_fields b) = m ⊎ refs_of (body_fields (ob_body o)) ->
  (forall q k, (q, k) ∈ typed_fields b -> q <> 0 ->
     exists o', gs_heap w !! q = Some o' /\ type_of (ob_body o') = k) ->
  counted own (rebodied p b w).
Proof.
  intros Hw Ho Hok Hbl Et Er Hty.
  assert (credits (gs_heap w) !! p = Some (refs_of (body_fields (ob_body o)))) as HC
    by (by rewrite credits_lookup, Ho).
  pose proof (heap_ok_give _ _ _ _ _ _ _ Hw HC) as Hg. rewrite union_empty_r_L in Hg.
  eapply rebodied_settle; [exact Hg|exact Ho| | |done..].
  - rewrite dom_insert, dom_credits. set_solver.
  - by rewrite lookup_insert_eq, Er.
Qed.

Lemma counted_take own m w p o b :
  counted own w -> gs_heap w !! p = Some o -> object_ok (set_body b o) ->
  body_blocks b = body_blocks (ob_body o) -> type_of b = type_of (ob_body o) ->
  refs_of (body_fields (ob_body o)) = m ⊎ refs_of (body_fields b) ->
  (forall q k, (q, k) ∈ typed_fields b -> q <> 0 ->
     exists o', gs_heap w !! q = Some o' /\ type_of (ob_body o') = k) ->
  counted (m ⊎ own) (rebodied p b w).
Proof.
  intros Hw Ho Hok Hbl Et Er Hty.
  assert (credits (gs_heap w) !! p = Some (m ⊎ refs_of (body_fields b))) as HC
    by (by rewrite credits_lookup, Ho, <- Er).
  pose proof (heap_ok_take _ _ _ _ _ _ _ Hw HC) as Hg. rewrite union_empty_r_L in Hg.
  eapply rebodied_settle; [exact Hg|exact Ho| | |done..].
  - rewrite dom_insert, dom_credits. set_solver.
  - by rewrite lookup_insert_eq.
Qed.

(** The typed fields of an object that is in the heap. *)
Lemma typed_live own w p o q k : counted own w -> gs_heap w !! p = Some o ->
  (q, k) ∈ typed_fields (ob_body o) -> q <> 0 ->
  exists o', gs_heap w !! q = Some o' /\ type_of (ob_body o') = k.
Proof.
  intros Hw Ho Hq Hq0. assert (credits (gs_heap w) !! p = Some (refs_of (body_fields (ob_body o)))) as HC
    by (by rewrite credits_lookup, Ho).
  destruct (ho_fields _ _ _ _ Hw p _ o HC Ho ltac:(set_solver)) as [_ Ht]. by apply Ht.
Qed.

Lemma pixel_not_static o b : object_ok o -> ob_body o = PixelBuffer b -> ~ is_static o.
Proof. intros Ho E [Hs|Hs]%(oo_static _ Ho); by rewrite E in Hs. Qed.

Lemma rebodied_others p b w q : q <> p -> gs_heap (rebodied p b w) !! q = gs_heap w !! q.
Proof. intros Hq. unfold rebodied. simpl. by rewrite lookup_alter_ne. Qed.

Lemma rebodied_changed own w0 w p o b :
  counted own (rebodied p b w) -> gs_heap w !! p = Some o -> gs_heap w = gs_heap w0 ->
  gs_alive w = gs_alive w0 -> gs_blocks w0 ⊆ gs_blocks w -> changed p b own w0 (rebodied p b w).
Proof.
  intros Hc Ho Eh Ea Eb. split; [done| | | |done].
  - rewrite rebodied_gap. unfold alive_gap. by rewrite Eh, Ea.
  - by rewrite (rebodied_lookup p b w o Ho).
  - intros q Hq. by rewrite rebodied_others, Eh.
Qed.

(** A pixel buffer keeps its references, its memory and its planes. *)
Lemma set_pixel_ok own w p b b' :
  counted own w -> ob_body <$> gs_heap w !! p = Some (PixelBuffer b) ->
  pixel_view b' = pixel_view b -> px_lock_snapshot b' = px_lock_snapshot b ->
  px_lock_snapshot_size b' = px_lock_snapshot_size b ->
  px_pool_ref b' = px_pool_ref b -> px_attachments b' = px_attachments b ->
  put_body p (PixelBuffer b') w = Done (tt, rebodied p (PixelBuffer b') w) /\
  changed p (PixelBuffer b') own w (rebodied p (PixelBuffer b') w).
Proof.
  intros Hw (o & Ho & Eo)%fmap_body Ev El En Ep Ea. pose proof (ho_object _ _ _ _ Hw p o Ho) as Hok.
  split; [apply put_body_eq; eauto|]. eapply rebodied_changed; [|exact Ho|done..].
  assert (body_boxes (PixelBuffer b') = body_boxes (ob_body o)) as Ebx.
  { rewrite Eo. simpl. injection Ev as _ -> -> -> _ _ _ _ _ _. by rewrite El, En. }
  assert (body_blocks (PixelBuffer b') = body_blocks (ob_body o)) as Ebl
    by (unfold body_blocks; by rewrite Ebx).
  destruct Hok as [H1 H2 H3 H4 H5 H6] eqn:Eok. clear Eok.
  apply counted_rebodied with o; rewrite ?Ebl, ?Ebx; try done; rewrite ?Eo; simpl; try done.
  - by eapply pixel_not_static.
  - by rewrite Ep, Ea.
  - by rewrite Ep, Ea.
  - rewrite Eo in H6. by apply (pixel_ok_view b).
  - intros x n Hx. left. simpl in Hx. by rewrite Ebl in Hx.
Qed.

(** ** The pixels *)

Lemma add_within_run w blk bs off : gs_blocks w !! blk = Some bs -> 0 <= off <= len bs ->
  add_within (os:=os) (Some (blk, 0)) off w = Done (Some (blk, off), w).
Proof.
  intros Hb Ho. unfold add_within. rewrite Hb, Z.add_0_l. destruct (Z.eqb_spec off 0) as [->|]; [done|].
  by destruct (Z.leb_spec 0 off), (Z.leb_spec off (len bs)); try lia.
Qed.

Definition plane_at (b : vtf_cv_pixel_buffer) (i : nat) : Z := default 0 (px_plane_offsets b !! i).

(** [plane_data] after the loop over [planes]. *)
Definition pointed (b : vtf_cv_pixel_buffer) (blk : Z) (planes : list nat) (data : list rawptr) : list rawptr :=
  foldl (fun data i => <[i := Some (blk, plane_at b i)]> data) data planes.

Lemma point_planes_run p blk bs planes b w o :
  gs_heap w !! p = Some o -> gs_blocks w !! blk = Some bs ->
  Forall (fun i => is_Some (px_plane_offsets b !! i) /\ 0 <= plane_at b i <= len bs) planes ->
  for_each (point_plane p (Some (blk, 0))) planes (rebodied p (PixelBuffer b) w) =
    Done (tt, rebodied p (PixelBuffer (b <| px_plane_data ::= pointed b blk planes |>)) w).
Proof.
  intros Ho Hb. revert b. induction planes as [|i planes IH]; intros b Hp; simpl.
  { by destruct b. }
  apply list.Forall_cons in Hp as [[[off Hoff] Hr] Hp].
  assert (plane_at b i = off) as Eo by (unfold plane_at; by rewrite Hoff). rewrite Eo in Hr.
  set (b1 := b <| px_plane_data ::= (fun l : list rawptr => <[i := Some (blk, off)]> l) |>).
  assert (point_plane p (Some (blk, 0)) i (rebodied p (PixelBuffer b) w) =
    Done (tt, rebodied p (PixelBuffer b1) w)) as E1.
  { unfold point_plane. pose proof (rebodied_lookup p (PixelBuffer b) w o Ho) as Ho1.
    assert (as_pixel_buffer p (rebodied p (PixelBuffer b) w) = Done (b, rebodied p (PixelBuffer b) w))
      as Ea by read_body.
    rewrite (bind_eq _ _ _ _ _ Ea).
    assert (nth_or_abort (px_plane_offsets b) (Z.of_nat i) (rebodied p (PixelBuffer b) w) =
      Done (off, rebodied p (PixelBuffer b) w)) as En
      by (unfold nth_or_abort; by rewrite Nat2Z.id, Hoff).
    rewrite (bind_eq _ _ _ _ _ En).
    rewrite (bind_eq _ _ _ _ _ (add_within_run (rebodied p (PixelBuffer b) w) blk bs off Hb Hr)).
    rewrite put_body_eq by eauto. by rewrite rebodied_rebodied. }
  rewrite (bind_eq _ _ _ _ _ E1), (IH b1) by exact Hp.
  unfold b1. do 4 f_equal. destruct b. simpl. unfold pointed. simpl. by rewrite Eo.
Qed.

Lemma pointed_length b blk planes data : length (pointed b blk planes data) = length data.
Proof.
  revert data. induction planes as [|i planes IH]; intros data; simpl; [done|].
  by rewrite IH, length_insert.
Qed.

Lemma pointed_other b blk planes data i : i ∉ planes -> pointed b blk planes data !! i = data !! i.
Proof.
  revert data. induction planes as [|j planes IH]; intros data Hi; simpl; [done|].
  apply not_elem_of_cons in Hi as [Hne Hi]. by rewrite IH, list_lookup_insert_ne.
Qed.

Lemma pointed_lookup b blk planes data i : i ∈ planes -> (i < length data)%nat ->
  pointed b blk planes data !! i = Some (Some (blk, plane_at b i)).
Proof.
  revert data. induction planes as [|j planes IH]; intros data Hi Hl; [by apply elem_of_nil in Hi|].
  change (pointed b blk (j :: planes) data)
    with (pointed b blk planes (<[j := Some (blk, plane_at b j)]> data)).
  destruct (decide (i ∈ planes)) as [Hin|Hnin].
  - apply IH; [done|by rewrite length_insert].
  - apply elem_of_cons in Hi as [->|]; [|done]. rewrite pointed_other by done.
    by apply list_lookup_insert_eq.
Qed.

(** A buffer whose pixels are block [blk]. *)
Definition backed (blk : Z) (b : vtf_cv_pixel_buffer) : vtf_cv_pixel_buffer :=
  (b <| px_backing_store := Some (blk, 0) |> <| px_backing_store_size := Z.max (px_total_size b) 1 |>
     <| px_backing_store_owned := true |> <| px_plane_data ::= pointed b blk (planes_in_use b) |>).

Lemma plane_used b i : i ∈ planes_in_use b <-> Z.of_nat i < Z.min (px_plane_count b) 4.
Proof. unfold planes_in_use. rewrite elem_of_seq. lia. Qed.

Lemma backed_ok blk b : pixel_ok b -> px_backing_store b = None -> pixel_ok (backed blk b).
Proof.
  intros [H1 H2 H3 H4 H5 H6 H7] Hn. split; simpl; try done; try lia.
  - by rewrite pointed_length.
  - intros i Hi. destruct (H5 i Hi) as (off & stride & rows & [F1 F2 F3 F4 F5] & _).
    exists off, stride, rows. split.
    + split; try done. unfold pixel_extent in *. simpl. by rewrite Hn in F5.
    + intros _. simpl. rewrite pointed_lookup; [|by apply plane_used|lia].
      unfold plane_at. by rewrite F1.
Qed.

Definition zeros (n : Z) : list byte := replicate (Z.to_nat n) Byte.x00.

Lemma as_pixel_run w p b : ob_body <$> gs_heap w !! p = Some (PixelBuffer b) ->
  as_pixel_buffer p w = Done (b, w).
Proof. intros (o & Ho & E)%fmap_body. read_body. Qed.

Lemma body_pixel_ok own w p b : counted own w ->
  ob_body <$> gs_heap w !! p = Some (PixelBuffer b) -> pixel_ok b.
Proof.
  intros Hw (o & Ho & E)%fmap_body. pose proof (oo_counts _ (ho_object _ _ _ _ Hw p o Ho)) as Hb.
  by rewrite E in Hb.
Qed.

(** [vtf_ensure_backing_store] the first time, and later. *)
Lemma ensure_new_run own w p b :
  counted own w -> ob_body <$> gs_heap w !! p = Some (PixelBuffer b) -> px_backing_store b = None ->
  vtf_ensure_backing_store p w = Done (true,
    rebodied p (PixelBuffer (backed (gs_next w) b)) (with_block (zeros (Z.max (px_total_size b) 1)) w)).
Proof.
  intros Hw Hp Hn. destruct (body_pixel_ok own w p b Hw Hp) as [H1 _ H3 _ H5 _ _].
  pose proof Hp as (o & Ho & Eo)%fmap_body. set (size := Z.max (px_total_size b) 1).
  assert (zeros size <> []) as Hz.
  { unfold zeros. destruct (Z.to_nat size) eqn:E; [lia|done]. }
  assert (len (zeros size) = size) as Hlen by (unfold zeros; rewrite length_replicate; lia).
  unfold vtf_ensure_backing_store. rewrite (bind_eq _ _ _ _ _ (as_pixel_run w p b Hp)), H1, Hn. simpl.
  unfold zero_bytes. fold size. destruct (Z.gtb_spec size ISIZE_MAX); [unfold ISIZE_MAX in *; lia|].
  change (replicate (Z.to_nat size) Byte.x00) with (zeros size).
  rewrite (bind_eq (mret _) (zeros size) w w _ eq_refl), (bind_eq _ _ _ _ _ (box_block_run _ w Hz)).
  set (w1 := with_block (zeros size) w).
  assert (gs_heap w1 !! p = Some o) as Ho1 by done.
  assert (gs_blocks w1 !! gs_next w = Some (zeros size)) as Hb1 by (simpl; apply lookup_insert_eq).
  rewrite (bind_eq _ _ _ _ _ (put_body_eq w1 p _ ltac:(eauto))).
  set (b1 := b <| px_backing_store := Some (gs_next w, 0) |> <| px_backing_store_size := size |>
               <| px_backing_store_owned := true |>).
  assert (Forall (fun i => is_Some (px_plane_offsets b1 !! i) /\ 0 <= plane_at b1 i <= len (zeros size))
    (planes_in_use b)) as HF.
  { apply list.Forall_forall. intros i Hi%plane_used.
    destruct (H5 i Hi) as (off & stride & rows & [F1 _ _ F4 F5] & _). unfold b1, plane_at. simpl.
    rewrite F1. simpl. split; [eauto|]. unfold pixel_extent in F5. rewrite Hn in F5. fold size in F5.
    rewrite Hlen. nia. }
  by rewrite (bind_eq _ _ _ _ _ (point_planes_run p _ _ _ b1 w1 o Ho1 Hb1 HF)).
Qed.

Lemma ensure_old_run own w p b :
  counted own w -> ob_body <$> gs_heap w !! p = Some (PixelBuffer b) -> is_Some (px_backing_store b) ->
  vtf_ensure_backing_store p w = Done (true, w).
Proof.
  intros Hw Hp Hs. destruct (body_pixel_ok own w p b Hw Hp) as [H1 _ _ _ _ _ _].
  unfold vtf_ensure_backing_store. rewrite (bind_eq _ _ _ _ _ (as_pixel_run w p b Hp)), H1. simpl.
  by rewrite bool_decide_eq_true_2.
Qed.

(** The memory of a buffer that has it. *)
Definition has_memory w (b : vtf_cv_pixel_buffer) (blk : Z) (bs : list byte) : Prop :=
  px_backing_store b = Some (blk, 0) /\ gs_blocks w !! blk = Some bs /\
  len bs = px_backing_store_size b /\ 0 < px_backing_store_size b.

(** What asking for the pixels changes. *)
Definition ensured (b b' : vtf_cv_pixel_buffer) : Prop :=
  is_Some (px_backing_store b') /\ (b' = b \/ px_backing_store b = None /\ exists blk, b' = backed blk b).

(** Its blocks with memory and without. *)
Lemma backed_blocks blk b : body_blocks (PixelBuffer (backed blk b)) =
  (blk, Z.max (px_total_size b) 1) :: box_of (px_lock_snapshot b) (px_lock_snapshot_size b).
Proof.
  unfold body_blocks. simpl. destruct (Z.eqb_spec (Z.max (px_total_size b) 1) 0); [lia|]. by rewrite app_nil_r.
Qed.

Lemma unbacked_blocks b : px_backing_store b = None ->
  body_blocks (PixelBuffer b) = box_of (px_lock_snapshot b) (px_lock_snapshot_size b).
Proof.
  intros Hn. unfold body_blocks. simpl. destruct (px_backing_store_owned b); simpl; by rewrite ?Hn, app_nil_r.
Qed.

Lemma ensure_store_ok own w p b :
  counted own w -> ob_body <$> gs_heap w !! p = Some (PixelBuffer b) ->
  exists b' w', vtf_ensure_backing_store p w = Done (true, w') /\ ensured b b' /\
    changed p (PixelBuffer b') own w w'.
Proof.
  intros Hw Hp. destruct (px_backing_store b) as [ptr|] eqn:Hn.
  { assert (is_Some (px_backing_store b)) as Hs by (rewrite Hn; eauto).
    exists b, w. split; [by eapply ensure_old_run|]. split; [|by apply changed_refl].
    split; [done|by left]. }
  exists (backed (gs_next w) b). eexists. split; [by eapply ensure_new_run|].
  split; [split; [by eexists|right; eauto]|].
  set (size := Z.max (px_total_size b) 1). set (w1 := with_block (zeros size) w).
  pose proof Hp as (o & Ho & Eo)%fmap_body. pose proof (ho_object _ _ _ _ Hw p o Ho) as Hok.
  pose proof (body_pixel_ok own w p b Hw Hp) as Hpx.
  assert (len (zeros size) = size) as Hlen by (unfold zeros; rewrite length_replicate; lia).
  assert (Hfree : forall n, (gs_next w, n) ∉ body_blocks (ob_body o))
    by (intros n; eapply block_fresh; [exact Hw|exact Ho]).
  eapply rebodied_changed; [|exact Ho|done|done|].
  2: { simpl. apply insert_subseteq. by destruct (heap_ok_fresh _ _ _ _ Hw) as (_ & ? & _). }
  pose proof (backed_blocks (gs_next w) b) as Ebl. fold size in Ebl.
  assert (body_blocks (ob_body o) = box_of (px_lock_snapshot b) (px_lock_snapshot_size b)) as Ebo
    by (rewrite Eo; by apply unbacked_blocks).
  destruct Hok as [H1 H2 H3 H4 H5 H6] eqn:Eok. clear Eok. rewrite Eo in H3. simpl in H3.
  apply Forall_app in H3 as [_ H3].
  apply counted_rebodied with o; try done; rewrite ?Eo; try done.
  - by apply counted_block.
  - by eapply pixel_not_static.
  - by apply backed_ok.
  - simpl. constructor; [|done]. split; [lia|]. right. right. by exists (gs_next w).
  - rewrite Ebl. simpl. rewrite Ebo in H4. constructor; [|done].
    intros ((x & n) & E & Hx)%list_elem_of_fmap. simpl in E. subst x. apply (Hfree n). by rewrite Ebo.
  - intros x n Hx. simpl in Hx. rewrite Ebl in Hx. apply elem_of_cons in Hx as [[= -> ->]|Hx].
    + right. split; [exists (zeros size); split; [simpl; apply lookup_insert_eq|done]|].
      intros q oq n' Hq. eapply block_fresh; [exact Hw|exact Hq].
    + left. by rewrite Ebo.
Qed.

(** Reading a row of a plane through its pointer. *)
Lemma memory_of own w p b : counted own w -> ob_body <$> gs_heap w !! p = Some (PixelBuffer b) ->
  is_Some (px_backing_store b) -> 0 < px_backing_store_size b ->
  exists blk bs, px_backing_store b = Some (blk, 0) /\ gs_blocks w !! blk = Some bs /\
    len bs = px_backing_store_size b.
Proof.
  intros Hw Hp Hs Hn. pose proof (po_owned _ (body_pixel_ok own w p b Hw Hp) Hs) as Ho.
  pose proof Hp as (o & Hob & Eo)%fmap_body.
  pose proof (oo_boxed _ (ho_object _ _ _ _ Hw p o Hob)) as Hb. rewrite Eo in Hb. simpl in Hb.
  rewrite Ho in Hb. apply list.Forall_cons in Hb as [[_ Hb] _]. destruct Hs as [x Hx].
  destruct Hb as [Hb|[Hb|[blk Hb]]]; [by rewrite Hb in Hx|lia|].
  destruct (ho_blocks _ _ _ _ Hw p o blk (px_backing_store_size b) Hob) as (bs & Hbs & Hl).
  { rewrite Eo. unfold body_blocks. simpl. rewrite Ho. simpl. rewrite Hb. simpl.
    destruct (Z.eqb_spec (px_backing_store_size b) 0); [lia|]. by left. }
  by exists blk, bs.
Qed.

Definition rows_readable w (ptr : rawptr) (stride rows : Z) : Prop :=
  forall r, 0 <= r < rows -> exists row, read_bytes (raw_add ptr (r * stride)) stride w = Done (row, w).

Lemma rows_of own w p b i off stride rows :
  counted own w -> ob_body <$> gs_heap w !! p = Some (PixelBuffer b) -> is_Some (px_backing_store b) ->
  plane_fits b i off stride rows -> plane_pointer b i off ->
  rows_readable w (raw_add (px_backing_store b) off) stride rows.
Proof.
  intros Hw Hp Hs [F1 F2 F3 F4 F5] Hpt r Hr. unfold read_bytes.
  destruct (Z.eqb_spec stride 0) as [|Hst]; [by eexists|].
  unfold pixel_extent in F5. destruct (px_backing_store b) as [y|] eqn:Ey; [|by destruct Hs].
  assert (is_Some (px_backing_store b)) as Hs' by (rewrite Ey; eauto).
  destruct (memory_of own w p b Hw Hp Hs' ltac:(nia)) as (blk & bs & Eb & Hbs & Hl).
  rewrite Ey in Eb. injection Eb as ->. unfold raw_add. rewrite Z.add_0_l, Hbs, Hl.
  rewrite (proj2 (Z.leb_le 0 (off + r * stride))), (proj2 (Z.leb_le 0 stride)),
    (proj2 (Z.leb_le (off + r * stride + stride) (px_backing_store_size b))) by nia.
  by eexists.
Qed.

(** ** The calls *)

Lemma lock_ok own w p b flags :
  counted own w -> p <> 0 -> ob_body <$> gs_heap w !! p = Some (PixelBuffer b) ->
  exists b' w', CVPixelBufferLockBaseAddress p flags w = Done (kCVReturnSuccess, w') /\
    is_Some (px_backing_store b') /\ changed p (PixelBuffer b') own w w'.
Proof.
  intros Hw Hp0 Hp. destruct (ensure_store_ok own w p b Hw Hp) as (b1 & w1 & E & [Hs _] & Hc).
  pose proof Hc as [Hw1 _ Hp1 _ _].
  destruct (set_pixel_ok own w1 p b1 (b1 <| px_lock_flags := flags |> <| px_locked := true |>) Hw1 Hp1)
    as [E2 Hc2]; try done.
  exists (b1 <| px_lock_flags := flags |> <| px_locked := true |>). eexists.
  split_and!; [|exact Hs|by eapply changed_trans].
  unfold CVPixelBufferLockBaseAddress. rewrite (proj2 (Z.eqb_neq p 0) Hp0), (bind_eq _ _ _ _ _ E). simpl.
  by rewrite (bind_eq _ _ _ _ _ (as_pixel_run w1 p b1 Hp1)), (bind_eq _ _ _ _ _ E2).
Qed.

Lemma unlock_ok own w p b :
  counted own w -> p <> 0 -> ob_body <$> gs_heap w !! p = Some (PixelBuffer b) ->
  exists w', CVPixelBufferUnlockBaseAddress p w = Done (kCVReturnSuccess, w') /\
    changed p (PixelBuffer (b <| px_locked := false |>)) own w w'.
Proof.
  intros Hw Hp0 Hp.
  destruct (set_pixel_ok own w p b (b <| px_locked := false |>) Hw Hp) as [E Hc]; try done.
  eexists. split; [|exact Hc]. unfold CVPixelBufferUnlockBaseAddress.
  by rewrite (proj2 (Z.eqb_neq p 0) Hp0), (bind_eq _ _ _ _ _ (as_pixel_run w p b Hp)), (bind_eq _ _ _ _ _ E).
Qed.

Lemma base_address_ok own w p b :
  counted own w -> p <> 0 -> ob_body <$> gs_heap w !! p = Some (PixelBuffer b) ->
  exists b' w', CVPixelBufferGetBaseAddress p w = Done (px_backing_store b', w') /\
    ensured b b' /\ changed p (PixelBuffer b') own w w'.
Proof.
  intros Hw Hp0 Hp. destruct (ensure_store_ok own w p b Hw Hp) as (b1 & w1 & E & He & Hc).
  exists b1, w1. split; [|done]. unfold CVPixelBufferGetBaseAddress.
  rewrite (proj2 (Z.eqb_neq p 0) Hp0), (bind_eq _ _ _ _ _ E). simpl.
  by rewrite (bind_eq _ _ _ _ _ (as_pixel_run w1 p b1 (ch_body _ _ _ _ _ Hc))).
Qed.

Lemma ensured_planes b b' : ensured b b' -> px_plane_count b' = px_plane_count b /\
  px_plane_bytes_per_row b' = px_plane_bytes_per_row b /\ px_plane_heights b' = px_plane_heights b.
Proof. by intros [_ [->|[_ [blk ->]]]]. Qed.

Lemma plane_address_run w w1 p b b1 i off :
  p <> 0 -> ob_body <$> gs_heap w !! p = Some (PixelBuffer b) ->
  Z.of_nat i < Z.min (px_plane_count b) 4 -> vtf_ensure_backing_store p w = Done (true, w1) ->
  ob_body <$> gs_heap w1 !! p = Some (PixelBuffer b1) -> is_Some (px_backing_store b1) ->
  plane_pointer b1 i off ->
  CVPixelBufferGetBaseAddressOfPlane p (Z.of_nat i) w = Done (raw_add (px_backing_store b1) off, w1).
Proof.
  intros Hp0 Hp Hi E Hp1 Hs Hpt. unfold CVPixelBufferGetBaseAddressOfPlane.
  rewrite (proj2 (Z.eqb_neq p 0) Hp0), (bind_eq _ _ _ _ _ (as_pixel_run w p b Hp)).
  destruct (Z.geb_spec (Z.of_nat i) (Z.min (px_plane_count b) 4)); [lia|].
  rewrite (bind_eq _ _ _ _ _ E). simpl. rewrite (bind_eq _ _ _ _ _ (as_pixel_run w1 p b1 Hp1)).
  unfold nth_or_abort. by rewrite Nat2Z.id, (Hpt Hs).
Qed.

Lemma plane_address_ok own w p b i :
  counted own w -> p <> 0 -> ob_body <$> gs_heap w !! p = Some (PixelBuffer b) ->
  Z.of_nat i < Z.min (px_plane_count b) 4 ->
  exists b' w' off stride rows,
    CVPixelBufferGetBaseAddressOfPlane p (Z.of_nat i) w =
      Done (raw_add (px_backing_store b') off, w') /\
    CVPixelBufferGetBaseAddressOfPlane p (Z.of_nat i) w' =
      Done (raw_add (px_backing_store b') off, w') /\
    CVPixelBufferGetBytesPerRowOfPlane p (Z.of_nat i) w' = Done (stride, w') /\
    px_plane_heights b !! i = Some rows /\
    rows_readable w' (raw_add (px_backing_store b') off) stride rows /\
    changed p (PixelBuffer b') own w w'.
Proof.
  intros Hw Hp0 Hp Hi. destruct (ensure_store_ok own w p b Hw Hp) as (b1 & w1 & E & He & Hc).
  pose proof Hc as [Hw1 _ Hp1 _ _]. pose proof (body_pixel_ok own w1 p b1 Hw1 Hp1) as [_ _ _ _ H5 _ _].
  destruct (ensured_planes b b1 He) as (Ec & Es & Eh). destruct He as [Hs _].
  destruct (H5 i) as (off & stride & rows & Hf & Hpt); [by rewrite Ec|].
  exists b1, w1, off, stride, rows. pose proof Hf as [F1 F2 F3 F4 F5]. split_and!.
  - by eapply plane_address_run.
  - eapply (plane_address_run w1 w1 p b1); try done; [by rewrite Ec|by eapply ensure_old_run].
  - unfold CVPixelBufferGetBytesPerRowOfPlane.
    rewrite (proj2 (Z.eqb_neq p 0) Hp0), (bind_eq _ _ _ _ _ (as_pixel_run w1 p b1 Hp1)), Ec.
    destruct (Z.geb_spec (Z.of_nat i) (Z.min (px_plane_count b) 4)); [lia|].
    unfold nth_or_abort. by rewrite Nat2Z.id, F2.
  - by rewrite <- Eh.
  - by eapply rows_of.
  - done.
Qed.

(** ** Leases *)

(** A layout whose planes lie in the slot. *)
Record layout_within (l : BufferLayoutReply) : Prop := {
  lw_total : 0 <= bl_total_size l < 2 ^ 32;
  lw_planes : forall i, Z.of_nat i < Z.min (bl_plane_count l) 4 -> exists off stride rows,
    bl_plane_offsets l !! i = Some off /\ bl_plane_bytes_per_row l !! i = Some stride /\
    bl_plane_heights l !! i = Some rows /\ 0 <= off /\ 0 <= stride /\ 0 <= rows /\
    off + stride * rows <= bl_total_size l
}.

Lemma plane_table_lookup l entries i v : Z.of_nat i < Z.min (bl_plane_count l) 4 ->
  entries !! i = Some v -> plane_table l entries !! i = Some v.
Proof.
  intros Hi Hv. unfold plane_table, pad4. rewrite lookup_take_lt by lia. rewrite lookup_app_l.
  - rewrite lookup_take_lt by lia. done.
  - rewrite length_take. apply lookup_lt_Some in Hv. lia.
Qed.

Lemma leased_ok pool header p lease l : layout_within l -> pixel_ok (leased_pixel_buffer pool header p lease l).
Proof.
  intros [Ht Hp]. split; simpl; try done.
  2: { unfold plane_table, pad4. rewrite length_take, length_app, length_replicate. lia. }
  intros i Hi. destruct (Hp i Hi) as (off & stride & rows & H1 & H2 & H3 & H4 & H5 & H6 & H7).
  exists off, stride, rows. split; [|by intros [? [=]]].
  split; simpl; [by apply plane_table_lookup..|done|]. unfold pixel_extent. simpl. lia.
Qed.

Lemma as_pool_run w q pool : ob_body <$> gs_heap w !! q = Some (PixelBufferPool pool) ->
  as_pixel_buffer_pool q w = Done (pool, w).
Proof. intros (o & Ho & E)%fmap_body. read_body. Qed.

Lemma counted_transport own w t : counted own w -> counted own (w <| gs_transport := t |>).
Proof. intros Hw. by eapply heap_ok_ext; [..|exact Hw]. Qed.

Lemma made_transport b own w t r w' : made b own (w <| gs_transport := t |>) r w' -> made b own w r w'.
Proof. apply made_from; [done..|by apply statics_refl]. Qed.

(** The worker's answer to a request for a buffer. *)
Definition leases_within w (pool_id : Z) : Prop := forall reply t,
  send_request env AllocBufferReply OP_ALLOC_BUFFER (mk_AllocBufferPayload pool_id) (gs_transport w) =
    Val (inl reply, t) -> layout_within (abr_layout reply).

Lemma retained_alive p w : gs_alive (retained p w) = gs_alive w.
Proof. done. Qed.

Lemma from_lease_ok own w q o pool lease l :
  counted own w -> gs_heap w !! q = Some o -> ob_body o = PixelBufferPool pool ->
  room 1 w -> layout_within l ->
  exists r w', vtf_create_pixel_buffer_from_lease q lease l false w = Done (r, w') /\
    made (PixelBuffer (leased_pixel_buffer q (ob_base o) pool lease l)) own w r w'.
Proof.
  intros Hw Ho Eo Hr Hl. set (b := leased_pixel_buffer q (ob_base o) pool lease l).
  assert (live (credits (gs_heap w)) q) as Hq by (right; rewrite dom_credits; apply elem_of_dom; eauto).
  set (w0 := w <| gs_alive ::= (fun n => as_signed 64 (n + 1)) |>).
  assert (heap_ok ∅ (credits (gs_heap w)) own w0) as Hw0 by (by eapply heap_ok_ext; [..|exact Hw]).
  destruct (CFRetain_eq ∅ _ own w0 q Hw0 Hq Hr) as [E Hw1].
  destruct (CFRetain_eq ∅ _ own w q Hw Hq Hr) as [_ Hw1'].
  assert (gs_heap (retained q w0) !! q = Some (bump o)) as Ho1
    by (unfold retained; simpl; by rewrite lookup_alter_eq, Ho).
  assert (counted (refs_of [q; 0] ⊎ own) (retained q w)) as Hc.
  { unfold counted. rewrite retained_credits. rewrite refs_cons, refs_null, (right_id_L ∅ (⊎)). done. }
  assert (sound (PixelBuffer b) (retained q w)) as Hs.
  { split; simpl.
    - constructor; [|done]. split; [done|by left].
    - constructor.
    - by apply leased_ok.
    - intros x k [[= -> ->]|[[= -> ->]|[]%elem_of_nil]%elem_of_cons]%elem_of_cons Hx; [|done].
      exists (bump o). split; [unfold retained; simpl; by rewrite lookup_alter_eq, Ho|].
      by rewrite body_bump, Eo.
    - intros x n []%elem_of_nil. }
  unfold vtf_create_pixel_buffer_from_lease.
  set (base := mk_vtf_cf_object VTF_OBJECT_MAGIC VTF_TYPE_PIXEL_BUFFER 1 0 (pl_buffer_id lease)
    (pl_generation lease) (pl_buffer_id lease) (Some Finalize_pixel_buffer)).
  rewrite (bind_eq (vtf_cf_object_with_host_id _ _ _ _ _) base w w0 _ eq_refl), (bind_eq _ _ _ _ _ E).
  assert (get_object q (retained q w0) = Done (bump o, retained q w0)) as Eg
    by (unfold get_object; by rewrite Ho1).
  rewrite (bind_eq _ _ _ _ _ Eg).
  assert (as_pixel_buffer_pool q (retained q w0) = Done (pool, retained q w0)) as Ep.
  { apply as_pool_run. rewrite Ho1. simpl. by rewrite body_bump, Eo. }
  rewrite (bind_eq _ _ _ _ _ Ep).
  assert (leased_pixel_buffer q (ob_base (bump o)) pool lease l = b) as Eb.
  { unfold b, leased_pixel_buffer, bump. case_bool_decide; [done|]. by destruct o as [[] ?]. }
  rewrite Eb. destruct (new_made (PixelBuffer b) base own (retained q w) (retained q w0))
    as (r & w' & En & Hm); try done.
  exists r, w'. split; [exact En|]. revert Hm. apply made_from; [intros x; apply retained_body|done|apply retained_gap|apply statics_retained].
Qed.

Definition create_outcome (b : object_body -> Prop) own w (r : Z * option Z) w' : Prop :=
  (exists p x, r = (kCVReturnSuccess, Some p) /\ b x /\ made x own w p w') \/
  (exists status, r = (status, None) /\ counted own w' /\ alive_gap w' = alive_gap w /\
     gs_heap w' = gs_heap w).

Lemma create_pixel_buffer_ok own w q o pool :
  counted own w -> gs_heap w !! q = Some o -> ob_body o = PixelBufferPool pool -> room 1 w ->
  leases_within w (cf_proxy_id (ob_base o)) ->
  gwp pan (CVPixelBufferPoolCreatePixelBuffer env q true)
    (create_outcome (fun x => exists reply, layout_within (abr_layout reply) /\
       x = PixelBuffer (leased_pixel_buffer q (ob_base o) pool
             (mk_PoolBufferLeaseReply (abr_buffer_id reply) (abr_generation reply)
                (abr_slot_index reply) (abr_slot_offset reply) (abr_host_backing_kind reply) 0)
             (abr_layout reply))) own w) w.
Proof.
  intros Hw Ho Eo Hr Hl. pose proof (ho_addr _ _ _ _ Hw q o Ho).
  unfold CVPixelBufferPoolCreatePixelBuffer. rewrite (proj2 (Z.eqb_neq q 0)) by lia. simpl orb. cbv iota.
  apply gwp_bind, gwp_get with o; [done|].
  assert (as_pixel_buffer_pool q w = Done (pool, w)) as Ep by (apply as_pool_run; by rewrite Ho, <- Eo).
  unfold gwp. rewrite (bind_eq _ _ _ _ _ Ep). unfold mbind at 1, G_bind at 1, transport_call.
  pose proof (typed_calm env AllocBufferReply OP_ALLOC_BUFFER
    (mk_AllocBufferPayload (cf_proxy_id (ob_base o))) (gs_transport w)) as Hcalm. unfold twp in Hcalm.
  destruct (send_request env AllocBufferReply OP_ALLOC_BUFFER
    (mk_AllocBufferPayload (cf_proxy_id (ob_base o))) (gs_transport w)) as [[[reply|e] t]|] eqn:Es; [| |done].
  2: { right. exists kCVReturnError. split_and!; try done. by apply counted_transport. }
  set (lease := mk_PoolBufferLeaseReply _ _ _ _ _ _).
  destruct (from_lease_ok own (w <| gs_transport := t |>) q o pool lease (abr_layout reply))
    as (r & w' & E & Hm); try done; [by apply counted_transport|by eapply Hl|].
  rewrite (bind_eq _ _ _ _ _ E).
  assert (r <> 0) as Hr0.
  { intros ->. destruct (heap_ok_lookup _ _ _ _ 0 (made_counted _ _ _ _ _ Hm)) as (_ & _ & _ & _ & _ & ?);
      [multiset_solver|lia]. }
  rewrite (proj2 (Z.eqb_neq r 0) Hr0). left. exists r. eexists. split_and!; [done| |by eapply made_transport].
  exists reply. split; [by eapply Hl|done].
Qed.

(** ** Pools *)

Lemma get_value_alive own w p k : counted own w -> alive w p ->
  exists v, CFDictionaryGetValue p k w = Done (v, w) /\ alive w v.
Proof.
  intros Hw Hp. destruct (alive_cases own w p Hw Hp) as [->|(o & Ho & Hok & Hp0)].
  { exists 0. split; [done|by left]. }
  destruct (decide (type_of (ob_body o) = VTF_TYPE_DICTIONARY)) as [Et|Et].
  - apply dictionary_of in Et as [d Ed]. exists (dictionary_get d k).
    split; [apply (get_value_run own); [done|by rewrite Ho, <- Ed]|].
    unfold dictionary_get. destruct (vtf_dictionary_find_index d k) as [i|]; [|by left].
    destruct (cfd_values d !! i) as [v|] eqn:Hv; [|by left]. simpl.
    pose proof (field_live own w p o Hw Ho) as Hl. rewrite Ed in Hl. simpl in Hl.
    apply Forall_app in Hl as [_ Hl]. rewrite list.Forall_forall in Hl. apply Hl.
    by eapply list_elem_of_lookup_2.
  - exists 0. split; [|by left]. unfold CFDictionaryGetValue.
    by rewrite (proj2 (Z.eqb_neq p 0) Hp0), (bind_eq _ _ _ _ _ (type_id_eq w p o Ho)),
      (proj2 (Z.eqb_neq p 0) Hp0), (oo_type _ Hok), (proj2 (Z.eqb_neq _ _) Et).
Qed.

Lemma read_attribute_run own w attrs key : counted own w -> alive w attrs ->
  exists r, read_pool_attribute_int attrs key w = Done (r, w).
Proof.
  intros Hw Ha. unfold read_pool_attribute_int. destruct (_ || _); [by eexists|].
  destruct (get_value_alive own w attrs key Hw Ha) as (v & Ev & Hv). rewrite (bind_eq _ _ _ _ _ Ev).
  destruct (v =? 0); [by eexists|].
  destruct (number_value_run own w v K_CF_NUMBER_SINT64_TYPE true Hw Hv) as [[ok out] E].
  rewrite (bind_eq _ _ _ _ _ E). destruct (negb (ok =? 0)); [by eexists|].
  destruct (number_value_run own w v K_CF_NUMBER_SINT32_TYPE true Hw Hv) as [[ok' out'] E'].
  rewrite (bind_eq _ _ _ _ _ E'). by eexists.
Qed.

Lemma pool_create_ok own w attrs : counted own w -> alive w attrs ->
  gwp pan (CVPixelBufferPoolCreate env attrs true)
    (create_outcome (fun x => exists pool, x = PixelBufferPool pool) own w) w.
Proof.
  intros Hw Ha. unfold CVPixelBufferPoolCreate. destruct (negb (is_enabled env)).
  { right. by exists kCVReturnError. }
  unfold gwp. destruct (read_attribute_run own w attrs kCVPixelBufferWidthKey Hw Ha) as [rw Ew].
  destruct (read_attribute_run own w attrs kCVPixelBufferHeightKey Hw Ha) as [rh Eh].
  destruct (read_attribute_run own w attrs kCVPixelBufferPixelFormatTypeKey Hw Ha) as [rp Ep].
  rewrite (bind_eq _ _ _ _ _ Ew), (bind_eq _ _ _ _ _ Eh), (bind_eq _ _ _ _ _ Ep).
  set (payload := mk_CreateBufferPoolPayload _ _ _ _ _ _ _).
  pose proof (create_pool_calm env payload (gs_transport w)) as Hc. unfold twp in Hc.
  unfold mbind at 1, G_bind at 1, transport_call.
  destruct (create_buffer_pool env payload (gs_transport w)) as [[[reply|e] t]|]; [| |done].
  2: { right. exists kCVReturnError. split_and!; try done. by apply counted_transport. }
  set (pool := mk_vtf_cv_pixel_buffer_pool _ _ _ _ _ _ _ _ _).
  destruct (create_hosted (PixelBufferPool pool) own (w <| gs_transport := t |>)
    VTF_TYPE_PIXEL_BUFFER_POOL Finalize_pixel_buffer_pool (cbr_pool_id reply) (cbr_pool_id reply) 1)
    as (r & w' & E & Hm); try done.
  { simpl. rewrite refs_null, (left_id_L ∅ (⊎)). by apply counted_transport. }
  { by apply plain_sound. }
  unfold mbind, G_bind in E |- *. unfold mbind, G_bind.
  destruct (vtf_cf_object_with_host_id _ _ _ _ _ _) as [[base w1]| | |]; try done.
  rewrite E. left. exists r, (PixelBufferPool pool). split_and!; [done|eauto|by eapply made_transport].
Qed.

Lemma pool_attributes_ok own w q pool : counted own w -> q <> 0 ->
  ob_body <$> gs_heap w !! q = Some (PixelBufferPool pool) -> room 1 w ->
  exists r, CVPixelBufferPoolGetPixelBufferAttributes q w = Done (r, retained r w) /\
    counted (refs_of [r] ⊎ own) (retained r w).
Proof.
  intros Hw Hq0 Hq Hr. pose proof Hq as (o & Ho & Eo)%fmap_body.
  pose proof (field_live own w q o Hw Ho) as Hl. rewrite Eo in Hl. simpl in Hl. rewrite list.Forall_singleton in Hl.
  destruct (CFRetain_eq ∅ _ own w _ Hw Hl Hr) as [E Hc]. eexists.
  unfold CVPixelBufferPoolGetPixelBufferAttributes.
  rewrite (proj2 (Z.eqb_neq q 0) Hq0), (bind_eq _ _ _ _ _ (as_pool_run w q pool Hq)), E.
  split; [done|]. unfold counted. by rewrite retained_credits.
Qed.
End pixels.
