(* ===== verification/Attachments.v ===== *)
(** * Attachments of pixel buffers

    The dictionary a pixel buffer keeps for its attachments: made when the first is
    set, owned by the buffer, changed in place, given out by a reference or as a
    copy. *)

From S2P Require Import Prelude Wire Protocol Layout Backend Transport Objects Release Refcount.
From S2P Require Import ReleaseSafe CoreFoundation Ownership Access Bitstream CoreMedia CoreVideo Pixels.
From stdpp Require Import strings gmultiset fin_maps.

Set Default Goal Selector "!".
Open Scope Z_scope.

Section attachments.
Context {os : Type} `{!Net os} `{!Profile} (env : environ).
Implicit Types (w : guest os) (C : gmap Z (gmultiset Z)) (own m : gmultiset Z) (X : gset Z).
Abbreviation pan := (overflow_checks = true).

(** ** The dictionary *)

Lemma create_mutable_heap w : exists o w', CFDictionaryCreateMutable 0 w = Done (gs_next w, w') /\
  gs_heap w' = <[gs_next w := o]> (gs_heap w) /\ cf_refcount (ob_base o) = 1.
Proof. do 2 eexists. split; [reflexivity|]. split; reflexivity. Qed.

Lemma create_mutable_room w r w' n : CFDictionaryCreateMutable 0 w = Done (r, w') ->
  n + 1 < 2 ^ 31 -> room n w -> room n w'.
Proof.
  intros E Hn Hr. destruct (create_mutable_heap w) as (o & w1 & E1 & Eh & Ec).
  rewrite E in E1. simplify_eq. intros q oq Hq Hs. rewrite Eh in Hq.
  apply lookup_insert_Some in Hq as [[_ <-]|[_ Hq]]; [lia|by eapply Hr].
Qed.

Lemma rebodied_room p b w n : room n w -> room n (rebodied p b w).
Proof.
  intros Hr q o Ho Hs. unfold rebodied in Ho. simpl in Ho. destruct (decide (q = p)) as [->|Hne].
  - rewrite lookup_alter_eq in Ho. apply fmap_Some in Ho as (o1 & Ho1 & ->). exact (Hr p o1 Ho1 Hs).
  - rewrite lookup_alter_ne in Ho by done. by eapply Hr.
Qed.

(** The buffer's dictionary of attachments: there is one, and the buffer keeps it. *)
Record attached (own : gmultiset Z) w p b dict d w' : Prop := {
  at_counted : counted own w';
  at_gap : alive_gap w' = alive_gap w;
  at_buffer : ob_body <$> gs_heap w' !! p = Some (PixelBuffer (b <| px_attachments := dict |>));
  at_dictionary : ob_body <$> gs_heap w' !! dict = Some (Dictionary d);
  at_others : forall q, q <> p -> q <> dict -> gs_heap w' !! q = gs_heap w !! q;
  at_before : gs_heap w !! dict = None \/ ob_body <$> gs_heap w !! dict = Some (Dictionary d)
}.

Lemma attachments_of own w p b : counted own w -> ob_body <$> gs_heap w !! p = Some (PixelBuffer b) ->
  px_attachments b <> 0 -> exists d, ob_body <$> gs_heap w !! px_attachments b = Some (Dictionary d).
Proof.
  intros Hw (o & Ho & Eo)%fmap_body Ha.
  destruct (typed_live own w p o (px_attachments b) VTF_TYPE_DICTIONARY Hw Ho) as (o' & Ho' & Et);
    [rewrite Eo; simpl; set_solver|done|].
  apply dictionary_of in Et as [d Ed]. exists d. by rewrite Ho', <- Ed.
Qed.

Lemma attach_object_ok o b dict : object_ok o -> ob_body o = PixelBuffer b ->
  object_ok (set_body (PixelBuffer (b <| px_attachments := dict |>)) o).
Proof.
  intros Hok Eo. apply object_ok_body; rewrite ?Eo; try done; [by eapply pixel_not_static|].
  pose proof (oo_counts _ Hok) as Hc. rewrite Eo in Hc. by apply (pixel_ok_view b).
Qed.

(** What the buffer's attachments are to the program: its dictionary, or none. *)
Definition attachments w b d : Prop :=
  px_attachments b = 0 /\ d = mk_vtf_cf_dictionary [] [] \/
  px_attachments b <> 0 /\ ob_body <$> gs_heap w !! px_attachments b = Some (Dictionary d).

Lemma attachment_dictionary_ok own w p b d n :
  counted own w -> ob_body <$> gs_heap w !! p = Some (PixelBuffer b) -> attachments w b d ->
  n + 1 < 2 ^ 31 -> room n w ->
  exists dict w', vtf_attachment_dictionary p w = Done (dict, w') /\ attached own w p b dict d w' /\
    dict <> 0 /\ room n w'.
Proof.
  intros Hw Hp Hd Hn Hr. unfold vtf_attachment_dictionary.
  rewrite (bind_eq _ _ _ _ _ (as_pixel_run w p b Hp)).
  destruct Hd as [[Ha ->]|[Ha Hd]].
  2: { rewrite (proj2 (Z.eqb_neq _ _) Ha), (bind_eq (mret tt) tt w w _ eq_refl).
    rewrite (bind_eq _ _ _ _ _ (as_pixel_run w p b Hp)). do 2 eexists. split; [done|].
    split; [|done]. split; try done; [rewrite Hp; by destruct b|by right]. }
  destruct (CFDictionaryCreateMutable_ok own w 0 Hw) as (r & w1 & E & [Mc Mg Mb Mn Mo Ms _]);
    [unfold ISIZE_MAX; lia|].
  assert (r <> 0) as Hr0.
  { intros ->. destruct (heap_ok_lookup _ _ _ _ 0 Mc) as (_ & _ & _ & _ & _ & ?); [multiset_solver|lia]. }
  assert (p <> r) as Hpr by (intros ->; by rewrite Mn in Hp).
  assert (ob_body <$> gs_heap w1 !! p = Some (PixelBuffer b)) as Hp1 by (by rewrite Mo).
  set (b' := b <| px_attachments := r |>).
  pose proof Hp1 as (o1 & Ho1 & Eo1)%fmap_body. pose proof Mb as (od & Hod & Eod)%fmap_body.
  assert (((if px_attachments b =? 0
    then attachments ← CFDictionaryCreateMutable 0;
         b ← as_pixel_buffer p;
         put_body p (PixelBuffer (b <| px_attachments := attachments |>))
    else mret tt) : G os unit) w = Done (tt, rebodied p (PixelBuffer b') w1)) as E1.
  { rewrite Ha. simpl. rewrite (bind_eq _ _ _ _ _ E), (bind_eq _ _ _ _ _ (as_pixel_run w1 p b Hp1)).
    apply put_body_eq. eauto. }
  rewrite (bind_eq _ _ _ _ _ E1).
  assert (ob_body <$> gs_heap (rebodied p (PixelBuffer b') w1) !! p = Some (PixelBuffer b')) as Hp2
    by (by rewrite (rebodied_lookup _ _ _ o1 Ho1)).
  rewrite (bind_eq _ _ _ _ _ (as_pixel_run _ p b' Hp2)).
  do 2 eexists. split; [done|]. split; [|split; [done|]].
  - pose proof (ho_object _ _ _ _ Mc p o1 Ho1) as Hok.
    split.
    + eapply counted_give; [exact Mc|exact Ho1|..]; rewrite ?Eo1; try done.
      * by apply attach_object_ok.
      * simpl. rewrite Ha, (refs_cons _ [r]), (refs_cons _ [0]), refs_null, (refs_single r) by done.
        multiset_solver.
      * simpl. intros q k Hq Hq0. apply elem_of_cons in Hq as [[= -> ->]|Hq].
        -- eapply (typed_live _ w1 p o1); [exact Mc|exact Ho1| |done]. rewrite Eo1. simpl. set_solver.
        -- apply list_elem_of_singleton in Hq as [= -> ->]. exists od. by rewrite Hod, Eod.
    + by rewrite rebodied_gap.
    + done.
    + by rewrite rebodied_others.
    + intros q Hq Hqr. destruct (create_mutable_heap w) as (o0 & w0 & E0 & Eh & _).
      rewrite E in E0. simplify_eq. rewrite rebodied_others, Eh by done.
      by rewrite lookup_insert_ne.
    + by left.
  - by eapply rebodied_room, create_mutable_room.
Qed.

(** A pixel buffer whose dictionary is being changed. *)
Lemma buffer_shape w w' dict p b : rest_kept dict w w' -> p <> dict ->
  ob_body <$> gs_heap w !! p = Some (PixelBuffer b) -> is_Some (gs_heap w' !! p) ->
  exists b', ob_body <$> gs_heap w' !! p = Some (PixelBuffer b') /\
    b' <| px_state := 0 |> = b <| px_state := 0 |>.
Proof.
  intros Hk Hne (o & Ho & Eo)%fmap_body [o' Ho']. destruct (Hk p o' Hne Ho') as (o1 & Ho1 & Es).
  rewrite Ho in Ho1. injection Ho1 as <-. apply (f_equal ob_body) in Es. simpl in Es. rewrite Eo in Es.
  destruct (ob_body o') as [| | | | | | | | |b'| | |] eqn:E; try done.
  exists b'. rewrite Ho'. simpl. rewrite E. split; [done|].
  symmetry. exact (f_equal (fun x => match x with PixelBuffer c => c | _ => b end) Es).
Qed.

Lemma state_only (b b' : vtf_cv_pixel_buffer) : b' <| px_state := 0 |> = b <| px_state := 0 |> ->
  px_attachments b' = px_attachments b /\ px_pool_ref b' = px_pool_ref b /\
  pixel_view b' = pixel_view b.
Proof.
  intros E. split_and!; [exact (f_equal px_attachments E)|exact (f_equal px_pool_ref E)|].
  exact (f_equal pixel_view E).
Qed.

Lemma attached_set_ok own w p b d key value :
  counted own w -> p ∈ own -> ob_body <$> gs_heap w !! p = Some (PixelBuffer b) ->
  px_attachments b <> 0 -> ob_body <$> gs_heap w !! px_attachments b = Some (Dictionary d) ->
  alive w key -> lasting own w value -> room 2 w ->
  gwp pan (CFDictionarySetValue env (px_attachments b) key value) (fun _ w' =>
    counted own w' /\ alive_gap w' = alive_gap w /\ exists b',
      ob_body <$> gs_heap w' !! p = Some (PixelBuffer b') /\ px_attachments b' = px_attachments b /\
      ob_body <$> gs_heap w' !! px_attachments b = Some (Dictionary (dictionary_set d key value))) w.
Proof.
  intros Hw Hp Hb Ha Hd Hk Hv Hr. set (dict := px_attachments b) in *.
  pose proof Hb as (o & Ho & Eo)%fmap_body. pose proof Hd as (od & Hod & Eod)%fmap_body.
  assert (p <> dict) as Hne by (intros E; rewrite <- E, Hb in Hd; done).
  assert (credits (gs_heap w) !! p = Some ({[+ dict +]} ⊎ refs_of [px_pool_ref b])) as HC.
  { rewrite credits_lookup, Ho. simpl. rewrite Eo. simpl. fold dict.
    rewrite (refs_cons _ [dict]), (refs_single dict) by done. f_equal. multiset_solver. }
  pose proof (heap_ok_take _ _ _ _ _ _ _ Hw HC) as Ht. rewrite union_empty_r_L in Ht.
  set (C1 := <[p := _]> _) in Ht.
  assert (dom C1 = dom (gs_heap w)) as Ed.
  { unfold C1. rewrite dom_insert_L, dom_credits. assert (p ∈ dom (gs_heap w)) by (apply elem_of_dom; eauto).
    set_solver. }
  eapply gwp_mono; [eapply (set_value_in env {[p]} C1); [exact Ht|..]; try done|].
  - intros q ->%elem_of_singleton. multiset_solver.
  - by rewrite Ed.
  - multiset_solver.
  - set_solver.
  - destruct Hk as [|Hk]; [by left|right]. rewrite Ed. by rewrite dom_credits in Hk.
  - destruct Hv as [|[|]]; [by left|right; left; multiset_solver|by right; right].
  - intros [] w' (C' & [Hw' Hd' Hg Hbd Hh Hrest]).
    assert (C' !! p = Some (refs_of [px_pool_ref b])) as HC'
      by (rewrite Hh by set_solver; unfold C1; apply lookup_insert_eq).
    pose proof (heap_ok_give _ _ _ _ _ _ _ Hw' HC') as Hg'. rewrite union_idemp_L in Hg'.
    assert (is_Some (gs_heap w' !! p)) as Hp'.
    { destruct (heap_ok_lookup _ _ _ _ p Hw') as (o' & _ & Ho' & _); [multiset_solver|eauto]. }
    destruct (buffer_shape w w' dict p b Hrest Hne Hb Hp') as (b' & Hb' & Es).
    apply state_only in Es as (Ea & Epool & _). pose proof Hb' as (o' & Ho' & Eo')%fmap_body.
    split; [|split; [done|by exists b']].
    eapply counted_settle; [eapply (heap_ok_settle ∅ _ _ _ p o')|].
    + rewrite union_empty_r_L. exact Hg'.
    + done.
    + rewrite lookup_insert_eq, Eo'. simpl. rewrite Ea, Epool. fold dict.
      rewrite (refs_cons _ [dict]), (refs_single dict) by done. f_equal. multiset_solver.
    + rewrite Eo'. simpl. rewrite Ea, Epool. intros q k Hq Hq0. apply elem_of_cons in Hq as [[= -> ->]|Hq].
      * destruct (typed_live own w p o (px_pool_ref b) VTF_TYPE_PIXEL_BUFFER_POOL Hw Ho) as (oq & Hoq & Et);
          [rewrite Eo; simpl; set_solver|done|].
        assert (px_pool_ref b ∈ dom C') as Hin.
        { apply (ho_refs _ _ _ _ Hw'), gmultiset_elem_of_disj_union. right.
          eapply total_lookup; [exact HC'|]. by apply elem_of_refs; split; [|set_solver]. }
        apply (ho_live _ _ _ _ Hw'), elem_of_dom in Hin as [oq' Hoq'].
        assert (px_pool_ref b <> dict) as Hpd.
        { intros E. rewrite E, Hod in Hoq. injection Hoq as <-. by rewrite Eod in Et. }
        destruct (Hrest _ oq' Hpd Hoq') as (oq1 & Hoq1 & Es). exists oq'. split; [done|].
        rewrite Hoq in Hoq1. injection Hoq1 as <-. by rewrite <- (shape_type _ _ Es).
      * apply list_elem_of_singleton in Hq as [= -> ->]. fold dict.
        apply fmap_body in Hbd as (o2 & Ho2 & E2). exists o2. by rewrite E2.
    + rewrite dom_insert. set_solver.
Qed.

(** The program's view of pixel buffer [p]: counts exact, its attachments [d]. *)
Definition buffer_with own w p d w' : Prop :=
  counted own w' /\ alive_gap w' = alive_gap w /\ exists b,
    ob_body <$> gs_heap w' !! p = Some (PixelBuffer b) /\ attachments w' b d.

Lemma owned_nonzero own w p : counted own w -> p ∈ own -> p <> 0.
Proof. intros Hw Hp. destruct (heap_ok_lookup _ _ _ _ p Hw Hp) as (? & ? & ? & ? & ? & ?). lia. Qed.

Lemma body_nonzero own w p b : counted own w -> ob_body <$> gs_heap w !! p = Some b -> p <> 0.
Proof. intros Hw (o & Ho & _)%fmap_body. pose proof (ho_addr _ _ _ _ Hw p o Ho). lia. Qed.

Lemma set_attachment_ok own w p b d key value :
  counted own w -> p ∈ own -> ob_body <$> gs_heap w !! p = Some (PixelBuffer b) -> attachments w b d ->
  alive w key -> lasting own w value -> room 2 w ->
  gwp pan (CVBufferSetAttachment env p key value)
    (fun _ => buffer_with own w p (if key =? 0 then d else dictionary_set d key value)) w.
Proof.
  intros Hw Hp Hb Hd Hk Hv Hr. unfold CVBufferSetAttachment.
  rewrite (proj2 (Z.eqb_neq p 0) (owned_nonzero _ _ _ Hw Hp)). simpl orb.
  destruct (key =? 0) eqn:Ek; [split_and!; eauto|]. apply Z.eqb_neq in Ek.
  destruct (attachment_dictionary_ok own w p b d 2 Hw Hb Hd ltac:(lia) Hr)
    as (dict & w1 & E & [Ac Ag Ab Ad Ao Ap] & Hdict & Hr1).
  unfold gwp. rewrite (bind_eq _ _ _ _ _ E).
  eapply gwp_mono;
    [eapply (attached_set_ok own w1 p (b <| px_attachments := dict |>) d key value Ac Hp Ab Hdict Ad); try done|].
  - destruct (alive_cases own w key Hw Hk) as [|(ok & Hok & _)]; [done|].
    destruct (decide (key = p)) as [->|Hkp]; [apply fmap_body in Ab as (? & ? & _); by eapply alive_some|].
    destruct (decide (key = dict)) as [->|Hkd]; [apply fmap_body in Ad as (? & ? & _); by eapply alive_some|].
    rewrite <- (Ao key Hkp Hkd) in Hok. by eapply alive_some.
  - destruct Hv as [|[|(ov & Hov & Hs)]]; [by left|by right; left|right; right].
    exists ov. split; [|done]. rewrite Ao; [done|..].
    + intros ->. pose proof (ho_object _ _ _ _ Hw p ov Hov) as Hok. rewrite Hov in Hb.
      injection Hb as Hb. by eapply pixel_not_static.
    + intros ->. rewrite Hov in Ap. destruct Ap as [|Ap]; [done|]. injection Ap as Ap.
      eapply not_static_dictionary; [exact (ho_object _ _ _ _ Hw _ ov Hov)|done..].
  - intros [] w' (Hc & Hg & b' & Hb' & Ea & Hdd). split_and!; [done|by rewrite Hg|].
    exists b'. split; [done|right]. rewrite Ea. done.
Qed.

(** The dictionary without the first pair with [key]. *)
Definition dictionary_remove (d : vtf_cf_dictionary) (key : Z) : vtf_cf_dictionary :=
  match vtf_dictionary_find_index d key with
  | Some i => mk_vtf_cf_dictionary (delete i (cfd_keys d)) (delete i (cfd_values d))
  | None => d
  end.

Lemma refs_delete l i x : l !! i = Some x -> refs_of l = refs_of [x] ⊎ refs_of (delete i l).
Proof.
  intros Hi. rewrite <- (take_drop_middle l i x Hi) at 1. rewrite delete_take_drop, !refs_app, (refs_cons x).
  multiset_solver.
Qed.

(** The dictionary gives back the pair, to be released by the code that runs. *)
Lemma pair_taken own w p d i k v :
  counted own w -> ob_body <$> gs_heap w !! p = Some (Dictionary d) ->
  cfd_keys d !! i = Some k -> cfd_values d !! i = Some v ->
  counted (refs_of [k] ⊎ (refs_of [v] ⊎ own)) (rebodied p
    (Dictionary (mk_vtf_cf_dictionary (delete i (cfd_keys d)) (delete i (cfd_values d)))) w).
Proof.
  intros Hw (o & Ho & Eo)%fmap_body Hk Hv. rewrite (assoc_L (⊎)).
  pose proof (ho_object _ _ _ _ Hw p o Ho) as Hok.
  eapply counted_take; [done|exact Ho|..]; rewrite ?Eo; try done.
  - apply object_ok_body; rewrite ?Eo; try done; [by eapply not_static_dictionary|].
    pose proof (oo_counts _ Hok) as Hc. rewrite Eo in Hc. simpl in *.
    rewrite !length_delete by eauto. by rewrite Hc.
  - simpl. rewrite !refs_app, (refs_delete _ _ _ Hk), (refs_delete _ _ _ Hv). multiset_solver.
  - simpl. intros q t []%elem_of_nil.
Qed.

Lemma nth_run {A} (l : list A) i x w : l !! i = Some x ->
  nth_or_abort (os:=os) l (Z.of_nat i) w = Done (x, w).
Proof. intros Hi. unfold nth_or_abort. by rewrite Nat2Z.id, Hi. Qed.

(** A buffer the program holds, and with it its attachments, outlives releases. *)
Lemma kept_buffer own w w' p b d :
  kept ∅ (credits (gs_heap w)) w (credits (gs_heap w')) w' -> counted own w' -> p ∈ own ->
  ob_body <$> gs_heap w !! p = Some (PixelBuffer b) -> px_attachments b <> 0 ->
  ob_body <$> gs_heap w !! px_attachments b = Some (Dictionary d) ->
  exists b', ob_body <$> gs_heap w' !! p = Some (PixelBuffer b') /\ attachments w' b' d.
Proof.
  intros K Hw Hp Hb Ha (od & Hod & Eod)%fmap_body.
  assert (Hk : forall q o', gs_heap w' !! q = Some o' -> exists o, gs_heap w !! q = Some o /\ shape_eq o o').
  { intros q o' Hq. apply (k_live _ _ _ _ _ K); [|done]. rewrite dom_credits. apply elem_of_dom. eauto. }
  destruct (heap_ok_lookup _ _ _ _ p Hw Hp) as (o' & _ & Ho' & _ & _ & Hp0).
  destruct (buffer_shape w w' 0 p b) as (b' & Hb' & Es); [by intros q o1 _; apply Hk|lia|done|eauto|].
  apply state_only in Es as (Ea & _ & _). exists b'. split; [done|right]. rewrite Ea. split; [done|].
  destruct (attachments_of own w' p b' Hw Hb') as [d' Hd']; [by rewrite Ea|]. rewrite Ea in Hd'.
  pose proof Hd' as (o1 & Ho1 & E1)%fmap_body. destruct (Hk _ o1 Ho1) as (o0 & Ho0 & Es).
  rewrite Hod in Ho0. injection Ho0 as <-. rewrite Ho1. simpl. by rewrite (shape_dictionary _ _ _ Es Eod).
Qed.

Lemma remove_attachment_ok own w p b d key :
  counted own w -> p ∈ own -> ob_body <$> gs_heap w !! p = Some (PixelBuffer b) -> attachments w b d ->
  gwp pan (CVBufferRemoveAttachment env p key)
    (fun _ => buffer_with own w p (if key =? 0 then d else dictionary_remove d key)) w.
Proof.
  intros Hw Hp Hb Hd. unfold CVBufferRemoveAttachment.
  rewrite (proj2 (Z.eqb_neq p 0) (owned_nonzero _ _ _ Hw Hp)). simpl orb.
  destruct (key =? 0) eqn:Ek; [split_and!; eauto|]. apply Z.eqb_neq in Ek.
  unfold gwp. rewrite (bind_eq _ _ _ _ _ (as_pixel_run w p b Hb)).
  destruct (Z.eqb_spec (px_attachments b) 0) as [Ha|Ha].
  { destruct Hd as [[_ ->]|[]]; [|done]. unfold dictionary_remove. simpl.
    split_and!; [done..|]. exists b. split; [done|by left]. }
  destruct Hd as [[]|[_ Hd]]; [done|]. set (dict := px_attachments b) in *.
  rewrite (bind_eq _ _ _ _ _ (as_dictionary_run w dict d Hd)).
  unfold dictionary_remove. fold (vtf_dictionary_find_index d key).
  destruct (vtf_dictionary_find_index d key) as [i|] eqn:Hf.
  2: { split_and!; [done..|]. exists b. split; [done|by right]. }
  pose proof Hd as (od & Hod & Eod)%fmap_body.
  pose proof (oo_counts _ (ho_object _ _ _ _ Hw dict od Hod)) as Hl. rewrite Eod in Hl. simpl in Hl.
  destruct (find_index_lt d key i Hf Hl) as [v Hv].
  pose proof Hf as (k & Hk & _)%position_Some.
  set (rest := mk_vtf_cf_dictionary _ _).
  rewrite (bind_eq _ _ _ _ _ (nth_run _ i k w Hk)), (bind_eq _ _ _ _ _ (nth_run _ i v w Hv)).
  rewrite (bind_eq _ _ _ _ _ (put_body_eq w dict _ ltac:(eauto))).
  set (w1 := rebodied dict (Dictionary rest) w).
  eapply gwp_seq; [apply CFRelease_ok, (pair_taken own w dict d i k v); done|].
  intros [] w2 (Hc2 & K2 & Hg2). eapply gwp_mono; [by apply CFRelease_ok|].
  intros [] w3 (Hc3 & K3 & Hg3). split_and!; [done|by rewrite Hg3, Hg2; unfold w1; apply rebodied_gap|].
  pose proof (kept_trans _ _ _ _ _ _ _ K2 K3) as K.
  assert (p <> dict) as Hne by (intros E; rewrite <- E, Hb in Hd; done).
  eapply kept_buffer; [exact K|exact Hc3|exact Hp|..].
  - unfold w1. by rewrite rebodied_others.
  - done.
  - fold dict. unfold w1. by rewrite (rebodied_lookup _ _ _ od Hod).
Qed.

Lemma get_attachments_ok own w p b : counted own w ->
  ob_body <$> gs_heap w !! p = Some (PixelBuffer b) -> room 1 w ->
  CVBufferGetAttachments p w = Done (px_attachments b, retained (px_attachments b) w) /\
  counted (refs_of [px_attachments b] ⊎ own) (retained (px_attachments b) w).
Proof.
  intros Hw Hb Hr. pose proof Hb as (o & Ho & Eo)%fmap_body.
  pose proof (field_live own w p o Hw Ho) as Hl. rewrite Eo in Hl.
  apply list.Forall_cons in Hl as [_ [Hl _]%list.Forall_cons].
  destruct (CFRetain_eq ∅ _ own w _ Hw Hl Hr) as [E Hc].
  split; [|unfold counted; by rewrite retained_credits].
  unfold CVBufferGetAttachments. rewrite (proj2 (Z.eqb_neq p 0) (body_nonzero _ _ _ _ Hw Hb)),
    (bind_eq _ _ _ _ _ (as_pixel_run w p b Hb)).
  destruct (Z.eqb_spec (px_attachments b) 0) as [->|]; [|done].
  unfold retained. by rewrite heap_upd_id by (by eapply alter_absent, heap_ok_null).
Qed.

Lemma copy_attachments_ok own w p b d : counted own w ->
  ob_body <$> gs_heap w !! p = Some (PixelBuffer b) -> attachments w b d ->
  room (2 * len (cfd_keys d)) w ->
  CVBufferCopyAttachments p w = Done (0, w) /\ px_attachments b = 0 \/
  exists r w', CVBufferCopyAttachments p w = Done (r, w') /\ made (Dictionary d) own w r w'.
Proof.
  intros Hw Hb Hd Hr. unfold CVBufferCopyAttachments.
  rewrite (proj2 (Z.eqb_neq p 0) (body_nonzero _ _ _ _ Hw Hb)), (bind_eq _ _ _ _ _ (as_pixel_run w p b Hb)).
  destruct Hd as [[-> _]|[Ha Hd]]; [by left|right]. rewrite (proj2 (Z.eqb_neq _ _) Ha).
  apply fmap_body in Hd as (o & Ho & Eo). by eapply CFDictionaryCreateCopy_ok.
Qed.
End attachments.
