(* ===== verification/Samples.v ===== *)
(** * Samples

    What the functions of [coremedia.rs] that make block buffers, format descriptions
    and sample buffers do to the heap; and how the number of references to an
    object changes along the way. *)

From S2P Require Import Prelude Wire Protocol Layout Backend Transport Objects Release Refcount.
From S2P Require Import ReleaseSafe CoreFoundation Ownership Access CoreMedia CoreVideo Pixels Attachments.
From stdpp Require Import strings gmultiset fin_maps.

Set Default Goal Selector "!".
Open Scope Z_scope.

Lemma multiplicity_size (p : Z) (X : gmultiset Z) : (multiplicity p X <= size X)%nat.
Proof.
  induction X as [|x X IH] using gmultiset_ind; [rewrite multiplicity_empty; lia|].
  rewrite multiplicity_disj_union, gmultiset_size_disj_union, gmultiset_size_singleton.
  rewrite multiplicity_singleton. case_decide; lia.
Qed.

Lemma refs_size l : (size (refs_of l) <= length l)%nat.
Proof.
  induction l as [|p l IH]; [done|]. rewrite refs_cons, gmultiset_size_disj_union.
  assert (size (refs_of [p]) <= 1)%nat; [|simpl in *; lia]. destruct (decide (p = 0)) as [->|Hp]; [rewrite refs_null, gmultiset_size_empty; lia|].
  by rewrite refs_single, gmultiset_size_singleton.
Qed.

Section samples.
Context {os : Type} `{!Net os} `{!Profile} (env : environ).
Implicit Types (w : guest os) (own lib app m : gmultiset Z).
Abbreviation pan := (overflow_checks = true).

Lemma bind_assoc {A B D} (m : G os A) (f : A -> G os B) (g : B -> G os D) w :
  (x ← m; y ← f x; g y) w = (y ← (x ← m; f x); g y) w.
Proof. unfold mbind, G_bind. by destruct (m w) as [[a w1]| | |]. Qed.

(** ** What stays *)

(** A block of memory that no object owns. *)
Definition private (x : Z) (bs : list byte) w : Prop :=
  gs_blocks w !! x = Some bs /\
  forall p o n, gs_heap w !! p = Some o -> (x, n) ∉ body_blocks (ob_body o).

(** The kind of an object stays, and all of a sample buffer. *)
Definition kin (b b' : object_body) : Prop :=
  type_of b' = type_of b /\ match b with SampleBuffer _ => b' = b | _ => True end.

Lemma kin_refl b : kin b b.
Proof. split; [done|]. by destruct b. Qed.

Lemma kin_trans b b1 b2 : kin b b1 -> kin b1 b2 -> kin b b2.
Proof. intros [E1 H1] [E2 H2]. split; [congruence|]. destruct b; try done. by subst b1. Qed.

Record stays lib w w' : Prop := {
  st_body : forall p b, p ∈ lib -> ob_body <$> gs_heap w !! p = Some b ->
    exists b', ob_body <$> gs_heap w' !! p = Some b' /\ kin b b';
  st_static : statics_stay w w';
  st_private : forall x bs, private x bs w -> private x bs w'
}.

Lemma stays_refl lib w w' : gs_heap w' = gs_heap w -> gs_blocks w' = gs_blocks w -> stays lib w w'.
Proof.
  intros E1 E2. split.
  - intros p b _ Hb. exists b. rewrite E1. split; [done|apply kin_refl].
  - by apply statics_refl.
  - intros x bs. unfold private. by rewrite E1, E2.
Qed.

Lemma stays_trans lib lib' w w1 w2 : lib ⊆ lib' -> stays lib w w1 -> stays lib' w1 w2 -> stays lib w w2.
Proof.
  intros Hsub [A1 A2 A3] [B1 B2 B3]. split; [|by eapply statics_trans|auto].
  intros p b Hp Hb. destruct (A1 p b Hp Hb) as (b1 & Hb1 & K1).
  destruct (B1 p b1) as (b2 & Hb2 & K2); [by eapply gmultiset_elem_of_subseteq|done|].
  exists b2. split; [done|by eapply kin_trans].
Qed.

(** ** Uses of an object *)

Definition uses own w (p : Z) : nat := multiplicity p (own ⊎ total_refs (credits (gs_heap w))).

Lemma uses_own own m w p : uses (m ⊎ own) w p = (multiplicity p m + uses own w p)%nat.
Proof. unfold uses. rewrite !multiplicity_disj_union. lia. Qed.

Lemma uses_credits own w w' p : credits (gs_heap w') = credits (gs_heap w) -> uses own w' p = uses own w p.
Proof. unfold uses. by intros ->. Qed.

(** Counts with room stay so when nothing but constants is used more. *)
Lemma room_from own w own' w' n extra :
  counted own w -> counted own' w' -> statics_stay w w' ->
  (forall p, uses own' w' p <= uses own w p + multiplicity p extra)%nat ->
  (forall p o, p ∈ extra -> gs_heap w !! p = Some o -> is_static o) ->
  Z.of_nat (size extra) + n < 2 ^ 31 -> room n w -> room n w'.
Proof.
  intros Hw Hw' Hst Hu Hex Hsz Hr p o' Ho' Hs'.
  destruct (ho_count _ _ _ _ Hw' p o' Ho' Hs') as (Ec' & _). unfold uses in Hu. specialize (Hu p).
  rewrite Ec'. destruct (gs_heap w !! p) as [o|] eqn:Ho.
  - assert (~ is_static o) as Hs.
    { intros Hs. destruct (Hst p o Ho Hs) as (o1 & Ho1 & Hs1). rewrite Ho' in Ho1. by injection Ho1 as <-. }
    assert (multiplicity p extra = 0%nat) as E0.
    { destruct (decide (p ∈ extra)) as [Hp|Hp]; [by exfalso; apply Hs, (Hex p o Hp Ho)|].
      unfold elem_of, gmultiset_elem_of in Hp. lia. }
    specialize (Hr p o Ho Hs). destruct (ho_count _ _ _ _ Hw p o Ho Hs) as (Ec & _). lia.
  - assert (multiplicity p (own ⊎ total_refs (credits (gs_heap w))) = 0%nat) as E0.
    { destruct (decide (p ∈ own ⊎ total_refs (credits (gs_heap w)))) as [Hp|Hp];
        [|unfold elem_of, gmultiset_elem_of in Hp; lia]. exfalso. apply (ho_refs _ _ _ _ Hw), (ho_live _ _ _ _ Hw), elem_of_dom in Hp.
      by rewrite Ho in Hp; destruct Hp. }
    pose proof (multiplicity_size p extra). lia.
Qed.

(** ** New objects *)

Record born (b : object_body) own w (r : Z) w' : Prop := {
  born_counted : counted ({[+ r +]} ⊎ own) w';
  born_gap : alive_gap w' = alive_gap w;
  born_body : ob_body <$> gs_heap w' !! r = Some b;
  born_new : gs_heap w !! r = None;
  born_others : forall q, q <> r -> ob_body <$> gs_heap w' !! q = ob_body <$> gs_heap w !! q;
  born_static : statics_stay w w';
  born_private : forall x bs, private x bs w -> private x bs w';
  born_blocks : gs_blocks w ⊆ gs_blocks w'
}.

(** [w] is [w0] with new blocks, some of which the object takes. *)
Lemma made_born_from b own w0 w r w' : made b own w r w' ->
  gs_heap w = gs_heap w0 -> alive_gap w = alive_gap w0 -> gs_blocks w0 ⊆ gs_blocks w ->
  (forall x bs, private x bs w0 -> private x bs w /\ forall n, (x, n) ∉ body_blocks b) ->
  born b own w0 r w'.
Proof.
  intros [H1 H2 H3 H4 H5 H6 H7] Eh Eg Ebs Hb. split; rewrite <- ?Eh, ?H6; try done.
  - by rewrite H2.
  - intros q o. rewrite <- Eh. apply H7.
  - intros x bs Hx. destruct (Hb x bs Hx) as [[Hx1 Hp] Hn]. split; [by rewrite H6|].
    intros p o n Ho. destruct (decide (p = r)) as [->|Hne].
    + rewrite Ho in H3. injection H3 as ->. apply Hn.
    + pose proof (H5 p Hne) as E. rewrite Ho in E. destruct (gs_heap w !! p) as [o0|] eqn:Ho0; [|done].
      injection E as ->. by apply (Hp p o0).
Qed.

Lemma made_born b own w r w' : made b own w r w' -> body_blocks b = [] -> born b own w r w'.
Proof.
  intros Hm Eb. apply (made_born_from _ _ _ _ _ _ Hm); [done..|]. intros x bs Hx. split; [done|].
  intros n. rewrite Eb. apply not_elem_of_nil.
Qed.

Lemma born_nonzero b own w r w' : born b own w r w' -> r <> 0.
Proof.
  intros Hb ->. destruct (heap_ok_lookup _ _ _ _ 0 (born_counted _ _ _ _ _ Hb)) as (_ & _ & _ & _ & _ & ?);
    [multiset_solver|lia].
Qed.

Lemma born_stays b own w r w' lib : born b own w r w' -> stays lib w w'.
Proof.
  intros [H1 H2 H3 H4 H5 H6 H7 H8]. split; [|done|done]. intros p b' _ Hb. exists b'. split; [|apply kin_refl].
  rewrite H5; [done|]. intros ->. by rewrite H4 in Hb.
Qed.

Lemma born_uses b own w r w' p : born b own w r w' ->
  uses ({[+ r +]} ⊎ own) w' p = (uses own w p + multiplicity p ({[+ r +]} ⊎ refs_of (body_fields b)))%nat.
Proof.
  intros [H1 H2 H3 H4 H5 H6 H7 H8].
  assert (credits (gs_heap w') = <[r := refs_of (body_fields b)]> (credits (gs_heap w))) as EC.
  { apply map_eq. intros q. destruct (decide (q = r)) as [->|Hne].
    - rewrite lookup_insert_eq, credits_lookup. pose proof H3 as (o & -> & <-)%fmap_body. done.
    - rewrite lookup_insert_ne, !credits_lookup by done. pose proof (H5 q Hne) as E.
      destruct (gs_heap w' !! q) as [o|], (gs_heap w !! q) as [o0|]; try done. injection E as E. simpl. by rewrite E. }
  unfold uses. rewrite EC, total_insert by (by rewrite credits_lookup, H4).
  rewrite !multiplicity_disj_union. lia.
Qed.

(** ** Releases *)

Lemma kept_stays own lib w w' : lib ⊆ own -> counted own w' -> statics_stay w w' ->
  kept ∅ (credits (gs_heap w)) w (credits (gs_heap w')) w' -> stays lib w w'.
Proof.
  intros Hsub Hw' Hst K. split; [|done|].
  - intros p b Hp (o & Ho & Eo)%fmap_body.
    destruct (heap_ok_lookup _ _ _ _ p Hw') as (o' & m & Ho' & Hm & _); [by eapply gmultiset_elem_of_subseteq|].
    destruct (k_live _ _ _ _ _ K p o') as (o0 & Ho0 & Es); [apply elem_of_dom; eauto|done|]. simplify_eq.
    exists (ob_body o'). rewrite Ho'. split; [done|]. split; [by rewrite (shape_type _ _ Es)|].
    destruct (ob_body o) eqn:Eb; try done. apply (f_equal ob_body) in Es. simpl in Es. rewrite Eb in Es.
    by destruct (ob_body o'); simplify_eq/=.
  - intros x bs [Hx Hp]. split.
    + apply (k_blocks _ _ _ _ _ K x bs Hx). intros q o n Ho Hn. by destruct (Hp q o n Ho).
    + intros p o' n Ho'. destruct (kept_from _ _ _ _ _ p o' K Ho') as (o & Ho & <-). by apply (Hp p o).
Qed.

Lemma kept_uses own w w' p : kept ∅ (credits (gs_heap w)) w (credits (gs_heap w')) w' ->
  (uses own w' p <= uses own w p)%nat.
Proof.
  intros K. unfold uses. rewrite !multiplicity_disj_union.
  pose proof (total_sub _ _ (k_sub _ _ _ _ _ K) p). lia.
Qed.

Lemma gwp_forall {A B} (m : G os A) (Q : B -> A -> guest os -> Prop) w (b0 : B) :
  (forall b, gwp pan m (Q b) w) -> gwp pan m (fun a w' => forall b, Q b a w') w.
Proof. unfold gwp. intros Hb. pose proof (Hb b0). by destruct (m w) as [[a w']| | |]. Qed.

Lemma gwp_and {A} (m : G os A) (Q Q' : A -> guest os -> Prop) w :
  gwp pan m Q w -> gwp pan m Q' w -> gwp pan m (fun a w' => Q a w' /\ Q' a w') w.
Proof. unfold gwp. by destruct (m w) as [[a w']| | |]. Qed.

Lemma release_statics own w q : counted (refs_of [q] ⊎ own) w ->
  gwp pan (CFRelease env q) (fun _ w' => statics_stay w w') w.
Proof.
  intros Hw. eapply gwp_mono; [apply (gwp_forall (B:=Z) _ (fun v (_ : unit) w' =>
    forall o, gs_heap w !! v = Some o -> is_static o -> exists o', gs_heap w' !! v = Some o' /\ is_static o') w 0)|].
  2: { intros [] w' Hv v o Ho Hs. by apply (Hv v o). }
  intros v. assert ((exists o, gs_heap w !! v = Some o /\ is_static o) \/
    ~ exists o, gs_heap w !! v = Some o /\ is_static o) as [(o & Ho & Hs)|Hn].
  { destruct (gs_heap w !! v) as [o|]; [|right; by intros (? & ? & _)].
    destruct (decide (is_static o)); [eauto|]. right. by intros (? & [= <-] & ?). }
  2: { eapply gwp_mono; [by apply (CFRelease_ok env own)|]. intros [] w' _ o Ho Hs. exfalso. eauto. }
  eapply gwp_mono; [apply (CFRelease_lasting env ∅ _ own w q v Hw); [by intros x []%elem_of_empty|by right; right; exists o]|].
  intros [] w' (C' & Hw' & K & _ & Hv) o0 Ho0 Hs0. simplify_eq.
  destruct Hv as [->|Hv]; [by rewrite (heap_ok_null _ _ _ _ Hw) in Ho|].
  pose proof (ho_live _ _ _ _ Hw' v Hv) as [o' Ho']%elem_of_dom.
  destruct (k_live _ _ _ _ _ K v o' Hv Ho') as (o1 & Ho1 & Es). simplify_eq. exists o'. split; [done|].
  by apply (shape_static _ _ Es).
Qed.

Record let_go own lib w w' : Prop := {
  lg_counted : counted own w';
  lg_stays : stays lib w w';
  lg_gap : alive_gap w' = alive_gap w;
  lg_uses : forall p, (uses own w' p <= uses own w p)%nat;
  lg_room : forall n, room n w -> room n w'
}.

Lemma release_step own lib w q : counted (refs_of [q] ⊎ own) w -> lib ⊆ own ->
  gwp pan (CFRelease env q) (fun _ w' => let_go own lib w w') w.
Proof.
  intros Hw Hlib. eapply gwp_mono; [apply gwp_and; [by apply (CFRelease_ok env own)|by eapply release_statics]|].
  intros [] w' [(Hc & K & Hg) Hst]. split; try done.
  - by eapply kept_stays.
  - intros p. by apply kept_uses.
  - intros n. eapply room_released; [exact Hw|exact Hc|exact K|by rewrite dom_credits].
Qed.

(** ** Memory of their own *)

Lemma private_block own w x bs bs' : counted own w -> private x bs w -> private x bs (with_block bs' w).
Proof.
  intros Hw [Hx Hp]. split; [|done]. simpl. rewrite lookup_insert_ne; [done|]. intros <-.
  apply (ho_block_addr _ _ _ _ Hw) in Hx. lia.
Qed.

Lemma with_block_more own w bs : counted own w -> gs_blocks w ⊆ gs_blocks (with_block bs w).
Proof. intros Hw. apply insert_subseteq. by apply (heap_ok_fresh _ _ _ _ Hw). Qed.

Lemma private_new own w bs : counted own w -> private (gs_next w) bs (with_block bs w).
Proof.
  intros Hw. split; [simpl; apply lookup_insert_eq|]. intros p o n Ho. by eapply block_fresh.
Qed.

Lemma private_read w x bs : private x bs w -> read_bytes (Some (x, 0)) (len bs) w = Done (bs, w).
Proof.
  intros [Hx _]. unfold read_bytes. destruct (Z.eqb_spec (len bs) 0) as [E|E].
  { by destruct bs; [|simpl in E; lia]. }
  rewrite Hx. rewrite (proj2 (Z.leb_le 0 (len bs))), (proj2 (Z.leb_le (0 + len bs) (len bs))) by lia. simpl.
  unfold slice. rewrite drop_0, take_ge; [done|]. lia.
Qed.

Lemma block_blocks x (bs : list byte) id : bs <> [] ->
  body_blocks (BlockBuffer (mk_vtf_cm_block_buffer (Some (x, 0)) (len bs) true id)) = [(x, len bs)].
Proof.
  intros Hne. unfold body_blocks. simpl. destruct (Z.eqb_spec (len bs) 0); [by destruct bs|done].
Qed.

(** An object takes a private block for its own. *)
Lemma own_block own w p o b b' x bs :
  counted own w -> gs_heap w !! p = Some o -> ob_body o = BlockBuffer b ->
  body_blocks (BlockBuffer b) = [] -> private x bs w -> bs <> [] ->
  b' = mk_vtf_cm_block_buffer (Some (x, 0)) (len bs) true (bb_output_id b) ->
  counted own (rebodied p (BlockBuffer b') w).
Proof.
  intros Hw Ho Eo Eb [Hx Hp] Hne ->. pose proof (ho_object _ _ _ _ Hw p o Ho) as Hok.
  pose proof (block_blocks x bs (bb_output_id b) Hne) as Ebl.
  eapply counted_rebodied; [exact Hw|exact Ho|..]; rewrite ?Eo; try done.
  - intros [E|E]%(oo_static _ Hok); by rewrite Eo in E.
  - simpl. constructor; [|done]. split; [lia|]. right. right. by exists x.
  - rewrite Ebl. simpl. apply NoDup_singleton.
  - intros y n. simpl. rewrite Ebl. intros [= -> ->]%list_elem_of_singleton. right.
    split; [by exists bs|]. intros q oq n'. apply Hp.
Qed.

(** *** Block buffers *)

Definition block_holds w (b : vtf_cm_block_buffer) (bs : list byte) : Prop :=
  bb_owns_bytes b = true /\ bb_length b = len bs /\ (bs = [] \/ exists x, bb_bytes b = Some (x, 0) /\ gs_blocks w !! x = Some bs).

Lemma create_block_ok own w x bs : counted own w -> len bs <= ISIZE_MAX -> bs = [] \/ private x bs w ->
  exists r w' b, CMBlockBufferCreateWithMemoryBlock (if decide (bs = []) then dangling else Some (x, 0))
    (len bs) 0 (len bs) true w = Done ((noErr, Some r), w') /\
    born (BlockBuffer b) own w r w' /\ block_holds w' b bs.
Proof.
  intros Hw Hl Hbs. set (b0 := mk_vtf_cm_block_buffer None (len bs) true 0).
  destruct (create_sound (BlockBuffer b0) own w VTF_TYPE_BLOCK_BUFFER Finalize_block_buffer)
    as (r & w1 & E1 & Hm); [by simpl; rewrite refs_nil, (left_id_L ∅ (⊎))| |done|done|].
  { split; simpl.
    - constructor; [|done]. split; [lia|by left].
    - constructor.
    - done.
    - by intros q k []%elem_of_nil.
    - by intros y n []%elem_of_nil. }
  pose proof (made_born _ _ _ _ _ Hm eq_refl) as Hb.
  unfold CMBlockBufferCreateWithMemoryBlock.
  change (negb true) with false. destruct (Z.gtb_spec 0 (len bs)); [lia|].
  destruct (Z.gtb_spec (len bs) (len bs - 0)); [lia|]. change (false || false || false) with false. cbv iota.
  rewrite bind_assoc, (bind_eq _ _ _ _ _ E1).
  destruct (decide (bs = [])) as [->|Hne].
  { exists r, w1, b0. split; [done|]. split; [done|]. split_and!; [done..|by left]. }
  destruct Hbs as [|Hpr]; [done|]. assert (0 < len bs) by (destruct bs; [done|simpl; lia]).
  destruct (Z.gtb_spec (len bs) 0); [|lia].
  pose proof (born_counted _ _ _ _ _ Hb) as Hc1. pose proof (born_private _ _ _ _ _ Hb x bs Hpr) as Hpr1.
  assert (zero_bytes (os:=os) (len bs) w1 = Done (replicate (Z.to_nat (len bs)) Byte.x00, w1)) as Ez.
  { unfold zero_bytes. by destruct (Z.gtb_spec (len bs) ISIZE_MAX); [lia|]. }
  set (w2 := w1 <| gs_data_copy_bytes ::= (fun n => wrap 64 (n + len bs)) |>
    <| gs_data_copy_events ::= (fun n => wrap 64 (n + 1)) |>).
  assert (counted ({[+ r +]} ⊎ own) w2) as Hc2 by (by eapply heap_ok_ext; [..|exact Hc1]).
  set (w3 := with_block bs w2). pose proof (private_new _ w2 bs Hc2) as Hnew. fold w3 in Hnew.
  pose proof (born_body _ _ _ _ _ Hb) as (o & Ho & Eo)%fmap_body.
  assert (gs_heap w3 !! r = Some o) as Ho3 by exact Ho.
  assert (as_block_buffer r w3 = Done (b0, w3)) as Ea by (clear Ho; read_body).
  set (b := mk_vtf_cm_block_buffer (Some (gs_next w2, 0)) (len bs) true 0).
  exists r, (rebodied r (BlockBuffer b) w3), b. split_and!.
  - rewrite (bind_eq _ tt w1 (rebodied r (BlockBuffer b) w3)); [done|]. rewrite (bind_eq _ _ _ _ _ Ez).
    rewrite (bind_eq _ bs w1 w2). 2: { rewrite (bind_eq _ _ _ _ _ (private_read w1 x bs Hpr1)). done. }
    rewrite (bind_eq _ _ _ _ _ (box_block_run bs w2 Hne)). fold w3. rewrite (bind_eq _ _ _ _ _ Ea).
    apply put_body_eq. eauto.
  - assert (counted ({[+ r +]} ⊎ own) (rebodied r (BlockBuffer b) w3)) as Hc4.
    { eapply own_block; [by apply counted_block|exact Ho3|exact Eo|done|exact Hnew|done|done]. }
    destruct Hb as [B1 B2 B3 B4 B5 B6 B7 B8]. split; try done.
    + by rewrite rebodied_gap.
    + by rewrite (rebodied_lookup _ _ _ o Ho3).
    + intros q Hq. rewrite rebodied_others by done. by apply B5.
    + intros q oq Hq Hs. destruct (decide (q = r)) as [->|Hqr]; [by rewrite B4 in Hq|].
      rewrite rebodied_others by done. by apply (B6 q oq).
    + intros y ys Hy. pose proof (private_block _ w2 y ys bs Hc2 (B7 y ys Hy)) as [Y1 Y2]. fold w3 in Y1, Y2.
      split; [done|]. intros q oq n Hq. destruct (decide (q = r)) as [->|Hqr].
      * rewrite (rebodied_lookup _ _ _ o Ho3) in Hq. injection Hq as <-. simpl. unfold b.
        rewrite (block_blocks _ bs 0 Hne), list_elem_of_singleton. intros [= -> ->].
        destruct (B7 _ _ Hy) as [Hy1 _]. apply (ho_block_addr _ _ _ _ Hc1) in Hy1. simpl in Hy1. lia.
      * rewrite rebodied_others in Hq by done. by apply (Y2 q oq).
    + etrans; [exact B8|]. exact (with_block_more _ w2 bs Hc2).
  - split_and!; [done..|]. right. exists (gs_next w2). split; [done|]. simpl. apply lookup_insert_eq.
Qed.

Lemma block_from_bytes_ok own w x bs : counted own w -> len bs <= ISIZE_MAX -> bs = [] \/ private x bs w ->
  exists r w' b, vtf_create_block_buffer_from_bytes (if decide (bs = []) then dangling else Some (x, 0)) (len bs) w =
    Done (r, w') /\ born (BlockBuffer b) own w r w' /\ block_holds w' b bs.
Proof.
  intros Hw Hl Hbs. destruct (create_block_ok own w x bs Hw Hl Hbs) as (r & w' & b & E & Hb & Hh).
  exists r, w', b. split; [|done]. unfold vtf_create_block_buffer_from_bytes. by rewrite (bind_eq _ _ _ _ _ E).
Qed.

(** *** Format descriptions *)

(** The parameter sets the table of sizes cuts out of the data. *)
Fixpoint cut_sets (sizes : list Z) (offset : Z) (data : list byte) : list (list byte) :=
  match sizes with
  | [] => []
  | size :: sizes =>
      if (size =? 0) || (offset + size >? len data) then []
      else slice (Z.to_nat offset) (Z.to_nat size) data :: cut_sets sizes (offset + size) data
  end.

(** Where the blocks go. *)
Fixpoint boxes_at (n : Z) (bss : list (list byte)) : list (rawptr * Z) :=
  match bss with [] => [] | bs :: bss => (Some (n, 0), len bs) :: boxes_at (Z.succ n) bss end.

Definition with_blocks (bss : list (list byte)) w : guest os := foldl (fun w bs => with_block bs w) w bss.

Lemma with_blocks_heap bss w : gs_heap (with_blocks bss w) = gs_heap w.
Proof. revert w. induction bss as [|bs bss IH]; intros w; simpl; [done|]. by rewrite IH. Qed.

Lemma with_blocks_alive bss w : gs_alive (with_blocks bss w) = gs_alive w.
Proof. revert w. induction bss as [|bs bss IH]; intros w; simpl; [done|]. by rewrite IH. Qed.

Lemma counted_blocks own bss w : counted own w -> counted own (with_blocks bss w).
Proof. revert w. induction bss as [|bs bss IH]; intros w Hw; simpl; [done|]. by apply IH, counted_block. Qed.

Lemma private_blocks own bss w x bs : counted own w -> private x bs w -> private x bs (with_blocks bss w).
Proof.
  revert w. induction bss as [|b bss IH]; intros w Hw Hp; simpl; [done|].
  apply IH; [by apply counted_block|by eapply private_block].
Qed.

Lemma with_blocks_more own bss w : counted own w -> gs_blocks w ⊆ gs_blocks (with_blocks bss w).
Proof.
  revert w. induction bss as [|b bss IH]; intros w Hw; simpl; [done|].
  etrans; [by eapply with_block_more|]. by apply IH, counted_block.
Qed.

Lemma new_blocks own bss w i p n : counted own w -> boxes_at (gs_next w) bss !! i = Some (p, n) ->
  exists bs, bss !! i = Some bs /\ p = Some (gs_next w + Z.of_nat i, 0) /\ n = len bs /\
    private (gs_next w + Z.of_nat i) bs (with_blocks bss w).
Proof.
  revert w i. induction bss as [|b bss IH]; intros w i Hw Hi; [done|]. destruct i as [|i].
  - injection Hi as <- <-. exists b. rewrite Z.add_0_r. split_and!; try done. simpl.
    eapply private_blocks; [by apply counted_block|by eapply private_new].
  - simpl in Hi. destruct (IH (with_block b w) i) as (bs & Hb & Ep & En & Hp); [by apply counted_block|done|].
    exists bs. simpl in Ep, Hp. replace (gs_next w + Z.of_nat (S i)) with (Z.succ (gs_next w) + Z.of_nat i) by lia.
    done.
Qed.

Lemma store_sets_run sizes : forall offset data w, len data <= ISIZE_MAX -> 0 <= offset <= len data ->
  Forall (fun n => 0 <= n < 2 ^ 32) sizes ->
  store_parameter_sets sizes offset data w =
    Done (boxes_at (gs_next w) (cut_sets sizes offset data), with_blocks (cut_sets sizes offset data) w).
Proof.
  induction sizes as [|size sizes IH]; intros offset data w Hd Ho Hs; [done|].
  apply Forall_cons in Hs as [Hsz Hs]. simpl.
  destruct (Z.eqb_spec size 0) as [->|Hnz]; [done|]. simpl.
  rewrite arith_in by (unfold ISIZE_MAX in Hd; lia). unfold mbind at 1, G_bind at 1. cbn [of_rust].
  destruct (Z.gtb_spec (offset + size) (len data)) as [Hg|Hg]; [done|].
  set (b := slice (Z.to_nat offset) (Z.to_nat size) data).
  assert (len b = size) as Eb by (unfold b, slice; rewrite length_take, length_drop; lia).
  assert (b <> []) as Hb by (intros E; rewrite E in Eb; simpl in Eb; lia).
  rewrite (bind_eq _ _ _ _ _ (box_block_run b w Hb)).
  rewrite (bind_eq _ _ _ _ _ (IH (offset + size) data (with_block b w) Hd ltac:(lia) Hs)).
  simpl. by rewrite Eb.
Qed.

Lemma with_blocks_next bss w : gs_next (with_blocks bss w) = gs_next w + len bss.
Proof.
  revert w. induction bss as [|bs bss IH]; intros w; simpl; [lia|]. fold (with_blocks bss (with_block bs w)).
  rewrite IH. simpl. lia.
Qed.

Lemma with_blocks_blocks bss w w1 : gs_next w1 = gs_next w -> gs_blocks w1 = gs_blocks w ->
  gs_blocks (with_blocks bss w1) = gs_blocks (with_blocks bss w).
Proof.
  revert w w1. induction bss as [|bs bss IH]; intros w w1 En Eb; simpl; [done|].
  apply IH; simpl; by rewrite ?En, ?Eb.
Qed.

Lemma boxes_length n bss : length (boxes_at n bss) = length bss.
Proof. revert n. induction bss as [|bs bss IH]; intros n; simpl; [done|]. by rewrite IH. Qed.

Lemma cut_length sizes offset data : (length (cut_sets sizes offset data) <= length sizes)%nat.
Proof. revert offset. induction sizes as [|n sizes IH]; intros offset; simpl; [done|]. case_match; simpl; [lia|]. specialize (IH (offset + n)). lia. Qed.

Lemma boxes_blocks n bss : Forall (fun bs => bs <> []) bss ->
  ('(p, k) ← boxes_at n bss; box_of p k) = zip (seqZ n (len bss)) ((fun bs => len bs) <$> bss).
Proof.
  revert n. induction bss as [|bs bss IH]; intros n Hne; [done|]. apply Forall_cons in Hne as [Hb Hne].
  rewrite seqZ_cons by (simpl; lia). cbn [boxes_at fmap list_fmap zip_with mbind list_bind]. simpl.
  destruct (Z.eqb_spec (len bs) 0); [by destruct bs|]. simpl. f_equal.
  replace (Z.pred (Z.of_nat (S (length bss)))) with (len bss) by lia. by apply IH.
Qed.

Lemma cut_nonempty sizes : forall offset data, 0 <= offset -> Forall (fun n => 0 <= n) sizes ->
  Forall (fun bs => bs <> []) (cut_sets sizes offset data).
Proof.
  induction sizes as [|n sizes IH]; intros offset data Ho Hs; simpl; [done|].
  apply Forall_cons in Hs as [Hn Hs]. destruct (Z.eqb_spec n 0); [done|]. simpl.
  destruct (Z.gtb_spec (offset + n) (len data)); [done|]. constructor; [|apply IH; [lia|done]].
  intros E%(f_equal length). unfold slice in E. rewrite length_take, length_drop in E. simpl in E. lia.
Qed.

(** The description that holds the parameter sets [bss], in blocks from [n] on. *)
Definition described (codec width height nal n : Z) (bss : list (list byte)) : vtf_cm_format_description :=
  let sets := boxes_at n bss in
  mk_vtf_cm_format_description codec width height 0 nal (len sets) (pad4 0 sets.*2) (pad4 None sets.*1).

Lemma described_boxes codec width height nal n bss : (length bss <= 4)%nat ->
  parameter_set_boxes (described codec width height nal n bss) = boxes_at n bss.
Proof.
  intros Hl. pose proof (boxes_length n bss) as El.
  unfold parameter_set_boxes, described, pad4. simpl. rewrite Nat2Z.id.
  rewrite <- zip_with_take, take_take, Nat.min_l.
  2: { rewrite El. done. }
  rewrite zip_with_app by (by rewrite !length_fmap).
  rewrite take_app_le by (rewrite length_zip_with, !length_fmap; lia).
  rewrite zip_fst_snd. by rewrite take_ge.
Qed.

Lemma described_sound own w codec width height nal bss : counted own w -> (length bss <= 4)%nat ->
  Forall (fun bs => bs <> []) bss ->
  sound (FormatDescription (described codec width height nal (gs_next w) bss)) (with_blocks bss w).
Proof.
  intros Hw Hl Hne. pose proof (described_boxes codec width height nal (gs_next w) bss Hl) as Ebx.
  assert (body_blocks (FormatDescription (described codec width height nal (gs_next w) bss)) =
    zip (seqZ (gs_next w) (len bss)) ((fun bs => len bs) <$> bss)) as Ebl.
  { unfold body_blocks, body_boxes. rewrite Ebx. by apply boxes_blocks. }
  assert (length (seqZ (gs_next w) (len bss)) <= length ((fun bs : list byte => len bs) <$> bss))%nat as Hls
    by (rewrite length_fmap, length_seqZ; lia).
  split.
  - unfold body_boxes. rewrite Ebx. apply list.Forall_forall. intros [p n] [i Hi]%list_elem_of_lookup_1.
    destruct (new_blocks own bss w i p n Hw Hi) as (bs & _ & -> & -> & _). split; [lia|]. right. right. eauto.
  - rewrite Ebl, fst_zip by done. apply NoDup_seqZ.
  - done.
  - by intros q k []%elem_of_nil.
  - intros x n. rewrite Ebl. intros [i Hi]%list_elem_of_lookup_1.
    apply lookup_zip_with_Some in Hi as (a & b & [= -> ->] & Hx & Hn).
    apply lookup_seqZ in Hx as [-> Hi]. rewrite list_lookup_fmap in Hn.
    destruct (bss !! i) as [bs|] eqn:Hb; [|done]. injection Hn as <-.
    destruct (lookup_lt_is_Some_2 (boxes_at (gs_next w) bss) i) as [[p n] Hp];
      [rewrite boxes_length; by apply lookup_lt_is_Some_1; eauto|].
    destruct (new_blocks own bss w i p n Hw Hp) as (bs' & Hb' & _ & _ & [Hx Hpr]). simplify_eq. split; [eauto|].
    intros q o n'. apply Hpr.
Qed.

(** What a format description holds. *)
Definition format_holds w (fd : vtf_cm_format_description) (bss : list (list byte)) : Prop :=
  fd_parameter_set_count fd = len bss /\
  forall i bs, bss !! i = Some bs -> exists x, fd_parameter_sets fd !! i = Some (Some (x, 0)) /\
    fd_parameter_set_sizes fd !! i = Some (len bs) /\ gs_blocks w !! x = Some bs.

Lemma described_holds own w w' codec width height nal bss : counted own w -> (length bss <= 4)%nat ->
  gs_blocks w' = gs_blocks (with_blocks bss w) ->
  format_holds w' (described codec width height nal (gs_next w) bss) bss.
Proof.
  intros Hw Hl Eb. split; [simpl; by rewrite boxes_length|]. intros i bs Hi.
  pose proof (lookup_lt_Some _ _ _ Hi). pose proof (boxes_length (gs_next w) bss) as El.
  destruct (lookup_lt_is_Some_2 (boxes_at (gs_next w) bss) i) as [[p n] Hp]; [lia|].
  destruct (new_blocks own bss w i p n Hw Hp) as (bs' & Hb' & -> & -> & [Hx _]). simplify_eq.
  exists (gs_next w + Z.of_nat i). simpl. unfold pad4.
  rewrite !lookup_take_lt, !lookup_app_l, !list_lookup_fmap, Hp by (rewrite ?length_fmap; lia).
  by rewrite Eb.
Qed.

Lemma create_format_ok own w codec width height count sizes data nal :
  counted own w -> len data <= ISIZE_MAX -> Forall (fun n => 0 <= n < 2 ^ 32) sizes ->
  let bss := cut_sets (take (Z.to_nat (Z.min count 4)) sizes) 0 data in
  exists r w' fd, vtf_create_video_format_description codec width height count sizes data nal w = Done (r, w') /\
    born (FormatDescription fd) own w r w' /\ format_holds w' fd bss /\
    fd = described codec width height nal (gs_next w) bss.
Proof.
  intros Hw Hd Hs bss. set (tsz := take (Z.to_nat (Z.min count 4)) sizes) in *.
  assert (Forall (fun n => 0 <= n < 2 ^ 32) tsz) as Hts by (by apply Forall_take).
  assert (length bss <= 4)%nat as Hl.
  { unfold bss. etrans; [apply cut_length|]. unfold tsz. rewrite length_take. lia. }
  assert (Forall (fun bs => bs <> []) bss) as Hne.
  { apply cut_nonempty; [lia|]. eapply Forall_impl; [exact Hts|]. simpl. lia. }
  pose proof (described_sound own w codec width height nal bss Hw Hl Hne) as Hsnd.
  set (fd := described codec width height nal (gs_next w) bss) in *.
  set (w0 := w <| gs_alive ::= (fun n => as_signed 64 (n + 1)) |>
    <| gs_next_proxy_id ::= (fun n => wrap 64 (n + 1)) |>).
  destruct (new_made (FormatDescription fd) (mk_vtf_cf_object VTF_OBJECT_MAGIC VTF_TYPE_FORMAT_DESCRIPTION 1 0
    (gs_next_proxy_id w) 1 0 (Some Finalize_format_description)) own (with_blocks bss w) (with_blocks bss w0))
    as (r & w' & E & Hm).
  - by rewrite !with_blocks_heap.
  - by apply with_blocks_blocks.
  - by rewrite !with_blocks_next.
  - by rewrite !with_blocks_alive.
  - simpl. rewrite refs_null, (left_id_L ∅ (⊎)). by apply counted_blocks.
  - done.
  - split_and!; try done.
  - exists r, w', fd. split_and!; [| |by eapply described_holds; [..|apply (made_blocks _ _ _ _ _ Hm)]|done].
    + unfold vtf_create_video_format_description, mbind at 1, G_bind at 1, vtf_cf_object_init at 1. cbv beta zeta.
      fold w0. fold tsz. rewrite (bind_eq _ _ _ _ _ (store_sets_run tsz 0 data w0 Hd ltac:(lia) Hts)). exact E.
    + apply (made_born_from _ _ _ _ _ _ Hm); [by rewrite with_blocks_heap| |by eapply with_blocks_more|].
      * unfold alive_gap. by rewrite with_blocks_heap, with_blocks_alive.
      * intros x bs Hx. split; [by eapply private_blocks|]. intros n Hn.
        destruct (snd_owned _ _ Hsnd x n Hn) as [(bs' & _) _].
        unfold body_blocks, body_boxes, fd in Hn. rewrite described_boxes, boxes_blocks in Hn by done.
        apply elem_of_zip_l, elem_of_seqZ in Hn. destruct Hx as [Hx _].
        apply (ho_block_addr _ _ _ _ Hw) in Hx. lia.
Qed.

(** *** Sample buffers *)

Definition dropped p w : guest os :=
  w <| gs_heap ::= alter (fun o => o <| ob_base ::= (fun b => b <| cf_refcount ::= (fun n => n - 1) |>) |>) p |>.

Lemma dropped_body p w q : ob_body <$> gs_heap (dropped p w) !! q = ob_body <$> gs_heap w !! q.
Proof.
  unfold dropped. simpl. destruct (decide (p = q)) as [->|Hne]; [|by rewrite lookup_alter_ne].
  rewrite lookup_alter_eq. by destruct (gs_heap w !! q).
Qed.

(** An object with another reference only loses a count. *)
Lemma release_shared w p o : p <> 0 -> gs_heap w !! p = Some o -> ~ is_static o ->
  1 < cf_refcount (ob_base o) < 2 ^ 31 -> CFRelease env p w = Done (tt, dropped p w).
Proof.
  intros Hp Ho Hs Hc. unfold CFRelease, is_static in *. cbn [release_within].
  destruct (Z.eqb_spec p 0); [done|]. unfold mbind, G_bind, get_object, put_object. rewrite Ho.
  destruct (Z.eqb_spec (Z.land (cf_flags (ob_base o)) VTF_OBJECT_FLAG_STATIC) 0); [|done]. simpl. rewrite Ho.
  destruct (Z.eqb_spec (cf_refcount (ob_base o)) 1); [lia|]. unfold mret, G_ret. do 2 f_equal.
  unfold dropped. erewrite (heap_upd_ext (alter _ p)); [|by apply alter_present].
  do 2 f_equal. rewrite as_signed_small; [done..|lia].
Qed.

(** Objects come, the others stay as they are. *)
Record enlarged own w own' w' : Prop := {
  en_counted : counted own' w';
  en_gap : alive_gap w' = alive_gap w;
  en_bodies : forall q b, ob_body <$> gs_heap w !! q = Some b -> ob_body <$> gs_heap w' !! q = Some b;
  en_static : statics_stay w w';
  en_private : forall x bs, private x bs w -> private x bs w';
  en_blocks : gs_blocks w ⊆ gs_blocks w'
}.

Definition constant w p : Prop := exists o, gs_heap w !! p = Some o /\ is_static o.

Lemma constant_stays w w' p : statics_stay w w' -> constant w p -> constant w' p.
Proof. intros Hst (o & Ho & Hs). by apply (Hst p o). Qed.

Lemma constant_alive w p : constant w p -> alive w p.
Proof. intros (o & Ho & _). by eapply alive_some. Qed.

Lemma born_enlarged b own w r w' : born b own w r w' -> enlarged own w ({[+ r +]} ⊎ own) w'.
Proof.
  intros [H1 H2 H3 H4 H5 H6 H7 H8]. split; try done. intros q b' Hq. rewrite H5; [done|]. intros ->. by rewrite H4 in Hq.
Qed.

Lemma enlarged_trans own w own1 w1 own2 w2 : enlarged own w own1 w1 -> enlarged own1 w1 own2 w2 -> enlarged own w own2 w2.
Proof.
  intros [A1 A2 A3 A4 A5 A6] [B1 B2 B3 B4 B5 B6]. split; [done|congruence|auto|by eapply statics_trans|auto|by etrans].
Qed.

Lemma enlarged_stays own w own' w' lib : enlarged own w own' w' -> stays lib w w'.
Proof. intros [H1 H2 H3 H4 H5 H6]. split; [|done..]. intros p b _ Hb. exists b. split; [auto|apply kin_refl]. Qed.

Lemma enlarged_absent own w own' w' q : enlarged own w own' w' -> gs_heap w' !! q = None -> gs_heap w !! q = None.
Proof.
  intros Hg Hq. destruct (gs_heap w !! q) as [o|] eqn:Ho; [|done].
  pose proof (en_bodies _ _ _ _ Hg q (ob_body o)) as Hb. rewrite Ho, Hq in Hb. by discriminate Hb.
Qed.

(** Giving back one of several references to an object. *)
Lemma release_second own w p : counted ({[+ p +]} ⊎ own) w -> (2 <= uses ({[+ p +]} ⊎ own) w p)%nat ->
  (exists o, gs_heap w !! p = Some o /\ ~ is_static o) ->
  CFRelease env p w = Done (tt, dropped p w) /\ enlarged ({[+ p +]} ⊎ own) w own (dropped p w).
Proof.
  intros Hw Hu (o & Ho & Hs). pose proof (ho_addr _ _ _ _ Hw p o Ho).
  destruct (ho_count _ _ _ _ Hw p o Ho Hs) as (Ec & _ & Hmax). unfold uses in Hu.
  assert (CFRelease env p w = Done (tt, dropped p w)) as E by (eapply release_shared; [lia|done..|lia]).
  split; [done|]. pose proof (release_step own own w p) as Hl. rewrite refs_single in Hl by lia.
  specialize (Hl Hw ltac:(done)). unfold gwp in Hl. rewrite E in Hl. destruct Hl as [L1 L2 L3 L4 L5].
  split; try done; [|by apply L2..]. intros q b Hb. by rewrite dropped_body.
Qed.

Record attachments_of_sample own w key value (a d : Z) w' : Prop := {
  sa_enlarged : enlarged own w ({[+ a +]} ⊎ own) w';
  sa_array : ob_body <$> gs_heap w' !! a = Some (Array (mk_vtf_cf_array [d]));
  sa_dictionary : ob_body <$> gs_heap w' !! d = Some (Dictionary (mk_vtf_cf_dictionary [key] [value]));
  sa_new : gs_heap w !! a = None /\ gs_heap w !! d = None;
  sa_uses : forall p, (uses own w' p <= uses own w p + multiplicity p ({[+ d +]} ⊎ refs_of [key; value]))%nat
}.

Lemma sample_attachments_ok own w key value : counted own w -> room 2 w -> constant w key -> constant w value ->
  exists a d w1 w2 w3, CFDictionaryCreate (Some [key]) (Some [value]) 1 w = Done (d, w1) /\
    CFArrayCreate (Some [d]) 1 w1 = Done (a, w2) /\ CFRelease env d w2 = Done (tt, w3) /\
    attachments_of_sample own w key value a d w3.
Proof.
  intros Hw Hr Hk Hv.
  destruct (CFDictionaryCreate_ok own w (Some [key]) (Some [value]) 1) as (d & w1 & E1 & M1); try done.
  { intros l [= <-]. done. } { intros l [= <-]. done. }
  { constructor; [by apply constant_alive|done]. } { constructor; [by apply constant_alive|done]. }
  change (args_of (Some [?x]) (Z.to_nat 1)) with [x] in M1.
  pose proof (made_born _ _ _ _ _ M1 eq_refl) as B1. pose proof (born_enlarged _ _ _ _ _ B1) as G1.
  pose proof (born_body _ _ _ _ _ B1) as (od & Hod & Eod)%fmap_body.
  assert (room 1 w1) as Hr1.
  { eapply (room_from own w ({[+ d +]} ⊎ own) w1 1 ({[+ d +]} ⊎ refs_of [key; value]));
      [done|apply G1|apply G1|intros p; by rewrite (born_uses _ _ _ _ _ p B1)| | |by eapply room_mono; [|done]].
    - intros p o [->%gmultiset_elem_of_singleton|Hp]%gmultiset_elem_of_disj_union Ho;
        [by rewrite (born_new _ _ _ _ _ B1) in Ho|].
      apply elem_of_refs in Hp as [_ [->|[->|[]%elem_of_nil]%elem_of_cons]%elem_of_cons];
        [destruct Hk as (? & ? & ?)|destruct Hv as (? & ? & ?)]; by simplify_eq.
    - rewrite gmultiset_size_disj_union, gmultiset_size_singleton.
      pose proof (refs_size [key; value]). simpl in *. lia. }
  destruct (CFArrayCreate_ok ({[+ d +]} ⊎ own) w1 (Some [d]) 1) as (a & w2 & E2 & M2); try done.
  { apply G1. } { intros l [= <-]. done. } { constructor; [by eapply alive_some|done]. }
  change (args_of (Some [?x]) (Z.to_nat 1)) with [x] in M2.
  pose proof (made_born _ _ _ _ _ M2 eq_refl) as B2. pose proof (born_enlarged _ _ _ _ _ B2) as G2.
  assert (d <> 0) as Hd0 by (by eapply born_nonzero).
  assert (a <> d) as Had by (intros ->; by rewrite (born_new _ _ _ _ _ B2) in Hod).
  assert (ob_body <$> gs_heap w2 !! d = Some (Dictionary (mk_vtf_cf_dictionary [key] [value]))) as Hd2
    by (apply (en_bodies _ _ _ _ G2); apply B1).
  pose proof Hd2 as (od2 & Hod2 & Eod2)%fmap_body.
  assert ({[+ a +]} ⊎ ({[+ d +]} ⊎ own) = {[+ d +]} ⊎ ({[+ a +]} ⊎ own)) as Eo by (clear; multiset_solver).
  assert (forall p, uses ({[+ a +]} ⊎ ({[+ d +]} ⊎ own)) w2 p =
    (uses ({[+ d +]} ⊎ own) w1 p + multiplicity p ({[+ a +]} ⊎ {[+ d +]}))%nat) as U2.
  { intros p. rewrite (born_uses _ _ _ _ _ p B2). cbn [body_fields cfa_values]. by rewrite refs_single. }
  destruct (release_second ({[+ a +]} ⊎ own) w2 d) as [E3 G3].
  { rewrite <- Eo. apply G2. }
  { rewrite <- Eo, U2, uses_own, multiplicity_disj_union, !multiplicity_singleton, decide_True by done. lia. }
  { exists od2. split; [done|]. eapply not_static_dictionary; [|exact Eod2]. by eapply (ho_object _ _ _ _ (en_counted _ _ _ _ G2)). }
  exists a, d, w1, w2, (dropped d w2). split_and!; [done..|]. split.
  - eapply enlarged_trans; [exact G1|]. eapply enlarged_trans; [exact G2|]. rewrite Eo. exact G3.
  - apply G3, B2.
  - by apply G3.
  - split; [|apply B1]. eapply enlarged_absent; [exact G1|apply B2].
  - intros p. pose proof (U2 p) as U. pose proof (born_uses _ _ _ _ _ p B1) as V. cbn [body_fields cfd_keys cfd_values app] in V.
    assert (credits (gs_heap (dropped d w2)) = credits (gs_heap w2)) as Ecr.
    { apply map_eq. intros q. rewrite !credits_lookup. pose proof (dropped_body d w2 q) as Eq.
      destruct (gs_heap (dropped d w2) !! q) as [o1|], (gs_heap w2 !! q) as [o2|]; try done. simpl in *. by injection Eq as ->. }
    rewrite (uses_credits _ _ _ _ Ecr).
    rewrite !uses_own in U. rewrite uses_own in V. rewrite !multiplicity_disj_union in *. lia.
Qed.

Lemma attachments_room own w key value a d w' n : counted own w -> attachments_of_sample own w key value a d w' ->
  constant w key -> constant w value -> n < 2 ^ 30 -> room n w -> room n w'.
Proof.
  intros Hw [G A1 A2 [Na Nd] A4] Hk Hv Hn Hr.
  eapply (room_from own w ({[+ a +]} ⊎ own) w' n ({[+ a; d +]} ⊎ refs_of [key; value])); [done|apply G|apply G| | | |done].
  - intros p. rewrite uses_own. pose proof (A4 p) as U. rewrite !multiplicity_disj_union in *. lia.
  - intros p o [[->%gmultiset_elem_of_singleton| ->%gmultiset_elem_of_singleton]%gmultiset_elem_of_disj_union|Hp]%gmultiset_elem_of_disj_union Ho;
      [by rewrite Na in Ho|by rewrite Nd in Ho|].
    apply elem_of_refs in Hp as [_ [->|[->|[]%elem_of_nil]%elem_of_cons]%elem_of_cons];
      [destruct Hk as (? & ? & ?)|destruct Hv as (? & ? & ?)]; by simplify_eq.
  - rewrite !gmultiset_size_disj_union, !gmultiset_size_singleton. pose proof (refs_size [key; value]). simpl in *. lia.
Qed.

Definition sync_value (flags : Z) : Z :=
  if negb (Z.land flags VTF_ENCODE_OUTPUT_FLAG_SYNC =? 0) then kCFBooleanFalse else kCFBooleanTrue.

(** What the new sample buffer refers to, and who refers to what from now on. *)
Record sampled own w (blk fd src : Z) (key value : Z) (sb : vtf_cm_sample_buffer) (r : Z) w' : Prop := {
  sm_enlarged : enlarged own w ({[+ r +]} ⊎ own) w';
  sm_body : ob_body <$> gs_heap w' !! r = Some (SampleBuffer sb);
  sm_new : gs_heap w !! r = None;
  sm_attachments : exists d,
    gs_heap w !! smp_attachments sb = None /\ gs_heap w !! d = None /\
    ob_body <$> gs_heap w' !! smp_attachments sb = Some (Array (mk_vtf_cf_array [d])) /\
    ob_body <$> gs_heap w' !! d = Some (Dictionary (mk_vtf_cf_dictionary [key] [value])) /\
    forall p, (uses ({[+ r +]} ⊎ own) w' p <=
      uses own w p + multiplicity p ({[+ r; smp_attachments sb; d +]} ⊎ refs_of [key; value] ⊎ refs_of [blk; fd; src]))%nat
}.

Lemma retained_all_blocks l w : gs_blocks (retained_all l w) = gs_blocks w.
Proof. revert w. induction l as [|p l IH]; intros w; simpl; [done|]. by rewrite IH. Qed.
Lemma retained_all_next l w : gs_next (retained_all l w) = gs_next w.
Proof. revert w. induction l as [|p l IH]; intros w; simpl; [done|]. by rewrite IH. Qed.
Lemma retained_all_alive l w : gs_alive (retained_all l w) = gs_alive w.
Proof. revert w. induction l as [|p l IH]; intros w; simpl; [done|]. by rewrite IH. Qed.
Lemma retained_all_heap l w w1 : gs_heap w1 = gs_heap w -> gs_heap (retained_all l w1) = gs_heap (retained_all l w).
Proof. revert w w1. induction l as [|p l IH]; intros w w1 E; simpl; [done|]. apply IH. simpl. by rewrite E. Qed.

(** A new object that retains what it refers to, but for [m], which it takes over. *)
Lemma create_retaining b own m w l base w1 :
  counted (m ⊎ own) w -> Forall (alive w) l -> room (len l) w ->
  refs_of (body_fields b) = refs_of l ⊎ m -> sound b w -> header_for b base ->
  gs_heap w1 = gs_heap w -> gs_blocks w1 = gs_blocks w -> gs_next w1 = gs_next w ->
  gs_alive w1 = as_signed 64 (gs_alive w + 1) ->
  exists r w', new_object (mk_object base b) (retained_all l w1) = Done (r, w') /\ made b own w r w'.
Proof.
  intros Hw Hl Hr Ef Hs Hh Eh Eb En Ea. destruct (retain_list_eq ∅ _ _ w l Hw Hl Hr) as [_ Hw1].
  destruct (new_made b base own (retained_all l w) (retained_all l w1)) as (r & w' & E & Hm); try done.
  - by apply retained_all_heap.
  - by rewrite !retained_all_blocks.
  - by rewrite !retained_all_next.
  - by rewrite !retained_all_alive.
  - unfold counted. rewrite retained_all_credits, Ef. refine (heap_ok_own _ _ _ _ _ _ Hw1). clear. multiset_solver.
  - destruct Hs as [S1 S2 S3 S4 S5]. split; try done.
    + intros q k Hq Hq0. destruct (S4 q k Hq Hq0) as (o & Ho & Et). pose proof (retained_all_body l q w) as Eq.
      rewrite Ho in Eq. apply fmap_body in Eq as (o' & Ho' & Eo'). exists o'. by rewrite Eo'.
    + intros x n Hx. rewrite retained_all_blocks. destruct (S5 x n Hx) as [Hb Ho]. split; [done|].
      intros p o n' Hp. pose proof (retained_all_body l p w) as Eq. rewrite Hp in Eq.
      destruct (gs_heap w !! p) as [o0|] eqn:Ho0; [|done]. injection Eq as ->. by apply (Ho p o0).
  - exists r, w'. split; [done|]. revert Hm. apply made_from.
    + intros q. apply retained_all_body.
    + apply retained_all_blocks.
    + apply retained_all_gap.
    + apply statics_retained_all.
Qed.

Lemma retain_chain own w p k : counted own w -> alive w p -> room (k + 1) w -> 0 <= k ->
  CFRetain p w = Done (p, retained p w) /\ counted (refs_of [p] ⊎ own) (retained p w) /\ room k (retained p w) /\
  forall q, alive w q -> alive (retained p w) q.
Proof.
  intros Hw Hp Hr Hk. destruct (CFRetain_eq ∅ _ own w p Hw Hp) as [E Hc]; [by eapply room_mono; [|exact Hr]; lia|].
  split_and!; [done| | |].
  - unfold counted. by rewrite retained_credits.
  - by apply retained_room.
  - intros q. unfold alive. by rewrite retained_credits.
Qed.

Definition typed w (p ty : Z) : Prop := p <> 0 -> exists o, gs_heap w !! p = Some o /\ type_of (ob_body o) = ty.

Lemma typed_alive w p ty : typed w p ty -> alive w p.
Proof. intros Ht. destruct (decide (p = 0)) as [->|Hp]; [by left|]. destruct (Ht Hp) as (o & Ho & _). by eapply alive_some. Qed.

Lemma enlarged_typed own w own' w' p ty : enlarged own w own' w' -> typed w p ty -> typed w' p ty.
Proof.
  intros Hg Ht Hp. destruct (Ht Hp) as (o & Ho & Et). pose proof (en_bodies _ _ _ _ Hg p (ob_body o)) as Hb.
  rewrite Ho in Hb. specialize (Hb eq_refl) as (o' & Ho' & Eo')%fmap_body. exists o'. by rewrite Eo'.
Qed.

Lemma create_sample_ok own w blk fd pts dts size flags id src :
  let value := sync_value flags in
  counted own w -> room 3 w -> constant w kCMSampleAttachmentKey_NotSync -> constant w value ->
  typed w blk VTF_TYPE_BLOCK_BUFFER -> typed w fd VTF_TYPE_FORMAT_DESCRIPTION -> typed w src VTF_TYPE_PIXEL_BUFFER ->
  exists r w' a, vtf_create_sample_buffer env blk fd pts dts size flags id src w = Done (r, w') /\
    sampled own w blk fd src kCMSampleAttachmentKey_NotSync value
      (mk_vtf_cm_sample_buffer blk fd dts pts size a src id) r w'.
Proof.
  intros value Hw Hr Hk Hv Hblk Hfd Hsrc.
  destruct (sample_attachments_ok own w _ value Hw ltac:(by eapply room_mono; [|exact Hr]; lia) Hk Hv)
    as (a & d & w1 & w2 & w3 & E1 & E2 & E3 & A). pose proof (sa_enlarged _ _ _ _ _ _ _ A) as G.
  pose proof (en_counted _ _ _ _ G) as Hw3. pose proof (sa_array _ _ _ _ _ _ _ A) as Ha.
  set (sb := mk_vtf_cm_sample_buffer blk fd dts pts size a src id).
  pose proof (attachments_room _ _ _ _ _ _ _ 3 Hw A Hk Hv ltac:(lia) Hr) as Hr3.
  assert (a <> 0) as Ha0 by (by eapply body_nonzero).
  pose proof (enlarged_typed _ _ _ _ _ _ G Hblk) as Tb. pose proof (enlarged_typed _ _ _ _ _ _ G Hfd) as Tf.
  pose proof (enlarged_typed _ _ _ _ _ _ G Hsrc) as Ts.
  assert (sound (SampleBuffer sb) w3) as Hsnd.
  { split; simpl.
    - constructor.
    - constructor.
    - done.
    - intros q k [[= -> ->]|[[= -> ->]|[[= -> ->]|[]%elem_of_nil]%elem_of_cons]%elem_of_cons]%elem_of_cons Hq; auto.
    - intros x n []%elem_of_nil. }
  set (base := mk_vtf_cf_object VTF_OBJECT_MAGIC VTF_TYPE_SAMPLE_BUFFER 1 0
    (gs_next_proxy_id w3) 1 0 (Some Finalize_sample_buffer)).
  set (w4 := w3 <| gs_alive ::= (fun n => as_signed 64 (n + 1)) |>
    <| gs_next_proxy_id ::= (fun n => wrap 64 (n + 1)) |>).
  assert (counted ({[+ a +]} ⊎ own) w4) as Hw4 by (by eapply heap_ok_ext; [..|exact Hw3]).
  destruct (retain_chain _ w4 blk 2 Hw4 (typed_alive _ _ _ Tb) Hr3 ltac:(lia)) as (R1 & C1 & Q1 & L1).
  destruct (retain_chain _ _ fd 1 C1 (L1 _ (typed_alive _ _ _ Tf)) Q1 ltac:(lia)) as (R2 & C2 & Q2 & L2).
  destruct (retain_chain _ _ src 0 C2 (L2 _ (L1 _ (typed_alive _ _ _ Ts))) Q2 ltac:(lia)) as (R3 & _).
  destruct (create_retaining (SampleBuffer sb) own {[+ a +]} w3 [blk; fd; src] base w4) as (r & w' & E & Hm); try done.
  { rewrite !list.Forall_cons. split_and!; [by eapply typed_alive..|constructor]. }
  { simpl. rewrite (refs_cons src), (refs_cons blk), (refs_cons fd), (refs_single a) by done.
    rewrite (refs_cons blk [fd; src]), (refs_cons fd [src]). clear. multiset_solver. }
  pose proof (made_born _ _ _ _ _ Hm eq_refl) as B.
  assert (enlarged own w ({[+ r +]} ⊎ own) w') as Gr.
  { destruct (born_enlarged _ _ _ _ _ B) as [B1 B2 B3 B4 B5 B6]. destruct G as [G1 G2 G3 G4 G5 G6].
    split; [done|congruence|auto|by eapply statics_trans|auto|by etrans]. }
  exists r, w', a. split.
  - unfold vtf_create_sample_buffer. fold (sync_value flags). fold value.
    rewrite (bind_eq _ _ _ _ _ E1), (bind_eq _ _ _ _ _ E2), (bind_eq _ _ _ _ _ E3).
    rewrite (bind_eq (vtf_cf_object_init _ _) base w3 w4 _ eq_refl).
    rewrite (bind_eq _ _ _ _ _ R1), (bind_eq _ _ _ _ _ R2), (bind_eq _ _ _ _ _ R3). exact E.
  - assert (forall q b, ob_body <$> gs_heap w3 !! q = Some b -> ob_body <$> gs_heap w' !! q = Some b) as Hold
      by apply (born_enlarged _ _ _ _ _ B).
    split; [done|apply B|eapply enlarged_absent; [exact G|apply B]|]. exists d. simpl.
    split_and!; [apply A|apply A|apply Hold, Ha|apply Hold, (sa_dictionary _ _ _ _ _ _ _ A)|].
    intros p. rewrite (born_uses _ _ _ _ _ p B). pose proof (sa_uses _ _ _ _ _ _ _ A p) as U.
    cbn [body_fields sb smp_source_image_buffer smp_data_buffer smp_format_description smp_attachments].
    rewrite (refs_cons src), (refs_cons blk [fd; a]), (refs_cons fd [a]), (refs_single a), (refs_cons blk [fd; src]),
      (refs_cons fd [src]) by done.
    rewrite !multiplicity_disj_union in *. lia.
Qed.
End samples.
