(* ===== verification/Client.v ===== *)
(** * Clients of Core Foundation and Core Video

    A program that calls the guest's Core Foundation and Core Video by their
    ownership rules: it passes live pointers, releases only what it owns, and keeps
    a reference to what it stores in a dictionary or a buffer it owns too.  [client] are the states such a
    program can reach from the start of the process. *)

From S2P Require Import Prelude Wire Protocol Layout Backend Transport Objects Release Refcount.
From S2P Require Import ReleaseSafe CoreFoundation Ownership Access Bitstream CoreMedia CoreVideo.
From S2P Require Import Pixels Attachments.
From stdpp Require Import strings gmultiset fin_maps.

Set Default Goal Selector "!".
Open Scope Z_scope.

(** ** Calls *)

Inductive call :=
| Memory (bs : list byte)   (* memory of the program's own *)
| Retain (value : Z)
| Release_ (value : Z)
| StringCreateStatic (bytes : rawptr)
| NumberCreate (number_type : Z) (value_ptr : rawptr)
| DataCreate (bytes : rawptr) (length : Z)
| ArrayCreate (values : option (list Z)) (num_values : Z)
| DictionaryCreate (keys values : option (list Z)) (num_values : Z)
| DictionaryCreateMutable (capacity : Z)
| DictionaryCreateCopy (dictionary : Z)
| DictionarySetValue (dictionary key value : Z)
| Equal (lhs rhs : Z)
| GetTypeID (value : Z)
| NumberGetType (value : Z)
| NumberGetValue (value number_type : Z) (out_value : bool)
| DataGetLength (data : Z)
| ArrayGetCount (the_array : Z)
| ArrayGetValueAtIndex (the_array index : Z)
| DictionaryGetValue (dictionary key : Z)
| DictionaryContainsKey (dictionary key : Z)
| BooleanGetValue (boolean_value : Z)
| PoolCreate (pixelBufferAttributes : Z)
| PoolCreatePixelBuffer (pixelBufferPool : Z)
| PoolGetPixelBufferAttributes (pool : Z)
| LockBaseAddress (pixelBuffer flags : Z)
| UnlockBaseAddress (pixelBuffer : Z)
| GetBaseAddress (pixelBuffer : Z)
| GetBaseAddressOfPlane (pixelBuffer planeIndex : Z)
| GetBytesPerRow (pixelBuffer : Z)
| GetBytesPerRowOfPlane (pixelBuffer planeIndex : Z)
| GetWidth (pixelBuffer : Z)
| GetHeight (pixelBuffer : Z)
| GetPixelFormatType (pixelBuffer : Z)
| GetPlaneCount (pixelBuffer : Z)
| IsPlanar (pixelBuffer : Z)
| SetAttachment (buffer key value : Z)
| RemoveAttachment (buffer key : Z)
| GetAttachments (buffer : Z)
| CopyAttachments (buffer : Z).

Section client.
Context {os : Type} `{!Net os} `{!Profile} (env : environ).
Implicit Types (w : guest os) (own : gmultiset Z) (c : call) (t : transport os).
Abbreviation pan := (overflow_checks = true).

(** The result of a call that returns no object or number is [0]: so is that of one
    that fails to make an object. *)
Definition perform_call c : G os Z :=
  match c with
  | Memory bs => _ ← box_bytes bs; mret 0
  | Retain p => CFRetain p
  | Release_ p => _ ← CFRelease env p; mret 0
  | StringCreateStatic bytes => VTF_CFStringCreateStatic bytes
  | NumberCreate ty ptr => CFNumberCreate ty ptr
  | DataCreate bytes n => CFDataCreate bytes n
  | ArrayCreate values n => CFArrayCreate values n
  | DictionaryCreate keys values n => CFDictionaryCreate keys values n
  | DictionaryCreateMutable n => CFDictionaryCreateMutable n
  | DictionaryCreateCopy d => CFDictionaryCreateCopy d
  | DictionarySetValue d k v => _ ← CFDictionarySetValue env d k v; mret 0
  | Equal p q => b ← CFEqual p q; mret (if b : bool then 1 else 0)
  | GetTypeID p => CFGetTypeID p
  | NumberGetType p => CFNumberGetType p
  | NumberGetValue p ty out => r ← CFNumberGetValue p ty out; mret r.1
  | DataGetLength p => CFDataGetLength p
  | ArrayGetCount p => CFArrayGetCount p
  | ArrayGetValueAtIndex p i => CFArrayGetValueAtIndex p i
  | DictionaryGetValue p k => CFDictionaryGetValue p k
  | DictionaryContainsKey p k => CFDictionaryContainsKey p k
  | BooleanGetValue p => CFBooleanGetValue p
  | PoolCreate attrs => r ← CVPixelBufferPoolCreate env attrs true; mret (default 0 r.2)
  | PoolCreatePixelBuffer q => r ← CVPixelBufferPoolCreatePixelBuffer env q true; mret (default 0 r.2)
  | PoolGetPixelBufferAttributes q => CVPixelBufferPoolGetPixelBufferAttributes q
  | LockBaseAddress p flags => CVPixelBufferLockBaseAddress p flags
  | UnlockBaseAddress p => CVPixelBufferUnlockBaseAddress p
  | GetBaseAddress p => _ ← CVPixelBufferGetBaseAddress p; mret 0
  | GetBaseAddressOfPlane p i => _ ← CVPixelBufferGetBaseAddressOfPlane p i; mret 0
  | GetBytesPerRow p => CVPixelBufferGetBytesPerRow p
  | GetBytesPerRowOfPlane p i => CVPixelBufferGetBytesPerRowOfPlane p i
  | GetWidth p => CVPixelBufferGetWidth p
  | GetHeight p => CVPixelBufferGetHeight p
  | GetPixelFormatType p => CVPixelBufferGetPixelFormatType p
  | GetPlaneCount p => CVPixelBufferGetPlaneCount p
  | IsPlanar p => b ← CVPixelBufferIsPlanar p; mret (if b : bool then 1 else 0)
  | SetAttachment p k v => _ ← CVBufferSetAttachment env p k v; mret 0
  | RemoveAttachment p k => _ ← CVBufferRemoveAttachment env p k; mret 0
  | GetAttachments p => CVBufferGetAttachments p
  | CopyAttachments p => CVBufferCopyAttachments p
  end.

(** ** The rules *)

(** Core Video does not look at the type of what it is given. *)
Definition buffer_or_null w p : Prop :=
  p = 0 \/ exists b, ob_body <$> gs_heap w !! p = Some (PixelBuffer b).

(** What the program owes: arguments of the right kind that live, references it owns. *)
Definition call_rules own w c : Prop :=
  match c with
  | Memory _ => True
  | Retain p => alive w p /\ room 1 w
  | Release_ p => lasting own w p
  | StringCreateStatic bytes => bytes = None \/ exists cstr, c_str bytes w = Done (cstr, w)
  | NumberCreate ty ptr => ptr = None \/ forall n, number_width ty = Some n ->
      exists bs, read_bytes ptr n w = Done (bs, w)
  | DataCreate bytes n => bytes = None \/ n < 0 \/ exists bs, read_bytes bytes n w = Done (bs, w)
  | ArrayCreate values n =>
      n * 8 <= ISIZE_MAX /\ enough values (Z.to_nat n) /\
      Forall (alive w) (args_of values (Z.to_nat n)) /\ room n w
  | DictionaryCreate keys values n =>
      n * 8 <= ISIZE_MAX /\ enough keys (Z.to_nat n) /\ enough values (Z.to_nat n) /\
      Forall (alive w) (args_of keys (Z.to_nat n)) /\
      Forall (alive w) (args_of values (Z.to_nat n)) /\ room (2 * n) w
  | DictionaryCreateMutable n => n * 8 <= ISIZE_MAX
  | DictionaryCreateCopy d =>
      alive w d /\ forall o x, gs_heap w !! d = Some o -> ob_body o = Dictionary x ->
                               room (2 * len (cfd_keys x)) w
  | DictionarySetValue d k v => (d = 0 \/ d ∈ own) /\ alive w k /\ lasting own w v /\ room 2 w
  | Equal p q => alive w p /\ alive w q
  | GetTypeID p | NumberGetType p | NumberGetValue p _ _ | DataGetLength p | ArrayGetCount p
  | ArrayGetValueAtIndex p _ | DictionaryGetValue p _ | DictionaryContainsKey p _
  | BooleanGetValue p => alive w p
  | PoolCreate attrs => alive w attrs
  | PoolCreatePixelBuffer q => q = 0 \/ exists o pool, gs_heap w !! q = Some o /\
      ob_body o = PixelBufferPool pool /\ room 1 w
  | PoolGetPixelBufferAttributes q => q = 0 \/
      (exists pool, ob_body <$> gs_heap w !! q = Some (PixelBufferPool pool)) /\ room 1 w
  | LockBaseAddress p _ | UnlockBaseAddress p | GetBaseAddress p | GetBytesPerRow p
  | GetWidth p | GetHeight p | GetPixelFormatType p | GetPlaneCount p | IsPlanar p =>
      buffer_or_null w p
  | GetBaseAddressOfPlane p i | GetBytesPerRowOfPlane p i => buffer_or_null w p /\ 0 <= i
  | SetAttachment p k v => buffer_or_null w p /\ (p = 0 \/ p ∈ own) /\ alive w k /\
      lasting own w v /\ room 2 w
  | RemoveAttachment p _ => buffer_or_null w p /\ (p = 0 \/ p ∈ own)
  | GetAttachments p => buffer_or_null w p /\ room 1 w
  | CopyAttachments p => buffer_or_null w p /\ forall b d,
      ob_body <$> gs_heap w !! p = Some (PixelBuffer b) -> attachments w b d ->
      room (2 * len (cfd_keys d)) w
  end.

(** What the worker owes: the guest uses the layout of an [OP_ALLOC_BUFFER] reply as it
    is, so its planes have to lie within its size. *)
Definition worker_ok w c : Prop :=
  match c with
  | PoolCreatePixelBuffer q => q = 0 \/ forall o, gs_heap w !! q = Some o ->
      leases_within env w (cf_proxy_id (ob_base o))
  | _ => True
  end.

Definition call_ok own w c : Prop := call_rules own w c /\ worker_ok w c.

(** What the program owns after the call. *)
Definition call_own own c (r : Z) : gmultiset Z :=
  match c with
  | Retain _ | StringCreateStatic _ | NumberCreate _ _ | DataCreate _ _ | ArrayCreate _ _
  | DictionaryCreate _ _ _ | DictionaryCreateMutable _ | DictionaryCreateCopy _ | PoolCreate _
  | PoolCreatePixelBuffer _ | PoolGetPixelBufferAttributes _ | GetAttachments _ | CopyAttachments _ =>
      refs_of [r] ⊎ own
  | Release_ p => own ∖ refs_of [p]
  | _ => own
  end.

Definition call_done own w c (r : Z) w' : Prop :=
  counted (call_own own c r) w' /\ alive_gap w' = alive_gap w.

(** ** Each call keeps the counts *)

Lemma made_done b own w r w' : made b own w r w' ->
  counted (refs_of [r] ⊎ own) w' /\ alive_gap w' = alive_gap w.
Proof.
  intros [Hc Hg _ Hn _ _]. split; [|done]. rewrite refs_single; [done|]. intros ->.
  destruct (heap_ok_lookup _ _ _ _ 0 Hc) as (_ & _ & _ & _ & _ & ?); [multiset_solver|lia].
Qed.

Lemma memory_ok own w bs : counted own w ->
  gwp pan (perform_call (Memory bs)) (call_done own w (Memory bs)) w.
Proof.
  intros Hw. destruct bs as [|b bs]; [by split|]. split; [by apply counted_block|done].
Qed.

Lemma release_done own w p : counted own w -> lasting own w p ->
  gwp pan (perform_call (Release_ p)) (call_done own w (Release_ p)) w.
Proof.
  intros Hw Hp. apply gwp_bind.
  assert (counted (refs_of [p] ⊎ (own ∖ refs_of [p])) w) as Hw1.
  { destruct Hp as [->|[Hp|(o & Ho & Hs)]].
    - rewrite refs_null. refine (heap_ok_own _ _ _ _ _ _ Hw). multiset_solver.
    - assert (p <> 0) as Hp0 by (destruct (heap_ok_lookup _ _ _ _ p Hw Hp) as (? & ? & ? & ? & ? & ?); lia).
      rewrite refs_single by done. refine (heap_ok_own _ _ _ _ _ _ Hw). multiset_solver.
    - assert (p <> 0) as Hp0 by (pose proof (ho_addr _ _ _ _ Hw p o Ho); lia).
      rewrite refs_single by done. destruct (decide (p ∈ own)) as [Hin|Hin].
      + refine (heap_ok_own _ _ _ _ _ _ Hw). multiset_solver.
      + refine (heap_ok_own _ _ _ _ _ _ (heap_ok_add_static _ _ _ _ _ _ Hw Ho Hs)). multiset_solver. }
  eapply gwp_mono; [by apply CFRelease_ok|]. intros [] w' (Hc & _ & Hg). by split.
Qed.

(** A call that changes nothing and returns nothing. *)
Lemma null_done own w c : counted own w -> call_own own c 0 = own -> call_done own w c 0 w.
Proof. intros Hw E. split; [by rewrite E|done]. Qed.

Lemma create_null own c : call_own own c 0 = refs_of [0] ⊎ own -> call_own own c 0 = own.
Proof. intros ->. by rewrite refs_null, (left_id_L ∅ (⊎)). Qed.

Lemma made_call own w c b r w' : call_own own c r = refs_of [r] ⊎ own ->
  perform_call c w = Done (r, w') -> made b own w r w' -> gwp pan (perform_call c) (call_done own w c) w.
Proof.
  intros Eo E Hm. unfold gwp. rewrite E. unfold call_done. rewrite Eo. by eapply made_done.
Qed.

Lemma null_call own w c : counted own w -> call_own own c 0 = refs_of [0] ⊎ own ->
  perform_call c w = Done (0, w) -> gwp pan (perform_call c) (call_done own w c) w.
Proof. intros Hw Eo E. unfold gwp. rewrite E. by apply null_done, create_null. Qed.

Lemma string_done own w bytes : counted own w -> call_rules own w (StringCreateStatic bytes) ->
  gwp pan (perform_call (StringCreateStatic bytes)) (call_done own w (StringCreateStatic bytes)) w.
Proof.
  intros Hw Hc. destruct (decide (bytes = None)) as [->|Hb]; [by apply null_call|].
  destruct Hc as [|[cstr Hc]]; [done|].
  destruct (create_ok (String_ (mk_vtf_cf_string bytes (len cstr) false)) own w
    VTF_TYPE_STRING Finalize_string) as (r & w' & E & Hm); try done.
  { simpl. by rewrite refs_nil, (left_id_L ∅ (⊎)). }
  eapply made_call; [done| |exact Hm]. simpl. unfold VTF_CFStringCreateStatic.
  rewrite bool_decide_eq_false_2 by done. by rewrite (bind_eq _ _ _ _ _ Hc).
Qed.

Lemma number_done own w ty ptr : counted own w -> call_rules own w (NumberCreate ty ptr) ->
  gwp pan (perform_call (NumberCreate ty ptr)) (call_done own w (NumberCreate ty ptr)) w.
Proof.
  intros Hw Hc. destruct (decide (ptr = None)) as [Hp|Hp];
    [by apply null_call, CFNumberCreate_unsupported; auto|].
  destruct (number_width ty) as [n|] eqn:En;
    [|by apply null_call, CFNumberCreate_unsupported; auto].
  destruct Hc as [|Hc]; [done|]. destruct (Hc n En) as [bs Hbs].
  destruct (CFNumberCreate_ok own w ty ptr n bs) as (r & w' & E & Hm); try done.
  by eapply made_call.
Qed.

Lemma data_done own w bytes n : counted own w -> call_rules own w (DataCreate bytes n) ->
  gwp pan (perform_call (DataCreate bytes n)) (call_done own w (DataCreate bytes n)) w.
Proof.
  intros Hw Hc. destruct (Z.ltb_spec n 0) as [Hn|Hn].
  { apply null_call; try done. simpl. unfold CFDataCreate. by destruct (Z.ltb_spec n 0); [|lia]. }
  destruct (CFDataCreate_ok own w bytes n (if bytes then default [] (match read_bytes bytes n w with
    Done (bs, _) => Some bs | _ => None end) else [])) as (r & w' & E & Hm); try done.
  - destruct bytes; [|done]. destruct Hc as [|[|[bs Hbs]]]; [done|lia|]. by rewrite Hbs.
  - by eapply made_call.
Qed.

Lemma array_done own w values n : counted own w -> call_rules own w (ArrayCreate values n) ->
  gwp pan (perform_call (ArrayCreate values n)) (call_done own w (ArrayCreate values n)) w.
Proof.
  intros Hw (Hcap & He & Hl & Hr). destruct (Z.ltb_spec n 0) as [Hn|Hn].
  { apply null_call; try done. simpl. unfold CFArrayCreate. by destruct (Z.ltb_spec n 0); [|lia]. }
  destruct (CFArrayCreate_ok own w values n) as (r & w' & E & Hm); try done. by eapply made_call.
Qed.

Lemma dictionary_done own w keys values n :
  counted own w -> call_rules own w (DictionaryCreate keys values n) ->
  gwp pan (perform_call (DictionaryCreate keys values n))
    (call_done own w (DictionaryCreate keys values n)) w.
Proof.
  intros Hw (Hcap & Hk & Hv & Lk & Lv & Hr). destruct (Z.ltb_spec n 0) as [Hn|Hn].
  { apply null_call; try done. simpl. unfold CFDictionaryCreate. by destruct (Z.ltb_spec n 0); [|lia]. }
  destruct (CFDictionaryCreate_ok own w keys values n) as (r & w' & E & Hm); try done.
  by eapply made_call.
Qed.

Lemma copy_done own w d : counted own w -> call_rules own w (DictionaryCreateCopy d) ->
  gwp pan (perform_call (DictionaryCreateCopy d)) (call_done own w (DictionaryCreateCopy d)) w.
Proof.
  intros Hw [Ha Hr]. destruct (alive_cases own w d Hw Ha) as [->|(o & Ho & Hok & Hd)];
    [by apply null_call|].
  destruct (decide (type_of (ob_body o) = VTF_TYPE_DICTIONARY)) as [Et|Et].
  - apply dictionary_of in Et as [x Ex].
    destruct (CFDictionaryCreateCopy_ok own w d o x) as (r & w' & E & Hm); try done; [by eapply Hr|].
    by eapply made_call.
  - apply null_call; try done. simpl. unfold CFDictionaryCreateCopy.
    rewrite (proj2 (Z.eqb_neq d 0) Hd), (bind_eq _ _ _ _ _ (type_id_eq w d o Ho)),
      (proj2 (Z.eqb_neq d 0) Hd), (oo_type _ Hok), (proj2 (Z.eqb_neq _ _) Et). done.
Qed.

Lemma set_done own w d k v : counted own w -> call_rules own w (DictionarySetValue d k v) ->
  gwp pan (perform_call (DictionarySetValue d k v)) (call_done own w (DictionarySetValue d k v)) w.
Proof.
  intros Hw (Hd & Hk & Hv & Hr). apply gwp_bind. destruct Hd as [->|Hd]; [by apply null_done|].
  destruct (heap_ok_lookup _ _ _ _ d Hw Hd) as (o & _ & Ho & _ & Hok & Hp).
  destruct (decide (type_of (ob_body o) = VTF_TYPE_DICTIONARY)) as [Et|Et].
  - apply dictionary_of in Et as [x Ex].
    eapply gwp_mono; [by eapply CFDictionarySetValue_ok|]. intros [] w' (Hc & Hg & _). by split.
  - unfold CFDictionarySetValue, gwp. destruct (Z.eqb_spec d 0) as [|Hd0]; [lia|].
    rewrite (bind_eq _ _ _ _ _ (type_id_eq w d o Ho)), (proj2 (Z.eqb_neq d 0) Hd0), (oo_type _ Hok),
      (proj2 (Z.eqb_neq _ _) Et). simpl. by apply null_done.
Qed.

(** *** Queries *)

(** A call that only reads. *)
Definition reads c : Prop := forall own r, call_own own c r = own.

Lemma read_call own w c r : counted own w -> reads c -> perform_call c w = Done (r, w) ->
  gwp pan (perform_call c) (call_done own w c) w.
Proof. intros Hw Hc E. unfold gwp. rewrite E. split; [by rewrite Hc|done]. Qed.

(** *** Core Video *)

Lemma create_done own w c (m : G os (Z * option Z)) b : counted own w ->
  perform_call c = (r ← m; mret (default 0 r.2)) -> (forall r, call_own own c r = refs_of [r] ⊎ own) ->
  gwp pan m (create_outcome b own w) w -> gwp pan (perform_call c) (call_done own w c) w.
Proof.
  intros Hw Ep Eo Hm. rewrite Ep. eapply gwp_seq; [exact Hm|].
  intros r w' [(p & x & -> & _ & Hd)|(st & -> & Hc & Hg & _)]; unfold gwp; simpl; unfold call_done; rewrite Eo.
  - by eapply made_done.
  - by rewrite refs_null, (left_id_L ∅ (⊎)).
Qed.

(** A pixel buffer, with the attachments it has. *)
Lemma buffer_cases own w p : counted own w -> buffer_or_null w p -> p = 0 \/ exists b d,
  p <> 0 /\ ob_body <$> gs_heap w !! p = Some (PixelBuffer b) /\ attachments w b d.
Proof.
  intros Hw [->|[b Hb]]; [by left|right]. pose proof (body_nonzero _ _ _ _ Hw Hb) as Hp.
  destruct (decide (px_attachments b = 0)) as [Ha|Ha].
  - exists b. eexists. split_and!; [done..|]. by left.
  - destruct (attachments_of own w p b Hw Hb Ha) as [d Hd]. exists b, d. split_and!; [done..|]. by right.
Qed.

(** A call on a buffer, in terms of the buffer. *)
Lemma on_buffer own w p c : counted own w -> buffer_or_null w p ->
  (p = 0 -> gwp pan (perform_call c) (call_done own w c) w) ->
  (forall b d, p <> 0 -> ob_body <$> gs_heap w !! p = Some (PixelBuffer b) -> attachments w b d ->
     gwp pan (perform_call c) (call_done own w c) w) ->
  gwp pan (perform_call c) (call_done own w c) w.
Proof. intros Hw Hb H0 H1. destruct (buffer_cases own w p Hw Hb) as [|(b & d & ? & ? & ?)]; eauto. Qed.

Lemma changed_call own w c p b r w' : reads c -> perform_call c w = Done (r, w') ->
  changed p b own w w' -> gwp pan (perform_call c) (call_done own w c) w.
Proof. intros Hc E [Hw Hg _ _ _]. unfold gwp. rewrite E. split; [by rewrite Hc|done]. Qed.

Lemma bind_ret_run {A} (m : G os A) w : m w = (x ← m; mret (id x)) w.
Proof. unfold mbind, G_bind. by destruct (m w) as [[]| | |]. Qed.

Lemma field_call own w c p {A} (d : A) get (f : A -> Z) : counted own w -> reads c ->
  perform_call c w = (x ← pixel_field d get p; mret (f x)) w -> buffer_or_null w p ->
  gwp pan (perform_call c) (call_done own w c) w.
Proof.
  intros Hw Hc Ec Hp.
  assert (exists r, (x ← pixel_field d get p; mret (f x) : G os Z) w = Done (r, w)) as [r Er].
  { destruct (buffer_cases own w p Hw Hp) as [->|(b & _ & Hp0 & Hb & _)]; [by eexists|].
    eexists. unfold pixel_field. rewrite (proj2 (Z.eqb_neq p 0) Hp0).
    unfold mbind, G_bind. by rewrite (as_pixel_run w p b Hb). }
  eapply read_call; [done..|]. by rewrite Ec.
Qed.

Lemma plane_done own w p i : counted own w -> buffer_or_null w p -> 0 <= i ->
  gwp pan (perform_call (GetBaseAddressOfPlane p i)) (call_done own w (GetBaseAddressOfPlane p i)) w.
Proof.
  intros Hw Hp Hi. apply (on_buffer own w p _ Hw Hp); [by intros ->; apply null_done|].
  intros b d Hp0 Hb _. destruct (Z.ltb_spec i (Z.min (px_plane_count b) 4)) as [Hlt|Hge].
  - destruct (plane_address_ok own w p b (Z.to_nat i) Hw Hp0 Hb) as (b' & w' & off & st & rows & E & _ & _ & _ & _ & Hc);
      [by rewrite Z2Nat.id|]. rewrite Z2Nat.id in E by done.
    eapply changed_call; [done| |exact Hc]. simpl. by rewrite (bind_eq _ _ _ _ _ E).
  - eapply read_call; [done..|]. simpl. unfold CVPixelBufferGetBaseAddressOfPlane.
    rewrite (proj2 (Z.eqb_neq p 0) Hp0). unfold mbind, G_bind. rewrite (as_pixel_run w p b Hb).
    by destruct (Z.geb_spec i (Z.min (px_plane_count b) 4)); [|lia].
Qed.

Lemma row_bytes_run own w p b i : counted own w -> ob_body <$> gs_heap w !! p = Some (PixelBuffer b) ->
  0 <= i < 4 -> exists r, nth_or_abort (os:=os) (px_plane_bytes_per_row b) i w = Done (r, w).
Proof.
  intros Hw Hb Hi. pose proof (po_strides _ (body_pixel_ok own w p b Hw Hb)) as Hl.
  unfold nth_or_abort. destruct (px_plane_bytes_per_row b !! Z.to_nat i) as [x|] eqn:E; [by exists x|].
  apply lookup_ge_None in E. lia.
Qed.

Lemma bytes_per_row_done own w p : counted own w -> buffer_or_null w p ->
  gwp pan (perform_call (GetBytesPerRow p)) (call_done own w (GetBytesPerRow p)) w.
Proof.
  intros Hw Hp. apply (on_buffer own w p _ Hw Hp); [by intros ->; apply null_done|].
  intros b d Hp0 Hb _. destruct (row_bytes_run own w p b 0 Hw Hb ltac:(lia)) as [r E].
  eapply (read_call own w _ (if px_plane_count b =? 0 then 0 else r)); [done..|].
  simpl. unfold CVPixelBufferGetBytesPerRow.
  rewrite (proj2 (Z.eqb_neq p 0) Hp0), (bind_eq _ _ _ _ _ (as_pixel_run w p b Hb)).
  by destruct (px_plane_count b =? 0).
Qed.

Lemma bytes_per_row_of_plane_done own w p i : counted own w -> buffer_or_null w p -> 0 <= i ->
  gwp pan (perform_call (GetBytesPerRowOfPlane p i)) (call_done own w (GetBytesPerRowOfPlane p i)) w.
Proof.
  intros Hw Hp Hi. apply (on_buffer own w p _ Hw Hp); [by intros ->; apply null_done|].
  intros b d Hp0 Hb _. destruct (Z.geb_spec i (Z.min (px_plane_count b) 4)) as [Hge|Hlt].
  - eapply (read_call own w _ 0); [done..|]. simpl. unfold CVPixelBufferGetBytesPerRowOfPlane.
    rewrite (proj2 (Z.eqb_neq p 0) Hp0), (bind_eq _ _ _ _ _ (as_pixel_run w p b Hb)).
    by destruct (Z.geb_spec i (Z.min (px_plane_count b) 4)); [|lia].
  - destruct (row_bytes_run own w p b i Hw Hb ltac:(lia)) as [r E].
    eapply (read_call own w _ r); [done..|]. simpl. unfold CVPixelBufferGetBytesPerRowOfPlane.
    rewrite (proj2 (Z.eqb_neq p 0) Hp0), (bind_eq _ _ _ _ _ (as_pixel_run w p b Hb)).
    by destruct (Z.geb_spec i (Z.min (px_plane_count b) 4)); [lia|].
Qed.

Lemma retained_call own w c p : perform_call c w = Done (p, retained p w) ->
  (forall r, call_own own c r = refs_of [r] ⊎ own) -> counted (refs_of [p] ⊎ own) (retained p w) ->
  gwp pan (perform_call c) (call_done own w c) w.
Proof. intros E Eo Hc. unfold gwp. rewrite E. split; [by rewrite Eo|apply retained_gap]. Qed.

Lemma attachments_done own w p c (m : G os unit) d' : call_own own c 0 = own ->
  perform_call c = (_ ← m; mret 0) -> gwp pan m (fun _ => buffer_with own w p d') w ->
  gwp pan (perform_call c) (call_done own w c) w.
Proof.
  intros Eo Ec Hm. rewrite Ec. eapply gwp_seq; [exact Hm|]. intros [] w' (Hc & Hg & _).
  unfold gwp. simpl. split; [by rewrite Eo|done].
Qed.

(** *** Every call *)

Lemma call_step own w c : counted own w -> call_ok own w c ->
  gwp pan (perform_call c) (call_done own w c) w.
Proof.
  intros Hw [Hc Hwk]. destruct c; simpl in Hc.
  - by apply memory_ok.
  - destruct Hc as [Hp Hr]. destruct (CFRetain_eq ∅ _ own w value Hw Hp Hr) as [E Hw1].
    unfold gwp. simpl. rewrite E. split; [unfold counted; by rewrite retained_credits|apply retained_gap].
  - by apply release_done.
  - by apply string_done.
  - by apply number_done.
  - by apply data_done.
  - by apply array_done.
  - by apply dictionary_done.
  - destruct (CFDictionaryCreateMutable_ok own w capacity Hw Hc) as (r & w' & E & Hm). by eapply made_call.
  - by apply copy_done.
  - by apply set_done.
  - destruct Hc as [Hp Hq]. destruct (equal_run own w lhs rhs Hw Hp Hq) as [r E].
    eapply read_call; [done..|]. simpl. by rewrite (bind_eq _ _ _ _ _ E).
  - destruct (type_id_run own w value Hw Hc) as [r E]. by eapply read_call.
  - destruct (number_type_run own w value Hw Hc) as [r E]. by eapply read_call.
  - destruct (number_value_run own w value number_type out_value Hw Hc) as [r E].
    eapply read_call; [done..|]. simpl. by rewrite (bind_eq _ _ _ _ _ E).
  - destruct (data_length_run own w data Hw Hc) as [r E]. by eapply read_call.
  - destruct (array_count_run own w the_array Hw Hc) as [r E]. by eapply read_call.
  - destruct (array_value_run own w the_array index Hw Hc) as [r E]. by eapply read_call.
  - destruct (dictionary_value_run own w dictionary key Hw Hc) as [r E]. by eapply read_call.
  - destruct (dictionary_contains_run own w dictionary key Hw Hc) as [r E]. by eapply read_call.
  - destruct (boolean_run own w boolean_value Hw Hc) as [r E]. by eapply read_call.
  - by eapply create_done, pool_create_ok.
  - destruct Hc as [->|(o & q & Ho & Eo & Hr)]; [by apply null_call|].
    destruct Hwk as [->|Hl]; [by apply null_call|].
    eapply create_done; [done..|]. by eapply create_pixel_buffer_ok; [..|apply Hl].
  - destruct Hc as [->|[[q Hq] Hr]]; [by apply null_call|].
    destruct (pool_attributes_ok own w pool q Hw (body_nonzero _ _ _ _ Hw Hq) Hq Hr) as (r & E & Hc).
    by eapply retained_call.
  - apply (on_buffer own w pixelBuffer _ Hw Hc); [by intros ->; eapply read_call|].
    intros b d Hp Hb _. destruct (lock_ok own w pixelBuffer b flags Hw Hp Hb) as (b' & w' & E & _ & Hch).
    by eapply changed_call.
  - apply (on_buffer own w pixelBuffer _ Hw Hc); [by intros ->; eapply read_call|].
    intros b d Hp Hb _. destruct (unlock_ok own w pixelBuffer b Hw Hp Hb) as (w' & E & Hch).
    by eapply changed_call.
  - apply (on_buffer own w pixelBuffer _ Hw Hc); [by intros ->; eapply read_call|].
    intros b d Hp Hb _. destruct (base_address_ok own w pixelBuffer b Hw Hp Hb) as (b' & w' & E & _ & Hch).
    eapply changed_call; [done| |exact Hch]. simpl. by rewrite (bind_eq _ _ _ _ _ E).
  - destruct Hc. by apply plane_done.
  - by apply bytes_per_row_done.
  - destruct Hc. by apply bytes_per_row_of_plane_done.
  - by apply (field_call own w _ pixelBuffer 0 px_width id); [..|apply bind_ret_run|].
  - by apply (field_call own w _ pixelBuffer 0 px_height id); [..|apply bind_ret_run|].
  - by apply (field_call own w _ pixelBuffer 0 px_pixel_format id); [..|apply bind_ret_run|].
  - by apply (field_call own w _ pixelBuffer 0 px_plane_count id); [..|apply bind_ret_run|].
  - by eapply (field_call own w _ pixelBuffer false _ (fun b : bool => if b then 1 else 0)).
  - destruct Hc as (Hb & Hp & Hk & Hv & Hr).
    apply (on_buffer own w buffer _ Hw Hb); [by intros ->; eapply read_call|]. intros b d Hp0 Hb' Hd.
    destruct Hp as [|Hp]; [done|]. by eapply attachments_done; [..|eapply set_attachment_ok].
  - destruct Hc as [Hb Hp].
    apply (on_buffer own w buffer _ Hw Hb); [by intros ->; eapply read_call|]. intros b d Hp0 Hb' Hd.
    destruct Hp as [|Hp]; [done|]. by eapply attachments_done; [..|eapply remove_attachment_ok].
  - destruct Hc as [Hb Hr].
    apply (on_buffer own w buffer _ Hw Hb); [by intros ->; eapply null_call|]. intros b d Hp0 Hb' Hd.
    destruct (get_attachments_ok own w buffer b Hw Hb' Hr) as [E Hc]. by eapply retained_call.
  - destruct Hc as [Hb Hr].
    apply (on_buffer own w buffer _ Hw Hb); [by intros ->; eapply null_call|]. intros b d Hp0 Hb' Hd.
    destruct (copy_attachments_ok own w buffer b d Hw Hb' Hd (Hr b d Hb' Hd)) as [[E _]|(r & w' & E & Hm)];
      [by eapply null_call|by eapply made_call].
Qed.

(** ** Runs *)

Inductive client t : gmultiset Z -> guest os -> Prop :=
| client_start : client t ∅ (guest_start t)
| client_call own w c r w' : client t own w -> call_ok own w c ->
    perform_call c w = Done (r, w') -> client t (call_own own c r) w'.

Lemma numbered_lookup p s : (p, s) ∈ numbered -> 3 <= p < 3 + len string_keys.
Proof.
  unfold numbered. intros (i & Hi)%list_elem_of_lookup. rewrite list_lookup_imap in Hi.
  apply fmap_Some in Hi as (k & Hk & [= -> _]). apply lookup_lt_Some in Hk. lia.
Qed.

Lemma static_lookup p o : static_heap !! p = Some o ->
  0 < p < 3 + len string_keys /\
  ((exists v, o = static_boolean v) \/ (exists a s, o = static_string a s)).
Proof.
  unfold static_heap. intros [[<- <-]|[_ H1]]%lookup_insert_Some; [unfold kCFBooleanTrue; eauto with lia|].
  apply lookup_insert_Some in H1 as [[<- <-]|[_ H1]]; [unfold kCFBooleanFalse; eauto with lia|].
  apply elem_of_list_to_map_2, list_elem_of_fmap in H1 as ([a s] & [= -> ->] & Ha%numbered_lookup).
  split; [lia|]. eauto.
Qed.

Lemma static_block_lookup b bs : static_blocks !! b = Some bs -> 0 < b < 3 + len string_keys.
Proof.
  unfold static_blocks. intros Hb.
  apply elem_of_list_to_map_2, list_elem_of_fmap in Hb as ([a s] & [= -> ->] & Ha%numbered_lookup). lia.
Qed.

Lemma static_body p o : static_heap !! p = Some o ->
  is_static o /\ object_ok o /\ body_fields (ob_body o) = [] /\ body_blocks (ob_body o) = [] /\
  typed_fields (ob_body o) = [].
Proof.
  intros [_ [[v ->]|(a & s & ->)]]%static_lookup; split_and!; try done;
    (split; [done|by intros []|constructor|constructor|by auto|done]).
Qed.

Lemma start_counted t : counted ∅ (guest_start t).
Proof.
  assert (Hz : forall C : gmap Z (gmultiset Z), (forall p m, C !! p = Some m -> m = ∅) -> total_refs C = ∅).
  { induction C as [|p m C Hp IH] using map_ind; intros HC; [done|].
    rewrite total_insert by done. rewrite (HC p m) by apply lookup_insert_eq.
    rewrite IH; [done|]. intros q m' Hq. apply (HC q). rewrite lookup_insert_ne; [done|]. by intros ->; simplify_eq. }
  assert (total_refs (credits static_heap) = ∅) as Et.
  { apply Hz. intros p m. rewrite credits_lookup. intros (o & Ho & ->)%fmap_Some.
    destruct (static_body p o Ho) as (_ & _ & -> & _). apply refs_nil. }
  unfold counted, guest_start. cbn [gs_heap]. split; cbn [gs_heap gs_blocks gs_next]; try rewrite Et.
  - pose proof (Zle_0_nat (length string_keys)). lia.
  - intros p o Ho. by destruct (static_lookup p o Ho).
  - apply static_block_lookup.
  - intros p o Ho. by destruct (static_body p o Ho) as (_ & ? & _).
  - intros p. by rewrite dom_credits.
  - intros p o Ho _. rewrite dom_credits. apply elem_of_dom. eauto.
  - intros p o Ho Hs. destruct (static_body p o Ho) as [Hst _]. contradiction.
  - intros p [[]%gmultiset_not_elem_of_empty|[]%gmultiset_not_elem_of_empty]%gmultiset_elem_of_disj_union.
  - intros p m o Hm Ho _. rewrite credits_lookup, Ho in Hm. injection Hm as <-. split; [done|].
    destruct (static_body p o Ho) as (_ & _ & _ & _ & ->). by intros q k []%elem_of_nil.
  - intros p o b n Ho. destruct (static_body p o Ho) as (_ & _ & _ & -> & _). by intros []%elem_of_nil.
  - intros p q o o' b n n' Ho _. destruct (static_body p o Ho) as (_ & _ & _ & -> & _).
    by intros []%elem_of_nil.
Qed.

Lemma client_counted t own w : client t own w -> counted own w.
Proof.
  induction 1 as [|own w c r w' _ IH Hc E]; [apply start_counted|].
  pose proof (call_step own w c IH Hc) as Hs. unfold gwp in Hs. rewrite E in Hs. apply Hs.
Qed.

(** ** What the counts give *)

(** The count of an object is the number of references to it: the program's, and
    those in other objects. *)
Definition exact_counts own w : Prop := forall p o, gs_heap w !! p = Some o -> ~ is_static o ->
  cf_refcount (ob_base o) = Z.of_nat (multiplicity p (own ⊎ total_refs (credits (gs_heap w)))) /\
  0 < cf_refcount (ob_base o).

Lemma counted_exact own w : counted own w -> exact_counts own w.
Proof.
  intros Hw p o Ho Hs. destruct (ho_count _ _ _ _ Hw p o Ho Hs) as (E & Hl & _). split; [done|].
  apply Hl. rewrite dom_credits. apply elem_of_dom. eauto.
Qed.

(** The counter of live objects is their number, the constants apart. *)
Definition exact_alive w : Prop :=
  wrap 64 (gs_alive w) = wrap 64 (Z.of_nat (size (gs_heap w)) - Z.of_nat (size static_heap)).

Lemma gap_alive w : alive_gap w = wrap 64 (- Z.of_nat (size static_heap)) -> exact_alive w.
Proof.
  unfold alive_gap, exact_alive, wrap. generalize (size static_heap), (size (gs_heap w)). intros n m E.
  apply (f_equal (fun x => (x + Z.of_nat m) mod 2 ^ 64)) in E.
  rewrite !Zplus_mod_idemp_l in E. etrans; [|etrans; [exact E|]]; f_equal; lia.
Qed.

Lemma client_gap t own w : client t own w -> alive_gap w = wrap 64 (- Z.of_nat (size static_heap)).
Proof.
  induction 1 as [|own w c r w' Hrun IH Hc E].
  - unfold alive_gap, guest_start. cbn [gs_alive gs_heap]. by rewrite Z.sub_0_l.
  - pose proof (call_step own w c (client_counted t own w Hrun) Hc) as Hs. unfold gwp in Hs.
    rewrite E in Hs. destruct Hs as [_ Hg]. by rewrite Hg.
Qed.

(** C6: a program that keeps the ownership rules is safe, with a worker whose
    [OP_ALLOC_BUFFER] replies give layouts within their size ([worker_ok]; the guest does
    not check them) and whatever else it answers: from the start of the process, any call
    the program makes returns, to a state
    of such a program in which every reference count is exactly the number of
    references and [vtf_proxy_alive_count] the number of objects (modulo [2^64],
    the constants apart), or the process aborts on an arithmetic overflow check; it never
    touches freed memory or reads an object at a wrong type. *)
Theorem client_never_faults t own w c (Hrun : client t own w) (Hc : call_rules own w c)
    (Hworker : worker_ok w c) :
  match perform_call c w with
  | Done (r, w') => client t (call_own own c r) w' /\ exact_counts (call_own own c r) w' /\
      exact_alive w'
  | Aborted => overflow_checks = true
  | UB | NoFuel => False
  end.
Proof.
  pose proof (call_step own w c (client_counted t own w Hrun) (conj Hc Hworker)) as Hs. unfold gwp in Hs.
  destruct (perform_call c w) as [[r w']| | |] eqn:E; try done.
  assert (client t (call_own own c r) w') as Hrun' by (by eapply client_call; [..|split|]).
  split_and!; [done|by apply counted_exact, Hs|by eapply gap_alive, client_gap].
Qed.

(** C9: [CFRelease] returns: on a heap whose counts are exact, with a reference to
    give up, the finalizers nest no deeper than there are objects, whatever the
    objects refer to (cycles included) and whatever the worker answers; the counts
    are exact again, and what is left is as it was but for counts, pixel buffer
    states and the transport. *)
Theorem release_returns own w p (Hw : counted (refs_of [p] ⊎ own) w) :
  match CFRelease env p w with
  | Done (_, w') => counted own w' /\
      forall q o', gs_heap w' !! q = Some o' -> exists o, gs_heap w !! q = Some o /\ shape_eq o o'
  | Aborted => overflow_checks = true
  | UB | NoFuel => False
  end.
Proof.
  pose proof (CFRelease_ok env own w p Hw) as Hr. unfold gwp in Hr.
  destruct (CFRelease env p w) as [[[] w']| | |]; try done. destruct Hr as (Hc & K & _).
  split; [done|]. intros q o' Hq. apply (k_live _ _ _ _ _ K); [|done].
  rewrite dom_credits. apply elem_of_dom. eauto.
Qed.

(** C30: nothing leaks: while no object refers to itself through others, every
    object that is not a constant is reached from a reference the program owns;
    when it owns none, only the constants are left. *)
Theorem client_no_leak t own w p o (Hrun : client t own w) (Hac : acyclic (gs_heap w))
    (Ho : gs_heap w !! p = Some o) (Hs : ~ is_static o) :
  own <> ∅ /\ exists q, q ∈ own /\ reaches (gs_heap w) q p.
Proof.
  destruct (owned_root own w p o (client_counted t own w Hrun) Hac Ho Hs) as (q & Hq & Hr).
  split; [|by exists q]. by intros ->; apply gmultiset_not_elem_of_empty in Hq.
Qed.

(** *** Dictionaries *)

Lemma dictionary_get_set d key value k : length (cfd_keys d) = length (cfd_values d) ->
  dictionary_get (dictionary_set d key value) k = if k =? key then value else dictionary_get d k.
Proof.
  intros Hl. unfold dictionary_get, dictionary_set.
  destruct (vtf_dictionary_find_index d key) as [i|] eqn:Hf.
  - destruct (find_index_lt d key i Hf Hl) as [old Hold].
    apply position_Some in Hf as Hi. destruct Hi as (x & Hx & Ex%Z.eqb_eq & _). subst x.
    unfold vtf_dictionary_find_index in *. simpl.
    destruct (Z.eqb_spec k key) as [->|Hne].
    + rewrite Hf, list_lookup_insert_eq; [done|]. by eapply lookup_lt_Some.
    + destruct (position (fun existing => existing =? k) (cfd_keys d)) as [j|] eqn:Hj; [|done].
      rewrite list_lookup_insert_ne; [done|].
      intros ->. apply position_Some in Hj as (y & Hy & Ey%Z.eqb_eq & _). simplify_eq.
  - unfold vtf_dictionary_find_index in *. simpl. rewrite position_app.
    destruct (Z.eqb_spec k key) as [->|Hne].
    + rewrite Hf. simpl. rewrite Z.eqb_refl. simpl. rewrite Nat.add_0_r, Hl, lookup_app_r by done.
      by rewrite Nat.sub_diag.
    + destruct (position (fun existing => existing =? k) (cfd_keys d)) as [j|] eqn:Hj.
      * apply position_Some in Hj as (y & Hy%lookup_lt_Some & _). by rewrite lookup_app_l by lia.
      * simpl. by rewrite (proj2 (Z.eqb_neq key k)).
Qed.

(** A value that is set is the value that is got, under its key, and the
    others stay: [CFDictionarySetValue] on a dictionary the program owns, with a
    value it owns, null or a constant, whether the key is new or its old value is
    released (and with it all that only it kept alive). *)
Theorem dictionary_set_get own w p o d key value
    (Hw : counted own w) (Ho : gs_heap w !! p = Some o) (Ed : ob_body o = Dictionary d)
    (Hp : p ∈ own) (Hk : alive w key) (Hv : lasting own w value) (Hr : room 2 w) :
  match CFDictionarySetValue env p key value w with
  | Done (_, w') => forall k, CFDictionaryGetValue p k w' =
      Done (if k =? key then value else dictionary_get d k, w')
  | Aborted => overflow_checks = true
  | UB | NoFuel => False
  end.
Proof.
  pose proof (CFDictionarySetValue_ok env own w p o d key value Hw Ho Ed Hp Hk Hv Hr) as Hs.
  unfold gwp in Hs. destruct (CFDictionarySetValue env p key value w) as [[[] w']| | |]; try done.
  destruct Hs as (Hc & _ & Hb). intros k. rewrite (get_value_run own w' p _ k Hc Hb).
  rewrite dictionary_get_set; [done|]. pose proof (oo_counts _ (ho_object _ _ _ _ Hw p o Ho)) as Hl.
  by rewrite Ed in Hl.
Qed.

(** The rule that the value be owned is needed: setting a value the dictionary
    alone keeps alive, under its own key (as read by [CFDictionaryGetValue]), frees
    it before it is retained. *)
Theorem dictionary_set_borrowed_faults own w p o d key value i
    (Hw : counted own w) (Ho : gs_heap w !! p = Some o) (Ed : ob_body o = Dictionary d)
    (Hp : p ∈ own) (Hf : vtf_dictionary_find_index d key = Some i)
    (Hv : cfd_values d !! i = Some value) (Hv0 : value <> 0)
    (Hone : forall ov, gs_heap w !! value = Some ov ->
       ~ is_static ov /\ cf_refcount (ob_base ov) = 1) :
  match CFDictionarySetValue env p key value w with
  | UB => True
  | Aborted => overflow_checks = true
  | Done _ | NoFuel => False
  end.
Proof.
  pose proof (ho_object _ _ _ _ Hw p o Ho) as Hok. pose proof (ho_addr _ _ _ _ Hw p o Ho).
  unfold CFDictionarySetValue. destruct (Z.eqb_spec p 0) as [|Hp0]; [lia|].
  rewrite (bind_eq _ _ _ _ _ (type_id_eq w p o Ho)), (proj2 (Z.eqb_neq p 0) Hp0),
    (oo_type _ Hok), Ed. simpl.
  rewrite (bind_eq _ _ _ _ _ (as_dictionary_eq w p o d Ho Ed)), Hf, Hv.
  pose proof (taken_value ∅ _ own w p o d i value Hw Hp (not_elem_of_empty p) Ho Ed Hv) as Ht.
  rewrite union_empty_r_L in Ht. set (C1 := <[p := _]> (credits (gs_heap w))) in *.
  assert (dom (gs_heap w) ⊆ dom C1) as Hd1 by (unfold C1; rewrite dom_insert, dom_credits; set_solver).
  pose proof (CFRelease_within env {[p]} C1 own w value Ht ltac:(by intros q ->%elem_of_singleton)) as Hs.
  unfold gwp in Hs. unfold mbind at 1, G_bind at 1.
  destruct (CFRelease env value w) as [[[] w1]| | |]; try done.
  destruct Hs as (C2 & Hw1 & K & _). assert (gs_heap w1 !! value = None) as Hnone.
  { destruct (gs_heap w1 !! value) as [ov1|] eqn:E1; [exfalso|done].
    assert (value ∈ dom C2) as Hd2 by (eapply kept_dom; [done..|]; apply elem_of_dom; eauto).
    destruct (k_live _ _ _ _ _ K value ov1 Hd2 E1) as (ov & Hov & Es).
    destruct (Hone ov Hov) as [Hs1 H1]. assert (~ is_static ov1) as Hs2 by (by rewrite <- (shape_static _ _ Es)).
    destruct (ho_count _ _ _ _ Ht value ov Hov Hs1) as (E & _ & _).
    destruct (ho_count _ _ _ _ Hw1 value ov1 E1 Hs2) as (E' & Hl & _). apply Hl in Hd2.
    assert (multiplicity value (total_refs C2) <= multiplicity value (total_refs C1))%nat
      by apply total_sub, K.
    rewrite refs_single, !multiplicity_disj_union, multiplicity_singleton_eq in E by done.
    rewrite multiplicity_disj_union in E'. lia. }
  unfold mbind, G_bind, CFRetain, mbind, G_bind, get_object.
  rewrite (proj2 (Z.eqb_neq value 0) Hv0). by rewrite Hnone.
Qed.
End client.

(** ** Concrete runs *)

Section runs.
Context {os : Type} `{!Net os} `{!Profile} (env : environ).
Implicit Types (w : guest os) (own : gmultiset Z) (c : call) (t : transport os).

Definition after_call c w : Z * guest os :=
  match perform_call env c w with Done (r, w') => (r, w') | _ => (0, w) end.

Lemma client_after t own w c : overflow_checks = false -> client env t own w -> call_ok env own w c ->
  client env t (call_own own c (after_call c w).1) (after_call c w).2.
Proof.
  intros Hov Hrun Hc. pose proof (call_step env own w c (client_counted env t own w Hrun) Hc) as Hs.
  unfold gwp, after_call in *. destruct (perform_call env c w) as [[r w']| | |] eqn:E; try done;
    [by eapply client_call|by rewrite Hov in Hs].
Qed.

Lemma client_made t own w c r w' : overflow_checks = false -> client env t own w -> call_ok env own w c ->
  (forall m p, call_own m c p = refs_of [p] ⊎ m) -> after_call c w = (r, w') ->
  client env t (refs_of [r] ⊎ own) w'.
Proof.
  intros Hov Hrun Hc Eo E. pose proof (client_after t own w c Hov Hrun Hc) as Hs. by rewrite E, Eo in Hs.
Qed.

Definition room_test (n : Z) w : bool :=
  bool_decide (map_Forall (fun _ o => is_static o \/ cf_refcount (ob_base o) + n < 2 ^ 31) (gs_heap w)).

Lemma room_tested n w : room_test n w = true -> room n w.
Proof.
  intros Hr%bool_decide_eq_true_1 p o Ho Hs. destruct (Hr p o Ho); [contradiction|done].
Qed.

(** Objects that refer only to older ones. *)
Definition older_test w : bool :=
  bool_decide (map_Forall (fun p o => Forall (fun q => 0 <= q < p) (body_fields (ob_body o))) (gs_heap w)).

Lemma older_acyclic w : older_test w = true -> acyclic (gs_heap w).
Proof.
  intros Ht%bool_decide_eq_true_1. exists Z.to_nat. intros p o q Ho Hq Hq0.
  specialize (Ht p o Ho). rewrite list.Forall_forall in Ht. specialize (Ht q Hq). lia.
Qed.
End runs.

(** No worker, a release build. *)
#[local] Instance no_worker : Net unit := {|
  net_connect _ s := (None, s);
  net_setsockopt _ _ _ s := (false, s);
  net_write_all _ _ s := (false, s);
  net_read_exact _ _ s := (None, s);
  net_now _ := 0
|}.
#[local] Instance optimised : Profile := release_build.
Definition no_env : environ := fun _ => None.
Definition offline : transport unit := mk_transport None false [] None tt.

(** Some memory, a number read from it, an array of the number, and the program's
    own reference to the number released. *)
Definition demo0 : guest unit := guest_start offline.
Definition demo_bytes : list byte := [Byte.x2a; Byte.x00; Byte.x00; Byte.x00].
Definition demo1 : guest unit := (after_call no_env (Memory demo_bytes) demo0).2.
Definition demo_memory : rawptr := Some (gs_next demo0, 0).
Definition demo_number : Z := gs_next demo1.
Definition demo2 := (after_call no_env (NumberCreate K_CF_NUMBER_INT_TYPE demo_memory) demo1).2.
Definition demo_array : Z := gs_next demo2.
Definition demo3 := (after_call no_env (ArrayCreate (Some [demo_number]) 1) demo2).2.
Definition demo4 := (after_call no_env (Release_ demo_number) demo3).2.

Lemma demo_quiet : overflow_checks (Profile:=optimised) = false.
Proof. done. Qed.

Lemma demo_client2 : client no_env offline (refs_of [demo_number]) demo2.
Proof.
  pose proof (client_after no_env offline ∅ demo0 (Memory demo_bytes) demo_quiet (client_start _ _) (conj I I)) as H1.
  assert (call_rules ∅ demo1 (NumberCreate K_CF_NUMBER_INT_TYPE demo_memory)) as Hc.
  { right. intros n [= <-]. exists demo_bytes. by vm_compute. }
  pose proof (client_after no_env offline ∅ demo1 _ demo_quiet H1 (conj Hc I)) as H2.
  assert ((after_call no_env (NumberCreate K_CF_NUMBER_INT_TYPE demo_memory) demo1).1 = demo_number)
    as E by (by vm_compute).
  unfold call_own in H2. rewrite E, (right_id_L ∅ (⊎)) in H2. exact H2.
Qed.

Lemma demo_alive2 p : bool_decide (is_Some (gs_heap demo2 !! p)) = true -> alive demo2 p.
Proof. intros [o Ho]%bool_decide_eq_true_1. by eapply alive_some. Qed.

Lemma demo_client3 : client no_env offline (refs_of [demo_array] ⊎ refs_of [demo_number]) demo3.
Proof.
  assert (call_rules (refs_of [demo_number]) demo2 (ArrayCreate (Some [demo_number]) 1)) as Hc.
  { split_and!; [done|by intros l [= <-]| |apply room_tested; by vm_compute].
    apply list.Forall_singleton, demo_alive2. by vm_compute. }
  pose proof (client_after no_env offline _ demo2 _ demo_quiet demo_client2 (conj Hc I)) as H3.
  assert ((after_call no_env (ArrayCreate (Some [demo_number]) 1) demo2).1 = demo_array) as E
    by (by vm_compute).
  unfold call_own in H3. rewrite E in H3. exact H3.
Qed.

Lemma demo_number_owned own : demo_number ∈ own ⊎ refs_of [demo_number].
Proof.
  apply gmultiset_elem_of_disj_union. right. apply elem_of_refs. split; [by vm_compute|set_solver].
Qed.

Lemma demo_client4 : client no_env offline (refs_of [demo_array]) demo4.
Proof.
  assert (call_rules (refs_of [demo_array] ⊎ refs_of [demo_number]) demo3 (Release_ demo_number)) as Hc
    by (right; left; apply demo_number_owned).
  pose proof (client_after no_env offline _ demo3 _ demo_quiet demo_client3 (conj Hc I)) as H4.
  unfold call_own in H4.
  replace ((refs_of [demo_array] ⊎ refs_of [demo_number]) ∖ refs_of [demo_number])
    with (refs_of [demo_array]) in H4 by multiset_solver. exact H4.
Qed.

Lemma client_never_faults_witness :
  match perform_call no_env (Release_ demo_number) demo3 with
  | Done (r, w') => client no_env offline (call_own (refs_of [demo_array] ⊎ refs_of [demo_number])
        (Release_ demo_number) r) w' /\
      exact_counts (call_own (refs_of [demo_array] ⊎ refs_of [demo_number]) (Release_ demo_number) r) w' /\
      exact_alive w'
  | Aborted => overflow_checks = true
  | UB | NoFuel => False
  end.
Proof.
  apply (client_never_faults no_env offline (refs_of [demo_array] ⊎ refs_of [demo_number]) demo3
    (Release_ demo_number) demo_client3); [|exact I]. right. left. apply demo_number_owned.
Defined.

Lemma release_returns_witness :
  match CFRelease no_env demo_array demo4 with
  | Done (_, w') => counted ∅ w' /\
      forall q o', gs_heap w' !! q = Some o' -> exists o, gs_heap demo4 !! q = Some o /\ shape_eq o o'
  | Aborted => overflow_checks = true
  | UB | NoFuel => False
  end.
Proof.
  apply (release_returns no_env ∅ demo4 demo_array). rewrite (right_id_L ∅ (⊎)).
  exact (client_counted _ _ _ _ demo_client4).
Defined.

Lemma client_no_leak_witness : exists o, gs_heap demo4 !! demo_number = Some o /\
  (refs_of [demo_array] <> ∅ /\ exists q, q ∈ refs_of [demo_array] /\ reaches (gs_heap demo4) q demo_number).
Proof.
  destruct (gs_heap demo4 !! demo_number) as [o|] eqn:E.
  - exists o. split; [done|].
    refine (client_no_leak no_env offline _ demo4 demo_number o demo_client4 _ E _).
    + apply older_acyclic. by vm_compute.
    + assert (bool_decide (map_Forall (fun p o => p = demo_number -> ~ is_static o) (gs_heap demo4)) = true)
        as Hs%bool_decide_eq_true_1 by (by vm_compute). by eapply Hs.
  - exfalso. assert (bool_decide (is_Some (gs_heap demo4 !! demo_number)) = true) as Hs by (by vm_compute).
    by rewrite E in Hs.
Defined.

(** A dictionary the program owns, and a constant to put in it. *)
Definition demo_width : Z := symbol "kCVPixelBufferWidthKey".
Definition demo5 : guest unit := (after_call no_env (DictionaryCreateMutable 0) demo0).2.
Definition demo_dictionary : Z := gs_next demo0.
Definition demo_object : object :=
  default (static_boolean false) (gs_heap demo5 !! demo_dictionary).

Lemma demo_client5 : client no_env offline (refs_of [demo_dictionary]) demo5.
Proof.
  assert (call_rules ∅ demo0 (DictionaryCreateMutable 0)) as Hc by (by vm_compute).
  pose proof (client_after no_env offline ∅ demo0 (DictionaryCreateMutable 0) demo_quiet
    (client_start _ _) (conj Hc I)) as H1.
  assert ((after_call no_env (DictionaryCreateMutable 0) demo0).1 = demo_dictionary) as E by (by vm_compute).
  unfold call_own in H1. rewrite E, (right_id_L ∅ (⊎)) in H1. exact H1.
Qed.

Lemma dictionary_set_get_witness :
  match CFDictionarySetValue no_env demo_dictionary demo_width kCFBooleanTrue demo5 with
  | Done (_, w') => forall k, CFDictionaryGetValue demo_dictionary k w' =
      Done (if k =? demo_width then kCFBooleanTrue
            else dictionary_get (mk_vtf_cf_dictionary [] []) k, w')
  | Aborted => overflow_checks = true
  | UB | NoFuel => False
  end.
Proof.
  refine (dictionary_set_get no_env (refs_of [demo_dictionary]) demo5 demo_dictionary demo_object
    (mk_vtf_cf_dictionary [] []) demo_width kCFBooleanTrue
    (client_counted _ _ _ _ demo_client5) _ _ _ _ _ _).
  - by vm_compute.
  - by vm_compute.
  - apply elem_of_refs. split; [by vm_compute|set_solver].
  - right. rewrite dom_credits. apply elem_of_dom. vm_compute. by eexists.
  - right. right. exists (static_boolean true). split; by vm_compute.
  - apply room_tested. by vm_compute.
Defined.
