(* ===== verification/VideoClient.v ===== *)
(** * Pixel buffers of a client

    What a program that calls by the rules of [Client] sees of its pixel buffers:
    every row of every plane it asks for is memory of its own process, and the
    attachments it sets are the ones it gets. *)

From S2P Require Import Prelude Wire Protocol Layout Backend Transport Objects Release Refcount.
From S2P Require Import ReleaseSafe CoreFoundation Ownership Access Bitstream CoreMedia CoreVideo.
From S2P Require Import Pixels Attachments Client.
From stdpp Require Import strings gmultiset fin_maps.

Set Default Goal Selector "!".
Open Scope Z_scope.

(** ** The layouts of the worker *)

(** The layout both workers give a buffer is one the guest can use, when it fits 32
    bits. *)
Lemma layout_spec_within w h pf : layout_fits w h pf -> layout_within (layout_spec w h pf).
Proof.
  intros (Hw & Hh & Hs & Ht). pose proof (round64_bounds (w * bytes_per_sample pf)) as Hr.
  assert (0 <= w * bytes_per_sample pf) as Hp by (unfold bytes_per_sample; repeat case_if; lia).
  pose proof (Z.div_pos h 2 ltac:(lia) ltac:(lia)) as Hh2.
  unfold layout_spec, total_spec, stride_spec in *. set (s := round64 _) in *.
  assert (0 <= s) by lia. assert (0 <= s * h) by nia. assert (0 <= s * (h / 2)) by nia.
  destruct (biplanar pf).
  - split; simpl; [lia|]. intros i Hi. assert (i = 0 \/ i = 1)%nat as [->| ->] by lia;
      do 3 eexists; (split_and!; [reflexivity..|lia|lia|lia|nia]).
  - split; simpl; [lia|]. intros i Hi. assert (i = 0)%nat as -> by lia.
    do 3 eexists; (split_and!; [reflexivity..|lia|lia|lia|nia]).
Qed.

Section planes.
Context {os : Type} `{!Net os} `{!Profile} (env : environ).
Implicit Types (w : guest os) (own : gmultiset Z) (t : transport os).

(** The worker answers a lease with a layout it computed. *)
Definition computed_leases w c : Prop :=
  match c with
  | PoolCreatePixelBuffer _ => forall pool_id reply t',
      send_request env AllocBufferReply OP_ALLOC_BUFFER (mk_AllocBufferPayload pool_id) (gs_transport w) =
        Val (inl reply, t') -> laid_out (abr_layout reply)
  | _ => True
  end.

Lemma computed_worker_ok w c : computed_leases w c -> worker_ok env w c.
Proof.
  destruct c; try done. intros Hl. right. intros o _ reply t' E.
  destruct (Hl _ _ _ E) as (wd & h & pf & Hf & El). rewrite (vtf_fill_buffer_layout_spec _ _ _ Hf) in El.
  injection El as <-. by apply layout_spec_within.
Qed.

(** The states of a program that calls by the rules, with such a worker. *)
Inductive served t : gmultiset Z -> guest os -> Prop :=
| served_start : served t ∅ (guest_start t)
| served_call own w c r w' : served t own w -> call_rules own w c -> computed_leases w c ->
    perform_call env c w = Done (r, w') -> served t (call_own own c r) w'.

Lemma served_client t own w : served t own w -> client env t own w.
Proof.
  induction 1 as [|own w c r w' _ IH Hc Hl E]; [apply client_start|].
  eapply client_call; [done| |done]. split; [done|]. by apply computed_worker_ok.
Qed.

Lemma served_made t own w c r w' : served t own w -> call_rules own w c -> computed_leases w c ->
  (forall own r, call_own own c r = refs_of [r] ⊎ own) -> perform_call env c w = Done (r, w') ->
  served t (refs_of [r] ⊎ own) w'.
Proof. intros Hrun Hc Hl Eo E. rewrite <- Eo. by eapply served_call. Qed.

(** C11: reading pixels is safe.  A program calls by the rules of [Client], and the worker
    answers its requests for buffers with layouts that [vtf_fill_buffer_layout] computes,
    for geometries that fit 32 bits, or with errors.  Then for each plane
    of a pixel buffer it has, [CVPixelBufferGetBaseAddressOfPlane] returns, and every
    row that starts a multiple of [CVPixelBufferGetBytesPerRowOfPlane] bytes after it,
    as many as the plane has rows, lies inside live memory; the plane's address stays
    the same when it is asked again. *)
Theorem planes_in_bounds t own w p b i (Hrun : served t own w)
    (Hb : ob_body <$> gs_heap w !! p = Some (PixelBuffer b))
    (Hi : Z.of_nat i < Z.min (px_plane_count b) 4) :
  exists ptr w' stride rows,
    CVPixelBufferGetBaseAddressOfPlane p (Z.of_nat i) w = Done (ptr, w') /\
    CVPixelBufferGetBaseAddressOfPlane p (Z.of_nat i) w' = Done (ptr, w') /\
    CVPixelBufferGetBytesPerRowOfPlane p (Z.of_nat i) w' = Done (stride, w') /\
    px_plane_heights b !! i = Some rows /\ rows_readable w' ptr stride rows.
Proof.
  pose proof (client_counted env t own w (served_client t own w Hrun)) as Hw.
  pose proof (body_nonzero _ _ _ _ Hw Hb) as Hp.
  destruct (plane_address_ok own w p b i Hw Hp Hb Hi)
    as (b' & w' & off & stride & rows & E & E' & Es & Eh & Hr & Hc).
  exists (raw_add (px_backing_store b') off), w', stride, rows. done.
Qed.

(** C19: an attachment that is set is the one that is got. After
    [CVBufferSetAttachment], on a buffer the program owns, of a value that is
    null, a constant or one the program owns a reference to, the dictionary
    that [CVBufferGetAttachments] gives has the value under its key (released
    or retained as it may be), and what it had under every other. *)
Theorem attachment_set_get t own w p b d key value (Hrun : client env t own w) (Hp : p ∈ own)
    (Hb : ob_body <$> gs_heap w !! p = Some (PixelBuffer b)) (Hd : attachments w b d)
    (Hk : alive w key) (Hk0 : key <> 0) (Hv : lasting own w value) (Hr : room 2 w) :
  match CVBufferSetAttachment env p key value w with
  | Done (_, w') => exists dict, dict <> 0 /\
      (room 1 w' -> CVBufferGetAttachments p w' = Done (dict, retained dict w')) /\
      forall k, CFDictionaryGetValue dict k w' =
        Done (if k =? key then value else dictionary_get d k, w')
  | Aborted => overflow_checks = true
  | UB | NoFuel => False
  end.
Proof.
  pose proof (client_counted env t own w Hrun) as Hw.
  pose proof (set_attachment_ok env own w p b d key value Hw Hp Hb Hd Hk Hv Hr) as Hs.
  rewrite (proj2 (Z.eqb_neq _ _) Hk0) in Hs. unfold gwp in Hs.
  destruct (CVBufferSetAttachment env p key value w) as [[[] w']| | |]; try done.
  destruct Hs as (Hc & _ & b' & Hb' & [[_ E]|[Ha Hd']]).
  { exfalso. apply (f_equal cfd_keys) in E. unfold dictionary_set in E.
    destruct (vtf_dictionary_find_index d key) as [i|] eqn:Hf; simpl in E; [|by destruct (cfd_keys d)].
    apply position_Some in Hf as (? & Hi & _). by rewrite E in Hi. }
  exists (px_attachments b'). split_and!; [done| |].
  - intros Hr'. by destruct (get_attachments_ok own w' p b' Hc Hb' Hr') as [E _].
  - intros k. rewrite (get_value_run own w' _ _ k Hc Hd'), dictionary_get_set; [done|].
    destruct Hd as [[_ ->]|[_ (o & Ho & Eo)%fmap_body]]; [done|].
    pose proof (oo_counts _ (ho_object _ _ _ _ Hw _ o Ho)) as Hl. by rewrite Eo in Hl.
Qed.
End planes.

(** ** A concrete run

    A worker whose answers were recorded: a pool, then a lease of 640 by 360 NV12. *)

#[local] Instance recorded : Net (list byte) := {|
  net_connect _ s := (Some 3, s);
  net_setsockopt _ _ _ s := (true, s);
  net_write_all _ _ s := (true, s);
  net_read_exact _ n s := if (length s <? n)%nat then (None, s) else (Some (take n s), drop n s);
  net_now _ := 0
|}.
#[local] Instance shipped : Profile := release_build.

Definition answer {A} `{!Pod A} (a : A) : list byte :=
  bytes_of (mk_MessageHeader VTF_TRANSPORT_VERSION 0 0 1 (Z.of_nat (size_of A)) STATUS_OK) ++ bytes_of a.
Definition demo_layout : BufferLayoutReply := layout_spec 640 360 NV12_FOURCC.
Definition demo_pool_reply : CreateBufferPoolReply :=
  mk_CreateBufferPoolReply 7 640 360 NV12_FOURCC 1 0 0 demo_layout
    (replicate (Z.to_nat VTF_TRANSPORT_MAX_POOL_SLOTS) (zeroed SharedRegionReply))
    (replicate (Z.to_nat VTF_TRANSPORT_MAX_POOL_SLOTS) (zeroed PoolBufferLeaseReply)).
Definition demo_lease_reply : AllocBufferReply :=
  mk_AllocBufferReply 8 1 640 360 NV12_FOURCC 0 0 0 demo_layout.
Definition worker_env : environ := fun name =>
  if bool_decide (name = "VT_FERRY_TRANSPORT") then Some "tcp"%string else None.
Definition tape : transport (list byte) :=
  mk_transport None false [] None (answer demo_pool_reply ++ answer demo_lease_reply).

Definition video0 : guest (list byte) := guest_start tape.
Definition video1 := (after_call worker_env (PoolCreate 0) video0).2.
Definition video_pool : Z := (after_call worker_env (PoolCreate 0) video0).1.
Definition video2 := (after_call worker_env (PoolCreatePixelBuffer video_pool) video1).2.
Definition video_buffer : Z := (after_call worker_env (PoolCreatePixelBuffer video_pool) video1).1.
Definition video_body : vtf_cv_pixel_buffer :=
  match gs_heap video2 !! video_buffer with
  | Some (mk_object _ (PixelBuffer b)) => b
  | _ => leased_pixel_buffer 0 (ob_base (static_boolean true))
      (mk_vtf_cv_pixel_buffer_pool 0 0 0 0 0 0 demo_layout 0 0)
      (mk_PoolBufferLeaseReply 0 0 0 0 0 0) demo_layout
  end.

Lemma video_served1 : served worker_env tape (refs_of [video_pool] ⊎ ∅) video1.
Proof.
  apply (served_made worker_env tape ∅ video0 (PoolCreate 0) video_pool video1);
    [apply served_start|by left|done|done|]. by vm_compute.
Qed.

Lemma demo_layout_laid : laid_out demo_layout.
Proof. exists 640, 360, NV12_FOURCC. split; [split_and!; by vm_compute|by vm_compute]. Qed.

Lemma video_leases : computed_leases worker_env video1 (PoolCreatePixelBuffer video_pool).
Proof.
  intros pool_id reply t E.
  assert (exists t', send_request worker_env AllocBufferReply OP_ALLOC_BUFFER
    (mk_AllocBufferPayload pool_id) (gs_transport video1) =
    Val (inl demo_lease_reply, t')) as [t' E'] by (eexists; by vm_compute).
  rewrite E in E'. injection E' as -> _. exact demo_layout_laid.
Qed.

Definition pool_object : object := default (static_boolean true) (gs_heap video1 !! video_pool).

Lemma video_call2 : call_rules (refs_of [video_pool] ⊎ ∅) video1 (PoolCreatePixelBuffer video_pool).
Proof.
  right. exists pool_object.
  exists (match ob_body pool_object with PixelBufferPool q => q
          | _ => mk_vtf_cv_pixel_buffer_pool 0 0 0 0 0 0 demo_layout 0 0 end).
  split_and!; [by vm_compute..|]. apply room_tested. by vm_compute.
Qed.

Definition video_own : gmultiset Z := refs_of [video_buffer] ⊎ (refs_of [video_pool] ⊎ ∅).

Lemma video_step2 :
  perform_call worker_env (PoolCreatePixelBuffer video_pool) video1 = Done (video_buffer, video2).
Proof. by vm_compute. Qed.

Lemma video_served2 : served worker_env tape video_own video2.
Proof.
  exact (served_made worker_env tape (refs_of [video_pool] ⊎ ∅) video1
    (PoolCreatePixelBuffer video_pool) video_buffer video2 video_served1 video_call2 video_leases
    (fun _ _ => eq_refl) video_step2).
Qed.

Lemma planes_in_bounds_witness : exists ptr w' stride rows,
  CVPixelBufferGetBaseAddressOfPlane video_buffer 1 video2 = Done (ptr, w') /\
  CVPixelBufferGetBytesPerRowOfPlane video_buffer 1 w' = Done (stride, w') /\
  rows_readable w' ptr stride rows.
Proof.
  destruct (planes_in_bounds worker_env tape video_own video2
    video_buffer video_body 1 video_served2) as (ptr & w' & stride & rows & E & _ & Es & _ & Hr).
  - by vm_compute.
  - by vm_compute.
  - exists ptr, w', stride, rows. split_and!; [exact E|exact Es|exact Hr].
Defined.

Lemma attachment_set_get_witness :
  match CVBufferSetAttachment worker_env video_buffer kCVPixelBufferWidthKey kCFBooleanTrue video2 with
  | Done (_, w') => exists dict, dict <> 0 /\
      (room 1 w' -> CVBufferGetAttachments video_buffer w' = Done (dict, retained dict w')) /\
      forall k, CFDictionaryGetValue dict k w' =
        Done (if k =? kCVPixelBufferWidthKey then kCFBooleanTrue
              else dictionary_get (mk_vtf_cf_dictionary [] []) k, w')
  | Aborted => overflow_checks = true
  | UB | NoFuel => False
  end.
Proof.
  refine (attachment_set_get worker_env tape video_own video2
    video_buffer video_body (mk_vtf_cf_dictionary [] []) kCVPixelBufferWidthKey kCFBooleanTrue
    (served_client _ _ _ _ video_served2) _ _ _ _ _ _ _).
  - apply gmultiset_elem_of_disj_union. left. apply elem_of_refs. split; [by vm_compute|set_solver].
  - by vm_compute.
  - left. split; by vm_compute.
  - right. rewrite dom_credits. apply elem_of_dom. vm_compute. by eexists.
  - by vm_compute.
  - right. right. exists (static_boolean true). split; by vm_compute.
  - apply room_tested. by vm_compute.
Defined.
