(* ===== verification/DecodeFormat.v ===== *)
(** * The decode format on its way to the worker

    [videotoolbox.rs] packs the parameter sets of a format description into the
    payload of [OP_SET_DECODE_FORMAT]; the worker cuts them out again.  What the
    worker gets is what the program put into the format description, whichever
    way it made it. *)

From S2P Require Import Prelude Wire Protocol Backend Transport Objects Release.
From S2P Require Import CoreFoundation Bitstream CoreMedia Frameworks PoolDirectory PixelCopy.
From S2P Require Import VtReal VtDispatch.
From stdpp Require Import strings.

Set Default Goal Selector "!".
Open Scope Z_scope.

Definition VTF_FORMAT_TOO_LARGE : Z := -12902.

Section pack.
Context {os : Type} `{!Net os} `{!Profile} (env : environ).
Abbreviation G := (Objects.G os).

Definition parameter_set_at (codec format_description index : Z) (pointer_out size_out count_out nal_out : bool)
    : G (Z * parameter_set_out) :=
  if codec =? VTF_VIDEO_CODEC_HEVC
  then CMVideoFormatDescriptionGetHEVCParameterSetAtIndex format_description index pointer_out size_out count_out nal_out
  else CMVideoFormatDescriptionGetH264ParameterSetAtIndex format_description index pointer_out size_out count_out nal_out.

(** The loop that copies the sets: the size table and the data so far, and where
    the next set goes. *)
Fixpoint pack_sets (codec format_description : Z) (index : list nat) (sizes : list Z) (data : list byte)
    (data_offset : Z) : G ((list Z * list byte) + Z) :=
  match index with
  | [] => mret (inl (sizes, data))
  | i :: index =>
      '(status, out) ← parameter_set_at codec format_description (Z.of_nat i) true true false false;
      let param_ptr := default None (pso_pointer out) in
      let param_size := default 0 (pso_size out) in
      if negb (status =? 0) || bool_decide (param_ptr = None) then mret (inr status) else
      stop ← of_rust (arith 64 (data_offset + param_size));
      if stop >? len data then mret (inr VTF_FORMAT_TOO_LARGE) else
      bytes ← read_bytes param_ptr param_size;
      if bool_decide (i < length sizes)%nat
      then pack_sets codec format_description index (<[i := wrap 32 param_size]> sizes)
             (write_at (Z.to_nat data_offset) bytes data) stop
      else abort
  end.

Definition vtf_pack_decode_format_payload (session_id codec width height format_description : Z)
    : G (SetDecodeFormatPayload + Z) :=
  let payload := zeroed SetDecodeFormatPayload in
  '(probe_status, out) ← parameter_set_at codec format_description 0 false false true true;
  let parameter_set_count := default 0 (pso_count out) in
  let nal_header_length := default 0 (pso_nal_header_length out) in
  if negb (probe_status =? 0) then mret (inr probe_status) else
  if (parameter_set_count =? 0) || (parameter_set_count >? VTF_TRANSPORT_MAX_PARAMETER_SETS)
  then mret (inr VTF_FORMAT_TOO_LARGE) else
  packed ← pack_sets codec format_description (seq 0 (Z.to_nat parameter_set_count))
             (sdf_parameter_set_sizes payload) (sdf_parameter_set_data payload) 0;
  match packed with
  | inr status => mret (inr status)
  | inl (sizes, data) =>
      mret (inl (mk_SetDecodeFormatPayload session_id codec (wrap 32 width) (wrap 32 height)
                   (wrap 32 nal_header_length) (wrap 32 parameter_set_count) 0 sizes data))
  end.
End pack.

(** ** From the stream itself *)

Section inband.
Context `{!Profile}.

(** The loop that copies the sets of a vector. *)
Fixpoint pack_blobs (i : nat) (sets : list (list byte)) (sizes : list Z) (data : list byte)
    (data_offset : Z) : rust (list Z * list byte) :=
  match sets with
  | [] => Val (sizes, data)
  | ps :: sets =>
      if bool_decide (i < length sizes)%nat then
        stop ← arith 64 (data_offset + len ps);
        if stop >? len data then Panic
        else pack_blobs (S i) sets (<[i := wrap 32 (len ps)]> sizes)
               (write_at (Z.to_nat data_offset) ps data) stop
      else Panic
  end.

Definition vtf_pack_decode_format_payload_from_inband (session_id codec width height : Z)
    (encoded_data : list byte) : rust (option (SetDecodeFormatPayload + Z)) :=
  nals ← vtf_split_avcc_bitstream encoded_data 4;
  match nals with
  | None => Val None
  | Some nals =>
      let types :=
        if codec =? VTF_VIDEO_CODEC_HEVC then Some (33, 34, Some 32)
        else if codec =? VTF_VIDEO_CODEC_H264 then Some (7, 8, None)
        else None in
      match types with
      | None => Val (Some (inr VTF_FORMAT_TOO_LARGE))
      | Some (sps_type, pps_type, vps_type) =>
          let s := foldl (inband_keep codec sps_type pps_type vps_type) (mk_inband_sets None None None) nals in
          let parameter_sets :=
            match ib_vps s, ib_sps s, ib_pps s with
            | Some vps, Some sps, Some pps =>
                if codec =? VTF_VIDEO_CODEC_HEVC then Some [vps; sps; pps] else None
            | None, Some sps, Some pps =>
                if codec =? VTF_VIDEO_CODEC_H264 then Some [sps; pps] else None
            | _, _, _ => None
            end in
          match parameter_sets with
          | None => Val (Some (inr kCMFormatDescriptionError_InvalidParameter))
          | Some parameter_sets =>
              if (sum_Z (fun s => len s) parameter_sets >? VTF_TRANSPORT_MAX_PARAMETER_SET_BYTES) ||
                 (len parameter_sets >? VTF_TRANSPORT_MAX_PARAMETER_SETS)
              then Val (Some (inr VTF_FORMAT_TOO_LARGE)) else
              let payload := zeroed SetDecodeFormatPayload in
              '(sizes, data) ← pack_blobs 0 parameter_sets (sdf_parameter_set_sizes payload)
                                 (sdf_parameter_set_data payload) 0;
              Val (Some (inl (mk_SetDecodeFormatPayload session_id codec (wrap 32 width) (wrap 32 height)
                                4 (len parameter_sets) 0 sizes data)))
          end
      end
  end.
End inband.

(** ** What the worker cuts out *)

Lemma concat_snoc {A} (l : list (list A)) x : concat (l ++ [x]) = concat l ++ x.
Proof. rewrite concat_app. simpl. by rewrite app_nil_r. Qed.

Lemma slice_sets_concat `{!Profile} (got todo : list (list byte)) (tail : list byte) :
  len (concat (got ++ todo) ++ tail) <= ISIZE_MAX ->
  slice_parameter_sets ((fun s => len s) <$> todo) (len (concat got)) (concat (got ++ todo) ++ tail)
    = Val todo.
Proof.
  revert got. induction todo as [|s todo IH]; intros got Hl; [done|].
  assert (concat (got ++ s :: todo) = concat got ++ s ++ concat todo) as E
    by (by rewrite concat_app).
  assert (len (concat got) + len s + len (concat todo) + len tail <= ISIZE_MAX) as Hl'
    by (rewrite E, !length_app in Hl; lia).
  unfold ISIZE_MAX in *. simpl. rewrite arith_in by lia. simpl.
  destruct (Z.gtb_spec (len (concat got) + len s) (len (concat (got ++ s :: todo) ++ tail))) as [Hgt|_].
  { rewrite E, !length_app in Hgt. lia. }
  specialize (IH (got ++ [s])). rewrite <- app_assoc in IH. simpl in IH.
  specialize (IH Hl). rewrite concat_snoc, (length_app (concat got)), Nat2Z.inj_add in IH.
  change (list_fmap _ _ _ todo) with ((fun s : list byte => len s) <$> todo). rewrite IH. simpl. do 2 f_equal. rewrite E. unfold slice.
  rewrite !Nat2Z.id, <- app_assoc, drop_app_length, <- app_assoc. by rewrite take_app_length.
Qed.

(** ** Packing *)

Section packing.
Context {os : Type} `{!Net os} `{!Profile} (env : environ).
Implicit Types (w : guest os) (f : vtf_cm_format_description) (sets : list (list byte)).

(** The format description holds these parameter sets. *)
Definition carries w f sets : Prop :=
  fd_parameter_set_count f = len sets /\
  forall i s, sets !! i = Some s -> exists p : rawptr, p <> None /\
    fd_parameter_sets f !! i = Some p /\ fd_parameter_set_sizes f !! i = Some (len s) /\
    read_bytes p (len s) w = Done (s, w).

Definition describes w (fd : Z) f : Prop := fd <> 0 /\
  exists o, gs_heap w !! fd = Some o /\ ob_body o = FormatDescription f.

Lemma as_format_description_run w fd f : describes w fd f ->
  as_format_description fd w = Done (f, w).
Proof.
  intros (_ & o & Ho & E). unfold as_format_description, mbind, G_bind, get_object. rewrite Ho, E. done.
Qed.

(** H.264 or HEVC. *)
Definition known_codec (codec : Z) : Prop := codec = VTF_VIDEO_CODEC_H264 \/ codec = VTF_VIDEO_CODEC_HEVC.

Lemma parameter_set_at_run w fd f codec index pointer_out size_out count_out nal_out :
  describes w fd f -> known_codec codec -> fd_codec_type f = codec ->
  parameter_set_at codec fd index pointer_out size_out count_out nal_out w =
    (if index >=? fd_parameter_set_count f
     then mret (kCMFormatDescriptionError_InvalidParameter,
            mk_parameter_set_out (given pointer_out None) (given size_out 0)
              (given count_out (fd_parameter_set_count f)) (given nal_out (fd_nal_header_length f)))
     else pointer ← (if pointer_out then p ← nth_or_abort (fd_parameter_sets f) index; mret (Some p)
                     else mret None);
          size ← (if size_out then n ← nth_or_abort (fd_parameter_set_sizes f) index; mret (Some n)
                  else mret None);
          mret (noErr, mk_parameter_set_out pointer size
            (given count_out (fd_parameter_set_count f)) (given nal_out (fd_nal_header_length f)))) w.
Proof.
  intros Hd Hc Ec. assert (parameter_set_at codec fd index pointer_out size_out count_out nal_out w =
    vtf_video_format_description_get_parameter_set_at_index fd codec index pointer_out size_out count_out nal_out w)
    as -> by (destruct Hc as [-> | ->]; done).
  unfold vtf_video_format_description_get_parameter_set_at_index.
  destruct Hd as [Hfd Hd]. rewrite (proj2 (Z.eqb_neq fd 0) Hfd).
  unfold mbind at 1, G_bind at 1. rewrite (as_format_description_run w fd f (conj Hfd Hd)), Ec, Z.eqb_refl.
  done.
Qed.

Lemma set_read w fd f codec sets i s :
  describes w fd f -> known_codec codec -> fd_codec_type f = codec -> carries w f sets ->
  sets !! i = Some s -> exists p : rawptr, p <> None /\ read_bytes p (len s) w = Done (s, w) /\
    parameter_set_at codec fd (Z.of_nat i) true true false false w =
      Done ((noErr, mk_parameter_set_out (Some p) (Some (len s)) None None), w).
Proof.
  intros Hd Hc Ec [Hn Hs] Hi. destruct (Hs i s Hi) as (p & Hp & Ep & En & Er). exists p.
  split_and!; [done..|]. rewrite (parameter_set_at_run w fd f) by done.
  pose proof (lookup_lt_Some _ _ _ Hi). rewrite Hn.
  destruct (Z.geb_spec (Z.of_nat i) (len sets)) as [Hge|_]; [lia|].
  unfold mbind, G_bind, nth_or_abort. rewrite Nat2Z.id, Ep, En. done.
Qed.

(** The table and the data hold the sets copied so far. *)
Definition packed (got : list (list byte)) (sizes : list Z) (data : list byte) : Prop :=
  length sizes = 4%nat /\ length data = 128%nat /\
  take (length got) sizes = ((fun s => len s) <$> got) /\ take (length (concat got)) data = concat got.

Lemma packed_step got s sizes data :
  packed got sizes data -> (length got < 4)%nat -> (length (concat got) + length s <= 128)%nat ->
  packed (got ++ [s]) (<[length got := wrap 32 (len s)]> sizes)
    (write_at (length (concat got)) s data).
Proof.
  intros (Hs & Hd & Es & Ed) Hn Hl. split_and!.
  - by rewrite length_insert.
  - rewrite length_write_at; lia.
  - rewrite length_app. simpl. rewrite Nat.add_1_r.
    erewrite take_S_r by (apply list_lookup_insert_eq; lia).
    rewrite take_insert_ge, Es, fmap_app by lia. simpl. unfold wrap. by rewrite Z.mod_small by lia.
  - rewrite concat_snoc. unfold write_at. rewrite app_assoc.
    rewrite take_app_le by (rewrite !length_app, length_take; lia).
    rewrite take_ge by (rewrite !length_app, length_take; lia). by rewrite Ed.
Qed.

Lemma pack_sets_run w fd f codec got todo sizes data :
  describes w fd f -> known_codec codec -> fd_codec_type f = codec -> carries w f (got ++ todo) ->
  (length (got ++ todo) <= 4)%nat -> (length (concat (got ++ todo)) <= 128)%nat ->
  packed got sizes data ->
  exists sizes' data', packed (got ++ todo) sizes' data' /\
    pack_sets codec fd (seq (length got) (length todo)) sizes data (len (concat got)) w =
      Done (inl (sizes', data'), w).
Proof.
  intros Hd Hc Ec. revert got sizes data. induction todo as [|s todo IH]; intros got sizes data Hca Hn Hl Hp.
  { exists sizes, data. rewrite app_nil_r. done. }
  assert ((got ++ s :: todo) !! length got = Some s) as Hi
    by (by rewrite lookup_app_r, Nat.sub_diag by done).
  destruct (set_read w fd f codec _ _ s Hd Hc Ec Hca Hi) as (p & Hp0 & Er & Ep).
  rewrite concat_app in Hl. simpl in Hl. rewrite !length_app in Hl. rewrite length_app in Hn. simpl in Hn.
  destruct (IH (got ++ [s]) (<[length got := wrap 32 (len s)]> sizes)
    (write_at (length (concat got)) s data)) as (sizes' & data' & Hp' & E').
  { by rewrite <- app_assoc. }
  { rewrite <- app_assoc, length_app. simpl. lia. }
  { rewrite <- app_assoc, concat_app. simpl. rewrite !length_app. lia. }
  { apply packed_step; [done|lia..]. }
  exists sizes', data'. split; [by rewrite <- app_assoc in Hp'|]. destruct Hp as (Hs & Hdl & _ & _).
  simpl. unfold mbind, G_bind. rewrite Ep. simpl. rewrite bool_decide_eq_false_2 by done. simpl.
  rewrite arith_in by lia. simpl.
  destruct (Z.gtb_spec (len (concat got) + len s) (len data)) as [Hgt|_]; [lia|].
  rewrite Er, bool_decide_eq_true_2 by lia. rewrite Nat2Z.id.
  rewrite length_app in E'. simpl in E'. rewrite Nat.add_1_r in E'. rewrite <- E'. f_equal.
  rewrite concat_snoc, length_app. lia.
Qed.

Lemma packed_zeroed : packed [] (sdf_parameter_set_sizes (zeroed SetDecodeFormatPayload))
  (sdf_parameter_set_data (zeroed SetDecodeFormatPayload)).
Proof. split_and!; by vm_compute. Qed.

(** What the worker finds in a payload: the sets, of a number and total size it
    accepts. *)
Definition delivers (payload : SetDecodeFormatPayload) sets : Prop :=
  sdf_parameter_set_count payload = len sets /\
  0 < sdf_parameter_set_count payload <= VTF_TRANSPORT_MAX_PARAMETER_SETS /\
  sum_Z id (take (Z.to_nat (sdf_parameter_set_count payload)) (sdf_parameter_set_sizes payload))
    <= VTF_TRANSPORT_MAX_PARAMETER_SET_BYTES /\
  slice_parameter_sets (take (Z.to_nat (sdf_parameter_set_count payload)) (sdf_parameter_set_sizes payload))
    0 (sdf_parameter_set_data payload) = Val sets.

Lemma sum_lengths (sets : list (list byte)) : sum_Z id ((fun s => len s) <$> sets) = len (concat sets).
Proof.
  induction sets as [|s sets IH]; [done|]. simpl. rewrite length_app, Nat2Z.inj_add.
  unfold sum_Z, id in *. simpl. change (list_fmap _ _ _ sets) with ((fun s : list byte => len s) <$> sets).
  by rewrite IH.
Qed.

Lemma packed_delivers sets sizes data session_id codec width height nal :
  packed sets sizes data -> (0 < length sets <= 4)%nat -> (length (concat sets) <= 128)%nat ->
  delivers (mk_SetDecodeFormatPayload session_id codec width height nal (wrap 32 (len sets)) 0 sizes data) sets.
Proof.
  intros (Hs & Hd & Es & Ed) Hn Hl. unfold delivers. simpl.
  assert (wrap 32 (len sets) = len sets) as -> by (unfold wrap; by rewrite Z.mod_small by lia).
  rewrite Nat2Z.id, Es, sum_lengths. unfold VTF_TRANSPORT_MAX_PARAMETER_SETS, VTF_TRANSPORT_MAX_PARAMETER_SET_BYTES.
  split_and!; try lia. pose proof (slice_sets_concat [] sets (drop (length (concat sets)) data)) as E.
  simpl in E. rewrite <- Ed in E at 2 3. rewrite take_drop in E. apply E. unfold ISIZE_MAX. rewrite Ed.
  rewrite <- (take_drop (length (concat sets)) data), Ed in Hd. lia.
Qed.

Lemma pack_run w fd f codec sets session_id width height :
  describes w fd f -> known_codec codec -> fd_codec_type f = codec -> carries w f sets ->
  (0 < length sets <= 4)%nat -> (length (concat sets) <= 128)%nat ->
  exists payload, vtf_pack_decode_format_payload session_id codec width height fd w = Done (inl payload, w) /\
    delivers payload sets /\ sdf_codec payload = codec /\ sdf_session_id payload = session_id /\
    sdf_nal_header_length payload = wrap 32 (fd_nal_header_length f).
Proof.
  intros Hd Hc Ec Hca Hn Hl. pose proof (proj1 Hca) as Ecount. pose proof packed_zeroed as Hz.
  unfold vtf_pack_decode_format_payload, mbind, G_bind. revert Hz.
  generalize (zeroed SetDecodeFormatPayload). intros payload Hz.
  destruct (pack_sets_run w fd f codec [] sets _ _ Hd Hc Ec Hca ltac:(simpl; lia) Hl Hz)
    as (sizes & data & Hp & E). change (len (concat [])) with 0 in E.
  exists (mk_SetDecodeFormatPayload session_id codec (wrap 32 width) (wrap 32 height)
    (wrap 32 (fd_nal_header_length f)) (wrap 32 (len sets)) 0 sizes data).
  split; [|split; [by apply packed_delivers|done]].
  rewrite (parameter_set_at_run w fd f) by done. rewrite Ecount.
  destruct (Z.geb_spec 0 (len sets)) as [|_]; [lia|]. unfold mbind, G_bind. simpl.
  rewrite (proj2 (Z.eqb_neq (len sets) 0)) by lia. rewrite Z.gtb_ltb.
  rewrite (proj2 (Z.ltb_ge _ _)) by (unfold VTF_TRANSPORT_MAX_PARAMETER_SETS; lia). simpl.
  rewrite Nat2Z.id. change (length []) with 0%nat in E. rewrite E. reflexivity.
Qed.

(** ** Format descriptions from parameter sets *)

Lemma sizes_run w index sizes l total :
  Forall2 (fun i n => sizes !! i = Some n) index l -> Forall (fun n => 0 < n <= U32_MAX) l ->
  0 <= total -> total + sum_Z id l < 2 ^ 64 ->
  parameter_set_sizes_of index sizes total w = Done (Some (l, total + sum_Z id l), w).
Proof.
  intros Hl. revert total. induction Hl as [|i n index l Hi Hl IH]; intros total Hf Ht Hs; simpl.
  { rewrite Z.add_0_r. done. }
  apply list.Forall_cons in Hf as [Hn Hf]. unfold sum_Z, id in *. simpl in *.
  unfold mbind, G_bind. rewrite Hi. simpl. rewrite (proj2 (Z.eqb_neq n 0)) by lia.
  rewrite Z.gtb_ltb, (proj2 (Z.ltb_ge _ _)) by lia. simpl.
  assert (0 <= foldr (fun x acc : Z => x + acc) 0 l) as Hpos.
  { clear -Hf. induction Hf; simpl; lia. }
  unfold checked, in_width. rewrite (proj2 (Z.leb_le 0 _)), (proj2 (Z.ltb_lt _ _)) by lia. simpl.
  rewrite IH by (done || lia). by rewrite Z.add_assoc.
Qed.

Lemma concatenate_run w index (pointers : list rawptr) sizes sets :
  Forall2 (fun i s => sizes !! i = Some (len s) /\ exists p : rawptr, p <> None /\
    pointers !! i = Some p /\ read_bytes p (len s) w = Done (s, w)) index sets ->
  concatenate_sets index pointers sizes w = Done (Some (concat sets), w).
Proof.
  induction 1 as [|i s index sets (Hn & p & Hp & Hi & Hr) Hl IH]; [done|]. simpl.
  unfold mbind, G_bind in *. rewrite Hn. simpl. unfold pointer_arg. rewrite Hi. simpl.
  rewrite bool_decide_eq_false_2 by done.
  by rewrite Hr, IH.
Qed.

(** The blocks a state has stay as they are. *)
Definition blocks_kept w w' : Prop :=
  forall b, b < gs_next w -> gs_blocks w' !! b = gs_blocks w !! b.

(** A boxed copy of [s] that outlives [w]. *)
Definition boxed_copy w (x : rawptr * Z) (s : list byte) : Prop :=
  x.1 <> None /\ x.2 = len s /\
  forall w', blocks_kept w w' -> read_bytes x.1 (len s) w' = Done (s, w').

Lemma boxed_copy_later w w1 x s :
  blocks_kept w w1 -> gs_next w <= gs_next w1 -> boxed_copy w x s -> boxed_copy w1 x s.
Proof.
  intros Hb Hn (? & ? & Hr). split_and!; [done..|]. intros w' Hw'. apply Hr. intros b Hb'.
  rewrite Hw' by lia. by apply Hb.
Qed.

Lemma box_bytes_run w s : s <> [] -> exists p w1, box_bytes s w = Done (p, w1) /\
  gs_heap w1 = gs_heap w /\ gs_next w <= gs_next w1 /\ blocks_kept w w1 /\ boxed_copy w1 (p, len s) s.
Proof.
  intros Hs. destruct s as [|b s]; [done|]. eexists _, _. split; [reflexivity|]. simpl. split_and!; try done.
  - lia.
  - intros x Hx. simpl. by rewrite lookup_insert_ne by lia.
  - split_and!; [done..|]. intros w' Hw'. unfold read_bytes. simpl fst.
    destruct (Z.eqb_spec (len (b :: s)) 0) as [E|_]; [simpl in E; lia|].
    cbn [fst]. rewrite (Hw' (gs_next w)) by (simpl; lia). cbn [gs_blocks]. rewrite lookup_insert_eq.
    rewrite (proj2 (Z.leb_le 0 0)), (proj2 (Z.leb_le 0 (len (b :: s)))), (proj2 (Z.leb_le _ _)) by lia.
    simpl andb. cbv iota. do 2 f_equal. unfold slice. rewrite Nat2Z.id. by rewrite take_ge by (simpl; lia).
Qed.

Lemma store_run w got todo : Forall (fun s => s <> []) todo -> len (concat (got ++ todo)) <= ISIZE_MAX ->
  exists boxes w1,
    store_parameter_sets ((fun s => len s) <$> todo) (len (concat got)) (concat (got ++ todo)) w =
      Done (boxes, w1) /\
    gs_heap w1 = gs_heap w /\ gs_next w <= gs_next w1 /\ blocks_kept w w1 /\
    Forall2 (boxed_copy w1) boxes todo.
Proof.
  revert w got. induction todo as [|s todo IH]; intros w got Hne Hl.
  { exists [], w. split_and!; try done. }
  apply list.Forall_cons in Hne as [Hs Hne].
  assert (concat (got ++ s :: todo) = concat got ++ s ++ concat todo) as E by (by rewrite concat_app).
  assert (0 < len s) by (destruct s; [done|simpl; lia]).
  assert (len (concat got) + len s + len (concat todo) <= ISIZE_MAX) as Hl'
    by (rewrite E, !length_app in Hl; lia). unfold ISIZE_MAX in Hl'.
  destruct (box_bytes_run w s Hs) as (p & w1 & Ep & Hh1 & Hn1 & Hb1 & Hc1).
  destruct (IH w1 (got ++ [s]) Hne) as (boxes & w2 & Eb & Hh2 & Hn2 & Hb2 & Hc2).
  { by rewrite <- app_assoc. }
  exists ((p, len s) :: boxes), w2. split_and!; [| |lia| |].
  - cbn [store_parameter_sets fmap list_fmap]. rewrite (proj2 (Z.eqb_neq (len s) 0)) by lia.
    rewrite arith_in by lia. unfold mbind, G_bind, of_rust.
    destruct (Z.gtb_spec (len (concat got) + len s) (len (concat (got ++ s :: todo)))) as [Hgt|_].
    { rewrite E, !length_app in Hgt. lia. }
    assert (slice (Z.to_nat (len (concat got))) (Z.to_nat (len s)) (concat (got ++ s :: todo)) = s) as ->.
    { unfold slice. by rewrite !Nat2Z.id, E, drop_app_length, take_app_length. }
    rewrite Ep. rewrite concat_snoc, length_app, Nat2Z.inj_add, <- app_assoc in Eb.
    change ([s] ++ todo) with (s :: todo) in Eb.
    change (list_fmap _ _ _ todo) with ((fun s : list byte => len s) <$> todo). by rewrite Eb.
  - by rewrite Hh2.
  - intros b Hb. rewrite Hb2 by lia. by apply Hb1.
  - constructor; [by eapply boxed_copy_later|done].
Qed.

Lemma pad4_lookup {A} (d : A) l i x : (length l <= 4)%nat -> l !! i = Some x -> pad4 d l !! i = Some x.
Proof.
  intros Hl Hi. pose proof (lookup_lt_Some _ _ _ Hi). unfold pad4.
  rewrite lookup_take_lt by lia. by apply lookup_app_l_Some.
Qed.

Lemma pad4_take {A} (d : A) l : (length l <= 4)%nat -> take (length l) (pad4 d l) = l.
Proof. intros Hl. unfold pad4. rewrite take_take, Nat.min_l by done. by rewrite take_app_length. Qed.

(** Parameter sets in the program's memory, as the [Create] functions take them. *)
Definition in_memory w sets (pointers : list rawptr) (sizes : list Z) : Prop :=
  forall i s, sets !! i = Some s -> sizes !! i = Some (len s) /\
    exists p : rawptr, p <> None /\ pointers !! i = Some p /\ read_bytes p (len s) w = Done (s, w).

Lemma create_video_run w codec width height sets nal :
  0 < gs_next w -> (0 < length sets <= 4)%nat -> Forall (fun s => s <> []) sets ->
  len (concat sets) <= ISIZE_MAX ->
  exists fd f w1, vtf_create_video_format_description codec width height (len sets)
      (pad4 0 ((fun s => len s) <$> sets)) (concat sets) nal w = Done (fd, w1) /\
    describes w1 fd f /\ carries w1 f sets /\ fd_codec_type f = codec /\ fd_nal_header_length f = nal.
Proof.
  intros Hnext Hn Hne Hl. set (w0 := w <| gs_alive ::= (fun n => as_signed 64 (n + 1)) |>
    <| gs_next_proxy_id ::= (fun n => wrap 64 (n + 1)) |>).
  destruct (store_run w0 [] sets Hne Hl) as (boxes & w1 & E & Hh & Hn1 & Hb & Hc).
  pose proof (Forall2_length _ _ _ Hc) as Hlen. change (gs_next w0) with (gs_next w) in Hn1.
  unfold vtf_create_video_format_description, mbind, G_bind. cbn [vtf_cf_object_init]. fold w0.
  rewrite Z.min_l, Nat2Z.id by lia.
  pose proof (pad4_take 0 ((fun s => len s) <$> sets)) as Et. rewrite length_fmap in Et.
  rewrite Et by lia. change (len (concat [])) with 0 in E. simpl app in E. rewrite E.
  eexists _, (mk_vtf_cm_format_description codec width height 0 nal (len boxes) (pad4 0 boxes.*2)
    (pad4 None boxes.*1)), _.
  split; [reflexivity|]. split; [|split; [|done]].
  - split; [lia|]. eexists. split; [simpl; apply lookup_insert_eq|done].
  - split; simpl; [by rewrite Hlen|]. intros i s Hs.
    destruct (Forall2_lookup_r _ _ _ _ _ Hc Hs) as ([p n] & Hi & Hp & En & Hr). simpl in *. exists p.
    split_and!; [done|..|by apply Hr].
    + apply pad4_lookup; [rewrite length_fmap; lia|]. by rewrite list_lookup_fmap, Hi.
    + apply pad4_lookup; [rewrite length_fmap; lia|]. by rewrite list_lookup_fmap, Hi, <- En.
Qed.

Lemma create_from_sets_run w codec sets pointers sizes nal :
  0 < gs_next w -> (0 < length sets <= 4)%nat -> Forall (fun s => s <> []) sets ->
  Forall (fun s => len s <= U32_MAX) sets -> in_memory w sets pointers sizes ->
  exists fd f w1, vtf_format_description_from_parameter_sets codec (len sets) (Some pointers) (Some sizes)
      nal true w = Done ((noErr, Some fd), w1) /\
    describes w1 fd f /\ carries w1 f sets /\ fd_codec_type f = codec /\ fd_nal_header_length f = nal.
Proof.
  intros Hnext Hn Hne Hmax Hmem.
  assert (len (concat sets) <= 4 * U32_MAX) as Hl.
  { transitivity (len sets * U32_MAX); [|unfold U32_MAX; lia]. clear -Hmax.
    induction Hmax as [|s sets Hs _ IH]; simpl; [lia|]. rewrite length_app. unfold U32_MAX in *. lia. }
  destruct (create_video_run w codec 0 0 sets nal) as (fd & f & w1 & E & H1 & H2 & H3 & H4);
    [done..|unfold ISIZE_MAX, U32_MAX in *; lia|].
  exists fd, f, w1. split_and!; try done. unfold vtf_format_description_from_parameter_sets. simpl negb. cbv iota.
  rewrite (proj2 (Z.eqb_neq (len sets) 0)), Z.gtb_ltb, (proj2 (Z.ltb_ge _ _)) by lia. simpl orb. cbv iota.
  rewrite Nat2Z.id. unfold mbind, G_bind.
  assert (Hidx : forall R : nat -> list byte -> Prop, (forall i s, sets !! i = Some s -> R i s) ->
    Forall2 R (seq 0 (length sets)) sets).
  { intros R HR. apply Forall2_same_length_lookup. rewrite length_seq. split; [done|].
    intros i x s [-> _]%lookup_seq Hs. by apply HR. }
  cbn [negb orb]. cbv beta iota. rewrite (sizes_run w _ sizes ((fun s => len s) <$> sets)).
  - rewrite sum_lengths, Z.add_0_l. rewrite Z.gtb_ltb, (proj2 (Z.ltb_ge _ _)) by (unfold ISIZE_MAX, U32_MAX in *; lia).
    unfold mret, G_ret. cbv beta iota. rewrite (concatenate_run w _ pointers sizes sets) by (apply Hidx; exact Hmem). by rewrite E.
  - apply Forall2_fmap_r, Hidx. intros i s Hs. by apply Hmem.
  - apply Forall_fmap. rewrite list.Forall_forall in *. intros s Hs. specialize (Hne s Hs). specialize (Hmax s Hs).
    simpl. destruct s; [done|]. simpl in *. lia.
  - done.
  - rewrite sum_lengths. unfold U32_MAX in Hl. lia.
Qed.
End packing.

(** C31: the parameter sets a program gives to
    [CMVideoFormatDescriptionCreateFromH264ParameterSets] or its HEVC counterpart
    are the ones the worker builds its decoder from: the guest stores copies in a
    format description, packs them into [OP_SET_DECODE_FORMAT], and the worker's
    size checks pass and its slicing gives the same sets in the same order, with
    codec and length-prefix size, when they are one to four, none empty, and fit
    the 128 bytes of the payload. *)
Theorem parameter_sets_reach_worker {os} `{!Profile} (w : guest os) codec sets pointers sizes nal
    session_id width height
    (Hnext : 0 < gs_next w) (Hc : known_codec codec) (Hn : (0 < length sets <= 4)%nat)
    (Hne : Forall (fun s => s <> []) sets) (Hl : (length (concat sets) <= 128)%nat)
    (Hmem : in_memory w sets pointers sizes) :
  exists fd w1 payload,
    vtf_format_description_from_parameter_sets codec (len sets) (Some pointers) (Some sizes) nal true w =
      Done ((noErr, Some fd), w1) /\
    vtf_pack_decode_format_payload session_id codec width height fd w1 = Done (inl payload, w1) /\
    delivers payload sets /\ sdf_codec payload = codec /\ sdf_session_id payload = session_id /\
    sdf_nal_header_length payload = wrap 32 nal.
Proof.
  assert (Forall (fun s : list byte => len s <= U32_MAX) sets) as Hmax.
  { apply list.Forall_forall. intros s [i Hs]%list_elem_of_lookup.
    rewrite <- (take_drop_middle sets i s Hs), concat_app in Hl. simpl in Hl. rewrite !length_app in Hl.
    unfold U32_MAX. lia. }
  destruct (create_from_sets_run w codec sets pointers sizes nal) as (fd & f & w1 & E & Hd & Hca & Ec & En); try done.
  destruct (pack_run w1 fd f codec sets session_id width height Hd Hc Ec Hca Hn Hl)
    as (payload & Ep & Hdel & E1 & E2 & E3).
  exists fd, w1, payload. rewrite E3, En. done.
Qed.

(** Two parameter sets in the program's memory. *)
Definition demo_format_guest : guest unit :=
  mk_guest ∅ {[ 1 := [Byte.x67; Byte.x64; Byte.x00]; 2 := [Byte.x68; Byte.xee] ]} 3 1 0 0 0 0 0
    (mk_transport None false [] None tt).

Lemma parameter_sets_reach_worker_witness :
  let sets := [[Byte.x67; Byte.x64; Byte.x00]; [Byte.x68; Byte.xee]] in
  exists fd w1 payload,
    vtf_format_description_from_parameter_sets (H:=debug_build) VTF_VIDEO_CODEC_H264 2
      (Some [Some (1, 0); Some (2, 0)]) (Some [3; 2]) 4 true demo_format_guest = Done ((noErr, Some fd), w1) /\
    vtf_pack_decode_format_payload (H:=debug_build) 7 VTF_VIDEO_CODEC_H264 640 480 fd w1 =
      Done (inl payload, w1) /\
    delivers (H:=debug_build) payload sets /\ sdf_codec payload = VTF_VIDEO_CODEC_H264 /\
    sdf_session_id payload = 7 /\ sdf_nal_header_length payload = wrap 32 4.
Proof.
  intros sets. apply (parameter_sets_reach_worker (H:=debug_build) demo_format_guest VTF_VIDEO_CODEC_H264 sets
    [Some (1, 0); Some (2, 0)] [3; 2] 4 7 640 480).
  - done.
  - by left.
  - simpl. lia.
  - repeat constructor; done.
  - simpl. lia.
  - intros [|[|i]] s Hs; simplify_eq/=.
    + split; [done|]. exists (Some (1, 0)). split_and!; done.
    + split; [done|]. exists (Some (2, 0)). split_and!; done.
Defined.
