(* ===== verification/VideoToolbox.v ===== *)
(** * The guest's VideoToolbox: compression sessions ([videotoolbox.rs])

    Properties, the queue of frames under way, encoding, and the delivery of
    outputs to the application's callback.  Log lines are left out. *)

From S2P Require Import Prelude Wire Protocol Layout Backend Transport Objects Release.
From S2P Require Import CoreFoundation CoreMedia CoreVideo.
From stdpp Require Import strings.

Set Default Goal Selector "!".
Open Scope Z_scope.

Definition VTF_PROPERTY_VALUE_KIND_BOOLEAN : Z := 1.
Definition VTF_PROPERTY_VALUE_KIND_NUMBER : Z := 2.
Definition VTF_PROPERTY_VALUE_KIND_STRING : Z := 3.
Definition VTF_PROPERTY_VALUE_KIND_ARRAY_I64_PAIR : Z := 4.
Definition VTF_PROPERTY_VALUE_KIND_DICT_I64_PAIR : Z := 5.
Definition VTF_COMPLETE_FRAMES_WAIT_MS_DEFAULT : Z := 5000.
Definition VTF_COMPLETE_FRAMES_POLL_INTERVAL_MS : Z := 10.
Definition VTF_OUTPUT_POLL_INTERVAL_DEFAULT : Z := 4.
Definition VTF_OUTPUT_BATCH_SIZE_DEFAULT : Z := VTF_TRANSPORT_MAX_OUTPUT_BATCH.
Definition VTF_POOL_PRESSURE_WAIT_MS_DEFAULT : Z := 5000.

(** ** The application and its platform

    The output callbacks, by the address they were registered with, run any code
    of the application; [malloc] may fail; a sleep lets time pass. *)
Class App (os : Type) := {
  app_output (callback refcon source_frame_refcon status info_flags sample : Z) : G os unit;
  app_decoded (callback refcon source_frame_refcon status info_flags image_buffer : Z)
    (pts duration : CMTime) : G os unit;
  app_malloc (bytes : Z) (o : os) : bool * os;
  app_sleep (milliseconds : Z) (o : os) : os
}.

Section videotoolbox.
Context {os : Type} `{!Net os} `{!Profile} `{!App os} (env : environ).
Abbreviation G := (G os).

(** [Result] values and [?]. *)
Definition try_bind {A B} (m : G (A + Z)) (k : A -> G (B + Z)) : G (B + Z) :=
  r ← m; match r with inl a => k a | inr e => mret (inr e) end.
Notation "x ←? m ; k" := (try_bind m (fun x => k)) (at level 20, m at level 100, k at level 200).

Definition instant_now : G Z := fun w => Done (net_now (tp_os (gs_transport w)), w).
Definition os_of (w : guest os) : os := tp_os (gs_transport w).
Definition set_os (o : os) (w : guest os) : guest os :=
  let t := gs_transport w in
  w <| gs_transport := mk_transport (tp_backend t) (tp_killed t) (tp_deferred t) (tp_heartbeat t) o |>.
Definition thread_sleep (ms : Z) : G unit := fun w => Done (tt, set_os (app_sleep ms (os_of w)) w).
Definition malloc (bytes : Z) : G bool := fun w =>
  let '(got, o) := app_malloc bytes (os_of w) in Done (got, set_os o w).

(** A [Vec<u8>] in scope while [k] runs. *)
Definition with_vec {A} (bytes : list byte) (k : rawptr -> G A) : G A :=
  p ← box_bytes bytes;
  a ← k p;
  _ ← free_bytes p (len bytes);
  mret a.

(** The [base.proxy_id] of an object. *)
Definition proxy_of (p : Z) : G Z := o ← get_object p; mret (cf_proxy_id (ob_base o)).

(** ** Properties *)

Definition cfstring_to_string (value : Z) : G (option (list byte)) :=
  if value =? 0 then mret None else
  string ← as_string value;
  if bool_decide (cfs_bytes string = None) then mret None else
  bytes ← read_bytes (cfs_bytes string) (cfs_length string);
  mret (if utf8_valid bytes then Some bytes else None).

(** A key in a field of [n] bytes: cut to [n - 1], the rest zero. *)
Definition fill_bytes (n : nat) (key : list byte) : list byte :=
  let raw := take (n - 1) key in raw ++ replicate (n - length raw) Byte.x00.
Definition fill_key_bytes : list byte -> list byte := fill_bytes 64.
Definition fill_small_key_bytes : list byte -> list byte := fill_bytes 32.

(** A [CFNumber] as an [i64], where the code asks for one. *)
Definition number_i64 (value : Z) : G (Z + Z) :=
  '(ok, out) ← CFNumberGetValue value K_CF_NUMBER_SINT64_TYPE true;
  mret (if ok =? 0 then inr (-12902)
        else inl (match out with Some (Out_i64 z) => z | _ => 0 end)).

(** The pair of numbers of an array or of a dictionary: [get] finds the entries. *)
Fixpoint pair_numbers (get : list (G Z)) : G (list Z + Z) :=
  match get with
  | [] => mret (inl [])
  | m :: rest =>
      item ← m;
      ty ← CFGetTypeID item;
      if (item =? 0) || negb (ty =? CFNumberGetTypeID) then mret (inr (-12902)) else
      n ←? number_i64 item;
      ns ←? pair_numbers rest;
      mret (inl (n :: ns))
  end.

Definition spacing_keys : list (Z * string) :=
  [ (symbol "kCMFormatDescriptionKey_PixelAspectRatioHorizontalSpacing", "HorizontalSpacing"%string);
    (symbol "kCMFormatDescriptionKey_PixelAspectRatioVerticalSpacing", "VerticalSpacing"%string) ].

Definition vtf_fill_set_property_payload (session property_key_ref : Z) (property_key : list byte)
    (property_value : Z) : G (SetPropertyPayload + Z) :=
  session_id ← vtf_get_host_id session;
  key_proxy ← vtf_get_proxy_id property_key_ref;
  value_proxy ← vtf_get_proxy_id property_value;
  let payload kind number_type sint64 bool_ string array_count pair_count array keys dict :=
    mk_SetPropertyPayload session_id key_proxy value_proxy kind number_type sint64 0 bool_ 0
      (fill_key_bytes property_key) string array_count pair_count array keys dict in
  let no_string := replicate 64 Byte.x00 in
  let no_keys := replicate 2 (replicate 32 Byte.x00) in
  if (property_value =? kCFBooleanTrue) || (property_value =? kCFBooleanFalse) then
    mret (inl (payload VTF_PROPERTY_VALUE_KIND_BOOLEAN 0 0
                 (if property_value =? kCFBooleanTrue then 1 else 0) no_string 0 0 [0; 0] no_keys [0; 0]))
  else
  ty ← CFGetTypeID property_value;
  if ty =? CFNumberGetTypeID then
    number_type ← CFNumberGetType property_value;
    n ←? number_i64 property_value;
    if number_type =? K_CF_NUMBER_SINT32_TYPE then
      mret (inl (payload VTF_PROPERTY_VALUE_KIND_NUMBER K_CF_NUMBER_SINT32_TYPE n 0 no_string 0 0
                   [0; 0] no_keys [0; 0]))
    else if (number_type =? K_CF_NUMBER_SINT64_TYPE) || (number_type =? K_CF_NUMBER_INT_TYPE) then
      mret (inl (payload VTF_PROPERTY_VALUE_KIND_NUMBER K_CF_NUMBER_SINT64_TYPE n 0 no_string 0 0
                   [0; 0] no_keys [0; 0]))
    else mret (inr (-12902))
  else if ty =? CFArrayGetTypeID then
    count ← CFArrayGetCount property_value;
    if negb (count =? 2) then mret (inr (-12902)) else
    ns ←? pair_numbers [CFArrayGetValueAtIndex property_value 0; CFArrayGetValueAtIndex property_value 1];
    mret (inl (payload VTF_PROPERTY_VALUE_KIND_ARRAY_I64_PAIR 0 0 0 no_string 2 0 ns no_keys [0; 0]))
  else if ty =? CFDictionaryGetTypeID then
    ns ←? pair_numbers ((fun x => r ← CFDictionaryGetValueIfPresent property_value x.1 true;
                                   mret (default 0 r.2)) <$> spacing_keys);
    mret (inl (payload VTF_PROPERTY_VALUE_KIND_DICT_I64_PAIR 0 0 0 no_string 0 2 [0; 0]
                 ((fun x => fill_small_key_bytes (String.list_byte_of_string x.2)) <$> spacing_keys) ns))
  else
    string ← cfstring_to_string property_value;
    match string with
    | None => mret (inr (-12902))
    | Some s =>
        mret (inl (payload VTF_PROPERTY_VALUE_KIND_STRING 0 0 0 (fill_key_bytes s) 0 0 [0; 0] no_keys [0; 0]))
    end.

Definition vtf_source_pixel_format_from_attributes (attributes : Z) : G Z :=
  if attributes =? 0 then mret 0x34323076 else
  value ← CFDictionaryGetValue attributes kCVPixelBufferPixelFormatTypeKey;
  ty ← CFGetTypeID value;
  if (value =? 0) || negb (ty =? CFNumberGetTypeID) then mret 0x34323076 else
  '(ok, out) ← CFNumberGetValue value K_CF_NUMBER_SINT32_TYPE true;
  mret (if ok =? 0 then 0x34323076
        else wrap 32 (match out with Some (Out_i32 z) => z | _ => 0 end)).

(** ** Frames under way

    Two [malloc]ed arrays of [pending_capacity] entries, of which the first
    [pending_count] are set. *)

(** The array after growth: the old entries, then uninitialised memory (here [0]). *)
Definition grown (old : option (list Z)) (count capacity : Z) : G (list Z) :=
  match old with
  | Some l =>
      if count >? 0 then
        if count >? len l then ub
        else mret (take (Z.to_nat count) l ++ replicate (Z.to_nat (capacity - count)) 0)
      else mret (replicate (Z.to_nat capacity) 0)
  | None => mret (replicate (Z.to_nat capacity) 0)
  end.

(** [*array.add(i) = v] *)
Definition store_at (array : option (list Z)) (i v : Z) : G (option (list Z)) :=
  match array with
  | Some l => if (0 <=? i) && (i <? len l) then mret (Some (<[Z.to_nat i := v]> l)) else ub
  | None => ub
  end.

Definition grow_pending (session : Z) : G bool :=
  s ← as_vt_session session;
  if vts_pending_count s =? vts_pending_capacity s then
    new_capacity ← (if vts_pending_capacity s =? 0 then mret 4
                    else of_rust (arith 64 (vts_pending_capacity s * 2)));
    bytes ← of_rust (arith 64 (new_capacity * 8));
    refcon_bytes ← of_rust (arith 64 (new_capacity * 8));
    new_ptr ← malloc bytes;
    new_refcon_ptr ← malloc refcon_bytes;
    if negb new_ptr || negb new_refcon_ptr then mret false else
    buffers ← grown (vts_pending_image_buffers s) (vts_pending_count s) new_capacity;
    refcons ← grown (vts_pending_source_frame_refcons s) (vts_pending_count s) new_capacity;
    _ ← put_body session (VtSession (s <| vts_pending_image_buffers := Some buffers |>
                                       <| vts_pending_source_frame_refcons := Some refcons |>
                                       <| vts_pending_capacity := new_capacity |>));
    mret true
  else mret true.

Definition vtf_push_pending_image_buffer (session image_buffer source_frame_refcon : Z) : G bool :=
  grew ← grow_pending session;
  if negb grew then mret false else
  retained ← CFRetain image_buffer;
  s ← as_vt_session session;
  buffers ← store_at (vts_pending_image_buffers s) (vts_pending_count s) retained;
  refcons ← store_at (vts_pending_source_frame_refcons s) (vts_pending_count s) source_frame_refcon;
  count ← of_rust (arith 64 (vts_pending_count s + 1));
  _ ← put_body session (VtSession (s <| vts_pending_image_buffers := buffers |>
                                     <| vts_pending_source_frame_refcons := refcons |>
                                     <| vts_pending_count := count |>));
  mret true.

(** [ptr::copy(array.add(1), array, count - 1)] *)
Definition shift_down (count : Z) (l : list Z) : list Z :=
  slice 1 (Z.to_nat (count - 1)) l ++ drop (Z.to_nat (count - 1)) l.

(** [*array], and the array without it; the code checks for null. *)
Definition take_first (count : Z) (array : option (list Z)) : G (Z * option (list Z)) :=
  match array with
  | None => mret (0, None)
  | Some l =>
      if (count >? len l) then ub else
      match l with
      | [] => ub
      | x :: _ => mret (x, Some (if count >? 1 then shift_down count l else l))
      end
  end.

Definition vtf_pop_pending_image_buffer (session : Z) : G (Z * Z) :=
  s ← as_vt_session session;
  if (vts_pending_count s =? 0) || bool_decide (vts_pending_image_buffers s = None)
  then mret (0, 0) else
  '(first, buffers) ← take_first (vts_pending_count s) (vts_pending_image_buffers s);
  '(first_refcon, refcons) ← take_first (vts_pending_count s) (vts_pending_source_frame_refcons s);
  _ ← put_body session (VtSession (s <| vts_pending_image_buffers := buffers |>
                                     <| vts_pending_source_frame_refcons := refcons |>
                                     <| vts_pending_count := vts_pending_count s - 1 |>));
  mret (first, first_refcon).

(** ** Settings *)

Definition env_number (name : string) (d : Z) : Z :=
  default d (value ← env name; parse_unsigned 64 value).

Definition vtf_output_poll_interval : Z :=
  env_number "VT_FERRY_OUTPUT_POLL_INTERVAL" VTF_OUTPUT_POLL_INTERVAL_DEFAULT.
Definition vtf_output_batch_size : Z :=
  Z.min (env_number "VT_FERRY_OUTPUT_BATCH_SIZE" VTF_OUTPUT_BATCH_SIZE_DEFAULT)
    VTF_TRANSPORT_MAX_OUTPUT_BATCH.
Definition vtf_encode_batch_size : Z := 1.

(** ** Encoding *)

(** [(&payloads)[..count]] *)
Definition first_payloads (s : vtf_vt_session) (count : Z) : G (list EncodeFramePayload) :=
  if count >? len (vts_pending_encode_payloads s) then abort
  else mret (take (Z.to_nat count) (vts_pending_encode_payloads s)).

Definition vtf_flush_pending_encodes (session : Z) : G (unit + Z) :=
  s ← as_vt_session session;
  let count := vts_pending_encode_count s in
  if count =? 0 then mret (inl tt) else
  _ ←? (if count =? 1 then
          payload ← nth_or_abort (vts_pending_encode_payloads s) 0;
          transport_call (send_request_unit env OP_ENCODE_FRAME payload)
        else
          session_id ← proxy_of session;
          frames ← first_payloads s count;
          transport_call (send_request_unit env OP_ENCODE_FRAME_BATCH
            (mk_EncodeFrameBatchPayload session_id (wrap 32 count) 0
               (frames ++ replicate (Z.to_nat (VTF_TRANSPORT_MAX_ENCODE_BATCH - count))
                            (zeroed EncodeFramePayload)))));
  s ← as_vt_session session;
  _ ← put_body session (VtSession (s <| vts_pending_encode_count := 0 |>));
  mret (inl tt).

Definition vtf_queue_pending_encode (session : Z) (payload : EncodeFramePayload) : G (unit + Z) :=
  s ← as_vt_session session;
  _ ←? (if vts_pending_encode_count s >=? VTF_TRANSPORT_MAX_ENCODE_BATCH
        then vtf_flush_pending_encodes session else mret (inl tt));
  s ← as_vt_session session;
  let index := vts_pending_encode_count s in
  if index >=? len (vts_pending_encode_payloads s) then abort else
  count ← of_rust (arith 64 (index + 1));
  _ ← put_body session (VtSession (s <| vts_pending_encode_payloads ::= insert (Z.to_nat index) payload |>
                                     <| vts_pending_encode_count := count |>));
  if count >=? vtf_encode_batch_size then vtf_flush_pending_encodes session else mret (inl tt).

Definition vtf_prepare_session_if_needed (session : Z) : G Z :=
  s ← as_vt_session session;
  if vts_prepared s then mret 0 else
  session_id ← proxy_of session;
  result ← transport_call (send_request_dynamic env OP_PREPARE_SESSION (mk_PrepareSessionPayload session_id));
  match result with
  | inl _ =>
      s ← as_vt_session session;
      _ ← put_body session (VtSession (s <| vts_prepared := true |>));
      mret 0
  | inr _ => mret (-12902)
  end.

(** The session [VTCompressionSessionCreate] makes. *)
Definition new_session (width height codecType pixel_format attributes : Z) (outputCallback : option Z)
    (refcon : Z) : vtf_vt_session :=
  {| vts_width := width; vts_height := height; vts_codec_type := codecType;
     vts_pixel_format := pixel_format; vts_properties := 0;
     vts_source_image_buffer_attributes := attributes;
     vts_output_callback := outputCallback; vts_output_refcon := refcon;
     vts_pixel_buffer_pool := 0; vts_prepared := false; vts_invalidated := false;
     vts_pending_count := 0; vts_pending_capacity := 0;
     vts_pending_image_buffers := None; vts_pending_source_frame_refcons := None;
     vts_pending_encode_count := 0;
     vts_pending_encode_payloads :=
       replicate (Z.to_nat VTF_TRANSPORT_MAX_ENCODE_BATCH) (zeroed EncodeFramePayload);
     vts_stored_property_count := 0;
     vts_stored_properties :=
       replicate 16 (mk_vtf_vt_session_property (replicate 64 Byte.x00) 0) |}.

Definition VTCompressionSessionCreate (width height codecType sourceImageBufferAttributes : Z)
    (outputCallback : option Z) (outputCallbackRefCon : Z) (compressionSessionOut : bool)
    : G (Z * option Z) :=
  if negb compressionSessionOut || (width <=? 0) || (height <=? 0) then mret (-12902, None) else
  if negb (is_enabled env) then mret (-12902, Some 0) else
  source_pixel_format ← vtf_source_pixel_format_from_attributes sourceImageBufferAttributes;
  result ← transport_call (create_session env
    (mk_CreateSessionPayload 1 codecType (wrap 32 width) (wrap 32 height) source_pixel_format 0 0 0 0));
  match result with
  | inl session_id =>
      base ← vtf_cf_object_with_host_id VTF_TYPE_VT_SESSION (Some Finalize_vt_session) session_id session_id 1;
      attributes ← CFRetain sourceImageBufferAttributes;
      session ← new_object (mk_object base (VtSession
        (new_session width height codecType source_pixel_format attributes outputCallback
           outputCallbackRefCon)));
      _ ← vtf_record_vt_session_created;
      mret (0, Some session)
  | inr _ => mret (-12902, Some 0)
  end.

Definition VTCompressionSessionInvalidate (session : Z) : G unit :=
  if session =? 0 then mret tt else
  s ← as_vt_session session;
  if vts_invalidated s then mret tt else
  session_id ← proxy_of session;
  _ ← transport_call (destroy_session env session_id);
  s ← as_vt_session session;
  put_body session (VtSession (s <| vts_invalidated := true |>)).

Definition VTCompressionSessionGetPixelBufferPool (session : Z) : G Z :=
  if session =? 0 then mret 0 else
  s ← as_vt_session session;
  if vts_invalidated s then mret 0 else
  if vts_pixel_buffer_pool s =? 0 then
    session_id ← proxy_of session;
    result ← vtf_create_pixel_buffer_pool_for_session env session session_id (wrap 32 (vts_width s))
               (wrap 32 (vts_height s)) (vts_pixel_format s) (vts_source_image_buffer_attributes s);
    match result with
    | inl pool =>
        s ← as_vt_session session;
        _ ← put_body session (VtSession (s <| vts_pixel_buffer_pool := pool |>));
        mret pool
    | inr _ => mret 0
    end
  else mret (vts_pixel_buffer_pool s).

Definition VTCompressionSessionPrepareToEncodeFrames (session : Z) : G Z :=
  if session =? 0 then mret (-12902) else
  s ← as_vt_session session;
  if vts_invalidated s then mret (-12903) else vtf_prepare_session_if_needed session.

(** ** Delivering outputs *)

Definition vtf_dequeue_ready_outputs (session batch_size : Z) : G (list DequeueOutputReply + Z) :=
  session_id ← proxy_of session;
  let one :=
    reply ←? transport_call (send_request env DequeueOutputReply OP_DEQUEUE_OUTPUT
               (mk_DequeueOutputPayload session_id));
    mret (inl [reply]) in
  if batch_size >? 1 then
    result ← transport_call (send_request env DequeueOutputBatchReply OP_DEQUEUE_OUTPUT_BATCH
               (mk_DequeueOutputBatchPayload session_id (wrap 32 batch_size) 0));
    match result with
    | inl reply =>
        let count := Z.min (dbr_output_count reply) VTF_TRANSPORT_MAX_OUTPUT_BATCH in
        mret (inl (take (Z.to_nat count) (dbr_outputs reply)))
    | inr status =>
        if negb (status =? as_signed 32 STATUS_UNSUPPORTED_OPCODE) then mret (inr status) else one
    end
  else one.

(** [wait_deadline] in nanoseconds, as [Instant::now]. *)
Definition vtf_handle_dequeue_status (session : Z) (wait_deadline : option Z) (status : Z)
    : G (bool + Z) :=
  if status =? as_signed 32 STATUS_TIMEOUT then
    match wait_deadline with
    | Some deadline =>
        s ← as_vt_session session;
        if negb (vts_pending_count s =? 0) then
          now ← instant_now;
          if now >=? deadline then mret (inr (-12902)) else
          _ ← thread_sleep VTF_COMPLETE_FRAMES_POLL_INTERVAL_MS;
          mret (inl true)
        else mret (inl false)
    | None => mret (inl false)
    end
  else mret (inr (-12902)).

(** From the sample's bytes, once the frame it belongs to is known, to the
    application's callback. *)
Definition deliver_sample (session callback : Z) (dequeue : DequeueOutputReply) (sample_size : Z)
    (source_image_buffer source_frame_refcon : Z) (sample_data : rawptr) (data_len : Z) : G (unit + Z) :=
  block ← vtf_create_block_buffer_from_bytes sample_data data_len;
  if block =? 0 then mret (inr (-12902)) else
  s ← as_vt_session session;
  let codec_type := if negb (dor_codec dequeue =? 0) then dor_codec dequeue else vts_codec_type s in
  format_description ← vtf_create_video_format_description codec_type
    (as_signed 32 (dor_width dequeue)) (as_signed 32 (dor_height dequeue))
    (dor_parameter_set_count dequeue) (dor_parameter_set_sizes dequeue)
    (dor_parameter_set_data dequeue) (as_signed 32 (dor_nal_header_length dequeue));
  if format_description =? 0 then _ ← CFRelease env block; mret (inr (-12902)) else
  sample ← vtf_create_sample_buffer env block format_description
    (mk_CMTime (dor_pts_value dequeue) (dor_pts_timescale dequeue) kCMTimeFlags_Valid 0)
    kCMTimeInvalid sample_size (dor_sample_flags dequeue) (dor_output_id dequeue) source_image_buffer;
  _ ← (if negb (source_image_buffer =? 0) then CFRelease env source_image_buffer else mret tt);
  _ ← CFRelease env block;
  _ ← CFRelease env format_description;
  if sample =? 0 then mret (inr (-12902)) else
  s ← as_vt_session session;
  _ ← app_output callback (vts_output_refcon s) source_frame_refcon 0 0 sample;
  _ ← (if negb (source_image_buffer =? 0) then
         _ ← vtf_recycle_pixel_buffer env source_image_buffer;
         b ← as_pixel_buffer source_image_buffer;
         put_body source_image_buffer
           (PixelBuffer (b <| px_state := VTF_CV_BUFFER_STATE_GUEST_WRITABLE |>))
       else mret tt);
  _ ← CFRelease env sample;
  mret (inl tt).

Definition vtf_deliver_one_output (session callback : Z) (dequeue : DequeueOutputReply) : G (unit + Z) :=
  result ← transport_call (read_output env (mk_ReadOutputPayload (dor_output_id dequeue)));
  match result with
  | inr _ => mret (inr (-12902))
  | inl read_bytes =>
      match read_pod ReadOutputReply read_bytes with
      | None => mret (inr (-12902))
      | Some read_reply =>
          let sample_data := drop (size_of ReadOutputReply) read_bytes in
          with_vec sample_data (fun data =>
            '(source_image_buffer, source_frame_refcon) ← vtf_pop_pending_image_buffer session;
            deliver_sample session callback dequeue (ror_sample_size read_reply) source_image_buffer
              source_frame_refcon data (len sample_data))
      end
  end.

Fixpoint deliver_each (session callback : Z) (dequeues : list DequeueOutputReply) (delivered : Z)
    : G (Z + Z) :=
  match dequeues with
  | [] => mret (inl delivered)
  | dequeue :: dequeues =>
      _ ←? vtf_deliver_one_output session callback dequeue;
      deliver_each session callback dequeues (delivered + 1)
  end.

(** The [loop], one unit of fuel per iteration. *)
Fixpoint deliver_loop (fuel : nat) (session callback batch_size : Z) (wait_deadline : option Z)
    (delivered : Z) : G (Z + Z) :=
  match fuel with
  | O => no_fuel
  | S fuel =>
      result ← vtf_dequeue_ready_outputs session batch_size;
      match result with
      | inl [] => mret (inl delivered)
      | inl dequeues =>
          delivered ←? deliver_each session callback dequeues delivered;
          deliver_loop fuel session callback batch_size wait_deadline delivered
      | inr status =>
          again ←? vtf_handle_dequeue_status session wait_deadline status;
          if again : bool
          then deliver_loop fuel session callback batch_size wait_deadline delivered
          else mret (inl delivered)
      end
  end.

Definition vtf_deliver_session_outputs (fuel : nat) (session : Z) (wait_deadline : option Z) : G (Z + Z) :=
  _ ←? vtf_flush_pending_encodes session;
  s ← as_vt_session session;
  match vts_output_callback s with
  | None => mret (inl 0)
  | Some callback => deliver_loop fuel session callback vtf_output_batch_size wait_deadline 0
  end.

Definition milliseconds (ms : Z) : Z := ms * 1000000.

Definition vtf_deliver_outputs_for_pool_pressure (fuel : nat) (session : Z) : G (Z + Z) :=
  if session =? 0 then mret (inl 0) else
  s ← as_vt_session session;
  if vts_invalidated s then mret (inr (-12903)) else
  let wait_ms := env_number "VT_FERRY_POOL_PRESSURE_WAIT_MS" VTF_POOL_PRESSURE_WAIT_MS_DEFAULT in
  deadline ← (if wait_ms =? 0 then mret None
              else now ← instant_now; mret (Some (now + milliseconds wait_ms)));
  vtf_deliver_session_outputs fuel session deadline.

(** The payload of the frame in [imageBuffer]. *)
Definition encode_payload (session : Z) (o : object) (b : vtf_cv_pixel_buffer) (pts duration : CMTime)
    : G EncodeFramePayload :=
  session_id ← proxy_of session;
  mret (mk_EncodeFramePayload session_id (cf_proxy_id (ob_base o)) (cf_host_id (ob_base o))
          (px_host_generation b) (cmt_value pts) (cmt_timescale pts) (cmt_timescale duration)
          (cmt_value duration)).

(** The pixels go to the worker's copy of the buffer first. *)
Definition upload_pixels (imageBuffer : Z) : G (unit + Z) :=
  b ← as_pixel_buffer imageBuffer;
  if px_mapped_backing_active b then mret (inl tt) else
  ok ← vtf_ensure_backing_store imageBuffer;
  if negb ok then mret (inr (-12902)) else
  b ← as_pixel_buffer imageBuffer;
  bytes ← read_bytes (px_backing_store b) (px_total_size b);
  buffer_id ← proxy_of imageBuffer;
  result ← transport_call (write_buffer env buffer_id (px_host_generation b) bytes);
  match result with inl _ => mret (inl tt) | inr _ => mret (inr (-12902)) end.

(** [infoFlagsOut], if given, is set to [0] first. *)
Definition VTCompressionSessionEncodeFrame (fuel : nat) (session imageBuffer : Z) (pts duration : CMTime)
    (sourceFrameRefcon : Z) : G Z :=
  if (session =? 0) || (imageBuffer =? 0) then mret (if is_enabled env then -12902 else -12915) else
  s ← as_vt_session session;
  if vts_invalidated s then mret (-12903) else
  b ← as_pixel_buffer imageBuffer;
  if negb (px_state b =? VTF_CV_BUFFER_STATE_GUEST_WRITABLE) then mret (-12902) else
  prepare_status ← vtf_prepare_session_if_needed session;
  if negb (prepare_status =? 0) then mret prepare_status else
  uploaded ← upload_pixels imageBuffer;
  match uploaded with
  | inr status => mret status
  | inl _ =>
      o ← get_object imageBuffer;
      b ← as_pixel_buffer imageBuffer;
      payload ← encode_payload session o b pts duration;
      pushed ← vtf_push_pending_image_buffer session imageBuffer sourceFrameRefcon;
      if negb pushed then mret (-12904) else
      b ← as_pixel_buffer imageBuffer;
      _ ← put_body imageBuffer (PixelBuffer (b <| px_state := VTF_CV_BUFFER_STATE_QUEUED_TO_HOST |>));
      result ← transport_call (send_request_unit env OP_ENCODE_FRAME payload);
      match result with
      | inr _ => mret (-12902)
      | inl _ =>
          s ← as_vt_session session;
          if negb (vtf_output_poll_interval =? 0) &&
             (vts_pending_count s mod vtf_output_poll_interval =? 0)
          then delivered ← vtf_deliver_session_outputs fuel session None;
               mret (match delivered with inl _ => 0 | inr status => status end)
          else mret 0
      end
  end.

Definition VTCompressionSessionCompleteFrames (fuel : nat) (session : Z) : G Z :=
  if session =? 0 then mret (-12902) else
  s ← as_vt_session session;
  if vts_invalidated s then mret (-12903) else
  flushed ← vtf_flush_pending_encodes session;
  match flushed with
  | inr _ => mret (-12902)
  | inl _ =>
      session_id ← proxy_of session;
      result ← transport_call (send_request env DrainReply OP_DRAIN (mk_DrainPayload session_id));
      match result with
      | inr _ => mret (-12902)
      | inl drain_reply =>
          s ← as_vt_session session;
          match vts_output_callback s with
          | None => mret (if drr_session_id drain_reply =? session_id then 0 else -12902)
          | Some _ =>
              now ← instant_now;
              let wait_deadline := now + milliseconds
                (env_number "VT_FERRY_COMPLETE_FRAMES_WAIT_MS" VTF_COMPLETE_FRAMES_WAIT_MS_DEFAULT) in
              delivered ← vtf_deliver_session_outputs fuel session (Some wait_deadline);
              mret (match delivered with inl _ => 0 | inr status => status end)
          end
      end
  end.

(** ** Stored properties *)

(** The key up to its first zero byte. *)
Definition stored_key (p : vtf_vt_session_property) : list byte :=
  take (default (length (prop_key p)) (position (fun b => byte.unsigned b =? 0) (prop_key p))) (prop_key p).

(** The first of the stored properties with this key. *)
Definition find_property (s : vtf_vt_session) (key : list byte) : G (option (nat * vtf_vt_session_property)) :=
  let props := take (Z.to_nat (vts_stored_property_count s)) (vts_stored_properties s) in
  match position (fun p => bool_decide (stored_key p = key)) props with
  | Some i => match props !! i with Some p => mret (Some (i, p)) | None => abort end
  | None => if vts_stored_property_count s >? len (vts_stored_properties s) then abort else mret None
  end.

Definition set_property_at (i : nat) (p : vtf_vt_session_property) (session : Z) : G unit :=
  s ← as_vt_session session;
  if Z.of_nat i >=? len (vts_stored_properties s) then abort
  else put_body session (VtSession (s <| vts_stored_properties ::= insert i p |>)).

Definition VTSessionSetProperty (session propertyKey propertyValue : Z) : G Z :=
  if (session =? 0) || (propertyKey =? 0) || (propertyValue =? 0) then mret (-12902) else
  o ← get_object session;
  if cf_type_id (ob_base o) =? VTF_TYPE_VT_DECOMPRESSION_SESSION then mret 0 else
  s ← as_vt_session session;
  if vts_invalidated s then mret (-12903) else
  key ← cfstring_to_string propertyKey;
  match key with
  | None => mret (-12902)
  | Some key =>
      payload ← vtf_fill_set_property_payload session propertyKey key propertyValue;
      match payload with
      | inr status => mret status
      | inl payload =>
          result ← transport_call (send_request_unit env OP_SET_PROPERTY payload);
          match result with
          | inr _ => mret (-12902)
          | inl _ =>
              s ← as_vt_session session;
              found ← find_property s key;
              match found with
              | Some (i, stored) =>
                  _ ← CFRelease env (prop_value stored);
                  value ← CFRetain propertyValue;
                  _ ← set_property_at i (mk_vtf_vt_session_property (prop_key stored) value) session;
                  mret 0
              | None =>
                  if vts_stored_property_count s >=? len (vts_stored_properties s) then mret (-12900) else
                  let index := vts_stored_property_count s in
                  value ← CFRetain propertyValue;
                  _ ← set_property_at (Z.to_nat index) (mk_vtf_vt_session_property (fill_key_bytes key) value)
                        session;
                  count ← of_rust (arith 64 (index + 1));
                  s ← as_vt_session session;
                  _ ← put_body session (VtSession (s <| vts_stored_property_count := count |>));
                  mret 0
              end
          end
      end
  end.

(** The second component is what is written to [propertyValueOut]. *)
Definition VTSessionCopyProperty (session propertyKey : Z) (propertyValueOut : bool) : G (Z * option Z) :=
  if (session =? 0) || (propertyKey =? 0) || negb propertyValueOut then mret (-12902, None) else
  o ← get_object session;
  if cf_type_id (ob_base o) =? VTF_TYPE_VT_DECOMPRESSION_SESSION then mret (0, Some 0) else
  s ← as_vt_session session;
  if vts_invalidated s then mret (-12903, None) else
  key ← cfstring_to_string propertyKey;
  match key with
  | None => mret (-12902, Some 0)
  | Some key =>
      found ← find_property s key;
      match found with
      | Some (_, stored) => value ← CFRetain (prop_value stored); mret (0, Some value)
      | None => mret (-12900, Some 0)
      end
  end.

Definition supported_keys : list Z := symbol <$> [
  "kVTCompressionPropertyKey_AverageBitRate"; "kVTCompressionPropertyKey_AllowFrameReordering";
  "kVTCompressionPropertyKey_AllowOpenGOP"; "kVTCompressionPropertyKey_ColorPrimaries";
  "kVTCompressionPropertyKey_DataRateLimits"; "kVTCompressionPropertyKey_H264EntropyMode";
  "kVTCompressionPropertyKey_MaxAllowedFrameQP"; "kVTCompressionPropertyKey_MaxKeyFrameInterval";
  "kVTCompressionPropertyKey_MaxH264SliceBytes"; "kVTCompressionPropertyKey_MinAllowedFrameQP";
  "kVTCompressionPropertyKey_MoreFramesBeforeStart"; "kVTCompressionPropertyKey_MoreFramesAfterEnd";
  "kVTCompressionPropertyKey_PixelAspectRatio";
  "kVTCompressionPropertyKey_PrioritizeEncodingSpeedOverQuality";
  "kVTCompressionPropertyKey_RealTime"; "kVTCompressionPropertyKey_ProfileLevel";
  "kVTCompressionPropertyKey_TransferFunction"; "kVTCompressionPropertyKey_YCbCrMatrix" ]%string.

(** The outputs: [encoderIDOut] is set to null, [supportedPropertiesOut] to the
    dictionary. *)
Definition VTCopySupportedPropertyDictionaryForEncoder (supportedPropertiesOut : bool) : G (Z * option Z) :=
  if negb supportedPropertiesOut then mret (-12902, None) else
  empty_value ← CFDictionaryCreate None None 0;
  supported ← CFDictionaryCreate (Some supported_keys)
    (Some (replicate (length supported_keys) empty_value)) (len supported_keys);
  _ ← CFRelease env empty_value;
  mret (if supported =? 0 then -12900 else 0, Some supported).
End videotoolbox.

Notation "x ←? m ; k" := (try_bind m (fun x => k)) (at level 20, m at level 100, k at level 200).
