(* ===== verification/Platform.v ===== *)
(** * What the library does to the platform

    The platform is the state behind the sockets, [malloc], [sleep] and the application's
    callbacks.  Between two callbacks the library changes it by its own system calls only:
    [os_runs].  What the application keeps for itself there, such as the references it
    holds, is as it left it. *)

From S2P Require Import Prelude Wire Protocol Layout Backend Transport Objects Release.
From S2P Require Import CoreFoundation CoreMedia CoreVideo VideoToolbox.
From stdpp Require Import strings relations.

Set Default Goal Selector "!".
Open Scope Z_scope.

Section platform.
Context {os : Type} `{!Net os} `{!Profile} `{!App os} (env : environ).
Implicit Types (w : guest os) (t : transport os) (o : os).

(** A system call of the library. *)
Inductive os_step : os -> os -> Prop :=
| step_connect sel o : os_step o (net_connect sel o).2
| step_setsockopt fd option value o : os_step o (net_setsockopt fd option value o).2
| step_write fd bs o : os_step o (net_write_all fd bs o).2
| step_read fd n o : os_step o (net_read_exact fd n o).2
| step_malloc bytes o : os_step o (app_malloc bytes o).2
| step_sleep ms o : os_step o (app_sleep ms o).

Definition os_runs : os -> os -> Prop := rtc os_step.
#[global] Instance os_runs_preorder : PreOrder os_runs.
Proof. unfold os_runs. apply _. Qed.

(** The program only makes system calls. *)
Definition calls_only {A} (m : G os A) : Prop := forall w a w',
  m w = Done (a, w') -> os_runs (os_of w) (os_of w').
Definition sends_only {A} (m : T os A) : Prop := forall t r t',
  m t = Val (r, t') -> os_runs (tp_os t) (tp_os t').

(** ** The transport *)

Lemma runs_connect sel o r o' : net_connect sel o = (r, o') -> os_runs o o'.
Proof. intros E. apply rtc_once. replace o' with (net_connect sel o).2 by by rewrite E. constructor. Qed.
Lemma runs_setsockopt fd option value o r o' : net_setsockopt fd option value o = (r, o') -> os_runs o o'.
Proof. intros E. apply rtc_once. replace o' with (net_setsockopt fd option value o).2 by by rewrite E. constructor. Qed.
Lemma runs_write fd bs o r o' : net_write_all fd bs o = (r, o') -> os_runs o o'.
Proof. intros E. apply rtc_once. replace o' with (net_write_all fd bs o).2 by by rewrite E. constructor. Qed.
Lemma runs_read fd n o r o' : net_read_exact fd n o = (r, o') -> os_runs o o'.
Proof. intros E. apply rtc_once. replace o' with (net_read_exact fd n o).2 by by rewrite E. constructor. Qed.

Lemma runs_timeouts fd ms o r o' : apply_socket_timeouts fd ms o = (r, o') -> os_runs o o'.
Proof.
  unfold apply_socket_timeouts. destruct (net_setsockopt _ _ _ o) as [ok o1] eqn:E1.
  pose proof (runs_setsockopt _ _ _ _ _ _ E1). destruct (negb ok); [by intros [= _ <-]|]. intros E2.
  etrans; [done|]. by eapply runs_setsockopt.
Qed.

Lemma runs_wrap fd o r o' : wrap_stream env fd o = (r, o') -> os_runs o o'.
Proof.
  unfold wrap_stream. destruct (_ >? 0).
  - destruct (apply_socket_timeouts _ _ o) as [ok o1] eqn:E1. pose proof (runs_timeouts _ _ _ _ _ E1).
    by destruct (negb ok); intros [= _ <-].
  - intros [= _ <-]. done.
Qed.

Lemma runs_open o r o' : open_backend env o = (r, o') -> os_runs o o'.
Proof.
  unfold open_backend, connect_stream. destruct (stream_selection_from_env env) as [sel|]; [|by intros [= _ <-]].
  destruct (net_connect sel o) as [[fd|] o1] eqn:E1; pose proof (runs_connect _ _ _ _ E1); [|by intros [= _ <-]].
  intros E2. etrans; [done|]. by eapply runs_wrap.
Qed.

Lemma runs_ensure t : os_runs (tp_os t) (tp_os (ensure_backend env t)).
Proof.
  unfold ensure_backend. destruct (tp_backend t); [done|]. destruct (tp_killed t); [done|].
  destruct (open_backend env (tp_os t)) as [[b|] o'] eqn:E; apply runs_open in E; [|done].
  unfold ensure_heartbeat_thread. cbn. by destruct (tp_heartbeat t).
Qed.

Lemma runs_stream self op payload o r b o' :
  stream_send_request_dynamic self op payload o = Val (r, b, o') -> os_runs o o'.
Proof.
  unfold stream_send_request_dynamic, mbind, rust_bind. cbv zeta. destruct (arith 64 _); [|done].
  destruct (net_write_all _ _ o) as [sent o1] eqn:E1. apply runs_write in E1.
  destruct (negb sent); [by intros [= _ _ <-]|].
  destruct (match payload with [] => _ | _ => _ end) as [sent2 o2] eqn:E2.
  assert (os_runs o o2) as R2.
  { etrans; [done|]. destruct payload; [by simplify_eq|by eapply runs_write]. }
  destruct (negb sent2); [by intros [= _ _ <-]|].
  destruct (net_read_exact _ _ o2) as [rh o3] eqn:E3. apply runs_read in E3.
  assert (os_runs o o3) as R3 by by etrans.
  destruct rh as [rh|]; [|by intros [= _ _ <-]].
  destruct (if negb (mh_payload_len _ =? 0) then _ else _) as [rp o4] eqn:E4.
  assert (os_runs o o4) as R4.
  { etrans; [exact R3|]. destruct (negb _); [by eapply runs_read|by simplify_eq]. }
  destruct rp as [rp|]; [|by intros [= _ _ <-]].
  destruct (negb (mh_status _ =? _)); intros E; by simplify_eq.
Qed.

Lemma bytes_sends op payload : sends_only (send_request_bytes env op payload).
Proof.
  intros t r t'. unfold send_request_bytes. pose proof (runs_ensure t) as R. set (t1 := ensure_backend env t) in *.
  destruct (tp_backend t1) as [b|]; [|by intros [= _ <-]]. unfold mbind, rust_bind.
  destruct (stream_send_request_dynamic b op payload (tp_os t1)) as [[[res b'] o']|] eqn:E; [|done].
  intros [= _ <-]. etrans; [exact R|]. apply runs_stream in E. unfold put_stream. by destruct (sb_poisoned b').
Qed.

Lemma sends_ret {A} (a : A) : sends_only (mret a).
Proof. by intros t r t' [= _ <-]. Qed.
Lemma sends_err {A} st : sends_only (A:=A) (T_err st).
Proof. by intros t r t' [= _ <-]. Qed.
Lemma sends_bind {A B} (m : T os A) (f : A -> T os B) :
  sends_only m -> (forall a, sends_only (f a)) -> sends_only (m ≫= f).
Proof.
  intros Hm Hf t r t'. unfold mbind, T_bind. destruct (m t) as [[[a|e] t1]|] eqn:E; [| |done].
  - intros E2. etrans; [by eapply Hm|by eapply Hf].
  - intros [= _ <-]. by eapply Hm.
Qed.

Lemma typed_sends {P} R `{!Pod P} `{!Pod R} op (p : P) : sends_only (send_request env R op p).
Proof.
  apply sends_bind; [apply bytes_sends|]. intros bs. destruct (read_pod R bs); [apply sends_ret|apply sends_err].
Qed.
Lemma dynamic_sends {P} `{!Pod P} op (p : P) : sends_only (send_request_dynamic env op p).
Proof. apply bytes_sends. Qed.
Lemma unit_sends {P} `{!Pod P} op (p : P) : sends_only (send_request_unit env op p).
Proof. apply sends_bind; [apply dynamic_sends|]. intros bs. apply sends_ret. Qed.

Lemma read_output_sends payload : sends_only (read_output env payload).
Proof.
  apply sends_bind; [apply dynamic_sends|]. intros bs. unfold at_least. case_match; [apply sends_err|apply sends_ret].
Qed.

Lemma write_loop_sends fuel i g bs : forall off, sends_only (write_buffer_loop env fuel i g bs off).
Proof.
  induction fuel as [|fuel IH]; intros off; [done|]. cbn [write_buffer_loop]. case_match; [|apply sends_ret].
  apply sends_bind; [apply bytes_sends|]. intros _. apply IH.
Qed.

Lemma release_each_sends ids : sends_only (release_each env ids).
Proof. induction ids as [|i ids IH]; [apply sends_ret|]. apply sends_bind; [apply unit_sends|]. by intros _. Qed.

Lemma release_batch_sends ids : sends_only (release_output_batch_now env ids).
Proof.
  destruct ids as [|i ids]; [apply sends_ret|]. intros t r t'. unfold release_output_batch_now.
  destruct (_ >? _); [done|]. destruct (send_request_dynamic _ _ _ t) as [[[bs|e] t1]|] eqn:E; [| |done].
  - intros [= _ <-]. by apply dynamic_sends in E.
  - apply dynamic_sends in E. case_match; [|by intros [= _ <-]]. intros E2. etrans; [exact E|]. by apply release_each_sends in E2.
Qed.

Lemma batches_sends l : sends_only (release_batches env l).
Proof. induction l as [|b l IH]; [apply sends_ret|]. apply sends_bind; [apply release_batch_sends|]. by intros _. Qed.

Lemma flush_sends : sends_only (flush_deferred_output_releases env).
Proof.
  intros t r t'. unfold flush_deferred_output_releases. destruct (tp_deferred t) as [|x l]; [by intros [= _ <-]|].
  intros E. by apply batches_sends in E.
Qed.

Lemma release_output_sends i : sends_only (transport_release_output env i).
Proof.
  unfold transport_release_output. case_match; [|apply unit_sends]. intros t r t'. cbv zeta.
  case_match; [|by intros [= _ <-]]. intros E. by apply flush_sends in E.
Qed.

Lemma destroy_session_sends i : sends_only (destroy_session env i).
Proof.
  apply sends_bind; [|intros _; apply unit_sends]. case_match; [by intros t r t' [= _ <-]|apply flush_sends].
Qed.

(** ** The library *)

Lemma only_ret {A} (a : A) : calls_only (mret a).
Proof. by intros w r w' [= _ <-]. Qed.
Lemma only_bind {A B} (m : G os A) (f : A -> G os B) :
  calls_only m -> (forall a, calls_only (f a)) -> calls_only (m ≫= f).
Proof.
  intros Hm Hf w r w'. unfold mbind, G_bind. destruct (m w) as [[a w1]| | |] eqn:E; [|done..].
  intros E2. etrans; [by eapply Hm|by eapply Hf].
Qed.
Lemma only_transport {A} (m : T os A) : sends_only m -> calls_only (transport_call m).
Proof.
  intros Hm w r w'. unfold transport_call. destruct (m (gs_transport w)) as [[x t]|] eqn:E; [|done].
  intros [= _ <-]. by eapply Hm.
Qed.
(** A step that leaves the transport alone. *)
Lemma only_local {A} (m : G os A) :
  (forall w, match m w with Done (_, w') => gs_transport w' = gs_transport w | _ => True end) -> calls_only m.
Proof.
  intros Hm w a w' E. specialize (Hm w). rewrite E in Hm. unfold os_of. by rewrite Hm.
Qed.

Lemma get_object_only p : calls_only (get_object p).
Proof. apply only_local. intros w. unfold get_object. by destruct (gs_heap w !! p). Qed.
Lemma put_object_only p (x : object) : calls_only (put_object p x).
Proof. apply only_local. intros w. unfold put_object. by destruct (gs_heap w !! p). Qed.
Lemma free_object_only p : calls_only (free_object p).
Proof. apply only_local. intros w. unfold free_object. by destruct (gs_heap w !! p). Qed.
Lemma new_object_only (x : object) : calls_only (new_object x).
Proof. by apply only_local. Qed.
Lemma box_bytes_only bs : calls_only (box_bytes bs).
Proof. apply only_local. intros w. by destruct bs. Qed.
Lemma free_bytes_only p n : calls_only (free_bytes p n).
Proof.
  apply only_local. intros w. unfold free_bytes. destruct (n =? 0); [done|].
  destruct p as [[b [| |]]|]; try done. destruct (gs_blocks w !! b) as [l|]; [|done]. by destruct (_ =? n).
Qed.
Lemma read_bytes_only p n : calls_only (read_bytes p n).
Proof.
  apply only_local. intros w. unfold read_bytes. destruct (n =? 0); [done|].
  destruct p as [[b off]|]; [|done]. destruct (gs_blocks w !! b) as [l|]; [|done]. by destruct (_ && _).
Qed.
Lemma of_rust_only {A} (r : rust A) : calls_only (of_rust r).
Proof. apply only_local. intros w. by destruct r. Qed.
Lemma init_only ty fin : calls_only (vtf_cf_object_init ty fin).
Proof. by apply only_local. Qed.
Lemma for_each_only {A} (f : A -> G os unit) l : (forall x, calls_only (f x)) -> calls_only (for_each f l).
Proof. intros Hf. induction l as [|x l IH]; [apply only_ret|]. apply only_bind; [apply Hf|]. by intros _. Qed.
End platform.

#[export] Hint Resolve only_ret only_transport get_object_only put_object_only free_object_only new_object_only
  box_bytes_only free_bytes_only read_bytes_only of_rust_only init_only for_each_only : platform.
#[export] Hint Resolve typed_sends dynamic_sends unit_sends read_output_sends write_loop_sends release_output_sends
  destroy_session_sends : platform.

(** A program of such steps. *)
Ltac calls :=
  repeat match goal with
  | |- calls_only (mbind _ _) => apply only_bind
  | |- calls_only (match ?x with _ => _ end) => destruct x
  | |- calls_only (let _ := _ in _) => cbv zeta
  | |- calls_only (fun _ => UB) => apply only_local
  | |- forall _, _ => intro
  | |- calls_only _ => by auto with platform
  end.

Section library.
Context {os : Type} `{!Net os} `{!Profile} `{!App os} (env : environ).
Implicit Types (w : guest os).

Lemma ub_only {A} : calls_only (ub (os:=os) (A:=A)).
Proof. by apply only_local. Qed.
Lemma abort_only {A} : calls_only (abort (os:=os) (A:=A)).
Proof. by apply only_local. Qed.
Lemma modify_only (f : guest os -> guest os) : (forall w, gs_transport (f w) = gs_transport w) ->
  calls_only (modify_guest f).
Proof. intros Hf. by apply only_local. Qed.
Hint Resolve ub_only abort_only : platform.
Hint Extern 1 (calls_only (modify_guest _)) => by apply modify_only : platform.

Lemma as_body_only p : calls_only (os:=os) (as_string p) /\ calls_only (os:=os) (as_number p) /\
  calls_only (os:=os) (as_data p) /\ calls_only (os:=os) (as_array p) /\ calls_only (os:=os) (as_dictionary p) /\
  calls_only (os:=os) (as_block_buffer p) /\ calls_only (os:=os) (as_format_description p) /\
  calls_only (os:=os) (as_sample_buffer p) /\ calls_only (os:=os) (as_pixel_buffer p) /\
  calls_only (os:=os) (as_pixel_buffer_pool p) /\ calls_only (os:=os) (as_vt_session p) /\
  calls_only (os:=os) (as_vt_decompression_session p).
Proof. split_and!; (apply only_bind; [auto with platform|]; intros o; destruct (ob_body o); auto with platform). Qed.

Lemma put_body_only p b : calls_only (os:=os) (put_body p b).
Proof. unfold put_body. calls. Qed.
Lemma retain_only p : calls_only (os:=os) (CFRetain p).
Proof. unfold CFRetain. calls. Qed.
Lemma proxy_only p : calls_only (os:=os) (proxy_of p).
Proof. unfold proxy_of. calls. Qed.
Hint Resolve put_body_only retain_only proxy_only : platform.
Hint Extern 1 (calls_only (as_string _)) => apply as_body_only : platform.
Hint Extern 1 (calls_only (as_number _)) => apply as_body_only : platform.
Hint Extern 1 (calls_only (as_data _)) => apply as_body_only : platform.
Hint Extern 1 (calls_only (as_array _)) => apply as_body_only : platform.
Hint Extern 1 (calls_only (as_dictionary _)) => apply as_body_only : platform.
Hint Extern 1 (calls_only (as_block_buffer _)) => apply as_body_only : platform.
Hint Extern 1 (calls_only (as_format_description _)) => apply as_body_only : platform.
Hint Extern 1 (calls_only (as_sample_buffer _)) => apply as_body_only : platform.
Hint Extern 1 (calls_only (as_pixel_buffer _)) => apply as_body_only : platform.
Hint Extern 1 (calls_only (as_pixel_buffer_pool _)) => apply as_body_only : platform.
Hint Extern 1 (calls_only (as_vt_session _)) => apply as_body_only : platform.
Hint Extern 1 (calls_only (as_vt_decompression_session _)) => apply as_body_only : platform.

Lemma recycle_only p : calls_only (vtf_recycle_pixel_buffer env p).
Proof. unfold vtf_recycle_pixel_buffer. calls. Qed.
Hint Resolve recycle_only : platform.

Lemma finalizer_only release fin p : (forall q, calls_only (release q)) ->
  calls_only (run_finalizer env release fin p).
Proof.
  intros Hr. destruct fin; cbn [run_finalizer].
  - unfold vtf_finalize_string. calls.
  - unfold vtf_finalize_number. calls.
  - unfold vtf_finalize_data. calls.
  - unfold vtf_finalize_array. calls.
  - unfold vtf_finalize_dictionary. calls.
  - unfold vtf_finalize_block_buffer. calls.
  - unfold vtf_finalize_format_description. calls. apply for_each_only. calls.
  - unfold vtf_finalize_sample_buffer. calls.
  - unfold vtf_finalize_pixel_buffer. calls.
  - unfold vtf_finalize_pixel_buffer_pool, destroy_buffer_pool. calls.
  - unfold vtf_finalize_vt_session, vtf_record_vt_session_destroyed, session_counts. calls.
  - unfold vtf_finalize_vt_decompression_session, vtf_record_vt_session_destroyed. calls.
Qed.

Lemma release_only p : calls_only (CFRelease env p).
Proof.
  assert (forall fuel q, calls_only (release_within (os:=os) env fuel q)) as Hr.
  { induction fuel as [|fuel IH]; intros q; cbn [release_within]; [by apply only_local|].
    pose proof (fun fin => finalizer_only (release_within env fuel) fin q IH). calls. }
  intros w a w' E. by eapply Hr.
Qed.
Hint Resolve release_only : platform.

(** *** Making a sample *)

Lemma retain_args_only (arg : nat -> G os Z) l : (forall i, calls_only (arg i)) -> calls_only (retain_args arg l).
Proof. intros Ha. induction l as [|i l IH]; cbn [retain_args]; calls. Qed.
Lemma retain_pairs_only (ks vs : nat -> G os Z) l : (forall i, calls_only (ks i)) -> (forall i, calls_only (vs i)) ->
  calls_only (retain_pairs ks vs l).
Proof. intros Hk Hv. induction l as [|i l IH]; cbn [retain_pairs]; calls. Qed.
Lemma array_arg_only vs i : calls_only (os:=os) (array_arg vs i).
Proof. unfold array_arg. calls. Qed.
Hint Resolve retain_args_only retain_pairs_only array_arg_only : platform.

Lemma array_create_only vs n : calls_only (os:=os) (CFArrayCreate vs n).
Proof. unfold CFArrayCreate, with_capacity. calls. Qed.
Lemma dictionary_create_only ks vs n : calls_only (os:=os) (CFDictionaryCreate ks vs n).
Proof. unfold CFDictionaryCreate, with_capacity. calls. Qed.
Hint Resolve array_create_only dictionary_create_only : platform.

Lemma block_only bytes n : calls_only (os:=os) (vtf_create_block_buffer_from_bytes bytes n).
Proof.
  unfold vtf_create_block_buffer_from_bytes, CMBlockBufferCreateWithMemoryBlock, zero_bytes, vtf_record_data_copy. calls.
Qed.

Lemma sets_only sizes data : forall off, calls_only (os:=os) (store_parameter_sets sizes off data).
Proof. induction sizes as [|n sizes IH]; intros off; cbn [store_parameter_sets]; calls. Qed.
Hint Resolve sets_only : platform.

Lemma format_only codec width height count sizes data nal :
  calls_only (os:=os) (vtf_create_video_format_description codec width height count sizes data nal).
Proof. unfold vtf_create_video_format_description. calls. Qed.

Lemma sample_only block format pts dts size flags id src :
  calls_only (vtf_create_sample_buffer env block format pts dts size flags id src).
Proof. unfold vtf_create_sample_buffer. calls. Qed.

(** *** Pixels and queues *)

Lemma ensure_store_only p : calls_only (os:=os) (vtf_ensure_backing_store p).
Proof.
  assert (forall base n, calls_only (os:=os) (add_within base n)) as Ha.
  { intros base n. apply only_local. intros w. unfold add_within. destruct (n =? 0); [done|].
    destruct base as [[b off]|]; [|done]. destruct (gs_blocks w !! b); [|done]. by destruct (_ && _). }
  assert (forall base i, calls_only (os:=os) (point_plane p base i)) as Hp.
  { intros base i. unfold point_plane, nth_or_abort. calls. }
  unfold vtf_ensure_backing_store, zero_bytes. calls.
Qed.

Lemma malloc_only bytes : calls_only (malloc (os:=os) bytes).
Proof.
  intros w a w'. unfold malloc. destruct (app_malloc bytes (os_of w)) as [got o] eqn:E. intros [= _ <-].
  apply rtc_once. cbn. replace o with (app_malloc bytes (os_of w)).2 by by rewrite E. constructor.
Qed.
Lemma sleep_only ms : calls_only (thread_sleep (os:=os) ms).
Proof. intros w a w' [= _ <-]. apply rtc_once. constructor. Qed.
Hint Resolve malloc_only sleep_only : platform.

Lemma grow_only session : calls_only (os:=os) (grow_pending session).
Proof. unfold grow_pending, grown. calls. Qed.
End library.
