(* ===== verification/Pending.v ===== *)
(** * Frames under way

    The two arrays of a compression session that hold the frames the worker has not
    answered yet are a queue: [vtf_push_pending_image_buffer] appends a frame,
    [vtf_pop_pending_image_buffer] takes the oldest, and growing the arrays changes
    nothing. *)

From S2P Require Import Prelude Wire Protocol Layout Backend Transport Objects Release Refcount.
From S2P Require Import ReleaseSafe CoreFoundation Ownership CoreMedia CoreVideo VideoToolbox.
From stdpp Require Import strings fin_maps.

Set Default Goal Selector "!".
Open Scope Z_scope.

(** ** The queue of a session *)

Definition pending_queue (s : vtf_vt_session) : list (Z * Z) :=
  take (Z.to_nat (vts_pending_count s))
    (zip (default [] (vts_pending_image_buffers s)) (default [] (vts_pending_source_frame_refcons s))).

Inductive frame_op := Push (image_buffer source_frame_refcon : Z) | Pop.

(** What the queue promises, with the frames, the capacity of the arrays and the platform
    as its state: a push appends, after two arrays of twice the capacity (4 at first) were
    allocated if the old ones are full, and fails, changing nothing, where one of these
    allocations does; a pop takes the first frame. *)
Section spec.
Context {os : Type} `{!App os}.

Definition queue_state : Type := list (Z * Z) * Z * os.

Definition next_capacity (capacity : Z) : Z := if capacity =? 0 then 4 else capacity * 2.

Definition two_arrays (bytes : Z) (o : os) : bool * os :=
  let '(got, o) := app_malloc bytes o in
  let '(got', o) := app_malloc bytes o in
  (got && got', o).

Definition queue_step (op : frame_op) (st : queue_state) : (bool + Z * Z) * queue_state :=
  let '(q, capacity, o) := st in
  match op with
  | Push b r =>
      if len q <? capacity then (inl true, (q ++ [(b, r)], capacity, o)) else
      match two_arrays (next_capacity capacity * 8) o with
      | (true, o) => (inl true, (q ++ [(b, r)], next_capacity capacity, o))
      | (false, o) => (inl false, (q, capacity, o))
      end
  | Pop => (inr (default (0, 0) (head q)), (tail q, capacity, o))
  end.

Fixpoint queue_run (ops : list frame_op) (st : queue_state) : list (bool + Z * Z) * queue_state :=
  match ops with
  | [] => ([], st)
  | op :: ops =>
      let '(r, st) := queue_step op st in
      let '(rs, st) := queue_run ops st in
      (r :: rs, st)
  end.
End spec.

(** ** Arrays as a queue *)

Lemma zip_insert (l r : list Z) i x y :
  zip (<[i := x]> l) (<[i := y]> r) = <[i := (x, y)]> (zip l r).
Proof. revert l r. induction i; intros [|a l] [|b r]; simpl; try done; by f_equal. Qed.

Lemma zip_take {A B} n (l : list A) (r : list B) : zip (take n l) (take n r) = take n (zip l r).
Proof. revert l r. induction n; intros [|a l] [|b r]; simpl; try done; by f_equal. Qed.

Lemma zip_drop {A B} n (l : list A) (r : list B) : zip (drop n l) (drop n r) = drop n (zip l r).
Proof.
  revert l r. induction n; intros [|a l] [|b r]; simpl; try done. by rewrite zip_with_nil_r.
Qed.

Lemma take_insert_end {A} (l : list A) n x : (n < length l)%nat ->
  take (S n) (<[n := x]> l) = take n l ++ [x].
Proof.
  intros Hn. rewrite (take_S_r _ _ x) by (by apply list_lookup_insert_eq).
  by rewrite take_insert_ge by lia.
Qed.

Lemma shift_down_take n (l : list Z) : (0 < n <= length l)%nat ->
  take (n - 1) (shift_down (Z.of_nat n) l) = drop 1 (take n l).
Proof.
  intros Hn. unfold shift_down, slice. replace (Z.to_nat (Z.of_nat n - 1)) with (n - 1)%nat by lia.
  rewrite take_app_length'; [|rewrite length_take, length_drop; lia].
  rewrite skipn_firstn_comm. f_equal.
Qed.

Lemma shift_down_length n (l : list Z) : (0 < n <= length l)%nat ->
  length (shift_down (Z.of_nat n) l) = length l.
Proof.
  intros Hn. unfold shift_down, slice. rewrite length_app, length_take, !length_drop. lia.
Qed.

Section pending.
Context {os : Type} `{!Net os} `{!Profile} `{!App os} (env : environ).
Context (Hmalloc : forall bytes o o', app_malloc bytes o = (true, o') -> bytes <= ISIZE_MAX).
Implicit Types (w : guest os) (s : vtf_vt_session).

Definition frame_call (session : Z) (op : frame_op) : G os (bool + Z * Z) :=
  match op with
  | Push b r => ok ← vtf_push_pending_image_buffer session b r; mret (inl ok)
  | Pop => x ← vtf_pop_pending_image_buffer session; mret (inr x)
  end.

Fixpoint frame_calls (session : Z) (ops : list frame_op) : G os (list (bool + Z * Z)) :=
  match ops with
  | [] => mret []
  | op :: ops => r ← frame_call session op; rs ← frame_calls session ops; mret (r :: rs)
  end.

(** [session] is a session whose queue is [st]. *)
Definition session_with w session (st : queue_state) : Prop := exists s,
  ob_body <$> gs_heap w !! session = Some (VtSession s) /\ queue_ok s /\
  st = (pending_queue s, vts_pending_capacity s, os_of w).

Lemma pending_length s : queue_ok s -> len (pending_queue s) = vts_pending_count s.
Proof.
  intros [Hc Hb Ha]. unfold pending_queue. rewrite length_take, length_zip_with.
  destruct Ha as [(E & -> & _)|(l & r & -> & -> & Hl & Hr)]; simpl; lia.
Qed.

Lemma as_session_run w p s : ob_body <$> gs_heap w !! p = Some (VtSession s) ->
  as_vt_session p w = Done (s, w).
Proof. intros (o & Ho & E)%fmap_body. read_body. Qed.

Lemma put_session_run w p s s' : ob_body <$> gs_heap w !! p = Some (VtSession s) ->
  put_body p (VtSession s') w = Done (tt, rebodied p (VtSession s') w) /\
  ob_body <$> gs_heap (rebodied p (VtSession s') w) !! p = Some (VtSession s').
Proof.
  intros (o & Ho & E)%fmap_body. split; [apply put_body_eq; eauto|].
  by rewrite (rebodied_lookup _ _ _ o Ho).
Qed.

Lemma rebodied_present w q b p : is_Some (gs_heap w !! p) -> is_Some (gs_heap (rebodied q b w) !! p).
Proof.
  intros [o Ho]. unfold rebodied. simpl. destruct (decide (p = q)) as [->|].
  - rewrite lookup_alter_eq, Ho. by eexists.
  - rewrite lookup_alter_ne by done. by eexists.
Qed.

(** *** Taking a frame *)

Lemma take_first_run w n (l : list Z) : (0 < n <= length l)%nat -> exists x l',
  take_first (Z.of_nat n) (Some l) w = Done ((x, Some l'), w) /\ l !! 0%nat = Some x /\
  length l' = length l /\ take (n - 1) l' = drop 1 (take n l).
Proof.
  intros Hn. destruct l as [|x l]; [simpl in Hn; lia|]. exists x. unfold take_first.
  destruct (Z.gtb_spec (Z.of_nat n) (len (x :: l))); [simpl in *; lia|].
  destruct (Z.gtb_spec (Z.of_nat n) 1).
  - exists (shift_down (Z.of_nat n) (x :: l)). split_and!; [done..|by apply shift_down_length|].
    by apply shift_down_take.
  - assert (n = 1%nat) as -> by lia. by exists (x :: l).
Qed.

Lemma pop_step w session st : session_with w session st -> exists w',
  vtf_pop_pending_image_buffer session w = Done (default (0, 0) (head st.1.1), w') /\
  session_with w' session (tail st.1.1, st.1.2, st.2) /\
  (forall p, is_Some (gs_heap w !! p) -> is_Some (gs_heap w' !! p)).
Proof.
  intros (s & Hs & Hok & ->). pose proof Hok as [Hc Hb Ha]. unfold vtf_pop_pending_image_buffer. cbn [fst snd].
  rewrite (bind_eq _ _ _ _ _ (as_session_run w session s Hs)).
  destruct (Z.eqb_spec (vts_pending_count s) 0) as [E0|E0].
  { assert (pending_queue s = []) as E by (unfold pending_queue; by rewrite E0).
    exists w. rewrite E. split_and!; [done| |done]. exists s. split_and!; [done|done|by rewrite E]. }
  destruct Ha as [(E & _)|(l & r & El & Er & Hl & Hr)]; [lia|]. rewrite El.
  rewrite bool_decide_eq_false_2 by done. change (false || false) with false. cbv iota.
  set (n := Z.to_nat (vts_pending_count s)).
  assert (vts_pending_count s = Z.of_nat n) as En by (unfold n; lia).
  destruct (take_first_run w n l) as (x & l' & Ex & Hx & Hl' & Tl); [lia|].
  destruct (take_first_run w n r) as (y & r' & Ey & Hy & Hr' & Tr); [lia|].
  rewrite En, Er, (bind_eq _ _ _ _ _ Ex), (bind_eq _ _ _ _ _ Ey).
  destruct (put_session_run w session s (s <| vts_pending_image_buffers := Some l' |>
    <| vts_pending_source_frame_refcons := Some r' |> <| vts_pending_count := Z.of_nat n - 1 |>) Hs)
    as [E1 Hs1].
  rewrite (bind_eq _ _ _ _ _ E1).
  assert (pending_queue s = (x, y) :: drop 1 (pending_queue s)) as Eq.
  { unfold pending_queue. rewrite El, Er. fold n. destruct l as [|x0 l]; [done|]. destruct r as [|y0 r]; [done|].
    simplify_eq/=. destruct n as [|n]; [lia|]. simpl. by rewrite drop_0. }
  eexists. split; [by rewrite Eq|]. split; [|by apply rebodied_present].
  eexists. split; [exact Hs1|]. split.
  - split; simpl; [lia|done|]. right. exists l', r'. split_and!; [done..| |]; congruence.
  - f_equal. f_equal. transitivity (drop 1 (pending_queue s)); [by rewrite Eq at 1|].
    unfold pending_queue. simpl. rewrite El, Er. fold n.
    replace (Z.to_nat (Z.of_nat n - 1)) with (n - 1)%nat by lia.
    by rewrite <- (zip_take (n - 1)), Tl, Tr, zip_drop, zip_take.
Qed.

(** *** Adding a frame *)

Lemma grown_run w (old : option (list Z)) count capacity :
  0 <= count <= capacity -> (count = 0 \/ exists l, old = Some l /\ len l = count) ->
  exists l', grown old count capacity w = Done (l', w) /\ len l' = capacity /\
    take (Z.to_nat count) l' = take (Z.to_nat count) (default [] old).
Proof.
  intros Hc [->|(l & -> & Hl)].
  - exists (replicate (Z.to_nat capacity) 0). split; [by destruct old|].
    split; [rewrite length_replicate; lia|done].
  - simpl. destruct (Z.gtb_spec count 0).
    + destruct (Z.gtb_spec count (len l)); [lia|]. eexists. split; [done|].
      split; [rewrite length_app, length_take, length_replicate; lia|].
      by rewrite take_app_length' by (rewrite length_take; lia).
    + assert (count = 0) as -> by lia. exists (replicate (Z.to_nat capacity) 0). split; [done|].
      split; [rewrite length_replicate; lia|done].
Qed.

Lemma set_os_same w : set_os (os_of w) w = w.
Proof. by destruct w as [? ? ? ? ? ? ? ? ? []]. Qed.

(** The arrays have room for one more. *)
Definition has_slot s : Prop := vts_pending_count s < vts_pending_capacity s.

(** The session with other arrays. *)
Definition regrown s s' : Prop := s' = s \/ exists l r cap,
  s' = s <| vts_pending_image_buffers := Some l |> <| vts_pending_source_frame_refcons := Some r |>
         <| vts_pending_capacity := cap |>.

(** What growing does: nothing while there is a slot; otherwise two allocations, and new
    arrays with the old frames if both succeed. *)
Definition grow_spec s (o : os) : bool * os :=
  if vts_pending_count s =? vts_pending_capacity s
  then two_arrays (next_capacity (vts_pending_capacity s) * 8) o else (true, o).

Lemma next_capacity_bounds s : queue_ok s ->
  vts_pending_capacity s < next_capacity (vts_pending_capacity s) /\
  next_capacity (vts_pending_capacity s) * 8 < 2 ^ 64.
Proof.
  intros [Hc Hb _]. unfold next_capacity, ISIZE_MAX in *. destruct (Z.eqb_spec (vts_pending_capacity s) 0); lia.
Qed.

Lemma malloc_run bytes w got o' : app_malloc bytes (os_of w) = (got, o') ->
  malloc bytes w = Done (got, set_os o' w).
Proof. intros E. unfold malloc. by rewrite E. Qed.

Lemma grow_run w session s : ob_body <$> gs_heap w !! session = Some (VtSession s) -> queue_ok s ->
  exists s' w', grow_pending session w = Done ((grow_spec s (os_of w)).1, w') /\
    let w1 := set_os (grow_spec s (os_of w)).2 w in
    ((grow_spec s (os_of w)).1 = true -> has_slot s') /\ regrown s s' /\
    (w' = w1 /\ s' = s \/ w' = rebodied session (VtSession s') w1) /\
    queue_ok s' /\ pending_queue s' = pending_queue s /\ pending_buffers s' = pending_buffers s /\
    vts_pending_capacity s' =
      (if vts_pending_count s =? vts_pending_capacity s
       then if (grow_spec s (os_of w)).1 then next_capacity (vts_pending_capacity s) else vts_pending_capacity s
       else vts_pending_capacity s).
Proof.
  intros Hs Hok. pose proof Hok as [Hc Hb Ha]. destruct (next_capacity_bounds s Hok) as [Hcap Hcap8].
  unfold grow_pending, grow_spec. rewrite (bind_eq _ _ _ _ _ (as_session_run w session s Hs)).
  destruct (Z.eqb_spec (vts_pending_count s) (vts_pending_capacity s)) as [E|E].
  2: { exists s, w. split; [done|]. cbn [fst snd]. rewrite set_os_same. unfold has_slot.
       split_and!; try done; [intros; lia|by left|by left]. }
  set (cap := next_capacity (vts_pending_capacity s)) in *.
  assert (((if vts_pending_capacity s =? 0 then mret 4
            else of_rust (arith 64 (vts_pending_capacity s * 2))) : G os Z) w = Done (cap, w)) as E1.
  { unfold cap, next_capacity in *. destruct (vts_pending_capacity s =? 0); [done|].
    unfold of_rust. by rewrite arith_in by lia. }
  rewrite (bind_eq _ _ _ _ _ E1).
  assert ((of_rust (arith 64 (cap * 8)) : G os Z) w = Done (cap * 8, w)) as E2
    by (unfold of_rust; by rewrite arith_in by lia).
  rewrite !(bind_eq _ _ _ _ _ E2). unfold two_arrays.
  destruct (app_malloc (cap * 8) (os_of w)) as [got o1] eqn:Em.
  rewrite (bind_eq _ _ _ _ _ (malloc_run _ _ _ _ Em)).
  destruct (app_malloc (cap * 8) o1) as [got' o2] eqn:Em'.
  rewrite (bind_eq _ _ _ _ _ (malloc_run (cap * 8) (set_os o1 w) got' o2 Em')).
  cbn [fst snd]. change (set_os o2 (set_os o1 w)) with (set_os o2 w). rewrite <- negb_andb.
  destruct (got && got') eqn:Eg; cbn [negb]; cbv iota.
  2: { exists s, (set_os o2 w). split; [done|]. split_and!; try done; by left. }
  apply andb_true_iff in Eg as [-> ->]. pose proof (Hmalloc _ _ _ Em) as Hbytes.
  assert (Hold : forall old, (old = None /\ vts_pending_capacity s = 0 \/
    exists l : list Z, old = Some l /\ len l = vts_pending_capacity s) ->
    vts_pending_count s = 0 \/ exists l, old = Some l /\ len l = vts_pending_count s).
  { intros old [[-> ?]|(l & -> & Hl)]; [left; lia|right; exists l; split; [done|lia]]. }
  set (w1 := set_os o2 w). assert (ob_body <$> gs_heap w1 !! session = Some (VtSession s)) as Hs1 by done.
  destruct (grown_run w1 (vts_pending_image_buffers s) (vts_pending_count s) cap) as (l & El & Hl & Tl);
    [lia|apply Hold; destruct Ha as [(? & -> & _)|(l & r & -> & _ & ? & _)]; eauto|].
  destruct (grown_run w1 (vts_pending_source_frame_refcons s) (vts_pending_count s) cap) as (r & Er & Hr & Tr);
    [lia|apply Hold; destruct Ha as [(? & _ & ->)|(l' & r & _ & -> & _ & ?)]; eauto|].
  rewrite (bind_eq _ _ _ _ _ El), (bind_eq _ _ _ _ _ Er).
  set (s' := s <| vts_pending_image_buffers := Some l |> <| vts_pending_source_frame_refcons := Some r |>
    <| vts_pending_capacity := cap |>). destruct (put_session_run w1 session s s' Hs1) as [E4 _].
  rewrite (bind_eq _ _ _ _ _ E4). exists s', (rebodied session (VtSession s') w1). split_and!; try done.
  - intros _. unfold has_slot. simpl. lia.
  - right. by exists l, r, cap.
  - by right.
  - split; simpl; [lia|done|]. right. exists l, r. by split_and!.
  - unfold pending_queue. simpl. by rewrite <- !zip_take, Tl, Tr.
Qed.

(** A retain changes no body, whatever it does to the count. *)
Lemma retain_bodies w p : p = 0 \/ is_Some (gs_heap w !! p) -> exists w',
  CFRetain p w = Done (p, w') /\ os_of w' = os_of w /\
  forall q, ob_body <$> gs_heap w' !! q = ob_body <$> gs_heap w !! q.
Proof.
  intros Hp. unfold CFRetain. destruct (Z.eqb_spec p 0) as [->|Hp0]; [by exists w|].
  destruct Hp as [|[o Ho]]; [done|]. unfold mbind, G_bind, get_object. rewrite Ho.
  destruct (_ =? 0); [|by exists w].
  unfold put_object. rewrite Ho. eexists. split; [reflexivity|]. split; [done|]. intros q. simpl.
  destruct (decide (q = p)) as [->|Hne]; [by rewrite lookup_insert_eq, Ho|].
  by rewrite lookup_insert_ne by done.
Qed.

Lemma body_present (h h' : gmap Z object) p : (ob_body <$> h' !! p) = (ob_body <$> h !! p) ->
  is_Some (h !! p) -> is_Some (h' !! p).
Proof. intros E [o Ho]. rewrite Ho in E. destruct (h' !! p); [by eexists|done]. Qed.

Lemma store_at_run w (l : list Z) i v : 0 <= i < len l ->
  store_at (os:=os) (Some l) i v w = Done (Some (<[Z.to_nat i := v]> l), w).
Proof.
  intros Hi. simpl. by rewrite (proj2 (Z.leb_le 0 i)), (proj2 (Z.ltb_lt i (len l))) by lia.
Qed.

Lemma push_step w session st b r : session_with w session st -> b = 0 \/ is_Some (gs_heap w !! b) ->
  exists ok w', vtf_push_pending_image_buffer session b r w = Done (ok, w') /\
    (queue_step (Push b r) st).1 = inl ok /\
    session_with w' session (queue_step (Push b r) st).2 /\
    (forall p, is_Some (gs_heap w !! p) -> is_Some (gs_heap w' !! p)).
Proof.
  intros (s & Hs & Hok & ->) Hb.
  destruct (grow_run w session s Hs Hok) as (s1 & w1 & Eg & Hslot & Hre & Hw1 & Hok1 & Eq & _ & Ecap).
  unfold vtf_push_pending_image_buffer. rewrite (bind_eq _ _ _ _ _ Eg). clear Eg.
  assert (ob_body <$> gs_heap w1 !! session = Some (VtSession s1) /\ os_of w1 = (grow_spec s (os_of w)).2 /\
    forall p, is_Some (gs_heap w !! p) -> is_Some (gs_heap w1 !! p)) as (Hs1 & Eo1 & Hp1).
  { destruct Hw1 as [[-> ->]| ->]; [done|]. split_and!; [by apply put_session_run with s|done|].
    intros p Hp. by apply rebodied_present. }
  assert (queue_step (Push b r) (pending_queue s, vts_pending_capacity s, os_of w) =
    if (grow_spec s (os_of w)).1
    then (inl true, (pending_queue s1 ++ [(b, r)], vts_pending_capacity s1, os_of w1))
    else (inl false, (pending_queue s1, vts_pending_capacity s1, os_of w1))) as Espec.
  { rewrite Eo1, Ecap, Eq. unfold grow_spec, queue_step. rewrite pending_length by done.
    destruct (Z.eqb_spec (vts_pending_count s) (vts_pending_capacity s)) as [->|Hne].
    - rewrite Z.ltb_irrefl. by destruct (two_arrays _ _) as [[] o'].
    - destruct Hok as [? _ _]. rewrite (proj2 (Z.ltb_lt _ _)) by lia. done. }
  rewrite Espec. destruct (grow_spec s (os_of w)).1; cbn [negb]; cbv iota.
  2: { exists false, w1. split_and!; [done|done| |done]. exists s1. done. }
  specialize (Hslot eq_refl). unfold has_slot in Hslot.
  destruct (retain_bodies w1 b) as (w2 & Er & Eo2 & Hbod); [destruct Hb; auto|].
  rewrite (bind_eq _ _ _ _ _ Er). rewrite <- Hbod in Hs1.
  rewrite (bind_eq _ _ _ _ _ (as_session_run w2 session s1 Hs1)).
  pose proof Hok1 as [Hc Hbytes [(E & _)|(l & rs & El & Ers & Hl & Hrs)]]; [lia|]. rewrite El, Ers.
  rewrite (bind_eq _ _ _ _ _ (store_at_run w2 l (vts_pending_count s1) b ltac:(lia))).
  rewrite (bind_eq _ _ _ _ _ (store_at_run w2 rs (vts_pending_count s1) r ltac:(lia))).
  assert ((of_rust (arith 64 (vts_pending_count s1 + 1)) : G os Z) w2 = Done (vts_pending_count s1 + 1, w2)) as Ec
    by (unfold of_rust; by rewrite arith_in by (unfold ISIZE_MAX in *; lia)).
  rewrite (bind_eq _ _ _ _ _ Ec). set (n := Z.to_nat (vts_pending_count s1)).
  destruct (put_session_run w2 session s1 (s1 <| vts_pending_image_buffers := Some (<[n := b]> l) |>
    <| vts_pending_source_frame_refcons := Some (<[n := r]> rs) |>
    <| vts_pending_count := vts_pending_count s1 + 1 |>) Hs1) as [E4 Hs4].
  rewrite (bind_eq _ _ _ _ _ E4). eexists true, _. split_and!; [done|done| |].
  - eexists. split; [exact Hs4|]. split.
    + split; simpl; [lia|done|]. right. do 2 eexists. split_and!; [done..| |]; by rewrite length_insert.
    + unfold pending_queue. simpl. rewrite El, Ers. simpl. rewrite <- Eo2.
      replace (Z.to_nat (vts_pending_count s1 + 1)) with (S n) by lia.
      rewrite zip_insert, take_insert_end; [done|]. rewrite length_zip_with. lia.
  - intros p Hp. apply rebodied_present. eapply body_present; [apply Hbod|]. by apply Hp1.
Qed.

Lemma frame_step session op st w : session_with w session st ->
  match op with Push b _ => b = 0 \/ is_Some (gs_heap w !! b) | Pop => True end ->
  exists w', frame_call session op w = Done ((queue_step op st).1, w') /\
    session_with w' session (queue_step op st).2 /\
    forall p, is_Some (gs_heap w !! p) -> is_Some (gs_heap w' !! p).
Proof.
  intros Hq Hop. destruct op as [b r|].
  - destruct (push_step w session st b r Hq Hop) as (ok & w' & E & Er & Hq' & Hp).
    exists w'. split; [|done]. cbn [frame_call]. rewrite (bind_eq _ _ _ _ _ E). by rewrite Er.
  - destruct (pop_step w session st Hq) as (w' & E & Hq' & Hp). destruct st as [[q cap] o].
    exists w'. split; [|done]. cbn [frame_call]. by rewrite (bind_eq _ _ _ _ _ E).
Qed.

(** C13: frames under way are a queue.  On a session whose queue is [st], any sequence of
    pushes and pops returns, with the results of [queue_run] and a session whose queue is
    the one [queue_run] leaves: each pop gives the frame and the reference that were pushed
    first of those left (null when there is none) and each push adds at the end; the arrays
    grow to twice their size when they are full, and a push fails, changing nothing, exactly
    when one of the two allocations of that growth does. *)
Theorem pending_frames_are_a_queue session ops st w (Hq : session_with w session st)
    (Hops : Forall (fun op => match op with Push b _ => b = 0 \/ is_Some (gs_heap w !! b) | Pop => True end) ops) :
  exists w', frame_calls session ops w = Done ((queue_run ops st).1, w') /\
    session_with w' session (queue_run ops st).2.
Proof.
  revert st w Hq Hops. induction ops as [|op ops IH]; intros st w Hq Hops; [by exists w|].
  apply list.Forall_cons in Hops as [Hop Hops].
  destruct (frame_step session op st w Hq Hop) as (w1 & E & Hq1 & Hp).
  destruct (IH (queue_step op st).2 w1 Hq1) as (w' & E' & Hq').
  { eapply list.Forall_impl; [exact Hops|]. intros [b rc|]; [|done]. intros [|]; [by left|right; auto]. }
  exists w'. cbn [frame_calls queue_run]. rewrite (bind_eq _ _ _ _ _ E), (bind_eq _ _ _ _ _ E').
  destruct (queue_step op st) as [r st1]. cbn [fst snd] in *. by destruct (queue_run ops st1) as [rs st2].
Qed.
End pending.

(** ** A concrete run *)

#[local] Instance no_net : Net Z := {|
  net_connect _ s := (None, s);
  net_setsockopt _ _ _ s := (false, s);
  net_write_all _ _ s := (false, s);
  net_read_exact _ _ s := (None, s);
  net_now _ := 0
|}.
#[local] Instance checked_build : Profile := debug_build.
#[local] Instance quiet_app : App Z := {|
  app_output _ _ _ _ _ _ := mret tt;
  app_decoded _ _ _ _ _ _ _ _ := mret tt;
  app_malloc bytes left :=
    if (bytes <=? left) && (bytes <=? ISIZE_MAX) then (true, left - bytes) else (false, left);
  app_sleep _ o := o
|}.

Definition demo_guest : guest Z :=
  match (base ← vtf_cf_object_init VTF_TYPE_VT_SESSION (Some Finalize_vt_session);
         new_object (mk_object base (VtSession (new_session 64 64 VTF_VIDEO_CODEC_H264 0 0 None 0))))
        (guest_start (mk_transport None false [] None 64)) with
  | Done (_, w) => w
  | _ => guest_start (mk_transport None false [] None 64)
  end.
Definition demo_vts : Z := gs_next (guest_start (mk_transport None false [] None 64)).

(** Memory for the first two arrays only: the fifth frame does not fit. *)
Definition demo_frames : list frame_op :=
  [Push kCFBooleanTrue 5; Push kCFBooleanFalse 6; Push kCFBooleanTrue 7; Push kCFBooleanTrue 8;
   Push kCFBooleanFalse 9; Pop; Pop; Push 0 1; Pop].

Lemma demo_queue : session_with demo_guest demo_vts ([], 0, 64).
Proof.
  exists (new_session 64 64 VTF_VIDEO_CODEC_H264 0 0 None 0).
  split_and!; [by vm_compute| |done]. split; [done|by vm_compute|by left].
Qed.

Lemma pending_frames_are_a_queue_witness : exists w',
  frame_calls demo_vts demo_frames demo_guest =
    Done ([inl true; inl true; inl true; inl true; inl false; inr (kCFBooleanTrue, 5);
           inr (kCFBooleanFalse, 6); inl true; inr (kCFBooleanTrue, 7)], w') /\
  session_with w' demo_vts ([(kCFBooleanTrue, 8); (0, 1)], 4, 0).
Proof.
  refine (pending_frames_are_a_queue (os:=Z) _ demo_vts demo_frames ([], 0, 64) demo_guest demo_queue _).
  - intros bytes o o'. cbn. destruct (bytes <=? o); [|done]. by destruct (Z.leb_spec bytes ISIZE_MAX).
  - repeat (apply list.Forall_cons; split); try apply list.Forall_nil; try done;
      try (left; reflexivity); right; vm_compute; eexists; reflexivity.
Defined.
