(* ===== verification/Properties.v ===== *)
(** * The properties of a session

    [VTSessionSetProperty] and [VTSessionCopyProperty]: what is set is what is
    copied, the references stay exact, and the keys the sixteen entries cannot hold
    are told apart. *)

From S2P Require Import Prelude Wire Protocol Layout Backend Transport Objects Release Refcount.
From S2P Require Import ReleaseSafe CoreFoundation Ownership Access CoreMedia CoreVideo Pixels Attachments Samples Client.
From S2P Require Import VideoToolbox Pending.
From stdpp Require Import strings gmultiset fin_maps.

Set Default Goal Selector "!".
Open Scope Z_scope.

(** ** Keys *)

(** A key that survives: at most 63 bytes, none of them zero. *)
Definition key_fits (key : list byte) : Prop :=
  (length key <= 63)%nat /\ Forall (fun b => byte.unsigned b <> 0) key.

Lemma position_zeros (l : list byte) n : Forall (fun b => byte.unsigned b <> 0) l -> (0 < n)%nat ->
  position (fun b => byte.unsigned b =? 0) (l ++ replicate n Byte.x00) = Some (length l).
Proof.
  intros Hl Hn. rewrite position_app. assert (position (fun b => byte.unsigned b =? 0) l = None) as ->.
  { induction Hl as [|b l Hb _ IH]; [done|]. simpl. rewrite (proj2 (Z.eqb_neq _ _) Hb). by rewrite IH. }
  destruct n as [|n]; [lia|]. simpl. f_equal. lia.
Qed.

Lemma stored_key_fill key v : key_fits key ->
  stored_key (mk_vtf_vt_session_property (fill_key_bytes key) v) = key.
Proof.
  intros [Hl Hz]. unfold stored_key, fill_key_bytes, fill_bytes. simpl prop_key.
  rewrite (take_ge key) by lia. rewrite position_zeros by (done || lia). simpl.
  by rewrite take_app_length.
Qed.

(** ** The entries *)

Definition entries (s : vtf_vt_session) : list vtf_vt_session_property :=
  take (Z.to_nat (vts_stored_property_count s)) (vts_stored_properties s).

Definition entry_index (s : vtf_vt_session) (key : list byte) : option nat :=
  position (fun p => bool_decide (stored_key p = key)) (entries s).

(** The value of a key. *)
Definition stored_value (s : vtf_vt_session) (key : list byte) : option Z :=
  i ← entry_index s key; prop_value <$> entries s !! i.

Definition with_value (s : vtf_vt_session) (key : list byte) (v : Z) : vtf_vt_session :=
  match entry_index s key with
  | Some i =>
      s <| vts_stored_properties ::= (fun l : list vtf_vt_session_property =>
             <[i := mk_vtf_vt_session_property (from_option prop_key [] (l !! i)) v]> l) |>
  | None =>
      s <| vts_stored_properties ::= (fun l : list vtf_vt_session_property =>
             <[Z.to_nat (vts_stored_property_count s) := mk_vtf_vt_session_property (fill_key_bytes key) v]> l) |>
        <| vts_stored_property_count := vts_stored_property_count s + 1 |>
  end.

Lemma entry_found s key i : entry_index s key = Some i -> exists p,
  entries s !! i = Some p /\ vts_stored_properties s !! i = Some p /\ stored_key p = key /\
  (i < Z.to_nat (vts_stored_property_count s))%nat.
Proof.
  intros (p & Hp & E & _)%position_Some. exists p. pose proof Hp as Hl%lookup_lt_Some.
  unfold entries in *. rewrite length_take in Hl. rewrite lookup_take_lt in Hp by lia.
  apply bool_decide_eq_true_1 in E. split_and!; try done; [by rewrite lookup_take_lt by lia|lia].
Qed.

Lemma position_insert {A} (P : A -> bool) (l : list A) i x y : l !! i = Some x -> P y = P x ->
  position P (<[i := y]> l) = position P l.
Proof.
  revert i. induction l as [|a l IH]; intros [|i] Hi E; simplify_eq/=; [by rewrite E|].
  destruct (P a); [done|]. by rewrite (IH i).
Qed.

Lemma entries_found s key v i p : entry_index s key = Some i -> entries s !! i = Some p ->
  entries (with_value s key v) = <[i := mk_vtf_vt_session_property (prop_key p) v]> (entries s).
Proof.
  intros Hi Hp. destruct (entry_found s key i Hi) as (p' & Hp' & Hs & _ & Hlt). simplify_eq.
  unfold with_value. rewrite Hi. unfold entries. simpl. rewrite Hs. simpl. by rewrite take_insert_lt.
Qed.

Lemma entries_new s key v : vts_ok s -> entry_index s key = None ->
  vts_stored_property_count s < len (vts_stored_properties s) ->
  entries (with_value s key v) = entries s ++ [mk_vtf_vt_session_property (fill_key_bytes key) v].
Proof.
  intros [Hc _ _ _] Hi Hlt. unfold with_value. rewrite Hi. unfold entries. simpl.
  replace (Z.to_nat (vts_stored_property_count s + 1)) with (S (Z.to_nat (vts_stored_property_count s))) by lia.
  by rewrite take_insert_end by lia.
Qed.

Definition may_store (s : vtf_vt_session) (key : list byte) : Prop :=
  is_Some (entry_index s key) \/ vts_stored_property_count s < len (vts_stored_properties s).

Lemma stored_value_set s key v k : vts_ok s -> key_fits key -> may_store s key ->
  stored_value (with_value s key v) k = if bool_decide (k = key) then Some v else stored_value s k.
Proof.
  intros Hok Hk Hm. unfold stored_value, entry_index. destruct (entry_index s key) as [i|] eqn:Hi.
  - destruct (entry_found s key i Hi) as (p & Hp & _ & Ek & _).
    rewrite (entries_found s key v i p Hi Hp).
    assert (position (fun q => bool_decide (stored_key q = k))
      (<[i := mk_vtf_vt_session_property (prop_key p) v]> (entries s)) =
      position (fun q => bool_decide (stored_key q = k)) (entries s)) as -> by (by eapply position_insert).
    case_bool_decide as E; [subst k|].
    + unfold entry_index in Hi. rewrite Hi. simpl. by rewrite list_lookup_insert_eq by (by eapply lookup_lt_Some).
    + destruct (position _ (entries s)) as [j|] eqn:Hj; [|done]. simpl.
      rewrite list_lookup_insert_ne; [done|]. intros <-.
      apply position_Some in Hj as (p' & Hp' & E'%bool_decide_eq_true_1 & _). simplify_eq.
  - destruct Hm as [[? ?]|Hlt]; [congruence|]. rewrite (entries_new s key v Hok Hi Hlt), position_app.
    unfold entry_index in Hi. case_bool_decide as E; [subst k|].
    + rewrite Hi. simpl. rewrite stored_key_fill by done. rewrite bool_decide_eq_true_2 by done. simpl.
      by rewrite Nat.add_0_r, lookup_app_r, Nat.sub_diag by done.
    + destruct (position (fun p => bool_decide (stored_key p = k)) (entries s)) as [j|] eqn:Hj; simpl.
      * apply position_Some in Hj as (p' & Hp' & _). by rewrite lookup_app_l by (by eapply lookup_lt_Some).
      * rewrite stored_key_fill by done. by rewrite bool_decide_eq_false_2.
Qed.

Lemma delete_insert_at {A} (l : list A) i x : delete i (<[i := x]> l) = delete i l.
Proof. revert i. induction l as [|a l IH]; intros [|i]; simpl; try done. f_equal. apply IH. Qed.

Section properties.
Context {os : Type} `{!Net os} `{!Profile} `{!App os} (env : environ).
Implicit Types (w : guest os) (own m : gmultiset Z).
Abbreviation pan := (overflow_checks = true).

Lemma find_property_run w s key : vts_ok s -> find_property (os:=os) s key w =
  Done (i ← entry_index s key; p ← entries s !! i; Some (i, p), w).
Proof.
  intros [Hc _ _ _]. unfold find_property. fold (entries s). fold (entry_index s key).
  destruct (entry_index s key) as [i|] eqn:Hi; simpl.
  - by destruct (entry_found s key i Hi) as (p & -> & _).
  - by destruct (Z.gtb_spec (vts_stored_property_count s) (len (vts_stored_properties s))); [lia|].
Qed.

(** ** Replacing a reference of an object

    The old value is released, then the new one retained; [b'] is the body with the
    new one. *)
Lemma typed_kept X C own w C' w' p m q o k :
  kept ∅ C w C' w' -> heap_ok X C' own w' -> C' !! p = Some m -> q ∈ m ->
  gs_heap w !! q = Some o -> type_of (ob_body o) = k ->
  exists o', gs_heap w' !! q = Some o' /\ type_of (ob_body o') = k.
Proof.
  intros K Hw' Hm Hq Ho Hk.
  assert (q ∈ dom C') as Hd by (apply (ho_refs _ _ _ _ Hw'), gmultiset_elem_of_disj_union; right; by eapply total_lookup).
  pose proof (ho_live _ _ _ _ Hw' q Hd) as [o' Ho']%elem_of_dom.
  destruct (k_live _ _ _ _ _ K q o' Hd Ho') as (o0 & Ho0 & Es). simplify_eq.
  exists o'. split; [done|]. by rewrite (shape_type _ _ Es).
Qed.

Lemma replace_ok own w p o b' old value rest :
  counted own w -> p ∈ own -> gs_heap w !! p = Some o ->
  (forall o', shape_eq o o' -> ob_body o' = ob_body o) ->
  refs_of (body_fields (ob_body o)) = refs_of [old] ⊎ rest ->
  refs_of (body_fields b') = refs_of [value] ⊎ rest ->
  typed_fields b' = typed_fields (ob_body o) ->
  (forall q k, (q, k) ∈ typed_fields b' -> q <> 0 -> q ∈ rest) ->
  (forall o', shape_eq o o' -> object_ok o' -> object_ok (set_body b' o')) ->
  body_blocks b' = body_blocks (ob_body o) -> type_of b' = type_of (ob_body o) ->
  lasting own w value -> room 1 w ->
  gwp pan (_ ← CFRelease env old; CFRetain value) (fun r w' => r = value /\
    ob_body <$> gs_heap w' !! p = Some (ob_body o) /\ counted own (rebodied p b' w') /\
    alive_gap w' = alive_gap w) w.
Proof.
  intros Hw Hp Ho Hsh Er Er' Ety Hrest Hob Hbl Et Hv Hr.
  assert (credits (gs_heap w) !! p = Some (refs_of [old] ⊎ rest)) as HC by (by rewrite credits_lookup, Ho, <- Er).
  pose proof (heap_ok_take _ _ _ _ _ _ _ Hw HC) as Ht. rewrite union_empty_r_L in Ht.
  set (C1 := <[p := rest]> (credits (gs_heap w))) in *.
  assert (dom (gs_heap w) ⊆ dom C1) as Hd by (unfold C1; rewrite dom_insert, dom_credits; set_solver).
  eapply gwp_seq; [apply (CFRelease_lasting env {[p]} C1 own w old value); [exact Ht| |done]|].
  { by intros q ->%elem_of_singleton. }
  intros [] w1 (C2 & Hw1 & K & Eg & Hv2). pose proof (kept_dom _ _ _ _ K Hd) as Hd1.
  destruct (heap_ok_lookup _ _ _ _ p Hw1 Hp) as (o1 & m1 & Ho1 & Hm1 & Hok1 & _).
  assert (m1 = rest) as ->.
  { pose proof (lookup_weaken _ _ _ _ Hm1 (k_sub _ _ _ _ _ K)) as E. unfold C1 in E.
    rewrite lookup_insert_eq in E. by simplify_eq. }
  destruct (k_live _ _ _ _ _ K p o1) as (o0 & Ho0 & Es); [apply elem_of_dom; eauto|done|]. simplify_eq.
  destruct (CFRetain_eq {[p]} C2 own w1 value Hw1 Hv2) as [E2 Hw2];
    [by eapply room_released; [exact Ht|exact Hw1|..]|].
  unfold gwp. rewrite E2. set (w2 := retained value w1) in *.
  assert (ob_body <$> gs_heap w2 !! p = Some (ob_body o)) as Hb2
    by (unfold w2; rewrite retained_body, Ho1; simpl; by rewrite (Hsh o1 Es)).
  split_and!; [done|done| |unfold w2; by rewrite retained_gap].
  pose proof (heap_ok_give _ _ _ _ _ _ _ Hw2 Hm1) as Hg. rewrite union_idemp_L in Hg.
  pose proof Hb2 as (o2 & Ho2 & Eo2)%fmap_body.
  eapply rebodied_settle; [exact Hg|exact Ho2|..].
  - rewrite dom_insert. unfold w2, retained. simpl. rewrite dom_alter_L. set_solver.
  - by rewrite lookup_insert_eq, Er'.
  - apply Hob; [|exact (ho_object _ _ _ _ Hw2 p o2 Ho2)].
    unfold w2 in Ho2. rewrite retained_lookup, Ho1 in Ho2. simpl in Ho2. injection Ho2 as <-.
    case_decide; [|done]. etrans; [exact Es|apply bump_shape].
  - by rewrite Hbl, Eo2.
  - by rewrite Et, Eo2.
  - intros q k Hq Hq0. rewrite Ety in Hq.
    destruct (typed_live own w p o q k Hw Ho Hq Hq0) as (oq & Hoq & Hk).
    rewrite <- Ety in Hq.
    destruct (typed_kept _ _ _ _ _ _ p rest q oq k K Hw1 Hm1 (Hrest q k Hq Hq0) Hoq Hk) as (oq' & Hoq' & Hk').
    assert (ob_body <$> gs_heap w2 !! q = Some (ob_body oq')) as (oq2 & Hoq2 & E2')%fmap_body
      by (unfold w2; by rewrite retained_body, Hoq').
    exists oq2. split; [done|]. by rewrite E2'.
Qed.

(** ** Setting a property *)

Lemma session_not_static o s : object_ok o -> ob_body o = VtSession s -> ~ is_static o.
Proof. intros Ho E [Hs|Hs]%(oo_static _ Ho); by rewrite E in Hs. Qed.

Lemma shape_session o o' s : shape_eq o o' -> ob_body o = VtSession s -> ob_body o' = VtSession s.
Proof.
  intros E%(f_equal ob_body) Eo. simpl in E. rewrite Eo in E. by destruct (ob_body o'); simplify_eq/=.
Qed.

Lemma session_ok_of own w p s : counted own w -> ob_body <$> gs_heap w !! p = Some (VtSession s) -> vts_ok s.
Proof.
  intros Hw (o & Ho & E)%fmap_body. pose proof (oo_counts _ (ho_object _ _ _ _ Hw p o Ho)) as Hb.
  by rewrite E in Hb.
Qed.

(** The references of a session but for one stored value. *)
Definition session_rest (s : vtf_vt_session) (i : nat) : gmultiset Z :=
  refs_of (vts_pixel_buffer_pool s :: delete i (stored_values s) ++ pending_buffers s ++
    [vts_source_image_buffer_attributes s; vts_properties s]).

Lemma stored_values_entries s : stored_values s = prop_value <$> entries s.
Proof. done. Qed.

Lemma session_refs s i v : stored_values s !! i = Some v ->
  refs_of (body_fields (VtSession s)) = refs_of [v] ⊎ session_rest s i.
Proof.
  intros Hi. simpl. unfold session_rest. rewrite (refs_cons (vts_pixel_buffer_pool s) (stored_values s ++ _)),
    (refs_cons (vts_pixel_buffer_pool s) (delete i _ ++ _)), !refs_app, (refs_delete _ _ _ Hi). multiset_solver.
Qed.

Lemma with_value_view s key v : pending_buffers (with_value s key v) = pending_buffers s /\
  vts_pixel_buffer_pool (with_value s key v) = vts_pixel_buffer_pool s /\
  vts_source_image_buffer_attributes (with_value s key v) = vts_source_image_buffer_attributes s /\
  vts_properties (with_value s key v) = vts_properties s.
Proof. unfold with_value. by destruct (entry_index s key). Qed.

Lemma with_value_ok s key v : vts_ok s -> may_store s key -> vts_ok (with_value s key v).
Proof.
  intros [H1 H0 [H2 H3 H4] H5] Hm. unfold with_value. destruct (entry_index s key) as [i|] eqn:Hi.
  - split; [simpl; by rewrite length_insert..|by split|done].
  - destruct Hm as [[? ?]|Hlt]; [congruence|].
    split; [simpl; rewrite length_insert; lia|simpl; by rewrite length_insert|by split|done].
Qed.

Lemma typed_with_value s key v :
  typed_fields (VtSession (with_value s key v)) = typed_fields (VtSession s).
Proof. simpl. by destruct (with_value_view s key v) as (-> & -> & _ & _). Qed.

Lemma typed_rest s i q k : (q, k) ∈ typed_fields (VtSession s) -> q <> 0 -> q ∈ session_rest s i.
Proof.
  intros Hq Hq0. apply elem_of_refs. split; [done|]. simpl in Hq.
  apply elem_of_cons in Hq as [[= -> _]|(x & [= -> _] & Hx)%list_elem_of_fmap]; set_solver.
Qed.

Lemma set_found_property own w p s key value i :
  counted own w -> p ∈ own -> ob_body <$> gs_heap w !! p = Some (VtSession s) ->
  entry_index s key = Some i -> lasting own w value -> room 1 w -> exists e, entries s !! i = Some e /\
  gwp pan (_ ← CFRelease env (prop_value e); value ← CFRetain value;
           _ ← set_property_at i (mk_vtf_vt_session_property (prop_key e) value) p; mret 0)
    (fun r w' => r = 0 /\ counted own w' /\ alive_gap w' = alive_gap w /\
       ob_body <$> gs_heap w' !! p = Some (VtSession (with_value s key value))) w.
Proof.
  intros Hw Hp Hs Hi Hv Hr. pose proof Hs as (o & Ho & Eo)%fmap_body.
  pose proof (session_ok_of own w p s Hw Hs) as Hok.
  destruct (entry_found s key i Hi) as (e & He & Hse & Ek & Hlt). exists e. split; [done|].
  assert (stored_values s !! i = Some (prop_value e)) as Hval
    by (rewrite stored_values_entries, list_lookup_fmap, He; done).
  assert (stored_values (with_value s key value) = <[i := value]> (stored_values s)) as Ev
    by (rewrite !stored_values_entries, (entries_found s key value i e Hi He), list_fmap_insert; done).
  unfold gwp. rewrite bind_assoc.
  destruct (with_value_view s key value) as (V1 & V2 & V3 & V4).
  eapply gwp_seq; [apply (replace_ok own w p o (VtSession (with_value s key value)) _ value (session_rest s i));
    rewrite ?Eo; try done|].
  - intros o' Es. by rewrite (shape_session o o' s Es Eo).
  - by apply session_refs.
  - rewrite (session_refs (with_value s key value) i value).
    + f_equal. unfold session_rest. rewrite V1, V2, V3, V4, Ev. by rewrite delete_insert_at.
    + rewrite Ev. apply list_lookup_insert_eq. by eapply lookup_lt_Some.
  - apply typed_with_value.
  - intros q k. rewrite typed_with_value. apply typed_rest.
  - intros o' Es Ho'. apply object_ok_body; rewrite ?(shape_session o o' s Es Eo); try done.
    + by eapply session_not_static, shape_session.
    + apply with_value_ok; [done|left; eauto].
  - intros r w1 (-> & Hb1 & Hc1 & Hg1). rewrite Eo in Hb1.
    assert (set_property_at i (mk_vtf_vt_session_property (prop_key e) value) p w1 =
      Done (tt, rebodied p (VtSession (with_value s key value)) w1)) as E.
    { unfold set_property_at. rewrite (bind_eq _ _ _ _ _ (as_session_run w1 p s Hb1)).
      pose proof (lookup_lt_Some _ _ _ Hse).
      destruct (Z.geb_spec (Z.of_nat i) (len (vts_stored_properties s))); [lia|].
      rewrite (proj1 (put_session_run w1 p s _ Hb1)).
      unfold with_value. rewrite Hi. do 4 f_equal. destruct s. simpl in *. by rewrite Hse. }
    unfold gwp. rewrite (bind_eq _ _ _ _ _ E). split_and!; [done|done|by rewrite rebodied_gap|].
    apply fmap_body in Hb1 as (o1 & Ho1 & _). by rewrite (rebodied_lookup _ _ _ o1 Ho1).
Qed.

Lemma set_new_property own w p s key value :
  counted own w -> p ∈ own -> ob_body <$> gs_heap w !! p = Some (VtSession s) ->
  entry_index s key = None -> vts_stored_property_count s < len (vts_stored_properties s) ->
  lasting own w value -> room 1 w ->
  exists w', (value ← CFRetain value;
     _ ← set_property_at (Z.to_nat (vts_stored_property_count s))
           (mk_vtf_vt_session_property (fill_key_bytes key) value) p;
     count ← of_rust (arith 64 (vts_stored_property_count s + 1));
     s ← as_vt_session p;
     _ ← put_body p (VtSession (s <| vts_stored_property_count := count |>)); mret 0) w = Done (0, w') /\
  counted own w' /\ alive_gap w' = alive_gap w /\
  ob_body <$> gs_heap w' !! p = Some (VtSession (with_value s key value)).
Proof.
  intros Hw Hp Hs Hi Hlt Hv Hr. pose proof (session_ok_of own w p s Hw Hs) as Hok.
  pose proof (vo_stored _ Hok) as Hc. pose proof (vo_slots _ Hok) as Hslots.
  assert (live (credits (gs_heap w)) value) as Hl by (by apply lasting_live with own).
  destruct (CFRetain_eq ∅ _ own w value Hw Hl Hr) as [E Hw1]. set (w1 := retained value w) in *.
  assert (ob_body <$> gs_heap w1 !! p = Some (VtSession s)) as Hs1 by (unfold w1; by rewrite retained_body).
  set (s1 := s <| vts_stored_properties ::= insert (Z.to_nat (vts_stored_property_count s))
    (mk_vtf_vt_session_property (fill_key_bytes key) value) |>).
  rewrite (bind_eq _ _ _ _ _ E). destruct (put_session_run w1 p s s1 Hs1) as [E1 Hs2].
  assert (set_property_at (Z.to_nat (vts_stored_property_count s))
    (mk_vtf_vt_session_property (fill_key_bytes key) value) p w1 = Done (tt, rebodied p (VtSession s1) w1)) as E2.
  { unfold set_property_at. rewrite (bind_eq _ _ _ _ _ (as_session_run w1 p s Hs1)).
    destruct (Z.geb_spec (Z.of_nat (Z.to_nat (vts_stored_property_count s))) (len (vts_stored_properties s)));
      [lia|exact E1]. }
  rewrite (bind_eq _ _ _ _ _ E2).
  assert ((of_rust (arith 64 (vts_stored_property_count s + 1)) : G os Z) (rebodied p (VtSession s1) w1) =
    Done (vts_stored_property_count s + 1, rebodied p (VtSession s1) w1)) as E3
    by (unfold of_rust; by rewrite arith_in by lia).
  rewrite (bind_eq _ _ _ _ _ E3), (bind_eq _ _ _ _ _ (as_session_run _ p s1 Hs2)).
  set (s2 := s1 <| vts_stored_property_count := _ |>).
  destruct (put_session_run _ p s1 s2 Hs2) as [E4 Hs4]. rewrite (bind_eq _ _ _ _ _ E4), rebodied_rebodied in *.
  assert (s2 = with_value s key value) as Es by (unfold with_value; by rewrite Hi). rewrite Es in *.
  eexists. split; [done|]. split_and!; [|by rewrite rebodied_gap; apply retained_gap|exact Hs4].
  pose proof Hs1 as (o1 & Ho1 & Eo1)%fmap_body. destruct (with_value_view s key value) as (V1 & V2 & V3 & V4).
  assert (stored_values (with_value s key value) = stored_values s ++ [value]) as Ev.
  { rewrite !stored_values_entries, (entries_new s key value Hok Hi Hlt), fmap_app. done. }
  eapply (counted_give _ (refs_of [value])); [unfold counted, w1; rewrite retained_credits; exact Hw1|exact Ho1|..];
    rewrite ?Eo1; try done.
  - apply object_ok_body; rewrite ?Eo1; try done.
    + eapply (ho_object _ _ _ _ Hw1 p o1 Ho1).
    + eapply session_not_static; [eapply (ho_object _ _ _ _ Hw1 p o1 Ho1)|exact Eo1].
    + apply with_value_ok; [done|by right].
  - simpl. rewrite V1, V2, V3, V4, Ev, <- app_assoc. simpl.
    rewrite (refs_cons (vts_pixel_buffer_pool s) (stored_values s ++ value :: _)),
      (refs_cons (vts_pixel_buffer_pool s) (stored_values s ++ pending_buffers s ++ _)), !refs_app,
      (refs_cons value (pending_buffers s ++ _)), refs_app. multiset_solver.
  - intros q k. rewrite typed_with_value. intros Hq Hq0.
    eapply (typed_live _ w1 p o1); [unfold counted, w1; rewrite retained_credits; exact Hw1|exact Ho1| |done].
    by rewrite Eo1.
Qed.

(** A refusal to fill a payload is an error. *)
Definition errors {A} (m : G os (A + Z)) : Prop := forall w st w', m w = Done (inr st, w') -> st <> 0.

Lemma errors_bind {A B} (m : G os A) (f : A -> G os (B + Z)) : (forall a, errors (f a)) -> errors (m ≫= f).
Proof. intros Hf w st w'. unfold mbind, G_bind. destruct (m w) as [[a w1]| | |]; try done. apply Hf. Qed.
Lemma errors_ret {A} (r : A + Z) : (forall st, r = inr st -> st <> 0) -> errors (mret r).
Proof. intros Hr w st w' [= E _]. by apply Hr. Qed.
Lemma errors_try {A B} (m : G os (A + Z)) (k : A -> G os (B + Z)) :
  errors m -> (forall a, errors (k a)) -> errors (try_bind m k).
Proof.
  intros Hm Hk w st w'. unfold try_bind, mbind, G_bind. destruct (m w) as [[[a|e] w1]| | |] eqn:E; try done.
  - apply Hk.
  - intros [= <- _]. by eapply Hm.
Qed.

Ltac errors := repeat match goal with
  | |- errors (match ?x with _ => _ end) => destruct x
  | |- errors (_ ≫= _) => apply errors_bind; intros
  | |- errors (try_bind _ _) => apply errors_try; [|intros]
  | |- errors (mret _) => apply errors_ret; intros ? [=]; lia
  end.

Lemma number_errors p : errors (number_i64 p).
Proof. unfold number_i64. apply errors_bind. intros [ok out]. apply errors_ret. case_match; intros ? [=]; lia. Qed.

Lemma pair_errors get : errors (pair_numbers get).
Proof. induction get; simpl; errors; first [apply number_errors|apply IHget]. Qed.

Lemma fill_status p key kb value : errors (vtf_fill_set_property_payload p key kb value).
Proof. unfold vtf_fill_set_property_payload. cbv zeta. errors; apply number_errors || apply pair_errors. Qed.

Lemma transport_call_ok {A} own w (m : T os A) : counted own w -> calm m ->
  gwp pan (transport_call m) (fun _ w' => exists t, w' = w <| gs_transport := t |>) w.
Proof.
  intros Hw Hm. specialize (Hm (gs_transport w)). unfold gwp, transport_call, twp in *.
  destruct (m (gs_transport w)) as [[r t]|]; [by eexists|done].
Qed.

(** What a session stores after a call that returned [r]. *)
Definition set_result (s : vtf_vt_session) (key : list byte) (value r : Z) (s' : vtf_vt_session) : Prop :=
  (r = 0 /\ may_store s key /\ s' = with_value s key value) \/ (r <> 0 /\ s' = s).

Lemma set_property_counted own w p s key kb value :
  counted own w -> p ∈ own -> ob_body <$> gs_heap w !! p = Some (VtSession s) -> vts_invalidated s = false ->
  key <> 0 -> value <> 0 -> cfstring_to_string key w = Done (Some kb, w) ->
  (exists payload, vtf_fill_set_property_payload p key kb value w = Done (payload, w)) ->
  lasting own w value -> room 1 w ->
  gwp pan (VTSessionSetProperty env p key value) (fun r w' => counted own w' /\ alive_gap w' = alive_gap w /\
    exists s', ob_body <$> gs_heap w' !! p = Some (VtSession s') /\ set_result s kb value r s') w.
Proof.
  intros Hw Hp Hs Hinv Hk Hval Ekb [payload Epay] Hv Hr.
  pose proof (session_ok_of own w p s Hw Hs) as Hok. pose proof Hs as (o & Ho & Eo)%fmap_body.
  unfold VTSessionSetProperty.
  rewrite (proj2 (Z.eqb_neq p 0) (body_nonzero _ _ _ _ Hw Hs)), (proj2 (Z.eqb_neq key 0) Hk), (proj2 (Z.eqb_neq value 0) Hval).
  change (false || false || false) with false. cbv iota. unfold gwp.
  assert (get_object p w = Done (o, w)) as Eg by (unfold get_object; by rewrite Ho).
  rewrite (bind_eq _ _ _ _ _ Eg), (oo_type _ (ho_object _ _ _ _ Hw p o Ho)), Eo.
  change (type_of (VtSession s) =? VTF_TYPE_VT_DECOMPRESSION_SESSION) with false. cbv iota.
  rewrite (bind_eq _ _ _ _ _ (as_session_run w p s Hs)), Hinv, (bind_eq _ _ _ _ _ Ekb), (bind_eq _ _ _ _ _ Epay).
  destruct payload as [payload|status].
  2: { split_and!; [done..|]. exists s. split; [done|right]. split; [|done]. by eapply fill_status. }
  pose proof (transport_call_ok own w (send_request_unit env OP_SET_PROPERTY payload) Hw
    (unit_calm env OP_SET_PROPERTY payload)) as Hc.
  eapply gwp_seq; [exact Hc|]. clear Hc. intros [u|st] w1 (t & ->).
  2: { split_and!; [by apply counted_transport|done|]. exists s. split; [done|by right]. }
  set (w1 := w <| gs_transport := t |>). assert (counted own w1) as Hw1 by (by apply counted_transport).
  unfold gwp. rewrite (bind_eq _ _ _ _ _ (as_session_run w1 p s Hs)), (bind_eq _ _ _ _ _ (find_property_run w1 s kb Hok)).
  destruct (entry_index s kb) as [i|] eqn:Hi; cbn [mbind option_bind].
  - destruct (set_found_property own w1 p s kb value i Hw1 Hp Hs Hi Hv Hr) as (e & He & Hg). rewrite He. cbn [mbind option_bind].
    eapply gwp_mono; [exact Hg|]. intros r w2 (-> & Hw2 & Hg2 & Hs2). split_and!; [done..|].
    eexists. split; [exact Hs2|]. left. split_and!; [done| |done]. left. by eexists.
  - destruct (Z.geb_spec (vts_stored_property_count s) (len (vts_stored_properties s))) as [?|Hlt].
    { split_and!; [done..|]. exists s. split; [done|by right]. }
    destruct (set_new_property own w1 p s kb value Hw1 Hp Hs Hi ltac:(lia) Hv Hr) as (w2 & E2 & Hw2 & Hg2 & Hs2).
    unfold w1 in *. cbv zeta. rewrite E2. split_and!; [done..|]. eexists. split; [exact Hs2|]. left. split_and!; [done| |done]. right. lia.
Qed.

(** ** Copying a property *)

Definition copied (value : option Z) : Z * option Z :=
  match value with Some v => (0, Some v) | None => (-12900, Some 0) end.

Lemma copy_property_ok own w p s key kb :
  counted own w -> ob_body <$> gs_heap w !! p = Some (VtSession s) -> vts_invalidated s = false ->
  key <> 0 -> cfstring_to_string key w = Done (Some kb, w) -> room 1 w ->
  exists w', VTSessionCopyProperty p key true w = Done (copied (stored_value s kb), w') /\
    counted (refs_of (option_list (stored_value s kb)) ⊎ own) w'.
Proof.
  intros Hw Hs Hinv Hk Ekb Hr. pose proof (session_ok_of own w p s Hw Hs) as Hok.
  pose proof Hs as (o & Ho & Eo)%fmap_body. unfold VTSessionCopyProperty.
  rewrite (proj2 (Z.eqb_neq p 0) (body_nonzero _ _ _ _ Hw Hs)), (proj2 (Z.eqb_neq key 0) Hk).
  change (false || false || negb true) with false. cbv iota.
  assert (get_object p w = Done (o, w)) as Eg by (unfold get_object; by rewrite Ho).
  rewrite (bind_eq _ _ _ _ _ Eg), (oo_type _ (ho_object _ _ _ _ Hw p o Ho)), Eo.
  change (type_of (VtSession s) =? VTF_TYPE_VT_DECOMPRESSION_SESSION) with false. cbv iota.
  rewrite (bind_eq _ _ _ _ _ (as_session_run w p s Hs)), Hinv, (bind_eq _ _ _ _ _ Ekb),
    (bind_eq _ _ _ _ _ (find_property_run w s kb Hok)).
  unfold stored_value. destruct (entry_index s kb) as [i|] eqn:Hi; cbn [mbind option_bind].
  2: { exists w. split; [done|]. simpl. rewrite refs_nil. by rewrite (left_id_L ∅ (⊎)). }
  destruct (entry_found s kb i Hi) as (e & He & _). rewrite He. cbn [mbind option_bind option_fmap fmap option_map].
  assert (live (credits (gs_heap w)) (prop_value e)) as Hl.
  { pose proof (field_live own w p o Hw Ho) as Hl. rewrite Eo in Hl. eapply list.Forall_forall; [exact Hl|].
    simpl. apply elem_of_cons. right. apply elem_of_app. left. rewrite stored_values_entries.
    apply list_elem_of_fmap. exists e. split; [done|]. by eapply list_elem_of_lookup_2. }
  destruct (CFRetain_eq ∅ _ own w _ Hw Hl Hr) as [E Hc].
  rewrite (bind_eq _ _ _ _ _ E). eexists. split; [done|]. unfold counted. by rewrite retained_credits.
Qed.

(** ** A new session *)

Lemma session_create_ok own w width height codec attributes callback refcon f :
  counted own w -> vtf_source_pixel_format_from_attributes attributes w = Done (f, w) ->
  live (credits (gs_heap w)) attributes -> room 1 w ->
  gwp pan (VTCompressionSessionCreate env width height codec attributes callback refcon true)
    (fun r w' => (r.1 <> 0 /\ counted own w') \/
       exists p, r = (0, Some p) /\
         made (VtSession (new_session width height codec f attributes callback refcon)) own w p w') w.
Proof.
  intros Hw Ef Hl Hr. unfold VTCompressionSessionCreate. change (negb true) with false.
  destruct (false || (width <=? 0) || (height <=? 0)); [left; split; [done|exact Hw]|].
  destruct (negb (is_enabled env)); [left; split; [done|exact Hw]|].
  unfold gwp. rewrite (bind_eq _ _ _ _ _ Ef).
  eapply gwp_seq; [apply (transport_call_ok own w); [done|unfold create_session; calm]|].
  intros [id|st] w1 (t & ->); [|left; split; [done|by apply counted_transport]].
  set (w1 := w <| gs_transport := t |>). assert (counted own w1) as Hw1 by (by apply counted_transport).
  unfold gwp. set (w2 := w1 <| gs_alive ::= (fun n => as_signed 64 (n + 1)) |>).
  rewrite (bind_eq (vtf_cf_object_with_host_id _ _ _ _ _) _ w1 w2 _ eq_refl).
  assert (heap_ok ∅ (credits (gs_heap w)) own w2) as Hw2 by (by eapply heap_ok_ext; [..|exact Hw1]).
  destruct (CFRetain_eq ∅ _ own w2 attributes Hw2 Hl Hr) as [E _].
  destruct (CFRetain_eq ∅ _ own w1 attributes Hw1 Hl Hr) as [_ Hc1]. rewrite (bind_eq _ _ _ _ _ E).
  set (s := new_session _ _ _ _ _ _ _).
  destruct (new_made (VtSession s) (mk_vtf_cf_object VTF_OBJECT_MAGIC VTF_TYPE_VT_SESSION 1 0 id 1 id
    (Some Finalize_vt_session)) own (retained attributes w1) (retained attributes w2))
    as (r & w3 & En & Hm); try done.
  - unfold counted. rewrite retained_credits.
    assert (refs_of (body_fields (VtSession s)) = refs_of [attributes]) as ->; [|exact Hc1].
    change (body_fields (VtSession s)) with [0; attributes; 0].
    rewrite (refs_cons 0), refs_null, (refs_cons attributes [0]), refs_null. multiset_solver.
  - split; [constructor|constructor| | |].
    + split; [by vm_compute|done| |by vm_compute]. split; [by vm_compute..|by left].
    + intros q k [[= -> ->]|[]%elem_of_nil]%elem_of_cons Hq. done.
    + intros x n []%elem_of_nil.
  - rewrite (bind_eq _ _ _ _ _ En). right. exists r. split; [done|].
    assert (made (VtSession s) own w r w3) as [M1 M2 M3 M4 M5 M6 M7].
    { revert Hm. apply made_from; [intros x; by rewrite retained_body|done|by rewrite retained_gap|].
      apply (statics_trans w w1); [by apply statics_refl|apply statics_retained]. }
    split; try done. by eapply heap_ok_ext; [..|exact M1].
Qed.

(** C14: what is set is what is copied.  [VTSessionSetProperty] on a live session, of
    a key that fits an entry and a value the caller may use, keeps every reference
    count exact whatever the worker answers; afterwards [VTSessionCopyProperty] of
    any key gives, with a reference of the caller's own, the value just set if it is
    that key and the call returned 0, and what it gave before otherwise. *)
Theorem property_set_copy own w session s key kb value
    (Hw : counted own w) (Hp : session ∈ own)
    (Hs : ob_body <$> gs_heap w !! session = Some (VtSession s)) (Hinv : vts_invalidated s = false)
    (Hk : key <> 0) (Hval : value <> 0) (Ekb : cfstring_to_string key w = Done (Some kb, w))
    (Hfit : key_fits kb)
    (Epay : exists payload, vtf_fill_set_property_payload session key kb value w = Done (payload, w))
    (Hv : lasting own w value) (Hr : room 1 w) :
  gwp pan (VTSessionSetProperty env session key value) (fun r w' =>
    counted own w' /\
    forall key' kb', key' <> 0 -> cfstring_to_string key' w' = Done (Some kb', w') -> room 1 w' ->
    let v := if (r =? 0) && bool_decide (kb' = kb) then Some value else stored_value s kb' in
    exists w'', VTSessionCopyProperty session key' true w' = Done (copied v, w'') /\
      counted (refs_of (option_list v) ⊎ own) w'') w.
Proof.
  eapply gwp_mono; [by apply (set_property_counted own w session s key kb value)|].
  intros r w' (Hw' & _ & s' & Hs' & Hres). split; [done|]. intros key' kb' Hk' Ekb' Hr'.
  assert (vts_invalidated s' = false) as Hinv'.
  { destruct Hres as [(_ & _ & ->)|[_ ->]]; [|done]. unfold with_value. by destruct (entry_index s kb). }
  destruct (copy_property_ok own w' session s' key' kb' Hw' Hs' Hinv' Hk' Ekb' Hr') as (w2 & E & Hc).
  exists w2. assert (stored_value s' kb' =
    if (r =? 0) && bool_decide (kb' = kb) then Some value else stored_value s kb') as <-; [|done].
  destruct Hres as [(-> & Hm & ->)|[Hne ->]].
  - rewrite (stored_value_set s kb value kb' (session_ok_of own w session s Hw Hs) Hfit Hm). by case_bool_decide.
  - by rewrite (proj2 (Z.eqb_neq r 0) Hne).
Qed.
End properties.

(** ** A concrete run

    The worker makes the session, and accepts the property. *)

#[local] Instance recorded_answers : Net (list byte) := {|
  net_connect _ s := (Some 3, s);
  net_setsockopt _ _ _ s := (true, s);
  net_write_all _ _ s := (true, s);
  net_read_exact _ n s := if (length s <? n)%nat then (None, s) else (Some (take n s), drop n s);
  net_now _ := 0
|}.
#[local] Instance release_profile : Profile := release_build.

Definition reply_of {A} `{!Pod A} (a : A) : list byte :=
  bytes_of (mk_MessageHeader VTF_TRANSPORT_VERSION 0 0 1 (Z.of_nat (size_of A)) STATUS_OK) ++ bytes_of a.
Definition accepted : list byte := bytes_of (mk_MessageHeader VTF_TRANSPORT_VERSION 0 0 1 0 STATUS_OK).
Definition tcp_env : environ := fun name =>
  if bool_decide (name = "VT_FERRY_TRANSPORT") then Some "tcp"%string else None.
Definition session_tape : transport (list byte) :=
  mk_transport None false [] None (reply_of (mk_CreateSessionReply 5 640 360 0 0) ++ accepted).

Definition set0 : guest (list byte) := guest_start session_tape.
Definition made_session : Z * guest (list byte) :=
  match VTCompressionSessionCreate tcp_env 640 360 VTF_VIDEO_CODEC_H264 0 None 0 true set0 with
  | Done ((_, Some p), w) => (p, w)
  | _ => (0, set0)
  end.
Definition set_session : Z := made_session.1.
Definition set1 : guest (list byte) := made_session.2.
Definition real_time : Z := symbol "kVTCompressionPropertyKey_RealTime".
Definition real_time_key : list byte :=
  match cfstring_to_string real_time set1 with Done (Some kb, _) => kb | _ => [] end.

Lemma set_step : VTCompressionSessionCreate tcp_env 640 360 VTF_VIDEO_CODEC_H264 0 None 0 true set0 =
  Done ((0, Some set_session), set1).
Proof. by vm_compute. Qed.

Lemma set1_made : exists f,
  made (VtSession (new_session 640 360 VTF_VIDEO_CODEC_H264 f 0 None 0)) ∅ set0 set_session set1.
Proof.
  exists 0x34323076.
  pose proof (session_create_ok tcp_env ∅ set0 640 360 VTF_VIDEO_CODEC_H264 0 None 0 0x34323076
    (start_counted _) eq_refl (or_introl eq_refl)) as Hc.
  unfold gwp in Hc. rewrite set_step in Hc.
  destruct Hc as [[? _]|(p & [= <-] & Hm)]; [apply room_tested; by vm_compute|done|done].
Qed.

Definition set2 : guest (list byte) :=
  match VTSessionSetProperty tcp_env set_session real_time kCFBooleanTrue set1 with
  | Done (_, w) => w
  | _ => set1
  end.

Lemma set_step2 :
  VTSessionSetProperty tcp_env set_session real_time kCFBooleanTrue set1 = Done (0, set2).
Proof. by vm_compute. Qed.

Lemma set_key1 : cfstring_to_string real_time set1 = Done (Some real_time_key, set1).
Proof. by vm_compute. Qed.
Lemma set_key2 : cfstring_to_string real_time set2 = Done (Some real_time_key, set2).
Proof. by vm_compute. Qed.
Lemma set_payload : exists payload,
  vtf_fill_set_property_payload set_session real_time real_time_key kCFBooleanTrue set1 = Done (payload, set1).
Proof.
  exists (match vtf_fill_set_property_payload set_session real_time real_time_key kCFBooleanTrue set1 with
          | Done (p, _) => p | _ => inr 0 end). by vm_compute.
Qed.
Lemma set_rooms : room 1 set1 /\ room 1 set2.
Proof. split; apply room_tested; by vm_compute. Qed.

Lemma property_set_copy_witness : exists w'',
  VTSessionSetProperty tcp_env set_session real_time kCFBooleanTrue set1 = Done (0, set2) /\
  VTSessionCopyProperty set_session real_time true set2 = Done ((0, Some kCFBooleanTrue), w'') /\
  counted (refs_of [kCFBooleanTrue] ⊎ ({[+ set_session +]} ⊎ ∅)) w''.
Proof.
  destruct set1_made as (f & Hm). destruct set_rooms as [R1 R2].
  assert (lasting ({[+ set_session +]} ⊎ ∅) set1 kCFBooleanTrue) as Hv.
  { right. right. exists (static_boolean true). split; by vm_compute. }
  assert (key_fits real_time_key) as Hfit.
  { split; [apply Nat.leb_le; by vm_compute|]. vm_compute. repeat constructor; discriminate. }
  pose proof (property_set_copy tcp_env ({[+ set_session +]} ⊎ ∅) set1 set_session _ real_time real_time_key
    kCFBooleanTrue (made_counted _ _ _ _ _ Hm) ltac:(multiset_solver) (made_body _ _ _ _ _ Hm) eq_refl
    ltac:(by vm_compute) ltac:(by vm_compute) set_key1 Hfit set_payload Hv R1) as Hc.
  unfold gwp in Hc. rewrite set_step2 in Hc. destruct Hc as [Hw' Hcopy].
  destruct (Hcopy real_time real_time_key ltac:(by vm_compute) set_key2 R2) as (w'' & E2 & Hw2).
  rewrite bool_decide_eq_true_2 in E2, Hw2 by done. exists w''. split_and!; [exact set_step2|exact E2|exact Hw2].
Defined.
