(* ===== verification/Sessions.v ===== *)
(** * Compression sessions

    The delivery of encoded frames to the application: every output becomes a sample
    buffer that holds its bytes and parameter sets, the application's callback gets
    it, and afterwards every object is counted as before, whatever the callback kept
    or gave back. *)

From S2P Require Import Prelude Wire Protocol Layout Backend Transport Objects Release Refcount.
From S2P Require Import ReleaseSafe CoreFoundation Ownership Access CoreMedia CoreVideo Pixels Attachments.
From S2P Require Import Samples VideoToolbox Pending Properties Platform.
From stdpp Require Import strings gmultiset fin_maps relations.

Set Default Goal Selector "!".
Open Scope Z_scope.

Section sessions.
Context {os : Type} `{!Net os} `{!Profile} `{!App os} (env : environ).
Implicit Types (w : guest os) (own lib app m : gmultiset Z).
Abbreviation pan := (overflow_checks = true).

(** ** Changes of one object *)

Lemma stays_sub lib lib' w w' : lib ⊆ lib' -> stays lib' w w' -> stays lib w w'.
Proof. intros Hl [H1 H2 H3]. split; [|done..]. intros p b Hp. apply H1. by eapply gmultiset_elem_of_subseteq. Qed.

Lemma stays_next lib w w1 w2 : stays lib w w1 -> stays lib w1 w2 -> stays lib w w2.
Proof. by apply stays_trans. Qed.

Lemma rebodied_stays p b b' w lib :
  ob_body <$> gs_heap w !! p = Some b -> kin b b' -> body_blocks b' = body_blocks b ->
  stays lib w (rebodied p b' w).
Proof.
  intros (o & Ho & Eo)%fmap_body Hk Eb. split.
  - intros q c _ Hc. destruct (decide (q = p)) as [->|Hne].
    + rewrite Ho in Hc. injection Hc as <-. exists b'. rewrite (rebodied_lookup _ _ _ o Ho), Eo. done.
    + exists c. rewrite rebodied_others by done. split; [done|apply kin_refl].
  - intros q oq Hq Hs. destruct (decide (q = p)) as [->|Hne]; [|exists oq; by rewrite rebodied_others].
    simplify_eq. eexists. by rewrite (rebodied_lookup _ _ _ o Ho).
  - intros x bs [Hx Hp]. split; [done|]. intros q oq n Hq. destruct (decide (q = p)) as [->|Hne].
    + rewrite (rebodied_lookup _ _ _ o Ho) in Hq. injection Hq as <-. simpl. rewrite Eb, <- Eo. by apply (Hp p o).
    + rewrite rebodied_others in Hq by done. by apply (Hp q oq).
Qed.

Lemma rebodied_credits p b w o : gs_heap w !! p = Some o ->
  credits (gs_heap (rebodied p b w)) = <[p := refs_of (body_fields b)]> (credits (gs_heap w)).
Proof.
  intros Ho. apply map_eq. intros q. rewrite credits_lookup. destruct (decide (q = p)) as [->|Hne].
  - by rewrite (rebodied_lookup _ _ _ o Ho), lookup_insert_eq.
  - by rewrite rebodied_others, lookup_insert_ne, credits_lookup.
Qed.

(** ** Sessions and pending frames *)

Definition session_at w session : Prop := exists s, ob_body <$> gs_heap w !! session = Some (VtSession s).

Lemma session_stays lib w w' session : session ∈ lib -> stays lib w w' -> session_at w session -> session_at w' session.
Proof.
  intros Hl [Hb _ _] (s & Hs). destruct (Hb session _ Hl Hs) as (b & Hb' & Et & _).
  destruct b; try done. by eexists.
Qed.

Record moved lib own w own' w' : Prop := {
  mv_counted : counted own' w';
  mv_stays : stays lib w w';
  mv_gap : alive_gap w' = alive_gap w;
  mv_uses : forall p, uses own' w' p = uses own w p;
  mv_room : forall n, room n w -> room n w';
  mv_blocks : gs_blocks w' = gs_blocks w;
  mv_os : os_of w' = os_of w
}.

(** The session without its first frame. *)
Definition without_frame (s : vtf_vt_session) (l r : list Z) : vtf_vt_session :=
  s <| vts_pending_image_buffers := Some l |> <| vts_pending_source_frame_refcons := Some r |>
    <| vts_pending_count := vts_pending_count s - 1 |>.

Lemma without_frame_refs s l r x : pending_buffers s = x :: pending_buffers (without_frame s l r) ->
  refs_of (body_fields (VtSession s)) = refs_of [x] ⊎ refs_of (body_fields (VtSession (without_frame s l r))).
Proof.
  intros Epb. cbn [body_fields]. rewrite Epb. set (s' := without_frame s l r).
  change (stored_values s') with (stored_values s). change (vts_pixel_buffer_pool s') with (vts_pixel_buffer_pool s).
  change (vts_source_image_buffer_attributes s') with (vts_source_image_buffer_attributes s).
  change (vts_properties s') with (vts_properties s).
  rewrite (refs_cons _ (stored_values s ++ (x :: _) ++ _)), (refs_cons _ (stored_values s ++ pending_buffers s' ++ _)), !refs_app.
  rewrite (refs_cons x). clear. multiset_solver.
Qed.

Lemma pop_ok own w session lib : counted own w -> session_at w session ->
  exists src refcon w', vtf_pop_pending_image_buffer session w = Done ((src, refcon), w') /\
    moved lib own w (refs_of [src] ⊎ own) w' /\ typed w' src VTF_TYPE_PIXEL_BUFFER.
Proof.
  intros Hw (s & Hs). pose proof (session_ok_of _ _ _ _ Hw Hs) as [V1 V2 [Hc Hb Ha] V4].
  unfold vtf_pop_pending_image_buffer. rewrite (bind_eq _ _ _ _ _ (as_session_run w session s Hs)).
  destruct (Z.eqb_spec (vts_pending_count s) 0) as [E0|E0].
  { exists 0, 0, w. split; [done|]. split; [|by intros []]. rewrite refs_null, (left_id_L ∅ (⊎)).
    split; try done. by apply stays_refl. }
  destruct Ha as [(E & _)|(l & r & El & Er & Hl & Hr)]; [lia|]. rewrite El.
  rewrite bool_decide_eq_false_2 by done. change (false || false) with false. cbv iota.
  set (n := Z.to_nat (vts_pending_count s)).
  assert (vts_pending_count s = Z.of_nat n) as En by (unfold n; lia).
  destruct (take_first_run w n l) as (x & l' & Ex & Hx & Hl' & Tl); [lia|].
  destruct (take_first_run w n r) as (y & r' & Ey & Hy & Hr' & Tr); [lia|].
  rewrite Er. rewrite <- En in Ex, Ey. rewrite (bind_eq _ _ _ _ _ Ex), (bind_eq _ _ _ _ _ Ey).
  set (s' := without_frame s l' r').
  destruct (put_session_run w session s s' Hs) as [E1 Hs1]. rewrite (bind_eq _ _ _ _ _ E1).
  exists x, y, (rebodied session (VtSession s') w). split; [done|].
  assert (pending_buffers s = x :: pending_buffers s') as Epb.
  { unfold pending_buffers. rewrite El. simpl. fold n. replace (Z.to_nat (vts_pending_count s - 1)) with (n - 1)%nat by lia.
    rewrite Tl. destruct l as [|x0 l]; [done|]. destruct n as [|n']; [lia|]. simpl in Hx |- *. injection Hx as ->. by rewrite drop_0. }
  pose proof Hs as (o & Ho & Eo)%fmap_body. pose proof (ho_object _ _ _ _ Hw session o Ho) as Hok.
  pose proof (without_frame_refs s l' r' x Epb) as Er1. fold s' in Er1.
  assert (forall q k, (q, k) ∈ typed_fields (VtSession s) -> q <> 0 ->
    exists o', gs_heap w !! q = Some o' /\ type_of (ob_body o') = k) as Hty.
  { intros q k Hq. eapply typed_live; [exact Hw|exact Ho|]. by rewrite Eo. }
  assert (counted (refs_of [x] ⊎ own) (rebodied session (VtSession s') w)) as Hc'.
  { eapply counted_take; [exact Hw|exact Ho| | | | |]; rewrite ?Eo; try done.
    - destruct Hok as [O1 O2 O3 O4 O5 O6]. split; simpl; rewrite ?Eo in *; try done.
      split; try done. split; simpl; [lia|done|]. right. exists l', r'. split_and!; [done..| |]; congruence.
    - intros q k Hq. apply Hty. simpl in Hq |- *. rewrite Epb. simpl. set_solver. }
  split.
  - split; [done| |by rewrite rebodied_gap| |by apply rebodied_room|done|done].
    + eapply rebodied_stays; [exact Hs|by split|done].
    + intros p. unfold uses. rewrite (rebodied_credits _ _ _ o Ho).
      assert (credits (gs_heap w) !! session = Some (refs_of (body_fields (VtSession s)))) as HC
        by (by rewrite credits_lookup, Ho; simpl; rewrite Eo).
      rewrite (total_delete _ _ _ HC), Er1, <- insert_delete_eq, total_insert by apply lookup_delete_eq.
      rewrite !multiplicity_disj_union. lia.
  - intros Hx0. destruct (Hty x VTF_TYPE_PIXEL_BUFFER) as (o' & Ho' & Et); [|done|].
    { simpl. rewrite Epb. simpl. set_solver. }
    destruct (decide (x = session)) as [->|Hne]; [|exists o'; by rewrite rebodied_others].
    simplify_eq. by rewrite Eo in Et.
Qed.

(** ** A sample and what it holds *)

Lemma uses_field own w p o q : gs_heap w !! p = Some o ->
  (multiplicity q own + multiplicity q (refs_of (body_fields (ob_body o))) <= uses own w q)%nat.
Proof.
  intros Ho. unfold uses. assert (credits (gs_heap w) !! p = Some (refs_of (body_fields (ob_body o)))) as HC
    by (by rewrite credits_lookup, Ho).
  rewrite (total_delete _ _ _ HC), !multiplicity_disj_union. lia.
Qed.

Lemma typed_not_static own w p ty : counted own w -> p <> 0 -> typed w p ty ->
  ty <> VTF_TYPE_STRING -> ty <> VTF_TYPE_BOOLEAN -> exists o, gs_heap w !! p = Some o /\ ~ is_static o.
Proof.
  intros Hw Hp Ht H1 H2. destruct (Ht Hp) as (o & Ho & Et). exists o. split; [done|].
  intros [Es|Es]%(oo_static _ (ho_object _ _ _ _ Hw p o Ho)); congruence.
Qed.

(** Giving up a reference to something the sample refers to as well. *)
Lemma release_held own w smp sb p ty :
  counted (refs_of [p] ⊎ own) w -> ob_body <$> gs_heap w !! smp = Some (SampleBuffer sb) ->
  (p, ty) ∈ typed_fields (SampleBuffer sb) ->
  exists w', CFRelease env p w = Done (tt, w') /\ enlarged (refs_of [p] ⊎ own) w own w' /\
    gs_blocks w' = gs_blocks w /\ (forall q, ob_body <$> gs_heap w' !! q = ob_body <$> gs_heap w !! q) /\
    forall q, uses own w' q = uses own w q.
Proof.
  intros Hw Hs Hp. destruct (decide (p = 0)) as [->|Hp0].
  { exists w. rewrite refs_null, (left_id_L ∅ (⊎)) in *. split_and!; try done. split; try done. by apply statics_refl. }
  pose proof Hs as (o & Ho & Eo)%fmap_body.
  assert (p ∈ refs_of (body_fields (ob_body o)) /\ ty <> VTF_TYPE_STRING /\ ty <> VTF_TYPE_BOOLEAN) as (Hf & T1 & T2).
  { rewrite Eo, elem_of_refs. simpl in *. set_unfold in Hp. destruct_or!; simplify_eq; split_and!; try done; set_solver. }
  rewrite refs_single in * by done.
  destruct (release_second env own w p Hw) as [E G].
  - pose proof (uses_field ({[+ p +]} ⊎ own) w smp o p Ho) as U.
    rewrite multiplicity_disj_union, multiplicity_singleton, decide_True in U by done.
    unfold elem_of, gmultiset_elem_of in Hf. lia.
  - eapply typed_not_static; [exact Hw|done| |exact T1|exact T2].
    intros _. eapply typed_live; [exact Hw|exact Ho|by rewrite Eo|done].
  - exists (dropped p w). split_and!; [done|done|done|apply dropped_body|].
    intros q. apply uses_credits. apply map_eq. intros x. rewrite !credits_lookup.
    pose proof (dropped_body p w x) as Eq.
    destruct (gs_heap (dropped p w) !! x), (gs_heap w !! x); try done. simpl in *. by injection Eq as ->.
Qed.

(** What the application can read from a sample. *)
Record shows w (sample : Z) (sb : vtf_cm_sample_buffer) (bs : list byte) (bss : list (list byte)) : Prop := {
  sh_sample : ob_body <$> gs_heap w !! sample = Some (SampleBuffer sb);
  sh_data : exists bb, ob_body <$> gs_heap w !! smp_data_buffer sb = Some (BlockBuffer bb) /\ block_holds w bb bs;
  sh_format : exists fd, ob_body <$> gs_heap w !! smp_format_description sb = Some (FormatDescription fd) /\
    format_holds w fd bss
}.

Definition constants w : Prop :=
  constant w kCMSampleAttachmentKey_NotSync /\ constant w kCFBooleanTrue /\ constant w kCFBooleanFalse.

Lemma constants_stay w w' : statics_stay w w' -> constants w -> constants w'.
Proof. intros Hst (H1 & H2 & H3). split_and!; by eapply constant_stays. Qed.

Lemma constants_sync w flags : constants w -> constant w (sync_value flags).
Proof. intros (_ & H1 & H2). unfold sync_value. by case_match. Qed.

(** Where the bytes of an output are while it is delivered. *)
Definition bytes_at (x : Z) (bs : list byte) : rawptr := if decide (bs = []) then dangling else Some (x, 0).

(** The objects in [extra] are new or constant. *)
Definition harmless w (extra : gmultiset Z) : Prop :=
  (size extra <= 8)%nat /\ forall p o, p ∈ extra -> gs_heap w !! p = Some o -> is_static o.

Record made_sample L w src blk fd smp sb bs bss w3 : Prop := {
  ms_nonzero : blk <> 0 /\ fd <> 0 /\ smp <> 0;
  ms_enlarged : enlarged (refs_of [src] ⊎ L) w
    (refs_of [src] ⊎ (refs_of [blk] ⊎ (refs_of [fd] ⊎ ({[+ smp +]} ⊎ L)))) w3;
  ms_shows : shows w3 smp sb bs bss;
  ms_fields : smp_data_buffer sb = blk /\ smp_format_description sb = fd /\ smp_source_image_buffer sb = src;
  ms_uses : exists extra, harmless w extra /\ forall p,
    (uses (refs_of [src] ⊎ (refs_of [blk] ⊎ (refs_of [fd] ⊎ ({[+ smp +]} ⊎ L)))) w3 p <=
     uses (refs_of [src] ⊎ L) w p + multiplicity p (extra ⊎ (refs_of [src] ⊎ (refs_of [blk] ⊎ refs_of [fd]))))%nat
}.

Lemma make_sample_ok L src w x bs codec width height count sizes data nal pts dts size flags id :
  counted (refs_of [src] ⊎ L) w -> room 3 w -> constants w -> typed w src VTF_TYPE_PIXEL_BUFFER ->
  len bs <= ISIZE_MAX -> bs = [] \/ private x bs w ->
  len data <= ISIZE_MAX -> Forall (fun n => 0 <= n < 2 ^ 32) sizes ->
  exists blk w1 fd w2 smp w3 a,
    vtf_create_block_buffer_from_bytes (bytes_at x bs) (len bs) w = Done (blk, w1) /\
    vtf_create_video_format_description codec width height count sizes data nal w1 = Done (fd, w2) /\
    vtf_create_sample_buffer env blk fd pts dts size flags id src w2 = Done (smp, w3) /\
    (forall q b, ob_body <$> gs_heap w !! q = Some b -> ob_body <$> gs_heap w1 !! q = Some b) /\
    made_sample L w src blk fd smp (mk_vtf_cm_sample_buffer blk fd dts pts size a src id) bs
      (cut_sets (take (Z.to_nat (Z.min count 4)) sizes) 0 data) w3.
Proof.
  intros Hw Hr Hk Ht Hl Hbs Hd Hs. set (own0 := refs_of [src] ⊎ L) in *.
  destruct (block_from_bytes_ok own0 w x bs Hw Hl Hbs) as (blk & w1 & bb & E1 & B1 & H1).
  pose proof (born_counted _ _ _ _ _ B1) as Hw1. pose proof (born_enlarged _ _ _ _ _ B1) as G1.
  destruct (create_format_ok ({[+ blk +]} ⊎ own0) w1 codec width height count sizes data nal Hw1 Hd Hs)
    as (fd & w2 & f & E2 & B2 & H2 & Ef). set (bss := cut_sets _ 0 data) in *.
  pose proof (born_counted _ _ _ _ _ B2) as Hw2. pose proof (born_enlarged _ _ _ _ _ B2) as G2.
  pose proof (enlarged_trans _ _ _ _ _ _ G1 G2) as G12.
  assert (gs_heap w !! fd = None) as Nfd by (eapply enlarged_absent; [exact G1|apply B2]).
  assert (forall p, uses ({[+ fd +]} ⊎ ({[+ blk +]} ⊎ own0)) w2 p =
    (uses own0 w p + multiplicity p ({[+ fd; blk +]}))%nat) as U2.
  { intros p. rewrite (born_uses _ _ _ _ _ p B2), (born_uses _ _ _ _ _ p B1). cbn [body_fields].
    assert (fd_extensions f = 0) as -> by (by rewrite Ef).
    rewrite refs_null, refs_nil, !(right_id_L ∅ (⊎)), !multiplicity_disj_union. lia. }
  assert (room 3 w2) as Hr2.
  { eapply (room_from own0 w _ w2 3 {[+ fd; blk +]}); [done|exact Hw2|apply G12|intros p; by rewrite U2| | |done].
    - intros p o Hp Ho. exfalso. pose proof (born_new _ _ _ _ _ B1). set_unfold in Hp. destruct_or!; by simplify_eq.
    - rewrite !gmultiset_size_disj_union, !gmultiset_size_singleton. done. }
  pose proof (born_body _ _ _ _ _ B1) as Hblk1. pose proof (en_bodies _ _ _ _ G2 _ _ Hblk1) as Hblk2.
  pose proof (born_body _ _ _ _ _ B2) as Hfd2.
  pose proof (constants_stay _ _ (en_static _ _ _ _ G12) Hk) as Hk2.
  destruct (create_sample_ok env ({[+ fd +]} ⊎ ({[+ blk +]} ⊎ own0)) w2 blk fd pts dts size flags id src)
    as (smp & w3 & a & E3 & S3); [done|done|apply Hk2|by apply constants_sync| | |by eapply enlarged_typed|].
  { intros _. apply fmap_body in Hblk2 as (o & Ho & Eo). exists o. by rewrite Eo. }
  { intros _. apply fmap_body in Hfd2 as (o & Ho & Eo). exists o. by rewrite Eo. }
  exists blk, w1, fd, w2, smp, w3, a. split_and!; [done..|apply G1|].
  pose proof (sm_enlarged _ _ _ _ _ _ _ _ _ _ S3) as G3. pose proof (enlarged_trans _ _ _ _ _ _ G12 G3) as G13.
  assert (blk <> 0) as Zb by (by eapply born_nonzero). assert (fd <> 0) as Zf by (by eapply born_nonzero).
  assert ({[+ smp +]} ⊎ ({[+ fd +]} ⊎ ({[+ blk +]} ⊎ own0)) =
    refs_of [src] ⊎ (refs_of [blk] ⊎ (refs_of [fd] ⊎ ({[+ smp +]} ⊎ L)))) as Eown.
  { unfold own0. rewrite (refs_single blk), (refs_single fd) by done. clear. multiset_solver. }
  split.
  - split_and!; [done..|]. exact (body_nonzero _ _ _ _ (en_counted _ _ _ _ G3) (sm_body _ _ _ _ _ _ _ _ _ _ S3)).
  - by rewrite Eown in G13.
  - destruct H1 as (Hown & Hlen & Hbb), H2 as [Hcnt Hsets]. split; [exact (sm_body _ _ _ _ _ _ _ _ _ _ S3)| |].
    + exists bb. split; [by apply G3|]. split_and!; [done..|]. destruct Hbb as [|(y & Ey & Hy)]; [by left|right].
      exists y. split; [done|]. eapply lookup_weaken; [exact Hy|]. etrans; [apply G2|apply G3].
    + exists f. split; [by apply G3|]. split; [done|]. intros i b Hi.
      destruct (Hsets i b Hi) as (y & Y1 & Y2 & Y3). exists y. split_and!; [done..|].
      eapply lookup_weaken; [exact Y3|apply G3].
  - done.
  - destruct (sm_attachments _ _ _ _ _ _ _ _ _ _ S3) as (d & Na & Nd & _ & _ & U3). simpl in Na, U3.
    exists ({[+ fd; blk +]} ⊎ {[+ smp; a; d +]} ⊎ refs_of [kCMSampleAttachmentKey_NotSync; sync_value flags]).
    split; [split|].
    + rewrite !gmultiset_size_disj_union, !gmultiset_size_singleton.
      pose proof (refs_size [kCMSampleAttachmentKey_NotSync; sync_value flags]). simpl in *. lia.
    + pose proof (enlarged_absent _ _ _ _ _ G12 Na). pose proof (enlarged_absent _ _ _ _ _ G12 Nd).
      pose proof (enlarged_absent _ _ _ _ _ G12 (sm_new _ _ _ _ _ _ _ _ _ _ S3)).
      pose proof (born_new _ _ _ _ _ B1). pose proof (constants_sync w flags Hk) as (ov & Hov & Hsv).
      destruct Hk as ((ok & Hok & Hsk) & _). intros p o Hp Ho. rewrite !gmultiset_elem_of_disj_union, elem_of_refs in Hp.
      set_unfold in Hp. destruct_or!; destruct_and?; destruct_or?; by simplify_eq.
    + intros p. specialize (U3 p). rewrite Eown in U3. specialize (U2 p). unfold own0 in U2, U3.
      rewrite (refs_cons blk [fd; src]), (refs_cons fd [src]) in U3. rewrite !multiplicity_disj_union in *. lia.
Qed.

Lemma shows_same w w' smp sb bs bss : gs_blocks w' = gs_blocks w ->
  (forall q, ob_body <$> gs_heap w' !! q = ob_body <$> gs_heap w !! q) ->
  shows w smp sb bs bss -> shows w' smp sb bs bss.
Proof.
  intros Eb Eq [H1 (bb & H2 & H3) (fd & H4 & H5)]. unfold block_holds, format_holds in *.
  split; [by rewrite Eq|exists bb|exists fd]; unfold block_holds, format_holds; by rewrite Eq, Eb.
Qed.

(** The library gives up its references to the parts of the sample. *)
Lemma settle_sample L w src blk fd smp sb bs bss w3 : counted (refs_of [src] ⊎ L) w ->
  made_sample L w src blk fd smp sb bs bss w3 ->
  exists w4 w5 w6,
    (if negb (src =? 0) then CFRelease env src else mret tt) w3 = Done (tt, w4) /\
    CFRelease env blk w4 = Done (tt, w5) /\ CFRelease env fd w5 = Done (tt, w6) /\
    enlarged (refs_of [src] ⊎ L) w ({[+ smp +]} ⊎ L) w6 /\ shows w6 smp sb bs bss /\
    forall n, n < 2 ^ 30 -> room n w -> room n w6.
Proof.
  intros Hw [_ G3 S3 (F1 & F2 & F3) (extra & [Hsz Hex] & U)].
  pose proof (sh_sample _ _ _ _ _ S3) as B3.
  destruct (release_held (refs_of [blk] ⊎ (refs_of [fd] ⊎ ({[+ smp +]} ⊎ L))) w3 smp sb src VTF_TYPE_PIXEL_BUFFER)
    as (w4 & E4 & G4 & K4 & Q4 & U4); [apply G3|done|simpl; rewrite F3; set_solver|].
  destruct (release_held (refs_of [fd] ⊎ ({[+ smp +]} ⊎ L)) w4 smp sb blk VTF_TYPE_BLOCK_BUFFER)
    as (w5 & E5 & G5 & K5 & Q5 & U5); [apply G4|by rewrite Q4|simpl; rewrite F1; set_solver|].
  destruct (release_held ({[+ smp +]} ⊎ L) w5 smp sb fd VTF_TYPE_FORMAT_DESCRIPTION)
    as (w6 & E6 & G6 & K6 & Q6 & U6); [apply G5|by rewrite Q5, Q4|simpl; rewrite F2; set_solver|].
  exists w4, w5, w6. assert (enlarged (refs_of [src] ⊎ L) w ({[+ smp +]} ⊎ L) w6) as G.
  { eapply enlarged_trans; [exact G3|]. eapply enlarged_trans; [exact G4|]. by eapply enlarged_trans. }
  split_and!; [|done..| |].
  - destruct (Z.eqb_spec src 0) as [->|]; [|done]. by rewrite <- E4.
  - eapply shows_same; [| |exact S3]; [congruence|]. intros q. by rewrite Q6, Q5, Q4.
  - intros n Hn Hr. apply (room_from (refs_of [src] ⊎ L) w ({[+ smp +]} ⊎ L) w6 n extra); [done|apply G|apply G| |done|lia|done].
    intros p. specialize (U p). specialize (U4 p). specialize (U5 p). specialize (U6 p).
    rewrite !uses_own in U. rewrite !uses_own in U4. rewrite !uses_own in U5. rewrite !uses_own in U6.
    rewrite !uses_own, !multiplicity_disj_union in *. lia.
Qed.

(** ** Steps that leave the counts alone *)

Lemma gwp_eq_bind {A B} (m : G os A) (f : A -> G os B) a w w' Q :
  m w = Done (a, w') -> gwp pan (f a) Q w' -> gwp pan (m ≫= f) Q w.
Proof. intros E Hf. unfold gwp. by rewrite (bind_eq _ _ _ _ _ E). Qed.

Record steady own lib w w' : Prop := {
  qt_counted : counted own w';
  qt_stays : stays lib w w';
  qt_gap : alive_gap w' = alive_gap w;
  qt_room : forall n, room n w -> room n w';
  qt_os : os_runs (os_of w) (os_of w')
}.

Lemma steady_trans own own' lib lib' w w1 w2 : lib ⊆ lib' ->
  steady own lib w w1 -> steady own' lib' w1 w2 -> steady own' lib w w2.
Proof.
  intros Hl [A1 A2 A3 A4 A5] [B1 B2 B3 B4 B5]. split; [done|by eapply stays_trans|congruence|auto|by etrans].
Qed.

Lemma steady_same own lib w w' : counted own w -> gs_heap w' = gs_heap w -> gs_blocks w' = gs_blocks w ->
  gs_next w' = gs_next w -> gs_alive w' = gs_alive w -> os_runs (os_of w) (os_of w') -> steady own lib w w'.
Proof.
  intros Hw Eh Eb En Ea Ro. split; [..|done].
  - unfold counted. rewrite Eh. by eapply heap_ok_ext.
  - by apply stays_refl.
  - unfold alive_gap. by rewrite Eh, Ea.
  - intros n Hr p o. rewrite Eh. apply Hr.
Qed.

Lemma steady_transport own lib w t : counted own w -> os_runs (os_of w) (tp_os t) ->
  steady own lib w (w <| gs_transport := t |>).
Proof. intros Hw Ro. by apply steady_same. Qed.

(** What a program that only makes system calls does to the platform. *)
Lemma gwp_runs {A} (m : G os A) Q w : calls_only m -> gwp pan m Q w ->
  gwp pan m (fun a w' => Q a w' /\ os_runs (os_of w) (os_of w')) w.
Proof. intros Hm. unfold gwp. destruct (m w) as [[a w']| | |] eqn:E; try done. intros HQ. split; [done|by eapply Hm]. Qed.

Lemma transport_call_runs {A} own w (m : T os A) : counted own w -> calm m -> sends_only m ->
  gwp pan (transport_call m) (fun _ w' => exists t, w' = w <| gs_transport := t |> /\ os_runs (os_of w) (tp_os t)) w.
Proof.
  intros Hw Hm Hs. eapply gwp_mono; [apply gwp_runs; [by apply only_transport|by eapply transport_call_ok]|].
  intros a w' [(t & ->) Ro]. by exists t.
Qed.

Lemma call_steady {A} own lib w (m : T os A) : counted own w -> calm m -> sends_only m ->
  gwp pan (transport_call m) (fun _ w' => steady own lib w w') w.
Proof.
  intros Hw Hm Hs. eapply gwp_mono; [by eapply transport_call_runs|]. intros a w' (t & -> & Ro).
  by apply steady_transport.
Qed.

Lemma put_pixel_steady own lib w p b b' :
  counted own w -> ob_body <$> gs_heap w !! p = Some (PixelBuffer b) ->
  pixel_view b' = pixel_view b -> px_lock_snapshot b' = px_lock_snapshot b ->
  px_lock_snapshot_size b' = px_lock_snapshot_size b ->
  px_pool_ref b' = px_pool_ref b -> px_attachments b' = px_attachments b ->
  exists w', put_body p (PixelBuffer b') w = Done (tt, w') /\ steady own lib w w' /\
    ob_body <$> gs_heap w' !! p = Some (PixelBuffer b').
Proof.
  intros Hw Hb Ev El En Ep Ea. destruct (set_pixel_ok own w p b b' Hw Hb Ev El En Ep Ea) as [E [C1 C2 C3 C4 C5]].
  eexists. split; [exact E|]. split; [split; [done| |done|intros n; by apply rebodied_room|done]|done].
  eapply rebodied_stays; [exact Hb|by split|]. unfold body_blocks, body_boxes.
  injection Ev as _ -> -> -> _ _ _ _ _ _. by rewrite El, En.
Qed.

Lemma typed_pixel w p : p <> 0 -> typed w p VTF_TYPE_PIXEL_BUFFER ->
  exists b, ob_body <$> gs_heap w !! p = Some (PixelBuffer b).
Proof.
  intros Hp Ht. destruct (Ht Hp) as (o & Ho & Et). rewrite Ho. destruct (ob_body o) eqn:E; try done.
  eexists. simpl. by rewrite E.
Qed.

Lemma recycle_steady own lib w p : counted own w -> p <> 0 -> typed w p VTF_TYPE_PIXEL_BUFFER ->
  gwp pan (vtf_recycle_pixel_buffer env p)
    (fun _ w' => steady own lib w w' /\ typed w' p VTF_TYPE_PIXEL_BUFFER) w.
Proof.
  intros Hw Hp Ht. destruct (typed_pixel w p Hp Ht) as [b Hb]. pose proof Hb as (o & Ho & Eo)%fmap_body.
  unfold vtf_recycle_pixel_buffer. rewrite (proj2 (Z.eqb_neq p 0) Hp).
  assert (get_object p w = Done (o, w)) as Eg by (unfold get_object; by rewrite Ho).
  eapply gwp_eq_bind; [exact Eg|]. eapply gwp_eq_bind; [by apply as_pixel_run|].
  destruct (px_recycled b); [apply gwp_ret; by split; [apply steady_same|]|].
  eapply gwp_seq; [apply (transport_call_runs own); [done|apply unit_calm|apply unit_sends]|].
  intros r w' (t & -> & Ro). pose proof (steady_transport own lib w t Hw Ro) as Q. destruct r as [[]|e]; [|by apply gwp_ret].
  destruct (put_pixel_steady own lib (w <| gs_transport := t |>) p b (b <| px_recycled := true |>))
    as (w' & E & Q' & Hb'); try done; [apply Q|].
  unfold gwp. rewrite E. split; [by eapply steady_trans|]. intros _.
  apply fmap_body in Hb' as (o' & Ho' & Eo'). exists o'. by rewrite Eo'.
Qed.

(** The source buffer is the application's again. *)
Definition return_buffer (src : Z) : G os unit :=
  if negb (src =? 0) then
    _ ← vtf_recycle_pixel_buffer env src;
    b ← as_pixel_buffer src;
    put_body src (PixelBuffer (b <| px_state := VTF_CV_BUFFER_STATE_GUEST_WRITABLE |>))
  else mret tt.

Lemma return_buffer_steady own lib w p : counted own w -> typed w p VTF_TYPE_PIXEL_BUFFER ->
  gwp pan (return_buffer p) (fun _ w' => steady own lib w w') w.
Proof.
  intros Hw Ht. unfold return_buffer. destruct (Z.eqb_spec p 0) as [->|Hp]; [by apply gwp_ret, steady_same|].
  change (negb false) with true. cbv iota. eapply gwp_seq; [by apply (recycle_steady own lib)|]. intros [] w1 [Q Ht1].
  destruct (typed_pixel w1 p Hp Ht1) as [b Hb]. eapply gwp_eq_bind; [by apply as_pixel_run|].
  destruct (put_pixel_steady own lib w1 p b (b <| px_state := VTF_CV_BUFFER_STATE_GUEST_WRITABLE |>))
    as (w' & E & Q' & _); try done; [apply Q|].
  unfold gwp. rewrite E. by eapply steady_trans.
Qed.

(** ** One output *)

(** What the application holds: the references its own memory lists, which the library's
    system calls do not change. *)
Context (ledger : os -> gmultiset Z).
Definition held w : gmultiset Z := ledger (os_of w).

(** The application ran: every object is counted with the references the application says
    it holds, the library's objects are there as before, and there is room in the counts. *)
Definition answered n lib w w' : Prop :=
  counted (lib ⊎ held w') w' /\ stays lib w w' /\ alive_gap w' = alive_gap w /\ room n w'.

(** The sample made of an output. *)
Definition parameter_sets (dq : DequeueOutputReply) : list (list byte) :=
  cut_sets (take (Z.to_nat (Z.min (dor_parameter_set_count dq) 4)) (dor_parameter_set_sizes dq)) 0
    (dor_parameter_set_data dq).

Record sample_of (dq : DequeueOutputReply) (size src : Z) (sb : vtf_cm_sample_buffer) : Prop := {
  so_pts : smp_presentation_timestamp sb =
    mk_CMTime (dor_pts_value dq) (dor_pts_timescale dq) kCMTimeFlags_Valid 0;
  so_size : smp_total_sample_size sb = size;
  so_output : smp_output_id sb = dor_output_id dq;
  so_source : smp_source_image_buffer sb = src
}.

Lemma reply_ranges (dq : DequeueOutputReply) : pod_ok dq = true ->
  len (dor_parameter_set_data dq) <= ISIZE_MAX /\ Forall (fun n => 0 <= n < 2 ^ 32) (dor_parameter_set_sizes dq).
Proof.
  intros Hok. pod_fields Hok. match goal with E : arr_ok _ _ _ = true |- _ => apply arr_ok_spec in E as [_ Hs] end.
  match goal with E : (_ =? _)%nat = true |- _ => apply Nat.eqb_eq in E as -> end. split; [done|].
  eapply Forall_impl; [exact Hs|]. intros n Hn. by apply (uint_ok_spec 4).
Qed.

(** The callback's turn, and what follows. *)
Definition call_back (callback refcon frame src sample : Z) : G os (unit + Z) :=
  _ ← app_output callback refcon frame 0 0 sample;
  _ ← return_buffer src;
  _ ← CFRelease env sample;
  mret (inl tt).

Lemma deliver_prefix L w session callback s dq size src frame x bs :
  counted (refs_of [src] ⊎ L) w -> ob_body <$> gs_heap w !! session = Some (VtSession s) -> room 3 w -> constants w ->
  typed w src VTF_TYPE_PIXEL_BUFFER -> len bs <= ISIZE_MAX -> bs = [] \/ private x bs w -> pod_ok dq = true ->
  exists smp sb w', deliver_sample env session callback dq size src frame (bytes_at x bs) (len bs) w =
      call_back callback (vts_output_refcon s) frame src smp w' /\ smp <> 0 /\
    shows w' smp sb bs (parameter_sets dq) /\ sample_of dq size src sb /\
    enlarged (refs_of [src] ⊎ L) w ({[+ smp +]} ⊎ L) w' /\ (forall n, n < 2 ^ 30 -> room n w -> room n w') /\
    os_runs (os_of w) (os_of w').
Proof.
  intros Hw Hs Hr Hk Ht Hl Hbs Hok. destruct (reply_ranges dq Hok) as [Hd Hsz].
  set (codec := if negb (dor_codec dq =? 0) then dor_codec dq else vts_codec_type s).
  destruct (make_sample_ok L src w x bs codec (as_signed 32 (dor_width dq)) (as_signed 32 (dor_height dq))
    (dor_parameter_set_count dq) (dor_parameter_set_sizes dq) (dor_parameter_set_data dq)
    (as_signed 32 (dor_nal_header_length dq)) (mk_CMTime (dor_pts_value dq) (dor_pts_timescale dq) kCMTimeFlags_Valid 0)
    kCMTimeInvalid size (dor_sample_flags dq) (dor_output_id dq))
    as (blk & w1 & fd & w2 & smp & w3 & a & E1 & E2 & E3 & B1 & M); try done.
  destruct (settle_sample _ _ _ _ _ _ _ _ _ _ Hw M) as (w4 & w5 & w6 & E4 & E5 & E6 & G6 & S6 & R6).
  destruct (ms_nonzero _ _ _ _ _ _ _ _ _ _ M) as (Zb & Zf & Zs).
  exists smp, (mk_vtf_cm_sample_buffer blk fd kCMTimeInvalid
    (mk_CMTime (dor_pts_value dq) (dor_pts_timescale dq) kCMTimeFlags_Valid 0) size a src (dor_output_id dq)), w6.
  assert (os_runs (os_of w) (os_of w6)) as Ro.
  { etrans; [by eapply block_only|]. etrans; [by eapply format_only|]. etrans; [by eapply sample_only|].
    etrans; [|etrans; [by eapply (release_only env blk)|by eapply (release_only env fd)]].
    destruct (negb (src =? 0)); [by eapply (release_only env src)|by injection E4 as <-]. }
  split; [|by split_and!].
  unfold deliver_sample. rewrite (bind_eq _ _ _ _ _ E1), (proj2 (Z.eqb_neq blk 0) Zb).
  rewrite (bind_eq _ _ _ _ _ (as_session_run w1 session s (B1 _ _ Hs))). cbv zeta. fold codec.
  rewrite (bind_eq _ _ _ _ _ E2), (proj2 (Z.eqb_neq fd 0) Zf), (bind_eq _ _ _ _ _ E3), (bind_eq _ _ _ _ _ E4).
  rewrite (bind_eq _ _ _ _ _ E5), (bind_eq _ _ _ _ _ E6), (proj2 (Z.eqb_neq smp 0) Zs).
  by rewrite (bind_eq _ _ _ _ _ (as_session_run w6 session s (en_bodies _ _ _ _ G6 _ _ Hs))).
Qed.

Hypothesis (Hledger : forall o o', os_step o o' -> ledger o' = ledger o).

Lemma held_runs w w' : os_runs (os_of w) (os_of w') -> held w' = held w.
Proof.
  unfold held. generalize (os_of w), (os_of w'). intros o o'. induction 1 as [|o o1 o2 Hs _ IH]; [done|].
  etrans; [exact IH|]. by apply Hledger.
Qed.

Section one_output.
Context (session callback : Z) (lib : gmultiset Z) (n c : Z).
Hypothesis (Hn : 8 <= n) (Hc : 0 <= c) (Hnc : n + c < 2 ^ 30) (Hsession : session ∈ lib).

(** What the callback is called with, and what it has to leave. *)
Definition takes_sample (dq : DequeueOutputReply) (size src frame : Z) (bs : list byte) : Prop :=
  forall sample sb refcon w, shows w sample sb bs (parameter_sets dq) -> sample_of dq size src sb ->
    counted (({[+ sample +]} ⊎ lib) ⊎ held w) w -> room (n + c) w ->
    gwp pan (app_output callback refcon frame 0 0 sample) (fun _ w' => answered n ({[+ sample +]} ⊎ lib) w w') w.

Lemma deliver_sample_ok w dq size src frame x bs :
  counted (refs_of [src] ⊎ (lib ⊎ held w)) w -> session_at w session -> room (n + c) w -> constants w ->
  typed w src VTF_TYPE_PIXEL_BUFFER -> len bs <= ISIZE_MAX -> bs = [] \/ private x bs w -> pod_ok dq = true ->
  takes_sample dq size src frame bs ->
  gwp pan (deliver_sample env session callback dq size src frame (bytes_at x bs) (len bs))
    (fun r w' => r = inl tt /\ answered n lib w w') w.
Proof.
  intros Hw (s & Hs) Hr Hk Ht Hl Hbs Hok Hcb.
  destruct (deliver_prefix _ w session callback s dq size src frame x bs Hw Hs)
    as (smp & sb & w6 & E & Zs & S6 & So & G6 & R6 & Ro6); try done; [by eapply room_mono; [|exact Hr]; lia|].
  unfold gwp. rewrite E. fold (gwp pan (call_back callback (vts_output_refcon s) frame src smp)
    (fun r w' => r = inl tt /\ answered n lib w w') w6). unfold call_back.
  eapply gwp_seq.
  { apply (Hcb smp sb); [done|done| |by apply R6; [lia|]].
    pose proof (en_counted _ _ _ _ G6) as Hw6. by rewrite (assoc_L (⊎)), <- (held_runs _ _ Ro6) in Hw6. }
  intros [] w7 (Hw7 & St7 & Gp7 & Rm7).
  assert (typed w7 src VTF_TYPE_PIXEL_BUFFER) as Ht7.
  { destruct (st_body _ _ _ St7 smp _ ltac:(multiset_solver) (sh_sample _ _ _ _ _ S6)) as (b & Hb & _ & ->).
    apply fmap_body in Hb as (o & Ho & Eo). intros Hz. eapply typed_live; [exact Hw7|exact Ho| |done].
    rewrite Eo. simpl. rewrite (so_source _ _ _ _ So). set_solver. }
  eapply gwp_seq; [apply (return_buffer_steady _ ({[+ smp +]} ⊎ lib) w7 src Hw7 Ht7)|].
  intros [] w8 [Q1 Q2 Q3 Q4 Q5].
  eapply gwp_seq; [apply gwp_runs; [apply release_only|apply (release_step env (lib ⊎ held w7) lib w8 smp)]|].
  { rewrite refs_single by done. by rewrite (assoc_L (⊎)). } { multiset_solver. }
  intros [] w9 [[L1 L2 L3 _ L5] Ro9]. apply gwp_ret. split; [done|].
  split; [by rewrite (held_runs _ _ Ro9), (held_runs _ _ Q5)|]. split_and!.
  - assert (lib ⊆ {[+ smp +]} ⊎ lib) as Hsub by (clear; multiset_solver).
    eapply stays_next; [eapply enlarged_stays; exact G6|]. eapply stays_next; [by eapply stays_sub|].
    eapply stays_next; [by eapply stays_sub|done].
  - rewrite L3, Q3, Gp7. apply G6.
  - by apply L5, Q4.
Qed.
End one_output.

Lemma answered_mono n n' lib w w' : n' <= n -> answered n lib w w' -> answered n' lib w w'.
Proof. intros Hn (H1 & H2 & H3 & H4). split_and!; try done. by eapply room_mono. Qed.

Lemma steady_answered n own lib w w1 w2 : steady own lib w w1 -> answered n lib w1 w2 -> answered n lib w w2.
Proof.
  intros [Q1 Q2 Q3 Q4 _] (H1 & H2 & H3 & H4). split_and!; [done|by eapply stays_next|congruence|done].
Qed.

(** *** The copy of the bytes *)

Lemma block_steady own lib w bs : counted own w -> steady own lib w (with_block bs w).
Proof.
  intros Hw. split; [by apply counted_block| |done|done|done]. split.
  - intros p b _ Hb. exists b. split; [done|apply kin_refl].
  - intros q o Hq Hs. by exists o.
  - intros x b. by eapply private_block.
Qed.

Definition without_block (x : Z) w : guest os := w <| gs_blocks ::= delete x |>.

Lemma free_private own w x bs : counted own w -> private x bs w -> bs <> [] ->
  free_bytes (Some (x, 0)) (len bs) w = Done (tt, without_block x w) /\ counted own (without_block x w).
Proof.
  intros Hw [Hx Hp] Hne. split.
  - unfold free_bytes. destruct (Z.eqb_spec (len bs) 0); [by destruct bs|]. by rewrite Hx, Z.eqb_refl.
  - destruct Hw as [H0 H1 H2 H3 H4 H5 H6 H7 H8 H9 H10]. split; simpl; try done.
    + intros b l [_ Hb]%lookup_delete_Some. by eapply H2.
    + intros p o b k Ho Hb. destruct (H9 p o b k Ho Hb) as (l & Hl & El). exists l. split; [|done].
      rewrite lookup_delete_ne; [done|]. intros <-. by eapply Hp.
Qed.

Lemma with_vec_answered {A} n lib app w bs (k : rawptr -> G os A) (P : A -> Prop) :
  counted (lib ⊎ app) w ->
  (forall x w1, steady (lib ⊎ app) lib w w1 -> bs = [] \/ private x bs w1 ->
     gwp pan (k (bytes_at x bs)) (fun r w2 => P r /\ answered n lib w1 w2) w1) ->
  gwp pan (with_vec bs k) (fun r w' => P r /\ answered n lib w w') w.
Proof.
  intros Hw Hk. unfold with_vec. unfold bytes_at in Hk. destruct (decide (bs = [])) as [->|Hne].
  - eapply gwp_eq_bind; [reflexivity|]. eapply gwp_seq; [apply (Hk 0 w); [by apply steady_same|by left]|].
    intros r w2 Hr. eapply gwp_eq_bind; [reflexivity|]. by apply gwp_ret.
  - eapply gwp_eq_bind; [by apply box_block_run|]. set (x := gs_next w). set (w1 := with_block bs w).
    pose proof (block_steady _ lib w bs Hw) as Q. fold w1 in Q. pose proof (private_new _ w bs Hw) as Hpn.
    eapply gwp_seq; [apply (Hk x w1 Q); by right|]. intros r w2 [Hr (A1 & A2 & A3 & A4)].
    destruct (free_private _ w2 x bs A1 (st_private _ _ _ A2 _ _ Hpn) Hne) as [Ef Hf].
    eapply gwp_eq_bind; [exact Ef|]. apply gwp_ret. split; [done|]. split_and!; [done| |done|done].
    destruct (stays_next _ _ _ _ (qt_stays _ _ _ _ Q) A2) as [S1 S2 S3]. split; [done|done|].
    intros y ys Hy. pose proof (ho_block_addr _ _ _ _ Hw y ys (proj1 Hy)). destruct (S3 y ys Hy) as [Y1 Y2].
    split; [|done]. simpl. rewrite lookup_delete_ne; [done|]. unfold x. lia.
Qed.

(** ** What replies hold *)

(** [read_exact] fills the buffer it is given. *)
Definition exact_reads : Prop := forall fd n (o : os) bs o', net_read_exact fd n o = (Some bs, o') -> length bs = n.

Lemma reply_short op pl t bs t' : exact_reads ->
  send_request_bytes env op pl t = Val (inl bs, t') -> len bs < 2 ^ 32.
Proof.
  intros Hex. unfold send_request_bytes. destruct (tp_backend _) as [b|]; [|done].
  unfold mbind, rust_bind. destruct (stream_send_request_dynamic b op pl _) as [[[r b'] o']|] eqn:E; [|done].
  intros [= -> _]. revert E. unfold stream_send_request_dynamic. cbv zeta.
  unfold mbind, rust_bind. destruct (arith 64 _); [|done].
  destruct (net_write_all _ _ _) as [sent o1]. destruct (negb sent); [done|].
  destruct (match pl with [] => _ | _ => _ end) as [sent2 o2]. destruct (negb sent2); [done|].
  destruct (net_read_exact _ _ o2) as [[rh|] o3] eqn:Eh; [|done]. apply Hex in Eh.
  pose proof (pod_read_ok (A:=MessageHeader) rh Eh) as Hok. set (h := pod_read_unaligned rh) in *. pod_fields Hok.
  assert (0 <= mh_payload_len h < 2 ^ 32) as Hlen by (apply (uint_ok_spec 4); done). clearbody h.
  destruct (Z.eqb_spec (mh_payload_len h) 0) as [E0|E0]; simpl.
  - case_match; intros [=]; subst; simpl; lia.
  - destruct (net_read_exact _ _ o3) as [[rp|] o4] eqn:Ep; [|done]. apply Hex in Ep.
    case_match; intros [=]; subst bs; simpl; lia.
Qed.

Lemma typed_reply_ok {P} R `{!Pod P} `{!Pod R} op (p : P) t r t' :
  send_request env R op p t = Val (inl r, t') -> pod_ok r = true.
Proof.
  unfold send_request, mbind, T_bind. destruct (send_request_bytes _ _ _ t) as [[[bs|e] t1]|]; [|done|done].
  destruct (read_pod R bs) as [r0|] eqn:E; [|done]. intros [= -> _]. by eapply read_pod_ok.
Qed.

Lemma call_reply {A} (P : A -> Prop) w (m : T os A) : calm m -> sends_only m ->
  (forall t a t', m t = Val (inl a, t') -> P a) ->
  gwp pan (transport_call m) (fun r w' => (exists t, w' = w <| gs_transport := t |> /\ os_runs (os_of w) (tp_os t)) /\
    match r with inl a => P a | inr _ => True end) w.
Proof.
  intros Hm Hs HP. specialize (Hm (gs_transport w)). unfold gwp, transport_call, twp in *.
  destruct (m (gs_transport w)) as [[r t]|] eqn:E; [|done]. split; [exists t; split; [done|by eapply Hs]|]. destruct r; [by eapply HP|done].
Qed.

Lemma read_output_calm payload : calm (os:=os) (read_output env payload).
Proof. apply calm_bind; [apply dynamic_calm|]. intros bs. unfold at_least. calm. Qed.

Lemma read_output_short payload t bs t' : exact_reads ->
  read_output env payload t = Val (inl bs, t') -> len bs < 2 ^ 32.
Proof.
  intros Hex. unfold read_output, send_request_dynamic, mbind, T_bind.
  destruct (send_request_bytes _ _ _ t) as [[[bs0|e] t1]|] eqn:E; [|done|done]. unfold at_least.
  destruct (_ <? _); [done|]. intros [= -> _]. by eapply reply_short.
Qed.

(** ** The loop *)

(** A callback that keeps the library's objects, adds at most [c] references to any
    object, and lists in its memory the references it holds. *)
Definition well_behaved (c callback : Z) : Prop := forall lib n dq size src frame bs,
  8 <= n -> takes_sample callback lib n c dq size src frame bs.

Section with_session.
Context (session : Z) (lib : gmultiset Z).
Hypothesis (Hsession : session ∈ lib).

(** A state in which the session can be used. *)
Record usable n app w : Prop := {
  us_counted : counted (lib ⊎ app) w;
  us_held : held w = app;
  us_session : session_at w session;
  us_constants : constants w;
  us_room : room n w
}.

(** The state after some steps can be used as before. *)
Lemma usable_answered n k app w w' : usable n app w -> answered k lib w w' -> exists app',
  usable k app' w' /\ stays lib w w' /\ alive_gap w' = alive_gap w.
Proof.
  intros [U1 Uh U2 U3 U4] (H1 & H2 & H3 & H4). exists (held w'). split_and!; try done. split; try done.
  - by eapply session_stays.
  - eapply constants_stay; [apply H2|done].
Qed.

Lemma usable_steady n app w w' : usable n app w -> steady (lib ⊎ app) lib w w' -> usable n app w'.
Proof.
  intros [U1 Uh U2 U3 U4] [Q1 Q2 Q3 Q4 Q5]. split; [done|by rewrite (held_runs _ _ Q5)|by eapply session_stays| |auto].
  eapply constants_stay; [apply Q2|done].
Qed.

Lemma usable_transport n app w t : usable n app w -> os_runs (os_of w) (tp_os t) ->
  usable n app (w <| gs_transport := t |>).
Proof. intros U Ro. eapply usable_steady; [exact U|]. by apply steady_transport; [apply U|]. Qed.

Lemma usable_done n app w w' : usable n app w -> steady (lib ⊎ app) lib w w' -> answered n lib w w'.
Proof. intros [U1 Uh U2 U3 U4] [Q1 Q2 Q3 Q4 Q5]. split_and!; auto. by rewrite (held_runs _ _ Q5), Uh. Qed.

Section loop.
Context (callback c : Z).
Hypothesis (Hc : 0 <= c) (Hexact : exact_reads) (Hcb : well_behaved c callback).

Lemma deliver_one_ok n app w dq : 8 <= n -> n + c < 2 ^ 30 -> usable (n + c) app w -> pod_ok dq = true ->
  gwp pan (vtf_deliver_one_output env session callback dq) (fun _ w' => answered n lib w w') w.
Proof.
  intros Hn Hnc U Hok. pose proof (us_counted _ _ _ U) as Hw. unfold vtf_deliver_one_output.
  assert (forall w', steady (lib ⊎ app) lib w w' -> answered n lib w w') as Hdone.
  { intros w' Q. eapply answered_mono; [|by eapply usable_done]. lia. }
  eapply gwp_seq; [apply (call_reply (fun bs => len bs < 2 ^ 32)); [apply read_output_calm|apply read_output_sends|]|].
  { intros t bs t'. by apply read_output_short. }
  intros r w1 [(t & -> & Ro) Hr]. pose proof (steady_transport _ lib w t Hw Ro) as Q.
  destruct r as [bytes|e]; [|by apply gwp_ret, Hdone].
  destruct (read_pod ReadOutputReply bytes) as [reply|]; [|by apply gwp_ret, Hdone].
  set (bs := drop (size_of ReadOutputReply) bytes).
  assert (len bs <= ISIZE_MAX) as Hl by (unfold bs, ISIZE_MAX; rewrite length_drop; lia).
  eapply gwp_mono; [apply (with_vec_answered n lib app _ bs _ (fun _ => True)); [apply Q|]|].
  2: { intros r w' [_ Ha]. by eapply steady_answered. }
  intros x w2 Q2 Hbs. pose proof (usable_steady _ _ _ _ (usable_transport _ _ _ t U Ro) Q2) as [U1 Uh U2 U3 U4].
  destruct (pop_ok _ w2 session lib U1 U2) as (src & frame & w3 & Ep & [M1 M2 M3 M4 M5 M6 M7] & Ht).
  eapply gwp_eq_bind; [exact Ep|]. cbv beta iota.
  eapply gwp_mono; [apply (deliver_sample_ok session callback lib n c); try done|].
  - unfold held. rewrite M7. fold (held w2). by rewrite Uh.
  - by eapply session_stays.
  - by apply M5.
  - eapply constants_stay; [apply M2|done].
  - destruct Hbs as [|Hp]; [by left|right]. by apply M2.
  - by apply Hcb.
  - intros r w' [_ (A1 & A2 & A3 & A4)]. split; [done|]. split_and!; [done|by eapply stays_next|congruence|done].
Qed.

Lemma answered_trans n k w w1 w2 : answered k lib w w1 -> answered n lib w1 w2 -> answered n lib w w2.
Proof.
  intros (A1 & A2 & A3 & A4) (B1 & B2 & B3 & B4).
  split_and!; [done|by eapply stays_next|congruence|done].
Qed.

Lemma deliver_each_ok dqs : forall n app w delivered, 8 <= n -> n + c * len dqs < 2 ^ 30 ->
  usable (n + c * len dqs) app w -> Forall (fun dq => pod_ok dq = true) dqs ->
  gwp pan (deliver_each env session callback dqs delivered) (fun _ w' => answered n lib w w') w.
Proof.
  induction dqs as [|dq dqs IH]; intros n app w delivered Hn Hnc U Hok.
  { apply gwp_ret. eapply answered_mono; [|eapply usable_done; [exact U|by apply steady_same; [apply U|..]]]. simpl. lia. }
  apply list.Forall_cons in Hok as [Hdq Hok].
  replace (n + c * len (dq :: dqs)) with (n + c * len dqs + c) in * by (simpl length; lia).
  cbn [deliver_each]. unfold try_bind.
  eapply gwp_seq; [apply (deliver_one_ok (n + c * len dqs) app); [lia|done..]|]. intros [[]|e] w1 A.
  2: { apply gwp_ret. eapply answered_mono; [|exact A]. lia. }
  destruct (usable_answered _ _ _ _ _ U A) as (app' & U' & _).
  eapply gwp_mono; [apply (IH n app'); [done|lia|done|done]|]. intros r w2 B. by eapply answered_trans.
Qed.

(** [m] runs without undefined behaviour to [Q], or out of fuel. *)
Definition gwf {A} (m : G os A) (Q : A -> guest os -> Prop) w : Prop :=
  match m w with
  | Done (a, w') => Q a w'
  | Aborted => pan
  | NoFuel => True
  | UB => False
  end.

Lemma gwf_of {A} (m : G os A) Q w : gwp pan m Q w -> gwf m Q w.
Proof. unfold gwp, gwf. by destruct (m w) as [[a w']| | |]. Qed.

Lemma gwf_seq {A B} (m : G os A) (f : A -> G os B) (Q : A -> _ -> Prop) R w :
  gwp pan m Q w -> (forall a w', Q a w' -> gwf (f a) R w') -> gwf (m ≫= f) R w.
Proof. unfold gwp, gwf, mbind, G_bind. intros Hm Hf. destruct (m w) as [[a w']| | |]; [by apply Hf|done..]. Qed.

Lemma gwf_mono {A} (m : G os A) (Q Q' : A -> _ -> Prop) w :
  gwf m Q w -> (forall a w', Q a w' -> Q' a w') -> gwf m Q' w.
Proof. unfold gwf. destruct (m w) as [[a w']| | |]; auto. Qed.

Lemma gwf_then {A B} (m : G os A) (f : A -> G os B) (Q : A -> _ -> Prop) R w :
  gwf m Q w -> (forall a w', Q a w' -> gwf (f a) R w') -> gwf (m ≫= f) R w.
Proof. unfold gwf, mbind, G_bind. intros Hm Hf. destruct (m w) as [[a w']| | |]; [by apply Hf|done..]. Qed.

Lemma gwf_eq_bind {A B} (m : G os A) (f : A -> G os B) a w w' Q :
  m w = Done (a, w') -> gwf (f a) Q w' -> gwf (m ≫= f) Q w.
Proof. intros E Hf. unfold gwf. by rewrite (bind_eq _ _ _ _ _ E). Qed.

Lemma proxy_run w p : is_Some (gs_heap w !! p) -> exists id, proxy_of p w = Done (id, w).
Proof. intros [o Ho]. eexists. unfold proxy_of, mbind, G_bind, get_object. by rewrite Ho. Qed.

Lemma session_present w : session_at w session -> is_Some (gs_heap w !! session).
Proof. intros (s & (o & -> & _)%fmap_body). by eexists. Qed.

(** A request made from a state that can be used. *)
Lemma dequeue_ok n app w batch : usable n app w ->
  gwp pan (vtf_dequeue_ready_outputs env session batch) (fun r w' => steady (lib ⊎ app) lib w w' /\
    match r with inl l => Forall (fun dq => pod_ok dq = true) l /\ len l <= 24 | inr _ => True end) w.
Proof.
  intros U. pose proof (us_counted _ _ _ U) as Hw. unfold vtf_dequeue_ready_outputs.
  destruct (proxy_run w session (session_present w (us_session _ _ _ U))) as [id Eid].
  eapply gwp_eq_bind; [exact Eid|]. cbv zeta.
  set (one := try_bind _ _). assert (forall w1, steady (lib ⊎ app) lib w w1 -> gwp pan one (fun r w' =>
    steady (lib ⊎ app) lib w w' /\
    match r with inl l => Forall (fun dq => pod_ok dq = true) l /\ len l <= 24 | inr _ => True end) w1) as Hone.
  { intros w1 Q1. unfold one, try_bind.
    eapply gwp_seq; [apply (call_reply (fun r => pod_ok r = true)); [apply typed_calm|apply typed_sends|]|].
    { intros t r t'. by apply typed_reply_ok. }
    intros r w2 [(t & -> & Ro) Hr]. assert (steady (lib ⊎ app) lib w (w1 <| gs_transport := t |>)) as Q2
      by (eapply steady_trans; [|exact Q1|apply steady_transport; [apply Q1|]]; done).
    destruct r as [r|e]; apply gwp_ret; [|done]. split; [done|]. split; [by constructor|simpl; lia]. }
  destruct (batch >? 1); [|apply Hone; by apply steady_same].
  eapply gwp_seq; [apply (call_reply (fun r => pod_ok r = true)); [apply typed_calm|apply typed_sends|]|].
  { intros t r t'. by apply typed_reply_ok. }
  intros r w1 [(t & -> & Ro) Hr]. pose proof (steady_transport _ lib w t Hw Ro) as Q1. destruct r as [r|e].
  - apply gwp_ret. split; [done|]. pod_fields Hr.
    match goal with E : arr_ok _ _ _ = true |- _ => apply arr_ok_spec in E as [_ Ha] end.
    split; [apply Forall_take; exact Ha|]. rewrite length_take. unfold VTF_TRANSPORT_MAX_OUTPUT_BATCH in *. lia.
  - destruct (negb _); [by apply gwp_ret|]. by apply Hone.
Qed.

Lemma handle_status_ok n app w deadline status : usable n app w ->
  gwp pan (vtf_handle_dequeue_status session deadline status) (fun _ w' => steady (lib ⊎ app) lib w w') w.
Proof.
  intros U. pose proof (us_counted _ _ _ U) as Hw. pose proof (us_session _ _ _ U) as (s & Hs).
  assert (steady (lib ⊎ app) lib w w) as Q by (by apply steady_same).
  unfold vtf_handle_dequeue_status. destruct (status =? _); [|by apply gwp_ret].
  destruct deadline as [d|]; [|by apply gwp_ret]. eapply gwp_eq_bind; [by apply as_session_run|].
  destruct (negb _); [|by apply gwp_ret]. eapply gwp_eq_bind; [reflexivity|]. destruct (_ >=? d); [by apply gwp_ret|].
  eapply gwp_eq_bind; [reflexivity|]. apply gwp_ret. apply steady_same; try done.
  by apply (sleep_only VTF_COMPLETE_FRAMES_POLL_INTERVAL_MS w tt).
Qed.

Lemma deliver_loop_ok fuel : forall n app w batch deadline delivered, 8 <= n ->
  n + c * 24 * Z.of_nat fuel < 2 ^ 30 -> usable (n + c * 24 * Z.of_nat fuel) app w ->
  gwf (deliver_loop env fuel session callback batch deadline delivered) (fun _ w' => answered n lib w w') w.
Proof.
  induction fuel as [|fuel IH]; intros n app w batch deadline delivered Hn Hnc U; [done|].
  replace (n + c * 24 * Z.of_nat (S fuel)) with (n + c * 24 * Z.of_nat fuel + c * 24) in * by lia.
  set (k := n + c * 24 * Z.of_nat fuel) in *. assert (n <= k) by (unfold k; nia).
  cbn [deliver_loop]. eapply gwf_seq; [eapply (dequeue_ok _ app); exact U|]. intros r w1 [Q Hr].
  pose proof (usable_steady _ _ _ _ U Q) as U1.
  assert (forall w2, steady (lib ⊎ app) lib w w2 -> answered n lib w w2) as Hdone.
  { intros w2 Q2. eapply answered_mono; [|by eapply usable_done]. lia. }
  assert (forall w2 app2 d, answered k lib w w2 -> usable k app2 w2 ->
    gwf (deliver_loop env fuel session callback batch deadline d) (fun _ w' => answered n lib w w') w2) as Hnext.
  { intros w2 app2 d A U2. eapply gwf_mono; [apply (IH n app2); [done|lia|exact U2]|]. intros a w3 B. by eapply answered_trans. }
  destruct r as [[|dq dqs]|status].
  - apply gwf_of, gwp_ret. by apply Hdone.
  - destruct Hr as [Hok Hl]. unfold try_bind.
    eapply gwf_seq; [apply (deliver_each_ok _ k app); [lia|nia| |done]|].
    { destruct U1 as [V1 Vh V2 V3 V4]. split; try done. eapply room_mono; [|exact V4]. nia. }
    intros [d|e] w2 A; [|apply gwf_of, gwp_ret; eapply answered_mono; [|by eapply steady_answered]; done].
    destruct (usable_answered _ _ _ _ _ U1 A) as (app2 & U2 & _). eapply Hnext; [|exact U2]. by eapply steady_answered.
  - unfold try_bind. eapply gwf_seq; [eapply (handle_status_ok _ app); exact U1|]. intros a w2 Q2.
    pose proof (steady_trans _ _ _ _ _ _ _ ltac:(reflexivity) Q Q2) as Q3.
    destruct a as [[]|e]; [|by apply gwf_of, gwp_ret, Hdone..].
    pose proof (usable_steady _ _ _ _ U1 Q2) as [V1 Vh V2 V3 V4].
    eapply (Hnext w2 app); [eapply answered_mono; [|eapply usable_done; [exact U|exact Q3]]; lia|].
    split; try done. eapply room_mono; [|exact V4]. lia.
Qed.

End loop.

(** ** The session's own fields *)

Lemma put_session_steady own w s s' : counted own w -> ob_body <$> gs_heap w !! session = Some (VtSession s) ->
  body_fields (VtSession s') = body_fields (VtSession s) ->
  typed_fields (VtSession s') = typed_fields (VtSession s) -> vts_ok s' ->
  put_body session (VtSession s') w = Done (tt, rebodied session (VtSession s') w) /\
  steady own lib w (rebodied session (VtSession s') w) /\
  ob_body <$> gs_heap (rebodied session (VtSession s') w) !! session = Some (VtSession s').
Proof.
  intros Hw Hs Ef Et Hok. destruct (put_session_run w session s s' Hs) as [E Hs'].
  split; [exact E|]. split; [|done]. pose proof Hs as (o & Ho & Eo)%fmap_body.
  split; [|eapply rebodied_stays; [exact Hs|by split|done]|apply rebodied_gap|intros k; by apply rebodied_room|done].
  pose proof (ho_object _ _ _ _ Hw session o Ho) as Hobj.
  eapply counted_rebodied; [exact Hw|exact Ho|..]; rewrite ?Eo; try done; [by eapply session_not_static|constructor..|].
  intros x k []%elem_of_nil.
Qed.

Lemma flush_steady n app w : usable n app w ->
  gwp pan (vtf_flush_pending_encodes env session) (fun _ w' => steady (lib ⊎ app) lib w w') w.
Proof.
  intros U. pose proof (us_counted _ _ _ U) as Hw. pose proof (us_session _ _ _ U) as (s & Hs).
  pose proof (session_ok_of _ _ _ _ Hw Hs) as Hv. pose proof (vo_encodes _ Hv) as He.
  assert (steady (lib ⊎ app) lib w w) as Q0 by (by apply steady_same).
  unfold vtf_flush_pending_encodes. eapply gwp_eq_bind; [by apply as_session_run|]. cbv zeta.
  destruct (Z.eqb_spec (vts_pending_encode_count s) 0) as [|Hne]; [by apply gwp_ret|]. unfold try_bind.
  eapply (gwp_seq _ _ _ (fun _ w' => exists t, w' = w <| gs_transport := t |> /\ os_runs (os_of w) (tp_os t))).
  - destruct (Z.eqb_spec (vts_pending_encode_count s) 1) as [E1|_].
    + destruct (lookup_lt_is_Some_2 (vts_pending_encode_payloads s) 0) as [p Hp]; [lia|].
      eapply gwp_eq_bind; [unfold nth_or_abort; change (Z.to_nat 0) with 0%nat; by rewrite Hp|]. by eapply transport_call_runs; [..|apply unit_calm|apply unit_sends].
    + destruct (proxy_run w session (session_present w (us_session _ _ _ U))) as [id Eid].
      eapply gwp_eq_bind; [exact Eid|].
      eapply gwp_eq_bind. 2: { by eapply transport_call_runs; [..|apply unit_calm|apply unit_sends]. }
      unfold first_payloads. destruct (Z.gtb_spec (vts_pending_encode_count s) (len (vts_pending_encode_payloads s))); [lia|done].
  - intros r w1 (t & -> & Ro). pose proof (steady_transport _ lib w t Hw Ro) as Q. destruct r as [[]|e]; [|by apply gwp_ret].
    eapply gwp_eq_bind; [by apply (as_session_run _ _ s)|].
    destruct (put_session_steady _ (w <| gs_transport := t |>) s (s <| vts_pending_encode_count := 0 |>) (qt_counted _ _ _ _ Q) Hs)
      as (E & Q2 & _); [done|done| |].
    { destruct Hv as [V1 V2 [V3 V4 V5] V6]. split; try done. simpl. lia. }
    eapply gwp_eq_bind; [exact E|]. apply gwp_ret. by eapply steady_trans.
Qed.

Lemma prepare_ok n app w : usable n app w ->
  gwp pan (vtf_prepare_session_if_needed env session) (fun _ w' => steady (lib ⊎ app) lib w w') w.
Proof.
  intros U. pose proof (us_counted _ _ _ U) as Hw. pose proof (us_session _ _ _ U) as (s & Hs).
  pose proof (session_ok_of _ _ _ _ Hw Hs) as Hv. unfold vtf_prepare_session_if_needed.
  eapply gwp_eq_bind; [by apply as_session_run|]. destruct (vts_prepared s); [by apply gwp_ret, steady_same|].
  destruct (proxy_run w session (session_present w (us_session _ _ _ U))) as [id Eid].
  eapply gwp_eq_bind; [exact Eid|]. eapply gwp_seq; [by eapply transport_call_runs; [..|apply dynamic_calm|apply dynamic_sends]|].
  intros r w1 (t & -> & Ro). pose proof (steady_transport _ lib w t Hw Ro) as Q. destruct r as [bs|e]; [|by apply gwp_ret].
  eapply gwp_eq_bind; [by apply (as_session_run _ _ s)|].
  destruct (put_session_steady _ (w <| gs_transport := t |>) s (s <| vts_prepared := true |>) (qt_counted _ _ _ _ Q) Hs)
    as (E & Q2 & _); [done|done|by apply (vts_ok_view s)|].
  eapply gwp_eq_bind; [exact E|]. apply gwp_ret. by eapply steady_trans.
Qed.

(** ** A frame joins the queue *)

Context (Hmalloc : forall bytes o o', app_malloc (os:=os) bytes o = (true, o') -> bytes <= ISIZE_MAX).

Lemma retained_stays p w : stays lib w (retained p w).
Proof.
  split.
  - intros q b _ Hb. exists b. split; [by rewrite retained_body|apply kin_refl].
  - apply statics_retained.
  - intros x bs [Hx Hp]. split; [done|]. intros q o k Ho. pose proof (retained_body p q w) as E. rewrite Ho in E.
    destruct (gs_heap w !! q) as [o0|] eqn:Ho0; [|done]. injection E as ->. by apply (Hp q o0).
Qed.

Lemma regrown_view s s' : regrown s s' -> pending_buffers s' = pending_buffers s -> queue_ok s' -> vts_ok s ->
  body_fields (VtSession s') = body_fields (VtSession s) /\
  typed_fields (VtSession s') = typed_fields (VtSession s) /\ vts_ok s'.
Proof.
  intros Hg Ep Hq [V1 V2 V3 V4]. cbn [body_fields typed_fields]. rewrite Ep.
  destruct Hg as [->|(l & r & cap & ->)]; by split_and!.
Qed.

(** The session with one more frame. *)
Definition with_frame (s : vtf_vt_session) (l rs : list Z) (buf refcon : Z) : vtf_vt_session :=
  let k := Z.to_nat (vts_pending_count s) in
  s <| vts_pending_image_buffers := Some (<[k := buf]> l) |>
    <| vts_pending_source_frame_refcons := Some (<[k := refcon]> rs) |> <| vts_pending_count := vts_pending_count s + 1 |>.

Lemma with_frame_buffers s l rs buf refcon : vts_pending_image_buffers s = Some l ->
  0 <= vts_pending_count s < len l -> pending_buffers (with_frame s l rs buf refcon) = pending_buffers s ++ [buf].
Proof.
  intros El Hl. unfold pending_buffers. rewrite El. simpl.
  replace (Z.to_nat (vts_pending_count s + 1)) with (S (Z.to_nat (vts_pending_count s))) by lia.
  apply take_insert_end. lia.
Qed.

(** The queue takes over a reference to a buffer. *)
Lemma append_counted own w s l rs buf refcon : counted (refs_of [buf] ⊎ own) w ->
  ob_body <$> gs_heap w !! session = Some (VtSession s) -> typed w buf VTF_TYPE_PIXEL_BUFFER -> buf <> 0 ->
  vts_pending_image_buffers s = Some l -> vts_pending_count s < vts_pending_capacity s ->
  len l = vts_pending_capacity s -> len rs = vts_pending_capacity s ->
  counted own (rebodied session (VtSession (with_frame s l rs buf refcon)) w).
Proof.
  intros Hw Hs Ht Hb El Hslot Hl Hrs. pose proof (session_ok_of _ _ _ _ Hw Hs) as [V1 V2 [Hcnt Hbytes _] V4].
  pose proof (with_frame_buffers s l rs buf refcon El ltac:(lia)) as Epb. set (s2 := with_frame s l rs buf refcon) in *.
  pose proof Hs as (o & Ho & Eo)%fmap_body. pose proof (ho_object _ _ _ _ Hw session o Ho) as [O1 O2 O3 O4 O5 O6].
  eapply counted_give; [exact Hw|exact Ho| | | | |]; rewrite ?Eo; try done.
  - split; simpl; rewrite ?Eo in *; try done. split; try done.
    split; simpl; [lia|done|]. right. do 2 eexists. split_and!; [done..| |]; by rewrite length_insert.
  - cbn [body_fields]. rewrite Epb. change (stored_values s2) with (stored_values s).
    change (vts_pixel_buffer_pool s2) with (vts_pixel_buffer_pool s).
    change (vts_source_image_buffer_attributes s2) with (vts_source_image_buffer_attributes s).
    change (vts_properties s2) with (vts_properties s).
    rewrite (refs_cons _ (stored_values s ++ (_ ++ _) ++ _)), (refs_cons _ (stored_values s ++ pending_buffers s ++ _)), !refs_app.
    clear. multiset_solver.
  - intros q ty Hq Hq0. cbn [typed_fields] in Hq. rewrite Epb, fmap_app in Hq.
    destruct (decide ((q, ty) ∈ typed_fields (VtSession s))) as [Hin|Hin].
    + eapply typed_live; [exact Hw|exact Ho|by rewrite Eo|done].
    + assert ((q, ty) = (buf, VTF_TYPE_PIXEL_BUFFER)) as [= -> ->]; [|by apply Ht].
      cbn [typed_fields] in Hin. change (vts_pixel_buffer_pool s2) with (vts_pixel_buffer_pool s) in Hq. set_solver.
Qed.

Lemma typed_rebodied w s b' p : ob_body <$> gs_heap w !! session = Some (VtSession s) -> p <> 0 ->
  typed w p VTF_TYPE_PIXEL_BUFFER -> typed (rebodied session b' w) p VTF_TYPE_PIXEL_BUFFER.
Proof.
  intros (o' & Ho' & Eo')%fmap_body Hp Ht _. destruct (Ht Hp) as (o & Ho & Eo). exists o.
  rewrite rebodied_others; [done|]. intros ->. simplify_eq. by rewrite Eo' in Eo.
Qed.

Lemma grow_ok n app w buf : usable n app w -> buf <> 0 -> typed w buf VTF_TYPE_PIXEL_BUFFER ->
  exists grew s w', grow_pending session w = Done (grew, w') /\ steady (lib ⊎ app) lib w w' /\
    ob_body <$> gs_heap w' !! session = Some (VtSession s) /\ typed w' buf VTF_TYPE_PIXEL_BUFFER /\
    (grew = true -> has_slot s).
Proof.
  intros U Hb Ht. pose proof (us_counted _ _ _ U) as Hw. pose proof (us_session _ _ _ U) as (s & Hs).
  pose proof (session_ok_of _ _ _ _ Hw Hs) as Hv.
  destruct (grow_run Hmalloc w session s Hs (vo_queue _ Hv)) as (s1 & w1 & Eg & Hslot & Hg & Hw1 & Hq1 & _ & Ep & _).
  destruct (regrown_view s s1 Hg Ep Hq1 Hv) as (Ef & Et & Hv1).
  pose proof (grow_only session w _ _ Eg) as Ro. set (o2 := (grow_spec s (os_of w)).2) in *.
  assert (os_runs (os_of w) (os_of (set_os o2 w))) as Ro2 by (by destruct Hw1 as [[-> _]| ->]).
  assert (steady (lib ⊎ app) lib w (set_os o2 w)) as Q0 by (by apply steady_same).
  eexists _, s1, w1. split; [done|].
  destruct Hw1 as [[-> ->]| ->]; [by split_and!|].
  destruct (put_session_steady _ (set_os o2 w) s s1 (qt_counted _ _ _ _ Q0) Hs Ef Et Hv1) as (_ & Q1 & Hs1).
  split_and!; [by eapply steady_trans|done|by eapply (typed_rebodied (set_os o2 w))|done].
Qed.

Lemma push_ok n app w buf refcon : 0 <= n -> usable (n + 1) app w -> buf <> 0 -> typed w buf VTF_TYPE_PIXEL_BUFFER ->
  gwp pan (vtf_push_pending_image_buffer session buf refcon) (fun _ w' => usable n app w' /\ stays lib w w' /\
    alive_gap w' = alive_gap w /\ typed w' buf VTF_TYPE_PIXEL_BUFFER) w.
Proof.
  intros Hn U Hb Ht. destruct (grow_ok _ _ _ _ U Hb Ht) as (grew & s & w1 & Eg & Q1 & Hs1 & Ht1 & Hslot).
  pose proof (usable_steady _ _ _ _ U Q1) as U1. unfold vtf_push_pending_image_buffer.
  eapply gwp_eq_bind; [exact Eg|]. destruct grew; [change (negb true) with false; cbv iota|].
  2: { apply gwp_ret. destruct U1 as [X1 Xh X2 X3 X4]. split_and!; [|apply Q1|apply Q1|done].
    split; try done. eapply room_mono; [|exact X4]. lia. }
  destruct (retain_chain _ w1 buf n (us_counted _ _ _ U1) (typed_alive _ _ _ Ht1) (us_room _ _ _ U1) Hn) as (Er & Hc2 & Hr2 & _).
  eapply gwp_eq_bind; [exact Er|]. set (w2 := retained buf w1) in *.
  assert (ob_body <$> gs_heap w2 !! session = Some (VtSession s)) as Hs2 by (unfold w2; by rewrite retained_body).
  eapply gwp_eq_bind; [by apply as_session_run|]. specialize (Hslot eq_refl). unfold has_slot in Hslot.
  pose proof (vo_queue _ (session_ok_of _ _ _ _ (us_counted _ _ _ U1) Hs1)) as [Hcnt Hbytes [(E & _)|(l & rs & El & Ers & Hl & Hrs)]]; [lia|].
  rewrite El, Ers. eapply gwp_eq_bind; [apply store_at_run; lia|]. eapply gwp_eq_bind; [apply store_at_run; lia|].
  eapply gwp_eq_bind; [unfold of_rust; rewrite arith_in by (unfold ISIZE_MAX in *; lia); reflexivity|].
  destruct (put_session_run w2 session s (with_frame s l rs buf refcon) Hs2) as [E4 Hs4].
  eapply gwp_eq_bind; [exact E4|]. apply gwp_ret.
  assert (typed w2 buf VTF_TYPE_PIXEL_BUFFER) as Ht2.
  { intros _. destruct (Ht1 Hb) as (o & Ho & Eo). pose proof (retained_body buf buf w1) as E. rewrite Ho in E.
    apply fmap_body in E as (o' & Ho' & Eo'). exists o'. by rewrite Eo'. }
  assert (stays lib w (rebodied session (VtSession (with_frame s l rs buf refcon)) w2)) as St.
  { eapply stays_next; [apply Q1|]. eapply stays_next; [apply retained_stays|].
    eapply rebodied_stays; [exact Hs2|by split|done]. }
  split_and!; [|done| |by eapply typed_rebodied].
  - split; [by apply append_counted| |by eexists| |by apply rebodied_room].
    { unfold w2, retained. by destruct U1. } eapply constants_stay; [apply St|apply U].
  - rewrite rebodied_gap. unfold w2. rewrite retained_gap. apply Q1.
Qed.

(** ** The pixels go to the worker *)

Lemma ensure_steady own w p b : counted own w -> ob_body <$> gs_heap w !! p = Some (PixelBuffer b) ->
  exists b' w', vtf_ensure_backing_store p w = Done (true, w') /\ steady own lib w w' /\
    ob_body <$> gs_heap w' !! p = Some (PixelBuffer b') /\ is_Some (px_backing_store b').
Proof.
  intros Hw Hp. destruct (ensure_store_ok own w p b Hw Hp) as (b' & w' & E & [Hsome He] & [C1 C2 C3 C4 C5]).
  exists b', w'. split; [done|]. split; [|done]. destruct (px_backing_store b) as [ptr|] eqn:Hn.
  { assert (vtf_ensure_backing_store p w = Done (true, w)) as E' by (by eapply ensure_old_run; [..|rewrite Hn]).
    rewrite E in E'. simplify_eq. by apply steady_same. }
  pose proof (ensure_new_run own w p b Hw Hp Hn) as E'. rewrite E in E'. injection E' as ->.
  pose proof Hp as (o & Ho & Eo)%fmap_body. set (w1 := with_block _ w) in *.
  assert (gs_heap w1 !! p = Some o) as Ho1 by done.
  destruct (block_steady own lib w (zeros (Z.max (px_total_size b) 1)) Hw) as [_ B2 _ _]. fold w1 in B2.
  split; [done| |done|intros k Hr; by apply rebodied_room|done]. split.
  - intros q bq Hq Hbq. destruct (decide (q = p)) as [->|Hne].
    + rewrite Ho in Hbq. injection Hbq as <-. rewrite Eo. eexists. split; [exact C3|]. by split.
    + exists bq. rewrite C4 by done. split; [done|apply kin_refl].
  - intros q oq Hq Hs. destruct (decide (q = p)) as [->|Hne]; [|exists oq; by rewrite C4].
    rewrite Ho in Hq. injection Hq as <-. eexists. by rewrite (rebodied_lookup _ _ _ o Ho1).
  - intros x bs Hx. destruct (st_private _ _ _ B2 x bs Hx) as [X1 X2]. split; [done|]. intros q oq k Hq.
    destruct (decide (q = p)) as [->|Hne]; [|rewrite C4 in Hq by done; by apply (proj2 Hx q oq)].
    rewrite (rebodied_lookup _ _ _ o Ho1) in Hq. injection Hq as <-. simpl. rewrite backed_blocks. intros Hk.
    pose proof (ho_block_addr _ _ _ _ Hw x bs (proj1 Hx)). apply elem_of_cons in Hk as [[= -> _]|Hk]; [lia|].
    apply (proj2 Hx p o k Ho). by rewrite Eo, unbacked_blocks.
Qed.

Lemma pixel_typed w p b : ob_body <$> gs_heap w !! p = Some (PixelBuffer b) -> typed w p VTF_TYPE_PIXEL_BUFFER.
Proof. intros (o & Ho & Eo)%fmap_body _. exists o. by rewrite Eo. Qed.

(** All of the pixels can be read. *)
Lemma pixels_read own w p b : counted own w -> ob_body <$> gs_heap w !! p = Some (PixelBuffer b) ->
  is_Some (px_backing_store b) -> exists bs, read_bytes (px_backing_store b) (px_total_size b) w = Done (bs, w).
Proof.
  intros Hw Hb Hs. pose proof (body_pixel_ok own w p b Hw Hb) as Hok. pose proof (po_total _ Hok) as Ht.
  pose proof (po_extent _ Hok Hs) as He. unfold read_bytes.
  destruct (Z.eqb_spec (px_total_size b) 0); [by eexists|].
  destruct (memory_of own w p b Hw Hb Hs) as (blk & bs & E & Hbs & Hl); [lia|]. rewrite E, Hbs.
  rewrite (proj2 (Z.leb_le 0 (px_total_size b))), (proj2 (Z.leb_le (0 + px_total_size b) (len bs))) by lia. by eexists.
Qed.

Lemma upload_ok own w p : counted own w -> p <> 0 -> typed w p VTF_TYPE_PIXEL_BUFFER ->
  gwp pan (upload_pixels env p) (fun _ w' => steady own lib w w' /\ typed w' p VTF_TYPE_PIXEL_BUFFER) w.
Proof.
  intros Hw Hp Ht. destruct (typed_pixel w p Hp Ht) as [b Hb]. unfold upload_pixels.
  eapply gwp_eq_bind; [by apply as_pixel_run|]. rewrite (po_unmapped _ (body_pixel_ok own w p b Hw Hb)).
  destruct (ensure_steady own w p b Hw Hb) as (b1 & w1 & E1 & Q1 & Hb1 & Hs1). eapply gwp_eq_bind; [exact E1|].
  change (negb true) with false. cbv iota. eapply gwp_eq_bind; [by apply as_pixel_run|].
  destruct (pixels_read own w1 p b1 (qt_counted _ _ _ _ Q1) Hb1 Hs1) as [bs Ebs]. eapply gwp_eq_bind; [exact Ebs|].
  destruct (proxy_run w1 p) as [id Eid]; [by apply fmap_body in Hb1 as (o & -> & _)|].
  eapply gwp_eq_bind; [exact Eid|].
  eapply gwp_seq; [eapply transport_call_runs; [apply Q1|apply write_loop_calm; lia|apply write_loop_sends]|].
  intros r w2 (t & -> & Ro). assert (steady own lib w (w1 <| gs_transport := t |>)) as Q2.
  { eapply steady_trans; [|exact Q1|apply steady_transport; [apply Q1|]]; done. }
  pose proof (pixel_typed (w1 <| gs_transport := t |>) p b1 Hb1). by destruct r; apply gwp_ret.
Qed.
End with_session.

Section calls.
Context (session c : Z) (lib : gmultiset Z).
Hypothesis (Hc : 0 <= c) (Hsession : session ∈ lib) (Hexact : exact_reads).
Hypothesis (Hcb : forall callback, well_behaved c callback).
Abbreviation usable := (usable session lib).

Lemma session_outputs_ok fuel n app w deadline : 8 <= n -> n + c * 24 * Z.of_nat fuel < 2 ^ 30 ->
  usable (n + c * 24 * Z.of_nat fuel) app w ->
  gwf (vtf_deliver_session_outputs env fuel session deadline) (fun _ w' => answered n lib w w') w.
Proof.
  intros Hn Hnc U. assert (n <= n + c * 24 * Z.of_nat fuel) as Hle by nia.
  unfold vtf_deliver_session_outputs, try_bind. eapply gwf_seq; [by eapply flush_steady|]. intros r w1 Q.
  pose proof (usable_steady _ _ Hsession _ _ _ _ U Q) as U1.
  assert (answered n lib w w1) as Hdone by (eapply answered_mono; [exact Hle|by eapply usable_done]).
  destruct r as [[]|e]; [|by apply gwf_of, gwp_ret]. destruct (us_session _ _ _ _ _ U1) as (s & Hs).
  eapply gwf_eq_bind; [by apply as_session_run|]. destruct (vts_output_callback s) as [callback|]; [|by apply gwf_of, gwp_ret].
  eapply gwf_mono; [by eapply (deliver_loop_ok session lib Hsession callback c Hc Hexact (Hcb callback))|]. intros a w2 A. by eapply steady_answered.
Qed.

Lemma complete_frames_ok fuel n app w : 8 <= n -> n + c * 24 * Z.of_nat fuel < 2 ^ 30 ->
  usable (n + c * 24 * Z.of_nat fuel) app w ->
  gwf (VTCompressionSessionCompleteFrames env fuel session) (fun _ w' => answered n lib w w') w.
Proof.
  intros Hn Hnc U. assert (n <= n + c * 24 * Z.of_nat fuel) as Hle by nia.
  pose proof (us_counted _ _ _ _ _ U) as Hw. destruct (us_session _ _ _ _ _ U) as (s & Hs).
  assert (forall w', steady (lib ⊎ app) lib w w' -> answered n lib w w') as Hdone.
  { intros w' Q. eapply answered_mono; [exact Hle|by eapply usable_done]. }
  assert (steady (lib ⊎ app) lib w w) as Q0 by (by apply steady_same).
  unfold VTCompressionSessionCompleteFrames.
  rewrite (proj2 (Z.eqb_neq session 0)) by (by eapply body_nonzero).
  eapply gwf_eq_bind; [by apply as_session_run|]. destruct (vts_invalidated s); [by apply gwf_of, gwp_ret, Hdone|].
  eapply gwf_seq; [by eapply flush_steady|]. intros r w1 Q. pose proof (usable_steady _ _ Hsession _ _ _ _ U Q) as U1.
  destruct r as [[]|e]; [|by apply gwf_of, gwp_ret, Hdone].
  destruct (proxy_run w1 session (session_present session w1 (us_session _ _ _ _ _ U1))) as [id Eid].
  eapply gwf_eq_bind; [exact Eid|].
  eapply gwf_seq; [apply (call_steady (lib ⊎ app) lib); [apply Q|apply typed_calm|apply typed_sends]|]. intros r w2 Q2.
  pose proof (steady_trans _ _ _ _ _ _ _ ltac:(reflexivity) Q Q2) as Q3.
  destruct r as [reply|e]; [|by apply gwf_of, gwp_ret, Hdone].
  pose proof (usable_steady _ _ Hsession _ _ _ _ U Q3) as U3. destruct (us_session _ _ _ _ _ U3) as (s2 & Hs2).
  eapply gwf_eq_bind; [by apply as_session_run|].
  destruct (vts_output_callback s2) as [callback|]; [|by apply gwf_of, gwp_ret, Hdone].
  eapply gwf_eq_bind; [reflexivity|]. cbv zeta.
  eapply gwf_then; [by eapply session_outputs_ok|]. intros r w3 A. apply gwf_of, gwp_ret. by eapply steady_answered.
Qed.

(** The code of [VTCompressionSessionEncodeFrame] from the frame on its way. *)
Lemma encode_sent_ok fuel n app w w0 payload : 8 <= n -> n + c * 24 * Z.of_nat fuel < 2 ^ 30 ->
  usable (n + c * 24 * Z.of_nat fuel) app w -> stays lib w0 w -> alive_gap w = alive_gap w0 ->
  gwf (result ← transport_call (send_request_unit env OP_ENCODE_FRAME (payload : EncodeFramePayload));
       match result with
       | inr _ => mret (-12902)
       | inl _ =>
           s ← as_vt_session session;
           if negb (vtf_output_poll_interval env =? 0) &&
              (vts_pending_count s mod vtf_output_poll_interval env =? 0)
           then delivered ← vtf_deliver_session_outputs env fuel session None;
                mret (match delivered with inl _ => 0 | inr status => status end)
           else mret 0
       end) (fun _ w' => answered n lib w0 w') w.
Proof.
  intros Hn Hnc U St Gp. assert (n <= n + c * 24 * Z.of_nat fuel) as Hle by nia.
  assert (forall w', answered n lib w w' -> answered n lib w0 w') as Hback.
  { intros w' (A1 & A2 & A3 & A4). split_and!; [done|by eapply stays_next|congruence|done]. }
  eapply gwf_seq; [apply (call_steady (lib ⊎ app) lib); [apply U|apply unit_calm|apply unit_sends]|]. intros r w1 Q.
  assert (answered n lib w w1) as Hdone by (eapply answered_mono; [exact Hle|by eapply usable_done]).
  pose proof (usable_steady _ _ Hsession _ _ _ _ U Q) as U1. destruct (us_session _ _ _ _ _ U1) as (s & Hs).
  destruct r as [[]|e]; [|by apply gwf_of, gwp_ret, Hback]. eapply gwf_eq_bind; [by apply as_session_run|].
  destruct (_ && _); [|by apply gwf_of, gwp_ret, Hback].
  eapply gwf_then; [by eapply session_outputs_ok|]. intros r w2 A. apply gwf_of, gwp_ret, Hback. by eapply steady_answered.
Qed.

Context (Hmalloc : forall bytes o o', app_malloc (os:=os) bytes o = (true, o') -> bytes <= ISIZE_MAX).

Lemma typed_stays w w' p ty : p ∈ lib -> stays lib w w' -> typed w p ty -> typed w' p ty.
Proof.
  intros Hp [Hb _ _] Ht Hp0. destruct (Ht Hp0) as (o & Ho & Et).
  destruct (Hb p (ob_body o) Hp) as (b & (o' & Ho' & Eo')%fmap_body & Ek & _); [by rewrite Ho|].
  exists o'. by rewrite Eo', Ek.
Qed.

Lemma encode_frame_answered fuel n app w buf pts duration refcon : buf ∈ lib -> 8 <= n -> n + c * 24 * Z.of_nat fuel < 2 ^ 30 ->
  usable (n + c * 24 * Z.of_nat fuel + 1) app w -> typed w buf VTF_TYPE_PIXEL_BUFFER ->
  gwf (VTCompressionSessionEncodeFrame env fuel session buf pts duration refcon) (fun _ w' => answered n lib w w') w.
Proof.
  intros Hbuf Hn Hnc U Ht. assert (0 <= c * 24 * Z.of_nat fuel) as Hle by nia.
  pose proof (us_counted _ _ _ _ _ U) as Hw. destruct (us_session _ _ _ _ _ U) as (s & Hs).
  assert (forall w', steady (lib ⊎ app) lib w w' -> answered n lib w w') as Hdone.
  { intros w' Q. eapply answered_mono; [|by eapply usable_done]. lia. }
  assert (steady (lib ⊎ app) lib w w) as Q0 by (by apply steady_same).
  unfold VTCompressionSessionEncodeFrame. rewrite (proj2 (Z.eqb_neq session 0)) by (by eapply body_nonzero).
  destruct (Z.eqb_spec buf 0) as [|Hb]; [by apply gwf_of, gwp_ret, Hdone|]. change (false || false) with false. cbv iota.
  eapply gwf_eq_bind; [by apply as_session_run|]. destruct (vts_invalidated s); [by apply gwf_of, gwp_ret, Hdone|].
  destruct (typed_pixel w buf Hb Ht) as [b Hbody]. eapply gwf_eq_bind; [by apply as_pixel_run|].
  destruct (negb _); [by apply gwf_of, gwp_ret, Hdone|].
  eapply gwf_seq; [by eapply prepare_ok|]. intros st w1 Q1. destruct (negb _); [by apply gwf_of, gwp_ret, Hdone|].
  pose proof (usable_steady _ _ Hsession _ _ _ _ U Q1) as U1.
  pose proof (typed_stays _ _ _ _ Hbuf (qt_stays _ _ _ _ Q1) Ht) as Ht1.
  eapply gwf_seq; [by apply (upload_ok lib (lib ⊎ app)); [apply U1|..]|]. intros up w2 [Q2 Ht2].
  pose proof (steady_trans _ _ _ _ _ _ _ ltac:(reflexivity) Q1 Q2) as Q12.
  pose proof (usable_steady _ _ Hsession _ _ _ _ U Q12) as U2.
  destruct up as [[]|e]; [|by apply gwf_of, gwp_ret, Hdone].
  destruct (typed_pixel w2 buf Hb Ht2) as [b2 Hb2]. pose proof Hb2 as (o2 & Ho2 & _)%fmap_body.
  eapply gwf_eq_bind; [unfold get_object; rewrite Ho2; reflexivity|].
  eapply gwf_eq_bind; [by apply as_pixel_run|].
  destruct (proxy_run w2 session (session_present session w2 (us_session _ _ _ _ _ U2))) as [id Eid].
  eapply gwf_eq_bind; [unfold encode_payload; rewrite (bind_eq _ _ _ _ _ Eid); reflexivity|].
  eapply gwf_seq; [eapply push_ok; [done|done| |exact U2|done|done]; lia|].
  intros pushed w3 (U3 & S3 & G3 & Ht3).
  assert (stays lib w w3 /\ alive_gap w3 = alive_gap w) as [St3 Gp3].
  { split; [eapply stays_next; [apply Q12|done]|]. rewrite G3. apply Q12. }
  destruct pushed; [change (negb true) with false; cbv iota|].
  2: { apply gwf_of, gwp_ret. destruct U3 as [X1 Xh X2 X3 X4]. split_and!; try done; [by rewrite Xh|]. eapply room_mono; [|exact X4]. lia. }
  destruct (typed_pixel w3 buf Hb Ht3) as [b3 Hb3]. eapply gwf_eq_bind; [by apply as_pixel_run|].
  destruct (put_pixel_steady (lib ⊎ app) lib w3 buf b3 (b3 <| px_state := VTF_CV_BUFFER_STATE_QUEUED_TO_HOST |>)
    (us_counted _ _ _ _ _ U3) Hb3) as (w4 & E4 & Q4 & _); try done.
  eapply gwf_eq_bind; [exact E4|]. apply (encode_sent_ok fuel n app); [done|done|by eapply usable_steady| |].
  - eapply stays_next; [exact St3|apply Q4].
  - rewrite <- Gp3. apply Q4.
Qed.
End calls.
End sessions.
