(* ===== verification/SessionProps.v ===== *)
(** * What an application can rely on

    Any sequence of calls on a compression session, with callbacks that keep to the
    ownership rules, leaves every count exact; and what a callback reads from the
    sample it is given is what the worker encoded. *)

From S2P Require Import Prelude Wire Protocol Layout Backend Transport Objects Release Refcount.
From S2P Require Import ReleaseSafe CoreFoundation Ownership Access CoreMedia CoreVideo Pixels Attachments.
From S2P Require Import Samples Client VideoToolbox Pending Properties Platform Sessions.
From stdpp Require Import strings gmultiset fin_maps relations.

Set Default Goal Selector "!".
Open Scope Z_scope.

(** The calls of an application on a session it has. *)
Inductive session_call :=
| Encode (imageBuffer : Z) (pts duration : CMTime) (sourceFrameRefcon : Z)
| Complete
| Prepare
| Relieve_pool
| Invalidate.

Section calls.
Context {os : Type} `{!Net os} `{!Profile} `{!App os} (env : environ).
Implicit Types (w : guest os) (lib app : gmultiset Z).
Abbreviation pan := (overflow_checks = true).

Definition session_run (fuel : nat) (session : Z) (call : session_call) : G os Z :=
  match call with
  | Encode buf pts duration refcon => VTCompressionSessionEncodeFrame env fuel session buf pts duration refcon
  | Complete => VTCompressionSessionCompleteFrames env fuel session
  | Prepare => VTCompressionSessionPrepareToEncodeFrames env session
  | Relieve_pool =>
      r ← vtf_deliver_outputs_for_pool_pressure env fuel session;
      mret (match r with inl _ => 0 | inr status => status end)
  | Invalidate => _ ← VTCompressionSessionInvalidate env session; mret 0
  end.

Fixpoint session_runs (fuel : nat) (session : Z) (calls : list session_call) : G os (list Z) :=
  match calls with
  | [] => mret []
  | call :: calls =>
      st ← session_run fuel session call;
      sts ← session_runs fuel session calls;
      mret (st :: sts)
  end.

(** A frame to encode is in a pixel buffer the caller has. *)
Definition may_call lib w (call : session_call) : Prop :=
  match call with
  | Encode buf _ _ _ => buf = 0 \/ (buf ∈ lib /\ typed w buf VTF_TYPE_PIXEL_BUFFER)
  | _ => True
  end.

Context (ledger : os -> gmultiset Z) (session c : Z) (lib : gmultiset Z).
Hypothesis (Hledger : forall o o', os_step o o' -> ledger o' = ledger o).
Hypothesis (Hc : 0 <= c) (Hsession : session ∈ lib) (Hexact : exact_reads).
Hypothesis (Hcb : forall callback, well_behaved ledger c callback).
Hypothesis (Hmalloc : forall bytes o o', app_malloc (os:=os) bytes o = (true, o') -> bytes <= ISIZE_MAX).
Abbreviation usable := (usable ledger session lib).
Abbreviation answered := (answered ledger).

Lemma gwf_assoc {A B D} (m : G os A) (f : A -> G os B) (g : B -> G os D) Q w :
  gwf ((m ≫= f) ≫= g) Q w = gwf (m ≫= (fun a => f a ≫= g)) Q w.
Proof. unfold gwf, mbind, G_bind. by destruct (m w) as [[a w']| | |]. Qed.

Lemma invalidate_ok n app w : usable n app w ->
  gwp pan (VTCompressionSessionInvalidate env session) (fun _ w' => steady (lib ⊎ app) lib w w') w.
Proof.
  intros U. pose proof (us_counted _ _ _ _ _ _ U) as Hw. destruct (us_session _ _ _ _ _ _ U) as (s & Hs).
  unfold VTCompressionSessionInvalidate. rewrite (proj2 (Z.eqb_neq session 0)) by (by eapply body_nonzero).
  eapply gwp_eq_bind; [by apply as_session_run|]. destruct (vts_invalidated s); [by apply gwp_ret, steady_same|].
  destruct (proxy_run w session (session_present session w (us_session _ _ _ _ _ _ U))) as [id Eid].
  eapply gwp_eq_bind; [exact Eid|]. eapply gwp_seq; [by eapply transport_call_runs; [..|apply destroy_session_calm|apply destroy_session_sends]|].
  intros r w1 (t & -> & Ro). pose proof (steady_transport _ lib w t Hw Ro) as Q.
  eapply gwp_eq_bind; [by apply (as_session_run _ _ s)|].
  destruct (put_session_steady session lib _ (w <| gs_transport := t |>) s (s <| vts_invalidated := true |>)
    (qt_counted _ _ _ _ Q) Hs) as (E & Q2 & _); [done|done|by apply (vts_ok_view s), session_ok_of with (lib ⊎ app) w session|].
  unfold gwp. rewrite E. by eapply steady_trans.
Qed.

Lemma session_run_ok fuel n app w call : 8 <= n -> n + (c * 24 * Z.of_nat fuel + 1) < 2 ^ 30 ->
  usable (n + (c * 24 * Z.of_nat fuel + 1)) app w -> may_call lib w call ->
  gwf (session_run fuel session call) (fun _ w' => answered n lib w w') w.
Proof.
  intros Hn Hnc U Hm. assert (0 <= c * 24 * Z.of_nat fuel) as Hle by nia.
  pose proof (us_counted _ _ _ _ _ _ U) as Hw. destruct (us_session _ _ _ _ _ _ U) as (s & Hs).
  assert (session <> 0) as Hs0 by (by eapply body_nonzero).
  assert (forall w', steady (lib ⊎ app) lib w w' -> answered n lib w w') as Hdone.
  { intros w' Q. eapply answered_mono; [|by eapply usable_done]. lia. }
  assert (usable (n + c * 24 * Z.of_nat fuel) app w) as U1.
  { destruct U as [X1 Xh X2 X3 X4]. split; try done. eapply room_mono; [|exact X4]. lia. }
  destruct call as [buf pts duration refcon| | | |]; cbn [session_run].
  - destruct Hm as [->|[Hbuf Ht]].
    + unfold VTCompressionSessionEncodeFrame. rewrite Z.eqb_refl, orb_true_r. apply gwf_of, gwp_ret, Hdone. by apply steady_same.
    + apply (encode_frame_answered env ledger Hledger session c lib Hc Hsession Hexact Hcb Hmalloc fuel n app); [done|done|lia| |done].
      by rewrite <- Z.add_assoc.
  - apply (complete_frames_ok env ledger Hledger session c lib Hc Hsession Hexact Hcb fuel n app); [done|lia|done].
  - unfold VTCompressionSessionPrepareToEncodeFrames. rewrite (proj2 (Z.eqb_neq session 0) Hs0). apply gwf_of.
    eapply gwp_eq_bind; [by apply as_session_run|]. destruct (vts_invalidated s); [by apply gwp_ret, Hdone, steady_same|].
    eapply gwp_mono; [by eapply prepare_ok|]. intros st w' Q. by apply Hdone.
  - unfold vtf_deliver_outputs_for_pool_pressure. rewrite (proj2 (Z.eqb_neq session 0) Hs0).
    rewrite gwf_assoc. eapply gwf_eq_bind; [by apply as_session_run|].
    destruct (vts_invalidated s); [by apply gwf_of, gwp_ret, Hdone, steady_same|]. cbv zeta. rewrite gwf_assoc.
    assert (forall deadline, gwf (r ← vtf_deliver_session_outputs env fuel session deadline;
      mret (match r with inl _ => 0 | inr status => status end)) (fun _ w' => answered n lib w w') w) as Hd.
    { intros d. eapply gwf_then; [apply (session_outputs_ok env ledger Hledger session c lib Hc Hsession Hexact Hcb fuel n app); [done|lia|done]|].
      intros r w' A. by apply gwf_of, gwp_ret. }
    destruct (_ =? 0); (eapply gwf_eq_bind; [reflexivity|apply Hd]).
  - eapply gwf_seq; [by eapply invalidate_ok|]. intros [] w' Q. by apply gwf_of, gwp_ret, Hdone.
Qed.

Lemma may_call_stays w w' call : stays lib w w' -> may_call lib w call -> may_call lib w' call.
Proof.
  intros St. destruct call; try done. intros [->|[Hb Ht]]; [by left|right]. split; [done|]. by eapply typed_stays.
Qed.

Lemma session_runs_ok fuel calls : forall n app w, 8 <= n ->
  n + (c * 24 * Z.of_nat fuel + 1) * len calls < 2 ^ 30 ->
  usable (n + (c * 24 * Z.of_nat fuel + 1) * len calls) app w -> Forall (may_call lib w) calls ->
  gwf (session_runs fuel session calls) (fun _ w' => answered n lib w w') w.
Proof.
  set (k := c * 24 * Z.of_nat fuel + 1). assert (0 <= k) as Hk by (unfold k; nia).
  induction calls as [|call calls IH]; intros n app w Hn Hnc U Hm.
  { apply gwf_of, gwp_ret. eapply answered_mono; [|eapply usable_done; [exact Hledger|exact U|by apply steady_same; [apply U|..]]]. simpl. lia. }
  apply list.Forall_cons in Hm as [Hcall Hm].
  replace (n + k * len (call :: calls)) with (n + k * len calls + k) in * by (simpl length; lia). cbn [session_runs].
  eapply gwf_then; [apply (session_run_ok fuel (n + k * len calls) app); [nia|done..]|]. intros st w1 A.
  destruct (usable_answered _ _ _ Hsession _ _ _ _ _ U A) as (app1 & U1 & St & _).
  eapply gwf_then; [apply (IH n app1); [done|lia|done|]|].
  { eapply Forall_impl; [exact Hm|]. intros x. by apply may_call_stays. }
  intros sts w2 A2. apply gwf_of, gwp_ret. eapply answered_trans; [exact A|exact A2].
Qed.
End calls.

(** ** Reading a sample through the interface *)

Record reads_as {os} (w : guest os) (sample : Z) (pts : CMTime) (size : Z) (bs : list byte)
    (sets : list (list byte)) : Prop := {
  ra_pts : CMSampleBufferGetPresentationTimeStamp sample w = Done (pts, w);
  ra_size : CMSampleBufferGetTotalSampleSize sample w = Done (size, w);
  ra_data : exists block p, CMSampleBufferGetDataBuffer sample w = Done (block, w) /\
    CMBlockBufferGetDataPointer block 0 true true true w =
      Done ((noErr, Some (len bs), Some (len bs), Some p), w) /\
    read_bytes p (len bs) w = Done (bs, w);
  ra_format : exists format codec, CMSampleBufferGetFormatDescription sample w = Done (format, w) /\
    CMFormatDescriptionGetMediaSubType format w = Done (codec, w) /\
    forall i set, sets !! i = Some set -> exists p nal,
      vtf_video_format_description_get_parameter_set_at_index format codec (Z.of_nat i) true true true true w =
        Done ((noErr, mk_parameter_set_out (Some p) (Some (len set)) (Some (len sets)) (Some nal)), w) /\
      read_bytes p (len set) w = Done (set, w)
}.

Section reads.
Context {os : Type} `{!Net os} `{!Profile} `{!App os}.
Implicit Types (w : guest os).

Lemma read_all w x bs : gs_blocks w !! x = Some bs -> read_bytes (Some (x, 0)) (len bs) w = Done (bs, w).
Proof.
  intros Hx. unfold read_bytes. destruct (Z.eqb_spec (len bs) 0) as [E|E]; [by destruct bs; [|simpl in E; lia]|].
  rewrite Hx, (proj2 (Z.leb_le 0 (len bs))), (proj2 (Z.leb_le (0 + len bs) (len bs))) by lia. simpl.
  unfold slice. rewrite drop_0, take_ge; [done|]. lia.
Qed.

Lemma sample_field_run own w sample sb {A} (d : A) get : counted own w ->
  ob_body <$> gs_heap w !! sample = Some (SampleBuffer sb) -> sample_field d get sample w = Done (get sb, w).
Proof.
  intros Hw Hs. unfold sample_field. rewrite (proj2 (Z.eqb_neq sample 0)) by (by eapply body_nonzero).
  apply fmap_body in Hs as (o & Ho & Eo). read_body.
Qed.

Lemma block_data_run own w block bb bs : counted own w ->
  ob_body <$> gs_heap w !! block = Some (BlockBuffer bb) -> block_holds w bb bs -> exists p,
  CMBlockBufferGetDataPointer block 0 true true true w = Done ((noErr, Some (len bs), Some (len bs), Some p), w) /\
  read_bytes p (len bs) w = Done (bs, w).
Proof.
  intros Hw Hb (Ho & El & Hbs). unfold CMBlockBufferGetDataPointer.
  rewrite (proj2 (Z.eqb_neq block 0)) by (by eapply body_nonzero).
  assert (as_block_buffer block w = Done (bb, w)) as Ea by (apply fmap_body in Hb as (o & Hob & Eo); read_body).
  rewrite (bind_eq _ _ _ _ _ Ea), El, Ho. destruct (Z.gtb_spec 0 (len bs)); [lia|]. simpl. rewrite Z.sub_0_r.
  eexists. split; [done|]. destruct Hbs as [->|(x & -> & Hx)]; [done|]. by apply read_all.
Qed.

Lemma parameter_set_run own w format fd sets i set : counted own w ->
  ob_body <$> gs_heap w !! format = Some (FormatDescription fd) -> format_holds w fd sets -> sets !! i = Some set ->
  exists p, vtf_video_format_description_get_parameter_set_at_index format (fd_codec_type fd) (Z.of_nat i)
      true true true true w =
    Done ((noErr, mk_parameter_set_out (Some p) (Some (len set)) (Some (len sets)) (Some (fd_nal_header_length fd))), w) /\
    read_bytes p (len set) w = Done (set, w).
Proof.
  intros Hw Hf (Hn & Hsets) Hi. destruct (Hsets i set Hi) as (x & Hp & Hsz & Hx). pose proof (lookup_lt_Some _ _ _ Hi).
  unfold vtf_video_format_description_get_parameter_set_at_index.
  rewrite (proj2 (Z.eqb_neq format 0)) by (by eapply body_nonzero).
  assert (as_format_description format w = Done (fd, w)) as Ea by (apply fmap_body in Hf as (o & Hob & Eo); read_body).
  rewrite (bind_eq _ _ _ _ _ Ea), Z.eqb_refl, Hn. change (negb true) with false. cbv iota zeta.
  destruct (Z.geb_spec (Z.of_nat i) (len sets)); [lia|]. exists (Some (x, 0)). split; [|by apply read_all].
  unfold nth_or_abort, mbind, G_bind. rewrite Nat2Z.id. unfold rawptr in *. rewrite Hp, Hsz. done.
Qed.

Lemma shows_reads own w sample sb bs sets : counted own w -> shows w sample sb bs sets ->
  reads_as w sample (smp_presentation_timestamp sb) (smp_total_sample_size sb) bs sets.
Proof.
  intros Hw [Hs (bb & Hbb & Hdata) (fd & Hfd & Hformat)]. split.
  - by apply (sample_field_run own).
  - by apply (sample_field_run own w sample sb).
  - destruct (block_data_run own w _ bb bs Hw Hbb Hdata) as (p & Ep & Er).
    exists (smp_data_buffer sb), p. split_and!; [|done..]. by apply (sample_field_run own w sample sb).
  - exists (smp_format_description sb), (fd_codec_type fd). split_and!.
    + by apply (sample_field_run own w sample sb).
    + unfold CMFormatDescriptionGetMediaSubType. rewrite (proj2 (Z.eqb_neq _ 0)) by (by eapply body_nonzero).
      apply fmap_body in Hfd as (o & Ho & Eo). read_body.
    + intros i set Hi. destruct (parameter_set_run own w _ fd sets i set Hw Hfd Hformat Hi) as (p & Ep & Er).
      by exists p, (fd_nal_header_length fd).
Qed.
End reads.

(** ** The properties *)

(** C7: counts stay exact through callbacks.  The application lists the references it
    holds in memory of its own ([ledger]), which system calls of the library do not change.
    For a session and buffers the caller keeps, callbacks that leave the library's objects
    alone, add at most [c] references to any object and keep their list true, and counts
    with room below [2^30] for what the callbacks can add, any sequence of session calls
    (encoding, completing, preparing, relieving a full pool, invalidating) runs without
    undefined behaviour for whatever the worker answers: it aborts only at an overflow in a
    checked build, and where it returns (a worker that never stops answering with outputs
    keeps it going) every object's count is exactly the number of references the caller,
    the application's list and the other objects hold, and the counter of live objects moved
    with the objects. *)
Theorem session_calls_counted {os} `{!Net os} `{!Profile} `{!App os} env (ledger : os -> gmultiset Z) session c
    (lib : gmultiset Z) fuel calls (w : guest os)
    (Hledger : forall o o', os_step o o' -> ledger o' = ledger o)
    (Hc : 0 <= c) (Hsession : session ∈ lib) (Hexact : exact_reads (os:=os))
    (Hcb : forall callback, well_behaved ledger c callback)
    (Hmalloc : forall bytes o o', app_malloc (os:=os) bytes o = (true, o') -> bytes <= ISIZE_MAX)
    (Hw : counted (lib ⊎ held ledger w) w) (Hs : session_at w session) (Hk : constants w)
    (Hcalls : Forall (may_call lib w) calls)
    (Hbound : 8 + (c * 24 * Z.of_nat fuel + 1) * len calls < 2 ^ 30)
    (Hroom : room (8 + (c * 24 * Z.of_nat fuel + 1) * len calls) w) :
  match session_runs env fuel session calls w with
  | Done (statuses, w') => counted (lib ⊎ held ledger w') w' /\ alive_gap w' = alive_gap w /\ session_at w' session
  | Aborted => overflow_checks = true
  | NoFuel => True
  | UB => False
  end.
Proof.
  assert (usable ledger session lib (8 + (c * 24 * Z.of_nat fuel + 1) * len calls) (held ledger w) w) as U by (by split).
  pose proof (session_runs_ok env ledger session c lib Hledger Hc Hsession Hexact Hcb Hmalloc fuel calls 8 _ w
    ltac:(lia) Hbound U Hcalls) as Hr. unfold gwf in Hr.
  destruct (session_runs env fuel session calls w) as [[sts w']| | |]; [|done..].
  destruct (usable_answered _ _ _ Hsession _ _ _ _ _ U Hr) as (app' & [U1 <- U2 U3 U4] & St & Gp). done.
Qed.

(** C12: an output reaches the callback as it was encoded.  Delivering an output of
    the worker, with its bytes in memory no object owns, is to run the application's
    callback on a new sample buffer and then to return the source buffer and release
    the sample; through the interface that sample reads as the output's time stamp,
    size and bytes and the parameter sets of its table, and every object is counted. *)
Theorem output_reaches_callback {os} `{!Net os} `{!Profile} `{!App os} env session callback (own : gmultiset Z) s
    (dq : DequeueOutputReply) size src frame x bs (w : guest os)
    (Hw : counted (refs_of [src] ⊎ own) w) (Hs : ob_body <$> gs_heap w !! session = Some (VtSession s))
    (Hroom : room 3 w) (Hk : constants w) (Hsrc : typed w src VTF_TYPE_PIXEL_BUFFER)
    (Hlen : len bs <= ISIZE_MAX) (Hbs : bs = [] \/ private x bs w) (Hdq : pod_ok dq = true) :
  exists sample w',
    deliver_sample env session callback dq size src frame (bytes_at x bs) (len bs) w =
      call_back env callback (vts_output_refcon s) frame src sample w' /\
    reads_as w' sample (mk_CMTime (dor_pts_value dq) (dor_pts_timescale dq) kCMTimeFlags_Valid 0) size bs
      (parameter_sets dq) /\
    counted ({[+ sample +]} ⊎ own) w' /\ alive_gap w' = alive_gap w.
Proof.
  destruct (deliver_prefix env own w session callback s dq size src frame x bs Hw Hs Hroom Hk Hsrc Hlen Hbs Hdq)
    as (smp & sb & w' & E & _ & Hsh & [P1 P2 P3 P4] & G & _).
  exists smp, w'. split_and!; [done| |apply G|apply G].
  rewrite <- P1, <- P2. eapply shows_reads; [apply G|done].
Qed.

(** ** A concrete run

    The worker makes the session, is prepared, and hands out one output; the
    callback keeps the sample. *)

(** The platform: what the worker is going to say, and the samples the application keeps. *)
Definition desk : Type := list byte * list Z.

#[local] Instance taped : Net desk := {|
  net_connect _ s := (Some 3, s);
  net_setsockopt _ _ _ s := (true, s);
  net_write_all _ _ s := (true, s);
  net_read_exact _ n s := if (length s.1 <? n)%nat then (None, s) else (Some (take n s.1), (drop n s.1, s.2));
  net_now _ := 0
|}.
#[local] Instance shipped_build : Profile := release_build.

#[local] Instance keeps_samples : App desk := {|
  app_output _ _ _ _ _ sample :=
    _ ← CFRetain sample;
    modify_guest (fun w =>
      let t := gs_transport w in
      w <| gs_transport := mk_transport (tp_backend t) (tp_killed t) (tp_deferred t) (tp_heartbeat t)
             ((tp_os t).1, sample :: (tp_os t).2) |>);
  app_decoded _ _ _ _ _ _ _ _ := mret tt;
  app_malloc bytes s := (bytes <=? ISIZE_MAX, s);
  app_sleep _ s := s
|}.
Definition kept_samples (s : desk) : gmultiset Z := refs_of s.2.

Lemma taped_exact : exact_reads (os:=desk).
Proof.
  intros fd n o bs o'. simpl. destruct (Nat.ltb_spec (length o.1) n); [done|]. intros [= <- <-].
  rewrite length_take. lia.
Qed.

Lemma taped_ledger o o' : os_step (os:=desk) o o' -> kept_samples o' = kept_samples o.
Proof. destruct 1; try done. unfold kept_samples. simpl. by case_match. Qed.

Lemma taped_malloc bytes (o o' : desk) : app_malloc bytes o = (true, o') -> bytes <= ISIZE_MAX.
Proof. intros [= E%Z.leb_le _]. done. Qed.

Lemma keeping_is_well_behaved callback : well_behaved kept_samples 1 callback.
Proof.
  intros lib n dq size src frame bs Hn sample sb refcon w Hsh _ Hw Hr.
  destruct (retain_chain _ w sample n Hw) as (E & Hc & Hr' & _); [|done|lia|].
  { pose proof (sh_sample _ _ _ _ _ Hsh) as Hb. apply fmap_body in Hb as (o & Ho & _). by eapply alive_some. }
  unfold gwp. cbn [app_output keeps_samples]. rewrite (bind_eq _ _ _ _ _ E). unfold modify_guest.
  match goal with |- answered _ _ _ _ ?x => set (w2 := x) end.
  assert (held kept_samples w2 = refs_of [sample] ⊎ held kept_samples w) as Eh by apply (refs_cons sample).
  split_and!.
  - rewrite Eh. apply counted_transport. refine (heap_ok_own _ _ _ _ _ _ Hc). clear. multiset_solver.
  - eapply stays_next; [apply retained_stays|by apply stays_refl].
  - apply retained_gap.
  - done.
Qed.

Definition one_output : DequeueOutputReply :=
  mk_DequeueOutputReply 5 11 VTF_VIDEO_CODEC_H264 640 360 0 100 30 30 1 3 1 1 4 [2; 0; 0; 0]
    (replicate (Z.to_nat VTF_TRANSPORT_MAX_PARAMETER_SET_BYTES) Byte.x67) 0 0 0 0.
Definition sample_bytes : list byte := [Byte.x01; Byte.x02; Byte.x03].
Definition batch_of (l : list DequeueOutputReply) : DequeueOutputBatchReply :=
  mk_DequeueOutputBatchReply 5 (len l) 0 (l ++ replicate (Z.to_nat VTF_TRANSPORT_MAX_OUTPUT_BATCH - length l) (zeroed DequeueOutputReply)).
Definition read_answer : list byte :=
  bytes_of (mk_MessageHeader VTF_TRANSPORT_VERSION 0 0 1 (Z.of_nat (size_of ReadOutputReply) + 3) STATUS_OK) ++
  bytes_of (mk_ReadOutputReply 11 3 0) ++ sample_bytes.

Definition encoding_tape : transport desk := mk_transport None false [] None
  (reply_of (mk_CreateSessionReply 5 640 360 0 0) ++ accepted ++ reply_of (mk_DrainReply 5 1 0) ++
   reply_of (batch_of [one_output]) ++ read_answer ++ reply_of (batch_of []) ++ accepted, []).

Definition enc0 : guest desk := guest_start encoding_tape.
Definition made_encoder : Z * guest desk :=
  match VTCompressionSessionCreate tcp_env 640 360 VTF_VIDEO_CODEC_H264 0 (Some 7) 9 true enc0 with
  | Done ((_, Some p), w) => (p, w)
  | _ => (0, enc0)
  end.
Definition encoder : Z := made_encoder.1.
Definition enc1 : guest desk := made_encoder.2.
Definition demo_calls : list session_call := [Prepare; Complete; Invalidate].
Definition enc2 : guest desk :=
  match session_runs tcp_env 3 encoder demo_calls enc1 with Done (_, w) => w | _ => enc1 end.

Lemma enc_step : VTCompressionSessionCreate tcp_env 640 360 VTF_VIDEO_CODEC_H264 0 (Some 7) 9 true enc0 =
  Done ((0, Some encoder), enc1).
Proof. by vm_compute. Qed.

Lemma enc_run : session_runs tcp_env 3 encoder demo_calls enc1 = Done ([0; 0; 0], enc2).
Proof. by vm_compute. Qed.

Lemma enc_made : exists f,
  made (VtSession (new_session 640 360 VTF_VIDEO_CODEC_H264 f 0 (Some 7) 9)) ∅ enc0 encoder enc1.
Proof.
  exists 0x34323076.
  pose proof (session_create_ok tcp_env ∅ enc0 640 360 VTF_VIDEO_CODEC_H264 0 (Some 7) 9 0x34323076
    (start_counted _) eq_refl (or_introl eq_refl)) as Hc.
  unfold gwp in Hc. rewrite enc_step in Hc.
  destruct Hc as [[? _]|(p & [= <-] & Hm)]; [apply room_tested; by vm_compute|done|done].
Qed.

Lemma enc_constants : constants enc1.
Proof. split_and!; eexists; (split; [by vm_compute|discriminate]). Qed.

Lemma enc_room : room 400 enc1.
Proof. apply room_tested. by vm_compute. Qed.

(** The sample the callback kept. *)
Definition enc_kept : Z := default 0 (head (os_of enc2).2).

Lemma session_calls_counted_witness :
  session_runs tcp_env 3 encoder demo_calls enc1 = Done ([0; 0; 0], enc2) /\
  held kept_samples enc2 = refs_of [enc_kept] /\ enc_kept <> 0 /\
  counted ({[+ encoder +]} ⊎ held kept_samples enc2) enc2 /\ alive_gap enc2 = alive_gap enc1 /\
  session_at enc2 encoder.
Proof.
  destruct enc_made as (f & Hm). split; [exact enc_run|]. split; [by vm_compute|]. split; [by vm_compute|].
  assert (counted ({[+ encoder +]} ⊎ held kept_samples enc1) enc1) as Hw by exact (made_counted _ _ _ _ _ Hm).
  pose proof (session_calls_counted tcp_env kept_samples encoder 1 {[+ encoder +]} 3 demo_calls enc1 taped_ledger
    ltac:(lia) ltac:(multiset_solver) taped_exact keeping_is_well_behaved taped_malloc
    Hw (ex_intro _ _ (made_body _ _ _ _ _ Hm)) enc_constants ltac:(by repeat constructor) ltac:(done)
    ltac:(eapply room_mono; [|exact enc_room]; simpl; lia)) as Hr.
  by rewrite enc_run in Hr.
Defined.

Lemma block_facts (w : guest desk) bs n p b : room n w -> constants w -> ob_body <$> gs_heap w !! p = Some b ->
  room n (with_block bs w) /\ constants (with_block bs w) /\ ob_body <$> gs_heap (with_block bs w) !! p = Some b.
Proof. done. Qed.

Lemma one_output_ok : pod_ok one_output = true.
Proof. by vm_compute. Qed.
Lemma one_output_sets : parameter_sets one_output = [[Byte.x67; Byte.x67]].
Proof. by vm_compute. Qed.

Lemma output_reaches_callback_witness : exists sample w',
  deliver_sample tcp_env encoder 7 one_output 3 0 0 (bytes_at (gs_next enc1) sample_bytes) (len sample_bytes)
    (with_block sample_bytes enc1) =
    call_back tcp_env 7 9 0 0 sample w' /\
  reads_as w' sample (mk_CMTime 100 30 kCMTimeFlags_Valid 0) 3 sample_bytes [[Byte.x67; Byte.x67]] /\
  counted ({[+ sample +]} ⊎ ({[+ encoder +]} ⊎ ∅)) w'.
Proof.
  destruct enc_made as (f & Hm). pose proof (made_counted _ _ _ _ _ Hm) as Hw.
  destruct (block_facts enc1 sample_bytes 3 encoder _ (room_mono 3 400 enc1 ltac:(lia) enc_room) enc_constants
    (made_body _ _ _ _ _ Hm)) as (Hr & Hk & Hb).
  pose proof (private_new _ _ sample_bytes Hw) as Hp. pose proof (counted_block _ _ sample_bytes Hw) as Hc0.
  assert (counted (refs_of [0] ⊎ ({[+ encoder +]} ⊎ ∅)) (with_block sample_bytes enc1)) as Hc1
    by (rewrite refs_null, (left_id_L ∅ (⊎)); exact Hc0).
  rewrite <- one_output_sets.
  destruct (output_reaches_callback tcp_env encoder 7 ({[+ encoder +]} ⊎ ∅) _ one_output 3 0 0 (gs_next enc1) sample_bytes
    _ Hc1 Hb Hr Hk ltac:(by intros []) ltac:(done)
    (or_intror Hp) one_output_ok) as (sample & w' & E & Hread & Hc & _).
  exists sample, w'. split_and!; [exact E|exact Hread|exact Hc].
Defined.
