(* ===== verification/Decompression.v ===== *)
(** * The guest's VideoToolbox: decompression sessions ([videotoolbox.rs])

    A session is made in two steps at the worker; frames go in by [DecodeFrame],
    decoded pixel buffers come out at the application's callback.  Log lines are
    left out. *)

From S2P Require Import Prelude Wire Protocol Layout Backend Transport Objects Release.
From S2P Require Import CoreFoundation CoreMedia CoreVideo DecodeFormat VideoToolbox.
From stdpp Require Import strings.

Set Default Goal Selector "!".
Open Scope Z_scope.

Section decompression.
Context {os : Type} `{!Net os} `{!Profile} `{!App os} (env : environ).
Abbreviation G := (Objects.G os).

(** ** Sessions *)

(** [(width as usize) * (height as usize) * 3 / 2] *)
Definition nominal_frame_bytes (width height : Z) : rust Z :=
  pixels ← arith 64 (wrap 64 width * wrap 64 height);
  three ← arith 64 (pixels * 3);
  Val (three / 2).

(** [output_callback] is the record's callback and reference, or null. *)
Definition VTDecompressionSessionCreate (video_format_description : Z)
    (output_callback : option (option Z * Z)) (decompression_session_out : bool) : G (Z * option Z) :=
  if negb decompression_session_out || (video_format_description =? 0) then mret (-12902, None) else
  if negb (is_enabled env) then mret (-12902, Some 0) else
  fd ← as_format_description video_format_description;
  let codec := fd_codec_type fd in
  let width := fd_width fd in
  let height := fd_height fd in
  created ← transport_call (create_session env
    (mk_CreateSessionPayload VTF_SESSION_KIND_DECODE codec (wrap 32 width) (wrap 32 height) 0 0 0 0 0));
  match created with
  | inr _ => mret (-12902, Some 0)
  | inl session_id =>
      let bail_out := _ ← transport_call (destroy_session env session_id); mret (-12902, Some 0) in
      packed ← vtf_pack_decode_format_payload session_id codec width height video_format_description;
      match packed with
      | inr _ => bail_out
      | inl format_payload =>
          set ← transport_call (send_request_unit env OP_SET_DECODE_FORMAT format_payload);
          match set with
          | inr _ => bail_out
          | inl _ =>
              let '(callback, refcon) := default (None, 0) output_callback in
              nominal ← of_rust (nominal_frame_bytes width height);
              let needs_chunked := nominal >? VTF_TRANSPORT_MAX_DECODED_FRAME_BYTES in
              bound ← (if needs_chunked
                       then transport_call (send_request_unit env OP_BIND_DECODE_OUTPUT_POOL
                              (mk_BindDecodeOutputPoolPayload session_id 0 (replicate 16 Byte.x00)))
                       else mret (inl tt));
              match bound with
              | inr _ => bail_out
              | inl _ =>
                  base ← vtf_cf_object_with_host_id VTF_TYPE_VT_DECOMPRESSION_SESSION
                           (Some Finalize_vt_decompression_session) session_id session_id 1;
                  format_description ← CFRetain video_format_description;
                  session ← new_object (mk_object base (VtDecompressionSession
                    {| vtd_codec_type := codec; vtd_width := width; vtd_height := height;
                       vtd_output_callback := callback; vtd_output_refcon := refcon;
                       vtd_format_description := format_description; vtd_format_set := true;
                       vtd_invalidated := false; vtd_chunked_output := needs_chunked |}));
                  _ ← vtf_record_vt_session_created;
                  mret (0, Some session)
              end
          end
      end
  end.

Definition VTDecompressionSessionInvalidate (session : Z) : G unit :=
  if session =? 0 then mret tt else
  s ← as_vt_decompression_session session;
  if vtd_invalidated s then mret tt else
  session_id ← proxy_of session;
  _ ← transport_call (destroy_session env session_id);
  s ← as_vt_decompression_session session;
  put_body session (VtDecompressionSession (s <| vtd_invalidated := true |>)).

(** ** Decoded frames *)

Definition release_decoded (session_id output_id : Z) : G unit :=
  _ ← transport_call (send_request_unit env OP_RELEASE_DECODED_FRAME
        (mk_ReleaseDecodedFramePayload session_id output_id));
  mret tt.

(** The pixels of a frame and its status: in chunks when the worker says so
    ([buffer_host_id]), else in one reply. *)
Definition fetch_decoded (session_id : Z) (reply : DequeueDecodedFrameReply) : G ((list byte * Z) + Z) :=
  let bail_out status := _ ← release_decoded session_id (ddr_output_id reply); mret (inr status) in
  if negb (ddr_buffer_host_id reply =? 0) then
    layout ← of_rust (vtf_decode_layout_for_format (ddr_width reply) (ddr_height reply)
                        (ddr_pixel_format reply));
    result ← transport_call (read_decoded_frame_chunk env session_id (ddr_output_id reply)
               (bl_total_size layout));
    match result with
    | inl bytes => mret (inl (bytes, ddr_status reply))
    | inr status => bail_out status
    end
  else
    result ← transport_call (read_decoded_frame env
               (mk_ReadDecodedFramePayload session_id (ddr_output_id reply)));
    match result with
    | inr status => bail_out status
    | inl read_bytes =>
        let header_size := size_of ReadDecodedFrameReply in
        if (length read_bytes <? header_size)%nat then abort else
        let read_reply := pod_read_unaligned (A:=ReadDecodedFrameReply) (take header_size read_bytes) in
        let expected_total := Z.of_nat header_size + rfr_sample_size read_reply in
        if len read_bytes <? expected_total then bail_out (-12902)
        else mret (inl (slice header_size (Z.to_nat (rfr_sample_size read_reply)) read_bytes,
                        rfr_status read_reply))
    end.

(** [backing_ptr.add(plane_offsets[i])] for the planes in use. *)
Fixpoint plane_pointers (base : rawptr) (offsets : list Z) : G (list rawptr) :=
  match offsets with
  | [] => mret []
  | off :: offsets =>
      p ← add_within base off;
      ps ← plane_pointers base offsets;
      mret (p :: ps)
  end.

(** The buffer that owns the pixels at [backing]. *)
Definition decoded_pixel_buffer (reply : DequeueDecodedFrameReply) (layout : BufferLayoutReply)
    (backing : rawptr) (backing_len : Z) (plane_data : list rawptr) : vtf_cv_pixel_buffer :=
  {| px_pool_ref := 0; px_pool_host_id := 0; px_host_generation := 0; px_host_backing_kind := 0;
     px_recycled := true; px_cache_valid := false;
     px_backing_store_owned := true; px_mapped_backing_active := false;
     px_state := VTF_CV_BUFFER_STATE_GUEST_WRITABLE;
     px_slot_index := 0; px_slot_offset := 0; px_slot_region_size := wrap 32 backing_len;
     px_lock_flags := 0; px_lock_snapshot := None; px_lock_snapshot_size := 0;
     px_backing_store := backing; px_backing_store_size := backing_len;
     px_mapped_region_base := None; px_mapped_region_size := 0;
     px_total_size := backing_len;
     px_width := ddr_width reply; px_height := ddr_height reply;
     px_pixel_format := ddr_pixel_format reply;
     px_plane_count := Z.min (bl_plane_count layout) 4;
     px_plane_offsets := plane_table layout (bl_plane_offsets layout);
     px_plane_widths := plane_table layout (bl_plane_widths layout);
     px_plane_heights := plane_table layout (bl_plane_heights layout);
     px_plane_bytes_per_row := plane_table layout (bl_plane_bytes_per_row layout);
     px_plane_data := pad4 None plane_data;
     px_attachments := 0; px_locked := false |}.

(** A frame wrapped in a pixel buffer and handed to the callback. *)
Definition deliver_decoded (callback refcon : Z) (reply : DequeueDecodedFrameReply) (bytes : list byte)
    (status_code : Z) : G unit :=
  backing ← box_bytes bytes;
  layout ← of_rust (vtf_decode_layout_for_format (ddr_width reply) (ddr_height reply)
                      (ddr_pixel_format reply));
  plane_data ← plane_pointers backing
    (take (Z.to_nat (Z.min (bl_plane_count layout) 4)) (bl_plane_offsets layout));
  pixel_buffer ← new_object (mk_object
    (mk_vtf_cf_object VTF_OBJECT_MAGIC VTF_TYPE_PIXEL_BUFFER 1 0 0 0 0 (Some Finalize_pixel_buffer))
    (PixelBuffer (decoded_pixel_buffer reply layout backing (len bytes) plane_data)));
  _ ← vtf_record_proxy_alive_increment;
  _ ← app_decoded callback refcon 0 (as_signed 32 status_code) 0 pixel_buffer
        (mk_CMTime (ddr_pts_value reply) (ddr_pts_timescale reply) kCMTimeFlags_Valid 0)
        (mk_CMTime (ddr_duration_value reply) (ddr_duration_timescale reply) kCMTimeFlags_Valid 0);
  CFRelease env pixel_buffer.

(** The [loop], one unit of fuel per frame. *)
Fixpoint drain_loop (fuel : nat) (session_id : Z) (callback : option Z) (refcon : Z) : G Z :=
  match fuel with
  | O => no_fuel
  | S fuel =>
      result ← transport_call (send_request env DequeueDecodedFrameReply OP_DEQUEUE_DECODED_FRAME
                 (mk_DequeueDecodedFramePayload session_id));
      match result with
      | inr status => mret (if status =? as_signed 32 STATUS_TIMEOUT then 0 else status)
      | inl reply =>
          if ddr_output_id reply =? 0 then mret (as_signed 32 (ddr_status reply)) else
          match callback with
          | None =>
              _ ← release_decoded session_id (ddr_output_id reply);
              drain_loop fuel session_id callback refcon
          | Some cb =>
              fetched ← fetch_decoded session_id reply;
              match fetched with
              | inr status => mret status
              | inl (bytes, status_code) =>
                  _ ← deliver_decoded cb refcon reply bytes status_code;
                  _ ← release_decoded session_id (ddr_output_id reply);
                  drain_loop fuel session_id callback refcon
              end
          end
      end
  end.

Definition vtf_drain_decoded_frames (fuel : nat) (session : Z) : G Z :=
  if session =? 0 then mret (-12902) else
  session_id ← proxy_of session;
  s ← as_vt_decompression_session session;
  drain_loop fuel session_id (vtd_output_callback s) (vtd_output_refcon s).

(** ** Encoded frames *)

Definition vtf_decompression_enqueue_inline (fuel : nat) (session : Z) (sample : vtf_cm_sample_buffer)
    (encoded_bytes : list byte) : G Z :=
  session_id ← proxy_of session;
  result ← transport_call (enqueue_encoded_frame env
    (mk_EnqueueEncodedFramePayload session_id 0 0 0 (wrap 32 (len encoded_bytes)) 0
       (cmt_value (smp_presentation_timestamp sample)) (cmt_timescale (smp_presentation_timestamp sample))
       0 0) encoded_bytes);
  match result with
  | inr status => mret status
  | inl _ => vtf_drain_decoded_frames fuel session
  end.

Definition vtf_decompression_enqueue_chunked (fuel : nat) (session : Z) (sample : vtf_cm_sample_buffer)
    (encoded_bytes : list byte) : G Z :=
  session_id ← proxy_of session;
  result ← transport_call (enqueue_encoded_frame_chunked env
    (mk_EnqueueEncodedFrameChunkPayload session_id (cmt_value (smp_presentation_timestamp sample)) 0
       0 0 0 0 0 (cmt_timescale (smp_presentation_timestamp sample)) 0 0) encoded_bytes);
  match result with
  | inr status => mret status
  | inl _ => vtf_drain_decoded_frames fuel session
  end.

(** [info_flags_out], if given, is set to [0] once the session is seen to be valid. *)
Definition VTDecompressionSessionDecodeFrame (fuel : nat) (session sample_buffer : Z) : G Z :=
  if (session =? 0) || (sample_buffer =? 0) then mret (-12902) else
  s ← as_vt_decompression_session session;
  if vtd_invalidated s then mret (-12903) else
  sample ← as_sample_buffer sample_buffer;
  if smp_data_buffer sample =? 0 then mret (-12902) else
  block ← as_block_buffer (smp_data_buffer sample);
  if bool_decide (bb_bytes block = None) || (bb_length block =? 0) then mret (-12902) else
  encoded_bytes ← read_bytes (bb_bytes block) (bb_length block);
  if negb (vtd_format_set s) then mret (-12903) else
  if len encoded_bytes <=? VTF_TRANSPORT_MAX_ENCODED_FRAME_BYTES
  then vtf_decompression_enqueue_inline fuel session sample encoded_bytes
  else vtf_decompression_enqueue_chunked fuel session sample encoded_bytes.

Definition VTDecompressionSessionWaitForAsynchronousFrames (fuel : nat) (session : Z) : G Z :=
  if session =? 0 then mret 0 else
  s ← as_vt_decompression_session session;
  if vtd_invalidated s then mret 0 else
  session_id ← proxy_of session;
  result ← transport_call (send_request env DrainReply OP_DRAIN (mk_DrainPayload session_id));
  match result with
  | inr _ => mret (-12902)
  | inl _ => vtf_drain_decoded_frames fuel session
  end.

Definition VTDecompressionSessionFinishDelayedFrames (fuel : nat) (session : Z) : G Z :=
  VTDecompressionSessionWaitForAsynchronousFrames fuel session.
End decompression.
