(* ===== verification/Link.v ===== *)
(** * Guest and worker, connected

    An operating system for [Transport] whose only listener is the worker of
    [Server]: bytes the guest writes wait until it reads, then the connection loop
    runs on them and what it sends is what the guest reads.  When the loop ends
    (an oversized request, a panic) the connection is gone: reads and writes
    fail.  Remote calls are thereby calls of the backend's [dispatch] through
    both ends of the code. *)

From S2P Require Import Prelude Wire Protocol Backend Stub Server Transport.
From stdpp Require Import strings.

Set Default Goal Selector "!".
Open Scope Z_scope.

Inductive listener (B : Type) :=
| Listening
| Serving (b : B) (buf : list byte)
| Gone.
Arguments Listening {B}.
Arguments Serving {B}.
Arguments Gone {B}.

(** [lk_in]: written by the guest, not yet served; [lk_out]: sent by the
    worker, not yet read. *)
Record link (B : Type) := mk_link {
  lk_server : listener B;
  lk_in : list byte;
  lk_out : list byte;
  lk_now : Z
}.
Arguments mk_link {B}.
Arguments lk_server {B}.
Arguments lk_in {B}.
Arguments lk_out {B}.
Arguments lk_now {B}.

Section link.
Context {B : Type} `{Backend B} `{Profile} (capacity : Z) (env : environ).

(** The connection loop on the bytes that have arrived. *)
Fixpoint pump (fuel : nat) (b : B) (buf inp out : list byte) : listener B * list byte * list byte :=
  match fuel, inp with
  | S fuel, _ :: _ =>
      match serve_one capacity b buf (Stream inp out None) with
      | Continue b' buf' st => pump fuel b' buf' (rx st) (tx st)
      | Break e => (Gone, [], tx (end_stream e))
      end
  | _, _ => (Serving b buf, inp, out)
  end.

Definition serve_pending (l : link B) : link B :=
  match lk_server l with
  | Serving b buf =>
      let '(server, inp, out) := pump (length (lk_in l)) b buf (lk_in l) (lk_out l) in
      mk_link server inp out (lk_now l)
  | _ => l
  end.

Definition link_connect (l : link B) : option Z * link B :=
  match lk_server l with
  | Listening =>
      (Some 3, mk_link (Serving (reset_from_env env create)
                          (replicate (Z.to_nat capacity) Byte.x00)) [] [] (lk_now l))
  | _ => (None, l)
  end.

Definition link_write (bs : list byte) (l : link B) : bool * link B :=
  match lk_server l with
  | Serving _ _ => (true, mk_link (lk_server l) (lk_in l ++ bs) (lk_out l) (lk_now l))
  | _ => (false, l)
  end.

Definition link_read (n : nat) (l : link B) : option (list byte) * link B :=
  let l := serve_pending l in
  if (length (lk_out l) <? n)%nat then (None, l)
  else (Some (take n (lk_out l)),
        mk_link (lk_server l) (lk_in l) (drop n (lk_out l)) (lk_now l)).

Definition link_net : Net (link B) := {|
  net_connect := fun _ => link_connect;
  net_setsockopt := fun _ _ _ l => (true, l);
  net_write_all := fun _ => link_write;
  net_read_exact := fun _ => link_read;
  net_now := lk_now
|}.
End link.

(** ** One round trip *)

Section rpc.
Context {B : Type} `{Backend B} `{Profile} (capacity : Z).
Context (Hcap : 0 <= capacity < 2 ^ 32) (env wenv : environ).
#[local] Existing Instance link_net.
#[local] Instance rpc_net : Net (link B) := link_net capacity wenv.

Definition request_header (op request_id : Z) (pl : list byte) : MessageHeader :=
  mk_MessageHeader VTF_TRANSPORT_VERSION op 0 request_id (wrap 32 (len pl)) 0.

(** What the guest makes of a response. *)
Definition call_result (h : MessageHeader) (body : list byte) : list byte + Z :=
  if negb (mh_status h =? STATUS_OK) then inr (as_signed 32 (mh_status h)) else inl body.

Lemma request_header_ok op id pl :
  0 <= op < 2 ^ 16 -> 0 <= id < 2 ^ 64 -> pod_ok (request_header op id pl) = true.
Proof.
  intros Hop Hid. assert (0 <= wrap 32 (len pl) < 2 ^ 32) by (apply Z.mod_pos_bound; lia).
  unfold request_header, VTF_TRANSPORT_VERSION. generalize dependent (wrap 32 (len pl)). intros n Hn.
  pod_ok_split; uint_range.
Qed.

Lemma serve_one_request (b : B) buf h pl out :
  pod_ok h = true -> mh_payload_len h = len pl -> len pl <= capacity ->
  serve_one capacity b buf (Stream (bytes_of h ++ pl) out None) =
  answer_request b buf h pl (Stream [] out None).
Proof.
  intros Hok Hl Hc. unfold serve_one.
  pose proof (read_request_spec capacity Hcap (Stream (bytes_of h ++ pl) out None)) as Hr.
  pose proof (parse_frames_encode_cons capacity Hcap 0 (h, pl) []) as Hp.
  unfold encode_frame in Hp. cbn [fst snd] in Hp. rewrite app_nil_r in Hp. cbn [rx] in Hr.
  rewrite Hp in Hr by (by apply frame_ok_spec). destruct Hr as (_ & _ & _ & _ & ->).
  cbn [rx tx tx_room fst snd]. rewrite drop_ge; [done|]. by rewrite length_app, length_bytes_of.
Qed.

Lemma answer_request_room (b : B) buf h pl out r s :
  dispatch _ h pl (IO b (zeroed MessageHeader) buf) = Val (r, s) ->
  0 <= default 0 r <= len (io_buf s) ->
  answer_request b buf h pl (Stream [] out None) =
  Continue (io_self s) (io_buf s)
    (Stream [] (out ++ bytes_of (response_header h (io_header s) r) ++
                take (Z.to_nat (default 0 r)) (io_buf s)) None).
Proof.
  intros Hd Hr. unfold answer_request. rewrite Hd. cbn [write_all tx_room rx tx negb].
  destruct (Z.gtb_spec (default 0 r) 0).
  - destruct (Z.gtb_spec (default 0 r) (len (io_buf s))); [lia|]. by rewrite <- app_assoc.
  - rewrite (Z2Nat.nonpos (default 0 r)), take_0, app_nil_r by lia. done.
Qed.

(** The state of the link between two calls. *)
Definition served (b : B) (buf : list byte) (now : Z) : link B := mk_link (Serving b buf) [] [] now.

(** What the worker has sent when the guest starts to read. *)
Lemma serve_pending_request (b : B) buf h pl now :
  pod_ok h = true -> mh_payload_len h = len pl -> len pl <= capacity ->
  serve_pending capacity (mk_link (Serving b buf) (bytes_of h ++ pl) [] now) =
  match answer_request b buf h pl (Stream [] [] None) with
  | Continue b' buf' st => mk_link (Serving b' buf') (rx st) (tx st) now
  | Break e => mk_link Gone [] (tx (end_stream e)) now
  end.
Proof.
  intros Hok Hl Hc. unfold serve_pending. cbn [lk_server lk_in lk_out lk_now].
  assert (length (bytes_of h ++ pl) = S (23 + length pl)) as ->
    by (rewrite length_app, length_bytes_of by done; done).
  destruct (bytes_of h ++ pl) as [|x inp] eqn:E.
  { apply (f_equal length) in E. rewrite length_app, length_bytes_of in E by done. done. }
  cbn [pump]. rewrite <- E, serve_one_request by done.
  unfold answer_request. destruct (dispatch _ _ _ _) as [[r s]|]; [|done].
  cbn [write_all tx_room rx tx negb]. repeat case_match; simplify_eq/=; done.
Qed.

(** Reading what has already been sent. *)
Lemma link_read_sent sv (bs rest : list byte) now :
  link_read capacity (length bs) (mk_link (B:=B) sv [] (bs ++ rest) now) =
  (Some bs, mk_link sv [] rest now).
Proof.
  unfold link_read. assert (serve_pending capacity (mk_link sv [] (bs ++ rest) now)
    = mk_link sv [] (bs ++ rest) now) as -> by (by destruct sv).
  cbn [lk_out lk_server lk_in lk_now]. rewrite length_app.
  destruct (Nat.ltb_spec (length bs + length rest) (length bs)); [lia|].
  by rewrite take_app_length, drop_app_length.
Qed.

Lemma link_write_request sv (bs pl : list byte) now :
  (match pl with [] => (true, mk_link (Serving sv.1 sv.2) bs [] now)
   | _ => link_write pl (mk_link (B:=B) (Serving sv.1 sv.2) bs [] now) end) =
  (true, mk_link (Serving sv.1 sv.2) (bs ++ pl) [] now).
Proof. destruct pl; [by rewrite app_nil_r|done]. Qed.

Lemma response_header_ok h rh r :
  pod_ok h = true -> pod_ok rh = true -> pod_ok (response_header h rh r) = true.
Proof.
  intros Hh Hr. unfold response_header, STATUS_UNSUPPORTED_OPCODE.
  assert (forall z, uint_ok 4 (wrap 32 z) = true) as Hw.
  { intros z. apply (uint_ok_spec 4). apply Z.mod_pos_bound. lia. }
  pod_fields Hh. pod_fields Hr.
  destruct r as [n|]; [specialize (Hw n); generalize dependent (wrap 32 n); intros n' Hw
                      |specialize (Hw 0); destruct (mh_status rh =? 0)];
    pod_ok_split; first [done|uint_range].
Qed.

(** A request that is served: the guest gets the dispatch result. *)
Lemma stream_round_trip (sb : StreamBackend) op pl (b : B) buf now r s :
  let h := request_header op (sb_request_id sb) pl in
  0 <= op < 2 ^ 16 -> 0 <= sb_request_id sb < 2 ^ 64 - 1 -> len pl <= capacity ->
  dispatch _ h pl (IO b (zeroed MessageHeader) buf) = Val (r, s) ->
  pod_ok (io_header s) = true -> 0 <= default 0 r <= len (io_buf s) -> len (io_buf s) < 2 ^ 32 ->
  stream_send_request_dynamic sb op pl (served b buf now) =
  Val (call_result (response_header h (io_header s) r) (take (Z.to_nat (default 0 r)) (io_buf s)),
       mk_StreamBackend (sb_stream sb) (sb_request_id sb + 1) (sb_poisoned sb) now,
       served (io_self s) (io_buf s) now).
Proof.
  intros h Hop Hid Hpl Hd Hh Hr Hbuf.
  assert (pod_ok h = true) as Hhok by (apply request_header_ok; lia).
  pose proof (response_header_ok h (io_header s) r Hhok Hh) as Hrok.
  assert (mh_payload_len h = len pl) as Hhl by (apply Z.mod_small; lia).
  set (rh := response_header h (io_header s) r) in *.
  set (body := take (Z.to_nat (default 0 r)) (io_buf s)).
  assert (mh_payload_len rh = len body) as Hrl.
  { unfold rh, body, response_header. rewrite length_take. destruct r as [n|]; simpl in *; [|done].
    unfold wrap. rewrite Z.mod_small by lia. lia. }
  unfold stream_send_request_dynamic. rewrite arith_in by lia. cbn [mbind rust_bind].
  cbn [sb_stream sb_request_id sb_poisoned sb_last_activity]. fold (request_header op (sb_request_id sb) pl).
  fold h. cbn [net_write_all rpc_net link_net]. unfold served at 1.
  cbn [link_write lk_server lk_in lk_out lk_now app negb].
  rewrite (link_write_request (b, buf)). cbn [negb fst snd].
  cbn [net_read_exact rpc_net link_net]. unfold link_read at 1.
  rewrite serve_pending_request, answer_request_room with (r:=r) (s:=s) by done.
  cbn [lk_out lk_server lk_in lk_now rx tx app]. fold rh. fold body.
  pose proof (length_bytes_of rh Hrok) as Hlen. rewrite length_app, Hlen.
  destruct (Nat.ltb_spec (size_of MessageHeader + length body) (size_of MessageHeader)); [lia|].
  rewrite take_app_length', drop_app_length' by done. rewrite pod_read_bytes_of by done.
  rewrite Hrl. destruct (Z.eqb_spec (len body) 0) as [E|E]; cbn [negb].
  - assert (body = []) as -> by (destruct body; [done|simpl in E; lia]).
    unfold call_result. by destruct (mh_status rh =? STATUS_OK).
  - rewrite Nat2Z.id. rewrite <- (app_nil_r body) at 2. rewrite link_read_sent.
    unfold call_result. by destruct (mh_status rh =? STATUS_OK).
Qed.

(** A request after which the worker is gone without an answer. *)
Lemma stream_lost (sb : StreamBackend) op pl (b : B) buf now :
  let h := request_header op (sb_request_id sb) pl in
  0 <= sb_request_id sb < 2 ^ 64 - 1 ->
  serve_pending capacity (mk_link (Serving b buf) (bytes_of h ++ pl) [] now)
    = mk_link Gone [] [] now ->
  stream_send_request_dynamic sb op pl (served b buf now) =
  Val (inr (as_signed 32 STATUS_INTERNAL_FAILURE),
       mk_StreamBackend (sb_stream sb) (sb_request_id sb + 1) true (sb_last_activity sb),
       mk_link Gone [] [] now).
Proof.
  intros h Hid Hg. unfold stream_send_request_dynamic. rewrite arith_in by lia.
  cbn [mbind rust_bind]. cbn [sb_stream sb_request_id sb_poisoned sb_last_activity].
  fold (request_header op (sb_request_id sb) pl). fold h.
  cbn [net_write_all rpc_net link_net]. unfold served at 1.
  cbn [link_write lk_server lk_in lk_out lk_now app negb].
  rewrite (link_write_request (b, buf)). cbn [negb fst snd].
  cbn [net_read_exact rpc_net link_net]. unfold link_read at 1. rewrite Hg. done.
Qed.

Lemma oversized_gone (b : B) buf op id pl now :
  0 <= op < 2 ^ 16 -> 0 <= id < 2 ^ 64 -> capacity < len pl < 2 ^ 32 ->
  serve_pending capacity (mk_link (Serving b buf) (bytes_of (request_header op id pl) ++ pl) [] now)
  = mk_link Gone [] [] now.
Proof.
  intros Hop Hid Hl. set (h := request_header op id pl).
  assert (pod_ok h = true) as Hok by (by apply request_header_ok).
  pose proof (length_bytes_of h Hok) as Hlen.
  unfold serve_pending. cbn [lk_server lk_in lk_out lk_now].
  destruct (bytes_of h ++ pl) as [|x inp] eqn:E.
  { apply (f_equal length) in E. rewrite length_app, Hlen in E. done. }
  cbn [length pump]. rewrite <- E. unfold serve_one, read_request, read_exact. cbn [rx tx tx_room].
  rewrite length_app, Hlen.
  destruct (Nat.ltb_spec (size_of MessageHeader + length pl) (size_of MessageHeader)); [lia|].
  rewrite take_app_length' by done. rewrite pod_read_bytes_of by done.
  assert (mh_payload_len h = len pl) as -> by (apply Z.mod_small; lia).
  by rewrite (proj2 (Z.gtb_lt _ _)) by lia.
Qed.

Lemma panic_gone (b : B) buf h pl now :
  pod_ok h = true -> mh_payload_len h = len pl -> len pl <= capacity ->
  dispatch _ h pl (IO b (zeroed MessageHeader) buf) = Panic ->
  serve_pending capacity (mk_link (Serving b buf) (bytes_of h ++ pl) [] now)
  = mk_link Gone [] [] now.
Proof.
  intros Hok Hl Hc Hd. rewrite serve_pending_request by done. unfold answer_request. by rewrite Hd.
Qed.

(** ** The transport while it is connected, and after it was lost *)

(** The transport [t] with a healthy connection whose next request id is [rid], to a
    worker in state [b]; the connection lost. *)
Definition online (t : transport (link B)) (rid : Z) (b : B) (buf : list byte)
    : transport (link B) :=
  mk_transport (Some (mk_StreamBackend 3 rid false (lk_now (tp_os t)))) (tp_killed t)
    (tp_deferred t) (tp_heartbeat t) (served b buf (lk_now (tp_os t))).

Definition offline (t : transport (link B)) : transport (link B) :=
  mk_transport None true (tp_deferred t) (tp_heartbeat t) (mk_link Gone [] [] (lk_now (tp_os t))).

Lemma send_request_online op pl t rid (b : B) buf :
  send_request_bytes env op pl (online t rid b buf) =
  ('(result, backend, o) ← stream_send_request_dynamic
      (mk_StreamBackend 3 rid false (lk_now (tp_os t))) op pl (served b buf (lk_now (tp_os t)));
   Val (result, put_stream backend o (online t rid b buf))).
Proof. done. Qed.

Lemma send_online op pl t rid (b : B) buf r s :
  let h := request_header op rid pl in
  0 <= op < 2 ^ 16 -> 0 <= rid < 2 ^ 64 - 1 -> len pl <= capacity ->
  dispatch _ h pl (IO b (zeroed MessageHeader) buf) = Val (r, s) ->
  pod_ok (io_header s) = true -> 0 <= default 0 r <= len (io_buf s) -> len (io_buf s) < 2 ^ 32 ->
  send_request_bytes env op pl (online t rid b buf) =
  Val (call_result (response_header h (io_header s) r) (take (Z.to_nat (default 0 r)) (io_buf s)),
       online t (rid + 1) (io_self s) (io_buf s)).
Proof.
  intros h Hop Hid Hpl Hd Hh Hr Hbuf. rewrite send_request_online.
  rewrite (stream_round_trip (mk_StreamBackend 3 rid false (lk_now (tp_os t))) op pl b buf
    (lk_now (tp_os t)) r s) by done. done.
Qed.

Lemma send_offline op pl t rid (b : B) buf :
  0 <= rid < 2 ^ 64 - 1 ->
  serve_pending capacity (mk_link (Serving b buf)
    (bytes_of (request_header op rid pl) ++ pl) [] (lk_now (tp_os t)))
    = mk_link Gone [] [] (lk_now (tp_os t)) ->
  send_request_bytes env op pl (online t rid b buf) =
  Val (inr (as_signed 32 STATUS_INTERNAL_FAILURE), offline t).
Proof.
  intros Hid Hg. rewrite send_request_online.
  rewrite (stream_lost (mk_StreamBackend 3 rid false (lk_now (tp_os t)))) by done. done.
Qed.

(** The first call connects. *)
Definition unconnected (now : Z) : transport (link B) :=
  mk_transport None false [] None (mk_link Listening [] [] now).

Lemma ensure_backend_connects now sel :
  stream_selection_from_env env = Some sel ->
  exists hb, ensure_backend env (unconnected now) =
    online (mk_transport None false [] (Some hb) (mk_link Listening [] [] now)) 1
      (reset_from_env wenv create) (replicate (Z.to_nat capacity) Byte.x00).
Proof.
  intros Hsel. unfold ensure_backend, unconnected, open_backend. cbn [tp_backend tp_killed tp_os].
  rewrite Hsel. unfold connect_stream, wrap_stream, apply_socket_timeouts.
  cbn -[stream_selection_from_env transport_timeout_ms replicate Z.to_nat].
  destruct (_ >? 0); cbn -[replicate Z.to_nat]; unfold ensure_heartbeat_thread; by eexists.
Qed.
End rpc.

(** Chunk headers are well formed. *)
Lemma chunk_payload_ok head total off n :
  pod_ok head = true -> pod_ok (chunk_payload head total off n) = true.
Proof.
  intros Hh. pod_fields Hh.
  assert (forall z, uint_ok 4 (wrap 32 z) = true) as Hw.
  { intros z. apply (uint_ok_spec 4). apply Z.mod_pos_bound. lia. }
  pose proof (Hw off) as Hx. pose proof (Hw n) as Hy. pose proof (Hw total) as Hz. clear Hw.
  unfold chunk_payload.
  generalize dependent (wrap 32 off). generalize dependent (wrap 32 n).
  generalize dependent (wrap 32 total). intros x Hx y Hy z Hz.
  destruct (off + n =? total); pod_ok_split; first [done|uint_range].
Qed.

(** ** Properties *)

Section properties.
Context {B : Type} `{Backend B} `{Profile}.
Implicit Types (t : transport (link B)).

(** The guest's view of one request, from the worker's specification. *)
Lemma send_respond `{!BackendSound B} capacity env wenv op pl t rid (b : B) buf :
  0 <= capacity < 2 ^ 32 -> 0 <= op < 2 ^ 16 -> 0 <= rid < 2 ^ 64 - 1 -> len pl <= capacity ->
  sound_inv b -> length buf = Z.to_nat capacity ->
  match respond b buf (request_header op rid pl, pl) with
  | Some (b', buf', (h, body)) =>
      length buf' = Z.to_nat capacity /\ sound_inv b' /\
        @send_request_bytes _ (link_net capacity wenv) _ env op pl (online t rid b buf) =
        Val (call_result h body, online t (rid + 1) b' buf')
  | None =>
      @send_request_bytes _ (link_net capacity wenv) _ env op pl (online t rid b buf) =
      Val (inr (as_signed 32 STATUS_INTERNAL_FAILURE), offline t)
  end.
Proof.
  intros Hcap Hop Hid Hpl Hb Hbuf.
  assert (pod_ok (request_header op rid pl) = true) as Hok by (apply request_header_ok; lia).
  pose proof (respond_sound capacity Hcap b buf (request_header op rid pl, pl) Hb Hbuf Hok) as Hs.
  destruct (respond b buf _) as [[[b' buf'] [h body]]|]; cbn [fst snd] in *.
  - destruct Hs as (h' & r & Hd & Hb' & Hh & Hl & Hr & [= -> ->]). split_and!; [done|done|].
    by rewrite (send_online capacity Hcap env wenv op pl t rid b buf r (IO b' h' buf'))
      by (cbn [io_self io_header io_buf]; done || lia).
  - apply send_offline; [done|]. apply panic_gone; try done. apply Z.mod_small. lia.
Qed.

(** C2: a remote call is a local dispatch, for every backend that keeps its replies within
    the response buffer ([BackendSound]: the stub, the mock and the VideoToolbox backend).
    Through the guest's transport and the worker's connection loop, a request of up to
    [capacity] bytes changes the worker's state and response buffer as [respond] (one
    dispatch with the connection's response buffer) says, and the caller gets exactly its
    answer: the reply bytes on [STATUS_OK], the status otherwise; the connection stays
    usable with the next request id.  If the dispatch panics, the caller gets an internal
    failure and the transport is killed. *)
Theorem remote_call_is_dispatch `{!BackendSound B} capacity env wenv op pl t rid (b : B) buf :
  0 <= capacity < 2 ^ 32 -> 0 <= op < 2 ^ 16 -> 0 <= rid < 2 ^ 64 - 1 -> len pl <= capacity ->
  sound_inv b -> length buf = Z.to_nat capacity ->
  @send_request_bytes _ (link_net capacity wenv) _ env op pl (online t rid b buf) =
  match respond b buf (request_header op rid pl, pl) with
  | Some (b', buf', (h, body)) => Val (call_result h body, online t (rid + 1) b' buf')
  | None => Val (inr (as_signed 32 STATUS_INTERNAL_FAILURE), offline t)
  end.
Proof.
  intros Hcap Hop Hid Hpl Hb Hbuf.
  pose proof (send_respond capacity env wenv op pl t rid b buf Hcap Hop Hid Hpl Hb Hbuf) as Hs.
  destruct (respond _ _ _) as [[[b' buf'] [h body]]|]; [|done]. by destruct Hs as (_ & _ & ?).
Qed.

End properties.

(** ** A concrete link: the stub worker behind TCP *)

Definition tcp_env : environ := fun name =>
  if bool_decide (name = "VT_FERRY_TRANSPORT") then Some "tcp" else None.

Definition stub_link_start : transport (link VtStubBackend) := unconnected 0.

Lemma remote_call_is_dispatch_witness :
  exists bs buf', length bs = 48%nat /\
    @send_request_bytes _ (link_net (H0:=debug_build) 4096 no_env) debug_build tcp_env OP_HELLO []
      (online stub_link_start 1 create (replicate (Z.to_nat 4096) Byte.x00)) =
    Val (inl bs, online stub_link_start 2 create buf').
Proof.
  pose proof (remote_call_is_dispatch (B:=VtStubBackend) (H0:=debug_build) 4096 tcp_env no_env
    OP_HELLO [] stub_link_start 1 create (replicate (Z.to_nat 4096) Byte.x00)
    ltac:(lia) ltac:(cbv; split; congruence) ltac:(lia) ltac:(simpl; lia) sound_create
    (length_replicate _ _)) as Hs.
  destruct (respond _ _ _) as [[[b' buf'] [h body]]|] eqn:E; vm_compute in E; [|discriminate E].
  injection E as <- <- <- <-. eexists _, _. split; [|exact Hs]. reflexivity.
Defined.

(** A frame of 2 MiB and one byte. *)
Definition large_frame : list byte := replicate (Z.to_nat (2 * 1024 * 1024 + 1)) Byte.x00.
Definition large_inline : EnqueueEncodedFramePayload :=
  mk_EnqueueEncodedFramePayload 1 0 0 0 (2 * 1024 * 1024 + 1) 0 0 600 0 0.


(** A worker with room for 4-byte requests drops the connection on the first
    8-byte one. *)
Lemma failure_is_terminal_witness :
  exists rs t1 rs' t2,
    @perform_all _ (link_net (B:=VtStubBackend) (H0:=debug_build) 4 no_env) debug_build tcp_env
      [call_drain 5] stub_link_start = Val (rs, t1) /\
    @perform_all _ (link_net (B:=VtStubBackend) (H0:=debug_build) 4 no_env) debug_build tcp_env
      [call_drain 5; call_heartbeat 0; call_write_buffer 1 1 [Byte.x01]] t1 = Val (rs', t2) /\
    tp_os t2 = tp_os t1 /\ Forall2 refused [call_drain 5; call_heartbeat 0;
      call_write_buffer 1 1 [Byte.x01]] rs'.
Proof.
  set (net := link_net (B:=VtStubBackend) (H0:=debug_build) 4 no_env).
  assert (tp_ok stub_link_start) as Ht by (split; [done|intros b Hb; discriminate Hb]).
  destruct (@perform_all _ net debug_build tcp_env [call_drain 5] stub_link_start)
    as [[rs t1]|] eqn:E; [|vm_compute in E; discriminate E].
  assert (tp_killed t1 = true) as Hk by (vm_compute in E; injection E as <- <-; reflexivity).
  destruct (failure_is_terminal tcp_env [call_drain 5]
    [call_drain 5; call_heartbeat 0; call_write_buffer 1 1 [Byte.x01]] stub_link_start rs t1
    Ht E Hk)
    as (rs' & t2 & E' & Ho & _ & Hr).
  exists rs, t1, rs', t2. by split_and!.
Defined.
