(* ===== verification/LinkVt.v ===== *)
(** * Encoded frames over the VideoToolbox worker

    The guest's [enqueue_encoded_frame_chunked] over the connection of [Link], with
    the VideoToolbox backend behind it: what a connection's thread runs is the
    backend together with the directory and the machine it shares. *)

From S2P Require Import Prelude Wire Protocol Layout Backend Frameworks PoolDirectory.
From S2P Require Import PixelCopy Sim VtReal VtDispatch VtDecode Server Transport Link.
From stdpp Require Import strings.

Set Default Goal Selector "!".
Open Scope Z_scope.

(** [impl Backend for VtRealBackend], from the world [w0] a connection starts in. *)
Definition vt_backend {host} `{!Frameworks host} `{!HashOrder} (w0 : world host)
    : Backend (world host) := {|
  create := w0;
  reset_from_env := fun _ w => on_self vt_reset_from_env w;
  dispatch := fun p rq pl s => run (@vt_dispatch host _ _ p rq pl) s
|}.

Section enqueue.
Context {host : Type} `{!Frameworks host} `{!HashOrder} `{!Profile}.
Context (w0 : world host) (capacity : Z) (env wenv : environ).
Context (Hcap : 0 <= capacity < 2 ^ 32).
#[local] Instance vt_world_backend : Backend (world host) := vt_backend w0.
#[local] Instance vt_net : Net (link (world host)) := link_net capacity wenv.
Implicit Types (t : transport (link (world host))) (w : world host).

(** The guest's result for a request answered with status [st] and no payload. *)
Definition status_result (st : Z) : list byte + Z :=
  if st =? STATUS_OK then inl [] else inr (as_signed 32 st).

Lemma chunk_call t rid w buf p d :
  pod_ok p = true -> 0 <= rid < 2 ^ 64 - 1 -> len (bytes_of p ++ d) <= capacity ->
  len buf < 2 ^ 32 ->
  match chunk_result p d w with
  | Val (st, _, w') => 0 <= st < 2 ^ 32 ->
      send_request_bytes env OP_ENQUEUE_ENCODED_FRAME_CHUNK (bytes_of p ++ d) (online t rid w buf) =
      Val (status_result st, online t (rid + 1) w' buf)
  | Panic =>
      send_request_bytes env OP_ENQUEUE_ENCODED_FRAME_CHUNK (bytes_of p ++ d) (online t rid w buf) =
      Val (inr (as_signed 32 STATUS_INTERNAL_FAILURE), offline t)
  end.
Proof.
  intros Hp Hid Hl Hbuf. pose proof (run_chunk p d w buf Hp) as Hrun.
  set (h := request_header OP_ENQUEUE_ENCODED_FRAME_CHUNK rid (bytes_of p ++ d)).
  assert (forall r, run (vt_enqueue_encoded_frame_chunk (bytes_of p ++ d)) (IO w ok_header buf) = r ->
    dispatch _ h (bytes_of p ++ d) (IO w (zeroed MessageHeader) buf) = r) as Hd by done.
  destruct (chunk_result p d w) as [[[st body] w']|].
  - intros Hst. assert (pod_ok (header_with_status st ok_header) = true) as Hh.
    { assert (uint_ok 4 st = true) by (by apply (uint_ok_spec 4)).
      unfold header_with_status. pod_ok_split; done. }
    etrans; [apply (send_online capacity Hcap env wenv OP_ENQUEUE_ENCODED_FRAME_CHUNK
      (bytes_of p ++ d) t rid w buf (Some 0) (IO w' (header_with_status st ok_header) buf));
      [done|done|done|by apply Hd|done|simpl; lia|done]|].
    unfold call_result, status_result. cbn [response_header mh_status header_with_status io_header].
    by destruct (st =? STATUS_OK).
  - apply send_offline; [done|]. apply panic_gone; try done;
      [apply request_header_ok; [done|lia]|apply Z.mod_small; lia].
Qed.

Lemma decode_status_range id bs a b c d w st w' :
  dispatch_decode_assembled_frame id bs a b c d w = Val (st, w') -> 0 <= st < 2 ^ 32.
Proof.
  unfold dispatch_decode_assembled_frame, mbind, rust_bind. intros E.
  repeat case_match; simplify_eq/=; done.
Qed.

(** How a delivery ends for the guest. *)
Definition delivery_result t rid buf (r : rust (Z * world host))
    : rust ((unit + Z) * transport (link (world host))) :=
  match r with
  | Val (st, w') =>
      Val (if st =? STATUS_OK then inl tt else inr (as_signed 32 st), online t rid w' buf)
  | Panic => Val (inr (as_signed 32 STATUS_INTERNAL_FAILURE), offline t)
  end.

(** ** The chunks the guest sends *)

Section frame.
Context (head : EnqueueEncodedFrameChunkPayload) (bytes : list byte) (w : world host).
Abbreviation id := (ekp_session_id head).
Context (Hhead : pod_ok head = true) (Htotal : 0 < len bytes <= MAX_CHUNKED_ENCODED_FRAME_BYTES).
Context (Hsession : is_Some (vr_decode_sessions (w_self w) !! id)).

(** The worker once the first [off] bytes have arrived. *)
Definition partial (off : Z) : world host :=
  if off =? 0 then w
  else with_pending id (pending_of (chunk_payload head (len bytes) 0 0)
                          (take (Z.to_nat off) bytes)) w.

Lemma guest_chunk_at off n :
  0 <= off -> 0 < n -> off + n <= len bytes ->
  chunk_at id (len bytes) off
    (chunk_payload head (len bytes) off n, slice (Z.to_nat off) (Z.to_nat n) bytes).
Proof.
  intros Ho Hn Hle. unfold MAX_CHUNKED_ENCODED_FRAME_BYTES in Htotal.
  split_and!; cbn [fst snd]; [by apply chunk_payload_ok|done|apply Z.mod_small; lia..|].
  rewrite length_slice, Z2Nat.id by lia. apply Z.mod_small. lia.
Qed.

(** One chunk of the guest on the worker's side. *)
Lemma guest_chunk_result off n :
  0 <= off -> 0 < n -> off + n <= len bytes ->
  chunk_result (chunk_payload head (len bytes) off n) (slice (Z.to_nat off) (Z.to_nat n) bytes)
    (partial off) =
  if off + n =? len bytes
  then '(st, w') ← deliver id head bytes (without_pending id w); Val (st, [], w')
  else Val (STATUS_OK, [], partial (off + n)).
Proof.
  intros Ho Hn Hle. pose proof (guest_chunk_at off n Ho Hn Hle) as Hc.
  set (d := slice (Z.to_nat off) (Z.to_nat n) bytes) in *.
  set (p := chunk_payload head (len bytes) off n) in *.
  assert (len d = n) as Hd by (unfold d; rewrite length_slice; lia).
  assert (d = [] -> ekp_is_final_chunk p <> 0) as Hne
    by (intros E; rewrite E in Hd; simpl in Hd; lia).
  assert (len bytes < 2 ^ 32) by (unfold MAX_CHUNKED_ENCODED_FRAME_BYTES in Htotal; lia).
  assert (chunk_result p d (partial off) =
    let w' := with_pending id (pending_of (chunk_payload head (len bytes) 0 0)
                (take (Z.to_nat (off + n)) bytes)) w in
    if ekp_is_final_chunk p =? 0 then Val (STATUS_OK, [], w') else finish_chunk id w') as ->.
  { rewrite <- (exec_chunk p d 0) by apply Hc. unfold partial. destruct (Z.eqb_spec off 0) as [->|Hoff].
    - rewrite (exec_head_chunk id (len bytes) (p, d)); cbn [fst snd]; try done; try lia.
    - rewrite (exec_next_chunk id (len bytes) off _ _ (p, d)); cbn [fst snd]; try done; try lia.
      + replace (take (Z.to_nat (off + n)) bytes) with (take (Z.to_nat off) bytes ++ d); [done|].
        unfold d, slice. rewrite take_take_drop. f_equal. lia.
      + apply Z.mod_small. lia.
      + rewrite length_take. lia. }
  cbv zeta. unfold p, chunk_payload at 1. cbn [ekp_is_final_chunk].
  destruct (Z.eqb_spec (off + n) (len bytes)) as [E|E]; cbn [Z.eqb].
  - rewrite E, Nat2Z.id, take_ge by done. rewrite finish_with_pending; [done| |lia].
    apply Z.mod_small. lia.
  - unfold partial. by rewrite (proj2 (Z.eqb_neq _ _)) by lia.
Qed.

(** The sending loop from offset [off]. *)
Lemma enqueue_loop_delivers t buf fuel off rid :
  len buf < 2 ^ 32 ->
  Z.min (len bytes) VTF_TRANSPORT_MAX_ENCODED_FRAME_BYTES + 56 <= capacity ->
  0 <= off < len bytes -> len bytes - off < Z.of_nat fuel ->
  0 <= rid -> rid + (len bytes - off) < 2 ^ 64 - 1 ->
  exists rid', enqueue_loop env fuel head bytes off (online t rid (partial off) buf) =
  delivery_result t rid' buf (deliver id head bytes (without_pending id w)).
Proof.
  intros Hbuf Hroom. revert off rid. induction fuel as [|fuel IH]; intros off rid Ho Hf Hr0 Hr1; [lia|].
  cbn [enqueue_loop]. destruct (Z.ltb_spec off (len bytes)); [|lia].
  assert (0 < VTF_TRANSPORT_MAX_ENCODED_FRAME_BYTES) by done.
  set (n := Z.min (len bytes - off) VTF_TRANSPORT_MAX_ENCODED_FRAME_BYTES).
  assert (0 < n /\ off + n <= len bytes) as [Hn Hle] by lia.
  pose proof (guest_chunk_result off n ltac:(lia) Hn Hle) as Hres.
  pose proof (guest_chunk_at off n ltac:(lia) Hn Hle) as (Hp & _). cbn [fst] in Hp.
  pose proof (chunk_call t rid (partial off) buf _ (slice (Z.to_nat off) (Z.to_nat n) bytes)
    Hp ltac:(lia)) as Hcall.
  rewrite Hres in Hcall. unfold mbind at 1, T_bind.
  assert (len (bytes_of (chunk_payload head (len bytes) off n) ++
    slice (Z.to_nat off) (Z.to_nat n) bytes) <= capacity) as Hl.
  { rewrite length_app, length_slice, length_bytes_of by (done || lia).
    change (size_of EnqueueEncodedFrameChunkPayload) with 56%nat. lia. }
  specialize (Hcall Hl Hbuf).
  destruct (Z.eqb_spec (off + n) (len bytes)) as [E|E].
  - exists (rid + 1). unfold mbind, rust_bind in Hcall. unfold delivery_result.
    destruct (deliver id head bytes (without_pending id w)) as [[st w']|] eqn:Ed.
    + rewrite Hcall by (by eapply decode_status_range). unfold status_result.
      destruct (st =? STATUS_OK); [|done].
      destruct fuel as [|fuel]; [lia|]. cbn [enqueue_loop].
      destruct (Z.ltb_spec (off + n) (len bytes)); [lia|done].
    + by rewrite Hcall.
  - rewrite Hcall by done. cbn [status_result]. change (STATUS_OK =? STATUS_OK) with true. cbv iota.
    apply IH; lia.
Qed.
End frame.
End enqueue.

(** C4: the guest's frame reaches the decoder whole. Over a connection whose
    worker accepts requests of the guest's chunk size (with the shipped
    worker, which accepts 2 MiB, frames of up to that less the 56 bytes of the
    head; a larger one ends the connection), sending an encoded frame of up to
    64 MiB with [enqueue_encoded_frame_chunked] has the effect and the result
    of handing exactly its bytes, with the head's timing, to the session's
    decoder once; whatever an earlier unfinished frame left behind is gone. *)
Theorem guest_frame_is_decoded {host} `{!Frameworks host} `{!HashOrder} `{!Profile}
    (w0 : world host) capacity env wenv head bytes w t rid buf :
  0 <= capacity < 2 ^ 32 -> pod_ok head = true ->
  0 < len bytes <= MAX_CHUNKED_ENCODED_FRAME_BYTES ->
  Z.min (len bytes) VTF_TRANSPORT_MAX_ENCODED_FRAME_BYTES + 56 <= capacity ->
  is_Some (vr_decode_sessions (w_self w) !! ekp_session_id head) ->
  len buf < 2 ^ 32 -> 0 <= rid -> rid + len bytes < 2 ^ 64 - 1 ->
  exists rid',
    @enqueue_encoded_frame_chunked _ (vt_net w0 capacity wenv) _ env head bytes (online t rid w buf) =
    delivery_result t rid' buf
      (dispatch_decode_assembled_frame (ekp_session_id head) bytes (ekp_pts_value head)
         (ekp_pts_timescale head) (ekp_duration_value head) (ekp_duration_timescale head)
         (without_pending (ekp_session_id head) w)).
Proof.
  intros Hcap Hhead Htot Hroom Hs Hbuf Hr0 Hr1. unfold enqueue_encoded_frame_chunked.
  unfold MAX_CHUNKED_ENCODED_FRAME_BYTES in *. destruct (Z.eqb_spec (len bytes) 0); [lia|].
  unfold U32_MAX. destruct (Z.gtb_spec (len bytes) (2 ^ 32 - 1)); [lia|].
  destruct (enqueue_loop_delivers w0 capacity env wenv Hcap head bytes w Hhead Htot Hs t buf
    (S (length bytes)) 0 rid) as (rid' & E); [lia..|]. by exists rid'.
Qed.

#[local] Existing Instance key_order.

Definition demo_frame : list byte := [Byte.x01; Byte.x02; Byte.x03; Byte.x04; Byte.x05].

Lemma guest_frame_is_decoded_witness :
  exists rid' w',
    @enqueue_encoded_frame_chunked _ (vt_net (H0:=debug_build) demo_world 4096 no_env) debug_build
      tcp_env (demo_chunk 0 [] 0) demo_frame
      (online (unconnected 0) 1 demo_world (replicate 4096 Byte.x00)) =
    Val (inl tt, online (unconnected 0) rid' w' (replicate 4096 Byte.x00)) /\
    sim_decoded (mc_host (w_machine w')) = [demo_frame].
Proof.
  destruct (guest_frame_is_decoded (H0:=debug_build) demo_world 4096 tcp_env no_env
    (demo_chunk 0 [] 0) demo_frame demo_world (unconnected 0) 1 (replicate 4096 Byte.x00))
    as (rid' & E); [lia|reflexivity|split; vm_compute; congruence|vm_compute; congruence
                   |by eexists|rewrite length_replicate; lia|lia|simpl; lia|].
  exists rid'. eexists. split; [etransitivity; [exact E|]|].
  - unfold delivery_result.
    destruct (dispatch_decode_assembled_frame _ _ _ _ _ _ _) as [[st w']|] eqn:Ed;
      vm_compute in Ed; [|discriminate Ed].
    injection Ed as <- <-. reflexivity.
  - reflexivity.
Defined.
