(* ===== verification/VtServer.v ===== *)
(** * The VideoToolbox backend behind the connection loop

    Every arm of the VideoToolbox backend leaves the response header in range and answers
    with no more bytes than the response buffer holds, from any state of the world; so the
    theorems about the connection loop, the remote call and the bridge hold for it.  The
    backend of a connection shares its world with VideoToolbox's callbacks and the other
    connections: [shared_backend] lets the world change in any way between two requests. *)

From S2P Require Import Prelude Wire Protocol Layout Backend Frameworks PoolDirectory.
From S2P Require Import PixelCopy Sim VtReal VtDispatch VtDecode Server Transport Link LinkVt.
From stdpp Require Import strings.

Set Default Goal Selector "!".
Open Scope Z_scope.

(** ** A logic of the response header and buffer *)

Section fits.
Context {host : Type} `{!Frameworks host} `{!HashOrder} `{!Profile}.
Abbreviation MW := (M (world host)).
Context (L : nat).

(** With a buffer of [L] bytes, [m] continues in [Q] or answers what fits. *)
Definition fits {A} (m : MW A) (Q : A -> Prop) : Prop := forall s,
  pod_ok (io_header s) = true -> length (io_buf s) = L ->
  match m s with
  | Next a s' => Q a /\ pod_ok (io_header s') = true /\ length (io_buf s') = L
  | Return r s' => pod_ok (io_header s') = true /\ length (io_buf s') = L /\ 0 <= default 0 r <= Z.of_nat L
  | Panicked => True
  end.

Lemma fits_bind {A A'} (m : MW A) (f : A -> MW A') Q :
  fits m (fun a => fits (f a) Q) -> fits (m ≫= f) Q.
Proof.
  intros Hm s Hh Hl. specialize (Hm s Hh Hl). unfold mbind, M_bind.
  destruct (m s) as [a s'| |]; [|done|done]. destruct Hm as (Hf & Hh' & Hl'). by apply Hf.
Qed.

Lemma fits_mono {A} (m : MW A) (Q Q' : A -> Prop) : fits m Q -> (forall a, Q a -> Q' a) -> fits m Q'.
Proof.
  intros Hm HQ s Hh Hl. specialize (Hm s Hh Hl). destruct (m s); [|done|done].
  destruct Hm as (? & ? & ?). auto.
Qed.

Lemma fits_ret {A} (a : A) (Q : A -> Prop) : Q a -> fits (mret a) Q.
Proof. by intros HQ s Hh Hl. Qed.

Lemma status_fits st h : uint_ok 4 st = true -> pod_ok h = true -> pod_ok (header_with_status st h) = true.
Proof. intros Hst Hh. pod_fields Hh. unfold header_with_status. pod_ok_split; done. Qed.

Lemma fits_stop {A} st (Q : A -> Prop) : uint_ok 4 st = true -> fits (stop st) Q.
Proof. intros Hst s Hh Hl. simpl. split; [by apply status_fits|]. split; [done|lia]. Qed.
Lemma fits_ok {A} n (Q : A -> Prop) : 0 <= n <= Z.of_nat L -> fits (ok n) Q.
Proof. by intros Hn s Hh Hl. Qed.
Lemma fits_copy_out {A} bs (Q : A -> Prop) : fits (copy_out bs) Q.
Proof.
  intros s Hh Hl. unfold copy_out. destruct (Z.ltb_spec (len (io_buf s)) (len bs)); [done|]. cbn.
  split; [done|]. split; [rewrite length_write_at by lia; done|lia].
Qed.
Lemma fits_stop_if st (c : bool) (Q : unit -> Prop) :
  uint_ok 4 st = true -> (c = false -> Q tt) -> fits (stop_if st c) Q.
Proof. intros Hst HQ. destruct c; [by apply fits_stop|by apply fits_ret, HQ]. Qed.
Lemma fits_some_or_stop {A} st (o : option A) (Q : A -> Prop) :
  uint_ok 4 st = true -> (forall a, o = Some a -> Q a) -> fits (some_or_stop st o) Q.
Proof. intros Hst HQ. destruct o; [by apply fits_ret, HQ|by apply fits_stop]. Qed.
Lemma fits_set_status st (Q : unit -> Prop) : uint_ok 4 st = true -> Q tt -> fits (set_status st) Q.
Proof. intros Hst HQ s Hh Hl. simpl. split; [done|]. split; [by apply status_fits|done]. Qed.
Lemma fits_payload T `{!Pod T} st pl (Q : T -> Prop) :
  uint_ok 4 st = true -> (forall p, pod_ok p = true -> Q p) -> fits (payload_or T st pl) Q.
Proof. intros Hst HQ. apply fits_some_or_stop; [done|]. intros p Hp. by eapply HQ, read_pod_ok. Qed.
Lemma fits_get_self (Q : world host -> Prop) : (forall w, Q w) -> fits get_self Q.
Proof. by intros HQ s Hh Hl. Qed.
Lemma fits_modify f (Q : unit -> Prop) : Q tt -> fits (modify f) Q.
Proof. by intros HQ s Hh Hl. Qed.
Lemma fits_lift {A} (c : rust A) (Q : A -> Prop) : (forall a, c = Val a -> Q a) -> fits (lift c) Q.
Proof. intros HQ s Hh Hl. unfold lift. destruct c; [|done]. split; [by apply HQ|done]. Qed.
Lemma fits_index {A} (o : option A) (Q : A -> Prop) : (forall a, o = Some a -> Q a) -> fits (index o) Q.
Proof. intros HQ s Hh Hl. unfold index. destruct o; [|done]. split; [by apply HQ|done]. Qed.
Lemma fits_buf_len (Q : Z -> Prop) : Q (Z.of_nat L) -> fits buf_len Q.
Proof. intros HQ s Hh Hl. unfold buf_len. by rewrite Hl. Qed.
Lemma fits_response (Q : list byte -> Prop) : (forall l, Q l) -> fits get_response Q.
Proof. by intros HQ s Hh Hl. Qed.
Lemma fits_write off bs (Q : unit -> Prop) : Q tt -> fits (write_response off bs) Q.
Proof.
  intros HQ s Hh Hl. unfold write_response. destruct (Z.ltb_spec (len (io_buf s)) (Z.of_nat off + len bs)); [done|].
  split; [done|]. split; [done|]. cbn. rewrite length_write_at; [done|lia].
Qed.

Lemma fits_self (Q : VtRealBackend -> Prop) : (forall b, Q b) -> fits self Q.
Proof. intros HQ. apply fits_bind, fits_get_self. intros w. by apply fits_ret. Qed.
Lemma fits_machine (Q : machine host -> Prop) : (forall m, Q m) -> fits get_machine Q.
Proof. intros HQ. apply fits_bind, fits_get_self. intros w. by apply fits_ret. Qed.
Lemma fits_call {A} (c : world host -> rust (A * world host)) (Q : A -> Prop) :
  (forall w a w', c w = Val (a, w') -> Q a) -> fits (call c) Q.
Proof.
  intros HQ. apply fits_bind, fits_get_self. intros w. apply fits_bind, fits_lift. intros [a w'] E.
  apply fits_bind, fits_modify, fits_ret. by eapply HQ.
Qed.
Lemma fits_take_host_id (Q : Z -> Prop) : (forall i, Q i) -> fits take_host_id Q.
Proof.
  intros HQ. apply fits_bind, fits_self. intros b. apply fits_bind, fits_lift. intros next _.
  apply fits_bind, fits_modify, fits_ret, HQ.
Qed.

Lemma fits_match_opcode op arms (df : arm (world host)) Q :
  Forall (fun ka => fits ka.2 Q) arms -> fits df Q -> fits (match_opcode op arms df) Q.
Proof.
  intros Ha Hd. unfold match_opcode. induction Ha as [|[k a] arms H1 _ IH]; simpl; [done|].
  by destruct (op =? k).
Qed.
End fits.

(** One step of a handler proof. *)
Ltac fstep :=
  match goal with
  | |- fits _ (mbind _ _) _ => apply fits_bind
  | |- fits _ (mret _) _ => apply fits_ret
  | |- fits _ (stop _) _ => apply fits_stop
  | |- fits _ (ok _) _ => apply fits_ok
  | |- fits _ (copy_out _) _ => apply fits_copy_out
  | |- fits _ (stop_if _ _) _ => apply fits_stop_if; [|intros ?]
  | |- fits _ (some_or_stop _ _) _ => apply fits_some_or_stop; [|intros ? ?]
  | |- fits _ (set_status _) _ => apply fits_set_status
  | |- fits _ (payload_or _ _ _) _ => apply fits_payload; [|intros ? ?]
  | |- fits _ self _ => apply fits_self; intros ?
  | |- fits _ get_self _ => apply fits_get_self; intros ?
  | |- fits _ (modify_self _) _ => apply fits_modify
  | |- fits _ (modify _) _ => apply fits_modify
  | |- fits _ get_machine _ => apply fits_machine; intros ?
  | |- fits _ (modify_machine _) _ => apply fits_modify
  | |- fits _ buf_len _ => apply fits_buf_len
  | |- fits _ get_response _ => apply fits_response; intros ?
  | |- fits _ (write_response _ _) _ => apply fits_write
  | |- fits _ (lift _) _ => apply fits_lift; intros ? ?
  | |- fits _ (index _) _ => apply fits_index; intros ? ?
  | |- fits _ (call _) _ => apply fits_call; intros ? ? ? ?
  | |- fits _ take_host_id _ => apply fits_take_host_id; intros ?
  | |- fits _ (if ?c then _ else _) _ => destruct c eqn:?
  | |- fits _ (let '(_, _) := ?p in _) _ => destruct p eqn:?
  | |- fits _ (match ?p with inl _ => _ | inr _ => _ end) _ => destruct p eqn:?
  | |- fits _ (match ?p with Some _ => _ | None => _ end) _ => destruct p eqn:?
  | |- uint_ok _ _ = true => first [reflexivity|assumption]
  end.
Ltac farm := repeat (fstep; cbv zeta beta).


(** ** Every arm fits *)

Section arms.
Context {host : Type} `{!Frameworks host} `{!HashOrder} `{!Profile}.
Context (L : nat).
Implicit Types (w : world host).

Lemma ensure_status x (m : machine host) st x' m' :
  vtf_ensure_source_pixel_buffer x m = Val (inr st, x', m') -> uint_ok 4 st = true.
Proof.
  unfold vtf_ensure_source_pixel_buffer, mbind, rust_bind. intros E.
  repeat case_match; simplify_eq; [|done]. apply (uint_ok_spec 4), Z.mod_pos_bound. lia.
Qed.

Lemma ensure_fits key x (Q : Z -> Prop) : (forall cv, Q cv) -> fits L (ensure_pixel_buffer (host:=host) key x) Q.
Proof. intros HQ. unfold ensure_pixel_buffer. farm; [apply HQ|]. subst. by eapply ensure_status. Qed.

Lemma encode_status payload w st w' : encode_frame_payload payload w = Val (st, w') -> uint_ok 4 st = true.
Proof.
  unfold encode_frame_payload, mbind, rust_bind. intros E.
  repeat case_match; simplify_eq/=; try done. by eapply ensure_status.
Qed.

Lemma decode_status id bs a b c d w st w' :
  dispatch_decode_assembled_frame id bs a b c d w = Val (st, w') -> uint_ok 4 st = true.
Proof. intros E. apply (uint_ok_spec 4). by eapply decode_status_range. Qed.

Lemma release_status id b st b' : release_output_id id b = (st, b') -> uint_ok 4 st = true.
Proof. unfold release_output_id. intros E. case_match; by simplify_eq. Qed.

Lemma chunk_status p n b st : chunk_check p n b = Some st -> uint_ok 4 st = true.
Proof. unfold chunk_check. intros E. repeat case_match; by simplify_eq. Qed.

Lemma format_status p b st : decode_format_check p b = Some st -> uint_ok 4 st = true.
Proof. unfold decode_format_check. intros E. repeat case_match; by simplify_eq. Qed.

Lemma finish_fits st (Q : Empty_set -> Prop) : uint_ok 4 st = true -> fits L (finish_with (host:=host) st) Q.
Proof. intros Hst. unfold finish_with. farm; lia. Qed.

Lemma wrap_slot_fits payload pool off n (Q : Z -> Prop) :
  (forall cv, Q cv) -> fits L (wrap_slot (host:=host) payload pool off n) Q.
Proof. intros HQ. unfold wrap_slot. farm; apply HQ. Qed.

Lemma create_slots_fits payload pool pid n k : forall i acc (Q : _ -> Prop), (forall a, Q a) ->
  fits L (create_slots (host:=host) payload pool pid n k i acc) Q.
Proof.
  induction k as [|k IH]; intros i acc Q HQ; cbn [create_slots]; farm; [apply HQ|].
  apply wrap_slot_fits. intros cv. farm. by apply IH.
Qed.

Lemma batch_fits id frames (Q : Empty_set -> Prop) : fits L (encode_batch (host:=host) id frames) Q.
Proof.
  induction frames as [|f frames IH]; cbn [encode_batch]; farm; [|by apply IH]. by eapply encode_status.
Qed.

Lemma releases_fit ids (Q : Empty_set -> Prop) : fits L (release_batch (host:=host) ids) Q.
Proof.
  induction ids as [|id ids IH]; cbn [release_batch]; farm; [|by apply IH]. by eapply release_status.
Qed.

Lemma assembly_fits id (Q : Empty_set -> Prop) : fits L (finish_assembly (host:=host) id) Q.
Proof. unfold finish_assembly. farm. apply finish_fits. by eapply decode_status. Qed.

Lemma recreate_fits id fd s (Q : _ -> Prop) : (forall a, Q a) -> fits L (recreate_decoder (host:=host) id fd s) Q.
Proof. intros HQ. unfold recreate_decoder. farm. apply HQ. Qed.

Lemma layout_total wd ht pf l : vtf_fill_buffer_layout wd ht pf = Val l -> 0 <= bl_total_size l.
Proof.
  unfold vtf_fill_buffer_layout, biplanar_layout, packed_layout, mbind, rust_bind. intros E.
  repeat case_match; try done; injection E as <-; cbn [bl_total_size];
    match goal with E : arith 32 _ = Val ?r |- 0 <= ?r => apply arith_range in E; lia end.
Qed.

(** Lengths of a payload are not negative. *)
Lemma length_field n : uint_ok 4 n = true -> 0 <= n.
Proof. intros Hn%(uint_ok_spec 4). lia. Qed.

Lemma rbp_length_ok p : pod_ok p = true -> 0 <= rbp_length p.
Proof. intros Hp. pod_fields Hp. by apply length_field. Qed.
Lemma rkp_length_ok p : pod_ok p = true -> 0 <= rkp_length p.
Proof. intros Hp. pod_fields Hp. by apply length_field. Qed.

Ltac arm_fits := farm; try lia; try done; zbool; try lia.

Lemma dispatch_fits rq pl : fits L (vt_dispatch (host:=host) rq pl) (fun _ => False).
Proof.
  unfold vt_dispatch. apply fits_match_opcode; [|by fstep; fstep]. unfold vt_arms.
  repeat (apply Forall_cons_2; [cbn [snd]|]); try apply list.Forall_nil_2.
  - unfold vt_hello. arm_fits.
  - arm_fits.
  - unfold vt_get_caps. arm_fits.
  - unfold vt_create_session, vt_create_decode_session. arm_fits.
  - unfold vt_set_property. arm_fits.
  - unfold vt_create_buffer_pool, vt_create_pool_from. arm_fits. apply create_slots_fits. intros acc. arm_fits.
  - unfold vt_alloc_buffer. arm_fits. apply ensure_fits. intros cv. arm_fits.
  - unfold vt_read_buffer. arm_fits. apply ensure_fits. intros cv.
    match goal with Hp : pod_ok _ = true |- _ => apply rbp_length_ok in Hp end. arm_fits.
  - unfold vt_write_buffer. arm_fits. apply ensure_fits. intros cv. arm_fits.
  - unfold vt_prepare_session. arm_fits.
  - unfold vt_recycle_buffer. arm_fits.
  - unfold vt_encode_frame. arm_fits. by eapply encode_status.
  - unfold vt_encode_frame_batch. arm_fits. apply batch_fits.
  - unfold vt_dequeue_output. arm_fits.
  - unfold vt_dequeue_output_batch. arm_fits.
  - unfold vt_read_output. arm_fits. destruct (vu_storage _). farm.
    match goal with E : (if ?c then _ else _) = Val _ |- _ => destruct c eqn:?; [|done] end; zbool; lia.
  - unfold vt_release_output. arm_fits. by eapply release_status.
  - unfold vt_release_output_batch. arm_fits. apply releases_fit.
  - unfold vt_drain. arm_fits.
  - unfold vt_destroy_session. arm_fits.
  - unfold vt_destroy_buffer_pool. arm_fits.
  - unfold vt_enqueue_encoded_frame. arm_fits. apply finish_fits. by eapply decode_status.
  - unfold vt_enqueue_encoded_frame_chunk. arm_fits; [by eapply chunk_status|apply assembly_fits].
  - unfold vt_dequeue_decoded_frame. arm_fits.
  - unfold vt_release_decoded_frame. arm_fits.
  - unfold vt_read_decoded_frame. arm_fits.
    match goal with E : vtf_fill_buffer_layout _ _ _ = Val _ |- _ => apply layout_total in E end. lia.
  - unfold vt_set_decode_format. arm_fits; [by eapply format_status|..]; apply recreate_fits; intros ?; arm_fits.
  - unfold vt_bind_decode_output_pool. arm_fits.
  - unfold vt_read_decoded_frame_chunk. arm_fits.
    match goal with Hp : pod_ok _ = true |- _ => apply rkp_length_ok in Hp end. lia.
Qed.
End arms.

(** ** The backend of a connection *)

Section backends.
Context {host : Type} `{!Frameworks host} `{!HashOrder} `{!Profile}.
Implicit Types (w : world host).

Lemma run_fits w rq pl h buf r s :
  pod_ok h = true -> run (vt_dispatch rq pl) (IO w h buf) = Val (r, s) ->
  pod_ok (io_header s) = true /\ length (io_buf s) = length buf /\ 0 <= default 0 r <= len buf.
Proof.
  intros Hh. pose proof (dispatch_fits (length buf) rq pl (IO w h buf) Hh eq_refl) as Hf. unfold run.
  destruct (vt_dispatch rq pl (IO w h buf)) as [[]|r' s'|]; [|done]. intros [= <- <-].
  by destruct Hf as (? & ? & ?).
Qed.

#[export] Instance vt_sound w0 : @BackendSound (world host) (vt_backend w0) _.
Proof.
  refine (@Build_BackendSound _ (vt_backend w0) _ (fun _ => True) I (fun _ _ _ => I) _).
  intros rq pl w h buf r s _ _ Hh Hd. split; [done|]. eapply run_fits; [exact Hh|exact Hd].
Defined.

(** Before each request the world makes the next of its own [moves]: callbacks that ran,
    requests of other connections, changes of the host. *)
Definition shared_world : Type := world host * list (world host -> world host).

Definition make_move (x : shared_world) : shared_world :=
  match x.2 with
  | [] => x
  | move :: moves => (move x.1, moves)
  end.

Definition shared_backend w0 (moves : list (world host -> world host)) : Backend shared_world := {|
  create := (w0, moves);
  reset_from_env _ x := (on_self vt_reset_from_env x.1, x.2);
  dispatch p rq pl s :=
    let x := make_move (io_self s) in
    '(r, IO w h buf) ← run (@vt_dispatch host _ _ p rq pl) (IO x.1 (io_header s) (io_buf s));
    Val (r, IO (w, x.2) h buf)
|}.

#[export] Instance shared_sound w0 moves : @BackendSound shared_world (shared_backend w0 moves) _.
Proof.
  refine (@Build_BackendSound _ (shared_backend w0 moves) _ (fun _ => True) I (fun _ _ _ => I) _).
  intros rq pl x h buf r s _ _ Hh. cbn [dispatch shared_backend io_self io_header io_buf]. unfold mbind, rust_bind.
  destruct (run _ _) as [[r' [w h' buf']]|] eqn:E; [|done]. intros [= <- <-]. split; [done|].
  by apply run_fits in E.
Defined.
End backends.

(** The connection loop over the VideoToolbox backend, whatever its world does between the
    requests: it ends, and the client receives the replies of the dispatches in order. *)
Theorem vt_connection_served {host} `{!Frameworks host} `{!HashOrder} `{!Profile}
    (w0 : world host) moves capacity env st :
  0 <= capacity < 2 ^ 32 ->
  let backend := shared_backend w0 moves in
  exists e, handle_connection (H:=backend) capacity env true st = Some e /\
    tx (end_stream e) = tx st ++ accepted (tx_room st)
      (encode_frames (serve_spec (H:=backend) (start (H:=backend) env) (fresh_buffer capacity)
                        (requests capacity (rx st))).1).
Proof.
  intros Hcap backend.
  destruct (handle_connection_spec (H:=backend) capacity env st Hcap) as (e & He & Htx & _). by exists e.
Qed.
