(* ===== verification/Mock.v ===== *)
(** * The mock backend: state and operations

    [mock.rs]: the in-memory reference backend.  It keeps sessions, buffer
    pools with their backing bytes, leased buffers with a generation counter
    and a three-state life cycle, and an output queue bounded in count and
    bytes.  Every arm of [dispatch] is an [arm] of the handler monad, in the
    source's order of guards and mutations; [mock_dispatch] is the whole
    dispatcher. *)

From S2P Require Import Prelude Wire Protocol Layout Backend Stub.
From stdpp Require Import strings.
From Stdlib Require Import Ascii.
From coqutil Require Import Word.LittleEndianList.

Set Default Goal Selector "!".
Open Scope Z_scope.

Definition MAX_SESSIONS : Z := 32.
Definition MAX_POOLS : Z := 64.
Definition MAX_BUFFERS : Z := 256.
Definition MAX_OUTPUTS : Z := 128.
Definition DEFAULT_MAX_OUTPUT_BYTES : Z := MAX_OUTPUTS * 512.
Definition DEFAULT_POOL_BUFFERS : Z := 4.
Definition ENCODE_OUTPUT_FLAG_SYNC : Z := Z.shiftl 1 0.
Definition BUFFER_STATE_GUEST_WRITABLE : Z := 0.
Definition BUFFER_STATE_QUEUED_TO_HOST : Z := 1.
Definition BUFFER_STATE_RECYCLED : Z := 2.

Record MockSession := mk_MockSession {
  ms_id : Z;
  ms_kind : Z;
  ms_codec : Z;
  ms_width : Z;
  ms_height : Z;
  ms_pixel_format : Z;
  ms_prepared : bool;
  ms_frames_encoded : Z
}.

Record MockPool := mk_MockPool {
  mp_id : Z;
  mp_session_id : Z;
  mp_width : Z;
  mp_height : Z;
  mp_pixel_format : Z;
  mp_max_buffers : Z;
  mp_buffer_count : Z;
  mp_slot_region_size : Z;
  mp_backing : list byte
}.

Record MockBuffer := mk_MockBuffer {
  mb_id : Z;
  mb_pool_id : Z;
  mb_generation : Z;
  mb_slot_index : Z;
  mb_width : Z;
  mb_height : Z;
  mb_pixel_format : Z;
  mb_state : Z;
  mb_total_size : Z
}.

Record MockOutput := mk_MockOutput {
  mo_reply : DequeueOutputReply;
  mo_source_buffer_id : Z;
  mo_source_buffer_generation : Z;
  mo_sample_data : list byte;
  mo_dequeued : bool
}.

Record MockBackend := mk_MockBackend {
  be_next_host_id : Z;
  be_next_output_id : Z;
  be_max_output_count : Z;
  be_max_output_bytes : Z;
  be_output_bytes_total : Z;
  be_sessions : list MockSession;
  be_pools : list MockPool;
  be_buffers : list MockBuffer;
  be_outputs : list MockOutput
}.

(** Field assignments. *)
Definition set_next_host_id v s := mk_MockBackend v (be_next_output_id s)
  (be_max_output_count s) (be_max_output_bytes s) (be_output_bytes_total s)
  (be_sessions s) (be_pools s) (be_buffers s) (be_outputs s).
Definition set_next_output_id v s := mk_MockBackend (be_next_host_id s) v
  (be_max_output_count s) (be_max_output_bytes s) (be_output_bytes_total s)
  (be_sessions s) (be_pools s) (be_buffers s) (be_outputs s).
Definition set_output_bytes_total v s := mk_MockBackend (be_next_host_id s)
  (be_next_output_id s) (be_max_output_count s) (be_max_output_bytes s) v
  (be_sessions s) (be_pools s) (be_buffers s) (be_outputs s).
Definition set_sessions v s := mk_MockBackend (be_next_host_id s)
  (be_next_output_id s) (be_max_output_count s) (be_max_output_bytes s)
  (be_output_bytes_total s) v (be_pools s) (be_buffers s) (be_outputs s).
Definition set_pools v s := mk_MockBackend (be_next_host_id s)
  (be_next_output_id s) (be_max_output_count s) (be_max_output_bytes s)
  (be_output_bytes_total s) (be_sessions s) v (be_buffers s) (be_outputs s).
Definition set_buffers v s := mk_MockBackend (be_next_host_id s)
  (be_next_output_id s) (be_max_output_count s) (be_max_output_bytes s)
  (be_output_bytes_total s) (be_sessions s) (be_pools s) v (be_outputs s).
Definition set_outputs v s := mk_MockBackend (be_next_host_id s)
  (be_next_output_id s) (be_max_output_count s) (be_max_output_bytes s)
  (be_output_bytes_total s) (be_sessions s) (be_pools s) (be_buffers s) v.

Definition buffer_with_state st b := mk_MockBuffer (mb_id b) (mb_pool_id b)
  (mb_generation b) (mb_slot_index b) (mb_width b) (mb_height b) (mb_pixel_format b)
  st (mb_total_size b).
Definition buffer_with_generation g b := mk_MockBuffer (mb_id b) (mb_pool_id b)
  g (mb_slot_index b) (mb_width b) (mb_height b) (mb_pixel_format b)
  (mb_state b) (mb_total_size b).
Definition pool_with_backing bs p := mk_MockPool (mp_id p) (mp_session_id p) (mp_width p)
  (mp_height p) (mp_pixel_format p) (mp_max_buffers p) (mp_buffer_count p)
  (mp_slot_region_size p) bs.
Definition pool_with_count n p := mk_MockPool (mp_id p) (mp_session_id p) (mp_width p)
  (mp_height p) (mp_pixel_format p) (mp_max_buffers p) n
  (mp_slot_region_size p) (mp_backing p).
Definition session_with_prepared v s := mk_MockSession (ms_id s) (ms_kind s) (ms_codec s)
  (ms_width s) (ms_height s) (ms_pixel_format s) v (ms_frames_encoded s).
Definition session_with_frames v s := mk_MockSession (ms_id s) (ms_kind s) (ms_codec s)
  (ms_width s) (ms_height s) (ms_pixel_format s) (ms_prepared s) v.
Definition output_with_dequeued v o := mk_MockOutput (mo_reply o) (mo_source_buffer_id o)
  (mo_source_buffer_generation o) (mo_sample_data o) v.

Definition MockBackend_new : MockBackend :=
  {| be_next_host_id := 1000;
     be_next_output_id := 5000;
     be_max_output_count := MAX_OUTPUTS;
     be_max_output_bytes := DEFAULT_MAX_OUTPUT_BYTES;
     be_output_bytes_total := 0;
     be_sessions := [];
     be_pools := [];
     be_buffers := [];
     be_outputs := [] |}.

Definition reset (s : MockBackend) : MockBackend :=
  {| be_next_host_id := 1000;
     be_next_output_id := 5000;
     be_max_output_count := MAX_OUTPUTS;
     be_max_output_bytes := DEFAULT_MAX_OUTPUT_BYTES;
     be_output_bytes_total := 0;
     be_sessions := [];
     be_pools := [];
     be_buffers := [];
     be_outputs := [] |}.

Definition parse_size_env (env : environ) (name : string) (default_value : Z) : Z :=
  default default_value (value ← env name; parse_unsigned 64 value).

Definition mock_reset_from_env (env : environ) (s : MockBackend) : MockBackend :=
  let s := reset s in
  {| be_next_host_id := be_next_host_id s;
     be_next_output_id := be_next_output_id s;
     be_max_output_count :=
       Z.min (parse_size_env env "VT_FERRY_MOCK_MAX_OUTPUTS" MAX_OUTPUTS) MAX_OUTPUTS;
     be_max_output_bytes :=
       parse_size_env env "VT_FERRY_MOCK_MAX_OUTPUT_BYTES" DEFAULT_MAX_OUTPUT_BYTES;
     be_output_bytes_total := be_output_bytes_total s;
     be_sessions := be_sessions s;
     be_pools := be_pools s;
     be_buffers := be_buffers s;
     be_outputs := be_outputs s |}.

(** ** Lookups *)

Definition find_session_idx (s : MockBackend) (session_id : Z) : option nat :=
  position (fun x => ms_id x =? session_id) (be_sessions s).

Definition find_pool_idx (s : MockBackend) (pool_id : Z) : option nat :=
  position (fun x => mp_id x =? pool_id) (be_pools s).

Definition find_buffer_idx (s : MockBackend) (buffer_id : Z) : option nat :=
  position (fun x => mb_id x =? buffer_id) (be_buffers s).

Definition find_recyclable_buffer_idx (s : MockBackend) (pool_id : Z) : option nat :=
  position (fun x => (mb_pool_id x =? pool_id) && (mb_state x =? BUFFER_STATE_RECYCLED))
    (be_buffers s).

Definition output_session (o : MockOutput) : Z := dor_session_id (mo_reply o).
Definition output_id (o : MockOutput) : Z := dor_output_id (mo_reply o).
Definition output_size (o : MockOutput) : Z := dor_sample_size (mo_reply o).

Definition count_outputs_for_session (s : MockBackend) (session_id : Z) : Z :=
  wrap 32 (len (retain (fun o => output_session o =? session_id) (be_outputs s))).

Definition dequeue_output_idx (s : MockBackend) (session_id : Z)
    : option (nat * MockBackend) :=
  idx ← position (fun o => (output_session o =? session_id) && negb (mo_dequeued o))
          (be_outputs s);
  Some (idx, set_outputs (update idx (output_with_dequeued true) (be_outputs s)) s).

Definition take_output_idx (s : MockBackend) (oid : Z) : option nat :=
  position (fun o => (output_id o =? oid) && mo_dequeued o) (be_outputs s).

(** ** Releases and removals *)

Definition release_output (s : MockBackend) (oid : Z) : bool * MockBackend :=
  match position (fun o => output_id o =? oid) (be_outputs s) with
  | None => (false, s)
  | Some index =>
      match be_outputs s !! index with
      | None => (false, s)
      | Some output =>
          let buffers :=
            match find_buffer_idx s (mo_source_buffer_id output) with
            | None => be_buffers s
            | Some buffer_idx =>
                update buffer_idx
                  (fun buffer =>
                     if (mb_generation buffer =? mo_source_buffer_generation output)
                        && (mb_state buffer =? BUFFER_STATE_QUEUED_TO_HOST)
                     then buffer_with_state BUFFER_STATE_GUEST_WRITABLE buffer
                     else buffer)
                  (be_buffers s)
            end in
          let s := set_buffers buffers s in
          let s := set_outputs (remove_at index (be_outputs s)) s in
          (true, set_output_bytes_total
                   (saturating_sub (be_output_bytes_total s) (output_size output)) s)
      end
  end.

Definition remove_session (s : MockBackend) (session_id : Z) : MockBackend :=
  set_sessions (retain (fun x => negb (ms_id x =? session_id)) (be_sessions s)) s.

Definition remove_buffers_for_pool (s : MockBackend) (pool_id : Z) : MockBackend :=
  set_buffers (retain (fun x => negb (mb_pool_id x =? pool_id)) (be_buffers s)) s.

Definition remove_pools_for_session (s : MockBackend) (session_id : Z) : MockBackend :=
  let pool_ids :=
    map mp_id (retain (fun p => mp_session_id p =? session_id) (be_pools s)) in
  let s := set_pools (retain (fun p => negb (mp_session_id p =? session_id)) (be_pools s)) s in
  fold_left remove_buffers_for_pool pool_ids s.

Definition remove_outputs_for_session (s : MockBackend) (session_id : Z) : MockBackend :=
  let removed_bytes :=
    sum_Z output_size (retain (fun o => output_session o =? session_id) (be_outputs s)) in
  let s := set_outputs
             (retain (fun o => negb (output_session o =? session_id)) (be_outputs s)) s in
  set_output_bytes_total (saturating_sub (be_output_bytes_total s) removed_bytes) s.

(** ** Slots *)

(** [Some (start, end)]; [usize] products and sums are checked. *)
Definition slot_range (slot_index slot_region_size backing_len : Z) : option (Z * Z) :=
  if slot_region_size =? 0 then None else
  start ← checked 64 (slot_index * slot_region_size);
  end_ ← checked 64 (start + slot_region_size);
  if end_ >? backing_len then None else Some (start, end_).

(** The range of a pool's slot within its backing. *)
Definition slot_bytes_range (p : MockPool) (slot_index : Z) : option (nat * nat) :=
  '(start, end_) ← slot_range slot_index (mp_slot_region_size p) (len (mp_backing p));
  Some (Z.to_nat start, Z.to_nat (end_ - start)).

Definition slot_bytes (p : MockPool) (slot_index : Z) : option (list byte) :=
  '(off, n) ← slot_bytes_range p slot_index; Some (slice off n (mp_backing p)).

(** [slot_bytes_mut(..)] followed by an assignment of the whole slot. *)
Definition slot_store (p : MockPool) (slot_index : Z) (f : list byte -> list byte)
    : option MockPool :=
  '(off, n) ← slot_bytes_range p slot_index;
  Some (pool_with_backing (write_at off (f (slice off n (mp_backing p))) (mp_backing p)) p).

(** [&bytes[off..off+n]]: a range out of bounds panics. *)
Definition slice_idx (off n : Z) (l : list byte) : rust (list byte) :=
  if off + n <=? len l then Val (slice (Z.to_nat off) (Z.to_nat n) l) else Panic.

Definition reply_seed (session_id output_id index : Z) : Z :=
  wrap 64 (wrap 64 (wrap 64 (session_id * 131) + wrap 64 (output_id * 17))
           + wrap 64 (index * 29)).

Definition set_worker_name (buffer name : list byte) : list byte :=
  let copy_len := Nat.min (length buffer) (length name) in
  write_at 0 (take copy_len name) buffer.

(** ** Request handlers, one per arm of [dispatch] *)

Section arms.
Context `{Profile}.
Abbreviation mock_arm := (arm MockBackend).

Definition mock_hello : mock_arm :=
  write_pod
    {| hr_worker_abi_version := VTF_TRANSPORT_VERSION;
       hr_reserved := 0;
       hr_supported_features := 0;
       hr_worker_name := set_worker_name (replicate 32 Byte.x00) (bstr "vt-ferry-host-worker" 1) |}.

Definition mock_get_caps : mock_arm :=
  s ← get_self;
  write_pod
    {| gc_codec_bits := Z.lor CAP_CODEC_H264 CAP_CODEC_HEVC;
       gc_pixel_format_bits :=
         Z.lor (Z.lor CAP_PIXEL_FORMAT_NV12 CAP_PIXEL_FORMAT_BGRA) CAP_PIXEL_FORMAT_P010;
       gc_session_feature_bits :=
         Z.lor CAP_SESSION_FEATURE_ASYNC_COMPLETE CAP_SESSION_FEATURE_BUFFER_SYNC;
       gc_max_width := 7680;
       gc_max_height := 4320;
       gc_max_inflight_frames := wrap 32 (be_max_output_count s);
       gc_reserved := 0 |}.

Definition mock_create_session (req_payload : list byte) : mock_arm :=
  s ← get_self;
  _ ← reject_if STATUS_INTERNAL_FAILURE (len (be_sessions s) >=? MAX_SESSIONS);
  payload ← some_or STATUS_INTERNAL_FAILURE (read_pod CreateSessionPayload req_payload);
  let session :=
    {| ms_id := be_next_host_id s;
       ms_kind := csp_kind payload;
       ms_codec := csp_codec payload;
       ms_width := csp_width payload;
       ms_height := csp_height payload;
       ms_pixel_format := csp_pixel_format payload;
       ms_prepared := false;
       ms_frames_encoded := 0 |} in
  next ← lift (arith 64 (be_next_host_id s + 1));
  _ ← modify (set_next_host_id next);
  _ ← modify (set_sessions (be_sessions s ++ [session]));
  write_pod
    {| csr_session_id := ms_id session;
       csr_negotiated_width := csp_width payload;
       csr_negotiated_height := csp_height payload;
       csr_pixel_format := csp_pixel_format payload;
       csr_reserved := 0 |}.

(** [vec![0u8; n]] panics when [n] exceeds [isize::MAX]. *)
Definition vec_zeroed (n : Z) : rust (list byte) :=
  if n >? ISIZE_MAX then Panic else Val (replicate (Z.to_nat n) Byte.x00).

Definition mock_create_buffer_pool (req_payload : list byte) : mock_arm :=
  s ← get_self;
  _ ← reject_if STATUS_INTERNAL_FAILURE (len (be_pools s) >=? MAX_POOLS);
  payload ← some_or STATUS_INTERNAL_FAILURE (read_pod CreateBufferPoolPayload req_payload);
  _ ← reject_if STATUS_INVALID_HANDLE
        (negb (cbp_session_id payload =? 0) &&
         bool_decide (find_session_idx s (cbp_session_id payload) = None));
  layout ← lift (fill_buffer_layout (cbp_width payload) (cbp_height payload)
                   (cbp_pixel_format payload));
  let slot_region_size := bl_total_size layout in
  let max_buffers :=
    if cbp_buffer_count payload =? 0 then DEFAULT_POOL_BUFFERS
    else cbp_buffer_count payload in
  backing_size ← or_err (checked 64 (max_buffers * slot_region_size));
  backing ← lift (vec_zeroed backing_size);
  let pool :=
    {| mp_id := be_next_host_id s;
       mp_session_id := cbp_session_id payload;
       mp_width := cbp_width payload;
       mp_height := cbp_height payload;
       mp_pixel_format := cbp_pixel_format payload;
       mp_max_buffers := max_buffers;
       mp_buffer_count := 0;
       mp_slot_region_size := slot_region_size;
       mp_backing := backing |} in
  next ← lift (arith 64 (be_next_host_id s + 1));
  _ ← modify (set_next_host_id next);
  _ ← modify (set_pools (be_pools s ++ [pool]));
  region ← lift (arith 32 (max_buffers * bl_total_size layout));
  write_pod
    {| cbr_pool_id := mp_id pool;
       cbr_width := cbp_width payload;
       cbr_height := cbp_height payload;
       cbr_pixel_format := cbp_pixel_format payload;
       cbr_slot_count := max_buffers;
       cbr_buffer_region_size := region;
       cbr_host_backing_kind := 0;
       cbr_layout := layout;
       cbr_shared_regions :=
         replicate (Z.to_nat VTF_TRANSPORT_MAX_POOL_SLOTS) (zeroed SharedRegionReply);
       cbr_buffer_leases :=
         replicate (Z.to_nat VTF_TRANSPORT_MAX_POOL_SLOTS) (zeroed PoolBufferLeaseReply) |}.

(** The reply of both [ALLOC_BUFFER] paths. *)
Definition alloc_msg (buffer : MockBuffer) (layout : BufferLayoutReply) (slot_offset : Z)
    : AllocBufferReply :=
    {| abr_buffer_id := mb_id buffer;
       abr_generation := mb_generation buffer;
       abr_width := mb_width buffer;
       abr_height := mb_height buffer;
       abr_pixel_format := mb_pixel_format buffer;
       abr_slot_index := mb_slot_index buffer;
       abr_slot_offset := slot_offset;
       abr_host_backing_kind := 0;
       abr_layout := layout |}.

Definition alloc_reply (buffer : MockBuffer) : mock_arm :=
  layout ← lift (fill_buffer_layout (mb_width buffer) (mb_height buffer)
                   (mb_pixel_format buffer));
  slot_offset ← lift (arith 32 (mb_slot_index buffer * bl_total_size layout));
  write_pod (alloc_msg buffer layout slot_offset).

(** [bytes.fill(0)] on a slot. *)
Definition fill0 (bytes : list byte) : list byte := replicate (length bytes) Byte.x00.

Definition mock_alloc_recycled (pool_idx : nat) (pool : MockPool) (buffer_idx : nat) : mock_arm :=
  s ← get_self;
  buffer ← index (be_buffers s !! buffer_idx);
  generation ← lift (arith 64 (mb_generation buffer + 1));
  let buffer := buffer_with_state BUFFER_STATE_GUEST_WRITABLE
                  (buffer_with_generation generation buffer) in
  _ ← modify (fun s => set_buffers (update buffer_idx (fun _ => buffer) (be_buffers s)) s);
  pool' ← some_or STATUS_INTERNAL_FAILURE (slot_store pool (mb_slot_index buffer) fill0);
  _ ← modify (fun s => set_pools (update pool_idx (fun _ => pool') (be_pools s)) s);
  alloc_reply buffer.

Definition mock_alloc_fresh (pool_idx : nat) (pool : MockPool) : mock_arm :=
  s ← get_self;
  _ ← reject_if STATUS_RESOURCE_EXHAUSTED
        ((mp_buffer_count pool >=? mp_max_buffers pool)
         || (len (be_buffers s) >=? MAX_BUFFERS));
  let slot_index := mp_buffer_count pool in
  let total_size := mp_slot_region_size pool in
  pool' ← some_or STATUS_INTERNAL_FAILURE (slot_store pool slot_index fill0);
  _ ← modify (fun s => set_pools (update pool_idx (fun _ => pool') (be_pools s)) s);
  let buffer :=
    {| mb_id := be_next_host_id s;
       mb_pool_id := mp_id pool;
       mb_generation := 1;
       mb_slot_index := slot_index;
       mb_width := mp_width pool;
       mb_height := mp_height pool;
       mb_pixel_format := mp_pixel_format pool;
       mb_state := BUFFER_STATE_GUEST_WRITABLE;
       mb_total_size := total_size |} in
  next ← lift (arith 64 (be_next_host_id s + 1));
  _ ← modify (set_next_host_id next);
  count ← lift (arith 32 (mp_buffer_count pool + 1));
  _ ← modify (fun s => set_pools (update pool_idx (pool_with_count count) (be_pools s)) s);
  _ ← modify (fun s => set_buffers (be_buffers s ++ [buffer]) s);
  alloc_reply buffer.

Definition mock_alloc_buffer (req_payload : list byte) : mock_arm :=
  payload ← some_or STATUS_INTERNAL_FAILURE (read_pod AllocBufferPayload req_payload);
  s ← get_self;
  pool_idx ← some_or STATUS_INVALID_HANDLE (find_pool_idx s (abp_pool_id payload));
  pool ← index (be_pools s !! pool_idx);
  match find_recyclable_buffer_idx s (abp_pool_id payload) with
  | Some buffer_idx => mock_alloc_recycled pool_idx pool buffer_idx
  | None => mock_alloc_fresh pool_idx pool
  end.

Definition mock_read_buffer (req_payload : list byte) : mock_arm :=
  payload ← some_or STATUS_INTERNAL_FAILURE (read_pod ReadBufferPayload req_payload);
  s ← get_self;
  buffer_idx ← some_or STATUS_INVALID_HANDLE (find_buffer_idx s (rbp_buffer_id payload));
  buffer ← index (be_buffers s !! buffer_idx);
  _ ← reject_if STATUS_STALE_GENERATION
        (negb (mb_generation buffer =? rbp_generation payload));
  _ ← reject_if STATUS_INVALID_STATE (mb_state buffer =? BUFFER_STATE_RECYCLED);
  _ ← reject_if STATUS_BOUNDS_VIOLATION
        ((rbp_offset payload >? mb_total_size buffer)
         || (rbp_length payload >? mb_total_size buffer - rbp_offset payload));
  pool_idx ← some_or STATUS_INVALID_HANDLE (find_pool_idx s (mb_pool_id buffer));
  pool ← index (be_pools s !! pool_idx);
  bytes ← some_or STATUS_INTERNAL_FAILURE (slot_bytes pool (mb_slot_index buffer));
  part ← lift (slice_idx (rbp_offset payload) (rbp_length payload) bytes);
  write_pod_and_bytes
    {| rbr_buffer_id := mb_id buffer;
       rbr_generation := mb_generation buffer;
       rbr_offset := rbp_offset payload;
       rbr_length := rbp_length payload |} part.

(** [bytes[off..off+n].copy_from_slice(src)]: panics out of range or on a length
    mismatch. *)
Definition copy_from_slice (off n : Z) (src bytes : list byte) : rust (list byte) :=
  if (off + n <=? len bytes) && (len src =? n)
  then Val (write_at (Z.to_nat off) src bytes) else Panic.

Definition mock_write_buffer (req_payload : list byte) : mock_arm :=
  payload ← some_or STATUS_BOUNDS_VIOLATION (read_pod WriteBufferPayload req_payload);
  s ← get_self;
  buffer_idx ← some_or STATUS_INVALID_HANDLE (find_buffer_idx s (wbp_buffer_id payload));
  buffer ← index (be_buffers s !! buffer_idx);
  _ ← reject_if STATUS_STALE_GENERATION
        (negb (mb_generation buffer =? wbp_generation payload));
  _ ← reject_if STATUS_INVALID_STATE
        (negb (mb_state buffer =? BUFFER_STATE_GUEST_WRITABLE));
  _ ← reject_if STATUS_BOUNDS_VIOLATION
        ((wbp_offset payload >? mb_total_size buffer)
         || (wbp_length payload >? mb_total_size buffer - wbp_offset payload)
         || negb (len req_payload
                  =? Z.of_nat (size_of WriteBufferPayload) + wbp_length payload));
  pool_idx ← some_or STATUS_INVALID_HANDLE (find_pool_idx s (mb_pool_id buffer));
  pool ← index (be_pools s !! pool_idx);
  bytes ← some_or STATUS_INTERNAL_FAILURE (slot_bytes pool (mb_slot_index buffer));
  let payload_bytes := drop (size_of WriteBufferPayload) req_payload in
  bytes' ← lift (copy_from_slice (wbp_offset payload) (wbp_length payload) payload_bytes bytes);
  pool' ← some_or STATUS_INTERNAL_FAILURE
            (slot_store pool (mb_slot_index buffer) (fun _ => bytes'));
  _ ← modify (fun s => set_pools (update pool_idx (fun _ => pool') (be_pools s)) s);
  ok 0.

Definition mock_recycle_buffer (req_payload : list byte) : mock_arm :=
  payload ← some_or STATUS_INTERNAL_FAILURE (read_pod RecycleBufferPayload req_payload);
  s ← get_self;
  pool_idx ← some_or STATUS_INVALID_HANDLE (find_pool_idx s (rcp_pool_id payload));
  buffer_idx ← some_or STATUS_INVALID_HANDLE (find_buffer_idx s (rcp_buffer_id payload));
  buffer ← index (be_buffers s !! buffer_idx);
  pool ← index (be_pools s !! pool_idx);
  _ ← reject_if STATUS_INVALID_HANDLE (negb (mp_id pool =? mb_pool_id buffer));
  _ ← reject_if STATUS_STALE_GENERATION
        (negb (mb_generation buffer =? rcp_generation payload));
  _ ← reject_if STATUS_INVALID_STATE (mb_state buffer =? BUFFER_STATE_RECYCLED);
  _ ← modify (fun s => set_buffers
        (update buffer_idx (buffer_with_state BUFFER_STATE_RECYCLED) (be_buffers s)) s);
  ok 0.

Definition mock_set_property (req_payload : list byte) : mock_arm :=
  payload ← some_or STATUS_INTERNAL_FAILURE (read_pod SetPropertyPayload req_payload);
  s ← get_self;
  _ ← some_or STATUS_INVALID_HANDLE (find_session_idx s (spp_session_id payload));
  ok 0.

Definition mock_prepare_session (req_payload : list byte) : mock_arm :=
  payload ← some_or STATUS_INTERNAL_FAILURE (read_pod PrepareSessionPayload req_payload);
  s ← get_self;
  idx ← some_or STATUS_INVALID_HANDLE (find_session_idx s (psp_session_id payload));
  _ ← modify (fun s => set_sessions
        (update idx (session_with_prepared true) (be_sessions s)) s);
  ok 0.

(** [while bytes.len() < 24 { bytes.push(...) }], [n] pushes. *)
Fixpoint push_seed (session_id next_output_id : Z) (n : nat) (bytes : list byte) : list byte :=
  match n with
  | O => bytes
  | S n' =>
      push_seed session_id next_output_id n'
        (bytes ++ [byte.of_Z (Z.land (reply_seed session_id next_output_id (len bytes)) 0xff)])
  end.

Definition encode_payload_bytes (session_id next_output_id : Z) (is_sync : bool)
    (input_prefix_bytes : list byte) : list byte :=
  let bytes := (if is_sync then Byte.x65 else Byte.x41) :: take 8 input_prefix_bytes in
  push_seed session_id next_output_id (24 - length bytes) bytes.

Definition u32_to_be_bytes (v : Z) : list byte := rev (LittleEndianList.le_split 4 v).

Definition mock_output_reply (payload : EncodeFramePayload) (session : MockSession)
    (oid sample_size : Z) (is_sync : bool) : DequeueOutputReply :=
  {| dor_session_id := efp_session_id payload;
     dor_output_id := oid;
     dor_codec := ms_codec session;
     dor_width := ms_width session;
     dor_height := ms_height session;
     dor_pixel_format := ms_pixel_format session;
     dor_pts_value := efp_pts_value payload;
     dor_pts_timescale := efp_pts_timescale payload;
     dor_duration_timescale := efp_duration_timescale payload;
     dor_duration_value := efp_duration_value payload;
     dor_sample_size := sample_size;
     dor_sample_flags := if is_sync then ENCODE_OUTPUT_FLAG_SYNC else 0;
     dor_parameter_set_count := 2;
     dor_nal_header_length := 4;
     dor_parameter_set_sizes := [4; 4; 0; 0];
     dor_parameter_set_data :=
       write_at 0 [Byte.x67; Byte.x64; Byte.x00; Byte.x1f; Byte.x68; Byte.xee; Byte.x3c; Byte.x80]
         (replicate (Z.to_nat VTF_TRANSPORT_MAX_PARAMETER_SET_BYTES) Byte.x00);
     dor_output_slot_index := 0;
     dor_output_slot_offset := 0;
     dor_output_region_size := 0;
     dor_reserved := 0 |}.

Definition mock_encode_frame (req_payload : list byte) : mock_arm :=
  payload ← some_or STATUS_INTERNAL_FAILURE (read_pod EncodeFramePayload req_payload);
  s ← get_self;
  session_idx ← some_or STATUS_INVALID_HANDLE (find_session_idx s (efp_session_id payload));
  session ← index (be_sessions s !! session_idx);
  _ ← reject_if STATUS_INVALID_STATE (negb (ms_prepared session));
  _ ← reject_if STATUS_INVALID_HANDLE (efp_image_buffer_proxy_id payload =? 0);
  buffer_idx ← some_or STATUS_INVALID_HANDLE
                 (find_buffer_idx s (efp_image_buffer_host_id payload));
  buffer ← index (be_buffers s !! buffer_idx);
  _ ← reject_if STATUS_STALE_GENERATION
        (negb (mb_generation buffer =? efp_image_buffer_generation payload));
  _ ← reject_if STATUS_INVALID_STATE
        ((mb_state buffer =? BUFFER_STATE_RECYCLED)
         || negb (mb_state buffer =? BUFFER_STATE_GUEST_WRITABLE));
  pool_idx ← some_or STATUS_INVALID_HANDLE (find_pool_idx s (mb_pool_id buffer));
  pool ← index (be_pools s !! pool_idx);
  bytes ← some_or STATUS_INTERNAL_FAILURE (slot_bytes pool (mb_slot_index buffer));
  input_prefix_bytes ← lift (slice_idx 0 (Z.min 8 (mb_total_size buffer)) bytes);
  let is_sync := ms_frames_encoded session =? 0 in
  let payload_bytes :=
    encode_payload_bytes (efp_session_id payload) (be_next_output_id s) is_sync
      input_prefix_bytes in
  let sample_size := 4 + len payload_bytes in
  _ ← reject_if STATUS_RESOURCE_EXHAUSTED (len (be_outputs s) >=? be_max_output_count s);
  _ ← reject_if STATUS_RESOURCE_EXHAUSTED
        ((sample_size >? be_max_output_bytes s)
         || (be_output_bytes_total s
             >? saturating_sub (be_max_output_bytes s) sample_size));
  let reply := mock_output_reply payload session (be_next_output_id s) sample_size is_sync in
  let sample_data := u32_to_be_bytes (len payload_bytes) ++ payload_bytes in
  next ← lift (arith 64 (be_next_output_id s + 1));
  _ ← modify (set_next_output_id next);
  total ← lift (arith 64 (be_output_bytes_total s + sample_size));
  _ ← modify (set_output_bytes_total total);
  _ ← modify (fun s => set_outputs
        (be_outputs s ++
         [{| mo_reply := reply;
             mo_source_buffer_id := mb_id buffer;
             mo_source_buffer_generation := mb_generation buffer;
             mo_sample_data := sample_data;
             mo_dequeued := false |}]) s);
  _ ← modify (fun s => set_buffers
        (update buffer_idx (buffer_with_state BUFFER_STATE_QUEUED_TO_HOST) (be_buffers s)) s);
  frames ← lift (arith 64 (ms_frames_encoded session + 1));
  _ ← modify (fun s => set_sessions
        (update session_idx (session_with_frames frames) (be_sessions s)) s);
  ok 0.

Definition mock_dequeue_output (req_payload : list byte) : mock_arm :=
  payload ← some_or STATUS_INTERNAL_FAILURE (read_pod DequeueOutputPayload req_payload);
  s ← get_self;
  '(idx, s') ← some_or STATUS_TIMEOUT (dequeue_output_idx s (dop_session_id payload));
  _ ← modify (fun _ => s');
  output ← index (be_outputs s' !! idx);
  write_pod (mo_reply output).

(** The [while] of the batch arm: at most [n] more outputs, oldest first. *)
Fixpoint dequeue_up_to (n : nat) (session_id : Z) (s : MockBackend)
    : list DequeueOutputReply * MockBackend :=
  match n with
  | O => ([], s)
  | S n' =>
      match dequeue_output_idx s session_id with
      | None => ([], s)
      | Some (idx, s') =>
          match be_outputs s' !! idx with
          | None => ([], s')
          | Some output =>
              let '(rest, s'') := dequeue_up_to n' session_id s' in
              (mo_reply output :: rest, s'')
          end
      end
  end.

Definition mock_dequeue_output_batch (req_payload : list byte) : mock_arm :=
  payload ← some_or STATUS_INTERNAL_FAILURE (read_pod DequeueOutputBatchPayload req_payload);
  let max_outputs :=
    Z.max (Z.min (dbp_max_outputs payload) VTF_TRANSPORT_MAX_OUTPUT_BATCH) 1 in
  s ← get_self;
  let '(outputs, s') := dequeue_up_to (Z.to_nat max_outputs) (dbp_session_id payload) s in
  _ ← modify (fun _ => s');
  _ ← reject_if STATUS_TIMEOUT (len outputs =? 0);
  write_pod
    {| dbr_session_id := dbp_session_id payload;
       dbr_output_count := len outputs;
       dbr_reserved := 0;
       dbr_outputs :=
         outputs ++ replicate (Z.to_nat VTF_TRANSPORT_MAX_OUTPUT_BATCH - length outputs)
                      (zeroed DequeueOutputReply) |}.

Definition mock_read_output (req_payload : list byte) : mock_arm :=
  payload ← some_or STATUS_INTERNAL_FAILURE (read_pod ReadOutputPayload req_payload);
  s ← get_self;
  idx ← some_or STATUS_INVALID_HANDLE (take_output_idx s (rop_output_id payload));
  output ← index (be_outputs s !! idx);
  write_pod_and_bytes
    {| ror_output_id := output_id output;
       ror_sample_size := output_size output;
       ror_reserved := 0 |} (mo_sample_data output).

Definition mock_release_output (req_payload : list byte) : mock_arm :=
  payload ← some_or STATUS_INTERNAL_FAILURE (read_pod ReleaseOutputPayload req_payload);
  s ← get_self;
  let '(found, s') := release_output s (rlp_output_id payload) in
  _ ← modify (fun _ => s');
  if found then ok 0 else fail STATUS_INVALID_HANDLE.

Definition mock_destroy_session (req_payload : list byte) : mock_arm :=
  payload ← some_or STATUS_INTERNAL_FAILURE (read_pod DestroySessionPayload req_payload);
  s ← get_self;
  _ ← some_or STATUS_INVALID_HANDLE (find_session_idx s (dsp_session_id payload));
  _ ← modify (fun s => remove_outputs_for_session s (dsp_session_id payload));
  _ ← modify (fun s => remove_pools_for_session s (dsp_session_id payload));
  _ ← modify (fun s => remove_session s (dsp_session_id payload));
  ok 0.

Definition mock_drain (req_payload : list byte) : mock_arm :=
  payload ← some_or STATUS_INTERNAL_FAILURE (read_pod DrainPayload req_payload);
  s ← get_self;
  _ ← some_or STATUS_INVALID_HANDLE (find_session_idx s (drp_session_id payload));
  write_pod
    {| drr_session_id := drp_session_id payload;
       drr_pending_outputs := count_outputs_for_session s (drp_session_id payload);
       drr_reserved := 0 |}.

Definition mock_arms (req_payload : list byte) : list (Z * mock_arm) :=
  [ (OP_HELLO, mock_hello);
    (OP_PING, ok 0);
    (OP_GET_CAPS, mock_get_caps);
    (OP_CREATE_SESSION, mock_create_session req_payload);
    (OP_CREATE_BUFFER_POOL, mock_create_buffer_pool req_payload);
    (OP_ALLOC_BUFFER, mock_alloc_buffer req_payload);
    (OP_READ_BUFFER, mock_read_buffer req_payload);
    (OP_WRITE_BUFFER, mock_write_buffer req_payload);
    (OP_RECYCLE_BUFFER, mock_recycle_buffer req_payload);
    (OP_SET_PROPERTY, mock_set_property req_payload);
    (OP_PREPARE_SESSION, mock_prepare_session req_payload);
    (OP_ENCODE_FRAME, mock_encode_frame req_payload);
    (OP_DEQUEUE_OUTPUT, mock_dequeue_output req_payload);
    (OP_DEQUEUE_OUTPUT_BATCH, mock_dequeue_output_batch req_payload);
    (OP_READ_OUTPUT, mock_read_output req_payload);
    (OP_RELEASE_OUTPUT, mock_release_output req_payload);
    (OP_DESTROY_SESSION, mock_destroy_session req_payload);
    (OP_DRAIN, mock_drain req_payload) ].

Definition mock_dispatch (req_header : MessageHeader) (req_payload : list byte) : mock_arm :=
  _ ← set_header (zeroed MessageHeader);
  _ ← reject_if STATUS_UNSUPPORTED_VERSION
        (negb (mh_version req_header =? VTF_TRANSPORT_VERSION));
  match_opcode (mh_opcode req_header) (mock_arms req_payload)
    (fail STATUS_UNSUPPORTED_OPCODE).
End arms.

#[export] Instance mock_backend : Backend MockBackend := {
  create := MockBackend_new;
  reset_from_env := mock_reset_from_env;
  dispatch p rq pl s := run (@mock_dispatch p rq pl) s
}.
