(* ===== verification/MockInv.v ===== *)
(** * The mock backend: invariants

    [mock_ok] holds of every reachable state in every build profile: value
    ranges, backing sizes, and the accounting of the output quota.
    [mock_links] ties the tables together: identifiers are unique, every
    leased buffer has its own slot of a live pool, and a frame whose output is
    still held is not guest-writable.  It is preserved as long as the 64-bit
    counters have room ([counters_below]), in which case only
    CREATE_BUFFER_POOL can panic.  [mock_dispatch_hwp] proves all of it of the
    whole dispatcher; [mock_spec] discharges the connection loop's interface. *)

From S2P Require Import Prelude Wire Protocol Layout Backend Stub Mock.
From stdpp Require Import strings.

Set Default Goal Selector "!".
Open Scope Z_scope.

Definition u32_range (z : Z) : Prop := 0 <= z < 2 ^ 32.
Definition u64_range (z : Z) : Prop := 0 <= z < 2 ^ 64.

Section invariant.
Context `{Profile}.

Definition session_ok (x : MockSession) : Prop :=
  u64_range (ms_id x) /\ u32_range (ms_codec x) /\ u32_range (ms_width x) /\
  u32_range (ms_height x) /\ u32_range (ms_pixel_format x) /\
  u64_range (ms_frames_encoded x).

(** The frame geometry of a pool and of its buffers, with the size of a slot. *)
Definition geometry_ok (w h pf total : Z) : Prop :=
  u32_range w /\ u32_range h /\ u32_range pf /\
  exists l, fill_buffer_layout w h pf = Val l /\ bl_total_size l = total.

Definition pool_ok (p : MockPool) : Prop :=
  u64_range (mp_id p) /\
  geometry_ok (mp_width p) (mp_height p) (mp_pixel_format p) (mp_slot_region_size p) /\
  0 < mp_max_buffers p < 2 ^ 32 /\
  0 <= mp_buffer_count p <= mp_max_buffers p /\
  u32_range (mp_slot_region_size p) /\
  len (mp_backing p) = mp_max_buffers p * mp_slot_region_size p /\
  (overflow_checks = true -> u32_range (mp_max_buffers p * mp_slot_region_size p)).

Definition buffer_ok (b : MockBuffer) : Prop :=
  u64_range (mb_id b) /\ u64_range (mb_generation b) /\ u32_range (mb_slot_index b) /\
  geometry_ok (mb_width b) (mb_height b) (mb_pixel_format b) (mb_total_size b) /\
  (mb_state b = BUFFER_STATE_GUEST_WRITABLE \/ mb_state b = BUFFER_STATE_QUEUED_TO_HOST \/
   mb_state b = BUFFER_STATE_RECYCLED).

Definition output_ok (o : MockOutput) : Prop :=
  pod_ok (mo_reply o) = true /\ len (mo_sample_data o) = output_size o.

Record mock_ok (s : MockBackend) : Prop := {
  ok_next_host_id : u64_range (be_next_host_id s);
  ok_next_output_id : u64_range (be_next_output_id s);
  ok_sessions : Forall session_ok (be_sessions s);
  ok_pools : Forall pool_ok (be_pools s);
  ok_buffers : Forall buffer_ok (be_buffers s);
  ok_outputs : Forall output_ok (be_outputs s);
  ok_output_count : len (be_outputs s) <= be_max_output_count s <= MAX_OUTPUTS;
  ok_max_bytes : u64_range (be_max_output_bytes s);
  ok_output_total : be_output_bytes_total s = sum_Z output_size (be_outputs s);
  ok_output_bytes : be_output_bytes_total s <= be_max_output_bytes s
}.

(** [b] is a lease of a slot of [p]. *)
Definition leased (p : MockPool) (b : MockBuffer) : Prop :=
  mp_id p = mb_pool_id b /\ mb_slot_index b < mp_buffer_count p /\
  mb_total_size b = mp_slot_region_size p /\ 0 < mp_slot_region_size p.

Definition slot_key (b : MockBuffer) : Z * Z := (mb_pool_id b, mb_slot_index b).
Definition source_key (o : MockOutput) : Z * Z :=
  (mo_source_buffer_id o, mo_source_buffer_generation o).

(** [o] holds the frame of [b]: its source buffer is not guest-writable before
    the output is released, unless the buffer was handed out again. *)
Definition holds (o : MockOutput) (b : MockBuffer) : Prop :=
  mb_id b = mo_source_buffer_id o ->
  mo_source_buffer_generation o <= mb_generation b /\
  (mb_generation b = mo_source_buffer_generation o ->
   mb_state b <> BUFFER_STATE_GUEST_WRITABLE).

Record mock_links (s : MockBackend) : Prop := {
  ln_session_ids : NoDup (ms_id <$> be_sessions s);
  ln_session_new : Forall (fun x => 1000 <= ms_id x < be_next_host_id s) (be_sessions s);
  ln_pool_ids : NoDup (mp_id <$> be_pools s);
  ln_pool_new : Forall (fun x => mp_id x < be_next_host_id s) (be_pools s);
  ln_buffer_ids : NoDup (mb_id <$> be_buffers s);
  ln_buffer_new : Forall (fun x => mb_id x < be_next_host_id s) (be_buffers s);
  ln_output_ids : NoDup (output_id <$> be_outputs s);
  ln_output_new : Forall (fun x => output_id x < be_next_output_id s) (be_outputs s);
  ln_next : 1000 <= be_next_host_id s;
  ln_pool_session : Forall (fun p => mp_session_id p = 0 \/
                      mp_session_id p ∈ ms_id <$> be_sessions s) (be_pools s);
  ln_output_session : Forall (fun o => output_session o ∈ ms_id <$> be_sessions s)
                        (be_outputs s);
  ln_leased : Forall (fun b => Exists (fun p => leased p b) (be_pools s)) (be_buffers s);
  ln_slots : NoDup (slot_key <$> be_buffers s);
  ln_sources : NoDup (source_key <$> be_outputs s);
  ln_source_new : Forall (fun o => mo_source_buffer_id o < be_next_host_id s) (be_outputs s);
  ln_holds : Forall (fun o => Forall (holds o) (be_buffers s)) (be_outputs s)
}.

(** The 64-bit counters can still be incremented. *)
Definition counters_below (s : MockBackend) : Prop :=
  be_next_host_id s < 2 ^ 64 - 1 /\ be_next_output_id s < 2 ^ 64 - 1 /\
  Forall (fun b => mb_generation b < 2 ^ 64 - 1) (be_buffers s) /\
  Forall (fun x => ms_frames_encoded x < 2 ^ 64 - 1) (be_sessions s).

(** How far the counters can have moved after [n] requests. *)
Definition counters_le (n : Z) (s : MockBackend) : Prop :=
  be_next_host_id s <= 1000 + n /\ be_next_output_id s <= 5000 + n /\
  Forall (fun b => mb_generation b <= 1 + n) (be_buffers s) /\
  Forall (fun x => ms_frames_encoded x <= n) (be_sessions s).

Lemma counters_le_below n s : n < 2 ^ 63 -> counters_le n s -> counters_below s.
Proof.
  intros Hn (H1 & H2 & H3 & H4). split_and!; [lia|lia|..].
  - revert H3. apply Forall_weaken. intros; lia.
  - revert H4. apply Forall_weaken. intros; lia.
Qed.

Lemma counters_le_mono n m s : n <= m -> counters_le n s -> counters_le m s.
Proof.
  intros Hn (H1 & H2 & H3 & H4). split_and!; [lia|lia|..].
  - revert H3. apply Forall_weaken. intros; lia.
  - revert H4. apply Forall_weaken. intros; lia.
Qed.

(** [s'] is one request after [s], as far as the counters can tell. *)
Definition counts (s s' : MockBackend) : Prop :=
  forall n, 0 <= n -> counters_le n s -> counters_le (n + 1) s'.

(** ** The invariant under the list operations of the handlers *)

Lemma fresh_id {A} (f : A -> Z) (l : list A) n :
  Forall (fun x => f x < n) l -> n ∉ f <$> l.
Proof.
  rewrite list.Forall_forall. intros Hl (x & Hx & Hin)%list_elem_of_fmap.
  specialize (Hl x Hin). simpl in Hl. lia.
Qed.

Lemma Forall_lt_mono {A} (f : A -> Z) (l : list A) n m :
  n <= m -> Forall (fun x => f x < n) l -> Forall (fun x => f x < m) l.
Proof. intros Hnm. apply Forall_weaken. intros x _ Hx. lia. Qed.

(** The pool found for a pool id, and the lease it grants. *)
Lemma leased_pool s b i :
  mock_links s -> b ∈ be_buffers s -> find_pool_idx s (mb_pool_id b) = Some i ->
  exists p, be_pools s !! i = Some p /\ leased p b.
Proof.
  intros Hln Hb Hi. pose proof (ln_leased _ Hln) as Hl.
  rewrite list.Forall_forall in Hl. apply Hl in Hb as (p & Hp & Hlease)%list.Exists_exists.
  apply list_elem_of_lookup in Hp as (j & Hj).
  assert (find_pool_idx s (mb_pool_id b) = Some j) as Hij.
  { destruct Hlease as [<- _].
    apply (position_unique mp_id Z.eqb _ _ p); [apply Z.eqb_eq|apply Hln|done]. }
  rewrite Hi in Hij. simplify_eq. eauto.
Qed.

Lemma find_pool_leased s b :
  mock_links s -> b ∈ be_buffers s ->
  exists i p, find_pool_idx s (mb_pool_id b) = Some i /\ be_pools s !! i = Some p /\ leased p b.
Proof.
  intros Hln Hb. pose proof (ln_leased _ Hln) as Hl.
  rewrite list.Forall_forall in Hl. pose proof (Hl _ Hb) as (p & Hp & Hlease)%list.Exists_exists.
  destruct (find_pool_idx s (mb_pool_id b)) as [i|] eqn:Hi.
  - destruct (leased_pool s b i Hln Hb Hi) as (q & ? & ?). eauto.
  - unfold find_pool_idx in Hi. rewrite position_None in Hi.
    apply Hi in Hp. destruct Hlease as [E _]. apply Z.eqb_neq in Hp. lia.
Qed.

(** Sessions. *)
Lemma add_session_ok s x next :
  mock_ok s -> session_ok x -> u64_range next ->
  mock_ok (set_sessions (be_sessions s ++ [x]) (set_next_host_id next s)).
Proof. intros [] Hx Hn. constructor; simpl; auto using Forall_snoc. Qed.

Lemma add_session_links s x :
  mock_links s -> ms_id x = be_next_host_id s ->
  mock_links (set_sessions (be_sessions s ++ [x]) (set_next_host_id (be_next_host_id s + 1) s)).
Proof.
  intros [] Hx. constructor; simpl; try done; try lia.
  - rewrite fmap_app. apply NoDup_snoc; [done|]. rewrite Hx. apply fresh_id.
    revert ln_session_new0. apply Forall_weaken. intros; lia.
  - apply Forall_snoc; [|lia]. revert ln_session_new0. apply Forall_weaken. intros; lia.
  - eapply Forall_lt_mono; [|done]; lia.
  - eapply Forall_lt_mono; [|done]; lia.
  - revert ln_pool_session0. apply Forall_weaken. rewrite fmap_app. set_solver.
  - revert ln_output_session0. apply Forall_weaken. rewrite fmap_app. set_solver.
  - eapply Forall_lt_mono; [|done]; lia.
Qed.

Lemma update_session_ok s i f :
  mock_ok s -> (forall x, session_ok x -> session_ok (f x)) ->
  mock_ok (set_sessions (update i f (be_sessions s)) s).
Proof. intros [] Hf. constructor; simpl; auto. apply Forall_update; auto. Qed.

Lemma update_session_links s i f :
  mock_links s -> (forall x, ms_id (f x) = ms_id x) ->
  mock_links (set_sessions (update i f (be_sessions s)) s).
Proof.
  intros [] Hf.
  assert (ms_id <$> update i f (be_sessions s) = ms_id <$> be_sessions s) as E
    by (apply fmap_update_same; auto).
  constructor; simpl; try done; try (by rewrite E).
  apply Forall_update; [done|]. intros x _. by rewrite Hf.
Qed.

(** Pools. *)
Lemma add_pool_ok s p next :
  mock_ok s -> pool_ok p -> u64_range next ->
  mock_ok (set_pools (be_pools s ++ [p]) (set_next_host_id next s)).
Proof. intros [] Hp Hn. constructor; simpl; auto using Forall_snoc. Qed.

Lemma add_pool_links s p :
  mock_links s -> mp_id p = be_next_host_id s ->
  (mp_session_id p = 0 \/ mp_session_id p ∈ ms_id <$> be_sessions s) ->
  mock_links (set_pools (be_pools s ++ [p]) (set_next_host_id (be_next_host_id s + 1) s)).
Proof.
  intros [] Hp Hs. constructor; simpl; try done; try lia.
  - revert ln_session_new0. apply Forall_weaken. intros; lia.
  - rewrite fmap_app. apply NoDup_snoc; [done|]. rewrite Hp. by apply fresh_id.
  - apply Forall_snoc; [|lia]. eapply Forall_lt_mono; [|done]; lia.
  - eapply Forall_lt_mono; [|done]; lia.
  - by apply Forall_snoc.
  - revert ln_leased0. apply Forall_weaken. intros b _ He. apply list.Exists_app. by left.
  - eapply Forall_lt_mono; [|done]; lia.
Qed.

(** A pool's bytes change, or its lease count grows. *)
Definition pool_grows (p p' : MockPool) : Prop :=
  mp_id p' = mp_id p /\ mp_session_id p' = mp_session_id p /\
  mp_slot_region_size p' = mp_slot_region_size p /\ mp_buffer_count p <= mp_buffer_count p'.

Lemma leased_grows p p' b : pool_grows p p' -> leased p b -> leased p' b.
Proof. unfold pool_grows, leased. intuition lia. Qed.

Lemma update_pool_ok s i p p' :
  mock_ok s -> be_pools s !! i = Some p -> pool_ok p' ->
  mock_ok (set_pools (update i (fun _ => p') (be_pools s)) s).
Proof. intros [] Hi Hp. constructor; simpl; auto. apply Forall_update; auto. Qed.

Lemma update_pool_links s i p p' :
  mock_links s -> be_pools s !! i = Some p -> pool_grows p p' ->
  mock_links (set_pools (update i (fun _ => p') (be_pools s)) s).
Proof.
  intros [] Hi Hg. pose proof Hg as (Eid & Esess & Eslot & Ecnt).
  assert (forall x, be_pools s !! i = Some x -> x = p) as Hx by (intros; congruence).
  constructor; simpl; try done.
  - rewrite fmap_update_same; [done|]. intros x ->%Hx. done.
  - apply Forall_update; [done|]. intros x ->%Hx. by rewrite Eid.
  - apply Forall_update; [done|]. intros x ->%Hx. by rewrite Esess.
  - revert ln_leased0. apply Forall_weaken. intros b _ (q & Hq & Hl)%list.Exists_exists.
    apply list_elem_of_lookup in Hq as (j & Hj). apply list.Exists_exists.
    unfold update. destruct (decide (i = j)) as [->|].
    + exists p'. split; [|apply (leased_grows p); [done|congruence]].
      apply list_elem_of_lookup. exists j. rewrite list_lookup_alter_eq, Hi. done.
    + exists q. split; [|done]. apply list_elem_of_lookup. exists j.
      by rewrite list_lookup_alter_ne.
Qed.

(** Buffers. *)
Lemma update_buffer_ok s i f :
  mock_ok s -> (forall x, be_buffers s !! i = Some x -> buffer_ok x -> buffer_ok (f x)) ->
  mock_ok (set_buffers (update i f (be_buffers s)) s).
Proof. intros [] Hf. constructor; simpl; auto. apply Forall_update; auto. Qed.

(** A buffer keeps its identity and slot while its state and generation move,
    provided no held output is invalidated. *)
Definition buffer_moves (b b' : MockBuffer) : Prop :=
  mb_id b' = mb_id b /\ slot_key b' = slot_key b /\ mb_total_size b' = mb_total_size b.

Lemma update_buffer_links s i f :
  mock_links s -> (forall x, be_buffers s !! i = Some x -> buffer_moves x (f x)) ->
  (forall x, be_buffers s !! i = Some x -> Forall (fun o => holds o (f x)) (be_outputs s)) ->
  mock_links (set_buffers (update i f (be_buffers s)) s).
Proof.
  intros [] Hf Hh.
  constructor; simpl; try done.
  - rewrite fmap_update_same; [done|]. intros x Hx. by apply Hf.
  - apply Forall_update; [done|]. intros x Hx. by destruct (Hf x Hx) as [-> _].
  - apply Forall_update; [done|]. intros x Hx. rewrite !list.Exists_exists.
    destruct (Hf x Hx) as (_ & [= E1 E2] & E3). unfold leased. by rewrite E1, E2, E3.
  - rewrite fmap_update_same; [done|]. intros x Hx. by apply Hf.
  - rewrite list.Forall_forall in ln_holds0 |- *. intros o Ho.
    apply Forall_update; [by apply ln_holds0|]. intros x Hx _.
    specialize (Hh x Hx). rewrite list.Forall_forall in Hh. auto.
Qed.

(** Outputs. *)
Lemma mark_output_ok s i :
  mock_ok s -> mock_ok (set_outputs (update i (output_with_dequeued true) (be_outputs s)) s).
Proof.
  intros []. constructor; simpl; auto.
  - apply Forall_update; auto.
  - by rewrite length_update.
  - by rewrite sum_Z_update.
Qed.

Lemma mark_output_links s i :
  mock_links s ->
  mock_links (set_outputs (update i (output_with_dequeued true) (be_outputs s)) s).
Proof.
  intros []. constructor; simpl; auto; try (by rewrite fmap_update_same);
    apply Forall_update; auto.
Qed.

(** Leasing a fresh slot. *)
Lemma slot_fresh s i p :
  mock_links s -> be_pools s !! i = Some p ->
  (mp_id p, mp_buffer_count p) ∉ slot_key <$> be_buffers s.
Proof.
  intros Hln Hi (b & [= E1 E2] & Hb)%list_elem_of_fmap.
  destruct (find_pool_leased s b Hln Hb) as (j & q & Hf & Hj & Hl).
  assert (j = i) as ->.
  { apply (f_equal Some) in E1. pose proof (position_unique mp_id Z.eqb _ _ p
      Z.eqb_eq (ln_pool_ids _ Hln) Hi) as Hpos. unfold find_pool_idx in Hf.
    simplify_eq. rewrite E1 in Hpos. rewrite Hpos in Hf. congruence. }
  simplify_eq. destruct Hl as (_ & Hlt & _). lia.
Qed.

Lemma add_buffer_ok s b next :
  mock_ok s -> buffer_ok b -> u64_range next ->
  mock_ok (set_buffers (be_buffers s ++ [b]) (set_next_host_id next s)).
Proof. intros [] Hp Hn. constructor; simpl; auto using Forall_snoc. Qed.

Lemma add_buffer_links s b :
  mock_links s -> mb_id b = be_next_host_id s ->
  Exists (fun p => leased p b) (be_pools s) -> slot_key b ∉ slot_key <$> be_buffers s ->
  mock_links (set_buffers (be_buffers s ++ [b]) (set_next_host_id (be_next_host_id s + 1) s)).
Proof.
  intros [] Hb Hl Hk. constructor; simpl; try done; try lia.
  - revert ln_session_new0. apply Forall_weaken. intros; lia.
  - eapply Forall_lt_mono; [|done]; lia.
  - rewrite fmap_app. apply NoDup_snoc; [done|]. rewrite Hb. by apply fresh_id.
  - apply Forall_snoc; [|lia]. eapply Forall_lt_mono; [|done]; lia.
  - by apply Forall_snoc.
  - rewrite fmap_app. by apply NoDup_snoc.
  - eapply Forall_lt_mono; [|done]; lia.
  - rewrite list.Forall_forall in ln_holds0, ln_source_new0 |- *. intros o Ho.
    apply Forall_snoc; [by apply ln_holds0|]. intros E.
    specialize (ln_source_new0 o Ho). simpl in *. lia.
Qed.

(** Queueing an output. *)
Lemma add_output_ok s o next :
  mock_ok s -> output_ok o -> u64_range next -> 0 <= output_size o ->
  len (be_outputs s) < be_max_output_count s ->
  be_output_bytes_total s + output_size o <= be_max_output_bytes s ->
  mock_ok (set_outputs (be_outputs s ++ [o])
    (set_output_bytes_total (be_output_bytes_total s + output_size o)
      (set_next_output_id next s))).
Proof.
  intros [] Ho Hn Hz Hc Hb. constructor; simpl; auto using Forall_snoc.
  - rewrite length_app. simpl. lia.
  - rewrite sum_Z_app. unfold sum_Z at 2. simpl. lia.
Qed.

Lemma add_output_links s o total :
  mock_links s -> output_id o = be_next_output_id s ->
  output_session o ∈ ms_id <$> be_sessions s ->
  mo_source_buffer_id o < be_next_host_id s ->
  source_key o ∉ source_key <$> be_outputs s ->
  Forall (holds o) (be_buffers s) ->
  mock_links (set_outputs (be_outputs s ++ [o])
    (set_output_bytes_total total (set_next_output_id (be_next_output_id s + 1) s))).
Proof.
  intros [] Hid Hs Hsrc Hk Hh. constructor; simpl; try done.
  - rewrite fmap_app. apply NoDup_snoc; [done|]. rewrite Hid. by apply fresh_id.
  - apply Forall_snoc; [|lia]. eapply Forall_lt_mono; [|done]; lia.
  - by apply Forall_snoc.
  - rewrite fmap_app. by apply NoDup_snoc.
  - by apply Forall_snoc.
  - by apply Forall_snoc.
Qed.

(** Dropping outputs. *)
Lemma keep_outputs_ok s outs :
  mock_ok s -> outs `sublist_of` be_outputs s -> Forall output_ok outs ->
  sum_Z output_size outs <= sum_Z output_size (be_outputs s) ->
  mock_ok (set_output_bytes_total (sum_Z output_size outs) (set_outputs outs s)).
Proof.
  intros [] Hsub Hok Hle. constructor; simpl; auto; try lia.
  apply sublist_length in Hsub. lia.
Qed.

Lemma keep_outputs_links s outs total :
  mock_links s -> outs `sublist_of` be_outputs s ->
  mock_links (set_output_bytes_total total (set_outputs outs s)).
Proof.
  intros [] Hsub.
  assert (forall P : MockOutput -> Prop, Forall P (be_outputs s) -> Forall P outs) as HF.
  { intros P. rewrite !list.Forall_forall. intros HP x Hx. apply HP.
    by eapply elem_of_sublist. }
  constructor; simpl; auto; eapply NoDup_fmap_sublist; eauto.
Qed.

Lemma output_size_nonneg o : output_ok o -> 0 <= output_size o.
Proof. intros [_ <-]. lia. Qed.

Lemma outputs_sum_nonneg outs : Forall output_ok outs -> 0 <= sum_Z output_size outs.
Proof.
  rewrite list.Forall_forall. intros Ho. apply sum_Z_nonneg.
  intros x Hx. by apply output_size_nonneg, Ho.
Qed.

(** [release_output] found the output at [idx]. *)
Lemma release_output_found s oid o idx :
  position (fun o => output_id o =? oid) (be_outputs s) = Some idx ->
  be_outputs s !! idx = Some o ->
  exists s1, release_output s oid =
      (true, set_output_bytes_total
               (saturating_sub (be_output_bytes_total s) (output_size o))
               (set_outputs (remove_at idx (be_outputs s)) s1)) /\
    (s1 = s \/
     exists bi b, find_buffer_idx s (mo_source_buffer_id o) = Some bi /\
       be_buffers s !! bi = Some b /\ mb_id b = mo_source_buffer_id o /\
       s1 = set_buffers
              (update bi
                 (fun buffer =>
                    if (mb_generation buffer =? mo_source_buffer_generation o)
                       && (mb_state buffer =? BUFFER_STATE_QUEUED_TO_HOST)
                    then buffer_with_state BUFFER_STATE_GUEST_WRITABLE buffer
                    else buffer) (be_buffers s)) s).
Proof.
  intros Hp Ho. unfold release_output. rewrite Hp, Ho. cbv zeta.
  destruct (find_buffer_idx s (mo_source_buffer_id o)) as [bi|] eqn:Hf.
  - pose proof (position_Some _ _ _ Hf) as (b & Hb & E & _). apply Z.eqb_eq in E.
    eexists. split; [done|]. right. exists bi, b. done.
  - exists s. split; [by destruct s|by left].
Qed.

Lemma release_buffer_ok s (o : MockOutput) bi :
  mock_ok s ->
  mock_ok (set_buffers
    (update bi (fun buffer =>
       if (mb_generation buffer =? mo_source_buffer_generation o)
          && (mb_state buffer =? BUFFER_STATE_QUEUED_TO_HOST)
       then buffer_with_state BUFFER_STATE_GUEST_WRITABLE buffer
       else buffer) (be_buffers s)) s).
Proof.
  intros Hok. apply update_buffer_ok; [done|]. intros x _ Hx. case_if; [|done].
  unfold buffer_ok in *. simpl. tauto.
Qed.

Lemma release_output_ok s oid : mock_ok s -> mock_ok (release_output s oid).2.
Proof.
  intros Hok. destruct (position (fun o => output_id o =? oid) (be_outputs s)) as [idx|] eqn:Hp.
  2: { unfold release_output. by rewrite Hp. }
  pose proof (position_Some _ _ _ Hp) as (o & Ho & _ & _).
  destruct (release_output_found s oid o idx Hp Ho) as (s1 & -> & Hs1). simpl.
  assert (mock_ok s1 /\ be_outputs s1 = be_outputs s) as [Hok1 Eo].
  { destruct Hs1 as [->|(bi & b & _ & _ & _ & ->)]; [done|].
    split; [by apply release_buffer_ok|done]. }
  pose proof (sum_Z_remove output_size _ _ _ Ho) as Hsum.
  pose proof (Forall_at _ _ _ _ (ok_outputs _ Hok) Ho) as Hoo.
  pose proof (output_size_nonneg o Hoo).
  assert (Forall output_ok (remove_at idx (be_outputs s))) as Hrem
    by (apply Forall_remove_at, Hok).
  pose proof (outputs_sum_nonneg _ Hrem).
  unfold saturating_sub. rewrite (ok_output_total _ Hok), Z.max_r by lia.
  rewrite <- Hsum. rewrite <- Eo in *.
  apply keep_outputs_ok; [done|apply remove_at_sublist|done|lia].
Qed.

Lemma release_output_links s oid : mock_links s -> mock_links (release_output s oid).2.
Proof.
  intros Hln. destruct (position (fun o => output_id o =? oid) (be_outputs s)) as [idx|] eqn:Hp.
  2: { unfold release_output. by rewrite Hp. }
  pose proof (position_Some _ _ _ Hp) as (o & Ho & _ & _).
  destruct (release_output_found s oid o idx Hp Ho) as (s1 & -> & Hs1). simpl.
  destruct Hs1 as [->|(bi & b & _ & Hb & Hid & ->)].
  { apply keep_outputs_links; [done|apply remove_at_sublist]. }
  set (total := saturating_sub _ _).
  pose proof (keep_outputs_links s (remove_at idx (be_outputs s)) total Hln
                (remove_at_sublist _ _)) as Hkeep.
  apply (update_buffer_links _ bi _ Hkeep).
  { intros x _. case_if; done. }
  simpl. intros x Hx. simplify_eq. apply list.Forall_forall. intros o' Ho'.
  pose proof (ln_holds _ Hkeep) as Hh. simpl in Hh. rewrite list.Forall_forall in Hh.
  pose proof (Forall_at _ _ _ _ (Hh o' Ho') Hb) as Hob.
  destruct (_ && _) eqn:E; [|done]. zbool. intros Heq. simpl in *.
  split; [by apply Hob|]. intros Hgen _. clear Hob.
  apply (remove_at_key source_key _ _ _ _ (ln_sources _ Hln) Ho Ho').
  unfold source_key. congruence.
Qed.

(** Destroying a session. *)
Lemma fold_remove_buffers ids s :
  fold_left remove_buffers_for_pool ids s =
  set_buffers (retain (fun b => negb (existsb (Z.eqb (mb_pool_id b)) ids)) (be_buffers s)) s.
Proof.
  revert s. induction ids as [|i ids IH]; intros s; simpl.
  - rewrite retain_all by done. by destruct s.
  - rewrite IH. unfold remove_buffers_for_pool, set_buffers. simpl. f_equal.
    unfold retain. induction (be_buffers s) as [|b bs IHb]; simpl; [done|].
    destruct (mb_pool_id b =? i); simpl; [done|].
    destruct (existsb _ ids); simpl; [done|]. by f_equal.
Qed.

Definition destroy_state (s : MockBackend) (sid : Z) : MockBackend :=
  remove_session (remove_pools_for_session (remove_outputs_for_session s sid) sid) sid.

Lemma remove_outputs_ok s sid : mock_ok s -> mock_ok (remove_outputs_for_session s sid).
Proof.
  intros Hok. unfold remove_outputs_for_session. cbv zeta. simpl.
  set (f := fun o => output_session o =? sid).
  pose proof (sum_Z_retain_split output_size f (be_outputs s)) as Hsum.
  set (outs := retain (fun o => negb (f o)) (be_outputs s)) in *.
  assert (Forall output_ok outs) as Hk by (apply Forall_retain, Hok).
  assert (Forall output_ok (retain f (be_outputs s))) as Hr by (apply Forall_retain, Hok).
  pose proof (outputs_sum_nonneg _ Hk). pose proof (outputs_sum_nonneg _ Hr).
  unfold saturating_sub. rewrite (ok_output_total _ Hok), Z.max_r by lia.
  replace (sum_Z output_size (be_outputs s) - _) with (sum_Z output_size outs)
    by lia.
  apply (keep_outputs_ok s outs); [done|apply retain_sublist|done|lia].
Qed.

Lemma destroy_ok s sid : mock_ok s -> mock_ok (destroy_state s sid).
Proof.
  intros Hok. apply (remove_outputs_ok s sid) in Hok. unfold destroy_state.
  set (s1 := remove_outputs_for_session s sid) in *. clearbody s1.
  unfold remove_pools_for_session. rewrite fold_remove_buffers. destruct Hok.
  constructor; simpl; auto with vtf.
Qed.

Lemma destroy_links s sid : mock_links s -> mock_links (destroy_state s sid).
Proof.
  intros Hln.
  assert (mock_links (remove_outputs_for_session s sid)) as Hln1
    by (apply keep_outputs_links; [done|apply retain_sublist]).
  assert (Forall (fun o => output_session o <> sid)
            (be_outputs (remove_outputs_for_session s sid))) as Hout.
  { apply list.Forall_forall. intros o [_ Ho]%elem_of_retain. zbool. }
  unfold destroy_state. set (s1 := remove_outputs_for_session s sid) in *. clearbody s1.
  unfold remove_pools_for_session. rewrite fold_remove_buffers.
  destruct Hln1. constructor; simpl; auto with vtf;
    try (eapply NoDup_fmap_sublist; [apply retain_sublist|done]).
  - apply list.Forall_forall. intros p [Hp Hps]%elem_of_retain. zbool.
    rewrite list.Forall_forall in ln_pool_session0.
    destruct (ln_pool_session0 p Hp) as [|(x & E & Hx)%list_elem_of_fmap]; [by left|right].
    apply list_elem_of_fmap. exists x. split; [done|]. apply elem_of_retain.
    split; [done|]. apply negb_true_iff, Z.eqb_neq. congruence.
  - rewrite list.Forall_forall in ln_output_session0, Hout |- *. intros o Ho.
    specialize (ln_output_session0 o Ho). specialize (Hout o Ho).
    apply list_elem_of_fmap in ln_output_session0 as (x & E & Hx).
    apply list_elem_of_fmap. exists x. split; [done|]. apply elem_of_retain.
    split; [done|]. apply negb_true_iff, Z.eqb_neq. congruence.
  - apply list.Forall_forall. intros b [Hb Hbk]%elem_of_retain.
    rewrite list.Forall_forall in ln_leased0.
    destruct (proj1 (list.Exists_exists _ _) (ln_leased0 b Hb)) as (p & Hp & Hl).
    apply list.Exists_exists. exists p. split; [|done]. apply elem_of_retain.
    split; [done|]. apply negb_true_iff, Z.eqb_neq. intros Hsid.
    apply negb_true_iff in Hbk. apply not_true_iff_false in Hbk. apply Hbk.
    apply existsb_exists. exists (mp_id p). split.
    + apply in_map_iff. exists p. split; [done|]. apply list_elem_of_In, elem_of_retain.
      split; [done|]. by apply Z.eqb_eq.
    + apply Z.eqb_eq. symmetry. apply Hl.
  - revert ln_holds0. apply Forall_weaken. intros o _ Ho. by apply Forall_retain.
Qed.


(** ** Slots *)

Lemma slot_bytes_range_Some p i off n :
  0 <= mp_slot_region_size p -> slot_bytes_range p i = Some (off, n) ->
  Z.of_nat off = i * mp_slot_region_size p /\ Z.of_nat n = mp_slot_region_size p /\
  (off + n <= length (mp_backing p))%nat.
Proof.
  unfold slot_bytes_range, slot_range. intros Hs E.
  destruct (mp_slot_region_size p =? 0) eqn:Ez; [done|]. zbool.
  destruct (checked 64 (i * _)) as [a|] eqn:Ea; [|done]. simpl in E.
  destruct (checked 64 (a + _)) as [e|] eqn:Ee; [|done]. simpl in E.
  apply checked_Some in Ea as [-> Ha]. apply checked_Some in Ee as [-> He].
  destruct (_ >? _) eqn:Eg; [done|]. simpl in E. simplify_eq.
  rewrite Z.gtb_ltb in Eg. zbool.
Qed.

Lemma slot_bytes_range_total p i :
  pool_ok p -> 0 <= i < mp_max_buffers p -> 0 < mp_slot_region_size p ->
  slot_bytes_range p i =
    Some (Z.to_nat (i * mp_slot_region_size p), Z.to_nat (mp_slot_region_size p)).
Proof.
  intros (_ & _ & Hm & _ & Hs & Hl & _) Hi Hpos. unfold slot_bytes_range, slot_range.
  assert (i * mp_slot_region_size p + mp_slot_region_size p
          <= mp_max_buffers p * mp_slot_region_size p) by nia.
  assert (mp_max_buffers p * mp_slot_region_size p < 2 ^ 64)
    by (unfold u32_range in *; nia).
  destruct (mp_slot_region_size p =? 0) eqn:Ez; zbool.
  rewrite (proj2 (checked_Some 64 _ (i * mp_slot_region_size p))) by (split; [done|nia]).
  simpl. rewrite (proj2 (checked_Some 64 _ _)) by (split; [done|nia]). simpl.
  assert ((i * mp_slot_region_size p + mp_slot_region_size p >? len (mp_backing p)) = false)
    as -> by (rewrite Z.gtb_ltb; apply Z.ltb_ge; lia).
  simpl. do 2 f_equal. lia.
Qed.

Lemma slot_bytes_Some p i bytes :
  pool_ok p -> slot_bytes p i = Some bytes -> len bytes = mp_slot_region_size p.
Proof.
  intros Hp E. unfold slot_bytes in E.
  destruct (slot_bytes_range p i) as [[off n]|] eqn:Er; [|done]. simpl in E. simplify_eq.
  apply slot_bytes_range_Some in Er as (_ & Hn & Hl); [|apply Hp].
  rewrite length_slice by done. done.
Qed.

Lemma slot_store_Some p i f p' :
  pool_ok p -> (forall l, length (f l) = length l \/ len (f l) = mp_slot_region_size p) ->
  slot_store p i f = Some p' -> pool_ok p' /\ pool_grows p p'.
Proof.
  intros Hp Hf E. unfold slot_store in E.
  destruct (slot_bytes_range p i) as [[off n]|] eqn:Er; [|done]. simpl in E. simplify_eq.
  apply slot_bytes_range_Some in Er as (_ & Hn & Hl); [|apply Hp].
  set (sl := slice off n (mp_backing p)).
  assert (length (f sl) = n) as Hfl.
  { pose proof (length_slice off n (mp_backing p) Hl) as Hsl. fold sl in Hsl.
    destruct (Hf sl); lia. }
  split; [|by unfold pool_grows].
  destruct Hp as (? & ? & ? & ? & ? & ? & ?). unfold pool_ok. simpl.
  rewrite length_write_at by lia. done.
Qed.

(** ** The handlers *)


(** What every handler does to a state satisfying the invariant. *)
Definition preserved (s : MockBackend) (_ : option (list byte)) (s' : MockBackend)
    (h' : MessageHeader) : Prop :=
  mock_ok s' /\ pod_ok h' = true /\ counts s s' /\
  (mock_links s -> counters_below s -> mock_links s').

Lemma counts_refl s : counts s s.
Proof. intros n Hn. apply counters_le_mono. lia. Qed.

(** A panic outside the invariant. *)
Definition unlinked (s : MockBackend) : Prop := ~ (mock_links s /\ counters_below s).

Definition no_next {B} (a : Empty_set) (_ : B) (_ : MessageHeader) : Prop :=
  match a with end.

Lemma header_with_status_ok st h :
  pod_ok h = true -> u32_range st -> pod_ok (header_with_status st h) = true.
Proof.
  intros Hh Hst. pod_fields Hh. pod_ok_split; try assumption. by apply uint_ok_spec.
Qed.

Lemma preserved_refl s o h : mock_ok s -> pod_ok h = true -> preserved s o s h.
Proof. intros Hok Hh. split_and!; [done|done|apply counts_refl|done]. Qed.

Lemma preserved_fail s o st h :
  mock_ok s -> pod_ok h = true -> u32_range st -> preserved s o s (header_with_status st h).
Proof. intros. apply preserved_refl; [done|]. by apply header_with_status_ok. Qed.

Lemma position_lookup {A} (f : A -> bool) l i :
  position f l = Some i -> l !! i <> None.
Proof. intros (x & Hx & _)%position_Some. congruence. Qed.
End invariant.

(** Closes the unchanged-state and error outcomes of a handler proof. *)
Ltac unchanged :=
  match goal with
  | |- preserved ?s _ ?s (header_with_status _ _) =>
      apply preserved_fail; [assumption|assumption|unfold u32_range; cbv; split; congruence]
  | |- preserved ?s _ ?s _ => apply preserved_refl; assumption
  | H : _ = Some ?i, E : _ !! ?i = None |- _ =>
      exfalso; refine (position_lookup _ _ _ _ E); exact H
  end.

Ltac arm_step :=
  lazymatch goal with
  | |- hwp _ (write_pod _) _ _ _ _ _ => apply hwp_write_pod_any; [|intros ?]
  | |- hwp _ (write_pod_and_bytes _ _) _ _ _ _ _ =>
      apply hwp_write_pod_and_bytes_any; [|intros ?]
  | |- _ => hstep
  end; try (by unchanged).

Ltac payload_fields :=
  match goal with
  | E : read_pod _ _ = Some _ |- _ => apply read_pod_ok in E; pod_fields E
  end.

(** Proves that a reply is representable, from field ranges in the context. *)
Ltac reply_ok :=
  pod_ok_split;
  first [ assumption | reflexivity
        | apply uint_ok_spec; cbn; unfold u32_range, u64_range in *; cbn in *; lia ].

(** Bounds the counters of an updated state: one increment at most. *)
Ltac counters :=
  let n := fresh "n" in
  intros n ? (? & ? & ? & ?);
  repeat match goal with
  | E : arith 64 (_ + 1) = Val _, U : u64_range _ |- _ =>
      apply arith_le in E; [|lia|unfold u64_range in U; lia]
  end;
  split_and!; simpl; try lia;
  repeat first
    [ apply Forall_update; [|intros ? ? ?; simpl; lia]
    | apply Forall_snoc; [|simpl; lia]
    | apply Forall_retain ];
  match goal with
  | F : Forall _ ?l |- Forall _ ?l => revert F; apply Forall_weaken; intros; simpl in *; lia
  end.

Section handlers.
Context `{Profile}.
Context (s : MockBackend) (h : MessageHeader) (L : nat).
Context (Hok : mock_ok s) (Hh : pod_ok h = true).
Abbreviation arm_ok P m := (hwp P m no_next (preserved s) s h L).

Lemma hello_ok : arm_ok (unlinked s) mock_hello.
Proof. unfold mock_hello. arm_step. vm_compute. reflexivity. Qed.

Lemma get_caps_ok : arm_ok (unlinked s) mock_get_caps.
Proof.
  unfold mock_get_caps. repeat arm_step. 
  pose proof (ok_output_count _ Hok). pod_ok_split; try reflexivity.
  apply uint_ok_spec. apply Z.mod_pos_bound. lia.
Qed.

Lemma set_property_ok pl : arm_ok (unlinked s) (mock_set_property pl).
Proof. unfold mock_set_property. repeat arm_step. Qed.

Lemma prepare_session_ok pl : arm_ok (unlinked s) (mock_prepare_session pl).
Proof.
  unfold mock_prepare_session. repeat arm_step.
  split_and!; [by apply update_session_ok|done|counters|].
  intros Hln _. by apply update_session_links.
Qed.

Lemma drain_ok pl : arm_ok (unlinked s) (mock_drain pl).
Proof.
  unfold mock_drain. repeat arm_step.
  apply read_pod_ok in H0. pod_fields H0. pod_ok_split; try assumption; [|reflexivity].
  apply uint_ok_spec. apply Z.mod_pos_bound. lia.
Qed.

Lemma destroy_session_ok pl : arm_ok (unlinked s) (mock_destroy_session pl).
Proof.
  unfold mock_destroy_session. repeat arm_step.
  split_and!; [by apply destroy_ok|done| |intros Hln _; by apply destroy_links].
  unfold remove_session, remove_pools_for_session. rewrite fold_remove_buffers. counters.
Qed.

(** Incrementing a counter that has room. *)
Lemma counter_next n next :
  arith 64 (n + 1) = Val next -> u64_range n ->
  u64_range next /\ (n < 2 ^ 64 - 1 -> next = n + 1).
Proof.
  intros Ha Hn. split; [by apply arith_range in Ha; [|lia]|].
  intros Hlt. apply (arith_exact _ _ _ Ha). unfold u64_range in *. lia.
Qed.

Lemma counter_panic n :
  arith 64 (n + 1) = Panic -> u64_range n -> ~ n < 2 ^ 64 - 1.
Proof. intros [Hp _]%arith_panic Hn. unfold u64_range in *. lia. Qed.

Lemma create_session_ok pl : arm_ok (unlinked s) (mock_create_session pl).
Proof.
  pose proof (ok_next_host_id _ Hok) as Hn.
  unfold mock_create_session. repeat arm_step; payload_fields.
  - reply_ok.
  - destruct (counter_next _ _ H2 Hn) as [Hr Hx]. split_and!; [|done|counters|].
    + apply add_session_ok; [done| |done].
      unfold session_ok, u32_range. simpl. rewrite <- !(uint_ok_spec 4). split_and!; done.
    + intros Hln [Hc _]. rewrite (Hx Hc). by apply add_session_links.
  - intros [_ [Hc _]]. by apply (counter_panic _ H2).
Qed.



(** The backing of a new pool has the size of its slots. *)
Lemma new_pool_ok n sid w ht pf m l size backing region :
  u64_range n -> u32_range w -> u32_range ht -> u32_range pf -> 0 < m < 2 ^ 32 ->
  fill_buffer_layout w ht pf = Val l ->
  checked 64 (m * bl_total_size l) = Some size -> vec_zeroed size = Val backing ->
  arith 32 (m * bl_total_size l) = Val region ->
  pool_ok (mk_MockPool n sid w ht pf m 0 (bl_total_size l) backing).
Proof.
  intros Hn Hw Hht Hpf Hm Hl [-> Hs]%checked_Some Hv Hr.
  destruct (fill_buffer_layout_ok _ _ _ _ Hw Hht Hl) as [_ Ht].
  unfold vec_zeroed in Hv. case_if_in Hv; [done|]. injection Hv as <-.
  unfold pool_ok, geometry_ok. simpl. split_and!; try done; try lia; [eauto|..].
  - rewrite length_replicate. lia.
  - intros Hc. pose proof (arith_checked _ _ _ Hc Hr). subst.
    by apply (arith_range 32) in Hr; [|lia].
Qed.

Lemma pool_payload_ok pl a :
  read_pod CreateBufferPoolPayload pl = Some a ->
  u32_range (cbp_width a) /\ u32_range (cbp_height a) /\ u32_range (cbp_pixel_format a) /\
  0 < (if cbp_buffer_count a =? 0 then DEFAULT_POOL_BUFFERS else cbp_buffer_count a) < 2 ^ 32.
Proof.
  intros E. apply read_pod_ok in E. pod_fields E.
  unfold u32_range. rewrite <- !(uint_ok_spec 4). split_and!; try done;
    case_if; zbool; unfold DEFAULT_POOL_BUFFERS; try lia;
    match goal with E : uint_ok 4 (cbp_buffer_count a) = true |- _ => apply uint_ok_spec in E end;
    lia.
Qed.

Lemma create_buffer_pool_ok pl : arm_ok True (mock_create_buffer_pool pl).
Proof.
  pose proof (ok_next_host_id _ Hok) as Hn.
  unfold mock_create_buffer_pool. repeat arm_step; try done;
    destruct (pool_payload_ok _ _ H1) as (Hw & Hht & Hpf & Hm);
    pose proof (arith_range 32 _ _ ltac:(lia) H7) as Hreg;
    destruct (fill_buffer_layout_ok _ _ _ _ Hw Hht H3) as [Hlok Hlt].
  - pod_fields Hlok. pod_ok_split; try assumption;
      lazymatch goal with
      | |- arr_ok _ _ _ = true => by apply arr_ok_replicate, zeroed_ok
      | |- uint_ok 8 _ = true => by apply (uint_ok_spec 8)
      | |- uint_ok 4 _ = true => apply (uint_ok_spec 4); cbn; unfold u32_range in *; lia
      end.
  - destruct (counter_next _ _ H6 Hn) as [Hr Hx]. split_and!; [|done|counters|].
    + apply add_pool_ok; [done| |done]. by eapply new_pool_ok.
    + intros Hln [Hc _]. rewrite (Hx Hc). apply add_pool_links; [done|done|]. simpl.
      apply andb_false_iff in H2 as [E|E]; [left; zbool|right].
      apply bool_decide_eq_false in E. destruct (find_session_idx s _) as [i|] eqn:Hf; [|done].
      apply position_Some in Hf as (x & Hx' & E' & _). apply Z.eqb_eq in E'. rewrite <- E'.
      apply list_elem_of_fmap_2. by eapply list_elem_of_lookup_2.
Qed.


Lemma recycle_buffer_ok pl : arm_ok (unlinked s) (mock_recycle_buffer pl).
Proof.
  unfold mock_recycle_buffer. repeat arm_step.
  split_and!; [|done|counters|].
  - apply update_buffer_ok; [done|]. intros x _ Hx. unfold buffer_ok in *. simpl. tauto.
  - intros Hln _. apply update_buffer_links; [done|by intros|]. intros x Hx.
    apply list.Forall_forall. intros o' Ho. pose proof (ln_holds _ Hln) as Hh'.
    rewrite list.Forall_forall in Hh'. specialize (Hh' o' Ho).
    pose proof (Forall_at _ _ _ _ Hh' Hx) as Hox. intros E. simpl in *.
    split; [by apply Hox|done].
Qed.

(** A buffer found by id, with the pool found for it. *)
Lemma found_lease bid bi b pi p :
  mock_links s -> find_buffer_idx s bid = Some bi -> be_buffers s !! bi = Some b ->
  find_pool_idx s (mb_pool_id b) = Some pi -> be_pools s !! pi = Some p -> leased p b.
Proof.
  intros Hln _ Hb Hpi Hp. apply list_elem_of_lookup_2 in Hb.
  destruct (leased_pool s b pi Hln Hb Hpi) as (q & Hq & Hl). congruence.
Qed.

Lemma read_buffer_ok pl : arm_ok (unlinked s) (mock_read_buffer pl).
Proof.
  unfold mock_read_buffer. repeat arm_step.
  - payload_fields. pose proof (Forall_at _ _ _ _ (ok_buffers _ Hok) H2) as (? & ? & ?).
    reply_ok.
  - payload_fields. intros [Hln _].
    pose proof (found_lease _ _ _ _ _ Hln H1 H2 H6 H7) as (_ & _ & E & _).
    pose proof (Forall_at _ _ _ _ (ok_pools _ Hok) H7) as Hp.
    pose proof (slot_bytes_Some _ _ _ Hp H8) as El.
    unfold slice_idx in H9. case_if_in H9; [done|].
    zbool.
Qed.

Lemma write_buffer_ok pl : arm_ok (unlinked s) (mock_write_buffer pl).
Proof.
  unfold mock_write_buffer. repeat arm_step.
  - pose proof (Forall_at _ _ _ _ (ok_pools _ Hok) H7) as Hp.
    pose proof (slot_bytes_Some _ _ _ Hp H8) as El.
    assert (len a5 = len a4) as E5.
    { unfold copy_from_slice in H9. case_if_in H9; [|done]. simplify_eq. zbool.
      payload_fields.
      repeat match goal with E : uint_ok 4 _ = true |- _ => apply uint_ok_spec in E end.
      rewrite length_write_at by lia. done. }
    apply slot_store_Some in H10 as [Hp' Hg]; [|done|intros; right; lia].
    split_and!; [by eapply update_pool_ok|done|counters|].
    intros Hln _. by eapply update_pool_links.
  - intros [Hln _].
    pose proof (found_lease _ _ _ _ _ Hln H1 H2 H6 H7) as (_ & _ & E & _).
    pose proof (Forall_at _ _ _ _ (ok_pools _ Hok) H7) as Hp.
    pose proof (slot_bytes_Some _ _ _ Hp H8) as El.
    unfold copy_from_slice in H9. case_if_in H9; [done|].
    apply andb_false_iff in Heqb as [Eb|Eb]; zbool. rewrite length_drop in Eb.
    payload_fields.
    repeat match goal with E : uint_ok 4 _ = true |- _ => apply uint_ok_spec in E end. lia.
Qed.

Lemma read_output_ok pl : arm_ok (unlinked s) (mock_read_output pl).
Proof.
  unfold mock_read_output. repeat arm_step.
  payload_fields. pose proof (Forall_at _ _ _ _ (ok_outputs _ Hok) H2) as [Ho _].
  pod_fields Ho. pod_ok_split; [assumption..|reflexivity].
Qed.

(** Marking outputs as handed out. *)
Lemma dequeue_output_idx_spec b sid idx b' :
  dequeue_output_idx b sid = Some (idx, b') ->
  b' = set_outputs (update idx (output_with_dequeued true) (be_outputs b)) b /\
  exists o, be_outputs b !! idx = Some o /\ be_outputs b' !! idx = Some (output_with_dequeued true o) /\
    output_session o = sid /\ mo_dequeued o = false /\
    forall j o', (j < idx)%nat -> be_outputs b !! j = Some o' ->
      output_session o' = sid -> mo_dequeued o' = true.
Proof.
  unfold dequeue_output_idx. intros E.
  destruct (position _ (be_outputs b)) as [i|] eqn:Ep; [|done]. simpl in E. simplify_eq.
  split; [done|]. apply position_Some in Ep as (o & Ho & Hf & Hlt). zbool.
  exists o. split_and!; [done| |done|done|].
  - simpl. unfold update. by rewrite list_lookup_alter_eq, Ho.
  - intros j o' Hj Ho' Hs. specialize (Hlt j o' Hj Ho'). simpl in Hlt.
    rewrite Hs, Z.eqb_refl in Hlt. simpl in Hlt. by apply negb_false_iff in Hlt.
Qed.

Lemma dequeue_output_ok pl : arm_ok (unlinked s) (mock_dequeue_output pl).
Proof.
  unfold mock_dequeue_output. repeat arm_step. destruct a0 as [idx s']. cbn beta iota.
  apply dequeue_output_idx_spec in H1 as (-> & o & Ho & Ho' & _).
  repeat arm_step.
  - rewrite Ho' in H1. simplify_eq. simpl.
    apply (Forall_at _ _ _ _ (ok_outputs _ Hok) Ho).
  - split_and!; [by apply mark_output_ok|done|counters|]. intros Hln _. by apply mark_output_links.
  - congruence.
Qed.

Lemma dequeue_up_to_ok n sid b outs b' :
  mock_ok b -> dequeue_up_to n sid b = (outs, b') ->
  mock_ok b' /\ (length outs <= n)%nat /\ Forall (fun r => pod_ok r = true) outs /\
  (exists l, b' = set_outputs l b) /\ (mock_links b -> mock_links b').
Proof.
  revert b outs b'. induction n as [|n IH]; intros b outs b' Hb E; simpl in E.
  { simplify_eq. simpl. split_and!; auto. exists (be_outputs b'). by destruct b'. }
  destruct (dequeue_output_idx b sid) as [[idx b1]|] eqn:Ed.
  2: { simplify_eq. simpl. split_and!; auto; [lia|]. exists (be_outputs b'). by destruct b'. }
  apply dequeue_output_idx_spec in Ed as (Eb1 & o & Ho & Ho' & _).
  pose proof (mark_output_ok b idx Hb) as Hb1. rewrite <- Eb1 in Hb1.
  rewrite Ho' in E. destruct (dequeue_up_to n sid b1) as [rest b2] eqn:Er. simplify_eq.
  destruct (IH _ _ _ Hb1 Er) as (Hok2 & Hlen & Hall & (l & El) & Hln).
  split_and!; [done|simpl; lia| | |].
  - constructor; [|done]. apply (Forall_at _ _ _ _ (ok_outputs _ Hb) Ho).
  - exists l. by rewrite El.
  - intros Hl. apply Hln. by apply mark_output_links.
Qed.

Lemma dequeue_output_batch_ok pl : arm_ok (unlinked s) (mock_dequeue_output_batch pl).
Proof.
  unfold mock_dequeue_output_batch. repeat arm_step.
  destruct (dequeue_up_to _ _ s) as [outs s'] eqn:Ed.
  apply (dequeue_up_to_ok _ _ _ _ _ Hok) in Ed as (Hok' & Hlen & Hall & (l & ->) & Hln).
  repeat arm_step.
  - payload_fields. assert (length outs <= Z.to_nat VTF_TRANSPORT_MAX_OUTPUT_BATCH)%nat
      by (unfold VTF_TRANSPORT_MAX_OUTPUT_BATCH in *; lia).
    pod_ok_split; [assumption| |reflexivity|].
    + apply uint_ok_spec. unfold VTF_TRANSPORT_MAX_OUTPUT_BATCH in *. lia.
    + apply arr_ok_spec. rewrite length_app, length_replicate. split; [lia|].
      apply Forall_app. split; [done|]. apply Forall_replicate, zeroed_ok.
  - split_and!; auto. counters.
  - split_and!; auto; [by apply header_with_status_ok|counters].
Qed.

Lemma release_output_counts oid : counts s (release_output s oid).2.
Proof.
  destruct (position (fun o => output_id o =? oid) (be_outputs s)) as [idx|] eqn:Hp.
  2: { unfold release_output. rewrite Hp. apply counts_refl. }
  pose proof (position_Some _ _ _ Hp) as (o & Ho & _ & _).
  destruct (release_output_found s oid o idx Hp Ho) as (s1 & -> & Hs1). simpl.
  destruct Hs1 as [->|(bi & b & _ & _ & _ & ->)]; [counters|].
  intros n Hn (? & ? & ? & ?). apply (counters_le_mono n); [lia|].
  split_and!; simpl; auto. apply Forall_update; [done|]. intros x _. by case_if.
Qed.

Lemma release_output_arm_ok pl : arm_ok (unlinked s) (mock_release_output pl).
Proof.
  unfold mock_release_output. repeat arm_step.
  pose proof (release_output_ok s (rlp_output_id a) Hok) as Hok'.
  pose proof (release_output_links s (rlp_output_id a)) as Hln'.
  pose proof (release_output_counts (rlp_output_id a)) as Hcnt.
  destruct (release_output s (rlp_output_id a)) as [found s']. simpl in *.
  repeat arm_step; split_and!; auto. by apply header_with_status_ok.
Qed.


Lemma alloc_msg_ok b l off :
  buffer_ok b -> fill_buffer_layout (mb_width b) (mb_height b) (mb_pixel_format b) = Val l ->
  u32_range off -> pod_ok (alloc_msg b l off) = true.
Proof.
  intros (Hid & Hgen & Hslot & (Hw & Hht & Hpf & _) & _) El Hoff.
  destruct (fill_buffer_layout_ok _ _ _ _ Hw Hht El) as [Hlok _].
  pod_fields Hlok. pod_ok_split; try assumption;
    lazymatch goal with
    | |- uint_ok 8 _ = true => by apply (uint_ok_spec 8)
    | |- uint_ok 4 _ = true => apply (uint_ok_spec 4); cbn; unfold u32_range in *; lia
    end.
Qed.

(** The reply of ALLOC_BUFFER is computed without panic when the slot lies in a pool. *)
Lemma alloc_reply_ok s' b :
  (forall o, preserved s o s' h) -> buffer_ok b ->
  (overflow_checks = true -> mock_links s -> u32_range (mb_slot_index b * mb_total_size b)) ->
  hwp (unlinked s) (alloc_reply b) no_next (preserved s) s' h L.
Proof.
  intros Hpres Hb Hr. pose proof Hb as (_ & _ & _ & (_ & _ & _ & l & El & Et) & _).
  unfold alloc_reply. rewrite El. repeat arm_step; try apply Hpres; simplify_eq.
  - apply alloc_msg_ok; [done|done|]. by apply arith_range in H1; [|lia].
  - apply arith_panic in H1 as [Hn Hc]. intros [Hln _]. apply Hn. rewrite Et.
    by apply Hr.
Qed.

(** A slot of a pool starts below 4 GiB when overflow is checked. *)
Lemma slot_offset_range p i total :
  pool_ok p -> 0 <= i < mp_max_buffers p -> total = mp_slot_region_size p ->
  overflow_checks = true -> u32_range (i * total).
Proof.
  intros (_ & _ & _ & _ & Hs & _ & Hc) Hi -> Ho. specialize (Hc Ho).
  unfold u32_range in *. nia.
Qed.

Definition rehand (g : Z) (b : MockBuffer) : MockBuffer :=
  buffer_with_state BUFFER_STATE_GUEST_WRITABLE (buffer_with_generation g b).

Lemma rehand_preserved bi b g o :
  be_buffers s !! bi = Some b -> arith 64 (mb_generation b + 1) = Val g ->
  preserved s o (set_buffers (update bi (fun _ => rehand g b) (be_buffers s)) s) h.
Proof.
  intros Hb Hg. pose proof (Forall_at _ _ _ _ (ok_buffers _ Hok) Hb) as Hbok.
  destruct (counter_next _ _ Hg) as [Hr Hx]; [apply Hbok|]. split_and!; [|done| |].
  - apply update_buffer_ok; [done|]. intros x _ _. unfold buffer_ok in *. simpl.
    split_and!; try apply Hbok; [done|by left].
  - destruct Hbok as (_ & Hbg & _). intros n Hn (? & ? & Hg1 & Hg2).
    pose proof (Forall_at _ _ _ _ Hg1 Hb) as Hgb. simpl in Hgb.
    apply arith_le in Hg; [|lia|unfold u64_range in Hbg; lia].
    split_and!; simpl; [lia|lia| |].
    + apply Forall_update; [|intros ? _ _; simpl; lia].
      revert Hg1. apply Forall_weaken. intros; lia.
    + revert Hg2. apply Forall_weaken. intros; lia.
  - intros Hln (_ & _ & Hc & _). apply update_buffer_links; [done|..]; intros x Hx'; simplify_eq.
    + done.
    + specialize (Hx (Forall_at _ _ _ _ Hc Hb)). apply list.Forall_forall. intros o' Ho'.
      pose proof (ln_holds _ Hln) as Hh'. rewrite list.Forall_forall in Hh'.
      pose proof (Forall_at _ _ _ _ (Hh' o' Ho') Hb) as Hob. intros E. simpl in *.
      destruct (Hob E) as [Hle _]. split; [lia|]. intros ?. lia.
Qed.

Lemma alloc_recycled_ok pid pi p bi :
  find_pool_idx s pid = Some pi -> be_pools s !! pi = Some p ->
  find_recyclable_buffer_idx s pid = Some bi ->
  arm_ok (unlinked s) (mock_alloc_recycled pi p bi).
Proof.
  intros Hpi Hp Hbi. pose proof (position_Some _ _ _ Hbi) as (b & Hb & Hrec & _).
  simpl in Hrec. zbool.
  pose proof (Forall_at _ _ _ _ (ok_buffers _ Hok) Hb) as Hbok.
  pose proof (Forall_at _ _ _ _ (ok_pools _ Hok) Hp) as Hpok.
  unfold mock_alloc_recycled. do 3 arm_step. rewrite Hb.
  apply hwp_index; [intros b' [= <-]|done].
  arm_step. apply hwp_lift; [intros g Hg|intros Hg].
  2: { intros [_ (_ & _ & Hc & _)]. eapply counter_panic; [done|apply Hbok|].
       by apply (Forall_at _ _ _ _ Hc Hb). }
  fold (rehand g b).
  pose proof (fun o => rehand_preserved bi b g o Hb Hg) as Hpres.
  do 3 arm_step. apply hwp_some_or; [intros p' Hst|intros _].
  2: { destruct (Hpres None) as (? & ? & ? & ?).
       split_and!; [done|by apply header_with_status_ok|done|done]. }
  apply slot_store_Some in Hst as [Hp' Hgr]; [|done|intros; left; apply length_replicate].
  arm_step. arm_step.
  apply alloc_reply_ok.
  - intros o. destruct (Hpres o) as (Hok1 & _ & Hcnt & Hln1). split_and!; [|done|done|].
    + by eapply update_pool_ok.
    + intros Hln Hc. by eapply update_pool_links; [apply Hln1| |].
  - apply (Forall_at _ _ bi _ (ok_buffers _ (proj1 (Hpres None)))). simpl. unfold update.
    by rewrite list_lookup_alter_eq, Hb.
  - intros Hc Hln. unfold rehand. simpl. subst pid.
    destruct (leased_pool s b pi Hln) as (q & Hq & _ & Hlt & Et & _);
      [by eapply list_elem_of_lookup_2|done|]. simplify_eq.
    pose proof Hpok as (_ & _ & _ & Hcount & _).
    destruct Hbok as (_ & _ & Hslot & _). unfold u32_range in Hslot.
    apply (slot_offset_range p); [done|lia|done|done].
Qed.

Lemma alloc_fresh_ok pid pi p :
  find_pool_idx s pid = Some pi -> be_pools s !! pi = Some p ->
  arm_ok (unlinked s) (mock_alloc_fresh pi p).
Proof.
  intros Hpi Hp. pose proof (Forall_at _ _ _ _ (ok_pools _ Hok) Hp) as Hpok.
  pose proof Hpok as (Hpid & Hgeo & Hmax & Hcount & Hslot & Hlen & Hchk).
  unfold mock_alloc_fresh. do 3 arm_step. apply hwp_reject_if; [intros Hfull|intros; unchanged].
  zbool. arm_step. apply hwp_some_or; [intros p' Hst|intros; unchanged].
  assert (0 < mp_slot_region_size p) as Hpos.
  { unfold slot_store, slot_bytes_range, slot_range in Hst.
    destruct (mp_slot_region_size p =? 0) eqn:E; [done|]. unfold u32_range in *. zbool. }
  pose proof Hst as Hst'.
  apply slot_store_Some in Hst as [Hp' Hgr]; [|done|intros; left; apply length_replicate].
  assert (p' = pool_with_backing (mp_backing p') p) as Ep'.
  { unfold slot_store in Hst'. destruct (slot_bytes_range _ _) as [[]|]; [|done].
    simpl in Hst'. by simplify_eq. }
  arm_step. arm_step. arm_step. apply hwp_lift; [intros next Hnext|intros Hpan].
  2: { intros [_ [Hc _]]. eapply counter_panic; [done|apply Hok|done]. }
  arm_step. arm_step. arm_step. rewrite arith_in by lia. apply hwp_lift; [intros cnt [= <-]|done].
  do 4 arm_step. simpl.
  set (b := mk_MockBuffer _ _ _ _ _ _ _ _ _).
  set (p'' := pool_with_count (mp_buffer_count p + 1) p').
  assert (update pi (pool_with_count (mp_buffer_count p + 1)) (update pi (fun _ => p') (be_pools s))
          = update pi (fun _ => p'') (be_pools s)) as Eu.
  { by rewrite update_update. }
  assert (pool_ok p'' /\ pool_grows p p'') as [Hp'' Hgr''].
  { subst p''. rewrite Ep' in *. unfold pool_ok, pool_grows in *. simpl in *.
    split_and!; try apply Hp'; try done; lia. }
  assert (buffer_ok b) as Hbok.
  { split_and!; simpl; try done; [apply Hok|unfold u32_range; lia|by left]. }
  apply alloc_reply_ok.
  - intros o. destruct (counter_next _ _ Hnext) as [Hr Hx]; [apply Hok|].
    set (s1 := set_pools (update pi (fun _ => p'') (be_pools s)) s).
    assert (mock_ok s1) as Hok1 by (by eapply update_pool_ok).
    replace (set_buffers _ _) with (set_buffers (be_buffers s1 ++ [b]) (set_next_host_id next s1))
      by (unfold s1, set_pools, set_buffers, set_next_host_id; simpl; by rewrite Eu).
    pose proof (ok_next_host_id _ Hok).
    split_and!; [by apply add_buffer_ok|done|counters|]. intros Hln [Hc _]. rewrite (Hx Hc).
    apply (add_buffer_links s1 b); [by eapply update_pool_links|done| |].
    + apply list.Exists_exists. exists p''. split.
      * apply list_elem_of_lookup. exists pi.
        exact (update_lookup (fun _ => p'') pi (be_pools s) p Hp).
      * destruct Hgr'' as (E1 & _ & E3 & _). unfold leased. rewrite E1, E3.
        split_and!; [done|simpl; lia|done|done].
    + by apply (slot_fresh s pi p).
  - done.
  - intros Hc _. simpl. apply (slot_offset_range p); [done|lia|done|done].
Qed.

Lemma alloc_buffer_ok pl : arm_ok (unlinked s) (mock_alloc_buffer pl).
Proof.
  unfold mock_alloc_buffer. repeat arm_step.
  destruct (find_recyclable_buffer_idx s _) as [bi|] eqn:Hbi.
  - by eapply alloc_recycled_ok.
  - by eapply alloc_fresh_ok.
Qed.




(** ENCODE_FRAME *)
Lemma length_push_seed sid oid n bytes :
  length (push_seed sid oid n bytes) = (length bytes + n)%nat.
Proof.
  revert bytes. induction n as [|n IH]; intros bytes; simpl; [lia|].
  rewrite IH, length_app. simpl. lia.
Qed.

Lemma length_encode_payload_bytes sid oid sync prefix :
  length (encode_payload_bytes sid oid sync prefix) = 24%nat.
Proof.
  unfold encode_payload_bytes. rewrite length_push_seed. simpl. rewrite length_take. lia.
Qed.

Lemma mock_output_reply_ok pl payload session oid sync :
  read_pod EncodeFramePayload pl = Some payload -> session_ok session -> u64_range oid ->
  pod_ok (mock_output_reply payload session oid 28 sync) = true.
Proof.
  intros Hpl (_ & Hc & Hw & Hht & Hpf & _) Hoid. payload_fields.
  unfold mock_output_reply. pod_ok_split; try assumption; try reflexivity;
    try (by apply (uint_ok_spec 4)); try (by apply (uint_ok_spec 8)).
  by destruct sync.
Qed.

(** Taking a writable buffer into the queue. *)
Lemma queue_buffer_links bi b :
  mock_links s -> be_buffers s !! bi = Some b ->
  mock_links (set_buffers
    (update bi (buffer_with_state BUFFER_STATE_QUEUED_TO_HOST) (be_buffers s)) s).
Proof.
  intros Hln Hb. apply update_buffer_links; [done|by intros|]. intros x Hx.
  apply list.Forall_forall. intros o Ho. pose proof (ln_holds _ Hln) as Hh'.
  rewrite list.Forall_forall in Hh'.
  pose proof (Forall_at _ _ _ _ (Hh' o Ho) Hx) as Hox. intros E.
  split; [by apply Hox|done].
Qed.

Lemma queued_holds bi b o :
  mock_links s -> be_buffers s !! bi = Some b -> source_key o = (mb_id b, mb_generation b) ->
  Forall (holds o)
    (update bi (buffer_with_state BUFFER_STATE_QUEUED_TO_HOST) (be_buffers s)).
Proof.
  intros Hln Hb [= E1 E2]. apply Forall_lookup. intros j b' Hj Hid.
  destruct (decide (bi = j)) as [<-|Hne].
  - rewrite (update_lookup _ _ _ b) in Hj by done. simplify_eq. simpl in *. split; [lia|done].
  - rewrite update_lookup_ne in Hj by done. exfalso. apply Hne.
    eapply (NoDup_lookup (mb_id <$> be_buffers s)); [apply Hln| |]; rewrite list_lookup_fmap.
    + by rewrite Hb.
    + rewrite Hj. simpl. congruence.
Qed.

Lemma writable_not_source bi b :
  mock_links s -> be_buffers s !! bi = Some b ->
  mb_state b = BUFFER_STATE_GUEST_WRITABLE ->
  (mb_id b, mb_generation b) ∉ source_key <$> be_outputs s.
Proof.
  intros Hln Hb Hw (o & [= E1 E2] & Ho)%list_elem_of_fmap.
  pose proof (ln_holds _ Hln) as Hh'. rewrite list.Forall_forall in Hh'.
  pose proof (Forall_at _ _ _ _ (Hh' o Ho) Hb) as Hob. by apply Hob.
Qed.

Lemma encode_preserved si session bi b o next frames r :
  be_sessions s !! si = Some session -> be_buffers s !! bi = Some b ->
  mb_state b = BUFFER_STATE_GUEST_WRITABLE ->
  output_ok o -> output_size o = 28 -> output_id o = be_next_output_id s ->
  output_session o = ms_id session -> source_key o = (mb_id b, mb_generation b) ->
  len (be_outputs s) < be_max_output_count s ->
  be_output_bytes_total s + 28 <= be_max_output_bytes s ->
  arith 64 (be_next_output_id s + 1) = Val next ->
  arith 64 (ms_frames_encoded session + 1) = Val frames ->
  preserved s r
    (set_sessions (update si (session_with_frames frames) (be_sessions s))
      (set_outputs (be_outputs s ++ [o])
        (set_output_bytes_total (be_output_bytes_total s + 28)
          (set_next_output_id next
            (set_buffers
              (update bi (buffer_with_state BUFFER_STATE_QUEUED_TO_HOST) (be_buffers s)) s))))) h.
Proof.
  intros Hs Hb Hw Hoo Hsz Hid Hsess Hsrc Hcnt Htot Hnext Hfr.
  destruct (counter_next _ _ Hnext) as [Hnr Hnx]; [apply Hok|].
  destruct (counter_next _ _ Hfr) as [Hfrr _];
    [apply (Forall_at _ _ _ _ (ok_sessions _ Hok) Hs)|].
  set (s1 := set_buffers _ s).
  assert (mock_ok s1) as Hok1.
  { apply update_buffer_ok; [done|]. intros x _ Hx. unfold buffer_ok in *. simpl. tauto. }
  split_and!; [|done| |].
  - apply (update_session_ok
      (set_outputs (be_outputs s1 ++ [o])
        (set_output_bytes_total (be_output_bytes_total s1 + 28) (set_next_output_id next s1)))).
    + rewrite <- Hsz. apply add_output_ok; try done; rewrite ?Hsz; try done; lia.
    + intros x Hx. unfold session_ok in *. simpl. tauto.
  - intros n Hn (? & ? & Hg1 & Hg2).
    pose proof (Forall_at _ _ _ _ Hg2 Hs) as Hgs. simpl in Hgs.
    pose proof (Forall_at _ _ _ _ (ok_sessions _ Hok) Hs) as (_ & _ & _ & _ & _ & Hfs).
    pose proof (ok_next_output_id _ Hok) as Hno.
    apply arith_le in Hnext, Hfr; [|unfold u64_range in *; lia..].
    split_and!; simpl; [lia|lia| |].
    + apply Forall_update; [|intros ? ? ?; simpl; lia].
      revert Hg1. apply Forall_weaken. intros; lia.
    + apply Forall_update; [|intros ? ? ?; simpl; lia].
      revert Hg2. apply Forall_weaken. intros; lia.
  - intros Hln (_ & Hc & _). rewrite (Hnx Hc).
    apply (update_session_links
      (set_outputs (be_outputs s1 ++ [o])
        (set_output_bytes_total (be_output_bytes_total s1 + 28)
          (set_next_output_id (be_next_output_id s1 + 1) s1)))); [|done].
    apply add_output_links; [by eapply queue_buffer_links|done| | | |by eapply queued_holds].
    + rewrite Hsess. simpl. eapply list_elem_of_fmap_2. by eapply list_elem_of_lookup_2.
    + injection Hsrc as -> _. apply (Forall_at _ _ _ _ (ln_buffer_new _ Hln) Hb).
    + rewrite Hsrc. by eapply writable_not_source.
Qed.

Lemma encode_frame_ok pl : arm_ok (unlinked s) (mock_encode_frame pl).
Proof.
  unfold mock_encode_frame. repeat arm_step; try rewrite !length_encode_payload_bytes in *;
    try (apply orb_false_elim in H14 as [Hq1 Hq2]; unfold saturating_sub in Hq2; zbool).
  - assert (a9 = be_output_bytes_total s + 28) as ->.
    { apply (arith_exact _ _ _ H16). pose proof (ok_max_bytes _ Hok). unfold u64_range in *.
      rewrite (ok_output_total _ Hok). pose proof (outputs_sum_nonneg _ (ok_outputs _ Hok)).
      rewrite (ok_output_total _ Hok) in *. lia. }
    pose proof (position_Some _ _ _ H1) as (x & Hx & Exs & _). apply Z.eqb_eq in Exs. simplify_eq.
    apply (encode_preserved a0 a1 a2 a3); try done; [|lia].
    split.
    + cbn [mo_reply]. change (4 + Z.of_nat 24) with 28. by eapply mock_output_reply_ok;
        [|apply (Forall_at _ _ _ _ (ok_sessions _ Hok) H2)|apply Hok].
    + unfold output_size. cbn [mo_sample_data mo_reply mock_output_reply dor_sample_size].
      by rewrite length_app, length_encode_payload_bytes.
  - intros [_ (_ & _ & _ & Hc)].
    eapply counter_panic; [exact H17|apply (Forall_at _ _ _ _ (ok_sessions _ Hok) H2)|].
    apply (Forall_at _ _ _ _ Hc H2).
  - intros _. apply arith_panic in H16 as [Hn _]. apply Hn.
    pose proof (ok_max_bytes _ Hok). unfold u64_range in *.
    pose proof (outputs_sum_nonneg _ (ok_outputs _ Hok)).
    rewrite (ok_output_total _ Hok) in *. lia.
  - intros [_ (_ & Hc & _)]. eapply counter_panic; [exact H15|apply Hok|done].
  - intros [Hln _].
    pose proof (found_lease _ _ _ _ _ Hln H5 H6 H9 H10) as (_ & _ & E & _).
    pose proof (Forall_at _ _ _ _ (ok_pools _ Hok) H10) as Hp.
    pose proof (slot_bytes_Some _ _ _ Hp H11) as El.
    unfold slice_idx in H12. case_if_in H12; [done|]. zbool.
Qed.

End handlers.

(** ** The dispatcher *)

(** Only CREATE_BUFFER_POOL may panic on a state satisfying the invariant. *)
Definition may_panic (s : MockBackend) (op : Z) : Prop :=
  mock_links s -> counters_below s -> op = OP_CREATE_BUFFER_POOL.

Lemma mock_dispatch_hwp `{Profile} rq pl s h L :
  mock_ok s ->
  hwp (may_panic s (mh_opcode rq)) (mock_dispatch rq pl) no_next (preserved s) s h L.
Proof.
  intros Hok. pose proof (zeroed_ok (A:=MessageHeader)) as Hz.
  unfold mock_dispatch. do 2 hstep. hstep. hstep; [|by unchanged].
  apply hwp_match_opcode; [|hstep; by unchanged].
  assert (unlinked s -> may_panic s (mh_opcode rq)) as Hw by (intros Hu Hln Hc; by destruct Hu).
  intros k a Ha Hk. unfold mock_arms in Ha.
  repeat (apply elem_of_cons in Ha as [[= -> ->]|Ha];
    [first [ apply (hwp_panic_weaken _ _ _ _ _ _ _ _ Hw); solve [ by apply hello_ok | by apply get_caps_ok | by apply create_session_ok
           | by apply alloc_buffer_ok | by apply read_buffer_ok | by apply write_buffer_ok
           | by apply recycle_buffer_ok | by apply set_property_ok | by apply prepare_session_ok
           | by apply encode_frame_ok | by apply dequeue_output_ok
           | by apply dequeue_output_batch_ok | by apply read_output_ok
           | by apply release_output_arm_ok | by apply destroy_session_ok | by apply drain_ok
           | by hstep; apply preserved_refl ]
      | eapply hwp_panic_weaken; [|by apply create_buffer_pool_ok]; intros _ _ _; exact Hk ]|]).
  by apply elem_of_nil in Ha.
Qed.

(** ** Initial states *)

Lemma parse_digits_range cs acc v :
  u64_range acc -> parse_digits 64 acc cs = Some v -> u64_range v.
Proof.
  revert acc. induction cs as [|c cs IH]; intros acc Ha E; simpl in E; [by simplify_eq|].
  case_if_in E; [|done]. destruct (checked 64 _) as [acc'|] eqn:Ec; [|done]. simpl in E.
  apply checked_Some in Ec as [-> ?]. by eapply IH.
Qed.

Lemma parse_size_env_range env name d :
  u64_range d -> u64_range (parse_size_env env name d).
Proof.
  intros Hd. unfold parse_size_env. destruct (env name) as [v|]; [|done]. simpl.
  destruct (parse_unsigned 64 v) as [z|] eqn:E; [|done]. simpl. unfold parse_unsigned in E.
  assert (u64_range 0) by (unfold u64_range; lia).
  destruct (String.list_ascii_of_string v) as [|c cs]; [done|].
  case_if_in E; [destruct cs; [done|]|]; by eapply parse_digits_range.
Qed.

Lemma reset_ok `{Profile} env s : mock_ok (mock_reset_from_env env s).
Proof.
  pose proof (parse_size_env_range env "VT_FERRY_MOCK_MAX_OUTPUTS" MAX_OUTPUTS
                ltac:(unfold u64_range, MAX_OUTPUTS; lia)) as H1.
  pose proof (parse_size_env_range env "VT_FERRY_MOCK_MAX_OUTPUT_BYTES" DEFAULT_MAX_OUTPUT_BYTES
                ltac:(unfold u64_range; cbv; split; congruence)) as H2.
  assert (MAX_OUTPUTS = 128) by done.
  constructor; simpl; unfold u64_range in *; try done; try (by constructor);
    unfold sum_Z; simpl; lia.
Qed.

Lemma reset_links env s : mock_links (mock_reset_from_env env s).
Proof. constructor; simpl; try done; constructor. Qed.

Lemma reset_counters env s : counters_le 0 (mock_reset_from_env env s).
Proof. split_and!; simpl; try lia; constructor. Qed.

Lemma new_ok `{Profile} : mock_ok MockBackend_new.
Proof.
  constructor; simpl; unfold u64_range; try done; try (by constructor); try lia;
    cbv; split; congruence.
Qed.

#[export] Instance mock_spec `{Profile} : BackendSpec MockBackend.
Proof.
  refine {| backend_inv := mock_ok |}; [apply new_ok|intros env b _; apply reset_ok|].
  intros rq pl b h L Hb _ _.
  destruct (hwp_run _ _ _ _ _ _ _ (mock_dispatch_hwp rq pl b h L Hb))
    as [[Hp _]|(o & b' & h' & (Hb' & Hh' & _) & Hl & Hd)]; [by left|].
  right. by exists o, b', h'.
Defined.

(** ** Reachable states *)

(** [mock_reach env n s]: [s] is the backend of a connection after [n] requests. *)
Inductive mock_reach `{Profile} (env : environ) : nat -> MockBackend -> Prop :=
| reach_start : mock_reach env 0 (mock_reset_from_env env MockBackend_new)
| reach_request n s rq pl h buf r s' :
    mock_reach env n s ->
    dispatch _ rq pl (IO s h buf) = Val (r, s') ->
    mock_reach env (S n) (io_self s').

Lemma dispatch_step `{Profile} rq pl s h buf r s' :
  mock_ok s -> dispatch _ rq pl (IO s h buf) = Val (r, s') ->
  preserved s None (io_self s') (io_header s').
Proof.
  intros Hok Hd.
  destruct (hwp_run _ _ _ _ _ _ _ (mock_dispatch_hwp rq pl s h (length buf) Hok))
    as [[Hp _]|(o & b' & h' & Hpres & _ & Hrun)].
  - change (run (mock_dispatch rq pl) (IO s h buf) = Val (r, s')) in Hd.
    by rewrite (Hp buf eq_refl) in Hd.
  - change (run (mock_dispatch rq pl) (IO s h buf) = Val (r, s')) in Hd.
    rewrite (Hrun buf eq_refl) in Hd. by simplify_eq.
Qed.

Lemma reach_counters `{Profile} env n s :
  mock_reach env n s -> mock_ok s /\ counters_le (Z.of_nat n) s.
Proof.
  induction 1 as [|n s rq pl h buf r s' _ [IHok IHc] Hd].
  - split; [apply reset_ok|apply reset_counters].
  - destruct (dispatch_step _ _ _ _ _ _ _ IHok Hd) as (Hok' & _ & Hcnt & _).
    split; [done|]. rewrite Nat2Z.inj_succ. apply Hcnt; [lia|done].
Qed.

Lemma reach_inv `{Profile} env n s :
  mock_reach env n s -> Z.of_nat n < 2 ^ 63 ->
  mock_ok s /\ mock_links s /\ counters_below s.
Proof.
  intros Hr. pose proof (reach_counters _ _ _ Hr) as [Hok Hc]. intros Hn.
  split_and!; [done| |by eapply counters_le_below]. clear Hok Hc.
  induction Hr as [|n s rq pl h buf r s' Hr IH Hd]; [apply reset_links|].
  destruct (reach_counters _ _ _ Hr) as [Hok Hc].
  destruct (dispatch_step _ _ _ _ _ _ _ Hok Hd) as (_ & _ & _ & Hln).
  apply Hln; [apply IH; lia|]. eapply counters_le_below; [|done]. lia.
Qed.
