(* ===== verification/MockProps.v ===== *)
(** * The mock backend: what its operations do

    The functional behaviour of the mock's handlers, stated on states a
    connection can reach and through the dispatcher.  [contents] is the
    abstract view of a lease: the bytes of its slot.  Reads return a slice of
    it, writes replace a slice of one lease and leave every other lease alone,
    allocation hands out a zeroed lease, encoding and releasing move a buffer
    through its life cycle, outputs leave in the order they were queued. *)

From S2P Require Import Prelude Wire Protocol Layout Backend Stub Mock MockInv.
From stdpp Require Import strings.

Set Default Goal Selector "!".
Open Scope Z_scope.

(** ** Requests *)

Definition client_header (op : Z) (payload : list byte) : MessageHeader :=
  {| mh_version := VTF_TRANSPORT_VERSION; mh_opcode := op; mh_flags := 0;
     mh_request_id := 0; mh_payload_len := len payload; mh_status := 0 |}.

(** The outcome of one request: the reply bytes, or the error status. *)
Definition result : Type := list byte + Z.

Definition result_of (o : option (list byte)) (h : MessageHeader) : result :=
  match o with
  | Some bs => if mh_status h =? STATUS_OK then inl bs else inr (mh_status h)
  | None => inr (mh_status h)
  end.

(** A handler step whose scrutinee is known. *)
Ltac hgo :=
  hstep; try done; try (exfalso; repeat match goal with
    | E : (_ || _) = true |- _ => apply orb_true_iff in E as [E|E]
    | E : (_ && _) = false |- _ => apply andb_false_iff in E as [E|E]
    end; zbool; done);
  repeat match goal with
  | E : Some _ = Some _ |- _ => injection E as <-
  | E : Val _ = Val _ |- _ => injection E as <-
  end.

Section props.
Context `{Profile}.

(** One request with a response buffer of [L] bytes. *)
Definition exec (L : nat) (s : MockBackend) (op : Z) (payload : list byte)
    : rust (result * MockBackend) :=
  match dispatch _ (client_header op payload) payload
          (IO s (zeroed MessageHeader) (replicate L Byte.x00)) with
  | Panic => Panic
  | Val (r, s') =>
      Val (result_of ((fun n => take (Z.to_nat n) (io_buf s')) <$> r) (io_header s'), io_self s')
  end.

Lemma mock_arms_NoDup pl : NoDup (mock_arms pl).*1.
Proof. apply (bool_decide_unpack _). vm_compute. exact I. Qed.

Lemma exec_spec L s op pl a (res : result) sf :
  (op, a) ∈ mock_arms pl ->
  hwp False a no_next (fun o s' h' => result_of o h' = res /\ s' = sf)
    s (zeroed MessageHeader) L ->
  exec L s op pl = Val (res, sf).
Proof.
  intros Hin Hw. unfold exec.
  assert (forall st, dispatch _ (client_header op pl) pl (IO s (zeroed MessageHeader) st)
             = run a (IO s (zeroed MessageHeader) st)) as Hd.
  { intros st. cbn [dispatch mock_backend]. unfold run. f_equal.
    unfold mock_dispatch. cbn -[match_opcode mock_arms zeroed].
    unfold match_opcode. rewrite (match_op_hit op a); [done|apply mock_arms_NoDup|done]. }
  rewrite Hd. destruct (hwp_run _ _ _ _ _ _ _ Hw) as [[_ []]|(o & b' & h' & [Hres ->] & _ & Hrun)].
  rewrite Hrun by apply length_replicate. subst res. do 2 f_equal.
  destruct o as [bs|]; simpl; [|done]. by rewrite Nat2Z.id, take_write_at_0.
Qed.

(** ** Leases and their contents *)

Definition live (s : MockBackend) : Prop := mock_ok s /\ mock_links s.

Definition contents (s : MockBackend) (b : MockBuffer) : list byte :=
  default [] (i ← find_pool_idx s (mb_pool_id b);
              p ← be_pools s !! i;
              slot_bytes p (mb_slot_index b)).

Lemma find_buffer_live s b :
  live s -> b ∈ be_buffers s ->
  exists bi, find_buffer_idx s (mb_id b) = Some bi /\ be_buffers s !! bi = Some b.
Proof.
  intros [_ Hln] (i & Hi)%list_elem_of_lookup. exists i. split; [|done].
  apply (position_unique mb_id Z.eqb _ _ b); [apply Z.eqb_eq|apply Hln|done].
Qed.

Lemma contents_slot s b :
  live s -> b ∈ be_buffers s ->
  exists pi p, find_pool_idx s (mb_pool_id b) = Some pi /\ be_pools s !! pi = Some p /\
    pool_ok p /\ mp_id p = mb_pool_id b /\ mp_slot_region_size p = mb_total_size b /\
    slot_bytes_range p (mb_slot_index b) =
      Some (Z.to_nat (mb_slot_index b * mb_total_size b), Z.to_nat (mb_total_size b)) /\
    slot_bytes p (mb_slot_index b) = Some (contents s b) /\ len (contents s b) = mb_total_size b.
Proof.
  intros [Hok Hln] Hb. destruct (find_pool_leased s b Hln Hb) as (pi & p & Hf & Hp & Hl).
  pose proof (Forall_at _ _ _ _ (ok_pools _ Hok) Hp) as Hpok.
  destruct Hl as (Hid & Hlt & Et & Hpos). pose proof Hpok as (_ & _ & _ & Hcnt & _).
  pose proof (ok_buffers _ Hok) as Hbs. rewrite list.Forall_forall in Hbs.
  destruct (Hbs b Hb) as (_ & _ & Hslot & _). unfold u32_range in Hslot.
  pose proof (slot_bytes_range_total p (mb_slot_index b) Hpok ltac:(lia) Hpos) as Hr.
  assert (slot_bytes p (mb_slot_index b) = Some (contents s b)) as Hsb.
  { unfold contents. rewrite Hf. simpl. rewrite Hp. simpl. unfold slot_bytes. by rewrite Hr. }
  exists pi, p. rewrite Et. split_and!; try done. by apply (slot_bytes_Some _ _ _ Hpok Hsb).
Qed.

(** Requests about a lease. *)
Definition read_req (b : MockBuffer) (off n : Z) : list byte :=
  bytes_of (mk_ReadBufferPayload (mb_id b) (mb_generation b) off n).
Definition write_req (b : MockBuffer) (off : Z) (data : list byte) : list byte :=
  bytes_of (mk_WriteBufferPayload (mb_id b) (mb_generation b) off (len data)) ++ data.
Definition read_reply (b : MockBuffer) (off n : Z) : list byte :=
  bytes_of (mk_ReadBufferReply (mb_id b) (mb_generation b) off n).

Lemma buffer_live_ok s b : live s -> b ∈ be_buffers s -> buffer_ok b.
Proof.
  intros [Hok _]. pose proof (ok_buffers _ Hok) as Hbs. rewrite list.Forall_forall in Hbs. auto.
Qed.

Lemma total_size_range s b : live s -> b ∈ be_buffers s -> 0 < mb_total_size b < 2 ^ 32.
Proof.
  intros [Hok Hln] Hb. destruct (find_pool_leased s b Hln Hb) as (pi & p & _ & Hp & _ & _ & -> & ?).
  pose proof (Forall_at _ _ _ _ (ok_pools _ Hok) Hp) as (_ & _ & _ & _ & Hs & _).
  unfold u32_range in Hs. lia.
Qed.

Lemma lease_request_ok s b off n :
  live s -> b ∈ be_buffers s -> 0 <= off -> 0 <= n -> off + n <= mb_total_size b ->
  pod_ok (mk_ReadBufferPayload (mb_id b) (mb_generation b) off n) = true /\
  pod_ok (mk_WriteBufferPayload (mb_id b) (mb_generation b) off n) = true /\
  pod_ok (mk_ReadBufferReply (mb_id b) (mb_generation b) off n) = true.
Proof.
  intros Hl Hb Ho Hn Ht. destruct (buffer_live_ok s b Hl Hb) as (Hid & Hg & _).
  pose proof (total_size_range s b Hl Hb). unfold u64_range in *.
  split_and!; pod_ok_split;
    first [apply (uint_ok_spec 8); assumption|apply (uint_ok_spec 4); cbn; lia].
Qed.

Lemma read_spec s b off n L :
  live s -> b ∈ be_buffers s -> mb_state b <> BUFFER_STATE_RECYCLED ->
  0 <= off -> 0 <= n -> off + n <= mb_total_size b ->
  (size_of ReadBufferReply + Z.to_nat n <= L)%nat ->
  exec L s OP_READ_BUFFER (read_req b off n) =
    Val (inl (read_reply b off n ++ slice (Z.to_nat off) (Z.to_nat n) (contents s b)), s).
Proof.
  intros Hl Hb Hst Ho Hn Ht HL. apply (exec_spec _ _ _ _ (mock_read_buffer (read_req b off n)));
    [unfold mock_arms; set_solver|].
  destruct (lease_request_ok s b off n Hl Hb Ho Hn Ht) as (Hrq & _ & Hrep).
  destruct (find_buffer_live s b Hl Hb) as (bi & Hbi & Hb').
  destruct (contents_slot s b Hl Hb) as (pi & p & Hpi & Hp & Hpok & _ & _ & _ & Hsb & Hlen).
  unfold mock_read_buffer, read_req.
  rewrite <- (app_nil_r (bytes_of _)), read_pod_bytes_of by done.
  hgo. hgo. cbn [rbp_buffer_id rbp_generation rbp_offset rbp_length].
  do 3 hgo. rewrite Hbi. hgo. rewrite Hb'. do 2 hgo. rewrite Z.eqb_refl.
  do 6 hgo. rewrite Hpi. do 2 hgo. rewrite Hp. do 2 hgo. rewrite Hsb.
  do 2 hgo. unfold slice_idx. rewrite Hlen.
  rewrite (proj2 (Z.leb_le _ _)) by lia. do 2 hgo.
  assert (length (slice (Z.to_nat off) (Z.to_nat n) (contents s b)) = Z.to_nat n) as Hsl
    by (apply length_slice; lia).
  apply hwp_write_pod_and_bytes; [done|lia|done].
Qed.

(** Replacing the bytes of a pool's slot. *)
Definition with_pool (s : MockBackend) (pi : nat) (p : MockPool) : MockBackend :=
  set_pools (update pi (fun _ => p) (be_pools s)) s.

Lemma find_pool_with_pool s pi p p' pid :
  be_pools s !! pi = Some p -> mp_id p' = mp_id p ->
  find_pool_idx (with_pool s pi p') pid = find_pool_idx s pid.
Proof.
  intros Hp Hid. unfold find_pool_idx, with_pool. simpl.
  rewrite !(position_fmap mp_id (fun k => k =? pid)). f_equal.
  apply fmap_update_same. intros x Hx. congruence.
Qed.

Lemma slot_disjoint i j t : 0 <= i -> 0 <= j -> 0 < t -> i <> j ->
  (Z.to_nat (i * t) + Z.to_nat t <= Z.to_nat (j * t) \/
   Z.to_nat (j * t) + Z.to_nat t <= Z.to_nat (i * t))%nat.
Proof. intros. assert (i < j \/ j < i) as [?|?] by lia; [left|right]; nia. Qed.

Lemma store_contents s b pi p f p' :
  live s -> b ∈ be_buffers s -> find_pool_idx s (mb_pool_id b) = Some pi ->
  be_pools s !! pi = Some p -> len (f (contents s b)) = mb_total_size b ->
  slot_store p (mb_slot_index b) f = Some p' ->
  live (with_pool s pi p') /\ contents (with_pool s pi p') b = f (contents s b) /\
  forall b2, b2 ∈ be_buffers s -> slot_key b2 <> slot_key b ->
    contents (with_pool s pi p') b2 = contents s b2.
Proof.
  intros Hl Hb Hpi Hp Hlen Hst.
  destruct (contents_slot s b Hl Hb)
    as (pi2 & p2 & Hpi2 & Hp2 & Hpok & Hid & Et & Hr & Hsb & Hcl).
  assert (pi2 = pi) as -> by congruence. assert (p2 = p) as -> by congruence. clear Hpi2 Hp2.
  unfold slot_store in Hst. rewrite Hr in Hst. simpl in Hst. injection Hst as <-.
  assert (contents s b = slice (Z.to_nat (mb_slot_index b * mb_total_size b))
            (Z.to_nat (mb_total_size b)) (mp_backing p)) as Ec.
  { unfold slot_bytes in Hsb. rewrite Hr in Hsb. simpl in Hsb. congruence. }
  rewrite <- Ec. set (bs := f (contents s b)) in *.
  set (off := Z.to_nat (mb_slot_index b * mb_total_size b)) in *.
  set (p' := pool_with_backing (write_at off bs (mp_backing p)) p).
  destruct (slot_bytes_range_Some p (mb_slot_index b) off (Z.to_nat (mb_total_size b)))
    as (Eoff & En & Hbound); [apply Hpok|done|].
  assert (pool_ok p' /\ pool_grows p p') as [Hpok' Hgr].
  { split; [|done]. destruct Hpok as (? & ? & ? & ? & ? & ? & ?). unfold pool_ok. simpl.
    rewrite length_write_at by lia. done. }
  assert (live (with_pool s pi p')) as Hl'.
  { destruct Hl. split; [by eapply update_pool_ok|by eapply update_pool_links]. }
  assert (forall j, slot_bytes_range p' j = slot_bytes_range p j) as Er.
  { intros j. unfold slot_bytes_range. simpl. by rewrite length_write_at by lia. }
  split_and!; [done| |].
  - unfold contents. rewrite (find_pool_with_pool _ _ p), Hpi by done. simpl.
    rewrite (update_lookup _ _ _ p) by done. simpl. unfold slot_bytes. rewrite Er, Hr. simpl.
    replace (Z.to_nat (mb_total_size b)) with (length bs) by lia.
    apply slice_write_at. lia.
  - intros b2 Hb2 Hne.
    destruct (contents_slot s b2 Hl Hb2) as (pj & q & Hpj & Hq & Hqok & Hqid & Eqt & Hqr & Hqs & _).
    unfold contents at 1. rewrite (find_pool_with_pool _ _ p), Hpj by done. simpl.
    destruct (decide (pi = pj)) as [<-|Hpne].
    + rewrite (update_lookup _ _ _ p) by done. simpl. unfold slot_bytes.
      assert (q = p) as -> by congruence. rewrite Er, Hqr. simpl. unfold slot_bytes in Hqs. rewrite Hqr in Hqs. simpl in Hqs.
      injection Hqs as <-. pose proof (total_size_range s b Hl Hb).
      destruct (buffer_live_ok s b Hl Hb) as (_ & _ & Hs1 & _).
      destruct (buffer_live_ok s b2 Hl Hb2) as (_ & _ & Hs2 & _).
      assert (mb_total_size b2 = mb_total_size b) as E2 by congruence. rewrite E2.
      apply slice_write_at_disjoint; [lia|].
      assert (mb_slot_index b2 <> mb_slot_index b) as Hsne.
      { intros E. apply Hne. unfold slot_key. congruence. }
      destruct (slot_disjoint (mb_slot_index b2) (mb_slot_index b) (mb_total_size b));
        [apply Hs2|apply Hs1|lia|done|left|right]; lia.
    + rewrite update_lookup_ne by done. rewrite Hq. simpl. by rewrite Hqs.
Qed.

(** The slot of a live lease can be stored. *)
Lemma lease_store s b pi p f :
  live s -> b ∈ be_buffers s -> find_pool_idx s (mb_pool_id b) = Some pi ->
  be_pools s !! pi = Some p -> exists p', slot_store p (mb_slot_index b) f = Some p'.
Proof.
  intros Hl Hb Hpi Hp. destruct (contents_slot s b Hl Hb) as (? & ? & ? & ? & _ & _ & _ & Hr & _).
  simplify_eq. unfold slot_store. rewrite Hr. simpl. eauto.
Qed.

(** WRITE_BUFFER on a writable lease. *)
Lemma write_spec s b off data L :
  live s -> b ∈ be_buffers s -> mb_state b = BUFFER_STATE_GUEST_WRITABLE ->
  0 <= off -> off + len data <= mb_total_size b ->
  exists s', exec L s OP_WRITE_BUFFER (write_req b off data) = Val (inl [], s') /\
    live s' /\ be_buffers s' = be_buffers s /\ be_outputs s' = be_outputs s /\
    contents s' b = write_at (Z.to_nat off) data (contents s b) /\
    forall b2, b2 ∈ be_buffers s -> slot_key b2 <> slot_key b -> contents s' b2 = contents s b2.
Proof.
  intros Hl Hb Hst Ho Ht.
  destruct (lease_request_ok s b off (len data) Hl Hb Ho ltac:(lia) Ht) as (_ & Hrq & _).
  destruct (find_buffer_live s b Hl Hb) as (bi & Hbi & Hb').
  destruct (contents_slot s b Hl Hb) as (pi & p & Hpi & Hp & Hpok & _ & _ & _ & Hsb & Hlen).
  set (bytes' := write_at (Z.to_nat off) data (contents s b)).
  assert (len bytes' = mb_total_size b) as Hl' by (subst bytes'; rewrite length_write_at; lia).
  destruct (lease_store s b pi p (fun _ => bytes') Hl Hb Hpi Hp) as (p' & Hp').
  destruct (store_contents s b pi p (fun _ => bytes') p' Hl Hb Hpi Hp Hl' Hp')
    as (Hlive & Hc & Hother).
  exists (with_pool s pi p'). split; [|by split_and!].
  pose proof (length_bytes_of _ Hrq) as Hlb.
  apply (exec_spec _ _ _ _ (mock_write_buffer (write_req b off data)));
    [unfold mock_arms; set_solver|].
  unfold mock_write_buffer. 
  assert (read_pod WriteBufferPayload (write_req b off data) = Some
            (mk_WriteBufferPayload (mb_id b) (mb_generation b) off (len data))) as ->
    by (by apply read_pod_bytes_of).
  assert (drop (size_of WriteBufferPayload) (write_req b off data) = data) as Edrop
    by (unfold write_req; by rewrite drop_app_length').
  assert (len (write_req b off data) = Z.of_nat (size_of WriteBufferPayload) + len data) as Ereq
    by (unfold write_req; rewrite length_app, Hlb; lia).
  hgo. hgo. cbn [wbp_buffer_id wbp_generation wbp_offset wbp_length].
  do 3 hgo. rewrite Hbi. hgo. rewrite Hb'. do 2 hgo. rewrite Z.eqb_refl.
  do 2 hgo. rewrite Hst. do 4 hgo. rewrite Hpi. do 2 hgo. rewrite Hp. do 2 hgo. rewrite Hsb.
  do 2 hgo. rewrite Edrop. unfold copy_from_slice. rewrite Hlen, Z.eqb_refl.
  rewrite (proj2 (Z.leb_le _ _)) by lia. cbn [andb]. do 2 hgo. fold bytes'. rewrite Hp'.
  by repeat hgo.
Qed.

(** What a completed request says of the handler's outcome. *)
Lemma exec_inv P L s op pl a R res sf :
  (op, a) ∈ mock_arms pl ->
  hwp P a no_next R s (zeroed MessageHeader) L -> exec L s op pl = Val (res, sf) ->
  exists o h', R o sf h' /\ result_of o h' = res.
Proof.
  intros Hin Hw. unfold exec.
  assert (forall st, dispatch _ (client_header op pl) pl (IO s (zeroed MessageHeader) st)
             = run a (IO s (zeroed MessageHeader) st)) as ->.
  { intros st. cbn [dispatch mock_backend]. unfold run. f_equal.
    unfold mock_dispatch. cbn -[match_opcode mock_arms zeroed].
    unfold match_opcode. rewrite (match_op_hit op a); [done|apply mock_arms_NoDup|done]. }
  destruct (hwp_run _ _ _ _ _ _ _ Hw) as [[Hp _]|(o & b' & h' & HR & _ & Hrun)].
  - by rewrite Hp by apply length_replicate.
  - rewrite Hrun by apply length_replicate. intros E. exists o, h'.
    destruct o as [bs|]; simpl in *; simplify_eq; [|done].
    by rewrite Nat2Z.id, take_write_at_0.
Qed.

(** ** Properties *)

(** C29: the invariant of every reachable state (up to 2^63 requests on one
    connection, in either build profile): the tables are linked (unique
    identifiers, every lease is a distinct in-bounds slot of a live pool, pools
    and outputs belong to live sessions, a buffer whose output is held is not
    guest-writable) and the output queue respects both its quotas, the
    byte counter being exactly the bytes queued. *)
Theorem reachable_invariant env n s :
  mock_reach env n s -> Z.of_nat n < 2 ^ 63 ->
  mock_links s /\ Forall pool_ok (be_pools s) /\
  len (be_outputs s) <= be_max_output_count s <= MAX_OUTPUTS /\
  be_output_bytes_total s = sum_Z output_size (be_outputs s) /\
  be_output_bytes_total s <= be_max_output_bytes s.
Proof.
  intros Hr Hn. destruct (reach_inv _ _ _ Hr Hn) as (Hok & Hln & _). destruct Hok. done.
Qed.

(** On a reachable state no request other than CREATE_BUFFER_POOL panics
    the connection thread, whatever its payload and the response buffer. *)
Theorem dispatch_no_panic env n s rq pl h buf :
  mock_reach env n s -> Z.of_nat n < 2 ^ 63 -> mh_opcode rq <> OP_CREATE_BUFFER_POOL ->
  exists r s', dispatch _ rq pl (IO s h buf) = Val (r, s') /\
    length (io_buf s') = length buf.
Proof.
  intros Hr Hn Hop. destruct (reach_inv _ _ _ Hr Hn) as (Hok & Hln & Hc).
  destruct (hwp_run _ _ _ _ _ _ _ (mock_dispatch_hwp rq pl s h (length buf) Hok))
    as [[_ Hp]|(o & b' & h' & _ & Hl & Hrun)].
  - by destruct (Hop (Hp Hln Hc)).
  - exists (reply_len o), (IO b' h' (write_reply o buf)). split; [by apply Hrun|].
    destruct o as [bs|]; simpl; [|done]. apply length_write_at. by apply Hl.
Qed.

(** Write/read round trip with isolation: on a reachable state, writing
    [data] to a guest-writable lease succeeds, reading the same range back
    returns exactly [data], and reading any other lease, or a range of the same
    lease disjoint from the written one, returns what it returned before. *)
Theorem write_read_roundtrip env n s b off data L :
  mock_reach env n s -> Z.of_nat n < 2 ^ 63 ->
  b ∈ be_buffers s -> mb_state b = BUFFER_STATE_GUEST_WRITABLE ->
  0 <= off -> off + len data <= mb_total_size b ->
  (size_of ReadBufferReply + length data <= L)%nat ->
  exists s', exec L s OP_WRITE_BUFFER (write_req b off data) = Val (inl [], s') /\
    exec L s' OP_READ_BUFFER (read_req b off (len data))
      = Val (inl (read_reply b off (len data) ++ data), s') /\
    forall b2 off2 n2, b2 ∈ be_buffers s -> mb_state b2 <> BUFFER_STATE_RECYCLED ->
      0 <= off2 -> 0 <= n2 -> off2 + n2 <= mb_total_size b2 ->
      (size_of ReadBufferReply + Z.to_nat n2 <= L)%nat ->
      b2 <> b \/ off2 + n2 <= off \/ off + len data <= off2 ->
      exists res, exec L s OP_READ_BUFFER (read_req b2 off2 n2) = Val (res, s) /\
                  exec L s' OP_READ_BUFFER (read_req b2 off2 n2) = Val (res, s').
Proof.
  intros Hr Hn Hb Hst Ho Ht HL. destruct (reach_inv _ _ _ Hr Hn) as (Hok & Hln & _).
  assert (live s) as Hl by done.
  destruct (write_spec s b off data L Hl Hb Hst Ho Ht)
    as (s' & Hw & Hl' & Ebuf & _ & Hc & Hoth).
  exists s'. split; [done|].
  destruct (contents_slot s b Hl Hb) as (_ & _ & _ & _ & _ & _ & _ & _ & _ & Hlen).
  split.
  - rewrite read_spec; try done; try lia.
    + rewrite Hc, Nat2Z.id, slice_write_at by lia. done.
    + by rewrite Ebuf.
    + rewrite Hst. done.
  - intros b2 off2 n2 Hb2 Hst2 Ho2 Hn2 Ht2 HL2 Hdisj.
    rewrite (read_spec s), (read_spec s') by (try done; by rewrite ?Ebuf).
    eexists. split; [done|]. do 4 f_equal.
    destruct (decide (slot_key b2 = slot_key b)) as [E|E]; [|by rewrite Hoth].
    assert (b2 = b) as ->.
    { apply list_elem_of_lookup in Hb as (i & Hi), Hb2 as (j & Hj).
      assert (i = j) as ->; [|congruence].
      eapply (NoDup_lookup (slot_key <$> be_buffers s)); [apply Hln|..];
        rewrite list_lookup_fmap; rewrite ?Hi, ?Hj; simpl; by rewrite ?E. }
    rewrite Hc, slice_write_at_disjoint; [done|lia|]. destruct Hdisj as [?|[?|?]]; [done|left|right]; lia.
Qed.

(** A stale handle is rejected: once a buffer has been handed out again its
    generation has moved, and READ, WRITE and RECYCLE requests that still carry
    another generation are answered STALE_GENERATION and change nothing. *)
Theorem stale_generation_rejected env n s b g off m data L :
  mock_reach env n s -> Z.of_nat n < 2 ^ 63 -> b ∈ be_buffers s ->
  0 <= g < 2 ^ 64 -> g <> mb_generation b -> 0 <= off < 2 ^ 32 -> 0 <= m < 2 ^ 32 ->
  len data < 2 ^ 32 ->
  let stale := buffer_with_generation g b in
  exec L s OP_READ_BUFFER (read_req stale off m) = Val (inr STATUS_STALE_GENERATION, s) /\
  exec L s OP_WRITE_BUFFER (write_req stale off data) = Val (inr STATUS_STALE_GENERATION, s) /\
  exec L s OP_RECYCLE_BUFFER (bytes_of (mk_RecycleBufferPayload (mb_pool_id b) (mb_id b) g))
    = Val (inr STATUS_STALE_GENERATION, s).
Proof.
  intros Hr Hn Hb Hg Hne Ho Hm Hd stale. destruct (reach_inv _ _ _ Hr Hn) as (Hok & Hln & _).
  assert (live s) as Hl by done. destruct (buffer_live_ok s b Hl Hb) as (Hid & _).
  destruct (find_buffer_live s b Hl Hb) as (bi & Hbi & Hb').
  destruct (contents_slot s b Hl Hb) as (pi & p & Hpi & Hp & [Hpid _] & Epid & _).
  assert ((mb_generation b =? g) = false) as Eg by (apply Z.eqb_neq; done).
  assert (pod_ok (mk_ReadBufferPayload (mb_id b) g off m) = true /\
          pod_ok (mk_WriteBufferPayload (mb_id b) g off (len data)) = true /\
          pod_ok (mk_RecycleBufferPayload (mb_pool_id b) (mb_id b) g) = true) as (P1 & P2 & P3).
  { rewrite <- Epid. unfold u64_range in *.
    split_and!; pod_ok_split;
      first [apply (uint_ok_spec 8); assumption|apply (uint_ok_spec 4); cbn; lia]. }
  split_and!.
  - apply (exec_spec _ _ _ _ (mock_read_buffer (read_req stale off m)));
      [unfold mock_arms; set_solver|].
    unfold mock_read_buffer, read_req. rewrite <- (app_nil_r (bytes_of _)).
    cbn [mb_id mb_generation stale buffer_with_generation].
    rewrite read_pod_bytes_of by done.
    do 5 hgo. cbn [rbp_buffer_id rbp_generation]. rewrite Hbi. hgo. rewrite Hb'. do 2 hgo.
    rewrite Eg. by do 2 hgo.
  - apply (exec_spec _ _ _ _ (mock_write_buffer (write_req stale off data)));
      [unfold mock_arms; set_solver|].
    unfold mock_write_buffer, write_req. 
    cbn [mb_id mb_generation stale buffer_with_generation].
    rewrite read_pod_bytes_of by done.
    do 5 hgo. cbn [wbp_buffer_id wbp_generation]. rewrite Hbi. hgo. rewrite Hb'. do 2 hgo.
    rewrite Eg. by do 2 hgo.
  - set (req := mk_RecycleBufferPayload _ _ _) in *.
    apply (exec_spec _ _ _ _ (mock_recycle_buffer (bytes_of req))); [unfold mock_arms; set_solver|].
    unfold mock_recycle_buffer. rewrite <- (app_nil_r (bytes_of _)).
    rewrite read_pod_bytes_of by done.
    do 5 hgo. cbn [rcp_pool_id rcp_buffer_id rcp_generation]. subst req. cbn [rcp_pool_id rcp_buffer_id rcp_generation].
    rewrite Hpi. do 2 hgo. rewrite Hbi. do 2 hgo. rewrite Hb'. do 2 hgo. rewrite Hp. hgo. rewrite Epid, Z.eqb_refl. do 3 hgo.
    rewrite Eg. by do 2 hgo.
Qed.

(** Outputs of a session that were not handed out yet, oldest first. *)
Definition pending (s : MockBackend) (sid : Z) : list MockOutput :=
  retain (fun o => (output_session o =? sid) && negb (mo_dequeued o)) (be_outputs s).

Lemma retain_update_flip {A} (f : A -> bool) (g : A -> A) i l x :
  position f l = Some i -> l !! i = Some x -> f (g x) = false ->
  retain f l = x :: retain f (update i g l).
Proof.
  unfold retain, update. revert i. induction l as [|y l IH]; intros i Hp Hi Hg; simpl in *; [done|].
  destruct (f y) eqn:Ey; simplify_eq/=.
  - by rewrite Hg.
  - apply fmap_Some in Hp as (j & Hj & ->). simpl in *. rewrite Ey. by apply (IH j).
Qed.

Lemma retain_update_other {A} (f : A -> bool) (g : A -> A) i l :
  (forall x, l !! i = Some x -> f x = false /\ f (g x) = false) ->
  retain f (update i g l) = retain f l.
Proof.
  unfold retain, update. revert i. induction l as [|y l IH]; intros [|i] Hx; simpl in *; try done.
  - destruct (Hx y eq_refl) as [-> ->]. done.
  - specialize (IH i Hx). change (list_alter g i l) with (alter g i l). by rewrite IH.
Qed.

(** The batch loop takes the oldest pending outputs of its session and no other. *)
Lemma dequeue_up_to_spec n sid s :
  (dequeue_up_to n sid s).1 = mo_reply <$> take n (pending s sid) /\
  pending (dequeue_up_to n sid s).2 sid = drop n (pending s sid) /\
  forall sid', sid' <> sid -> pending (dequeue_up_to n sid s).2 sid' = pending s sid'.
Proof.
  revert s. induction n as [|n IH]; intros s; simpl; [done|].
  destruct (dequeue_output_idx s sid) as [[idx s1]|] eqn:Ed.
  - pose proof Ed as Ed'. apply dequeue_output_idx_spec in Ed as (Es1 & o & Ho & Ho' & Hsid & Hdq & _).
    rewrite Ho'. destruct (IH s1) as (IH1 & IH2 & IH3).
    destruct (dequeue_up_to n sid s1) as [rest s2]. simpl in *.
    assert (pending s sid = o :: pending s1 sid) as Ep.
    { unfold dequeue_output_idx in Ed'.
      destruct (position _ (be_outputs s)) as [i|] eqn:Epos; [|done]. simpl in Ed'. simplify_eq.
      unfold pending. simpl. apply retain_update_flip; [done|done|]. simpl. by rewrite andb_false_r. }
    rewrite Ep. split_and!; [simpl; by rewrite IH1|by rewrite IH2|].
    intros sid' Hne. rewrite IH3 by done. subst s1. unfold pending. simpl.
    apply retain_update_other. intros x Hx. assert (x = o) as -> by congruence.
    assert ((output_session o =? sid') = false) as E by (apply Z.eqb_neq; congruence).
    unfold output_session in *. simpl. by rewrite E.
  - assert (pending s sid = []) as E.
    { unfold dequeue_output_idx in Ed.
      destruct (position _ (be_outputs s)) as [i|] eqn:Epos; [done|].
      unfold pending. destruct (retain _ (be_outputs s)) as [|x l] eqn:Er; [done|].
      assert (x ∈ retain (fun o => (output_session o =? sid) && negb (mo_dequeued o)) (be_outputs s))
        as [Hx Hf]%elem_of_retain by (rewrite Er; set_solver).
      rewrite position_None in Epos. rewrite Epos in Hf; done. }
    cbn [fst snd]. rewrite E. done.
Qed.

Definition batch_reply (sid : Z) (outs : list DequeueOutputReply) : DequeueOutputBatchReply :=
  {| dbr_session_id := sid;
     dbr_output_count := len outs;
     dbr_reserved := 0;
     dbr_outputs :=
       outs ++ replicate (Z.to_nat VTF_TRANSPORT_MAX_OUTPUT_BATCH - length outs)
                 (zeroed DequeueOutputReply) |}.

(** Outputs leave in the order they were queued: a batch dequeue returns
    the oldest pending outputs of its session, as many as were asked for
    (between 1 and the protocol's 24), marks exactly those, answers TIMEOUT
    when there is none, and leaves the other sessions' queues alone. *)
Theorem dequeue_batch_fifo s sid want L :
  mock_ok s -> 0 <= sid < 2 ^ 64 -> 0 <= want < 2 ^ 32 ->
  (size_of DequeueOutputBatchReply <= L)%nat ->
  let m := Z.to_nat (Z.max (Z.min want VTF_TRANSPORT_MAX_OUTPUT_BATCH) 1) in
  exists s', exec L s OP_DEQUEUE_OUTPUT_BATCH
               (bytes_of (mk_DequeueOutputBatchPayload sid want 0)) =
      Val (match pending s sid with
           | [] => inr STATUS_TIMEOUT
           | _ => inl (bytes_of (batch_reply sid (mo_reply <$> take m (pending s sid))))
           end, s') /\
    pending s' sid = drop m (pending s sid) /\
    forall sid', sid' <> sid -> pending s' sid' = pending s sid'.
Proof.
  intros Hok Hsid Hwant HL m. set (req := mk_DequeueOutputBatchPayload sid want 0).
  assert (pod_ok req = true) as Hrq
    by (pod_ok_split; [by apply (uint_ok_spec 8)|by apply (uint_ok_spec 4)|reflexivity]).
  destruct (dequeue_up_to_spec m sid s) as (Eo & Ep & Ep').
  destruct (dequeue_up_to m sid s) as [outs s'] eqn:Ed. cbn [fst snd] in *.
  exists s'. split_and!; [|done|done].
  apply (exec_spec _ _ _ _ (mock_dequeue_output_batch (bytes_of req))); [unfold mock_arms; set_solver|].
  destruct (dequeue_up_to_ok _ _ _ _ _ Hok Ed) as (_ & Hlen & Hall & _ & _).
  assert (length outs <= 24)%nat as Hlen24
    by (subst m; unfold VTF_TRANSPORT_MAX_OUTPUT_BATCH in *; lia).
  unfold mock_dequeue_output_batch. rewrite <- (app_nil_r (bytes_of _)).
  rewrite read_pod_bytes_of by done. do 4 hgo. subst req.
  cbn [dbp_max_outputs dbp_session_id]. fold m. rewrite Ed. do 3 hgo.
  assert (1 <= m)%nat by (subst m; unfold VTF_TRANSPORT_MAX_OUTPUT_BATCH; lia).
  hstep; zbool.
  - assert (outs <> []) as Hne by (intros ->; done).
    rewrite <- Eo. destruct (pending s sid) as [|x l].
    { rewrite take_nil in Eo. by subst. }
    apply hwp_write_pod; [|cbn [Datatypes.length]; lia|done].
    pod_ok_split; [by apply (uint_ok_spec 8)| |reflexivity|].
    + apply (uint_ok_spec 4). cbn. lia.
    + apply arr_ok_spec. rewrite length_app, length_replicate. split; [unfold VTF_TRANSPORT_MAX_OUTPUT_BATCH; lia|].
      apply Forall_app. split; [done|]. apply Forall_replicate, zeroed_ok.
  - destruct outs; [|done]. destruct (pending s sid) as [|x l]; [done|].
    destruct m; [lia|done].
Qed.

(** Destroying a session removes it with its pools, the leases of those
    pools and its outputs, and touches no other session, pool, lease or
    output. *)
Theorem destroy_session_complete env n s sid L :
  mock_reach env n s -> Z.of_nat n < 2 ^ 63 -> sid ∈ ms_id <$> be_sessions s ->
  exists s', exec L s OP_DESTROY_SESSION (bytes_of (mk_DestroySessionPayload sid)) = Val (inl [], s') /\
    be_sessions s' = retain (fun x => negb (ms_id x =? sid)) (be_sessions s) /\
    be_pools s' = retain (fun p => negb (mp_session_id p =? sid)) (be_pools s) /\
    be_outputs s' = retain (fun o => negb (output_session o =? sid)) (be_outputs s) /\
    forall b, b ∈ be_buffers s' <->
      b ∈ be_buffers s /\ exists p, p ∈ be_pools s' /\ mp_id p = mb_pool_id b.
Proof.
  intros Hr Hn Hsid. destruct (reach_inv _ _ _ Hr Hn) as (Hok & Hln & _).
  apply list_elem_of_fmap in Hsid as (x & -> & Hx).
  pose proof (ok_sessions _ Hok) as Hss. rewrite list.Forall_forall in Hss.
  destruct (Hss x Hx) as [Hxid _].
  assert (pod_ok (mk_DestroySessionPayload (ms_id x)) = true) as Hrq
    by (by apply (uint_ok_spec 8)).
  assert (exists i, find_session_idx s (ms_id x) = Some i) as (i & Hi).
  { apply list_elem_of_lookup in Hx as (i & Hi). exists i.
    apply (position_unique ms_id Z.eqb _ _ x); [apply Z.eqb_eq|apply Hln|done]. }
  exists (destroy_state s (ms_id x)). split.
  { set (req := mk_DestroySessionPayload (ms_id x)) in *.
    apply (exec_spec _ _ _ _ (mock_destroy_session (bytes_of req))); [unfold mock_arms; set_solver|].
    unfold mock_destroy_session. rewrite <- (app_nil_r (bytes_of _)).
    rewrite read_pod_bytes_of by done. do 5 hgo. cbn [dsp_session_id req]. rewrite Hi.
    by repeat hgo. }
  pose proof (destroy_links s (ms_id x) Hln) as Hln'.
  unfold destroy_state in *. set (s1 := remove_outputs_for_session s (ms_id x)) in *.
  unfold remove_pools_for_session in *. rewrite fold_remove_buffers in *.
  split_and!; [done..|]. intros b. split.
  - intros Hb. split; [by apply elem_of_retain in Hb as [? _]|].
    pose proof (ln_leased _ Hln') as Hls. rewrite list.Forall_forall in Hls.
    destruct (proj1 (list.Exists_exists _ _) (Hls b Hb)) as (p & Hp & Hl & _). eauto.
  - intros (Hb & p & [Hp Hps]%elem_of_retain & Hid). apply elem_of_retain. split; [done|].
    apply negb_true_iff, not_true_iff_false. intros (k & Hk & E)%existsb_exists.
    apply in_map_iff in Hk as (q & <- & Hq). apply list_elem_of_In, elem_of_retain in Hq as [Hq Hqs].
    apply Z.eqb_eq in E, Hqs. apply negb_true_iff, Z.eqb_neq in Hps. apply Hps.
    assert (p = q) as ->; [|done].
    change (be_pools s1) with (be_pools s) in *.
    apply list_elem_of_lookup in Hp as (i1 & Hi1), Hq as (i2 & Hi2).
    assert (i1 = i2) as ->; [|congruence].
    eapply (NoDup_lookup (mp_id <$> be_pools s)); [apply Hln|..];
      rewrite list_lookup_fmap; [by rewrite Hi1|rewrite Hi2; simpl; congruence].
Qed.

(** ** Allocation *)

(** [b] is what ALLOC_BUFFER handed out between [s] and [s']. *)
Record allocated (s s' : MockBackend) (pid : Z) (b : MockBuffer) : Prop := {
  al_live : live s';
  al_in : b ∈ be_buffers s';
  al_pool : mb_pool_id b = pid;
  al_writable : mb_state b = BUFFER_STATE_GUEST_WRITABLE;
  al_zeroed : contents s' b = replicate (Z.to_nat (mb_total_size b)) Byte.x00;
  al_fresh : forall b0, b0 ∈ be_buffers s ->
    (mb_id b0, mb_generation b0) <> (mb_id b, mb_generation b);
  al_others : forall b2, b2 ∈ be_buffers s -> mb_id b2 <> mb_id b ->
    b2 ∈ be_buffers s' /\ contents s' b2 = contents s b2
}.

Definition alloc_answer (b : MockBuffer) (bs : list byte) : Prop :=
  exists r, read_pod AllocBufferReply bs = Some r /\
    abr_buffer_id r = mb_id b /\ abr_generation r = mb_generation b.

Lemma alloc_reply_answer s' h b L :
  buffer_ok b ->
  hwp True (alloc_reply b) no_next
    (fun o sf _ => sf = s' /\ forall bs, o = Some bs -> alloc_answer b bs) s' h L.
Proof.
  intros Hb. pose proof Hb as (_ & _ & _ & (_ & _ & _ & l & El & _) & _).
  unfold alloc_reply. rewrite El. do 4 hgo.
  match goal with E : arith 32 _ = Val ?off |- _ =>
    apply arith_range in E; [|lia]; pose proof (alloc_msg_ok b l off Hb El E) as Hmsg end.
  apply hwp_write_pod; [done|done|].
  intros _. split; [done|]. intros bs [= <-]. eexists.
  split; [rewrite <- (app_nil_r (bytes_of _)); by apply read_pod_bytes_of|done].
Qed.

(** A slot handed out again. *)
Lemma alloc_recycled_post s pid pi p bi L :
  live s -> counters_below s -> find_pool_idx s pid = Some pi -> be_pools s !! pi = Some p ->
  find_recyclable_buffer_idx s pid = Some bi ->
  hwp True (mock_alloc_recycled pi p bi) no_next
    (fun o s' _ => forall bs, o = Some bs ->
       exists b, allocated s s' pid b /\ alloc_answer b bs) s (zeroed MessageHeader) L.
Proof.
  intros Hl Hc Hpi Hp Hbi. pose proof (position_Some _ _ _ Hbi) as (b & Hb & Hrec & _). zbool.
  pose proof (list_elem_of_lookup_2 _ _ _ Hb) as Hin.
  unfold mock_alloc_recycled. do 3 hgo. rewrite Hb. do 3 hgo. rename a into g.
  match goal with E : arith 64 _ = Val _ |- _ => rename E into Hg end. fold (rehand g b).
  destruct (buffer_live_ok s b Hl Hin) as (_ & Hgr & _).
  destruct (counter_next _ _ Hg Hgr) as [_ Hx].
  specialize (Hx (Forall_at _ _ _ _ (proj1 (proj2 (proj2 Hc))) Hb)).
  destruct (rehand_preserved s (zeroed MessageHeader) (proj1 Hl) zeroed_ok bi b g None Hb Hg)
    as (Hok1 & _ & _ & Hln1).
  set (s1 := set_buffers (update bi (fun _ => rehand g b) (be_buffers s)) s) in *.
  assert (live s1) as Hl1 by (split; [done|apply Hln1; [apply Hl|done]]).
  assert (rehand g b ∈ be_buffers s1) as Hin1.
  { eapply list_elem_of_lookup_2. exact (update_lookup (fun _ => rehand g b) bi _ b Hb). }
  do 3 hgo. hstep; [|done]. rename a into p'.
  match goal with E : slot_store _ _ _ = Some _ |- _ => rename E into Hst end.
  do 2 hgo. change (set_pools _ _) with (with_pool s1 pi p'). subst pid.
  destruct (store_contents s1 (rehand g b) pi p fill0 p' Hl1 Hin1 Hpi Hp) as (Hl' & Hz & Hoth);
    [|done|].
  { unfold fill0. rewrite length_replicate.
    destruct (contents_slot s1 _ Hl1 Hin1) as (_ & _ & _ & _ & _ & _ & _ & _ & _ & ?). done. }
  eapply hwp_mono; [apply alloc_reply_answer; by eapply buffer_live_ok|done|].
  intros o sf h' [-> Ha] bs Hbs. exists (rehand g b). split; [|by apply Ha]. constructor; try done.
  - rewrite Hz. unfold fill0. f_equal.
    destruct (contents_slot s1 _ Hl1 Hin1) as (_ & _ & _ & _ & _ & _ & _ & _ & _ & <-). lia.
  - intros b0 Hb0 [= E1 E2]. 
    assert (b0 = b) as ->; [|lia].
    destruct (find_buffer_live s b0 Hl Hb0) as (i0 & Hf0 & Hi0).
    destruct (find_buffer_live s b Hl Hin) as (i1 & Hf1 & Hi1). rewrite E1 in Hf0. congruence.
  - intros b2 Hb2 Hne. simpl in Hne.
    assert (b2 ∈ be_buffers s1) as Hb2'.
    { apply list_elem_of_lookup in Hb2 as (j & Hj). eapply (list_elem_of_lookup_2 _ j).
      unfold s1. simpl. rewrite update_lookup_ne; [done|]. intros ->. simplify_eq. }
    split; [done|]. rewrite Hoth; [done|done|]. intros Ek.
    apply list_elem_of_lookup in Hb2' as (j & Hj). apply list_elem_of_lookup in Hin1 as (k & Hk).
    assert (j = k) as ->; [|simplify_eq].
    eapply (NoDup_lookup (slot_key <$> be_buffers s1)); [apply Hl1|..];
      rewrite list_lookup_fmap; [by rewrite Hj|rewrite Hk; simpl; congruence].
Qed.


(** A lease of the next slot of a pool, before its bytes are cleared. *)
Definition lease_state (s : MockBackend) (pi : nat) (p : MockPool) (b : MockBuffer) : MockBackend :=
  set_buffers (be_buffers s ++ [b])
    (set_next_host_id (be_next_host_id s + 1)
      (set_pools (update pi (fun _ => pool_with_count (mp_buffer_count p + 1) p) (be_pools s)) s)).

Definition new_lease (s : MockBackend) (p : MockPool) : MockBuffer :=
  mk_MockBuffer (be_next_host_id s) (mp_id p) 1 (mp_buffer_count p) (mp_width p) (mp_height p)
    (mp_pixel_format p) BUFFER_STATE_GUEST_WRITABLE (mp_slot_region_size p).

Lemma lease_state_live s pi p :
  live s -> counters_below s -> be_pools s !! pi = Some p ->
  mp_buffer_count p < mp_max_buffers p -> 0 < mp_slot_region_size p ->
  live (lease_state s pi p (new_lease s p)).
Proof.
  intros [Hok Hln] [Hc _] Hp Hlt Hpos.
  pose proof (Forall_at _ _ _ _ (ok_pools _ Hok) Hp) as Hpok.
  pose proof Hpok as (Hpid & Hgeo & Hmax & Hcnt & Hslot & _).
  set (p0 := pool_with_count (mp_buffer_count p + 1) p).
  assert (pool_ok p0 /\ pool_grows p p0) as [Hp0 Hg].
  { unfold pool_ok, pool_grows in *. simpl. split_and!; try apply Hpok; try done; lia. }
  pose proof (ok_next_host_id _ Hok) as Hn. unfold lease_state. fold p0.
  set (s1 := set_pools _ s).
  assert (mock_ok s1) as Hok1 by (by eapply update_pool_ok).
  assert (mock_links s1) as Hln1 by (by eapply update_pool_links).
  split.
  - apply (add_buffer_ok s1); [done| |unfold u64_range in *; lia].
    split_and!; simpl; try done; [unfold u32_range in *; lia|by left].
  - apply (add_buffer_links s1); [done|done| |].
    + apply list.Exists_exists. exists p0. split.
      * eapply list_elem_of_lookup_2. exact (update_lookup (fun _ => p0) pi _ p Hp).
      * unfold leased. simpl. split_and!; [done|lia|done|done].
    + by apply (slot_fresh s pi p).
Qed.

Lemma lease_state_contents s pi p b2 :
  be_pools s !! pi = Some p -> contents (lease_state s pi p (new_lease s p)) b2 = contents s b2.
Proof.
  intros Hp. unfold contents, lease_state. simpl.
  change (find_pool_idx _ (mb_pool_id b2)) with
    (find_pool_idx (with_pool s pi (pool_with_count (mp_buffer_count p + 1) p)) (mb_pool_id b2)) at 1.
  rewrite (find_pool_with_pool _ _ p) by done.
  destruct (find_pool_idx s (mb_pool_id b2)) as [j|]; [|done]. simpl.
  destruct (decide (pi = j)) as [<-|Hne].
  - rewrite (update_lookup _ _ _ p) by done. by rewrite Hp.
  - by rewrite update_lookup_ne.
Qed.

Lemma alloc_fresh_post s pid pi p L :
  live s -> counters_below s -> find_pool_idx s pid = Some pi -> be_pools s !! pi = Some p ->
  hwp True (mock_alloc_fresh pi p) no_next
    (fun o s' _ => forall bs, o = Some bs ->
       exists b, allocated s s' pid b /\ alloc_answer b bs) s (zeroed MessageHeader) L.
Proof.
  intros Hl Hc Hpi Hp. pose proof (Forall_at _ _ _ _ (ok_pools _ (proj1 Hl)) Hp) as Hpok.
  pose proof Hpok as (_ & _ & Hmax & Hcnt & Hslot & _).
  unfold mock_alloc_fresh. do 3 hgo. hstep; [|done]. zbool. hstep. hstep; [|done]. rename a into p'.
  match goal with E : slot_store _ _ _ = Some _ |- _ => rename E into Hst end.
  assert (0 < mp_slot_region_size p) as Hpos.
  { unfold slot_store, slot_bytes_range, slot_range in Hst.
    destruct (mp_slot_region_size p =? 0) eqn:E; [done|]. unfold u32_range in *. zbool. }
  do 4 hgo. rename a into next.
  match goal with E : arith 64 _ = Val _ |- _ => rename E into Hnext end.
  destruct (counter_next _ _ Hnext (ok_next_host_id _ (proj1 Hl))) as [_ Hx].
  specialize (Hx (proj1 Hc)). subst next.
  do 3 hgo. rewrite arith_in by lia. do 5 hgo.
  pose proof (lease_state_live s pi p Hl Hc Hp ltac:(done) Hpos) as Hl0.
  set (b := new_lease s p) in *. set (s0 := lease_state s pi p b) in *.
  set (p0 := pool_with_count (mp_buffer_count p + 1) p).
  assert (b ∈ be_buffers s0) as Hb0 by (unfold s0, lease_state; simpl; set_solver).
  assert (be_pools s0 !! pi = Some p0) as Hp0 by exact (update_lookup (fun _ => p0) pi _ p Hp).
  assert (find_pool_idx s0 (mb_pool_id b) = Some pi) as Hpi0.
  { transitivity (find_pool_idx (with_pool s pi p0) (mp_id p)); [done|].
    rewrite (find_pool_with_pool _ _ p) by done.
    apply (position_unique mp_id Z.eqb _ _ p); [apply Z.eqb_eq|apply Hl|done]. }
  set (p1 := pool_with_count (mp_buffer_count p + 1) p').
  assert (slot_store p0 (mb_slot_index b) fill0 = Some p1) as Hst0.
  { unfold slot_store in *. change (slot_bytes_range p0 (mb_slot_index b))
      with (slot_bytes_range p (mp_buffer_count p)).
    destruct (slot_bytes_range p (mp_buffer_count p)) as [[o n]|]; [|done]. simpl in *.
    injection Hst as <-. done. }
  destruct (store_contents s0 b pi p0 fill0 p1 Hl0 Hb0 Hpi0 Hp0) as (Hl1 & Hz & Hoth); [|done|].
  { unfold fill0. rewrite length_replicate.
    destruct (contents_slot s0 _ Hl0 Hb0) as (_ & _ & _ & _ & _ & _ & _ & _ & _ & ?). done. }
  simpl. replace (set_buffers _ _) with (with_pool s0 pi p1).
  2: { unfold with_pool, s0, lease_state, set_pools, set_buffers, set_next_host_id. simpl.
       by rewrite !update_update. }
  eapply hwp_mono; [apply alloc_reply_answer; by eapply (buffer_live_ok s0 b)|done|].
  intros o sf h' [-> Ha] bs Hbs. exists b. split; [|by apply Ha].
  assert (mb_id b ∉ mb_id <$> be_buffers s) as Hnew by apply fresh_id, Hl.
  constructor; try done.
  - simpl. match goal with E : find_pool_idx s pid = Some pi |- _ =>
      apply position_Some in E as (q & Hq & Eq & _) end. zbool. congruence.
  - rewrite Hz. unfold fill0. f_equal.
    destruct (contents_slot s0 _ Hl0 Hb0) as (_ & _ & _ & _ & _ & _ & _ & _ & _ & <-). lia.
  - intros b0 Hin [= E _]. apply Hnew. change (mb_id b0 = mb_id b) in E. rewrite <- E.
    by apply list_elem_of_fmap_2.
  - intros b2 Hb2 Hne.
    assert (b2 ∈ be_buffers s0) as Hb2' by (unfold s0, lease_state; simpl; set_solver).
    split; [done|]. rewrite Hoth; [by apply lease_state_contents|done|]. intros Ek.
    apply (slot_fresh s pi p (proj2 Hl) Hp). change (mp_id p, mp_buffer_count p) with (slot_key b).
    rewrite <- Ek. by apply list_elem_of_fmap_2.
Qed.

(** ALLOC_BUFFER hands out clean, exclusive buffers: on success the reply
    names a guest-writable lease of the pool whose bytes are all zero, whose
    (id, generation) handle no earlier lease carried, and no other lease's
    bytes changed. *)
Theorem alloc_hands_out_zeroed env n s pid L bs s' :
  mock_reach env n s -> Z.of_nat n < 2 ^ 63 -> 0 <= pid < 2 ^ 64 ->
  exec L s OP_ALLOC_BUFFER (bytes_of (mk_AllocBufferPayload pid)) = Val (inl bs, s') ->
  exists b, allocated s s' pid b /\ alloc_answer b bs.
Proof.
  intros Hr Hn Hpid He. destruct (reach_inv _ _ _ Hr Hn) as (Hok & Hln & Hc).
  assert (live s) as Hl by done.
  assert (pod_ok (mk_AllocBufferPayload pid) = true) as Hrq by (by apply (uint_ok_spec 8)).
  set (req := mk_AllocBufferPayload pid) in *.
  destruct (exec_inv True L s OP_ALLOC_BUFFER (bytes_of req) (mock_alloc_buffer (bytes_of req))
    (fun o s' _ => forall bs, o = Some bs -> exists b, allocated s s' pid b /\ alloc_answer b bs)
    (inl bs) s') as (o & h' & Hpost & Hres); [unfold mock_arms; set_solver| |done|].
  - unfold mock_alloc_buffer. rewrite <- (app_nil_r (bytes_of req)), read_pod_bytes_of by done.
    hgo. hgo. hgo. hgo. hgo. hstep; [|done]. hstep. hstep; [|done].
    cbn [abp_pool_id req] in *. destruct (find_recyclable_buffer_idx s pid) as [bi|] eqn:Hbi.
    + by apply alloc_recycled_post.
    + by apply alloc_fresh_post.
  - destruct o as [bs'|]; simpl in Hres; [|done]. case_if_in Hres; simplify_eq. by apply Hpost.
Qed.

(** ** Encoding and releasing *)

(** What a successful ENCODE_FRAME does to the tables. *)
Definition encoded (s s' : MockBackend) (hid : Z) : Prop :=
  exists bi b out, be_buffers s !! bi = Some b /\ find_buffer_idx s hid = Some bi /\
    mb_state b = BUFFER_STATE_GUEST_WRITABLE /\
    be_buffers s' = update bi (buffer_with_state BUFFER_STATE_QUEUED_TO_HOST) (be_buffers s) /\
    be_outputs s' = be_outputs s ++ [out] /\ output_id out = be_next_output_id s /\
    source_key out = (mb_id b, mb_generation b) /\
    be_output_bytes_total s' = be_output_bytes_total s + output_size out /\
    0 <= output_size out.

Lemma encode_effect s pl req L :
  mock_ok s -> read_pod EncodeFramePayload pl = Some req ->
  hwp True (mock_encode_frame pl) no_next
    (fun o s' _ => o <> None -> encoded s s' (efp_image_buffer_host_id req))
    s (zeroed MessageHeader) L.
Proof.
  intros Hok Hreq. unfold mock_encode_frame. rewrite Hreq. do 2 hgo.
  repeat (hstep; try done).
  rewrite !length_encode_payload_bytes in *.
  match goal with E : (_ || _) = false |- _ =>
    apply orb_false_elim in E as [Hq1 Hq2]; unfold saturating_sub in Hq2; zbool end.
  intros _. match goal with
  | E : find_buffer_idx s _ = Some ?bi, E' : be_buffers s !! ?bi = Some ?b |- _ => exists bi, b end.
  eexists. split_and!; try done.
  simpl. match goal with E : arith 64 (be_output_bytes_total s + _) = Val _ |- _ =>
    apply (arith_exact _ _ _ E) end.
  pose proof (ok_max_bytes _ Hok). pose proof (outputs_sum_nonneg _ (ok_outputs _ Hok)).
  unfold u64_range in *. rewrite (ok_output_total _ Hok) in *. lia.
Qed.

(** A write to a buffer that is queued to the host. *)
Lemma write_queued_rejected s b bi off data L :
  u64_range (mb_id b) -> u64_range (mb_generation b) ->
  find_buffer_idx s (mb_id b) = Some bi ->
  be_buffers s !! bi = Some (buffer_with_state BUFFER_STATE_QUEUED_TO_HOST b) ->
  0 <= off < 2 ^ 32 -> len data < 2 ^ 32 ->
  exec L s OP_WRITE_BUFFER (write_req b off data) = Val (inr STATUS_INVALID_STATE, s).
Proof.
  intros Hid Hgen Hf Hb Ho Hd.
  assert (pod_ok (mk_WriteBufferPayload (mb_id b) (mb_generation b) off (len data)) = true) as Hw.
  { unfold u64_range in *. pod_ok_split;
      first [apply (uint_ok_spec 8); assumption|apply (uint_ok_spec 4); cbn; lia]. }
  apply (exec_spec _ _ _ _ (mock_write_buffer (write_req b off data)));
    [unfold mock_arms; set_solver|].
  unfold mock_write_buffer, write_req. rewrite read_pod_bytes_of by done.
  do 5 hgo. cbn [wbp_buffer_id wbp_generation]. rewrite Hf. hgo. rewrite Hb. do 2 hgo.
  simpl. rewrite Z.eqb_refl. by do 4 hgo.
Qed.

Lemma exec_release_output s id L :
  u64_range id -> (release_output s id).1 = true ->
  exec L s OP_RELEASE_OUTPUT (bytes_of (mk_ReleaseOutputPayload id))
    = Val (inl [], (release_output s id).2).
Proof.
  intros Hid Hrel. set (rq := mk_ReleaseOutputPayload id).
  assert (pod_ok rq = true) as Hrq by (by apply (uint_ok_spec 8)).
  apply (exec_spec _ _ _ _ (mock_release_output (bytes_of rq))); [unfold mock_arms; set_solver|].
  unfold mock_release_output. rewrite <- (app_nil_r (bytes_of rq)), read_pod_bytes_of by done.
  do 4 hgo. cbn [rlp_output_id rq]. destruct (release_output s id) as [r s']. simpl in *. subst r.
  by repeat hgo.
Qed.

(** Releasing the output an encode just queued undoes the encode. *)
Lemma release_undoes_encode s s' bi b out :
  mock_ok s -> mock_links s -> be_buffers s !! bi = Some b ->
  mb_state b = BUFFER_STATE_GUEST_WRITABLE -> find_buffer_idx s' (mb_id b) = Some bi ->
  be_buffers s' = update bi (buffer_with_state BUFFER_STATE_QUEUED_TO_HOST) (be_buffers s) ->
  be_outputs s' = be_outputs s ++ [out] -> output_id out = be_next_output_id s ->
  source_key out = (mb_id b, mb_generation b) ->
  be_output_bytes_total s' = be_output_bytes_total s + output_size out -> 0 <= output_size out ->
  let '(found, s'') := release_output s' (be_next_output_id s) in
  found = true /\ be_buffers s'' = be_buffers s /\ be_outputs s'' = be_outputs s /\
  be_output_bytes_total s'' = be_output_bytes_total s.
Proof.
  intros Hok Hln Hbi Hst Hf' Ebufs Eouts Eoid [= Esrc Egen] Etot Hsz.
  assert (position (fun o => output_id o =? be_next_output_id s) (be_outputs s')
          = Some (length (be_outputs s))) as Hpos.
  { rewrite Eouts. apply position_snoc; [|by apply Z.eqb_eq].
    pose proof (ln_output_new _ Hln) as Hnew. revert Hnew. apply Forall_weaken.
    intros x _ Hx. apply Z.eqb_neq. lia. }
  assert (be_outputs s' !! length (be_outputs s) = Some out) as Hout
    by (rewrite Eouts; by rewrite lookup_app_r, Nat.sub_diag).
  unfold release_output. rewrite Hpos, Hout. cbv zeta. rewrite Esrc, Hf'. simpl. split_and!.
  - done.
  - rewrite Ebufs, update_update. eapply update_id; [done|]. simpl.
    rewrite Egen, Z.eqb_refl. simpl. unfold buffer_with_state. simpl. rewrite <- Hst. by destruct b.
  - rewrite Eouts. apply remove_at_snoc.
  - rewrite Etot. unfold saturating_sub.
    pose proof (outputs_sum_nonneg _ (ok_outputs _ Hok)). rewrite (ok_output_total _ Hok). lia.
Qed.

(** A queued frame is protected until its output is released: after a
    successful ENCODE_FRAME, writing the source buffer is answered
    INVALID_STATE and changes nothing, and releasing the output it produced puts
    buffers, outputs and the byte accounting back exactly as they were. *)
Theorem encode_then_release env n s b req s' L :
  mock_reach env n s -> Z.of_nat n < 2 ^ 63 -> b ∈ be_buffers s -> pod_ok req = true ->
  efp_image_buffer_host_id req = mb_id b ->
  exec L s OP_ENCODE_FRAME (bytes_of req) = Val (inl [], s') ->
  (forall off data, 0 <= off < 2 ^ 32 -> len data < 2 ^ 32 ->
     exec L s' OP_WRITE_BUFFER (write_req b off data) = Val (inr STATUS_INVALID_STATE, s')) /\
  exists s'', exec L s' OP_RELEASE_OUTPUT (bytes_of (mk_ReleaseOutputPayload (be_next_output_id s)))
      = Val (inl [], s'') /\
    be_buffers s'' = be_buffers s /\ be_outputs s'' = be_outputs s /\
    be_output_bytes_total s'' = be_output_bytes_total s.
Proof.
  intros Hr Hn Hb Hrq Hhid He. destruct (reach_inv _ _ _ Hr Hn) as (Hok & Hln & Hc).
  destruct (exec_inv True L s OP_ENCODE_FRAME (bytes_of req) (mock_encode_frame (bytes_of req))
    (fun o s' _ => o <> None -> encoded s s' (mb_id b)) (inl []) s')
    as (o & h' & Hpost & Hres); [unfold mock_arms; set_solver| |done|].
  { rewrite <- Hhid. apply encode_effect; [done|].
    rewrite <- (app_nil_r (bytes_of req)). by apply read_pod_bytes_of. }
  destruct o as [bs|]; [|done]. destruct (Hpost ltac:(done)) as
    (bi & b' & out & Hbi & Hfind & Hst & Ebufs & Eouts & Eoid & Esrc & Etot & Hsz).
  destruct (find_buffer_live s b (conj Hok Hln) Hb) as (bi2 & Hf2 & Hb2).
  assert (bi2 = bi) as -> by congruence. assert (b' = b) as -> by congruence. clear Hf2 Hb2 Hpost.
  assert (find_buffer_idx s' (mb_id b) = Some bi) as Hf'.
  { unfold find_buffer_idx in *. rewrite Ebufs, <- Hfind.
    rewrite !(position_fmap mb_id (fun k => k =? mb_id b)). f_equal. by apply fmap_update_same. }
  destruct (buffer_live_ok s b (conj Hok Hln) Hb) as (Hid & Hgen & _). split.
  - intros off data. apply (write_queued_rejected s' b bi); try done.
    rewrite Ebufs. by apply update_lookup.
  - pose proof (release_undoes_encode s s' bi b out Hok Hln Hbi Hst Hf' Ebufs Eouts Eoid Esrc
      Etot Hsz) as Hrel.
    exists (release_output s' (be_next_output_id s)).2. split.
    + apply exec_release_output; [apply Hok|]. by destruct (release_output _ _) as [? ?], Hrel.
    + by destruct (release_output _ _) as [? ?], Hrel.
Qed.
End props.

(** ** A concrete connection

    A session, a pool of two 16x2 BGRA buffers, both leased, one of them
    prepared for encoding. *)

Section demo.
Context `{Profile}.

Fixpoint exec_all (L : nat) (s : MockBackend) (reqs : list (Z * list byte)) : rust MockBackend :=
  match reqs with
  | [] => Val s
  | (op, pl) :: reqs' =>
      match exec L s op pl with Val (_, s') => exec_all L s' reqs' | Panic => Panic end
  end.

Lemma reach_exec_all env L reqs n s s' :
  mock_reach env n s -> exec_all L s reqs = Val s' -> mock_reach env (n + length reqs) s'.
Proof.
  revert n s. induction reqs as [|[op pl] reqs IH]; intros n s Hr E; simpl in E.
  - simplify_eq. by rewrite Nat.add_0_r.
  - destruct (exec L s op pl) as [[res s1]|] eqn:Ex; [|done]. simpl length.
    rewrite <- Nat.add_succ_comm. apply (IH _ s1); [|done]. unfold exec in Ex.
    destruct (dispatch _ _ _ _) as [[r io']|] eqn:Ed; [|done].
    assert (s1 = io_self io') as -> by (by destruct r; simplify_eq).
    by eapply reach_request.
Qed.
End demo.

Definition demo_requests : list (Z * list byte) :=
  [ (OP_CREATE_SESSION, bytes_of (mk_CreateSessionPayload 1 1 16 2 BGRA_FOURCC 30 1 1000 30));
    (OP_CREATE_BUFFER_POOL, bytes_of (mk_CreateBufferPoolPayload 1000 2 BGRA_FOURCC 16 2 0 0));
    (OP_ALLOC_BUFFER, bytes_of (mk_AllocBufferPayload 1001));
    (OP_ALLOC_BUFFER, bytes_of (mk_AllocBufferPayload 1001));
    (OP_PREPARE_SESSION, bytes_of (mk_PrepareSessionPayload 1000)) ].

Definition demo_env : environ := fun _ => None.
Definition demo_start : MockBackend := mock_reset_from_env demo_env MockBackend_new.
Definition demo_state : MockBackend :=
  match @exec_all debug_build 256 demo_start demo_requests with
  | Val s => s | Panic => MockBackend_new
  end.
Definition demo_lease (k : nat) : MockBuffer :=
  default (mk_MockBuffer 0 0 0 0 0 0 0 0 0) (be_buffers demo_state !! k).
Definition demo_encode : EncodeFramePayload :=
  mk_EncodeFramePayload 1000 1 (mb_id (demo_lease 0)) (mb_generation (demo_lease 0)) 0 30 30 1.

Lemma demo_reach : @mock_reach debug_build demo_env 5 demo_state.
Proof.
  apply (reach_exec_all (H:=debug_build) demo_env 256 demo_requests 0 demo_start);
    [apply reach_start|vm_compute; reflexivity].
Qed.

Lemma demo_lease_in k : (k < 2)%nat -> demo_lease k ∈ be_buffers demo_state.
Proof.
  intros Hk. apply list_elem_of_lookup. exists k.
  destruct k as [|[|k]]; [vm_compute; reflexivity..|lia].
Qed.

Lemma reachable_invariant_witness :
  mock_links demo_state /\ be_output_bytes_total demo_state = 0.
Proof.
  destruct (reachable_invariant (H:=debug_build) demo_env 5 demo_state demo_reach ltac:(lia))
    as (Hln & _). split; [exact Hln|vm_compute; reflexivity].
Defined.

Lemma dispatch_no_panic_witness :
  exists r s', @dispatch MockBackend mock_backend debug_build
      (client_header OP_ENCODE_FRAME []) [Byte.x01] (IO demo_state (zeroed MessageHeader) [])
      = Val (r, s') /\ length (io_buf s') = 0%nat.
Proof.
  apply (dispatch_no_panic (H:=debug_build) demo_env 5 demo_state
           (client_header OP_ENCODE_FRAME []) [Byte.x01] (zeroed MessageHeader) []).
  - exact demo_reach.
  - lia.
  - discriminate.
Defined.

Lemma write_read_roundtrip_witness :
  exists s', @exec debug_build 256 demo_state OP_WRITE_BUFFER
      (write_req (demo_lease 1) 5 [Byte.x0a; Byte.x0b]) = Val (inl [], s') /\
    @exec debug_build 256 s' OP_READ_BUFFER (read_req (demo_lease 1) 5 2)
      = Val (inl (read_reply (demo_lease 1) 5 2 ++ [Byte.x0a; Byte.x0b]), s').
Proof.
  destruct (write_read_roundtrip (H:=debug_build) demo_env 5 demo_state (demo_lease 1) 5
              [Byte.x0a; Byte.x0b] 256) as (s' & Hw & Hr & _).
  - exact demo_reach.
  - lia.
  - apply demo_lease_in. lia.
  - vm_compute. reflexivity.
  - lia.
  - vm_compute. congruence.
  - vm_compute. lia.
  - exists s'. split; [exact Hw|exact Hr].
Defined.

Lemma stale_generation_rejected_witness :
  @exec debug_build 256 demo_state OP_READ_BUFFER
    (read_req (buffer_with_generation 7 (demo_lease 0)) 0 4)
    = Val (inr STATUS_STALE_GENERATION, demo_state).
Proof.
  destruct (stale_generation_rejected (H:=debug_build) demo_env 5 demo_state (demo_lease 0)
              7 0 4 [] 256) as (Hr & _).
  - exact demo_reach.
  - lia.
  - apply demo_lease_in. lia.
  - lia.
  - vm_compute. congruence.
  - lia.
  - lia.
  - vm_compute. reflexivity.
  - exact Hr.
Defined.

Lemma dequeue_batch_fifo_witness :
  exists s', @exec debug_build (Z.to_nat 8192) demo_state OP_DEQUEUE_OUTPUT_BATCH
      (bytes_of (mk_DequeueOutputBatchPayload 1000 4 0)) = Val (inr STATUS_TIMEOUT, s').
Proof.
  destruct (dequeue_batch_fifo (H:=debug_build) demo_state 1000 4 (Z.to_nat 8192)) as (s' & Hs & _).
  - exact (proj1 (reach_inv (H:=debug_build) _ _ _ demo_reach ltac:(lia))).
  - lia.
  - lia.
  - vm_compute. lia.
  - exists s'. rewrite Hs. vm_compute. reflexivity.
Defined.

Lemma destroy_session_complete_witness :
  exists s', @exec debug_build 256 demo_state OP_DESTROY_SESSION
      (bytes_of (mk_DestroySessionPayload 1000)) = Val (inl [], s') /\ be_pools s' = [].
Proof.
  destruct (destroy_session_complete (H:=debug_build) demo_env 5 demo_state 1000 256)
    as (s' & Hs & _ & Hp & _).
  - exact demo_reach.
  - lia.
  - apply (bool_decide_unpack _). vm_compute. exact I.
  - exists s'. split; [exact Hs|]. rewrite Hp. vm_compute. reflexivity.
Defined.

(** The same connection one request earlier: the second buffer not yet leased. *)
Definition demo_prefix : MockBackend :=
  match @exec_all debug_build 256 demo_start (take 3 demo_requests) with
  | Val s => s | Panic => MockBackend_new
  end.

Lemma demo_prefix_reach : @mock_reach debug_build demo_env 3 demo_prefix.
Proof.
  apply (reach_exec_all (H:=debug_build) demo_env 256 (take 3 demo_requests) 0 demo_start);
    [apply reach_start|vm_compute; reflexivity].
Qed.

Definition demo_alloc : list byte * MockBackend :=
  match @exec debug_build 256 demo_prefix OP_ALLOC_BUFFER (bytes_of (mk_AllocBufferPayload 1001)) with
  | Val (inl bs, s') => (bs, s') | _ => ([], MockBackend_new)
  end.

Lemma alloc_hands_out_zeroed_witness :
  exists b, allocated (H:=debug_build) demo_prefix demo_alloc.2 1001 b /\ alloc_answer b demo_alloc.1.
Proof.
  apply (alloc_hands_out_zeroed (H:=debug_build) demo_env 3 demo_prefix 1001 256
           demo_alloc.1 demo_alloc.2).
  - exact demo_prefix_reach.
  - lia.
  - lia.
  - vm_compute. reflexivity.
Defined.

Definition demo_encoded : MockBackend :=
  match @exec debug_build 256 demo_state OP_ENCODE_FRAME (bytes_of demo_encode) with
  | Val (_, s') => s' | Panic => MockBackend_new
  end.

Lemma encode_then_release_witness :
  exists s'', @exec debug_build 256 demo_encoded OP_RELEASE_OUTPUT
      (bytes_of (mk_ReleaseOutputPayload 5000)) = Val (inl [], s'') /\
    be_buffers s'' = be_buffers demo_state /\ be_outputs s'' = [].
Proof.
  destruct (encode_then_release (H:=debug_build) demo_env 5 demo_state (demo_lease 0)
              demo_encode demo_encoded 256) as (_ & s'' & Hs & Hb & Ho & _).
  - exact demo_reach.
  - lia.
  - apply demo_lease_in. lia.
  - vm_compute. reflexivity.
  - vm_compute. reflexivity.
  - vm_compute. reflexivity.
  - exists s''. split; [exact Hs|]. split; [exact Hb|]. rewrite Ho. vm_compute. reflexivity.
Defined.
