(* ===== verification/LinkMock.v ===== *)
(** * Guest buffers over the mock worker

    The guest's [write_buffer] and [read_buffer] cut a transfer into requests of at
    most 1 MiB; here they run over the connection of [Link] against the mock
    backend, with the worker's real transport capacity. *)

From S2P Require Import Prelude Wire Protocol Layout Backend Stub Server Transport Link.
From S2P Require Import Mock MockInv MockProps.
From stdpp Require Import strings.

Set Default Goal Selector "!".
Open Scope Z_scope.

Section guest.
Context `{Profile} (env wenv : environ).
Implicit Types (t : transport (link MockBackend)) (s : MockBackend).
#[local] Instance mock_net : Net (link MockBackend) := link_net VTF_TRANSPORT_STORAGE_CAPACITY wenv.
Abbreviation cap := (Z.to_nat VTF_TRANSPORT_STORAGE_CAPACITY).

(** The mock's answer to a guest's request is the one of [exec]. *)
Lemma respond_exec s op rid pl bs s' :
  exec cap s op pl = Val (inl bs, s') ->
  exists h buf', respond s (replicate cap Byte.x00) (request_header op rid pl, pl) = Some (s', buf', (h, bs)) /\
    mh_status h = STATUS_OK.
Proof.
  unfold exec, respond. cbn [fst snd].
  change (dispatch H (request_header op rid pl) pl) with (dispatch H (client_header op pl) pl).
  destruct (dispatch _ _ _ _) as [[[n|] s1]|]; [| |done]; intros E.
  - cbn [result_of fmap option_fmap option_map] in E. case_if_in E; simplify_eq. zbool.
    do 2 eexists. by split.
  - by simplify_eq/=.
Qed.

Lemma mock_call s op pl rid t buf bs s' :
  mock_ok s -> 0 <= op < 2 ^ 16 -> 0 <= rid < 2 ^ 64 - 1 -> length buf = cap ->
  len pl <= VTF_TRANSPORT_STORAGE_CAPACITY -> exec cap s op pl = Val (inl bs, s') ->
  exists buf', length buf' = cap /\
    send_request_bytes env op pl (online t rid s buf) = Val (inl bs, online t (rid + 1) s' buf').
Proof.
  intros Hok Hop Hid Hbuf Hpl He. destruct (respond_exec s op rid pl bs s' He) as (h & buf0 & Hr & Hst).
  pose proof (respond_pure s buf (replicate cap Byte.x00) (request_header op rid pl, pl) Hok) as Hp.
  rewrite Hr in Hp. destruct Hp as (_ & buf' & Hl' & Hr'); [apply request_header_ok; lia|by rewrite length_replicate|].
  pose proof (send_respond VTF_TRANSPORT_STORAGE_CAPACITY env wenv op pl t rid s buf
    ltac:(cbv; split; congruence) Hop Hid Hpl Hok Hbuf) as Hs. rewrite Hr' in Hs.
  destruct Hs as (Hb' & _ & Hs). exists buf'. split; [done|].
  unfold mock_net. rewrite Hs. unfold call_result. by rewrite Hst.
Qed.

(** What holds while the guest writes [bytes] to lease [b]: the first [off] bytes
    have arrived, and no other lease changed. *)
Definition writing t rid s b bytes (off : Z) (t' : transport (link MockBackend)) : Prop :=
  exists rid' s' buf', t' = online t rid' s' buf' /\ rid <= rid' <= rid + off /\
    length buf' = cap /\ live s' /\ be_buffers s' = be_buffers s /\
    contents s' b = write_at 0 (take (Z.to_nat off) bytes) (contents s b) /\
    forall b2, b2 ∈ be_buffers s -> slot_key b2 <> slot_key b -> contents s' b2 = contents s b2.

Lemma writing_step t rid s b bytes off n t1 :
  live s -> b ∈ be_buffers s -> mb_state b = BUFFER_STATE_GUEST_WRITABLE ->
  len bytes <= mb_total_size b -> 0 <= rid -> rid + len bytes < 2 ^ 64 - 1 ->
  0 <= off -> 0 < n <= WRITE_BUFFER_CHUNK_BYTES -> off + n <= len bytes ->
  writing t rid s b bytes off t1 ->
  exists r t2, send_request_bytes env OP_WRITE_BUFFER
    (bytes_of (mk_WriteBufferPayload (mb_id b) (mb_generation b) (wrap 32 off) (wrap 32 n)) ++
     slice (Z.to_nat off) (Z.to_nat n) bytes) t1 = Val (inl r, t2) /\
    writing t rid s b bytes (off + n) t2.
Proof.
  intros Hl Hb Hst Hsz Hr0 Hr1 Ho Hn Hon (rid' & s1 & buf1 & -> & Hr & Hbuf & Hl1 & Ebs & Ec & Hoth).
  pose proof (total_size_range s b Hl Hb) as Hts. rewrite <- Ebs in Hb.
  unfold wrap. rewrite !Z.mod_small by lia. unfold WRITE_BUFFER_CHUNK_BYTES in Hn.
  set (data := slice (Z.to_nat off) (Z.to_nat n) bytes).
  assert (len data = n) as Hd by (unfold data; rewrite length_slice; lia).
  destruct (write_spec s1 b off data cap Hl1 Hb Hst Ho ltac:(lia))
    as (s2 & He & Hl2 & Ebs2 & _ & Ec2 & Hoth2).
  unfold write_req in He. rewrite Hd in He.
  destruct (lease_request_ok s1 b off n Hl1 Hb Ho ltac:(lia) ltac:(lia)) as (_ & Hok & _).
  destruct (mock_call s1 OP_WRITE_BUFFER (bytes_of (mk_WriteBufferPayload (mb_id b)
    (mb_generation b) off n) ++ data) rid' t buf1 [] s2 (proj1 Hl1) ltac:(done) ltac:(lia) Hbuf)
    as (buf2 & Hbuf2 & Hs); [|exact He|].
  { rewrite length_app, length_bytes_of by done. change (size_of WriteBufferPayload) with 24%nat.
    unfold VTF_TRANSPORT_STORAGE_CAPACITY. lia. }
  exists [], (online t (rid' + 1) s2 buf2). split; [done|].
  exists (rid' + 1), s2, buf2. split_and!; [done|lia|lia|done|done|congruence| |].
  - rewrite Ec2, Ec.
    assert (length (take (Z.to_nat off) bytes) = Z.to_nat off) as Ht by (rewrite length_take; lia).
    pose proof (write_at_app 0 (take (Z.to_nat off) bytes) data (contents s b)) as Hwa.
    rewrite Ht in Hwa. rewrite Nat.add_0_l in Hwa. rewrite Hwa.
    + f_equal. unfold data, slice. rewrite take_take_drop. f_equal. lia.
    + rewrite Ebs in Hb. destruct (contents_slot s b Hl Hb) as (_ & _ & _ & _ & _ & _ & _ & _ & _ & Hcl).
      lia.
  - intros b2 Hb2 Hne. rewrite Hoth2; [by apply Hoth|congruence|done].
Qed.

Definition reading t rid s (off : Z) (t' : transport (link MockBackend)) : Prop :=
  exists rid' buf', t' = online t rid' s buf' /\ rid <= rid' <= rid + off /\ length buf' = cap.

Lemma reading_step t rid s b total off n t1 :
  live s -> b ∈ be_buffers s -> mb_state b <> BUFFER_STATE_RECYCLED ->
  total <= mb_total_size b -> 0 <= rid -> rid + total < 2 ^ 64 - 1 ->
  0 <= off -> 0 < n <= WRITE_BUFFER_CHUNK_BYTES -> off + n <= total ->
  reading t rid s off t1 ->
  exists hdr t2, send_request_dynamic env OP_READ_BUFFER
    (mk_ReadBufferPayload (mb_id b) (mb_generation b) (wrap 32 off) (wrap 32 n)) t1 =
    Val (inl (hdr ++ slice (Z.to_nat off) (Z.to_nat n) (contents s b)), t2) /\
    length hdr = size_of ReadBufferReply /\ reading t rid s (off + n) t2.
Proof.
  intros Hl Hb Hst Hsz Hr0 Hr1 Ho Hn Hon (rid' & buf1 & -> & Hr & Hbuf).
  pose proof (total_size_range s b Hl Hb) as Hts. unfold WRITE_BUFFER_CHUNK_BYTES in Hn.
  unfold wrap. rewrite !Z.mod_small by lia.
  destruct (lease_request_ok s b off n Hl Hb Ho ltac:(lia) ltac:(lia)) as (Hok & _ & Hrok).
  pose proof (read_spec s b off n cap Hl Hb Hst Ho ltac:(lia) ltac:(lia)) as He.
  destruct (mock_call s OP_READ_BUFFER (read_req b off n) rid' t buf1
    (read_reply b off n ++ slice (Z.to_nat off) (Z.to_nat n) (contents s b)) s (proj1 Hl)
    ltac:(done) ltac:(lia) Hbuf) as (buf2 & Hbuf2 & Hs).
  - unfold read_req. rewrite length_bytes_of by done. done.
  - apply He. change (size_of ReadBufferReply) with 24%nat. unfold VTF_TRANSPORT_STORAGE_CAPACITY. lia.
  - exists (read_reply b off n), (online t (rid' + 1) s buf2). split; [exact Hs|].
    split; [by apply length_bytes_of|]. exists (rid' + 1), buf2. split_and!; [done|lia|lia|done].
Qed.

(** C24: buffers survive the wire.  For a guest-writable lease of a reachable mock
    worker, the guest's [write_buffer] of any number of bytes up to the lease's size
    succeeds, and [read_buffer] then returns exactly those bytes, although both
    travel in 1 MiB chunks; the other leases keep their contents, and the
    connection stays usable. *)
Theorem guest_write_read_roundtrip e n s b bytes t rid buf :
  mock_reach e n s -> Z.of_nat n < 2 ^ 63 -> b ∈ be_buffers s ->
  mb_state b = BUFFER_STATE_GUEST_WRITABLE -> len bytes <= mb_total_size b ->
  0 <= rid -> rid + 2 * len bytes < 2 ^ 64 - 1 ->
  length buf = Z.to_nat VTF_TRANSPORT_STORAGE_CAPACITY ->
  exists s' rid1 rid2 buf1 buf2,
    write_buffer env (mb_id b) (mb_generation b) bytes (online t rid s buf) =
      Val (inl tt, online t rid1 s' buf1) /\
    read_buffer env (mb_id b) (mb_generation b) (len bytes) (online t rid1 s' buf1) =
      Val (inl bytes, online t rid2 s' buf2) /\
    forall b2, b2 ∈ be_buffers s -> slot_key b2 <> slot_key b -> contents s' b2 = contents s b2.
Proof.
  intros Hre Hn Hb Hst Hsz Hr0 Hr1 Hbuf. destruct (reach_inv _ _ _ Hre Hn) as (Hok & Hln & _).
  assert (live s) as Hl by done.
  destruct (write_loop_spec env (writing t rid s b bytes) (mb_id b) (mb_generation b) bytes
    (fun off n t1 H1 H2 H3 => writing_step t rid s b bytes off n t1 Hl Hb Hst Hsz Hr0 ltac:(lia) H1 H2 H3)
    (S (length bytes)) 0 (online t rid s buf)) as (t1 & Hw & Hi); [lia|lia| |].
  { exists rid, s, buf. split_and!; try done; lia. }
  destruct Hi as (rid1 & s1 & buf1 & -> & Hrid1 & Hbuf1 & Hl1 & Ebs & Ec & Hoth).
  rewrite Nat2Z.id, take_ge in Ec by done.
  assert (length bytes <= length (contents s1 b))%nat as Hlen.
  { destruct (contents_slot s1 b Hl1) as (_ & _ & _ & _ & _ & _ & _ & _ & _ & Hcl); [congruence|]. lia. }
  destruct (read_loop_spec (reading t rid1 s1) (fun offset chunk_len =>
       send_request_dynamic env OP_READ_BUFFER
         (mk_ReadBufferPayload (mb_id b) (mb_generation b) (wrap 32 offset) (wrap 32 chunk_len)))
    (size_of ReadBufferReply) (len bytes) (contents s1 b) ltac:(lia)
    (fun off n t1 H1 H2 H3 => reading_step t rid1 s1 b (len bytes) off n t1 Hl1 ltac:(congruence)
       ltac:(rewrite Hst; done) Hsz ltac:(lia) ltac:(lia) H1 H2 H3)
    (S (Z.to_nat (len bytes))) 0 [] (online t rid1 s1 buf1)) as (t2 & Hrd & Hi2); [lia|lia| |].
  { exists rid1, buf1. split_and!; try done; lia. }
  destruct Hi2 as (rid2 & buf2 & -> & _). exists s1, rid1, rid2, buf1, buf2. split_and!; [exact Hw| |done].
  unfold read_buffer. rewrite Hrd. do 3 f_equal. rewrite Z.sub_0_r, Nat2Z.id, Ec. apply take_write_at_0.
Qed.
End guest.

Lemma guest_write_read_roundtrip_witness :
  exists s' rid1 rid2 buf1 buf2,
    let net := mock_net (H:=debug_build) no_env in
    @write_buffer _ net debug_build tcp_env (mb_id (demo_lease 1)) (mb_generation (demo_lease 1))
      [Byte.x0a; Byte.x0b; Byte.x0c]
      (online (unconnected 0) 1 demo_state (replicate (Z.to_nat VTF_TRANSPORT_STORAGE_CAPACITY) Byte.x00)) =
      Val (inl tt, online (unconnected 0) rid1 s' buf1) /\
    @read_buffer _ net debug_build tcp_env (mb_id (demo_lease 1)) (mb_generation (demo_lease 1)) 3
      (online (unconnected 0) rid1 s' buf1) =
      Val (inl [Byte.x0a; Byte.x0b; Byte.x0c], online (unconnected 0) rid2 s' buf2).
Proof.
  destruct (guest_write_read_roundtrip (H:=debug_build) tcp_env no_env demo_env 5 demo_state
    (demo_lease 1) [Byte.x0a; Byte.x0b; Byte.x0c] (unconnected 0) 1
    (replicate (Z.to_nat VTF_TRANSPORT_STORAGE_CAPACITY) Byte.x00) demo_reach ltac:(lia)
    (demo_lease_in 1 ltac:(lia)) ltac:(vm_compute; reflexivity) ltac:(vm_compute; congruence)
    ltac:(lia) ltac:(simpl; lia) (length_replicate _ _))
    as (s' & rid1 & rid2 & buf1 & buf2 & Hw & Hr & _).
  exists s', rid1, rid2, buf1, buf2. split; [exact Hw|exact Hr].
Defined.
