(* ===== verification/Broker.v ===== *)
(** * The broker

    [vt-ferry-broker] allocates one packed IOSurface per pool and registers their
    Mach ports ([pool.rs]), starts the worker with the pools' shapes in its
    environment ([host_worker.rs]) and then the child that holds the guest
    ([main.rs]); the worker picks the surfaces up again ([iosurface_bridge.rs],
    worker [main.rs]).  A bridge relays a TCP port to the worker's socket
    ([tcp_bridge.rs]). *)

From S2P Require Import Prelude Wire Protocol Layout Backend Frameworks PoolDirectory Transport.
From stdpp Require Import strings gmultiset.

Set Default Goal Selector "!".
Open Scope Z_scope.

(** ** Text *)

(** [u64::to_string]: [n] has at most [fuel] decimal digits. *)
Fixpoint decimal (fuel : nat) (n : Z) (acc : string) : string :=
  match fuel with
  | O => acc
  | S fuel =>
      let acc := String.String (Ascii.ascii_of_nat (48 + Z.to_nat (n mod 10))) acc in
      if n <? 10 then acc else decimal fuel (n / 10) acc
  end.
Definition to_string (n : Z) : string := decimal 20 n EmptyString.

(** ** Pools *)

Record PoolSpec := mk_PoolSpec {
  bp_guest_phys_addr : Z;
  bp_slot_count : Z;
  bp_width : Z;
  bp_height : Z;
  bp_pixel_format : Z;
  bp_writable : bool
}.

(** [#[serde(default = "default_writable")]] *)
Definition default_writable : bool := true.

Record WorkerIOSurfacePoolSpec := mk_WorkerIOSurfacePoolSpec {
  ws_width : Z;
  ws_height : Z;
  ws_pixel_format : Z;
  ws_slot_count : Z;
  ws_iosurface_id : Z
}.

Record OwnedIOSurfacePoolEntry := mk_OwnedIOSurfacePoolEntry {
  oe_surface : Z;
  oe_mach_port : Z;
  oe_iosurface_id : Z;
  oe_guest_phys_addr : Z;
  oe_len : Z;
  oe_writable : bool;
  oe_name : string
}.

Definition MAX_REGISTERED_IOSURFACE_PORTS : Z := 3.
Definition KERN_SUCCESS : Z := 0.

(** The errors of [pool.rs]. *)
Inductive pool_error :=
| TooManyPools (requested : Z)
| NoSlots
| UnsupportedFormat (pixel_format : Z)
| SizeOverflow
| ZeroWidth
| SurfaceNil
| PortNil
| RegisterFailed (kr : Z).

(** What the broker asks of the system.  A surface is created from the numbers of
    its property dictionary. *)
Class Launcher (host : Type) := {
  lc_page_size : Z;
  lc_surface_create (properties : list (string * Z)) : host -> Z * host;
  lc_surface_id : host -> Z -> Z;
  lc_create_mach_port (surface : Z) : host -> Z * host;
  lc_release (surface : Z) : host -> host;
  lc_port_deallocate (port : Z) : host -> host;
  lc_ports_register (ports : list Z) : host -> Z * host
}.

(** [CFNumberCreate] with [kCFNumberIntType] reads a C [int] at the pointer: of an
    [i64] it takes the low half. *)
Definition cf_number_i32 (value : Z) : Z := value.
Definition cf_number_i64 (value : Z) : Z := as_signed 32 value.

(** Signed arithmetic on [i32]. *)
Definition arith_i32 `{!Profile} (z : Z) : rust Z :=
  if (- 2 ^ 31 <=? z) && (z <? 2 ^ 31) then Val z
  else if overflow_checks then Panic else Val (as_signed 32 z).

Section pools.
Context {host : Type} `{!Launcher host} `{!Profile}.

(** State passing with panics; [Result] is a sum. *)
Definition B (A : Type) : Type := host -> rust (A * host).
#[local] Instance B_ret : MRet B := fun A a h => Val (a, h).
#[local] Instance B_bind : MBind B := fun A A' f m h =>
  match m h with Val (a, h) => f a h | Panic => Panic end.
Definition on_host {A} (f : host -> A * host) : B A := fun h => Val (f h).
Definition pure_rust {A} (r : rust A) : B A := fun h =>
  match r with Val a => Val (a, h) | Panic => Panic end.

(** [None]: the pixel format is not supported. *)
Definition pool_region_name (width height pixel_format slot_count : Z) : rust (option string) :=
  slot_alloc ← pool_slot_alloc_size lc_page_size width height pixel_format;
  Val (slot_alloc ← slot_alloc;
       Some ("vt-ferry-pool-pf" +:+ to_string pixel_format +:+ "-w" +:+ to_string width +:+ "-h" +:+
             to_string height +:+ "-n" +:+ to_string slot_count +:+ "-b" +:+ to_string slot_alloc)%string).

(** The property dictionary of a surface. *)
Definition surface_properties (width height alloc_size : Z) : rust (list (string * Z)) :=
  bpr ← arith_i32 (as_signed 32 width * 4);
  Val [ ("kIOSurfaceWidth", cf_number_i32 (as_signed 32 width));
        ("kIOSurfaceHeight", cf_number_i32 (as_signed 32 height));
        ("kIOSurfaceBytesPerElement", cf_number_i32 4);
        ("kIOSurfaceBytesPerRow", cf_number_i32 bpr);
        ("kIOSurfacePixelFormat", cf_number_i32 (as_signed 32 BGRA_FOURCC));
        ("kIOSurfaceAllocSize", cf_number_i64 (as_signed 64 alloc_size)) ]%string.

Definition create_packed_bgra_iosurface (width height alloc_size : Z) : B ((Z * Z) + pool_error) :=
  props ← pure_rust (surface_properties width height alloc_size);
  surface ← on_host (lc_surface_create props);
  if surface =? 0 then mret (inr SurfaceNil) else
  fun h => Val (inl (surface, lc_surface_id h surface), h).

(** The size of the packed surface, its rows and its allocation. *)
Definition packed_sizes (spec : PoolSpec) : rust ((Z * Z * Z) + pool_error) :=
  slot_aligned ← pool_slot_alloc_size lc_page_size (bp_width spec) (bp_height spec) (bp_pixel_format spec);
  match slot_aligned with
  | None => Val (inr (UnsupportedFormat (bp_pixel_format spec)))
  | Some slot_aligned =>
      match checked 64 (slot_aligned * bp_slot_count spec) with
      | None => Val (inr SizeOverflow)
      | Some total =>
          raw_bpr ← arith 64 (bp_width spec * 4);
          if raw_bpr =? 0 then Val (inr ZeroWidth) else
          sum ← arith 64 (total + raw_bpr);
          up ← arith 64 (sum - 1);
          let raw_height := wrap 32 (up / raw_bpr) in
          area ← arith 64 (raw_bpr * raw_height);
          Val (inl (total, raw_height, Z.max area total))
      end
  end.

(** The body of the loop of [allocate_pools]. *)
Definition allocate_pool (spec : PoolSpec)
    : B ((OwnedIOSurfacePoolEntry * WorkerIOSurfacePoolSpec) + pool_error) :=
  if bp_slot_count spec =? 0 then mret (inr NoSlots) else
  sizes ← pure_rust (packed_sizes spec);
  match sizes with
  | inr e => mret (inr e)
  | inl (total, raw_height, raw_alloc) =>
      created ← create_packed_bgra_iosurface (bp_width spec) raw_height raw_alloc;
      match created with
      | inr e => mret (inr e)
      | inl (surface, surface_id) =>
          port ← on_host (lc_create_mach_port surface);
          if port =? 0 then
            _ ← on_host (fun h => (tt, lc_release surface h));
            mret (inr PortNil)
          else
            name ← pure_rust (pool_region_name (bp_width spec) (bp_height spec) (bp_pixel_format spec)
                                (bp_slot_count spec));
            match name with
            | None => mret (inr (UnsupportedFormat (bp_pixel_format spec)))
            | Some name =>
                mret (inl (mk_OwnedIOSurfacePoolEntry surface port surface_id (bp_guest_phys_addr spec)
                             total (bp_writable spec) name,
                           mk_WorkerIOSurfacePoolSpec (bp_width spec) (bp_height spec)
                             (bp_pixel_format spec) (bp_slot_count spec) surface_id))
            end
      end
  end.

(** [Drop for OwnedIOSurfacePoolEntry] *)
Definition drop_entry (e : OwnedIOSurfacePoolEntry) (h : host) : host :=
  let h := if negb (oe_mach_port e =? 0) then lc_port_deallocate (oe_mach_port e) h else h in
  if negb (oe_surface e =? 0) then lc_release (oe_surface e) h else h.

Definition drop_entries (es : list OwnedIOSurfacePoolEntry) (h : host) : host :=
  foldl (fun h e => drop_entry e h) h es.

(** The loop; an error drops the entries made so far. *)
Fixpoint allocate_each (specs : list PoolSpec) (entries : list OwnedIOSurfacePoolEntry)
    (worker_specs : list WorkerIOSurfacePoolSpec)
    : B ((list OwnedIOSurfacePoolEntry * list WorkerIOSurfacePoolSpec) + pool_error) :=
  match specs with
  | [] => mret (inl (entries, worker_specs))
  | spec :: specs =>
      made ← allocate_pool spec;
      match made with
      | inl (e, ws) => allocate_each specs (entries ++ [e]) (worker_specs ++ [ws])
      | inr err => _ ← on_host (fun h => (tt, drop_entries entries h)); mret (inr err)
      end
  end.

Definition allocate_pools (specs : list PoolSpec)
    : B ((list OwnedIOSurfacePoolEntry * list WorkerIOSurfacePoolSpec) + pool_error) :=
  if len specs >? MAX_REGISTERED_IOSURFACE_PORTS then mret (inr (TooManyPools (len specs)))
  else allocate_each specs [] [].

Definition register_ports (entries : list OwnedIOSurfacePoolEntry) : B (unit + pool_error) :=
  if bool_decide (entries = []) then mret (inl tt) else
  if len entries >? MAX_REGISTERED_IOSURFACE_PORTS then mret (inr (TooManyPools (len entries))) else
  kr ← on_host (lc_ports_register (oe_mach_port <$> entries));
  mret (if kr =? KERN_SUCCESS then inl tt else inr (RegisterFailed kr)).
End pools.

(** ** Starting the worker *)

Definition set_var (name value : string) (env : environ) : environ := fun n =>
  if bool_decide (n = name) then Some value else env n.
Definition remove_var (name : string) (env : environ) : environ := fun n =>
  if bool_decide (n = name) then None else env n.

(** What [std::fs::metadata] says. *)
Record metadata := mk_metadata { md_is_file : bool; md_mode : Z }.

Inductive spawn_error :=
| NotAbsolute | StatFailed | NotAFile | NotExecutable (mode : Z) | LogFailed | SpawnFailed.

(** A program with its argument, its [stderr] (a log file or [/dev/null]) and its
    environment. *)
Record command := mk_command {
  cmd_program : string;
  cmd_args : list string;
  cmd_stderr : option string;
  cmd_env : environ
}.

(** On Unix an absolute path starts with a slash. *)
Definition is_absolute (path : string) : bool := String.prefix "/" path.

Definition ENV_SPECS : string := "VT_FERRY_IOSURFACE_POOL_SPECS_JSON".
Definition ENV_BACKEND : string := "VT_FERRY_HOST_WORKER_BACKEND".

Section worker.
(** The file system and [serde_json::to_string]. *)
Context (stat : string -> option metadata) (open_log : string -> bool)
  (to_json : list WorkerIOSurfacePoolSpec -> string).

(** [0x49] is [0o111]. *)
Definition validate_worker_path (path : string) : unit + spawn_error :=
  if negb (is_absolute path) then inr NotAbsolute else
  match stat path with
  | None => inr StatFailed
  | Some meta =>
      if negb (md_is_file meta) then inr NotAFile
      else if Z.land (md_mode meta) 0x49 =? 0 then inr (NotExecutable (md_mode meta))
      else inl tt
  end.

(** The command [spawn_socket] runs. *)
Definition spawn_socket (env : environ) (worker_path : string)
    (worker_specs : list WorkerIOSurfacePoolSpec) (socket_path : string) : command + spawn_error :=
  match validate_worker_path worker_path with
  | inr e => inr e
  | inl _ =>
      let log := env "VT_FERRY_HOST_WORKER_STDERR_LOG"%string in
      if from_option (fun path => negb (open_log path)) false log then inr LogFailed else
      let backend := default "vt-real"%string (env ENV_BACKEND) in
      let env := set_var ENV_BACKEND backend env in
      let env := if negb (bool_decide (worker_specs = []))
                 then set_var ENV_SPECS (to_json worker_specs) env
                 else remove_var ENV_SPECS env in
      inl (mk_command worker_path [socket_path] log env)
  end.
End worker.

(** ** The worker picks up what was registered *)

(** The Mach calls of the worker.  [None]: the lookup failed or gave no array. *)
Class MachPorts (host : Type) := {
  mach_ports_lookup : ffi host (option (list Z));
  IOSurfaceLookupFromMachPort : Z -> ffi host Z
}.

Inductive backend_factory :=
| MockBackendFactory
| VtStubBackendFactory
| VtRealBackendFactory (iosurface_pools : IOSurfacePoolDirectory).

Section pick_up.
Context {host : Type} `{!Frameworks host} `{!MachPorts host}.

Definition lookup_registered_ports (m : machine host) : list Z * machine host :=
  let '(ports, m) := mach_ports_lookup m in (default [] ports, m).

(** [None]: no surface behind the port. *)
Definition from_mach_port (port : Z) (m : machine host) : option OwnedIOSurface * machine host :=
  let '(surface, m) := IOSurfaceLookupFromMachPort port m in
  (if surface =? 0 then None else Some surface, m).

Fixpoint load_ports (ports : list Z) (m : machine host) : list OwnedIOSurface * machine host :=
  match ports with
  | [] => ([], m)
  | port :: ports =>
      if port =? 0 then load_ports ports m else
      let '(surface, m) := from_mach_port port m in
      let '(surfaces, m) := load_ports ports m in
      (option_list surface ++ surfaces, m)
  end.

Definition load_from_registered_ports (m : machine host) : IOSurfaceRegistry * machine host :=
  let '(ports, m) := lookup_registered_ports m in
  let '(surfaces, m) := load_ports ports m in
  (mk_IOSurfaceRegistry surfaces, m).

(** On macOS. *)
Definition select_backend_factory (from_str : string -> option (list IOSurfacePoolSpec)) (env : environ)
    (m : machine host) : backend_factory * machine host :=
  match env ENV_BACKEND with
  | Some val =>
      if bool_decide (val = "mock"%string) then (MockBackendFactory, m)
      else if bool_decide (val = "vt-stub"%string) then (VtStubBackendFactory, m)
      else if bool_decide (val = "vt-real"%string) then
        let '(registry, m) := load_from_registered_ports m in
        let '(directory, _) := dir_load from_str env m registry in
        (VtRealBackendFactory directory, m)
      else (MockBackendFactory, m)
  | None => (MockBackendFactory, m)
  end.
End pick_up.

(** ** The child *)

(** What [main] sets for a child that reaches the worker over TCP. *)
Definition tcp_child_env (tcp_guest_host : string) (bridge_port : Z) (env : environ) : environ :=
  set_var "VT_FERRY_TCP_PORT" (to_string bridge_port)
    (set_var "VT_FERRY_TCP_HOST" tcp_guest_host
       (set_var "VT_FERRY_TRANSPORT" "tcp"
          (remove_var "SMOLVM_VSOCK_PORT_0" (remove_var "SMOLVM_VSOCK_PORT_COUNT" env)))).

(** What [main] sets before it becomes the child. *)
Definition vsock_child_env (vsock_port : Z) (socket_path : string) (env : environ) : environ :=
  set_var "SMOLVM_VSOCK_PORT_0" (to_string vsock_port +:+ ":" +:+ socket_path)%string
    (set_var "SMOLVM_VSOCK_PORT_COUNT" "1" env).

(** Processes, by their id; statuses as [ExitStatus::success]. *)
Class Processes (os : Type) := {
  (** [Some (Some success)]: exited; [Some None]: running; [None]: the poll failed. *)
  pr_try_wait (pid : Z) : os -> option (option bool) * os;
  pr_kill (pid : Z) : os -> os;
  pr_wait (pid : Z) : os -> option bool * os;
  pr_sleep (milliseconds : Z) : os -> os
}.

Inductive main_error :=
| PollFailed | WaitFailed | WorkerExitedFirst | ChildFailed.

Section supervise.
Context {os : Type} `{!Processes os}.

(** The loop of [main]: [inl (success, worker_exited_first)].  [None]: out of fuel. *)
Fixpoint supervise (fuel : nat) (child worker : Z) (o : os) : option ((bool * bool) + main_error) * os :=
  match fuel with
  | O => (None, o)
  | S fuel =>
      match pr_try_wait child o with
      | (None, o) => (Some (inr PollFailed), o)
      | (Some (Some status), o) => (Some (inl (status, false)), o)
      | (Some None, o) =>
          match pr_try_wait worker o with
          | (None, o) => (Some (inr PollFailed), o)
          | (Some (Some _), o) =>
              match pr_wait child (pr_kill child o) with
              | (Some status, o) => (Some (inl (status, true)), o)
              | (None, o) => (Some (inr WaitFailed), o)
              end
          | (Some None, o) => supervise fuel child worker (pr_sleep 100 o)
          end
      end
  end.

(** [main] after the loop. *)
Definition tcp_outcome (r : (bool * bool) + main_error) : unit + main_error :=
  match r with
  | inr e => inr e
  | inl (success, worker_exited_first) =>
      if worker_exited_first then inr WorkerExitedFirst
      else if negb success then inr ChildFailed else inl tt
  end.

(** [Drop for HostWorkerHandle] *)
Definition drop_worker (worker : Z) (o : os) : os :=
  match pr_try_wait worker o with
  | (Some None, o) => snd (pr_wait worker (pr_kill worker o))
  | (_, o) => o
  end.
End supervise.

(** ** The bridge connects to the worker *)

Inductive connect_error := NotFound | ConnectionRefused | WouldBlock | TimedOut | OtherError.

Definition retriable (e : connect_error) : bool :=
  match e with NotFound | ConnectionRefused | WouldBlock => true | _ => false end.

(** [UnixStream::connect], the clock (in milliseconds) and [thread::sleep]. *)
Class Sockets (os : Type) := {
  so_connect (path : string) : os -> (Z + connect_error) * os;
  so_now : os -> Z;
  so_sleep (milliseconds : Z) : os -> os
}.

Section connect.
Context {os : Type} `{!Sockets os}.

(** [None]: out of fuel. *)
Fixpoint connect_loop (fuel : nat) (worker_socket : string) (start timeout : Z)
    (last_error : option connect_error) (o : os) : option (Z + connect_error) * os :=
  match fuel with
  | O => (None, o)
  | S fuel =>
      if so_now o - start <? timeout then
        match so_connect worker_socket o with
        | (inl stream, o) => (Some (inl stream), o)
        | (inr err, o) =>
            if retriable err then connect_loop fuel worker_socket start timeout (Some err) (so_sleep 10 o)
            else (Some (inr err), o)
        end
      else (Some (inr (default TimedOut last_error)), o)
  end.

Definition connect_worker_with_retry (fuel : nat) (worker_socket : string) (timeout : Z) (o : os)
    : option (Z + connect_error) * os :=
  connect_loop fuel worker_socket (so_now o) timeout None o.
End connect.
