(* ===== verification/BrokerProps.v ===== *)
(** * What the broker promises

    Nothing it allocates is lost, what it registers is what the worker finds, every
    slot the worker cuts out of a surface lies inside it, and its retries end. *)

From S2P Require Import Prelude Wire Protocol Layout Backend Frameworks PoolDirectory Sim Transport Broker.
From stdpp Require Import strings gmultiset.

Set Default Goal Selector "!".
Open Scope Z_scope.

(** ** What the broker holds

    The references to surfaces and the port rights of the broker's task, as its
    calls change them. *)
Class LauncherLaws (host : Type) `{!Launcher host} := {
  held : host -> gmultiset Z;
  rights : host -> gmultiset Z;
  law_create props h s h' : lc_surface_create props h = (s, h') ->
    held h' = (if s =? 0 then ∅ else {[+ s +]}) ⊎ held h /\ rights h' = rights h;
  law_port s h p h' : lc_create_mach_port s h = (p, h') ->
    held h' = held h /\ rights h' = (if p =? 0 then ∅ else {[+ p +]}) ⊎ rights h;
  law_release s h : held (lc_release s h) = held h ∖ {[+ s +]} /\ rights (lc_release s h) = rights h;
  law_deallocate p h :
    held (lc_port_deallocate p h) = held h /\ rights (lc_port_deallocate p h) = rights h ∖ {[+ p +]};
  law_register ports h kr h' : lc_ports_register ports h = (kr, h') ->
    held h' = held h /\ rights h' = rights h
}.

(** The references of entries. *)
Definition surfaces_of (es : list OwnedIOSurfacePoolEntry) : gmultiset Z := list_to_set_disj (oe_surface <$> es).
Definition ports_of (es : list OwnedIOSurfacePoolEntry) : gmultiset Z := list_to_set_disj (oe_mach_port <$> es).

(** What an entry and what the worker is told have to do with the pool asked for. *)
Record entry_for `{!Profile} (page : Z) (spec : PoolSpec) (e : OwnedIOSurfacePoolEntry)
    (ws : WorkerIOSurfacePoolSpec) : Prop := {
  ef_surface : oe_surface e <> 0;
  ef_port : oe_mach_port e <> 0;
  ef_len : exists slot, pool_slot_alloc_size page (bp_width spec) (bp_height spec) (bp_pixel_format spec) =
    Val (Some slot) /\ oe_len e = slot * bp_slot_count spec;
  ef_addr : oe_guest_phys_addr e = bp_guest_phys_addr spec;
  ef_spec : ws = mk_WorkerIOSurfacePoolSpec (bp_width spec) (bp_height spec) (bp_pixel_format spec)
    (bp_slot_count spec) (oe_iosurface_id e)
}.

Lemma take_back (x : Z) (l r : gmultiset Z) : ({[+ x +]} ⊎ l ⊎ r) ∖ {[+ x +]} = l ⊎ r.
Proof. multiset_solver. Qed.
Lemma take_back_1 (x : Z) (r : gmultiset Z) : ({[+ x +]} ⊎ r) ∖ {[+ x +]} = r.
Proof. multiset_solver. Qed.

Section ledger.
Context {host : Type} `{!Launcher host} `{!LauncherLaws host} `{!Profile}.
Implicit Types (h : host) (es : list OwnedIOSurfacePoolEntry).

Definition owns es h h' : Prop :=
  held h' = surfaces_of es ⊎ held h /\ rights h' = ports_of es ⊎ rights h.

Lemma owns_nil h : owns [] h h.
Proof. split; symmetry; apply (left_id_L ∅ (⊎)). Qed.

Lemma owns_app es es' h h1 h2 : owns es h h1 -> owns es' h1 h2 -> owns (es ++ es') h h2.
Proof.
  intros [A1 A2] [B1 B2]. unfold owns, surfaces_of, ports_of in *.
  rewrite !fmap_app, !list_to_set_disj_app, B1, B2, A1, A2. clear. split; multiset_solver.
Qed.

Lemma drop_entries_ok es : forall h h0, owns es h0 h ->
  Forall (fun e => oe_surface e <> 0 /\ oe_mach_port e <> 0) es -> owns [] h0 (drop_entries es h).
Proof.
  induction es as [|e es IH]; intros h h0 Ho Hes; [done|].
  apply list.Forall_cons in Hes as [[Hs Hp] Hes]. simpl. apply IH; [|done].
  destruct Ho as [H1 H2]. unfold drop_entry. rewrite (proj2 (Z.eqb_neq _ _) Hs), (proj2 (Z.eqb_neq _ _) Hp). simpl.
  destruct (law_deallocate (oe_mach_port e) h) as [D1 D2].
  destruct (law_release (oe_surface e) (lc_port_deallocate (oe_mach_port e) h)) as [R1 R2].
  split; [rewrite R1, D1, H1|rewrite R2, D2, H2]; apply take_back.
Qed.

Lemma packed_total spec total rows alloc :
  packed_sizes (host:=host) spec = Val (inl (total, rows, alloc)) -> exists slot,
  pool_slot_alloc_size lc_page_size (bp_width spec) (bp_height spec) (bp_pixel_format spec) = Val (Some slot) /\
  total = slot * bp_slot_count spec /\ total <= alloc.
Proof.
  unfold packed_sizes. destruct (pool_slot_alloc_size _ _ _ _) as [[slot|]|]; simpl; try done.
  unfold checked. destruct (in_width 64 (slot * bp_slot_count spec)); [|done].
  destruct (arith 64 (bp_width spec * 4)) as [bpr|]; simpl; [|done]. destruct (bpr =? 0); [done|].
  destruct (arith 64 (slot * bp_slot_count spec + bpr)) as [sum|]; simpl; [|done].
  destruct (arith 64 (sum - 1)) as [up|]; simpl; [|done].
  destruct (arith 64 (bpr * wrap 32 (up / bpr))) as [area|]; simpl; [|done].
  intros [= <- _ <-]. exists slot. split_and!; [done|done|lia].
Qed.

Lemma allocate_pool_ok spec h r h' : allocate_pool spec h = Val (r, h') ->
  match r with
  | inl (e, ws) => owns [e] h h' /\ entry_for (lc_page_size (host:=host)) spec e ws
  | inr _ => owns [] h h'
  end.
Proof.
  unfold allocate_pool. destruct (bp_slot_count spec =? 0); [intros [= <- <-]; apply owns_nil|].
  unfold mbind, B_bind, pure_rust. destruct (packed_sizes spec) as [[[[total rows] alloc]|err]|] eqn:Es; [| |done].
  2: { intros [= <- <-]. apply owns_nil. }
  destruct (packed_total spec total rows alloc Es) as (slot & Esl & Et & _).
  unfold create_packed_bgra_iosurface, mbind, B_bind, pure_rust, on_host.
  destruct (surface_properties (bp_width spec) rows alloc) as [props|]; [|done].
  destruct (lc_surface_create props h) as [s h1] eqn:Ec. destruct (law_create _ _ _ _ Ec) as [C1 C2].
  destruct (Z.eqb_spec s 0) as [->|Hs].
  { intros [= <- <-]. unfold owns, surfaces_of, ports_of. simpl. rewrite C1, C2. by rewrite !(left_id_L ∅ (⊎)). }
  destruct (lc_create_mach_port s h1) as [port h2] eqn:Ep. destruct (law_port _ _ _ _ Ep) as [P1 P2].
  destruct (Z.eqb_spec port 0) as [->|Hp].
  { intros [= <- <-]. destruct (law_release s h2) as [R1 R2].
    unfold owns, surfaces_of, ports_of. simpl. rewrite R1, R2, P1, P2, C1, C2, ?(proj2 (Z.eqb_neq _ _) Hs).
    change (0 =? 0) with true. cbv iota. by rewrite take_back_1, !(left_id_L ∅ (⊎)). }
  unfold pool_region_name. rewrite Esl. simpl. intros [= <- <-]. split.
  - unfold owns, surfaces_of, ports_of. simpl. rewrite P1, P2, C1, C2, ?(proj2 (Z.eqb_neq _ _) Hs), ?(proj2 (Z.eqb_neq _ _) Hp).
    by rewrite !(right_id_L ∅ (⊎)).
  - split; simpl; try done. exists slot. by rewrite Et.
Qed.

Lemma allocate_each_ok specs : forall es wss h0 h r h', owns es h0 h ->
  Forall (fun e => oe_surface e <> 0 /\ oe_mach_port e <> 0) es ->
  allocate_each specs es wss h = Val (r, h') ->
  match r with
  | inl (es', wss') => owns es' h0 h' /\ exists new nws, es' = es ++ new /\ wss' = wss ++ nws /\
      Forall3 (entry_for (lc_page_size (host:=host))) specs new nws
  | inr _ => owns [] h0 h'
  end.
Proof.
  induction specs as [|spec specs IH]; intros es wss h0 h r h' Ho Hes; simpl.
  { intros [= <- <-]. split; [done|]. exists [], []. rewrite !app_nil_r. by split_and!; [done|done|constructor]. }
  unfold mbind at 1, B_bind at 1. destruct (allocate_pool spec h) as [[[[e ws]|err] h1]|] eqn:Ea; [| |done].
  - destruct (allocate_pool_ok _ _ _ _ Ea) as [Ho1 He]. intros Er.
    pose proof (IH (es ++ [e]) (wss ++ [ws]) h0 h1 r h' (owns_app _ _ _ _ _ Ho Ho1)
      ltac:(apply Forall_app; split; [done|]; repeat constructor; apply He) Er) as Hr.
    destruct r as [[es' wss']|]; [|done]. destruct Hr as (Ho' & new & nws & -> & -> & Hf). split; [done|].
    exists (e :: new), (ws :: nws). rewrite <- !(assoc_L (++)). split_and!; [done|done|by constructor].
  - intros [= <- <-]. apply drop_entries_ok; [|done].
    pose proof (allocate_pool_ok _ _ _ _ Ea) as Ho1. simpl in Ho1.
    rewrite <- (app_nil_r es). by eapply owns_app.
Qed.

(** Nothing the broker allocates is lost.  [allocate_pools] either fails and
    leaves the broker's surfaces and port rights as they were, whichever call
    failed and however many pools were made before it, or gives, for each pool in
    order, an entry that owns one new surface and one new port, of the pool's size,
    and tells the worker that pool's shape with that surface's id; dropping the
    entries gives everything back. *)
Theorem allocate_pools_conserves specs h r h' (E : allocate_pools specs h = Val (r, h')) :
  match r with
  | inr _ => held h' = held h /\ rights h' = rights h
  | inl (entries, worker_specs) =>
      held h' = surfaces_of entries ⊎ held h /\ rights h' = ports_of entries ⊎ rights h /\
      Forall3 (entry_for (lc_page_size (host:=host))) specs entries worker_specs /\
      held (drop_entries entries h') = held h /\ rights (drop_entries entries h') = rights h
  end.
Proof.
  assert (forall h1 h2, owns [] h1 h2 -> held h2 = held h1 /\ rights h2 = rights h1) as Hnil.
  { intros h1 h2 [H1 H2]. unfold surfaces_of, ports_of in *. simpl in *. by rewrite H1, H2, !(left_id_L ∅ (⊎)). }
  unfold allocate_pools in E. destruct (_ >? _).
  { injection E as <- <-. done. }
  pose proof (allocate_each_ok specs [] [] h h r h' (owns_nil h) ltac:(constructor) E) as Hr.
  destruct r as [[es wss]|err]; [|by apply Hnil].
  destruct Hr as (Ho & new & nws & -> & -> & Hf). simpl in *. split_and!; [apply Ho|apply Ho|done|..];
    apply Hnil, drop_entries_ok; try done.
  all: clear -Hf; induction Hf as [|spec e ws ? ? ? [] _ IH]; constructor; auto.
Qed.
End ledger.

(** ** What the worker finds *)

Section reach.
Context {host : Type} `{!Frameworks host} `{!MachPorts host} `{!Profile}.
Implicit Types (m : machine host).

(** The task inherited the ports of the entries: behind each is a surface with the
    id the broker saw. *)
Fixpoint inherits (es : list OwnedIOSurfacePoolEntry) (ports : list Z) m (ss : list Z) m' : Prop :=
  match es, ports, ss with
  | [], [], [] => m' = m
  | e :: es, port :: ports, s :: ss => port <> 0 /\ s <> 0 /\ exists m1,
      IOSurfaceLookupFromMachPort port m = (s, m1) /\ inherits es ports m1 ss m' /\
      IOSurfaceGetID (mc_host m') s = oe_iosurface_id e
  | _, _, _ => False
  end.

Lemma load_inherited es : forall ports m ss m', inherits es ports m ss m' -> load_ports ports m = (ss, m').
Proof.
  induction es as [|e es IH]; intros [|port ports] m [|s ss] m' Hi; simpl in Hi; try contradiction.
  { by subst. }
  destruct Hi as (Hp & Hs & m1 & El & Hi & _). simpl. rewrite (proj2 (Z.eqb_neq _ _) Hp).
  unfold from_mach_port. rewrite El, (IH _ _ _ _ Hi), (proj2 (Z.eqb_neq _ _) Hs). done.
Qed.

Lemma inherited_ids es : forall ports m ss m', inherits es ports m ss m' ->
  Forall2 (fun e s => IOSurfaceGetID (mc_host m') s = oe_iosurface_id e) es ss.
Proof.
  induction es as [|e es IH]; intros [|port ports] m [|s ss] m' Hi; simpl in Hi; try contradiction.
  { constructor. }
  destruct Hi as (_ & _ & m1 & _ & Hi & Hid). constructor; [done|by eapply IH].
Qed.

(** The JSON the broker writes, read back by the worker. *)
Definition read_spec (ws : WorkerIOSurfacePoolSpec) : IOSurfacePoolSpec :=
  mk_IOSurfacePoolSpec (ws_width ws) (ws_height ws) (ws_pixel_format ws) (ws_slot_count ws) (ws_iosurface_id ws).

Definition entry_of (ws : WorkerIOSurfacePoolSpec) (s : Z) : DirectoryEntry :=
  mk_DirectoryEntry (mk_PoolShape (ws_width ws) (ws_height ws) (ws_pixel_format ws))
    (mk_IOSurfacePool (read_spec ws) s) false.

(** The first surface of the registry is the one the first spec names. *)
Lemma take_front m s ss : take_by_id m (mk_IOSurfaceRegistry (s :: ss)) (IOSurfaceGetID (mc_host m) s) =
  Some (s, mk_IOSurfaceRegistry ss).
Proof. unfold take_by_id. simpl. by rewrite Z.eqb_refl. Qed.

Lemma load_in_order m wss : forall ss acc,
  Forall2 (fun ws s => IOSurfaceGetID (mc_host m) s = ws_iosurface_id ws) wss ss ->
  foldl (load_spec m) (acc, mk_IOSurfaceRegistry ss) (read_spec <$> wss) =
    (acc ++ zip_with entry_of wss ss, mk_IOSurfaceRegistry []).
Proof.
  induction wss as [|ws wss IH]; intros [|s ss] acc Hf; try (by inversion Hf); simpl; [by rewrite app_nil_r|].
  inversion Hf as [|? ? ? ? Hid Hf']; subst. rewrite <- Hid, take_front, IH by done.
  by rewrite <- (assoc_L (++)).
Qed.
End reach.

Lemma zip_with_Forall2 {A A' A''} (f : A -> A' -> A'') l l' : length l = length l' ->
  Forall2 (fun x y => exists x', y = f x x') l (zip_with f l l').
Proof.
  revert l'. induction l as [|x l IH]; intros [|x' l'] E; try done; constructor; [by eexists|]. apply IH. by injection E.
Qed.

(** C16: the worker serves what the broker was asked for. Suppose the broker
    was asked for at least one pool, allocated and registered its pools and
    started the worker as [spawn_socket] does, with
    [VT_FERRY_HOST_WORKER_BACKEND] unset or "vt-real" in the broker's
    environment ([spawn_socket] passes another value on, and the worker then
    runs another backend); that the JSON the broker writes for the worker's
    specs is not empty and is read back as those specs (serde_json); and that
    the worker inherited the ports. Then the worker runs the VideoToolbox
    backend on a directory with one unclaimed entry for each pool, in order,
    of the pool's shape and slot count and with the surface the broker made
    for it. *)
Theorem broker_pools_reach_worker {bhost host} `{!Launcher bhost} `{!LauncherLaws bhost}
    `{!Frameworks host} `{!MachPorts host} `{!Profile}
    stat open_log to_json from_str env path socket specs (h h1 h2 : bhost) entries worker_specs cmd
    (m m1 m2 : machine host) ports surfaces
    (Hspecs : specs <> [])
    (Ealloc : allocate_pools specs h = Val (inl (entries, worker_specs), h1))
    (Ereg : register_ports entries h1 = Val (inl tt, h2))
    (Ecmd : spawn_socket stat open_log to_json env path worker_specs socket = inl cmd)
    (Henv : env ENV_BACKEND = None \/ env ENV_BACKEND = Some "vt-real"%string)
    (Hjson : to_json worker_specs <> EmptyString /\
       from_str (to_json worker_specs) = Some (read_spec <$> worker_specs))
    (Elook : mach_ports_lookup m = (Some ports, m1)) (Hin : inherits entries ports m1 surfaces m2) :
  exists dir, select_backend_factory from_str (cmd_env cmd) m = (VtRealBackendFactory dir, m2) /\
    Forall3 (fun spec e s => exists ws,
      e = entry_of ws s /\ de_shape e = mk_PoolShape (bp_width spec) (bp_height spec) (bp_pixel_format spec) /\
      ps_slot_count (ip_spec (de_pool e)) = bp_slot_count spec /\ de_claimed e = false)
      specs (dir_entries dir) surfaces.
Proof.
  pose proof (allocate_each_ok specs [] [] h h (inl (entries, worker_specs)) h1 (owns_nil h) ltac:(constructor)) as Hal.
  unfold allocate_pools in Ealloc. destruct (_ >? _); [done|]. specialize (Hal Ealloc).
  destruct Hal as (_ & new & nws & -> & -> & Hf). simpl in *.
  assert (nws <> []) as Hne by (intros ->; inversion Hf; by subst).
  unfold spawn_socket in Ecmd. destruct (validate_worker_path _ _) as [[]|]; [|done].
  destruct (from_option _ _ _); [done|].
  rewrite bool_decide_eq_false_2 in Ecmd by done. simpl in Ecmd. injection Ecmd as <-. simpl.
  unfold select_backend_factory.
  assert (set_var ENV_SPECS (to_json nws) (set_var ENV_BACKEND (default "vt-real"%string (env ENV_BACKEND)) env)
    ENV_BACKEND = Some "vt-real"%string) as -> by (by destruct Henv as [Eb|Eb]; unfold set_var; rewrite Eb).
  simpl. unfold load_from_registered_ports, lookup_registered_ports. rewrite Elook. simpl.
  rewrite (load_inherited _ _ _ _ _ Hin). unfold dir_load. destruct Hjson as [Hj1 Hj2].
  change (set_var ENV_SPECS ?v ?e "VT_FERRY_IOSURFACE_POOL_SPECS_JSON"%string) with (Some v).
  cbv iota. rewrite bool_decide_eq_false_2 by done. rewrite Hj2.
  pose proof (inherited_ids _ _ _ _ _ Hin) as Hids.
  assert (Forall2 (fun ws s => IOSurfaceGetID (mc_host m2) s = ws_iosurface_id ws) nws surfaces) as Hws.
  { clear -Hf Hids. revert surfaces Hids.
    induction Hf as [|spec e ws ? ? ? [_ _ _ _ ->] _ IH]; intros ss Hi; inversion Hi; subst; constructor; auto. }
  rewrite (load_in_order m2 nws surfaces []) by done. simpl. eexists. split; [done|]. simpl.
  clear -Hf Hws. revert surfaces Hws.
  induction Hf as [|spec e ws ? ? ? [_ _ _ _ ->] _ IH]; intros ss Hi; inversion Hi; subst; simpl; constructor; [|auto].
  eexists. by split_and!.
Qed.

(** ** Sizes *)

(** The allocation a surface is created with. *)
Definition declared_alloc (props : list (string * Z)) : option Z :=
  snd <$> List.find (fun x => bool_decide (x.1 = "kIOSurfaceAllocSize"%string)) props.

Lemma signed_nonneg n z : 0 < n -> 0 <= z < 2 ^ (n - 1) -> as_signed n z = z.
Proof.
  intros Hn Hz. unfold as_signed.
  assert (2 ^ n = 2 * 2 ^ (n - 1)) as -> by (rewrite <- Z.pow_succ_r by lia; f_equal; lia).
  rewrite Z.mod_small by lia. lia.
Qed.

Section sizes.
Context {host : Type} `{!Launcher host} `{!Profile}.

Lemma packed_sizes_run spec slot : 0 < bp_width spec < 2 ^ 29 -> 0 <= slot -> 0 < bp_slot_count spec ->
  pool_slot_alloc_size lc_page_size (bp_width spec) (bp_height spec) (bp_pixel_format spec) = Val (Some slot) ->
  slot * bp_slot_count spec + 4 * bp_width spec < 2 ^ 31 ->
  exists rows alloc, packed_sizes (host:=host) spec = Val (inl (slot * bp_slot_count spec, rows, alloc)) /\
    slot * bp_slot_count spec <= alloc < 2 ^ 31.
Proof.
  intros Hw Hs Hc Esl Ht. set (total := slot * bp_slot_count spec) in *.
  assert (0 <= total) by (unfold total; nia).
  unfold packed_sizes. rewrite Esl. simpl. fold total. unfold checked.
  assert (in_width 64 total = true) as -> by (unfold in_width; apply andb_true_iff; split; [apply Z.leb_le|apply Z.ltb_lt]; lia).
  rewrite arith_in by lia. simpl. rewrite (proj2 (Z.eqb_neq _ 0)) by lia.
  rewrite arith_in by lia. simpl. rewrite arith_in by lia. simpl.
  set (bpr := bp_width spec * 4). set (rows := (total + bpr - 1) / bpr).
  assert (bpr * rows <= total + bpr - 1) by (unfold rows; apply Z.mul_div_le; lia).
  assert (0 <= rows) by (apply Z.div_pos; lia). assert (rows < 2 ^ 32) by nia.
  assert (wrap 32 rows = rows) as -> by (unfold wrap; apply Z.mod_small; lia).
  rewrite arith_in by nia. simpl. do 2 eexists. split; [done|]. lia.
Qed.

(** C20: slots stay inside the surface. For an NV12 pool of at least one slot,
    of a width between 1 and 2^29 - 1 and a geometry whose layout fits 32
    bits, on a page size that is a power of two, whose slots take [slot] bytes
    each ([pool_slot_alloc_size]): if [slot] times the slot count plus four
    times the width is below 2^31 (the height of the surface is rounded up to
    a whole number of rows, so that the slots alone being below 2 GiB is not
    enough), the broker creates a surface, and the allocation it asks for
    covers every slot the worker cuts out of it: slot [i] starts at [i] times
    the [total_size] of the worker's layout and is that long. *)
Theorem broker_slots_in_surface k spec slot
    (Hk : 0 <= k < 63) (Hpage : lc_page_size (host:=host) = 2 ^ k)
    (Hfmt : bp_pixel_format spec = NV12_FOURCC)
    (Hfits : layout_fits (bp_width spec) (bp_height spec) NV12_FOURCC)
    (Hw : 0 < bp_width spec < 2 ^ 29) (Hc : 0 < bp_slot_count spec)
    (Hslot : pool_slot_alloc_size (2 ^ k) (bp_width spec) (bp_height spec) NV12_FOURCC = Val (Some slot))
    (Hsize : slot * bp_slot_count spec + 4 * bp_width spec < 2 ^ 31) :
  exists total rows alloc props layout n,
    packed_sizes (host:=host) spec = Val (inl (total, rows, alloc)) /\
    surface_properties (bp_width spec) rows alloc = Val props /\ declared_alloc props = Some n /\
    vtf_fill_buffer_layout (bp_width spec) (bp_height spec) NV12_FOURCC = Val layout /\
    forall i, 0 <= i < bp_slot_count spec -> i * bl_total_size layout + bl_total_size layout <= n.
Proof.
  destruct (broker_nv12_slot_suffices k _ _ Hk Hfits) as (alloc0 & E0 & Hle). rewrite Hslot in E0. injection E0 as <-.
  pose proof (stride_spec_bounds _ _ _ Hfits) as Hsb. pose proof Hfits as (Hw' & Hh' & Hs' & Ht').
  assert (0 <= total_spec (bp_width spec) (bp_height spec) NV12_FOURCC) as Hpos.
  { unfold total_spec. change (biplanar NV12_FOURCC) with true. cbv iota zeta.
    assert (0 <= bp_height spec / 2) by (apply Z.div_pos; lia). nia. }
  destruct (packed_sizes_run spec slot) as (rows & alloc & Ep & Ha); [done|lia|done|by rewrite Hpage, Hfmt|done|].
  assert (arith_i32 (as_signed 32 (bp_width spec) * 4) = Val (bp_width spec * 4)) as Eb.
  { rewrite signed_nonneg by lia. unfold arith_i32.
    by rewrite (proj2 (Z.leb_le _ _)), (proj2 (Z.ltb_lt _ _)) by lia. }
  do 6 eexists. split; [exact Ep|]. unfold surface_properties. rewrite Eb. split; [done|].
  split; [done|]. split; [by apply vtf_fill_buffer_layout_spec|]. intros i Hi.
  assert (bl_total_size (layout_spec (bp_width spec) (bp_height spec) NV12_FOURCC) =
    total_spec (bp_width spec) (bp_height spec) NV12_FOURCC) as -> by done.
  assert (0 <= slot * bp_slot_count spec) by nia.
  unfold cf_number_i64. rewrite (signed_nonneg 64), (signed_nonneg 32) by lia.
  simpl. set (t := total_spec _ _ _) in *.
  pose proof (Z.mul_le_mono_nonneg (i + 1) (bp_slot_count spec) t slot ltac:(lia) ltac:(lia) Hpos Hle). lia.
Qed.
End sizes.

(** A pool of 44 slots of 8K NV12 is larger: the allocation asked for is negative. *)
Example broker_alloc_truncated (page := 16384) (slot := 49766400) (total := slot * 44) :
  @pool_slot_alloc_size release_build page 7680 4320 NV12_FOURCC = Val (Some 49774592) /\
  cf_number_i64 (as_signed 64 total) = -2105245696.
Proof. split; by vm_compute. Qed.

(** ** The child's transport *)

Lemma digit_char d : 0 <= d < 10 ->
  Z.of_nat (Ascii.nat_of_ascii (Ascii.ascii_of_nat (48 + Z.to_nat d))) - 48 = d.
Proof. intros Hd. rewrite Ascii.nat_ascii_embedding by lia. lia. Qed.

Lemma parse_digit w a d cs : 0 <= a -> 0 <= d < 10 -> a * 10 + d < 2 ^ w ->
  parse_digits w a (Ascii.ascii_of_nat (48 + Z.to_nat d) :: cs) = parse_digits w (a * 10 + d) cs.
Proof.
  intros Ha Hd Hw. cbn [parse_digits]. rewrite digit_char by done.
  rewrite (proj2 (Z.leb_le 0 d)), (proj2 (Z.leb_le d 9)) by lia. unfold checked, in_width. simpl.
  by rewrite (proj2 (Z.leb_le 0 _)), (proj2 (Z.ltb_lt _ _)) by lia.
Qed.

(** Decimal text is read back. *)
Lemma decimal_read w fuel : forall n s, 0 <= n < 10 ^ Z.of_nat fuel -> (0 < fuel)%nat ->
  exists k, 0 < k /\ forall a, 0 <= a -> a * 10 ^ k + n < 2 ^ w ->
    parse_digits w a (String.list_ascii_of_string (decimal fuel n s)) =
    parse_digits w (a * 10 ^ k + n) (String.list_ascii_of_string s).
Proof.
  induction fuel as [|fuel IH]; intros n s Hn Hf; [lia|]. cbn [decimal].
  pose proof (Z.mod_pos_bound n 10 ltac:(lia)) as Hm.
  destruct (Z.ltb_spec n 10) as [Hlt|Hge].
  { exists 1. split; [lia|]. intros a Ha Hw. cbn [String.list_ascii_of_string].
    rewrite Z.mod_small in * by lia. rewrite parse_digit by lia. done. }
  rewrite Nat2Z.inj_succ, Z.pow_succ_r in Hn by lia. pose proof (Z_div_mod_eq_full n 10) as Hd.
  destruct (IH (n / 10) (String.String (Ascii.ascii_of_nat (48 + Z.to_nat (n mod 10))) s)) as (k & Hk & Hr).
  { split; [apply Z.div_pos; lia|apply Z.div_lt_upper_bound; lia]. }
  { destruct fuel; [simpl in Hn; lia|lia]. }
  exists (k + 1). split; [lia|]. intros a Ha Hw. rewrite Z.pow_add_r, Z.pow_1_r in * by lia.
  assert (0 <= a * 10 ^ k) by (apply Z.mul_nonneg_nonneg; [done|apply Z.pow_nonneg; lia]).
  rewrite Hr by lia. cbn [String.list_ascii_of_string]. rewrite parse_digit by lia. f_equal. lia.
Qed.

(** Text that starts with a digit. *)
Definition starts_with_digit (s : string) : Prop :=
  exists d s', (d < 10)%nat /\ s = String.String (Ascii.ascii_of_nat (48 + d)) s'.

Lemma decimal_starts fuel : forall n s, (0 < fuel)%nat \/ starts_with_digit s -> starts_with_digit (decimal fuel n s).
Proof.
  induction fuel as [|fuel IH]; intros n s Hs; [by destruct Hs; [lia|]|]. cbn [decimal].
  assert (starts_with_digit (String.String (Ascii.ascii_of_nat (48 + Z.to_nat (n mod 10))) s)) as Hd.
  { pose proof (Z.mod_pos_bound n 10 ltac:(lia)). do 2 eexists. split; [|done]. lia. }
  destruct (n <? 10); [done|]. apply IH. by right.
Qed.

Lemma port_text port : 0 <= port < 2 ^ 16 -> parse_unsigned 16 (to_string port) = Some port.
Proof.
  intros Hp. destruct (decimal_read 16 20 port EmptyString) as (k & Hk & Hr); [lia|lia|].
  specialize (Hr 0 ltac:(lia) ltac:(lia)). rewrite Z.mul_0_l, Z.add_0_l in Hr.
  destruct (decimal_starts 20 port EmptyString) as (d & s & Hd & E); [by left; lia|].
  unfold parse_unsigned, to_string. rewrite E in Hr |- *. cbn [String.list_ascii_of_string] in *.
  match goal with |- context [Ascii.eqb ?c ?plus] => assert (Ascii.eqb c plus = false) as -> end.
  { do 10 (destruct d as [|d]; [reflexivity|]). lia. }
  exact Hr.
Qed.

Lemma child_selects_bridge env host port : 0 <= port < 2 ^ 16 ->
  stream_selection_from_env (tcp_child_env host port env) = Some (Tcp host port).
Proof.
  intros Hp. unfold stream_selection_from_env, tcp_endpoint_from_env, tcp_child_env, set_var.
  repeat (rewrite bool_decide_eq_true_2 by done || rewrite bool_decide_eq_false_2 by done). simpl.
  by rewrite port_text.
Qed.

(** ** Waiting *)

Section waiting.
Context {os : Type} `{!Sockets os}.
Context (clock_connect : forall path o r o', so_connect path o = (r, o') -> so_now o <= so_now o')
  (clock_sleep : forall ms o, 0 <= ms -> so_now o + ms <= so_now (so_sleep ms o)).

Lemma connect_loop_ends fuel path start timeout : forall last o,
  Z.max 0 (start + timeout - so_now o) + 10 <= 10 * Z.of_nat fuel ->
  exists r o', connect_loop fuel path start timeout last o = (Some r, o') /\
    match r with
    | inl _ => so_now o - start < timeout
    | inr e => retriable e = true \/ (exists o1, fst (so_connect path o1) = inr e) \/
        e = default TimedOut last /\ timeout <= so_now o - start
    end.
Proof.
  induction fuel as [|fuel IH]; intros last o Hf; [lia|]. cbn [connect_loop].
  destruct (Z.ltb_spec (so_now o - start) timeout) as [Hlt|Hge].
  2: { do 2 eexists. split; [done|]. right. by right. }
  destruct (so_connect path o) as [[s|e] o1] eqn:Ec; [by do 2 eexists|].
  destruct (retriable e) eqn:Er.
  2: { do 2 eexists. split; [done|]. right. left. exists o. by rewrite Ec. }
  pose proof (clock_connect _ _ _ _ Ec). pose proof (clock_sleep 10 o1 ltac:(lia)).
  destruct (IH (Some e) (so_sleep 10 o1)) as (r & o' & E & Hr); [lia|].
  exists r, o'. split; [done|]. destruct r as [s|e']; [lia|]. destruct Hr as [Hr|[Hr|[-> _]]]; auto.
Qed.

(** The bridge's retries end.  With a clock that never goes back and a sleep
    that lasts at least as long as asked, [connect_worker_with_retry] returns after
    at most one attempt per 10 ms of its timeout, whatever the connection attempts
    answer: it returns a stream, or the error of an attempt, or, when no attempt was
    made, that it timed out; and it waits only on errors of a worker not ready. *)
Theorem connect_retry_ends path timeout (o : os) (fuel : nat)
    (Ht : 0 <= timeout) (Hf : timeout + 10 <= 10 * Z.of_nat fuel) :
  exists r o', connect_worker_with_retry fuel path timeout o = (Some r, o') /\
    match r with
    | inl _ => 0 < timeout
    | inr e => retriable e = true \/ (exists o1, fst (so_connect path o1) = inr e) \/
        e = TimedOut /\ timeout = 0
    end.
Proof.
  destruct (connect_loop_ends fuel path (so_now o) timeout None o) as (r & o' & E & Hr); [lia|].
  exists r, o'. split; [done|]. destruct r as [s|e]; [lia|].
  destruct Hr as [Hr|[Hr|[-> Hle]]]; [auto..|]. right. right. split; [done|lia].
Qed.
End waiting.

(** ** A concrete launch

    A host that numbers surfaces and ports upwards. *)

Record demo_host := mk_demo_host { dh_next : positive; dh_held : gmultiset Z; dh_rights : gmultiset Z }.

#[local] Instance demo_launcher : Launcher demo_host := {|
  lc_page_size := 16384;
  lc_surface_create _ h := (Z.pos (dh_next h),
    mk_demo_host (Pos.succ (dh_next h)) ({[+ Z.pos (dh_next h) +]} ⊎ dh_held h) (dh_rights h));
  lc_surface_id _ s := s + 1000;
  lc_create_mach_port s h := (Z.pos (dh_next h),
    mk_demo_host (Pos.succ (dh_next h)) (dh_held h) ({[+ Z.pos (dh_next h) +]} ⊎ dh_rights h));
  lc_release s h := mk_demo_host (dh_next h) (dh_held h ∖ {[+ s +]}) (dh_rights h);
  lc_port_deallocate p h := mk_demo_host (dh_next h) (dh_held h) (dh_rights h ∖ {[+ p +]});
  lc_ports_register _ h := (0, h)
|}.

#[local] Instance demo_laws : LauncherLaws demo_host.
Proof.
  refine {| held := dh_held; rights := dh_rights |}; try done.
  - intros props h s h' [= <- <-]. done.
  - intros s h p h' [= <- <-]. done.
  - intros ports h kr h' [= <- <-]. done.
Defined.
#[local] Instance demo_profile : Profile := release_build.

Definition demo_spec : PoolSpec := mk_PoolSpec 0 16 1920 1080 NV12_FOURCC true.
Definition demo_start : demo_host := mk_demo_host 1 ∅ ∅.

(** The second pool is refused: the first one is given back. *)
Lemma allocate_pools_conserves_witness : exists h',
  allocate_pools [demo_spec; mk_PoolSpec 0 4 64 64 0 true] demo_start =
    Val (inr (UnsupportedFormat 0), h') /\ held h' = ∅ /\ rights h' = ∅.
Proof.
  assert (exists h', allocate_pools [demo_spec; mk_PoolSpec 0 4 64 64 0 true] demo_start =
    Val (inr (UnsupportedFormat 0), h')) as [h' E] by (eexists; by vm_compute).
  exists h'. split; [exact E|exact (allocate_pools_conserves _ _ _ _ E)].
Defined.

Lemma broker_slots_in_surface_witness : exists total rows alloc props layout n,
  packed_sizes (host:=demo_host) demo_spec = Val (inl (total, rows, alloc)) /\
  surface_properties 1920 rows alloc = Val props /\ declared_alloc props = Some n /\
  vtf_fill_buffer_layout 1920 1080 NV12_FOURCC = Val layout /\
  forall i, 0 <= i < 16 -> i * bl_total_size layout + bl_total_size layout <= n.
Proof.
  apply (broker_slots_in_surface 14 demo_spec 3112960);
    try done; vm_compute; intuition congruence.
Defined.

(** A worker not ready for 30 ms. *)
#[local] Instance demo_sockets : Sockets Z := {|
  so_connect _ now := (if now <? 30 then inr ConnectionRefused else inl 7, now);
  so_now now := now;
  so_sleep ms now := now + ms
|}.

Lemma connect_retry_ends_witness : exists r o',
  connect_worker_with_retry 501 "w.sock" 5000 0 = (Some r, o') /\
  match r with
  | inl _ => 0 < 5000
  | inr e => retriable e = true \/ (exists o1, fst (so_connect (os:=Z) "w.sock" o1) = inr e) \/
      e = TimedOut /\ 5000 = 0
  end.
Proof.
  apply (connect_retry_ends (os:=Z)); [|done|done|done].
  intros path o r o' [= _ <-]. done.
Defined.

(** The worker's end: port 2 leads to surface 1001. *)
#[local] Instance demo_mach : MachPorts sim := {|
  mach_ports_lookup m := (Some [2], m);
  IOSurfaceLookupFromMachPort port m := (port + 999, m)
|}.

Definition demo_worker_specs : list WorkerIOSurfacePoolSpec :=
  [mk_WorkerIOSurfacePoolSpec 1920 1080 NV12_FOURCC 16 1001].
Definition demo_machine : machine sim := mk_machine sim_init (fun _ => Byte.x00).
Definition demo_to_json (_ : list WorkerIOSurfacePoolSpec) : string := "[...]".
Definition demo_from_str (_ : string) : option (list IOSurfacePoolSpec) := Some (read_spec <$> demo_worker_specs).

Lemma broker_pools_reach_worker_witness : exists cmd dir,
  spawn_socket (fun _ => Some (mk_metadata true 73)) (fun _ => true) demo_to_json (fun _ => None) "/w"
    demo_worker_specs "s" = inl cmd /\
  select_backend_factory demo_from_str (cmd_env cmd) demo_machine = (VtRealBackendFactory dir, demo_machine) /\
  length (dir_entries dir) = 1%nat.
Proof.
  assert (exists entries h1 h2 cmd, allocate_pools [demo_spec] demo_start = Val (inl (entries, demo_worker_specs), h1) /\
    register_ports entries h1 = Val (inl tt, h2) /\
    spawn_socket (fun _ => Some (mk_metadata true 73)) (fun _ => true) demo_to_json (fun _ => None) "/w"
      demo_worker_specs "s" = inl cmd /\
    inherits entries [2] demo_machine [1001] demo_machine) as (entries & h1 & h2 & cmd & Ea & Er & Ec & Hin).
  { do 4 eexists. split; [by vm_compute|]. split; [by vm_compute|]. split; [reflexivity|].
    simpl. split_and!; [done|done|]. eexists. by split_and!. }
  destruct (broker_pools_reach_worker _ _ _ demo_from_str _ _ _ [demo_spec] demo_start h1 h2 entries
    demo_worker_specs cmd demo_machine demo_machine demo_machine [2] [1001] ltac:(done) Ea Er Ec)
    as (dir & E & Hf); [by left|done|done|exact Hin|].
  exists cmd, dir. split_and!; [exact Ec|exact E|]. by rewrite <- (Forall3_length_lm _ _ _ _ Hf).
Defined.
