(* ===== verification/Bridge.v ===== *)
(** * The TCP bridge

    [tcp_bridge.rs]: a thread accepts connections until it is stopped; each
    connection is given a connection to the worker's socket and two threads that
    copy bytes, one a direction, and close the writing side when they are done.
    A socket holds a bounded number of bytes: a write waits while its peer does not
    read.  The threads of one connection, the guest and the worker's connection loop
    ([serve_one] of [Server]) take steps in any order; so do the accepting thread,
    the clients and the thread that drops the bridge's handle. *)

From S2P Require Import Prelude Wire Protocol Backend Stub Server Broker.
From stdpp Require Import strings relations.

Set Default Goal Selector "!".
Open Scope Z_scope.

(** ** One direction *)

(** The stack buffer of [io::copy]. *)
Definition DEFAULT_BUF_SIZE : nat := Z.to_nat (8 * 1024).

(** Where the thread is: in [read], in [write_all] with the bytes still to write,
    after [io::copy] returned ([Some n]: [Ok(n)]), after [shutdown(Write)]. *)
Inductive copy_pc :=
| Copying
| Writing (rest : list byte)
| Copied (result : option Z)
| Finished (result : option Z).

(** [rl_sent] is all the reader's peer ever sent, the first [rl_read] bytes of it are
    read, [rl_fin] its end of file; [rl_out] is what the writer's peer was given and
    [rl_shut] its end of file. *)
Record relay := mk_relay {
  rl_sent : list byte;
  rl_fin : bool;
  rl_read : nat;
  rl_pc : copy_pc;
  rl_total : Z;
  rl_out : list byte;
  rl_shut : bool
}.

Definition relay_start : relay := mk_relay [] false 0 Copying 0 [] false.

(** The peer sends, and closes its sending side. *)
Definition rl_send (bs : list byte) (r : relay) : relay :=
  mk_relay (rl_sent r ++ bs) (rl_fin r) (rl_read r) (rl_pc r) (rl_total r) (rl_out r) (rl_shut r).
Definition rl_close (r : relay) : relay :=
  mk_relay (rl_sent r) true (rl_read r) (rl_pc r) (rl_total r) (rl_out r) (rl_shut r).

Definition rl_at (pc : copy_pc) (r : relay) : relay :=
  mk_relay (rl_sent r) (rl_fin r) (rl_read r) pc (rl_total r) (rl_out r) (rl_shut r).

(** What the next call of the thread does. *)
Inductive relay_event :=
| ReadSome (n : nat)
| ReadEof
| ReadInterrupted
| ReadErr
| WriteSome (n : nat)
| WriteInterrupted
| WriteErr
| ShutdownWrite.

(** One call of [io::copy]'s loop, or the [shutdown] after it; the writer's socket takes
    [room] more bytes now.  [None]: the thread is elsewhere, or blocked. *)
Definition relay_step (room : nat) (e : relay_event) (r : relay) : option relay :=
  match rl_pc r, e with
  | Copying, ReadSome n =>
      if (0 <? n)%nat && (n <=? DEFAULT_BUF_SIZE)%nat && (rl_read r + n <=? length (rl_sent r))%nat then
        Some (mk_relay (rl_sent r) (rl_fin r) (rl_read r + n)
                (Writing (slice (rl_read r) n (rl_sent r))) (rl_total r + Z.of_nat n)
                (rl_out r) (rl_shut r))
      else None
  | Copying, ReadEof =>
      if rl_fin r && (rl_read r =? length (rl_sent r))%nat
      then Some (rl_at (Copied (Some (rl_total r))) r) else None
  | Copying, ReadInterrupted => Some r
  | Copying, ReadErr => Some (rl_at (Copied None) r)
  | Writing rest, WriteSome n =>
      if (0 <? n)%nat && (n <=? length rest)%nat && (n <=? room)%nat then
        Some (mk_relay (rl_sent r) (rl_fin r) (rl_read r)
                (if (n =? length rest)%nat then Copying else Writing (drop n rest))
                (rl_total r) (rl_out r ++ take n rest) (rl_shut r))
      else None
  | Writing _, WriteInterrupted => Some r
  | Writing _, WriteErr => Some (rl_at (Copied None) r)
  | Copied result, ShutdownWrite =>
      Some (mk_relay (rl_sent r) (rl_fin r) (rl_read r) (Finished result) (rl_total r) (rl_out r) true)
  | _, _ => None
  end.

(** ** A bridged connection *)

(** What the worker does when its reply is written: the next iteration, from byte [pos] of
    its input, or the end of its thread. *)
Inductive worker_next (B : Type) :=
| NextRequest (b : B) (buf : list byte) (pos : nat)
| EndThread (b : option B).
Arguments NextRequest {B}.
Arguments EndThread {B}.

(** The worker's thread: in [read_exact], with the bytes from [pos] to [taken] of its input
    read for the request at hand; in [write_all] with the bytes still to write; or ended.
    [clean]: no write failed. *)
Inductive worker_pc (B : Type) :=
| Serving (b : B) (buf : list byte) (pos taken : nat)
| Answering (next : worker_next B) (taken : nat) (rest : list byte)
| Ended (clean : bool) (b : option B).
Arguments Serving {B}.
Arguments Answering {B}.
Arguments Ended {B}.

(** [cn_seen]: how much of what the bridge sent the guest has read. *)
Record conn (B : Type) := mk_conn {
  cn_up : relay;
  cn_worker : worker_pc B;
  cn_down : relay;
  cn_seen : nat
}.
Arguments mk_conn {B}.
Arguments cn_up {B}.
Arguments cn_worker {B}.
Arguments cn_down {B}.
Arguments cn_seen {B}.

Inductive conn_event :=
| GuestSends (bs : list byte)
| GuestCloses
| GuestReads (n : nat)
| Upstream (e : relay_event)
| WorkerReads (n : nat)
| WorkerServes
| WorkerWrites (n : nat)
| WorkerWriteErr
| WorkerEof
| Downstream (e : relay_event).

(** How many bytes the sockets hold: of the worker, of the bridge towards the worker, of
    the guest. *)
Record windows := mk_windows {
  win_worker : nat;
  win_bridge : nat;
  win_guest : nat
}.

Section bridge.
Context {B : Type} `{Backend B} `{Profile}.
Context (capacity : Z) (win : windows).

(** The bytes at hand are a part of a request only: the worker waits for more. *)
Definition starved (bs : list byte) : bool :=
  (length bs <? size_of MessageHeader)%nat ||
  (let h := pod_read_unaligned (A:=MessageHeader) (take (size_of MessageHeader) bs) in
   (mh_payload_len h <=? capacity) && (len (drop (size_of MessageHeader) bs) <? mh_payload_len h)).

(** How many more bytes the [read_exact] at hand asks for. *)
Definition wanted (bs : list byte) : nat :=
  if (length bs <? size_of MessageHeader)%nat then size_of MessageHeader - length bs
  else
    let h := pod_read_unaligned (A:=MessageHeader) (take (size_of MessageHeader) bs) in
    if mh_payload_len h <=? capacity
    then Z.to_nat (mh_payload_len h) - (length bs - size_of MessageHeader)
    else 0.

(** The room in the three sockets that are written to: none in a closed one. *)
Definition worker_room (c : conn B) : nat :=
  match cn_worker c with
  | Serving _ _ _ taken | Answering _ taken _ => win_worker win - (length (rl_out (cn_up c)) - taken)
  | Ended _ _ => 0
  end.
Definition bridge_room (c : conn B) : nat :=
  win_bridge win - (length (rl_sent (cn_down c)) - rl_read (cn_down c)).
Definition guest_room (c : conn B) : nat :=
  win_guest win - (length (rl_out (cn_down c)) - cn_seen c).

Definition set_worker (w : worker_pc B) (c : conn B) : conn B :=
  mk_conn (cn_up c) w (cn_down c) (cn_seen c).

(** The thread ends, its socket is closed. *)
Definition worker_ends (clean : bool) (b : option B) (c : conn B) : conn B :=
  mk_conn (cn_up c) (Ended clean b) (rl_close (cn_down c)) (cn_seen c).

(** The reply is written. *)
Definition worker_answered (next : worker_next B) (c : conn B) : conn B :=
  match next with
  | NextRequest b buf pos => set_worker (Serving b buf pos pos) c
  | EndThread b => worker_ends true b c
  end.

(** Some bytes arrive in the buffers of [read_exact]. *)
Definition worker_reads (n : nat) (c : conn B) : option (conn B) :=
  match cn_worker c with
  | Serving b buf pos taken =>
      if (0 <? n)%nat && (taken + n <=? length (rl_out (cn_up c)))%nat &&
         (n <=? wanted (slice pos (taken - pos) (rl_out (cn_up c))))%nat
      then Some (set_worker (Serving b buf pos (taken + n)) c) else None
  | _ => None
  end.

(** An iteration of the worker's loop on the request it has read, up to the writes. *)
Definition worker_serves (c : conn B) : option (conn B) :=
  match cn_worker c with
  | Serving b buf pos taken =>
      let input := slice pos (taken - pos) (rl_out (cn_up c)) in
      if starved input then None else
      let '(next, reply) :=
        match serve_one capacity b buf (Stream input [] None) with
        | Continue b' buf' st => (NextRequest b' buf' (taken - length (rx st)), tx st)
        | Break e => (EndThread (end_state e), tx (end_stream e))
        end in
      Some (match reply with
            | [] => worker_answered next c
            | _ => set_worker (Answering next taken reply) c
            end)
  | _ => None
  end.

(** A part of the reply is written. *)
Definition worker_writes (n : nat) (c : conn B) : option (conn B) :=
  match cn_worker c with
  | Answering next taken rest =>
      if (0 <? n)%nat && (n <=? length rest)%nat && (n <=? bridge_room c)%nat then
        let c := mk_conn (cn_up c) (cn_worker c) (rl_send (take n rest) (cn_down c)) (cn_seen c) in
        Some (if (n =? length rest)%nat then worker_answered next c
              else set_worker (Answering next taken (drop n rest)) c)
      else None
  | _ => None
  end.

(** A write fails: the loop ends, the state is the one the dispatch left. *)
Definition worker_write_err (c : conn B) : option (conn B) :=
  match cn_worker c with
  | Answering next _ _ =>
      Some (worker_ends false
              (match next with NextRequest b _ _ => Some b | EndThread b => b end) c)
  | _ => None
  end.

(** [read_exact] meets the end of file. *)
Definition worker_eof (c : conn B) : option (conn B) :=
  match cn_worker c with
  | Serving b buf pos taken =>
      if starved (slice pos (taken - pos) (rl_out (cn_up c))) &&
         (taken =? length (rl_out (cn_up c)))%nat && rl_shut (cn_up c)
      then Some (worker_ends true (Some b) c)
      else None
  | _ => None
  end.

Definition conn_step (e : conn_event) (c : conn B) : option (conn B) :=
  match e with
  | GuestSends bs =>
      if rl_fin (cn_up c) then None
      else Some (mk_conn (rl_send bs (cn_up c)) (cn_worker c) (cn_down c) (cn_seen c))
  | GuestCloses => Some (mk_conn (rl_close (cn_up c)) (cn_worker c) (cn_down c) (cn_seen c))
  | GuestReads n =>
      if (0 <? n)%nat && (cn_seen c + n <=? length (rl_out (cn_down c)))%nat
      then Some (mk_conn (cn_up c) (cn_worker c) (cn_down c) (cn_seen c + n)) else None
  | Upstream e =>
      (fun r => mk_conn r (cn_worker c) (cn_down c) (cn_seen c)) <$> relay_step (worker_room c) e (cn_up c)
  | WorkerReads n => worker_reads n c
  | WorkerServes => worker_serves c
  | WorkerWrites n => worker_writes n c
  | WorkerWriteErr => worker_write_err c
  | WorkerEof => worker_eof c
  | Downstream e =>
      (fun r => mk_conn (cn_up c) (cn_worker c) r (cn_seen c)) <$> relay_step (guest_room c) e (cn_down c)
  end.

(** Both threads started, the worker's thread at the start of its loop. *)
Definition conn_start (env : environ) : conn B :=
  mk_conn relay_start
    (Serving (start env) (replicate (Z.to_nat capacity) Byte.x00) 0 0) relay_start 0.

Fixpoint conn_run (es : list conn_event) (c : conn B) : option (conn B) :=
  match es with
  | [] => Some c
  | e :: es => c' ← conn_step e c; conn_run es c'
  end.
End bridge.

(** ** Setting a connection up

    The socket options, [try_clone] and the closing of a descriptor, beside the calls of
    [Sockets]. *)
Class BridgeSockets (os : Type) `{!Sockets os} := {
  bs_set_blocking (stream : Z) : os -> bool * os;
  bs_set_nodelay (stream : Z) : os -> bool * os;
  bs_try_clone (stream : Z) : os -> option Z * os;
  bs_close (stream : Z) : os -> os
}.

Inductive bridge_error := OptionFailed | NoWorker (e : connect_error) | CloneFailed.

Section setup.
Context {os : Type} `{!Sockets os} `{!BridgeSockets os}.

(** [return Err] closes the streams at hand. *)
Definition fail_closing {A} (e : bridge_error) (streams : list Z) (o : os) : option (A + bridge_error) * os :=
  (Some (inr e), foldr bs_close o streams).

(** [bridge_connection] up to the threads: [tcp_read], [tcp_write], [unix_read] and
    [unix_write], or the error.  [None]: out of fuel. *)
Definition bridge_setup (fuel : nat) (tcp : Z) (worker_socket : string) (o : os)
    : option ((Z * Z * Z * Z) + bridge_error) * os :=
  match bs_set_blocking tcp o with
  | (false, o) => fail_closing OptionFailed [tcp] o
  | (true, o) =>
  match bs_set_nodelay tcp o with
  | (false, o) => fail_closing OptionFailed [tcp] o
  | (true, o) =>
  match connect_worker_with_retry fuel worker_socket 5000 o with
  | (None, o) => (None, o)
  | (Some (inr e), o) => fail_closing (NoWorker e) [tcp] o
  | (Some (inl unix), o) =>
  match bs_try_clone tcp o with
  | (None, o) => fail_closing CloneFailed [tcp; unix] o
  | (Some tcp_read, o) =>
  match bs_try_clone unix o with
  | (None, o) => fail_closing CloneFailed [unix; tcp_read; tcp] o
  | (Some unix_read, o) => (Some (inl (tcp_read, tcp, unix_read, unix)), o)
  end end end end end.
End setup.

(** ** Accepting and stopping *)

(** Where [accept_loop] is: at the [while] condition, in [accept], before its second look
    at [running], spawning a connection's thread, asleep, returned. *)
Inductive accept_pc :=
| AtWhile
| AtAccept
| Accepted (stream : Z)
| Spawning (stream : Z)
| Sleeping
| Returned.

(** Where [drop] is: not called, after the store, after the connection to itself (in
    [join]), returned. *)
Inductive drop_pc := NotDropped | Stored | Joining | Dropped.

(** [li_clients] are the connections made, in order; [li_backlog] those not accepted yet,
    [li_bridged] those given a thread, [li_closed] those closed without one. *)
Record bridge_listener := mk_bridge_listener {
  li_running : bool;
  li_clients : list Z;
  li_backlog : list Z;
  li_accept : accept_pc;
  li_bridged : list Z;
  li_closed : list Z;
  li_drop : drop_pc
}.

Definition accept_at (pc : accept_pc) (l : bridge_listener) : bridge_listener :=
  mk_bridge_listener (li_running l) (li_clients l) (li_backlog l) pc (li_bridged l) (li_closed l) (li_drop l).

(** [accept_loop] returns, the listener is dropped and its backlog closed with it. *)
Definition accept_return (held : list Z) (l : bridge_listener) : bridge_listener :=
  mk_bridge_listener (li_running l) (li_clients l) [] Returned (li_bridged l)
    (li_closed l ++ held ++ li_backlog l) (li_drop l).

Inductive start_error := BindFailed | NonblockingFailed | NoAddress.

(** [TcpBridgeHandle::start]: the results of [bind], [set_nonblocking] and [local_addr]. *)
Definition bridge_start (bound nonblocking : bool) (local_addr : option Z) : (Z * bridge_listener) + start_error :=
  if negb bound then inr BindFailed else
  if negb nonblocking then inr NonblockingFailed else
  match local_addr with
  | None => inr NoAddress
  | Some addr => inl (addr, mk_bridge_listener true [] [] AtWhile [] [] NotDropped)
  end.

(** A step of the accepting thread; [fails]: [accept] returns an error other than
    [WouldBlock]. *)
Definition accept_step (fails : bool) (l : bridge_listener) : option bridge_listener :=
  match li_accept l with
  | AtWhile => Some (if li_running l then accept_at AtAccept l else accept_return [] l)
  | AtAccept =>
      if fails then Some (accept_return [] l) else
      match li_backlog l with
      | stream :: backlog =>
          Some (mk_bridge_listener (li_running l) (li_clients l) backlog (Accepted stream)
                  (li_bridged l) (li_closed l) (li_drop l))
      | [] => Some (accept_at Sleeping l)
      end
  | Accepted stream =>
      Some (if negb (li_running l) then accept_return [stream] l else accept_at (Spawning stream) l)
  | Spawning stream =>
      Some (mk_bridge_listener (li_running l) (li_clients l) (li_backlog l) AtWhile
              (li_bridged l ++ [stream]) (li_closed l) (li_drop l))
  | Sleeping => Some (accept_at AtWhile l)
  | Returned => None
  end.

(** A connection reaches the listening socket. *)
Definition client_connects (stream : Z) (l : bridge_listener) : option bridge_listener :=
  match li_accept l with
  | Returned => None
  | pc => Some (mk_bridge_listener (li_running l) (li_clients l ++ [stream]) (li_backlog l ++ [stream])
                  pc (li_bridged l) (li_closed l) (li_drop l))
  end.

Definition drop_at (pc : drop_pc) (l : bridge_listener) : bridge_listener :=
  mk_bridge_listener (li_running l) (li_clients l) (li_backlog l) (li_accept l) (li_bridged l) (li_closed l) pc.

(** A step of [Drop for TcpBridgeHandle]; [wake] is its connection to itself, when that
    succeeds. *)
Definition drop_step (wake : option Z) (l : bridge_listener) : option bridge_listener :=
  match li_drop l with
  | NotDropped =>
      Some (mk_bridge_listener false (li_clients l) (li_backlog l) (li_accept l) (li_bridged l)
              (li_closed l) Stored)
  | Stored =>
      Some (drop_at Joining
              (default l (stream ← wake; client_connects stream l)))
  | Joining => match li_accept l with Returned => Some (drop_at Dropped l) | _ => None end
  | Dropped => None
  end.

Inductive listen_event :=
| ClientConnects (stream : Z)
| AcceptThread (fails : bool)
| DropThread (wake : option Z).

Definition listen_step (e : listen_event) (l : bridge_listener) : option bridge_listener :=
  match e with
  | ClientConnects stream => client_connects stream l
  | AcceptThread fails => accept_step fails l
  | DropThread wake => drop_step wake l
  end.

Fixpoint listen_run (es : list listen_event) (l : bridge_listener) : option bridge_listener :=
  match es with
  | [] => Some l
  | e :: es => l' ← listen_step e l; listen_run es l'
  end.
