(* ===== verification/BridgeProps.v ===== *)
(** * What the bridge promises

    A bridged connection behaves as a direct one ([bridge_transparent]), ends once the
    guest has closed it ([bridge_drains]) and leaks no descriptor
    ([bridge_setup_balanced]); the accepting thread stops when the handle is dropped
    ([bridge_stops]). *)

From S2P Require Import Prelude Wire Protocol Backend Stub Server Broker BrokerProps Bridge.
From Stdlib Require Import Relation_Operators Wellfounded.
From stdpp Require Import strings relations gmultiset.

Set Default Goal Selector "!".
Open Scope Z_scope.

(** ** The relay delivers what was sent *)

Ltac fields := cbn [rl_sent rl_fin rl_read rl_pc rl_total rl_out rl_shut rl_at rl_send rl_close] in *.

Ltac natbool :=
  repeat match goal with
  | E : _ && _ = true |- _ => apply andb_true_iff in E as [? ?]
  | E : (_ <? _)%nat = true |- _ => apply Nat.ltb_lt in E
  | E : (_ <=? _)%nat = true |- _ => apply Nat.leb_le in E
  | E : (_ =? _)%nat = true |- _ => apply Nat.eqb_eq in E
  | E : (_ =? _)%nat = false |- _ => apply Nat.eqb_neq in E
  end.

Definition relay_ok (r : relay) : Prop :=
  (rl_read r <= length (rl_sent r))%nat /\
  match rl_pc r with
  | Copying => rl_out r = take (rl_read r) (rl_sent r) /\ rl_total r = Z.of_nat (rl_read r) /\ rl_shut r = false
  | Writing rest =>
      rl_out r ++ rest = take (rl_read r) (rl_sent r) /\ rest <> [] /\
      rl_total r = Z.of_nat (rl_read r) /\ rl_shut r = false
  | Copied (Some n) => rl_fin r = true /\ rl_out r = rl_sent r /\ n = len (rl_sent r) /\ rl_shut r = false
  | Finished (Some n) => rl_fin r = true /\ rl_out r = rl_sent r /\ n = len (rl_sent r) /\ rl_shut r = true
  | Copied None => rl_out r `prefix_of` rl_sent r /\ rl_shut r = false
  | Finished None => rl_out r `prefix_of` rl_sent r /\ rl_shut r = true
  end.

Lemma relay_start_ok : relay_ok relay_start.
Proof. by split; [cbn; lia|]. Qed.

Lemma relay_prefix r : relay_ok r -> rl_out r `prefix_of` rl_sent r.
Proof.
  intros [Hr Hp]. destruct (rl_pc r) as [|rest|[n|]|[n|]]; try (by apply Hp); try (by destruct Hp as (_ & -> & _)).
  - destruct Hp as [-> _]. apply prefix_take.
  - destruct Hp as [Ho _]. etrans; [|apply (prefix_take _ (rl_read r))]. rewrite <- Ho. by apply prefix_app_r.
Qed.

(** A call of the thread keeps the invariant; what the writer's peer was given only
    grows, and not after its end of file. *)
Lemma relay_step_ok room e r r' : relay_ok r -> relay_step room e r = Some r' ->
  relay_ok r' /\ rl_sent r' = rl_sent r /\ rl_fin r' = rl_fin r /\
  exists w, rl_out r' = rl_out r ++ w /\ (rl_shut r = true -> w = []) /\
    (rl_shut r = true -> rl_shut r' = true).
Proof.
  intros Hok. pose proof (relay_prefix r Hok) as Hpre. destruct Hok as [Hr Hp].
  destruct r as [sent fin rd pc total out shut]. unfold relay_step. fields.
  destruct pc as [|rest|res|res], e; try discriminate; intros E;
    repeat match goal with
           | E : (if ?b then _ else _) = Some _ |- _ => destruct b eqn:?; [|discriminate]
           | E : context [if ?b then Copying else _] |- _ => destruct b eqn:?
           end; simplify_eq;
    natbool; unfold relay_ok; fields.
  - destruct Hp as (-> & -> & ->). split; [|by split_and!; [..|exists []; rewrite app_nil_r]].
    split; [lia|]. split_and!; [|intros Hn|lia|done].
    + unfold slice. rewrite <- take_take_drop. done.
    + apply (f_equal length) in Hn. unfold slice in Hn. rewrite length_take, length_drop, length_nil in Hn. lia.
  - destruct Hp as (-> & -> & ->). split; [|by split_and!; [..|exists []; rewrite app_nil_r]].
    split; [lia|]. rewrite take_ge by lia. split_and!; [done|done|lia|done].
  - destruct Hp as (-> & -> & ->). by split; [|split_and!; [..|exists []; rewrite app_nil_r]].
  - destruct Hp as (-> & -> & ->). split; [|by split_and!; [..|exists []; rewrite app_nil_r]]. done.
  - destruct Hp as (Ho & _ & -> & ->). assert (n = length rest) as -> by done.
    rewrite take_ge by lia. split; [|by split_and!; [..|eexists]]. done.
  - destruct Hp as (Ho & _ & -> & ->). split; [|by split_and!; [..|eexists]].
    split; [done|]. rewrite <- app_assoc, take_drop. split_and!; [done| |done|done].
    intros Hn. apply (f_equal length) in Hn. rewrite length_drop, length_nil in Hn. lia.
  - destruct Hp as (Ho & ? & -> & ->). by split; [|split_and!; [..|exists []; rewrite app_nil_r]].
  - destruct Hp as (Ho & _ & -> & ->). by split; [|split_and!; [..|exists []; rewrite app_nil_r]].
  - destruct res as [n|]; [destruct Hp as (-> & -> & -> & ->)|destruct Hp as (? & ->)];
      (split; [|by split_and!; [..|exists []; rewrite app_nil_r]]); done.
Qed.

Lemma rl_send_ok bs r : relay_ok r -> rl_fin r = false -> relay_ok (rl_send bs r).
Proof.
  intros [Hr Hp] Hf. unfold rl_send, relay_ok. cbn. split; [rewrite length_app; lia|].
  destruct (rl_pc r) as [|rest|[n|]|[n|]]; try (destruct Hp as (He & _); congruence).
  - by rewrite take_app_le by lia.
  - by rewrite take_app_le by lia.
  - destruct Hp as [Hp ?]. split; [|done]. by apply prefix_app_r.
  - destruct Hp as [Hp ?]. split; [|done]. by apply prefix_app_r.
Qed.

Lemma rl_close_ok r : relay_ok r -> relay_ok (rl_close r).
Proof.
  intros [Hr Hp]. unfold rl_close, relay_ok. cbn. split; [done|].
  destruct (rl_pc r) as [|rest|[n|]|[n|]]; try done; by destruct Hp as (_ & ?).
Qed.

(** ** The worker's loop, one request at a time *)

Section served.
Context {B : Type} `{Backend B} `{Profile} `{!BackendSound B}.
Context (capacity : Z) (Hcap : 0 <= capacity < 2 ^ 32).

(** What a worker in state [b] with response buffer [buf] sends for [input], and its last
    state. *)
Definition replies_to (b : B) (buf input : list byte) : list byte :=
  encode_frames (serve_spec b buf (requests capacity input)).1.
Definition final (b : B) (buf input : list byte) : option B :=
  (serve_spec b buf (requests capacity input)).2.

Lemma requests_cons bs :
  requests capacity bs =
  match parse_frames capacity 1 bs with
  | [] => []
  | rq :: _ => rq :: requests capacity (drop (size_of MessageHeader + length rq.2) bs)
  end.
Proof.
  unfold requests. rewrite parse_frames_cons. destruct (parse_frames _ 1 bs) as [|rq l] eqn:E; [done|].
  f_equal. cbn [parse_frames] in E.
  destruct (Nat.ltb_spec (length bs) (size_of MessageHeader)) as [|Hl]; [done|].
  apply parse_frames_fuel; rewrite length_drop; cbn in Hl |- *; lia.
Qed.

Lemma starved_none bs : starved capacity bs = true -> parse_frames capacity 1 bs = [].
Proof.
  unfold starved. cbn [parse_frames]. destruct (length bs <? _)%nat; [done|]. cbn [orb].
  intros [_ Hlt]%andb_true_iff. by rewrite Hlt, orb_true_r.
Qed.

(** Once a request, or a header too large, is there, more input does not change it. *)
Lemma fed_stable bs more : starved capacity bs = false ->
  parse_frames capacity 1 (bs ++ more) = parse_frames capacity 1 bs.
Proof.
  unfold starved. cbn [parse_frames]. rewrite length_app.
  destruct (Nat.ltb_spec (length bs) (size_of MessageHeader)) as [|Hl]; [done|]. cbn [orb].
  destruct (Nat.ltb_spec (length bs + length more) (size_of MessageHeader)); [lia|].
  rewrite take_app_le, drop_app_le by done. set (h := pod_read_unaligned _).
  rewrite Z.gtb_ltb. intros E.
  destruct (Z.ltb_spec capacity (mh_payload_len h)) as [|Hc]; cbn [orb]; [done|].
  destruct (Z.leb_spec (mh_payload_len h) capacity); [|lia]. cbn [andb] in E.
  rewrite E. zbool. rewrite length_app.
  destruct (Z.ltb_spec (Z.of_nat (length (drop (size_of MessageHeader) bs) + length more)) (mh_payload_len h)); [lia|].
  by rewrite take_app_le by lia.
Qed.

Lemma starved_served b buf bs :
  starved capacity bs = true -> replies_to b buf bs = [] /\ final b buf bs = Some b.
Proof.
  intros Hs. unfold replies_to, final. rewrite requests_cons, starved_none by done. done.
Qed.

Lemma starved_wanted bs : starved capacity bs = true -> (0 < wanted capacity bs)%nat.
Proof.
  unfold starved, wanted. destruct (Nat.ltb_spec (length bs) (size_of MessageHeader)); [lia|]. cbn [orb].
  destruct (_ <=? capacity); [|done]. cbn [andb]. intros Hl. zbool. rewrite length_drop in Hl. lia.
Qed.

(** An iteration of the loop is a step of the specification, whatever comes after the
    input at hand. *)
Lemma serve_one_served b buf bs :
  sound_inv b -> length buf = Z.to_nat capacity -> starved capacity bs = false ->
  match serve_one capacity b buf (Stream bs [] None) with
  | Continue b' buf' st =>
      sound_inv b' /\ length buf' = Z.to_nat capacity /\
      exists n, (0 < n <= length bs)%nat /\ rx st = drop n bs /\
        forall more, replies_to b buf (bs ++ more) = tx st ++ replies_to b' buf' (drop n bs ++ more) /\
          final b buf (bs ++ more) = final b' buf' (drop n bs ++ more)
  | Break e =>
      forall more, tx (end_stream e) = replies_to b buf (bs ++ more) /\ end_state e = final b buf (bs ++ more)
  end.
Proof.
  intros Hb Hbuf Hs. unfold serve_one.
  pose proof (read_request_spec capacity Hcap (Stream bs [] None)) as Hrd. cbn [rx] in Hrd.
  assert (forall more, requests capacity (bs ++ more) =
    match parse_frames capacity 1 bs with
    | [] => []
    | rq :: _ => rq :: requests capacity (drop (size_of MessageHeader + length rq.2) (bs ++ more))
    end) as Hreq by (intros more; by rewrite requests_cons, fed_stable).
  unfold replies_to, final. destruct (parse_frames capacity 1 bs) as [|rq l].
  { destruct Hrd as (st' & -> & Htx). intros more. by rewrite Hreq. }
  destruct Hrd as (Hok & _ & _ & Hlen & ->). destruct rq as [rq pl]. cbn [fst snd rx tx tx_room] in *.
  pose proof (answer_request_spec capacity Hcap b buf rq pl
                (Stream (drop (size_of MessageHeader + length pl) bs) [] None) Hb Hbuf Hok) as Ha.
  destruct (respond b buf (rq, pl)) as [[[b' buf'] rs]|] eqn:Er.
  2: { rewrite Ha. intros more. by rewrite Hreq, serve_spec_cons, Er. }
  destruct Ha as (Hb' & Hbuf' & [(st' & -> & Htx & Hrx & _ & _)|(st' & _ & Hroom & _)]); [|done].
  split_and!; [done..|]. exists (size_of MessageHeader + length pl)%nat.
  split_and!; [cbn; lia|done|done|]. intros more.
  rewrite Hreq, serve_spec_cons, Er, drop_app_le by done.
  destruct (serve_spec b' buf' _) as [rss fin]. cbn [fst snd]. by rewrite encode_frames_cons, Htx.
Qed.
End served.

(** ** Every state of a bridged connection *)

Section bridged.
Context {B : Type} `{Backend B} `{Profile} `{!BackendSound B}.
Context (capacity : Z) (Hcap : 0 <= capacity < 2 ^ 32) (win : windows).
Context (b0 : B) (buf0 : list byte).

(** After [sent], the worker goes on from [b] with what it was given from [pos] on. *)
Definition continues (b : B) (buf : list byte) (pos : nat) (given sent : list byte) : Prop :=
  sound_inv b /\ length buf = Z.to_nat capacity /\ (pos <= length given)%nat /\
  forall more,
    replies_to capacity b0 buf0 (given ++ more) = sent ++ replies_to capacity b buf (drop pos given ++ more) /\
    final capacity b0 buf0 (given ++ more) = final capacity b buf (drop pos given ++ more).

(** [sent] is all the worker sends, whatever it is given from now on. *)
Definition concludes (ob : option B) (given sent : list byte) : Prop := forall more,
  replies_to capacity b0 buf0 (given ++ more) = sent /\ final capacity b0 buf0 (given ++ more) = ob.

Definition next_ok (next : worker_next B) (given sent : list byte) : Prop :=
  match next with
  | NextRequest b buf pos => continues b buf pos given sent
  | EndThread ob => concludes ob given sent
  end.

(** The worker's thread against its streams: what it was [given], with the end of file
    [shut], and what it [sent], with the end of file [fin]. *)
Definition worker_ok (w : worker_pc B) (given : list byte) (shut : bool) (sent : list byte)
    (fin : bool) : Prop :=
  match w with
  | Serving b buf pos taken =>
      fin = false /\ (pos <= taken <= length given)%nat /\ continues b buf pos given sent
  | Answering next taken rest =>
      fin = false /\ (taken <= length given)%nat /\ rest <> [] /\ next_ok next given (sent ++ rest)
  | Ended clean ob =>
      fin = true /\ forall more,
        sent `prefix_of` replies_to capacity b0 buf0 (given ++ more) /\
        (clean = true -> (shut = true -> more = []) ->
         sent = replies_to capacity b0 buf0 (given ++ more) /\ ob = final capacity b0 buf0 (given ++ more))
  end.

Definition conn_ok (c : conn B) : Prop :=
  relay_ok (cn_up c) /\ relay_ok (cn_down c) /\ (cn_seen c <= length (rl_out (cn_down c)))%nat /\
  worker_ok (cn_worker c) (rl_out (cn_up c)) (rl_shut (cn_up c)) (rl_sent (cn_down c)) (rl_fin (cn_down c)).

Lemma next_ok_fed next given sent more : next_ok next given sent -> next_ok next (given ++ more) sent.
Proof.
  destruct next as [b buf pos|ob]; cbn.
  - intros (? & ? & Hp & Hr). split_and!; [done..|rewrite length_app; lia|].
    intros more'. rewrite drop_app_le, <- !app_assoc by done. apply Hr.
  - intros Hr more'. rewrite <- app_assoc. apply Hr.
Qed.

Lemma worker_ok_fed w given shut more shut' sent fin :
  worker_ok w given shut sent fin -> (shut = true -> more = []) -> (shut = true -> shut' = true) ->
  worker_ok w (given ++ more) shut' sent fin.
Proof.
  intros Hw Hsh Hsh'. destruct w as [b buf pos taken|next taken rest|clean ob]; cbn in *.
  - destruct Hw as (? & Hp & Hr). split_and!; [done|rewrite ?length_app; lia..|].
    by apply (next_ok_fed (NextRequest b buf pos)).
  - destruct Hw as (? & Hp & ? & Hr). split_and!; [done|rewrite length_app; lia|done|by apply next_ok_fed].
  - destruct Hw as [? Hr]. split; [done|]. intros more'. rewrite <- app_assoc.
    destruct (Hr (more ++ more')) as [Hp Hc]. split; [done|]. intros Ht Hm. apply Hc; [done|].
    intros Hs. by rewrite Hsh, Hm by auto.
Qed.

(** The end of a reply. *)
Lemma answered_ok next c :
  relay_ok (cn_up c) -> relay_ok (cn_down c) -> (cn_seen c <= length (rl_out (cn_down c)))%nat ->
  rl_fin (cn_down c) = false -> next_ok next (rl_out (cn_up c)) (rl_sent (cn_down c)) ->
  conn_ok (worker_answered next c).
Proof.
  intros Hu Hd Hs Hf Hn. destruct next as [b buf pos|ob]; unfold conn_ok; cbn.
  - split_and!; try done; try lia; by destruct Hn as (? & ? & ? & ?).
  - split_and!; [done|by apply rl_close_ok|done|done|]. intros more. destruct (Hn more) as [-> ->].
    by split; [exists []; rewrite app_nil_r|].
Qed.

Lemma drop_slice pos taken (l : list byte) : (pos <= taken <= length l)%nat ->
  drop pos l = slice pos (taken - pos) l ++ drop taken l.
Proof.
  intros Hp. unfold slice. rewrite <- (take_drop (taken - pos) (drop pos l)) at 1. f_equal.
  rewrite drop_drop. f_equal. lia.
Qed.

(** The worker's steps. *)
Lemma served_next b buf pos taken given sent :
  (pos <= taken <= length given)%nat -> continues b buf pos given sent ->
  starved capacity (slice pos (taken - pos) given) = false ->
  match serve_one capacity b buf (Stream (slice pos (taken - pos) given) [] None) with
  | Continue b' buf' st => (pos < taken - length (rx st) <= taken)%nat /\
      next_ok (NextRequest b' buf' (taken - length (rx st))) given (sent ++ tx st)
  | Break e => next_ok (EndThread (end_state e)) given (sent ++ tx (end_stream e))
  end.
Proof.
  intros Hp (Hb & Hbuf & _ & Hr) Hst. pose proof (drop_slice pos taken given Hp) as Hd.
  pose proof (serve_one_served capacity Hcap b buf _ Hb Hbuf Hst) as Ho.
  assert (length (slice pos (taken - pos) given) = taken - pos)%nat as Hl by (apply length_slice; lia).
  destruct (serve_one _ _ _ _) as [b' buf' st|e].
  - destruct Ho as (Hb' & Hbuf' & n & Hn & Hrx & Hmore). rewrite Hrx, length_drop, Hl. rewrite Hl in Hn.
    replace (taken - (taken - pos - n))%nat with (pos + n)%nat by lia. split; [lia|].
    split_and!; [done|done|lia|]. intros more. destruct (Hr more) as [-> ->].
    rewrite Hd, <- app_assoc. destruct (Hmore (drop taken given ++ more)) as [-> ->].
    assert (drop (pos + n) given = drop n (slice pos (taken - pos) given) ++ drop taken given) as ->
      by (rewrite <- drop_drop, Hd, drop_app_le by lia; done).
    by rewrite <- !app_assoc.
  - intros more. destruct (Hr more) as [-> ->]. rewrite Hd, <- app_assoc.
    destruct (Ho (drop taken given ++ more)) as [-> ->]. done.
Qed.

Lemma worker_serves_ok c c' : conn_ok c -> worker_serves capacity c = Some c' -> conn_ok c'.
Proof.
  intros (Hu & Hd & Hse & Hw) Hs. unfold worker_serves in Hs.
  destruct (cn_worker c) as [b buf pos taken| |]; [|done..].
  destruct (starved _ _) eqn:Hst; [done|]. destruct Hw as (Hf & Hp & Hc).
  assert (forall next reply, next_ok next (rl_out (cn_up c)) (rl_sent (cn_down c) ++ reply) ->
    conn_ok (match reply with [] => worker_answered next c
             | _ => set_worker (Answering next taken reply) c end)) as Hnext.
  { intros next [|x reply] Hn.
    - apply answered_ok; try done. by rewrite app_nil_r in Hn.
    - split_and!; [done..|]. cbn. split_and!; [done|lia|done|done]. }
  pose proof (served_next b buf pos taken _ _ Hp Hc Hst) as Ho.
  destruct (serve_one _ _ _ _) as [b' buf' st|e]; cbv beta iota in Hs; injection Hs as <-.
  - apply (Hnext (NextRequest b' buf' _) (tx st)), Ho.
  - apply (Hnext (EndThread _) (tx (end_stream e))), Ho.
Qed.

Lemma worker_writes_ok n c c' : conn_ok c -> worker_writes win n c = Some c' -> conn_ok c'.
Proof.
  intros (Hu & Hd & Hse & Hw) Hs. unfold worker_writes in Hs.
  destruct (cn_worker c) as [|next taken rest|]; [done| |done].
  destruct (_ && _) eqn:E; [|done]. natbool. destruct Hw as (Hf & Ht & Hne & Hn).
  pose proof (rl_send_ok (take n rest) (cn_down c) Hd Hf) as Hd'.
  injection Hs as <-. destruct (Nat.eqb_spec n (length rest)) as [->|Hlt].
  - apply answered_ok; try done. cbn. by rewrite firstn_all.
  - split_and!; [done..|]. cbn. split_and!; [done|done| |].
    + intros Hnil. apply (f_equal length) in Hnil. rewrite length_drop, length_nil in Hnil. lia.
    + by rewrite <- app_assoc, take_drop.
Qed.

Lemma worker_write_err_ok c c' : conn_ok c -> worker_write_err c = Some c' -> conn_ok c'.
Proof.
  intros (Hu & Hd & Hse & Hw) Hs. unfold worker_write_err in Hs.
  destruct (cn_worker c) as [|next taken rest|]; [done| |done]. injection Hs as <-.
  destruct Hw as (Hf & Ht & Hne & Hn). split_and!; [done|by apply rl_close_ok|done|]. cbn. split; [done|].
  intros more. split; [|done]. destruct next as [b buf pos|ob]; cbn in Hn.
  - destruct Hn as (_ & _ & _ & Hr). destruct (Hr more) as [-> _]. rewrite <- app_assoc. by apply prefix_app_r.
  - destruct (Hn more) as [-> _]. by apply prefix_app_r.
Qed.

Lemma worker_eof_ok c c' : conn_ok c -> worker_eof capacity c = Some c' -> conn_ok c'.
Proof.
  intros (Hu & Hd & Hse & Hw) Hs. unfold worker_eof in Hs.
  destruct (cn_worker c) as [b buf pos taken| |]; [|done..].
  destruct (starved _ _) eqn:Hst; [|done]. destruct (Nat.eqb_spec taken (length (rl_out (cn_up c)))) as [Ht|]; [|done].
  destruct (rl_shut _) eqn:Hsh; simplify_eq/=. destruct Hw as (Hf & Hp & _ & _ & _ & Hr).
  split_and!; [done|by apply rl_close_ok|done|]. cbn. split; [done|].
  intros more. destruct (Hr more) as [-> ->]. split; [by apply prefix_app_r|].
  intros _ Hm. rewrite (Hm Hsh), app_nil_r.
  assert (slice pos (length (rl_out (cn_up c)) - pos) (rl_out (cn_up c)) = drop pos (rl_out (cn_up c))) as Ed
    by (unfold slice; by rewrite take_ge by (rewrite length_drop; lia)).
  rewrite Ed in Hst. destruct (starved_served capacity b buf _ Hst) as [-> ->]. by rewrite app_nil_r.
Qed.

Lemma conn_step_ok e c c' : conn_ok c -> conn_step capacity win e c = Some c' -> conn_ok c'.
Proof.
  intros Hok Hs. pose proof Hok as (Hu & Hd & Hse & Hw).
  destruct e as [bs| |n|e|n| |n| | |e]; cbn [conn_step] in Hs.
  - destruct (rl_fin _) eqn:Hf; simplify_eq. by split; [apply rl_send_ok|].
  - simplify_eq. by split; [apply rl_close_ok|].
  - destruct (_ && _) eqn:E; simplify_eq. natbool. by split_and!.
  - apply fmap_Some in Hs as (r & Hr & ->).
    destruct (relay_step_ok _ _ _ _ Hu Hr) as (Hu' & _ & _ & w & Ho & Hsh & Hsh').
    split_and!; [done..|]. cbn. rewrite Ho. by eapply worker_ok_fed.
  - unfold worker_reads in Hs. destruct (cn_worker c) as [b buf pos taken| |] eqn:Ew; [|done..].
    destruct (_ && _) eqn:E; simplify_eq. natbool. destruct Hw as (Hf & Hp & Hc).
    split_and!; [done..|]. cbn. split_and!; [done|lia|lia|done].
  - by eapply worker_serves_ok.
  - by eapply worker_writes_ok.
  - by eapply worker_write_err_ok.
  - by eapply worker_eof_ok.
  - apply fmap_Some in Hs as (r & Hr & ->).
    destruct (relay_step_ok _ _ _ _ Hd Hr) as (Hd' & Hs' & Hfi & w & Ho & _).
    split_and!; [done|done| |cbn; by rewrite Hs', Hfi]. cbn. rewrite Ho, length_app. lia.
Qed.

Lemma conn_run_ok es c c' : conn_ok c -> conn_run capacity win es c = Some c' -> conn_ok c'.
Proof.
  revert c. induction es as [|e es IH]; intros c Hc Hr; [by simplify_eq/=|].
  cbn in Hr. apply bind_Some in Hr as (c1 & H1 & H2). eauto using conn_step_ok.
Qed.
End bridged.

Lemma conn_start_ok {B : Type} `{Backend B} `{Profile} `{!BackendSound B} capacity env :
  conn_ok capacity (start env) (fresh_buffer capacity) (conn_start (B:=B) capacity env).
Proof.
  split_and!; [apply relay_start_ok..|cbn; lia|]. cbn.
  split_and!; [done|lia|lia|]. split_and!; [apply start_sound|apply length_replicate|cbn; lia|done].
Qed.

(** C8: the bridge is transparent.  For every backend that keeps its replies within the
    response buffer ([BackendSound]: the stub, the mock, and the VideoToolbox backend with
    any given changes of its world between the requests), whatever the sockets hold, and
    in every state of a bridged connection (whatever the sizes of the reads and writes, the
    order of the threads' steps and the errors of their calls), the worker was given a
    prefix of what the guest sent, and the guest a prefix of what the worker's connection
    loop, the same in state and changes, answers to all the guest sent on a direct
    connection.  When both copies ended without an error and no write of the worker
    failed, both are complete, the worker ended in the same state, and the copies report
    the number of bytes. *)
Theorem bridge_transparent {B : Type} `{Backend B} `{Profile} `{!BackendSound B}
    (capacity : Z) (win : windows) env es (c : conn B) :
  0 <= capacity < 2 ^ 32 ->
  conn_run capacity win es (conn_start capacity env) = Some c ->
  exists e : conn_end B,
    handle_connection capacity env true (Stream (rl_sent (cn_up c)) [] None) = Some e /\
    rl_out (cn_up c) `prefix_of` rl_sent (cn_up c) /\
    rl_out (cn_down c) `prefix_of` tx (end_stream e) /\
    forall n m b, rl_pc (cn_up c) = Finished (Some n) -> cn_worker c = Ended true b ->
      rl_pc (cn_down c) = Finished (Some m) ->
      rl_out (cn_up c) = rl_sent (cn_up c) /\ rl_out (cn_down c) = tx (end_stream e) /\
      n = len (rl_sent (cn_up c)) /\ m = len (tx (end_stream e)) /\ b = end_state e.
Proof.
  intros Hcap Hrun.
  destruct (conn_run_ok capacity Hcap win (start env) _ _ _ _ (conn_start_ok capacity env) Hrun)
    as (Hu & Hd & _ & Hw).
  destruct (handle_connection_spec capacity env (Stream (rl_sent (cn_up c)) [] None) Hcap)
    as (e & He & Htx & Hst).
  exists e. cbn [rx tx tx_room accepted app] in *. specialize (Hst eq_refl).
  change (tx (end_stream e) = replies_to capacity (start env) (fresh_buffer capacity) (rl_sent (cn_up c))) in Htx.
  change (end_state e = final capacity (start env) (fresh_buffer capacity) (rl_sent (cn_up c))) in Hst.
  pose proof (relay_prefix _ Hu) as [more Hmore]. pose proof (relay_prefix _ Hd) as Hpd.
  split_and!; [done|by exists more| |].
  - etrans; [done|]. rewrite Htx, Hmore. destruct (cn_worker c) as [b buf pos taken|[b buf pos|ob] taken rest|clean ob].
    + destruct Hw as (_ & _ & _ & _ & _ & Hr). destruct (Hr more) as [-> _]. by apply prefix_app_r.
    + destruct Hw as (_ & _ & _ & _ & _ & _ & Hr). destruct (Hr more) as [-> _]. rewrite <- app_assoc. by apply prefix_app_r.
    + destruct Hw as (_ & _ & _ & Hr). destruct (Hr more) as [-> _]. by apply prefix_app_r.
    + destruct Hw as [_ Hr]. apply Hr.
  - intros n m b Hpu Hpw Hpd'. rewrite Hpw in Hw. destruct Hw as [_ Hr].
    destruct Hu as [_ Hu], Hd as [_ Hd]. rewrite Hpu in Hu. rewrite Hpd' in Hd.
    destruct Hu as (_ & Hou & -> & _), Hd as (_ & Hod & -> & _).
    destruct (Hr []) as [_ Hc]. destruct (Hc eq_refl (fun _ => eq_refl)) as [Hs Hb].
    rewrite app_nil_r, Hou in Hs, Hb. by rewrite Htx, Hst, Hod, Hs, Hb.
Qed.

(** ** A connection the guest has closed drains *)

Definition errorless (e : relay_event) : bool :=
  match e with ReadSome _ | ReadEof | WriteSome _ | ShutdownWrite => true | _ => false end.

(** Steps in which no call fails or is interrupted, but for a write to a worker that has
    closed its socket; the guest goes on reading. *)
Definition quiet_event {B} (c : conn B) (e : conn_event) : bool :=
  match e with
  | Upstream WriteErr => match cn_worker c with Ended _ _ => true | _ => false end
  | Upstream e | Downstream e => errorless e
  | GuestReads _ | WorkerReads _ | WorkerServes | WorkerWrites _ | WorkerEof => true
  | GuestSends _ | GuestCloses | WorkerWriteErr => false
  end.

Definition rl_finished (r : relay) : bool :=
  match rl_pc r with Finished _ => true | _ => false end.

Definition complete {B} (c : conn B) : bool :=
  rl_finished (cn_up c) && (match cn_worker c with Ended _ _ => true | _ => false end) &&
  rl_finished (cn_down c).

(** What a copying thread has left to do. *)
Definition rl_left (r : relay) : nat :=
  2 * (length (rl_sent r) - rl_read r) +
  match rl_pc r with Copying => 2 | Writing rest => 2 + length rest | Copied _ => 1 | Finished _ => 0 end.

Lemma relay_step_left room e r r' : errorless e = true \/ e = WriteErr ->
  relay_step room e r = Some r' -> (rl_left r' < rl_left r)%nat.
Proof.
  intros Hp. destruct r as [sent fin rd pc total out shut]. unfold relay_step, rl_left. fields.
  destruct pc as [|rest|res|res], e; try discriminate; intros E;
    try (by destruct Hp as [Hp|Hp]; discriminate Hp);
    repeat match goal with
           | E : (if ?b then _ else _) = Some _ |- _ => destruct b eqn:?; [|discriminate]
           | E : context [if ?b then Copying else _] |- _ => destruct b eqn:?
           end; simplify_eq; natbool; fields; unfold slice;
    rewrite ?length_take, ?length_drop; lia.
Qed.

(** A copying thread that is not blocked in a write goes on. *)
Lemma relay_progress room r : relay_ok r -> rl_finished r = false ->
  rl_fin r = true \/ (rl_read r < length (rl_sent r))%nat ->
  (exists e r', errorless e = true /\ relay_step room e r = Some r') \/
  room = 0%nat /\ exists rest, rl_pc r = Writing rest /\ rest <> [].
Proof.
  intros [Hr Hp] Hn Hf. unfold rl_finished, relay_step in *. destruct (rl_pc r) as [|rest|res|res].
  - left. destruct (decide (rl_read r = length (rl_sent r))) as [Heq|Hne].
    + destruct Hf as [Hf|Hf]; [|lia]. exists ReadEof. rewrite Hf, (proj2 (Nat.eqb_eq _ _) Heq). by eexists.
    + exists (ReadSome 1). rewrite (proj2 (Nat.leb_le (rl_read r + 1) _)) by lia. by eexists.
  - destruct Hp as (_ & Hne & _). destruct room as [|room]; [right; by eauto|]. left. exists (WriteSome 1).
    destruct rest as [|x rest]; [done|]. by eexists.
  - left. exists ShutdownWrite. by eexists.
  - done.
Qed.

(** The copy ended with an error. *)
Definition rl_failed (r : relay) : bool :=
  match rl_pc r with Copied None | Finished None => true | _ => false end.

Lemma relay_step_failed room e r r' : errorless e = true -> relay_step room e r = Some r' ->
  rl_failed r = false -> rl_failed r' = false.
Proof.
  unfold relay_step, rl_failed. intros He Hs Hf.
  destruct (rl_pc r) as [| |[]|] eqn:Ep, e; try discriminate; try done;
    repeat match goal with
           | E : (if ?b then _ else _) = Some _ |- _ => destruct b eqn:?; [|discriminate]
           end; simplify_eq; cbn; repeat case_match; done.
Qed.

(** ** The order in which everything ends *)

Definition lex {A B} (ltA : relation A) (ltB : relation B) := slexprod A B ltA ltB.

Lemma lex_intro {A B} (ltA : relation A) (ltB : relation B) x x' y y' :
  ltA x' x \/ (x' = x /\ ltB y' y) -> lex ltA ltB (x', y') (x, y).
Proof. intros [Hl|[-> Hr]]; [by apply left_slex|by apply right_slex]. Qed.

Section drain.
Context {B : Type} `{Backend B} `{Profile} `{!BackendSound B}.
Context (capacity : Z) (Hcap : 0 <= capacity < 2 ^ 32) (win : windows).
Context (b0 : B) (buf0 : list byte).
Abbreviation conn_ok := (conn_ok capacity b0 buf0).
Abbreviation step := (conn_step capacity win).

Definition quiet_step (c c' : conn B) : Prop :=
  exists e, quiet_event c e = true /\ step e c = Some c'.

(** The requests the worker has before it, and its part of the one at hand. *)
Definition worker_requests (c : conn B) : nat :=
  match cn_worker c with
  | Serving _ _ pos _ | Answering (NextRequest _ _ pos) _ _ => S (length (rl_out (cn_up c)) - pos)
  | Answering (EndThread _) _ _ | Ended _ _ => 0
  end.
Definition worker_rest (c : conn B) : nat :=
  match cn_worker c with
  | Serving _ _ _ taken => length (rl_out (cn_up c)) - taken
  | Answering _ _ rest => S (length (rl_out (cn_up c)) + length rest)
  | Ended _ _ => 0
  end.

(** The upstream copy, the worker, the downstream copy and the guest, in this order. *)
Definition conn_measure (c : conn B) : nat * (nat * (nat * (nat * nat))) :=
  (rl_left (cn_up c), (worker_requests c, (worker_rest c,
    (rl_left (cn_down c), length (rl_out (cn_down c)) - cn_seen c))))%nat.

Definition measure_lt := lex lt (lex lt (lex lt (lex lt lt))).

Lemma measure_wf : well_founded (fun c' c => measure_lt (conn_measure c') (conn_measure c)).
Proof. apply wf_inverse_image. repeat apply wf_slexprod; apply lt_wf. Qed.

Lemma worker_step_lt c c' : cn_up c' = cn_up c ->
  (worker_requests c' < worker_requests c)%nat \/
  worker_requests c' = worker_requests c /\ (worker_rest c' < worker_rest c)%nat ->
  measure_lt (conn_measure c') (conn_measure c).
Proof.
  intros Eu Hl. apply lex_intro. right. split; [by rewrite Eu|]. apply lex_intro.
  destruct Hl as [Hl|[He Hl]]; [by left|]. right. split; [done|]. apply lex_intro. by left.
Qed.

Lemma worker_serves_lt c c' : conn_ok c -> worker_serves capacity c = Some c' ->
  measure_lt (conn_measure c') (conn_measure c).
Proof.
  intros (_ & _ & _ & Hw) Hs. unfold worker_serves in Hs.
  destruct (cn_worker c) as [b buf pos taken| |] eqn:Ew; [|done..].
  destruct (starved _ _) eqn:Hst; [done|]. destruct Hw as (_ & Hp & Hc).
  pose proof (served_next capacity Hcap b0 buf0 b buf pos taken _ _ Hp Hc Hst) as Ho.
  destruct (serve_one _ _ _ _) as [b' buf' st|e]; cbv beta iota in Hs; injection Hs as <-.
  - destruct Ho as [Hlt _]. apply worker_step_lt; [by destruct (tx st)|]. left.
    unfold worker_requests at 2. rewrite Ew. destruct (tx st); unfold worker_requests; cbn; lia.
  - apply worker_step_lt; [by destruct (tx (end_stream e))|]. left.
    unfold worker_requests at 2. rewrite Ew. destruct (tx (end_stream e)); unfold worker_requests; cbn; lia.
Qed.

Lemma worker_writes_lt n c c' : worker_writes win n c = Some c' ->
  measure_lt (conn_measure c') (conn_measure c).
Proof.
  intros Hs. unfold worker_writes in Hs. destruct (cn_worker c) as [|next taken rest|] eqn:Ew; [done| |done].
  destruct (_ && _) eqn:E; [|done]. natbool. injection Hs as <-.
  apply worker_step_lt; [by destruct (n =? _)%nat, next|].
  right. unfold worker_requests at 2, worker_rest at 2. rewrite Ew.
  destruct (Nat.eqb_spec n (length rest)), next; unfold worker_requests, worker_rest; cbn;
    rewrite ?length_drop; lia.
Qed.

Lemma quiet_step_lt c c' : conn_ok c -> quiet_step c c' ->
  measure_lt (conn_measure c') (conn_measure c) /\ conn_ok c' /\ rl_fin (cn_up c') = rl_fin (cn_up c) /\
  (rl_failed (cn_down c) = false -> rl_failed (cn_down c') = false).
Proof.
  intros Hok (e & Hq & Hs). pose proof (conn_step_ok capacity Hcap win b0 buf0 _ _ _ Hok Hs) as Hok'.
  destruct e as [| |n|e|n| |n| | |e]; try done; cbn [conn_step] in Hs.
  - destruct (_ && _) eqn:E; simplify_eq. natbool. split_and!; [|done..].
    do 4 (apply lex_intro; right; split; [done|]). cbn. lia.
  - apply fmap_Some in Hs as (r & Hr & ->). destruct Hok as (Hu & _).
    destruct (relay_step_ok _ _ _ _ Hu Hr) as (_ & _ & Hf & _).
    split_and!; [|done|done|done]. apply lex_intro. left. eapply relay_step_left; [|done].
    destruct e; try (by left); by right.
  - unfold worker_reads in Hs. destruct (cn_worker c) as [b buf pos taken| |] eqn:Ew; [|done..].
    destruct (_ && _) eqn:E; simplify_eq. natbool. split_and!; [|done..]. apply worker_step_lt; [done|].
    right. unfold worker_requests, worker_rest. rewrite Ew. cbn. lia.
  - split_and!; [by eapply worker_serves_lt|done|..]; unfold worker_serves in Hs;
      repeat case_match; simplify_eq; done.
  - split_and!; [by eapply worker_writes_lt|done|..]; unfold worker_writes in Hs;
      destruct (cn_worker c) as [|next taken rest|]; try done; destruct (_ && _); try done;
      simplify_eq; by destruct (n =? _)%nat, next.
  - unfold worker_eof in Hs. destruct (cn_worker c) as [b buf pos taken| |] eqn:Ew; [|done..].
    destruct (_ && _); simplify_eq. split_and!; [|done..]. apply worker_step_lt; [done|]. left.
    unfold worker_requests. rewrite Ew. cbn. lia.
  - apply fmap_Some in Hs as (r & Hr & ->). split_and!; [|done|done|by eapply relay_step_failed].
    do 3 (apply lex_intro; right; split; [done|]). apply lex_intro. left.
    eapply relay_step_left; [|done]. by left.
Qed.

(** Who is blocked waits for someone who is not. *)
Context (Hwin : (0 < win_worker win /\ 0 < win_bridge win /\ 0 < win_guest win)%nat).

Lemma down_progress c : conn_ok c -> rl_failed (cn_down c) = false -> rl_finished (cn_down c) = false ->
  rl_fin (cn_down c) = true \/ (rl_read (cn_down c) < length (rl_sent (cn_down c)))%nat ->
  exists c', quiet_step c c'.
Proof.
  intros (_ & Hd & Hse & _) Hfa Hfi Hor.
  destruct (relay_progress (guest_room win c) _ Hd Hfi Hor) as [(e & r & He & Hs)|(Hz & _)].
  - eexists. exists (Downstream e). split; [done|]. cbn. by rewrite Hs.
  - unfold guest_room in Hz. eexists. exists (GuestReads 1). split; [done|]. cbn.
    by rewrite (proj2 (Nat.leb_le (cn_seen c + 1) _)) by lia.
Qed.

Lemma worker_progress c : conn_ok c -> rl_failed (cn_down c) = false ->
  match cn_worker c with
  | Serving _ _ _ taken => (taken < length (rl_out (cn_up c)))%nat \/ rl_shut (cn_up c) = true
  | Answering _ _ _ => True
  | Ended _ _ => False
  end -> exists c', quiet_step c c'.
Proof.
  intros Hok Hfa Hor. pose proof Hok as (Hu & Hd & Hse & Hw).
  destruct (cn_worker c) as [b buf pos taken|next taken rest|] eqn:Ew; [| |done].
  - destruct Hw as (_ & Hp & _). destruct (starved capacity (slice pos (taken - pos) (rl_out (cn_up c)))) eqn:Hst.
    + pose proof (starved_wanted capacity _ Hst) as Hwt.
      destruct (decide (taken < length (rl_out (cn_up c)))%nat) as [Hlt|Hge].
      * eexists. exists (WorkerReads 1). split; [done|]. cbn. unfold worker_reads.
        rewrite Ew, (proj2 (Nat.leb_le (taken + 1) _)), (proj2 (Nat.leb_le 1 _)) by lia. done.
      * destruct Hor as [|Hsh]; [lia|]. eexists. exists WorkerEof. split; [done|]. cbn. unfold worker_eof.
        by rewrite Ew, Hst, Hsh, (proj2 (Nat.eqb_eq taken _)) by lia.
    + destruct (serve_one capacity b buf (Stream (slice pos (taken - pos) (rl_out (cn_up c))) [] None)) eqn:Eo;
        (eexists; exists WorkerServes; split; [done|]); cbn; unfold worker_serves; by rewrite Ew, Hst, Eo.
  - destruct Hw as (Hf & _ & Hne & _). destruct (bridge_room win c) as [|room] eqn:Hr.
    + unfold bridge_room in Hr. apply down_progress; [done|done| |right; lia].
      destruct Hd as [_ Hd]. unfold rl_finished, rl_failed in *.
      destruct (rl_pc (cn_down c)) as [| | |[]]; try done. destruct Hd as (Hfin & _). congruence.
    + eexists. exists (WorkerWrites 1). split; [done|]. cbn. unfold worker_writes. rewrite Ew, Hr.
      destruct rest as [|x rest]; [done|]. done.
Qed.

Lemma quiet_progress c : conn_ok c -> rl_fin (cn_up c) = true -> rl_failed (cn_down c) = false ->
  complete c = false -> exists c', quiet_step c c'.
Proof.
  intros Hok Hf Hfa Hc. pose proof Hok as (Hu & Hd & Hse & Hw). unfold complete in Hc.
  destruct (rl_finished (cn_up c)) eqn:Hfu.
  - destruct (cn_worker c) as [b buf pos taken|next taken rest|clean ob] eqn:Ew.
    + apply worker_progress; [done|done|]. rewrite Ew. right. destruct Hu as [_ Hu]. unfold rl_finished in Hfu.
      destruct (rl_pc (cn_up c)) as [| | |[n|]]; try done; by apply Hu.
    + apply worker_progress; [done|done|]. by rewrite Ew.
    + destruct Hw as [Hfd _]. apply down_progress; [done|done|by destruct (rl_finished (cn_down c))|by left].
  - destruct (relay_progress (worker_room win c) _ Hu Hfu (or_introl Hf)) as [(e & r & He & Hs)|(Hz & rest & Hpc & _)].
    + eexists. exists (Upstream e). split; [by destruct e|]. cbn. by rewrite Hs.
    + unfold worker_room in Hz. destruct (cn_worker c) as [b buf pos taken|next taken rest'|clean ob] eqn:Ew.
      * apply worker_progress; [done|done|]. rewrite Ew. left. destruct Hw as (_ & ? & _). lia.
      * apply worker_progress; [done|done|]. by rewrite Ew.
      * eexists. exists (Upstream WriteErr). split; [cbn; by rewrite Ew|]. cbn. unfold relay_step. by rewrite Hpc.
Qed.

Lemma quiet_terminates c : conn_ok c -> Acc (flip quiet_step) c.
Proof.
  induction (measure_wf c) as [c _ IH]. intros Hok. constructor. intros c' Hs.
  destruct (quiet_step_lt _ _ Hok Hs) as (Hlt & Hok' & _). by apply IH.
Qed.

Lemma quiet_run_ok c c' : rtc quiet_step c c' -> conn_ok c -> rl_fin (cn_up c) = true ->
  rl_failed (cn_down c) = false ->
  conn_ok c' /\ rl_fin (cn_up c') = true /\ rl_failed (cn_down c') = false.
Proof.
  induction 1 as [|c c1 c2 Hs _ IH]; [done|]. intros Hok Hf Hfa.
  destruct (quiet_step_lt _ _ Hok Hs) as (_ & Hok' & Hf' & Hfa'). apply IH; auto; congruence.
Qed.
End drain.

(** Both writers wait for readers that do not come. *)
Lemma blocked_stays {B} `{Backend B} `{Profile} capacity win (c : conn B) rest next taken reply result e :
  rl_pc (cn_up c) = Writing rest -> worker_room win c = 0%nat ->
  cn_worker c = Answering next taken reply -> bridge_room win c = 0%nat ->
  rl_pc (cn_down c) = Finished result -> cn_seen c = length (rl_out (cn_down c)) ->
  quiet_event c e = true -> conn_step capacity win e c = None.
Proof.
  intros Hu Hwr Hw Hbr Hd Hs Hq. destruct e as [| |n|e|n| |n| | |e]; try done; cbn [conn_step].
  - rewrite Hs. destruct (_ && _) eqn:E; [|done]. natbool. lia.
  - rewrite Hwr. unfold relay_step. rewrite Hu. unfold quiet_event in Hq. rewrite Hw in Hq.
    destruct e as [| | | |n| | |]; try done. destruct (_ && _) eqn:E; [|done]. natbool. lia.
  - unfold worker_reads. by rewrite Hw.
  - unfold worker_serves. by rewrite Hw.
  - unfold worker_writes. rewrite Hw, Hbr. destruct (_ && _) eqn:E; [|done]. natbool. lia.
  - unfold worker_eof. by rewrite Hw.
  - unfold relay_step. rewrite Hd. by destruct e.
Qed.

(** C17: a closed connection drains.  Sockets hold a bounded number of bytes, and a write
    waits for its reader.  Once the guest has closed its sending side, and while it goes on
    reading and no call fails (but for writes to a worker that has gone), the threads of the
    bridge and the worker cannot go on for ever, whatever the order of their steps; and as
    long as one of them has not ended, one of them or the guest can take a step, unless the
    copy towards the guest had failed before.  So [bridge_connection]'s two joins return.
    For every backend that keeps its replies within the response buffer. *)
Theorem bridge_drains {B : Type} `{Backend B} `{Profile} `{!BackendSound B}
    (capacity : Z) (win : windows) env es (c : conn B) :
  0 <= capacity < 2 ^ 32 ->
  (0 < win_worker win /\ 0 < win_bridge win /\ 0 < win_guest win)%nat ->
  conn_run capacity win es (conn_start capacity env) = Some c ->
  rl_fin (cn_up c) = true -> rl_failed (cn_down c) = false ->
  Acc (flip (quiet_step capacity win)) c /\
  forall c', rtc (quiet_step capacity win) c c' ->
    complete c' = true \/ exists c'', quiet_step capacity win c' c''.
Proof.
  intros Hcap Hwin Hrun Hf Hfa.
  pose proof (conn_run_ok capacity Hcap win (start env) _ _ _ _ (conn_start_ok capacity env) Hrun) as Hok.
  split; [by eapply quiet_terminates|]. intros c' Hr.
  destruct (quiet_run_ok capacity Hcap win (start env) _ _ _ Hr Hok Hf Hfa) as (Hok' & Hf' & Hfa').
  destruct (complete c') eqn:Hc; [by left|]. right. by eapply quiet_progress.
Qed.

(** ** Descriptors *)

(** What the calls do to the open descriptors and the clock. *)
Class BridgeLaws (os : Type) `{!Sockets os} `{!BridgeSockets os} := {
  fds : os -> gmultiset Z;
  law_connect path o r o' : so_connect path o = (r, o') ->
    so_now o <= so_now o' /\
    fds o' = match r with inl s => {[+ s +]} ⊎ fds o | inr _ => fds o end;
  law_sleep ms o : 0 <= ms -> so_now o + ms <= so_now (so_sleep ms o) /\ fds (so_sleep ms o) = fds o;
  law_blocking s o r o' : bs_set_blocking s o = (r, o') -> fds o' = fds o;
  law_nodelay s o r o' : bs_set_nodelay s o = (r, o') -> fds o' = fds o;
  law_clone s o r o' : bs_try_clone s o = (r, o') ->
    fds o' = match r with Some s' => {[+ s' +]} ⊎ fds o | None => fds o end;
  law_close s o : fds (bs_close s o) = fds o ∖ {[+ s +]}
}.

Section setup_laws.
Context {os : Type} `{!Sockets os} `{!BridgeSockets os} `{!BridgeLaws os}.

Lemma close_opened (s : Z) (X : gmultiset Z) : ({[+ s +]} ⊎ X) ∖ {[+ s +]} = X.
Proof. multiset_solver. Qed.

Lemma close_comm (s s' : Z) (X : gmultiset Z) : X ∖ {[+ s +]} ∖ {[+ s' +]} = X ∖ {[+ s' +]} ∖ {[+ s +]}.
Proof. multiset_solver. Qed.

Lemma connect_loop_fds fuel path start timeout : forall last (o : os) r o',
  connect_loop fuel path start timeout last o = (Some r, o') ->
  fds o' = match r with inl s => {[+ s +]} ⊎ fds o | inr _ => fds o end.
Proof.
  induction fuel as [|fuel IH]; intros last o r o' E; [done|]. cbn [connect_loop] in E.
  destruct (_ <? _); [|by simplify_eq].
  destruct (so_connect path o) as [[s|e] o1] eqn:Ec; destruct (law_connect _ _ _ _ Ec) as [_ Hfd];
    [by simplify_eq|].
  destruct (retriable e); [|by simplify_eq].
  rewrite (IH _ _ _ _ E). destruct (law_sleep 10 o1) as [_ ->]; [done|]. by rewrite Hfd.
Qed.

(** C21: no connection leaks descriptors.  On a clock that never goes back, whatever its
    calls answer, [bridge_connection] gets past its retries with the fuel of five seconds:
    either it runs the two threads, each owning a reading and a writing descriptor (the
    accepted stream, the worker's and a clone of each), or it returns an error with the
    accepted stream and all it had opened closed. *)
Theorem bridge_setup_balanced tcp path (o : os) :
  exists r o', bridge_setup 501 tcp path o = (Some r, o') /\
    match r with
    | inl (tcp_read, tcp_write, unix_read, unix_write) =>
        tcp_write = tcp /\
        fds o' = {[+ unix_read +]} ⊎ ({[+ tcp_read +]} ⊎ ({[+ unix_write +]} ⊎ fds o))
    | inr _ => fds o' = fds o ∖ {[+ tcp +]}
    end.
Proof.
  unfold bridge_setup, fail_closing.
  destruct (bs_set_blocking tcp o) as [[] o1] eqn:E1; pose proof (law_blocking _ _ _ _ E1) as F1.
  2: { do 2 eexists. split; [done|]. cbn. by rewrite law_close, F1. }
  destruct (bs_set_nodelay tcp o1) as [[] o2] eqn:E2; pose proof (law_nodelay _ _ _ _ E2) as F2.
  2: { do 2 eexists. split; [done|]. cbn. by rewrite law_close, F2, F1. }
  unfold connect_worker_with_retry.
  destruct (connect_loop_ends (fun p o r o' E => proj1 (law_connect p o r o' E))
              (fun ms o Hm => proj1 (law_sleep ms o Hm)) 501 path (so_now o2) 5000 None o2)
    as (r & o3 & E3 & _); [lia|].
  rewrite E3. pose proof (connect_loop_fds _ _ _ _ _ _ _ _ E3) as F3.
  destruct r as [unix|e].
  2: { do 2 eexists. split; [done|]. cbn. by rewrite law_close, F3, F2, F1. }
  destruct (bs_try_clone tcp o3) as [[tr|] o4] eqn:E4; pose proof (law_clone _ _ _ _ E4) as F4.
  2: { do 2 eexists. split; [done|]. cbn. by rewrite !law_close, F4, F3, F2, F1, close_opened. }
  destruct (bs_try_clone unix o4) as [[ur|] o5] eqn:E5; pose proof (law_clone _ _ _ _ E5) as F5.
  2: { do 2 eexists. split; [done|]. cbn. rewrite !law_close, F5, F4, F3, F2, F1.
       by rewrite (close_comm tcp tr), close_opened, (close_comm tcp unix), close_opened. }
  do 2 eexists. split; [done|]. cbn. split; [done|]. by rewrite F5, F4, F3, F2, F1.
Qed.
End setup_laws.

(** ** The listener *)

Definition in_hand (pc : accept_pc) : list Z :=
  match pc with Accepted s | Spawning s => [s] | _ => [] end.

(** Every connection is in one place, and they are bridged in the order they were made. *)
Definition listener_ok (l : bridge_listener) : Prop :=
  li_clients l = li_bridged l ++ li_closed l ++ in_hand (li_accept l) ++ li_backlog l /\
  (li_accept l <> Returned -> li_closed l = []) /\ (li_accept l = Returned -> li_backlog l = []) /\
  (li_running l = true <-> li_drop l = NotDropped) /\
  (li_drop l = Dropped -> li_accept l = Returned).

Lemma client_connects_ok s l l' : listener_ok l -> client_connects s l = Some l' -> listener_ok l'.
Proof.
  intros (Hc & Hcl & Hb & Hr & Hd) Hs. unfold client_connects in Hs.
  destruct (li_accept l) eqn:Ea; simplify_eq; unfold listener_ok; cbn in *;
    rewrite Hc, Hcl by done; (split_and!; [|done..]); by rewrite <- ?app_assoc.
Qed.

Lemma accept_step_ok f l l' : listener_ok l -> accept_step f l = Some l' -> listener_ok l'.
Proof.
  destruct l as [running clients backlog pc bridged closed dr]. unfold listener_ok, accept_step. cbn.
  intros (Hc & Hcl & Hb & Hr & Hd) Hs.
  destruct pc; cbn in *; try specialize (Hcl ltac:(discriminate)); repeat case_match; simplify_eq; cbn in *;
    (split_and!; [by rewrite ?app_nil_r, <- ?app_assoc|try done; intros E; by specialize (Hd E)..]).
Qed.

Lemma listen_step_ok e l l' : listener_ok l -> listen_step e l = Some l' -> listener_ok l'.
Proof.
  intros Hl. destruct e as [s|f|wake]; cbn; [by apply client_connects_ok|by apply accept_step_ok|].
  unfold drop_step. destruct (li_drop l) eqn:Ed; intros Hs; simplify_eq.
  - destruct Hl as (? & ? & ? & ? & ?). unfold listener_ok. cbn. rewrite Ed in *. split_and!; try done; intuition discriminate.
  - assert (listener_ok (default l (stream ← wake; client_connects stream l)) /\
      li_drop (default l (stream ← wake; client_connects stream l)) = Stored) as [Hl' Ed'].
    { destruct wake as [s|]; cbn; [|done]. destruct (client_connects s l) eqn:Ec; [|done]. cbn.
      split; [by eapply client_connects_ok|]. unfold client_connects in Ec. by destruct (li_accept l); simplify_eq. }
    destruct Hl' as (? & ? & ? & Hr & ?). unfold listener_ok. rewrite Ed' in Hr. cbn. split_and!; try done; intuition discriminate.
  - destruct (li_accept l) eqn:Ea; simplify_eq. destruct Hl as (? & ? & ? & Hr & ?). unfold listener_ok. cbn.
    rewrite Ed, Ea in *. split_and!; try done; intuition discriminate.
Qed.

Lemma listen_run_ok es l l' : listener_ok l -> listen_run es l = Some l' -> listener_ok l'.
Proof.
  revert l. induction es as [|e es IH]; intros l Hl Hr; [by simplify_eq/=|].
  cbn in Hr. apply bind_Some in Hr as (l1 & H1 & H2). eauto using listen_step_ok.
Qed.

(** Steps the accepting thread takes once it is told to stop. *)
Definition accept_left (pc : accept_pc) : nat :=
  match pc with
  | AtWhile | Accepted _ => 1 | Sleeping | Spawning _ => 2 | AtAccept => 3 | Returned => 0
  end.

Definition accept_steps (es : list listen_event) : nat :=
  length (List.filter (fun e => match e with AcceptThread _ => true | _ => false end) es).

(** The connection whose thread is being spawned. *)
Definition spawning (pc : accept_pc) : list Z := match pc with Spawning s => [s] | _ => [] end.

Lemma stopped_step e l l' : li_running l = false -> listen_step e l = Some l' ->
  li_running l' = false /\
  (accept_steps [e] + accept_left (li_accept l') <= accept_left (li_accept l))%nat /\
  li_bridged l' ++ spawning (li_accept l') = li_bridged l ++ spawning (li_accept l).
Proof.
  destruct l as [running clients backlog pc bridged closed dr]. cbn. intros -> Hs.
  destruct e as [s|f|wake]; cbn in Hs.
  - unfold client_connects in Hs. destruct pc; by simplify_eq/=.
  - unfold accept_step in Hs. cbn in Hs. destruct pc; repeat case_match; simplify_eq/=;
      (split_and!; [done|cbn; lia|by rewrite ?app_nil_r]).
  - unfold drop_step in Hs. cbn in Hs. destruct dr; [by simplify_eq/=| |by destruct pc; simplify_eq/=|done].
    destruct wake as [s|]; [|by simplify_eq/=]. unfold client_connects in Hs. cbn in Hs.
    by destruct pc; simplify_eq/=.
Qed.

Lemma stopped_run es l l' : li_running l = false -> listen_run es l = Some l' ->
  (accept_steps es + accept_left (li_accept l') <= accept_left (li_accept l))%nat /\
  li_bridged l' ++ spawning (li_accept l') = li_bridged l ++ spawning (li_accept l).
Proof.
  revert l. induction es as [|e es IH]; intros l Hl Hr; [by simplify_eq/=|].
  cbn in Hr. apply bind_Some in Hr as (l1 & H1 & H2).
  destruct (stopped_step _ _ _ Hl H1) as (Hl1 & Hn & Hb), (IH _ Hl1 H2) as [Hn' Hb'].
  split; [|congruence]. unfold accept_steps in *. cbn in *. destruct e; cbn in *; lia.
Qed.

(** C18: the bridge stops.  However clients, the accepting thread and the thread that drops
    the handle take turns, once [running] is cleared the accepting thread takes at most
    three more steps, none of which waits for anything, and gives a thread to at most one
    more connection, the one it had already decided to serve; so [drop] returns.  When it
    has, the accepting thread has too, and every connection ever made was bridged, in the
    order they were made, or is closed. *)
Theorem bridge_stops addr l0 es l : bridge_start true true (Some addr) = inl (addr, l0) ->
  listen_run es l0 = Some l -> li_running l = false ->
  (forall es' l', listen_run es' l = Some l' ->
     (accept_steps es' <= 3)%nat /\
     (li_accept l' = Returned \/ exists f l'', accept_step f l' = Some l'') /\
     li_bridged l' `prefix_of` li_bridged l ++ spawning (li_accept l)) /\
  (li_drop l = Dropped -> li_accept l = Returned /\ li_clients l = li_bridged l ++ li_closed l).
Proof.
  intros [= <-] Hrun Hl. split.
  - intros es' l' Hr. destruct (stopped_run _ _ _ Hl Hr) as [Hn Hb]. split_and!.
    + destruct (li_accept l); cbn in Hn; lia.
    + unfold accept_step. destruct (li_accept l') eqn:Ea; [right; exists true..|by left];
        repeat case_match; by eexists.
    + rewrite <- Hb. by apply prefix_app_r.
  - intros Hd. assert (listener_ok l) as (Hc & _ & Hb & _ & Hdr).
    { eapply listen_run_ok; [|done]. split_and!; cbn; done. }
    specialize (Hdr Hd). split; [done|]. rewrite Hc, Hdr, Hb by done. cbn. by rewrite app_nil_r.
Qed.

(** ** Concrete runs *)

(** Two requests and a truncated third one, read and written in pieces through sockets of
    32, 64 and 16 bytes. *)
Definition demo_input : list byte := encode_frames demo_requests ++ [Byte.x01].
Definition demo_windows : windows := mk_windows 32 64 16.
Definition demo_opening : list conn_event :=
  [ GuestSends demo_input; Upstream (ReadSome 30); Upstream WriteInterrupted; Upstream (WriteSome 10);
    WorkerReads 7; Upstream (WriteSome 20); WorkerReads 17; WorkerServes; WorkerWrites 60; GuestCloses;
    Upstream (ReadSome 22); Downstream (ReadSome 5); WorkerWrites 9 ].
Definition demo_trace : list conn_event := demo_opening ++
  [ Downstream (WriteSome 5); Upstream (WriteSome 22); Downstream (ReadSome 64); WorkerWrites 3;
    WorkerReads 24; WorkerReads 3; WorkerServes; WorkerWrites 24; WorkerReads 1; Upstream ReadEof;
    Upstream ShutdownWrite; WorkerEof; Downstream (WriteSome 11); GuestReads 16;
    Downstream (WriteSome 16); GuestReads 16; Downstream (WriteSome 16); GuestReads 16;
    Downstream (WriteSome 16); GuestReads 10; Downstream (WriteSome 5); GuestReads 11;
    Downstream (ReadSome 27); Downstream (WriteSome 16); GuestReads 16; Downstream (WriteSome 11);
    Downstream ReadEof; Downstream ShutdownWrite ].

Definition demo_conn : conn VtStubBackend :=
  default (conn_start 4096 no_env)
    (conn_run (H0:=debug_build) 4096 demo_windows demo_trace (conn_start 4096 no_env)).

Lemma demo_conn_run :
  conn_run (H0:=debug_build) 4096 demo_windows demo_trace (conn_start 4096 no_env) = Some demo_conn.
Proof. by vm_compute. Qed.

Lemma bridge_transparent_witness : exists e,
  @handle_connection VtStubBackend _ debug_build 4096 no_env true (Stream demo_input [] None) = Some e /\
  rl_out (cn_down demo_conn) = tx (end_stream e) /\ end_state e = Some tt /\ len (tx (end_stream e)) = 96.
Proof.
  destruct (bridge_transparent (H0:=debug_build) 4096 demo_windows no_env demo_trace demo_conn ltac:(lia)
              demo_conn_run) as (e & He & _ & _ & Hall).
  destruct (Hall 52 96 (Some tt)) as (_ & Ho & _ & Hm & Hb); [by vm_compute..|].
  exists e. split_and!; [exact He|exact Ho|done|done].
Defined.

(** After the guest has closed: the worker is blocked in its reply. *)
Definition demo_closing : conn VtStubBackend :=
  default (conn_start 4096 no_env)
    (conn_run (H0:=debug_build) 4096 demo_windows demo_opening (conn_start 4096 no_env)).

Lemma demo_closing_run :
  conn_run (H0:=debug_build) 4096 demo_windows demo_opening (conn_start 4096 no_env) = Some demo_closing.
Proof. by vm_compute. Qed.

Lemma bridge_drains_witness :
  complete demo_closing = false /\ bridge_room demo_windows demo_closing = 0%nat /\
  Acc (flip (quiet_step (H0:=debug_build) 4096 demo_windows)) demo_closing.
Proof.
  split; [by vm_compute|]. split; [by vm_compute|].
  apply (bridge_drains (H0:=debug_build) 4096 demo_windows no_env demo_opening demo_closing);
    [lia|cbn; lia|exact demo_closing_run|by vm_compute..].
Defined.

(** The guest goes away with replies on their way, while more requests than the worker's
    socket holds are. *)
Definition stuck_windows : windows := mk_windows 16 8 8.
Definition stuck_trace : list conn_event :=
  [ GuestSends (demo_input ++ demo_input); Upstream (ReadSome 104); Upstream (WriteSome 16); WorkerReads 16;
    Upstream (WriteSome 8); WorkerReads 8; WorkerServes; WorkerWrites 8; Downstream (ReadSome 8);
    Downstream WriteErr; Downstream ShutdownWrite; WorkerWrites 8; Upstream (WriteSome 16); GuestCloses ].

Definition stuck_conn : conn VtStubBackend :=
  default (conn_start 4096 no_env)
    (conn_run (H0:=debug_build) 4096 stuck_windows stuck_trace (conn_start 4096 no_env)).

(** When the copy towards the guest fails, the downstream thread returns without closing
    the worker's socket, which the upstream thread still holds.  With the worker blocked in
    its reply and the upstream thread in its request, no thread can take another step:
    [bridge_connection] never returns. *)
Theorem write_error_blocks_bridge :
  conn_run (H0:=debug_build) 4096 stuck_windows stuck_trace (conn_start 4096 no_env) = Some stuck_conn /\
  rl_pc (cn_down stuck_conn) = Finished None /\ rl_fin (cn_up stuck_conn) = true /\
  complete stuck_conn = false /\
  forall e, quiet_event stuck_conn e = true -> conn_step (H0:=debug_build) 4096 stuck_windows e stuck_conn = None.
Proof.
  split_and!; [by vm_compute..|]. intros e He.
  eapply (blocked_stays 4096 stuck_windows stuck_conn); [..|exact He]; vm_compute; reflexivity.
Qed.

(** Descriptors numbered upwards; the second [try_clone] fails. *)
Record demo_os := mk_demo_os { do_now : Z; do_next : Z; do_fds : gmultiset Z }.

#[local] Instance demo_os_sockets : Sockets demo_os := {|
  so_connect _ o :=
    if do_now o <? 30 then (inr ConnectionRefused, o)
    else (inl (do_next o), mk_demo_os (do_now o) (do_next o + 1) ({[+ do_next o +]} ⊎ do_fds o));
  so_now := do_now;
  so_sleep ms o := mk_demo_os (do_now o + ms) (do_next o) (do_fds o)
|}.
#[local] Instance demo_os_bridge : BridgeSockets demo_os := {|
  bs_set_blocking _ o := (true, o);
  bs_set_nodelay _ o := (true, o);
  bs_try_clone _ o :=
    if 5 <=? do_next o then (None, o)
    else (Some (do_next o), mk_demo_os (do_now o) (do_next o + 1) ({[+ do_next o +]} ⊎ do_fds o));
  bs_close s o := mk_demo_os (do_now o) (do_next o) (do_fds o ∖ {[+ s +]})
|}.
#[local] Instance demo_os_laws : BridgeLaws demo_os.
Proof.
  refine {| fds := do_fds |}; try done.
  - intros path o r o'. unfold so_connect. cbn. case_match; intros [= <- <-]; done.
  - intros s o r o' [= <- <-]. done.
  - intros s o r o' [= <- <-]. done.
  - intros s o r o'. unfold bs_try_clone. cbn. case_match; intros [= <- <-]; done.
Defined.

Definition demo_opened : demo_os := mk_demo_os 0 3 {[+ 2 +]}.

Lemma bridge_setup_balanced_witness : exists o',
  bridge_setup 501 2 "w.sock" demo_opened = (Some (inr CloneFailed), o') /\
  fds o' = {[+ 2 +]} ∖ {[+ 2 +]}.
Proof.
  destruct (bridge_setup_balanced 2 "w.sock" demo_opened) as (r & o' & E & Hr).
  assert (fst (bridge_setup 501 2 "w.sock" demo_opened) = Some (inr CloneFailed)) as E' by by vm_compute.
  rewrite E in E'. cbn in E'. injection E' as ->. exists o'. split; [exact E|exact Hr].
Defined.

(** Stopped while the second client is about to be given its thread and a third waits. *)
Definition demo_listener : bridge_listener := mk_bridge_listener true [] [] AtWhile [] [] NotDropped.
Definition demo_listening : list listen_event :=
  [ ClientConnects 10; ClientConnects 11; AcceptThread false; AcceptThread false; AcceptThread false;
    AcceptThread false; AcceptThread false; AcceptThread false; AcceptThread false; ClientConnects 12;
    DropThread None ].
Definition demo_ending : list listen_event :=
  [ AcceptThread false; DropThread (Some 13); AcceptThread false; DropThread None ].

Definition demo_stopped : bridge_listener :=
  default demo_listener (listen_run (demo_listening ++ demo_ending) demo_listener).

Lemma demo_stopped_run : listen_run (demo_listening ++ demo_ending) demo_listener = Some demo_stopped.
Proof. by vm_compute. Qed.

Lemma bridge_stops_witness :
  (li_accept <$> listen_run demo_listening demo_listener) = Some (Spawning 11) /\
  li_bridged demo_stopped = [10; 11] /\ li_closed demo_stopped = [12; 13] /\
  li_accept demo_stopped = Returned /\
  li_clients demo_stopped = li_bridged demo_stopped ++ li_closed demo_stopped.
Proof.
  split_and!; [by vm_compute|by vm_compute|by vm_compute|..];
  destruct (bridge_stops 6600 demo_listener (demo_listening ++ demo_ending) demo_stopped eq_refl
              demo_stopped_run) as [_ Hd];
    try (by vm_compute); apply Hd; by vm_compute.
Defined.
