(* ===== verification/Launch.v ===== *)
(** * The broker's main

    [main.rs] of [vt-ferry-broker], from the parsed arguments on: the pools are
    allocated and registered, the worker is started, then either the bridge and the
    child, which [main] supervises, or the child in place of the broker ([execvp]).
    Every [?] returns early; what was made until then is dropped in the reverse order.
    [broker_main_leaves] says what a run leaves behind. *)

From S2P Require Import Prelude Wire Protocol Layout Backend Frameworks PoolDirectory Transport Server Broker BrokerProps.
From stdpp Require Import strings gmultiset gmap.
From Stdlib Require Import Ascii.

Set Default Goal Selector "!".
Open Scope Z_scope.

Inductive TransportMode := ModeVsock | ModeTcp.

(** The arguments, as [clap] gives them. *)
Record Args := mk_Args {
  ar_pools : list string;
  ar_host_worker : string;
  ar_transport : TransportMode;
  ar_vsock_port : Z;
  ar_tcp_bind : string;
  ar_tcp_port : Z;
  ar_tcp_guest_host : string;
  ar_hold_after_child : bool;
  ar_runtime_dir : option string;
  ar_child : list string
}.

(** The defaults of the optional arguments. *)
Definition DEFAULT_VSOCK_PORT : Z := 6600.
Definition default_args (pools : list string) (host_worker : string) (child : list string) : Args :=
  mk_Args pools host_worker ModeVsock DEFAULT_VSOCK_PORT "127.0.0.1" 0 "host.docker.internal" false None child.

Inductive broker_error :=
| NoPools | NoChild | ParsePool (index : nat) | PoolError (e : pool_error) | RuntimeDir
| WorkerError (e : spawn_error) | BridgeError | ChildSpawn | Supervision (e : main_error)
| NoHandler | NulInCommand | ExecFailed.

(** What else [main] asks of the system. *)
Class Startup (host : Type) := {
  su_pid : host -> Z;
  su_temp_dir : host -> string;
  su_env : host -> environ;
  su_stat : host -> string -> option metadata;
  su_open_log (path : string) : host -> bool * host;
  su_create_dir_all (path : string) : host -> bool * host;
  su_remove_file (path : string) : host -> host;
  (** [Command::spawn]: the process. *)
  su_spawn (c : command) : host -> option Z * host;
  (** [TcpBridgeHandle::start]: the port it listens on; and its [drop]. *)
  su_bridge_start (bind : string) (port : Z) (socket_path : string) : host -> option Z * host;
  su_bridge_drop (port : Z) : host -> host;
  (** [ctrlc::set_handler] and the flag its handler clears. *)
  su_set_handler : host -> bool * host;
  su_running : host -> bool * host;
  (** [execvp] returns only when it fails. *)
  su_execvp (argv : list string) (env : environ) : host -> bool * host
}.

(** How [main] ends. *)
Inductive main_end :=
| Exited (r : unit + broker_error)
| Became (argv : list string) (env : environ).

Definition has_nul (s : string) : bool :=
  existsb (fun c => Ascii.eqb c Ascii.zero) (String.list_ascii_of_string s).

(** [Path::join] of a relative name. *)
Definition path_join (dir name : string) : string :=
  if (dir =? EmptyString)%string || bool_decide (String.get (String.length dir - 1) dir = Some "/"%char)
  then (dir +:+ name)%string else (dir +:+ "/" +:+ name)%string.

Section main.
Context {host : Type} `{!Launcher host} `{!Processes host} `{!Startup host} `{!Profile}.
(** [serde_json], both ways. *)
Context (parse_spec : string -> option PoolSpec) (to_json : list WorkerIOSurfacePoolSpec -> string).

(** The [map] over [--pool], up to the first that does not parse. *)
Fixpoint parse_pools (index : nat) (pools : list string) : list PoolSpec + broker_error :=
  match pools with
  | [] => inl []
  | json :: pools =>
      match parse_spec json with
      | None => inr (ParsePool index)
      | Some spec =>
          match parse_pools (S index) pools with
          | inl specs => inl (spec :: specs)
          | inr e => inr e
          end
      end
  end.

(** The worker's log file, opened once its path is found valid. *)
Definition open_worker_log (worker_path : string) (h : host) : bool * host :=
  match su_env h "VT_FERRY_HOST_WORKER_STDERR_LOG"%string, validate_worker_path (su_stat h) worker_path with
  | Some path, inl _ => su_open_log path h
  | _, _ => (true, h)
  end.

(** [HostWorkerHandle::spawn_socket] with its effects: the command of [Broker] is run. *)
Definition start_worker (worker_path : string) (specs : list WorkerIOSurfacePoolSpec)
    (socket_path : string) (h : host) : (Z + spawn_error) * host :=
  let '(log_ok, h) := open_worker_log worker_path h in
  match spawn_socket (su_stat h) (fun _ => log_ok) to_json (su_env h) worker_path specs socket_path with
  | inr e => (inr e, h)
  | inl c =>
      match su_spawn c h with
      | (Some pid, h) => (inl pid, h)
      | (None, h) => (inr SpawnFailed, h)
      end
  end.

(** [while running.load() { sleep(200ms) }]; [None]: out of fuel. *)
Fixpoint signal_loop (fuel : nat) (h : host) : option unit * host :=
  match fuel with
  | O => (None, h)
  | S fuel =>
      match su_running h with
      | (true, h) => signal_loop fuel (pr_sleep 200 h)
      | (false, h) => (Some tt, h)
      end
  end.

Definition wait_for_termination_signal (fuel : nat) (h : host) : option (unit + broker_error) * host :=
  match su_set_handler h with
  | (false, h) => (Some (inr NoHandler), h)
  | (true, h) =>
      match signal_loop fuel h with
      | (None, h) => (None, h)
      | (Some _, h) => (Some (inl tt), h)
      end
  end.

(** The child of the TCP mode, supervised to its end, with what follows while the bridge
    and the worker live. *)
Definition run_child (fuel : nat) (args : Args) (child : command) (worker : Z) (h : host)
    : option (unit + broker_error) * host :=
  match su_spawn child h with
  | (None, h) => (Some (inr ChildSpawn), h)
  | (Some pid, h) =>
      match supervise fuel pid worker h with
      | (None, h) => (None, h)
      | (Some r, h) =>
          match tcp_outcome r with
          | inr e => (Some (inr (Supervision e)), h)
          | inl _ =>
              if ar_hold_after_child args then wait_for_termination_signal fuel h
              else (Some (inl tt), h)
          end
      end
  end.

(** The TCP mode, from the worker on. *)
Definition run_tcp (fuel : nat) (args : Args) (program : string) (rest : list string)
    (worker_specs : list WorkerIOSurfacePoolSpec) (runtime_dir : string) (h : host)
    : option (unit + broker_error) * host :=
  let socket_path := path_join runtime_dir "w.sock" in
  let h := su_remove_file socket_path h in
  match start_worker (ar_host_worker args) worker_specs socket_path h with
  | (inr e, h) => (Some (inr (WorkerError e)), h)
  | (inl worker, h) =>
      match su_bridge_start (ar_tcp_bind args) (ar_tcp_port args) socket_path h with
      | (None, h) => (Some (inr BridgeError), drop_worker worker h)
      | (Some bridge_port, h) =>
          let child := mk_command program rest None
            (tcp_child_env (ar_tcp_guest_host args) bridge_port (su_env h)) in
          let '(r, h) := run_child fuel args child worker h in
          (r, drop_worker worker (su_bridge_drop bridge_port h))
      end
  end.

(** The vsock mode, from the worker on.  The entries and the worker are forgotten before
    [execvp]: the boolean tells whether the entries are still to be dropped. *)
Definition run_vsock (args : Args) (argv : list string)
    (worker_specs : list WorkerIOSurfacePoolSpec) (h : host) : main_end * bool * host :=
  let socket_path := path_join (su_temp_dir h)
    ("vt-ferry-vsock-" +:+ to_string (su_pid h) +:+ "-" +:+ to_string (ar_vsock_port args) +:+ ".sock")%string in
  let h := su_remove_file socket_path h in
  match start_worker (ar_host_worker args) worker_specs socket_path h with
  | (inr e, h) => (Exited (inr (WorkerError e)), true, h)
  | (inl _, h) =>
      let env := vsock_child_env (ar_vsock_port args) socket_path (su_env h) in
      if existsb has_nul argv then (Exited (inr NulInCommand), false, h) else
      match su_execvp argv env h with
      | (true, h) => (Became argv env, false, h)
      | (false, h) => (Exited (inr ExecFailed), false, h)
      end
  end.

(** [None]: out of fuel in a waiting loop. *)
Definition broker_main (fuel : nat) (args : Args) (h : host) : rust (option main_end * host) :=
  match ar_pools args, ar_child args with
  | [], _ => Val (Some (Exited (inr NoPools)), h)
  | _, [] => Val (Some (Exited (inr NoChild)), h)
  | pools, program :: rest =>
      match parse_pools 0 pools with
      | inr e => Val (Some (Exited (inr e)), h)
      | inl specs =>
          match allocate_pools specs h with
          | Panic => Panic
          | Val (inr e, h) => Val (Some (Exited (inr (PoolError e))), h)
          | Val (inl (entries, worker_specs), h) =>
              match register_ports entries h with
              | Panic => Panic
              | Val (inr e, h) => Val (Some (Exited (inr (PoolError e))), drop_entries entries h)
              | Val (inl _, h) =>
                  let runtime_dir :=
                    default (path_join (su_temp_dir h) ("vt-ferry-broker-" +:+ to_string (su_pid h))%string)
                      (ar_runtime_dir args) in
                  match su_create_dir_all runtime_dir h with
                  | (false, h) => Val (Some (Exited (inr RuntimeDir)), drop_entries entries h)
                  | (true, h) =>
                      match ar_transport args with
                      | ModeTcp =>
                          let '(r, h) := run_tcp fuel args program rest worker_specs runtime_dir h in
                          Val (Exited <$> r, drop_entries entries h)
                      | ModeVsock =>
                          let '(r, to_drop, h) := run_vsock args (program :: rest) worker_specs h in
                          Val (Some r, if to_drop then drop_entries entries h else h)
                      end
                  end
              end
          end
      end
  end.
End main.

(** ** What the calls do to what the broker holds

    Beside the surfaces and port rights: the processes spawned and not waited for, with
    their commands, and the listening bridges. *)
Class Staff (host : Type) := {
  children : host -> gmap Z command;
  listening : host -> gmultiset Z
}.

Definition staff {host} `{!Staff host} (h : host) := (children h, listening h).
Definition books {host} `{!Launcher host, !LauncherLaws host, !Staff host} (h : host) :=
  (held h, rights h, children h, listening h).

Class StartupLaws (host : Type)
    `{!Launcher host, !LauncherLaws host, !Processes host, !Startup host, !Staff host} := {
  law_create_staff props h : staff (lc_surface_create props h).2 = staff h;
  law_port_staff s h : staff (lc_create_mach_port s h).2 = staff h;
  law_release_staff s h : staff (lc_release s h) = staff h;
  law_deallocate_staff p h : staff (lc_port_deallocate p h) = staff h;
  law_register_staff ports h : staff (lc_ports_register ports h).2 = staff h;
  law_open_log path h : books (su_open_log path h).2 = books h;
  law_create_dir path h : books (su_create_dir_all path h).2 = books h;
  law_remove_file path h : books (su_remove_file path h) = books h;
  law_set_handler h : books (su_set_handler h).2 = books h;
  law_running h : books (su_running h).2 = books h;
  law_pr_sleep ms h : books (pr_sleep ms h) = books h;
  law_kill pid h : books (pr_kill pid h) = books h;
  law_execvp argv env h : books (su_execvp argv env h).2 = books h;
  law_spawn c h r h' : su_spawn c h = (r, h') ->
    match r with
    | Some pid => children h !! pid = None /\
        books h' = (held h, rights h, <[pid := c]> (children h), listening h)
    | None => books h' = books h
    end;
  law_bridge_start bind port path h r h' : su_bridge_start bind port path h = (r, h') ->
    books h' = (held h, rights h, children h,
                match r with Some p => {[+ p +]} ⊎ listening h | None => listening h end);
  law_bridge_drop p h : books (su_bridge_drop p h) = (held h, rights h, children h, listening h ∖ {[+ p +]});
  (** [waitpid] on a process not waited for does not fail; one waited for is not
      running. *)
  law_try_wait pid h r h' : pr_try_wait pid h = (r, h') ->
    (is_Some (children h !! pid) -> r <> None) /\ (children h !! pid = None -> r <> Some None) /\
    books h' = (held h, rights h,
                match r with Some (Some _) => delete pid (children h) | _ => children h end, listening h);
  law_wait pid h r h' : is_Some (children h !! pid) -> pr_wait pid h = (r, h') ->
    r <> None /\ books h' = (held h, rights h, delete pid (children h), listening h)
}.

Section leaves.
Context {host : Type} `{!Launcher host, !LauncherLaws host, !Processes host, !Startup host, !Staff host}.
Context `{!StartupLaws host} `{!Profile}.
Context (parse_spec : string -> option PoolSpec) (to_json : list WorkerIOSurfacePoolSpec -> string).
Implicit Types (h : host) (es : list OwnedIOSurfacePoolEntry).

Lemma books_staff h h' : books h' = books h ->
  held h' = held h /\ rights h' = rights h /\ children h' = children h /\ listening h' = listening h.
Proof. unfold books. intros [= -> -> -> ->]. done. Qed.

Lemma drop_entries_staff es : forall h, staff (drop_entries es h) = staff h.
Proof.
  induction es as [|e es IH]; intros h; [done|].
  change (staff (drop_entries es (drop_entry e h)) = staff h). rewrite IH. unfold drop_entry.
  repeat case_match; by rewrite ?law_release_staff, ?law_deallocate_staff.
Qed.

Lemma allocate_pool_staff spec h r h' : allocate_pool spec h = Val (r, h') -> staff h' = staff h.
Proof.
  unfold allocate_pool, create_packed_bgra_iosurface, mbind, B_bind, pure_rust, on_host, mret, B_ret.
  intros E. repeat case_match; simplify_eq; try done;
  repeat match goal with
  | E : lc_surface_create ?p ?h = (_, ?h') |- _ =>
      pose proof (law_create_staff p h); rewrite E in *; clear E
  | E : lc_create_mach_port ?p ?h = (_, ?h') |- _ =>
      pose proof (law_port_staff p h); rewrite E in *; clear E
  end; cbn in *; rewrite ?law_release_staff; congruence.
Qed.

Lemma allocate_each_staff specs : forall es wss h r h',
  allocate_each specs es wss h = Val (r, h') -> staff h' = staff h.
Proof.
  induction specs as [|spec specs IH]; intros es wss h r h'; cbn; [by intros [= <- <-]|].
  unfold mbind at 1, B_bind at 1. destruct (allocate_pool spec h) as [[[[e ws]|err] h1]|] eqn:Ea; [| |done].
  - intros E. rewrite (IH _ _ _ _ _ E). by eapply allocate_pool_staff.
  - intros [= <- <-]. rewrite drop_entries_staff. by eapply allocate_pool_staff.
Qed.

Lemma allocate_pools_staff specs h r h' : allocate_pools specs h = Val (r, h') -> staff h' = staff h.
Proof.
  unfold allocate_pools. destruct (_ >? _); [by intros [= <- <-]|apply allocate_each_staff].
Qed.

Lemma register_ports_books es h r h' : register_ports es h = Val (r, h') -> books h' = books h.
Proof.
  unfold register_ports, mbind, B_bind, on_host, mret, B_ret. intros E.
  destruct (bool_decide _); [by simplify_eq|]. destruct (_ >? _); [by simplify_eq|].
  destruct (lc_ports_register _ h) as [kr h1] eqn:Er. simplify_eq.
  destruct (law_register _ _ _ _ Er) as [H1 H2]. pose proof (law_register_staff (oe_mach_port <$> es) h) as Hs.
  rewrite Er in Hs. unfold staff in Hs. cbn in Hs. injection Hs as H3 H4. unfold books. congruence.
Qed.

(** [h'] is [h] with the process [w] running [c]. *)
Definition hires (w : Z) (c : command) h h' : Prop :=
  children h !! w = None /\ books h' = (held h, rights h, <[w := c]> (children h), listening h).

Lemma books_trans h1 h2 h3 x : books h1 = books h2 -> books h3 = (held h1, rights h1, x, listening h1) ->
  books h3 = (held h2, rights h2, x, listening h2).
Proof. intros (-> & -> & _ & ->)%books_staff. done. Qed.

Lemma hires_after w c h1 h2 h3 : books h1 = books h2 -> hires w c h1 h3 -> hires w c h2 h3.
Proof.
  intros E [Hn Hb]. apply books_staff in E as (E1 & E2 & E3 & E4). split; congruence.
Qed.

Lemma start_worker_books path specs socket h r h' :
  start_worker to_json path specs socket h = (r, h') ->
  match r with
  | inl w => exists c, cmd_program c = path /\ cmd_args c = [socket] /\ hires w c h h'
  | inr _ => books h' = books h
  end.
Proof.
  unfold start_worker. destruct (open_worker_log path h) as [log_ok h1] eqn:El.
  assert (books h1 = books h) as Hb.
  { unfold open_worker_log in El. destruct (su_env h _) as [log|]; [|by simplify_eq].
    destruct (validate_worker_path _ _); [|by simplify_eq].
    pose proof (law_open_log log h) as L. by rewrite El in L. }
  intros E. destruct (spawn_socket _ _ _ _ _ _ _) as [c|e] eqn:Ec; [|injection E as <- <-; exact Hb].
  assert (cmd_program c = path /\ cmd_args c = [socket]) as [Hp Ha].
  { unfold spawn_socket in Ec. destruct (validate_worker_path _ _); [|done].
    destruct (from_option _ _ _); [done|]. by injection Ec as <-. }
  destruct (su_spawn c h1) as [[pid|] h2] eqn:Es; injection E as <- <-;
    pose proof (law_spawn _ _ _ _ Es) as L; cbn in L; [|congruence].
  exists c. split_and!; [done|done|]. by apply (hires_after _ _ h1).
Qed.

Lemma drop_worker_books w h :
  books (drop_worker w h) = (held h, rights h, delete w (children h), listening h).
Proof.
  unfold drop_worker. destruct (pr_try_wait w h) as [r h1] eqn:Et.
  destruct (law_try_wait _ _ _ _ Et) as (Hs & Hn & Hb).
  destruct (children h !! w) as [c|] eqn:Ew.
  - specialize (Hs ltac:(eauto)). destruct r as [[st|]|]; [done| |done].
    destruct (pr_wait w (pr_kill w h1)) as [r2 h2] eqn:Ewt. cbn.
    assert (books (pr_kill w h1) = books h) as Hk by (rewrite law_kill; exact Hb).
    apply books_staff in Hk as (K1 & K2 & K3 & K4).
    destruct (law_wait w (pr_kill w h1) r2 h2) as [_ ->]; [|done|congruence]. rewrite K3. eauto.
  - specialize (Hn eq_refl). rewrite (delete_id _ _ Ew). destruct r as [[st|]|]; [|done|done].
    by rewrite (delete_id _ _ Ew) in Hb.
Qed.

(** Both processes are waited for, or will be by [drop]. *)
Lemma supervise_books fuel child worker : forall h r h', child <> worker ->
  is_Some (children h !! child) -> is_Some (children h !! worker) ->
  supervise fuel child worker h = (Some r, h') ->
  held h' = held h /\ rights h' = rights h /\ listening h' = listening h /\
  delete worker (children h') = delete worker (delete child (children h)).
Proof.
  induction fuel as [|fuel IH]; intros h r h' Hne Hc Hw E; [done|]. cbn [supervise] in E.
  destruct (pr_try_wait child h) as [rc h1] eqn:E1. destruct (law_try_wait _ _ _ _ E1) as (H1 & _ & B1).
  specialize (H1 Hc). destruct rc as [[st|]|]; [|clear H1|done].
  { unfold books in B1. injection B1 as A1 A2 A3 A4. injection E as _ <-. rewrite A1, A2, A3, A4. done. }
  destruct (pr_try_wait worker h1) as [rw h2] eqn:E2. destruct (law_try_wait _ _ _ _ E2) as (H2 & _ & B2).
  apply books_staff in B1 as (A1 & A2 & A3 & A4).
  rewrite A3 in H2. specialize (H2 Hw). destruct rw as [[st|]|]; [| |done].
  - destruct (pr_wait child (pr_kill child h2)) as [rk h3] eqn:E3.
    pose proof (law_kill child h2) as Bk. rewrite B2 in Bk. unfold books in Bk. injection Bk as K1 K2 K3 K4.
    destruct (law_wait child (pr_kill child h2) rk h3) as [Hr B3]; [|done|].
    { rewrite K3, A3, lookup_delete_ne by done. done. }
    unfold books in B3. injection B3 as C1 C2 C3 C4.
    assert (h' = h3) as -> by (by destruct rk; simplify_eq).
    rewrite C1, C2, C3, C4, K1, K2, K3, K4, A1, A2, A3, A4. split_and!; [done..|].
    rewrite (delete_delete _ child worker), delete_delete_eq. done.
  - assert (books (pr_sleep 100 h2) = books h) as Hb.
    { rewrite law_pr_sleep, B2. unfold books. congruence. }
    apply books_staff in Hb as (D1 & D2 & D3 & D4).
    destruct (IH (pr_sleep 100 h2) r h') as (F1 & F2 & F3 & F4); [done|by rewrite D3|by rewrite D3|done|].
    rewrite F1, F2, F3, F4, D1, D2, D3, D4. done.
Qed.

Lemma signal_loop_books fuel : forall h r h', signal_loop fuel h = (r, h') -> books h' = books h.
Proof.
  induction fuel as [|fuel IH]; intros h r h' E; [by simplify_eq/=|]. cbn [signal_loop] in E.
  pose proof (law_running h) as L. destruct (su_running h) as [[] h1]; cbn in L; [|injection E as _ <-; exact L].
  rewrite (IH _ _ _ E), law_pr_sleep. done.
Qed.

Lemma signal_books fuel h r h' : wait_for_termination_signal fuel h = (r, h') -> books h' = books h.
Proof.
  unfold wait_for_termination_signal. intros E. pose proof (law_set_handler h) as L.
  destruct (su_set_handler h) as [[] h1]; cbn in L; [|injection E as _ <-; exact L].
  destruct (signal_loop fuel h1) as [o h2] eqn:Es. rewrite <- L, <- (signal_loop_books _ _ _ _ Es).
  by destruct o; injection E as _ <-.
Qed.

Lemma run_child_books fuel args child worker h r h' : is_Some (children h !! worker) ->
  run_child fuel args child worker h = (Some r, h') ->
  held h' = held h /\ rights h' = rights h /\ listening h' = listening h /\
  delete worker (children h') = delete worker (children h).
Proof.
  intros Hw E. unfold run_child in E. destruct (su_spawn child h) as [[pid|] h1] eqn:Es;
    pose proof (law_spawn _ _ _ _ Es) as L; cbn in L.
  2: { injection E as _ <-. apply books_staff in L as (-> & -> & -> & ->). done. }
  destruct L as [Hn Hb]. unfold books in Hb. injection Hb as A1 A2 A3 A4.
  assert (pid <> worker) as Hne by (intros ->; rewrite Hn in Hw; by destruct Hw).
  destruct (supervise fuel pid worker h1) as [[r1|] h2] eqn:Ev; [|done].
  destruct (supervise_books fuel pid worker h1 r1 h2) as (S1 & S2 & S3 & S4); [done|..|done|].
  { rewrite A3, lookup_insert_eq. eauto. }
  { rewrite A3, lookup_insert_ne by done. done. }
  assert (books h' = books h2) as (B1 & B2 & B3 & B4)%books_staff.
  { destruct (tcp_outcome r1); [|by injection E as _ <-].
    destruct (ar_hold_after_child args); [|by injection E as _ <-].
    by eapply signal_books. }
  rewrite B1, B2, B3, B4, S1, S2, S3, S4, A1, A2, A3, A4, delete_insert_id by done. done.
Qed.

Lemma run_tcp_books fuel args program rest specs dir h r h' :
  run_tcp to_json fuel args program rest specs dir h = (Some r, h') -> books h' = books h.
Proof.
  unfold run_tcp. set (socket := path_join _ _). intros E.
  pose proof (law_remove_file socket h) as Lr. revert E Lr. generalize (su_remove_file socket h) as h1.
  intros h1 E Lr. destruct (start_worker _ _ _ _ h1) as [[w|e] h2] eqn:Ew;
    pose proof (start_worker_books _ _ _ _ _ _ Ew) as L; cbn in L; [|injection E as _ <-; congruence].
  destruct L as (c & _ & _ & Hh). apply (hires_after _ _ _ h) in Hh as [Hn Hb]; [|done].
  unfold books in Hb. injection Hb as A1 A2 A3 A4.
  destruct (su_bridge_start _ _ _ h2) as [[p|] h3] eqn:Eb; pose proof (law_bridge_start _ _ _ _ _ _ Eb) as L;
    unfold books in L; injection L as B1 B2 B3 B4.
  - destruct (run_child _ _ _ w h3) as [[r1|] h4] eqn:Er; [|done]. injection E as _ <-.
    destruct (run_child_books _ _ _ _ _ _ _ ltac:(rewrite B3, A3, lookup_insert_eq; eauto) Er)
      as (C1 & C2 & C3 & C4).
    pose proof (law_bridge_drop p h4) as Ld. unfold books in Ld. injection Ld as D1 D2 D3 D4.
    rewrite drop_worker_books, D1, D2, D3, D4, C1, C2, C3, C4, B1, B2, B3, B4, A1, A2, A3, A4.
    by rewrite take_back_1, delete_insert_id.
  - injection E as _ <-. rewrite drop_worker_books, B1, B2, B3, B4, A1, A2, A3, A4.
    by rewrite delete_insert_id.
Qed.

Lemma run_vsock_books args argv specs h r to_drop h' :
  run_vsock to_json args argv specs h = (r, to_drop, h') ->
  if to_drop then books h' = books h /\ exists e, r = Exited (inr (WorkerError e)) else
  exists w c socket, cmd_program c = ar_host_worker args /\ cmd_args c = [socket] /\ hires w c h h' /\
    match r with
    | Became argv' env => argv' = argv /\ env "SMOLVM_VSOCK_PORT_COUNT"%string = Some "1"%string /\
        env "SMOLVM_VSOCK_PORT_0"%string = Some (to_string (ar_vsock_port args) +:+ ":" +:+ socket)%string
    | Exited r => r = inr NulInCommand \/ r = inr ExecFailed
    end.
Proof.
  unfold run_vsock. set (socket := path_join _ _). intros E.
  pose proof (law_remove_file socket h) as Lr. revert E Lr. generalize (su_remove_file socket h) as h1.
  intros h1 E Lr. destruct (start_worker _ _ _ _ h1) as [[w|e] h2] eqn:Ew;
    pose proof (start_worker_books _ _ _ _ _ _ Ew) as L; cbn in L.
  2: { injection E as <- <- <-. split; [congruence|eauto]. }
  destruct L as (c & Hp & Ha & Hh). apply (hires_after _ _ _ h) in Hh; [|done].
  destruct (existsb has_nul argv).
  { injection E as <- <- <-. exists w, c, socket. split_and!; auto. }
  pose proof (law_execvp argv (vsock_child_env (ar_vsock_port args) socket (su_env h2)) h2) as Lx.
  destruct (su_execvp _ _ h2) as [[] h3]; cbn in Lx; injection E as <- <- <-;
    exists w, c, socket; (do 2 (split; [done|]));
    (split; [by destruct Hh; split; [done|congruence]|]); [|by right].
  split_and!; [done|unfold vsock_child_env, set_var..].
  - by rewrite bool_decide_eq_false_2, bool_decide_eq_true_2.
  - by rewrite bool_decide_eq_true_2.
Qed.

Lemma owns_books es h1 h2 h : books h2 = books h1 -> owns es h h1 -> owns es h h2.
Proof. intros (E1 & E2 & _)%books_staff [O1 O2]. split; congruence. Qed.

(** Dropping the entries gives the books of the start back. *)
Lemma drop_entries_books es h h1 : owns es h h1 -> staff h1 = staff h ->
  Forall (fun e => oe_surface e <> 0 /\ oe_mach_port e <> 0) es -> books (drop_entries es h1) = books h.
Proof.
  intros Ho Hs Hes. destruct (drop_entries_ok es h1 h Ho Hes) as [H1 H2].
  pose proof (drop_entries_staff es h1) as H3. rewrite Hs in H3. unfold staff in H3. injection H3 as H3 H4.
  change (surfaces_of []) with (∅ : gmultiset Z) in H1. change (ports_of []) with (∅ : gmultiset Z) in H2.
  rewrite (left_id_L ∅ (⊎)) in H1, H2. unfold books. congruence.
Qed.

Lemma entries_for_nonzero specs es wss : Forall3 (entry_for (lc_page_size (host:=host))) specs es wss ->
  Forall (fun e => oe_surface e <> 0 /\ oe_mach_port e <> 0) es.
Proof. induction 1 as [|spec e ws ? ? ? [] _ IH]; constructor; auto. Qed.

(** C15: what a run of the broker leaves behind. When [main] returns, on
    whichever path, the surfaces, the port rights, the processes and the
    listening bridges it made are all gone: every process was waited for. The
    one exception is a vsock run that fails after its worker started, as
    [execvp] does for a program that is not there: the worker goes on running.
    When the broker becomes the child, the child's arguments are those given,
    the worker runs, listening at the socket the child is told. By POSIX,
    waiting for a child that was not waited for does not fail
    ([LauncherLaws]), so the returns of [main] for a failed poll are not
    taken. *)
Theorem broker_main_leaves fuel args h r h' :
  broker_main parse_spec to_json fuel args h = Val (Some r, h') ->
  match r with
  | Exited res =>
      books h' = books h \/
      ar_transport args = ModeVsock /\ (res = inr NulInCommand \/ res = inr ExecFailed) /\
      exists w c, children h !! w = None /\ children h' = <[w := c]> (children h) /\
        cmd_program c = ar_host_worker args
  | Became argv env =>
      ar_transport args = ModeVsock /\ argv = ar_child args /\
      exists w c socket, children h !! w = None /\ children h' = <[w := c]> (children h) /\
        cmd_program c = ar_host_worker args /\ cmd_args c = [socket] /\
        env "SMOLVM_VSOCK_PORT_COUNT"%string = Some "1"%string /\
        env "SMOLVM_VSOCK_PORT_0"%string = Some (to_string (ar_vsock_port args) +:+ ":" +:+ socket)%string
  end.
Proof.
  unfold broker_main. intros E.
  destruct (ar_pools args) as [|p ps]; [injection E as <- <-; by left|].
  destruct (ar_child args) as [|program rest]; [injection E as <- <-; by left|].
  destruct (parse_pools _ _ _) as [specs|e]; [|injection E as <- <-; by left].
  destruct (allocate_pools specs h) as [[[[es wss]|e] h1]|] eqn:Ea; [| |done];
    pose proof (allocate_pools_conserves _ _ _ _ Ea) as La; pose proof (allocate_pools_staff _ _ _ _ Ea) as Ls.
  2: { injection E as <- <-. left. destruct La as [L1 L2]. unfold staff in Ls. injection Ls as L3 L4.
       unfold books. congruence. }
  destruct La as (O1 & O2 & Hf & _). apply entries_for_nonzero in Hf.
  assert (owns es h h1) as Ho by done. clear O1 O2 Ea.
  destruct (register_ports es h1) as [[er h2]|] eqn:Er; [|done]. apply register_ports_books in Er.
  assert (forall h3, books h3 = books h1 -> books (drop_entries es h3) = books h) as Hdrop.
  { intros h3 Hb. apply drop_entries_books; [by eapply owns_books| |done].
    apply books_staff in Hb as (_ & _ & B3 & B4). rewrite <- Ls. unfold staff. congruence. }
  destruct er as [[]|e]; [|injection E as <- <-; left; by apply Hdrop].
  set (dir := default _ _) in E. pose proof (law_create_dir dir h2) as Lc.
  destruct (su_create_dir_all dir h2) as [[] h3]; cbn in Lc; [|injection E as <- <-; left; apply Hdrop; congruence].
  assert (books h3 = books h1) as H31 by congruence.
  destruct (ar_transport args).
  - destruct (run_vsock _ _ _ _ h3) as [[r1 d] h4] eqn:Ev. apply run_vsock_books in Ev. injection E as <- <-.
    destruct d.
    + destruct Ev as [Hb [e ->]]. left. apply Hdrop. congruence.
    + destruct Ev as (w & c & socket & Hp & Hargs & Hh & Hr).
      apply (hires_after _ _ _ h1) in Hh as [Hn Hb]; [|done].
      unfold books in Hb. injection Hb as _ _ B3 _. unfold staff in Ls. injection Ls as L3 _.
      rewrite L3 in Hn, B3. destruct r1 as [res|argv env].
      * right. split_and!; [done|done|]. by exists w, c.
      * destruct Hr as (-> & H1 & H2). split_and!; [done|done|]. by exists w, c, socket.
  - destruct (run_tcp _ _ _ _ _ _ _ h3) as [[r1|] h4] eqn:Et; [|done]. apply run_tcp_books in Et.
    injection E as <- <-. left. apply Hdrop. congruence.
Qed.
End leaves.

(** ** A concrete run

    A host that numbers what it makes upwards; the child exits with success when it has
    been polled three times; there is no program to [execvp]. *)
Record demo_desk := mk_demo_desk {
  dd_next : positive; dd_held : gmultiset Z; dd_rights : gmultiset Z;
  dd_children : gmap Z command; dd_listening : gmultiset Z; dd_polls : nat
}.

Definition dd_held_set (f : gmultiset Z -> gmultiset Z) (d : demo_desk) : demo_desk :=
  mk_demo_desk (dd_next d) (f (dd_held d)) (dd_rights d) (dd_children d) (dd_listening d) (dd_polls d).
Definition dd_rights_set (f : gmultiset Z -> gmultiset Z) (d : demo_desk) : demo_desk :=
  mk_demo_desk (dd_next d) (dd_held d) (f (dd_rights d)) (dd_children d) (dd_listening d) (dd_polls d).
Definition dd_listening_set (f : gmultiset Z -> gmultiset Z) (d : demo_desk) : demo_desk :=
  mk_demo_desk (dd_next d) (dd_held d) (dd_rights d) (dd_children d) (f (dd_listening d)) (dd_polls d).
Definition dd_reap (pid : Z) (d : demo_desk) : demo_desk :=
  mk_demo_desk (dd_next d) (dd_held d) (dd_rights d) (delete pid (dd_children d)) (dd_listening d) (dd_polls d).
Definition dd_bump (d : demo_desk) : demo_desk :=
  mk_demo_desk (Pos.succ (dd_next d)) (dd_held d) (dd_rights d) (dd_children d) (dd_listening d) (dd_polls d).
Definition dd_poll (d : demo_desk) : demo_desk :=
  mk_demo_desk (dd_next d) (dd_held d) (dd_rights d) (dd_children d) (dd_listening d) (S (dd_polls d)).

#[local] Instance desk_launcher : Launcher demo_desk := {|
  lc_page_size := 16384;
  lc_surface_create _ d := (Z.pos (dd_next d), dd_bump (dd_held_set (fun m => {[+ Z.pos (dd_next d) +]} ⊎ m) d));
  lc_surface_id _ s := s + 1000;
  lc_create_mach_port s d := (Z.pos (dd_next d), dd_bump (dd_rights_set (fun m => {[+ Z.pos (dd_next d) +]} ⊎ m) d));
  lc_release s d := dd_held_set (fun m => m ∖ {[+ s +]}) d;
  lc_port_deallocate p d := dd_rights_set (fun m => m ∖ {[+ p +]}) d;
  lc_ports_register _ d := (0, d)
|}.
#[local] Instance desk_launcher_laws : LauncherLaws demo_desk.
Proof.
  refine {| held := dd_held; rights := dd_rights |}; try done.
  - intros props h s h' [= <- <-]. done.
  - intros s h p h' [= <- <-]. done.
  - intros ports h kr h' [= <- <-]. done.
Defined.
#[local] Instance desk_processes : Processes demo_desk := {|
  pr_try_wait pid d :=
    match dd_children d !! pid with
    | Some c =>
        if (cmd_program c =? "child")%string && (6 <=? dd_polls d)%nat
        then (Some (Some true), dd_reap pid d) else (Some None, dd_poll d)
    | None => (Some (Some true), d)
    end;
  pr_kill _ d := d;
  pr_wait pid d := (Some false, dd_reap pid d);
  pr_sleep _ d := d
|}.
#[local] Instance desk_startup : Startup demo_desk := {|
  su_pid _ := 42;
  su_temp_dir _ := "/tmp/"%string;
  su_env _ := no_env;
  su_stat _ path := if (path =? "/bin/worker")%string then Some (mk_metadata true 0x1ed) else None;
  su_open_log _ d := (true, d);
  su_create_dir_all _ d := (true, d);
  su_remove_file _ d := d;
  su_spawn c d :=
    if decide (dd_children d !! Z.pos (dd_next d) = None)
    then (Some (Z.pos (dd_next d)),
      mk_demo_desk (Pos.succ (dd_next d)) (dd_held d) (dd_rights d)
        (<[Z.pos (dd_next d) := c]> (dd_children d)) (dd_listening d) (dd_polls d))
    else (None, d);
  su_bridge_start _ _ _ d := (Some 6601, dd_listening_set (fun m => {[+ 6601 +]} ⊎ m) d);
  su_bridge_drop p d := dd_listening_set (fun m => m ∖ {[+ p +]}) d;
  su_set_handler d := (true, d);
  su_running d := (false, d);
  su_execvp _ _ d := (false, d)
|}.
#[local] Instance desk_staff : Staff demo_desk := {| children := dd_children; listening := dd_listening |}.
#[local] Instance desk_laws : StartupLaws demo_desk.
Proof.
  refine {| law_execvp := _ |}; try done.
  - intros c h r h'. cbn. case_decide; intros [= <- <-]; done.
  - intros bind port path h r h' [= <- <-]. done.
  - intros pid h r h'. cbn. destruct (dd_children h !! pid) as [c|] eqn:Ec.
    + destruct (_ && _); intros [= <- <-]; split_and!; try done; congruence.
    + intros [= <- <-]. split_and!; [done|done|]. by rewrite delete_id.
  - intros pid h r h' _ [= <- <-]. done.
Defined.
#[local] Instance desk_profile : Profile := release_build.

Definition demo_parse_spec (_ : string) : option PoolSpec := Some (mk_PoolSpec 0 16 1920 1080 NV12_FOURCC true).
Definition demo_specs_json (_ : list WorkerIOSurfacePoolSpec) : string := "[...]".
Definition demo_desk_start : demo_desk := mk_demo_desk 1 ∅ ∅ ∅ ∅ 0.
Definition demo_args (mode : TransportMode) : Args :=
  mk_Args ["{}"; "{}"] "/bin/worker" mode DEFAULT_VSOCK_PORT "127.0.0.1" 0 "host.docker.internal" true None
    ["child"; "-v"].

(** A TCP run to its end, and a vsock run whose program is not there. *)
Lemma broker_main_leaves_witness :
  (exists h', broker_main demo_parse_spec demo_specs_json 10 (demo_args ModeTcp) demo_desk_start =
     Val (Some (Exited (inl tt)), h') /\ books h' = books demo_desk_start) /\
  (exists h', broker_main demo_parse_spec demo_specs_json 10 (demo_args ModeVsock) demo_desk_start =
     Val (Some (Exited (inr ExecFailed)), h') /\ children h' <> ∅).
Proof.
  split.
  - assert (exists h', broker_main demo_parse_spec demo_specs_json 10 (demo_args ModeTcp) demo_desk_start =
      Val (Some (Exited (inl tt)), h')) as [h' E] by (eexists; by vm_compute).
    exists h'. split; [exact E|].
    destruct (broker_main_leaves _ _ _ _ _ _ _ E) as [Hb|[Hm _]]; [exact Hb|discriminate Hm].
  - assert (exists h', broker_main demo_parse_spec demo_specs_json 10 (demo_args ModeVsock) demo_desk_start =
      Val (Some (Exited (inr ExecFailed)), h')) as [h' E] by (eexists; by vm_compute).
    exists h'. split; [exact E|]. vm_compute in E. injection E as <-. discriminate.
Defined.
