(* ===== verification/Harness.v ===== *)
(** * The zero-copy harness

    [zero-copy-harness/src/main.rs]: a launcher of its own that registers one IOSurface a
    slot, starts the worker and drives one frame through it, checking every reply.  The
    calls to the system are the class [HarnessHost], the connection that of [Transport]
    ([Net]).  Over the worker of this repository the check of the pool's reply fails
    ([harness_never_passes]): a pool of the worker is cut out of a single surface. *)

From S2P Require Import Prelude Wire Protocol Layout Backend Frameworks PoolDirectory.
From S2P Require Import VtReal VtDispatch Server Transport Link LinkVt Broker.
From stdpp Require Import strings.
From Stdlib Require Import Ascii.

Set Default Goal Selector "!".
Open Scope Z_scope.

Definition WIDTH : Z := 256.
Definition HEIGHT : Z := 144.
Definition SLOT_COUNT : nat := 3.
Definition H264_FOURCC : Z := 0x61766331.
Definition SESSION_KIND_ENCODE : Z := 1.

(** Where [main] gives up. *)
Inductive stage :=
| StSurface | StLock | StPort | StRegister | StSpawn | StConnect
| StHello | StSession | StPool | StBacking | StSourceKind (slot : nat) | StSourceHandle (slot : nat)
| StAlloc | StPrepare | StEncode | StDrain | StDequeue | StEmptyOutput | StRead | StEmptySample.

(** [bail] exits the process at once, without dropping anything; an [unwrap] or an index
    out of range panics, which unwinds. *)
Inductive halt := Bailed (s : stage) | Unwound | OutOfTime.

(** The system calls of the harness. *)
Class HarnessHost (host : Type) := {
  hn_surface_create (properties : list (string * Z)) : host -> Z * host;
  hn_surface_id : host -> Z -> Z;
  hn_lock (surface : Z) : host -> Z * host;
  hn_unlock (surface : Z) : host -> host;
  hn_alloc_size : host -> Z -> nat;
  (** The bytes at [IOSurfaceGetBaseAddress], from its start. *)
  hn_fill (surface : Z) (bytes : list byte) : host -> host;
  hn_create_mach_port (surface : Z) : host -> Z * host;
  hn_ports_register (ports : list Z) : host -> Z * host;
  hn_pid : host -> Z;
  hn_env : host -> environ;
  hn_remove_file (path : string) : host -> host;
  hn_spawn (c : command) : host -> option Z * host;
  hn_kill (pid : Z) : host -> host;
  hn_wait (pid : Z) : host -> host;
  hn_now : host -> Z;
  hn_sleep (milliseconds : Z) : host -> host
}.

(** ** Surfaces *)

(** The numbers of the property dictionary, each a C [int]. *)
Definition bgra_properties `{!Profile} (width height : Z) : rust (list (string * Z)) :=
  bpr ← arith 32 (width * 4);
  mret [ ("kIOSurfaceWidth"%string, as_signed 32 width);
         ("kIOSurfaceHeight"%string, as_signed 32 height);
         ("kIOSurfaceBytesPerElement"%string, 4);
         ("kIOSurfaceBytesPerRow"%string, as_signed 32 bpr);
         ("kIOSurfacePixelFormat"%string, as_signed 32 BGRA_FOURCC) ].

(** [((i.wrapping_mul(53).wrapping_add(29)) & 0xFF) as u8] *)
Definition pattern_byte (i : nat) : byte :=
  byte.of_Z (Z.land (wrap 64 (wrap 64 (Z.of_nat i * 53) + 29)) 0xFF).
Definition pattern (n : nat) : list byte := pattern_byte <$> seq 0 n.

Section surfaces.
Context {host : Type} `{!HarnessHost host} `{!Profile}.

Definition create_bgra_iosurface (width height : Z) (h : host) : ((Z * Z) + halt) * host :=
  match bgra_properties width height with
  | Panic => (inr Unwound, h)
  | Val properties =>
      let '(surface, h) := hn_surface_create properties h in
      if surface =? 0 then (inr (Bailed StSurface), h)
      else (inl (surface, hn_surface_id h surface), h)
  end.

Definition fill_pattern (surface : Z) (h : host) : (unit + halt) * host :=
  let '(kr, h) := hn_lock surface h in
  if negb (kr =? 0) then (inr (Bailed StLock), h)
  else (inl tt, hn_unlock surface (hn_fill surface (pattern (hn_alloc_size h surface)) h)).

(** The first loop of [main], [n] slots to go. *)
Fixpoint make_surfaces (n : nat) (surfaces ids : list Z) (h : host)
    : ((list Z * list Z) + halt) * host :=
  match n with
  | O => (inl (surfaces, ids), h)
  | S n =>
      match create_bgra_iosurface WIDTH HEIGHT h with
      | (inr e, h) => (inr e, h)
      | (inl (surface, id), h) =>
          match fill_pattern surface h with
          | (inr e, h) => (inr e, h)
          | (inl _, h) => make_surfaces n (surfaces ++ [surface]) (ids ++ [id]) h
          end
      end
  end.

Fixpoint make_ports (surfaces ports : list Z) (h : host) : (list Z + halt) * host :=
  match surfaces with
  | [] => (inl ports, h)
  | surface :: surfaces =>
      let '(port, h) := hn_create_mach_port surface h in
      if port =? 0 then (inr (Bailed StPort), h) else make_ports surfaces (ports ++ [port]) h
  end.

(** ** The worker *)

Definition quoted (name : string) : string :=
  let q := String "034"%char EmptyString in (q +:+ name +:+ q)%string.

(** A member of a JSON object. *)
Definition member (name : string) (value : Z) : string := (quoted name +:+ ":" +:+ to_string value)%string.

(** One entry of the array, for one slot. *)
Definition spec_json (width height slot_count : Z) (slot_index : nat) (id : Z) : string :=
  ("{" +:+ String.concat ","
     [ member "width" width; member "height" height; member "pixel_format" BGRA_FOURCC;
       member "slot_count" slot_count; member "slot_index" (Z.of_nat slot_index);
       member "iosurface_id" id ] +:+ "}")%string.

Definition specs_json (ids : list Z) (width height slot_count : Z) : string :=
  ("[" +:+ String.concat "," (imap (spec_json width height slot_count) ids) +:+ "]")%string.

(** The command of [spawn_worker]. *)
Definition worker_command (env : environ) (pid : Z) (socket_path : string) (ids : list Z)
    (width height slot_count : Z) : command :=
  mk_command (default "target/debug/vt-ferry-worker"%string (env "VT_FERRY_HOST_WORKER_BIN"%string))
    [socket_path] None
    (set_var "VT_FERRY_HOST_WORKER_PARENT_PID" (to_string pid)
       (set_var "VT_FERRY_IOSURFACE_POOL_SPECS_JSON" (specs_json ids width height slot_count)
          (set_var "VT_FERRY_HOST_WORKER_BACKEND" "vt-real" env))).

Definition spawn_worker (socket_path : string) (ids : list Z) (width height slot_count : Z) (h : host)
    : (Z + halt) * host :=
  match hn_spawn (worker_command (hn_env h) (hn_pid h) socket_path ids width height slot_count) h with
  | (Some child, h) => (inl child, h)
  | (None, h) => (inr (Bailed StSpawn), h)
  end.

(** [Drop for WorkerGuard] *)
Definition drop_guard (child : Z) (socket_path : string) (h : host) : host :=
  hn_remove_file socket_path (hn_wait child (hn_kill child h)).
End surfaces.

(** ** Messages *)

Section messages.
Context {net : Type} `{!Net net}.

(** A program that talks to the worker. *)
Definition D (A : Type) : Type := net -> (A + halt) * net.
#[local] Instance D_ret : MRet D := fun A a n => (inl a, n).
#[local] Instance D_bind : MBind D := fun A A' f m n =>
  match m n with (inl a, n) => f a n | (inr e, n) => (inr e, n) end.

Definition halted {A} (e : halt) : D A := fun n => (inr e, n).

Definition write_message (stream opcode request_id : Z) (payload : list byte) : net -> bool * net := fun n =>
  let header := mk_MessageHeader 1 opcode 0 request_id (wrap 32 (len payload)) 0 in
  match net_write_all stream (bytes_of header) n with
  | (false, n) => (false, n)
  | (true, n) =>
      match payload with
      | [] => (true, n)
      | _ => net_write_all stream payload n
      end
  end.

Definition read_message (stream : Z) : net -> option (MessageHeader * list byte) * net := fun n =>
  match net_read_exact stream (size_of MessageHeader) n with
  | (None, n) => (None, n)
  | (Some hdr_buf, n) =>
      let header := pod_read_unaligned (A:=MessageHeader) hdr_buf in
      if mh_payload_len header =? 0 then (Some (header, []), n) else
      match net_read_exact stream (Z.to_nat (mh_payload_len header)) n with
      | (None, n) => (None, n)
      | (Some payload, n) => (Some (header, payload), n)
      end
  end.

(** A request and the check of its status: [HELLO] bails when it cannot be sent
    ([send_failed]), the others unwrap. *)
Definition exchange (stream opcode request_id : Z) (payload : list byte) (send_failed : halt) (s : stage)
    : D (list byte) := fun n =>
  match write_message stream opcode request_id payload n with
  | (false, n) => (inr send_failed, n)
  | (true, n) =>
      match read_message stream n with
      | (None, n) => (inr Unwound, n)
      | (Some (hdr, payload), n) =>
          if negb (mh_status hdr =? 0) then (inr (Bailed s), n) else (inl payload, n)
      end
  end.

(** [pod_read_unaligned(&payload[..size_of::<A>()])] *)
Definition reply_as (A : Type) `{!Pod A} (payload : list byte) : D A :=
  if (length payload <? size_of A)%nat then halted Unwound
  else mret (pod_read_unaligned (take (size_of A) payload)).

(** The checks of the pool's reply, from slot [i] on. *)
Fixpoint check_regions (i n : nat) (ids : list Z) (regions : list SharedRegionReply) : option halt :=
  match n with
  | O => None
  | S n =>
      match regions !! i, ids !! i with
      | Some sr, Some id =>
          if negb (sr_source_kind sr =? VTF_SHARED_REGION_SOURCE_IOSURFACE) then Some (Bailed (StSourceKind i))
          else if negb (sr_source_handle sr =? id) then Some (Bailed (StSourceHandle i))
          else check_regions (S i) n ids regions
      | _, _ => Some Unwound
      end
  end.

Definition check_pool (ids : list Z) (reply : CreateBufferPoolReply) : D unit :=
  if negb (cbr_host_backing_kind reply =? VTF_HOST_BACKING_KIND_IOSURFACE) then halted (Bailed StBacking)
  else match check_regions 0 SLOT_COUNT ids (cbr_shared_regions reply) with
       | Some e => halted e
       | None => mret tt
       end.

(** Steps 4 to 6 of [main]: the session and the pool. *)
Definition open_pool (stream : Z) (ids : list Z) : D (Z * Z) :=
  _ ← exchange stream OP_HELLO 1
        (bytes_of (mk_HelloPayload VTF_TRANSPORT_VERSION 0 0)) (Bailed StHello) StHello;
  payload ← exchange stream OP_CREATE_SESSION 2
        (bytes_of (mk_CreateSessionPayload SESSION_KIND_ENCODE H264_FOURCC WIDTH HEIGHT BGRA_FOURCC
                     30 1 1000000 30)) Unwound StSession;
  cs_reply ← reply_as CreateSessionReply payload;
  let session_id := csr_session_id cs_reply in
  payload ← exchange stream OP_CREATE_BUFFER_POOL 3
        (bytes_of (mk_CreateBufferPoolPayload session_id (Z.of_nat SLOT_COUNT) BGRA_FOURCC WIDTH HEIGHT 0 0))
        Unwound StPool;
  cbp_reply ← reply_as CreateBufferPoolReply payload;
  _ ← check_pool ids cbp_reply;
  mret (session_id, cbr_pool_id cbp_reply).

(** Steps 7 to 12: one frame through the encoder; the sample. *)
Definition encode_one (stream session_id pool_id : Z) : D (list byte) :=
  payload ← exchange stream OP_ALLOC_BUFFER 4
        (bytes_of (mk_AllocBufferPayload pool_id)) Unwound StAlloc;
  alloc_reply ← reply_as AllocBufferReply payload;
  let buffer_id := abr_buffer_id alloc_reply in
  _ ← exchange stream OP_PREPARE_SESSION 5
        (bytes_of (mk_PrepareSessionPayload session_id)) Unwound StPrepare;
  _ ← exchange stream OP_ENCODE_FRAME 6
        (bytes_of (mk_EncodeFramePayload session_id buffer_id buffer_id (abr_generation alloc_reply)
                     0 30 30 1)) Unwound StEncode;
  _ ← exchange stream OP_DRAIN 7 (bytes_of (mk_DrainPayload session_id)) Unwound StDrain;
  payload ← exchange stream OP_DEQUEUE_OUTPUT 8
        (bytes_of (mk_DequeueOutputPayload session_id)) Unwound StDequeue;
  dq_reply ← reply_as DequeueOutputReply payload;
  _ ← (if dor_sample_size dq_reply =? 0 then halted (Bailed StEmptyOutput) else mret tt);
  payload ← exchange stream OP_READ_OUTPUT 9
        (bytes_of (mk_ReadOutputPayload (dor_output_id dq_reply))) Unwound StRead;
  ro_reply ← reply_as ReadOutputReply payload;
  let reply_hdr_size := size_of ReadOutputReply in
  if (length payload <? reply_hdr_size + Z.to_nat (ror_sample_size ro_reply))%nat then halted Unwound else
  let sample_bytes := slice reply_hdr_size (Z.to_nat (ror_sample_size ro_reply)) payload in
  match sample_bytes with
  | [] => halted (Bailed StEmptySample)
  | _ => mret sample_bytes
  end.

(** [main] from the connection on. *)
Definition drive (stream : Z) (ids : list Z) : D (list byte) :=
  '(session_id, pool_id) ← open_pool stream ids;
  encode_one stream session_id pool_id.
End messages.

(** ** The whole run *)

Section run.
Context {host net : Type} `{!HarnessHost host} `{!Net net} `{!Profile}.
(** [UnixStream::connect] *)
Context (unix_connect : string -> net -> option Z * net).

(** The loop of [connect_with_retry]. *)
Fixpoint connect_attempts (fuel : nat) (path : string) (start timeout : Z) (h : host) (n : net)
    : (Z + halt) * host * net :=
  match fuel with
  | O => (inr OutOfTime, h, n)
  | S fuel =>
      match unix_connect path n with
      | (Some stream, n) => (inl stream, h, n)
      | (None, n) =>
          if hn_now h - start <? timeout then connect_attempts fuel path start timeout (hn_sleep 20 h) n
          else (inr (Bailed StConnect), h, n)
      end
  end.

Definition connect_with_retry (fuel : nat) (path : string) (timeout : Z) (h : host) (n : net)
    : (Z + halt) * host * net :=
  connect_attempts fuel path (hn_now h) timeout h n.

(** [main] up to the registered ports: the ids of the surfaces. *)
Definition register_surfaces (h : host) : (list Z + halt) * host :=
  match make_surfaces SLOT_COUNT [] [] h with
  | (inr e, h) => (inr e, h)
  | (inl (surfaces, ids), h) =>
      match make_ports surfaces [] h with
      | (inr e, h) => (inr e, h)
      | (inl ports, h) =>
          let '(kr, h) := hn_ports_register ports h in
          if negb (kr =? KERN_SUCCESS) then (inr (Bailed StRegister), h) else (inl ids, h)
      end
  end.

(** The end of [main]: the worker is dropped and the registered ports cleared. *)
Definition harness_finish (child : Z) (socket_path : string) (h : host) : host :=
  (hn_ports_register [] (drop_guard child socket_path h)).2.

(** [main].  A panic drops the guard of the worker, [bail] does not. *)
Definition harness_main (fuel : nat) (h : host) (n : net) : (list byte + halt) * host * net :=
  match register_surfaces h with
  | (inr e, h) => (inr e, h, n)
  | (inl ids, h) =>
      let socket_path :=
        ("/tmp/vt-ferry-zero-copy-harness-" +:+ to_string (hn_pid h) +:+ ".sock")%string in
      let h := hn_remove_file socket_path h in
      match spawn_worker socket_path ids WIDTH HEIGHT (Z.of_nat SLOT_COUNT) h with
      | (inr e, h) => (inr e, h, n)
      | (inl child, h) =>
          match connect_with_retry fuel socket_path 5000 h n with
          | (inr e, h, n) => (inr e, h, n)
          | (inl stream, h, n) =>
              match drive stream ids n with
              | (inl sample, n) => (inl sample, harness_finish child socket_path h, n)
              | (inr Unwound, n) => (inr Unwound, drop_guard child socket_path h, n)
              | (inr e, n) => (inr e, h, n)
              end
          end
      end
  end.
End run.
