(* ===== verification/HarnessProps.v ===== *)
(** * The harness and this worker

    [exchange_served]: an exchange of the harness over a connection is a dispatch of the
    worker.  The reply to [CREATE_BUFFER_POOL] names one surface in all its slots
    ([pool_reply_one_surface]), so the harness, which registered one surface a slot,
    cannot pass ([harness_never_passes]). *)

From S2P Require Import Prelude Wire Protocol Layout Backend Frameworks PoolDirectory Sim.
From S2P Require Import VtReal VtDispatch Server Transport Link LinkVt Broker Harness.
From stdpp Require Import strings.

Set Default Goal Selector "!".
Open Scope Z_scope.

(** ** An exchange is a dispatch *)

Section exchanges.
Context {B : Type} `{Backend B} `{Profile} (capacity : Z).
Context (Hcap : 0 <= capacity < 2 ^ 32) (wenv : environ).
#[local] Instance harness_net : Net (link B) := link_net capacity wenv.

Lemma exchange_served stream op id pl sf st (b : B) buf now body n' :
  let h := request_header op id pl in
  0 <= op < 2 ^ 16 -> 0 <= id < 2 ^ 64 -> len pl <= capacity ->
  (forall r s, dispatch _ h pl (IO b (zeroed MessageHeader) buf) = Val (r, s) ->
     pod_ok (io_header s) = true /\ 0 <= default 0 r <= len (io_buf s) /\ len (io_buf s) < 2 ^ 32) ->
  exchange stream op id pl sf st (served b buf now) = (inl body, n') ->
  exists r s, dispatch _ h pl (IO b (zeroed MessageHeader) buf) = Val (r, s) /\
    mh_status (response_header h (io_header s) r) = 0 /\
    body = take (Z.to_nat (default 0 r)) (io_buf s) /\ n' = served (io_self s) (io_buf s) now.
Proof.
  intros h Hop Hid Hpl Hfr E.
  assert (pod_ok h = true) as Hhok by (apply request_header_ok; lia).
  assert (mh_payload_len h = len pl) as Hhl by (apply Z.mod_small; lia).
  unfold exchange, write_message in E.
  change (mk_MessageHeader 1 op 0 id (wrap 32 (len pl)) 0) with h in E.
  cbn [net_write_all harness_net link_net] in E. unfold served at 1 in E.
  cbn [link_write lk_server lk_in lk_out lk_now app] in E.
  assert (match pl with
          | [] => (true, mk_link (Serving b buf) (bytes_of h) [] now)
          | _ => (true, mk_link (Serving b buf) (bytes_of h ++ pl) [] now)
          end = (true, mk_link (Serving b buf) (bytes_of h ++ pl) [] now)) as Hw
    by (destruct pl; [by rewrite app_nil_r|done]).
  rewrite Hw in E. clear Hw. unfold read_message in E. cbn [net_read_exact harness_net link_net] in E.
  unfold link_read at 1 in E.
  destruct (dispatch _ h pl (IO b (zeroed MessageHeader) buf)) as [[r s]|] eqn:Hd.
  2: { rewrite (panic_gone capacity Hcap) in E by done. cbn in E. discriminate. }
  destruct (Hfr r s eq_refl) as (Hh & Hr & Hbuf). exists r, s. split; [done|].
  pose proof (response_header_ok h (io_header s) r Hhok Hh) as Hrok.
  rewrite (serve_pending_request capacity Hcap) in E by done.
  rewrite (answer_request_room b buf h pl [] r s Hd Hr) in E.
  set (rh := response_header h (io_header s) r) in *.
  set (reply := take (Z.to_nat (default 0 r)) (io_buf s)) in *.
  cbn [lk_out lk_server lk_in lk_now rx tx app] in E.
  pose proof (length_bytes_of rh Hrok) as Hlen. rewrite length_app, Hlen in E.
  destruct (Nat.ltb_spec (size_of MessageHeader + length reply) (size_of MessageHeader)); [lia|].
  rewrite take_app_length', drop_app_length' in E by done. rewrite pod_read_bytes_of in E by done.
  assert (mh_payload_len rh = len reply) as Hrl.
  { unfold rh, reply, response_header. rewrite length_take. destruct r as [k|]; simpl in *; [|done].
    unfold wrap. rewrite Z.mod_small by lia. lia. }
  rewrite Hrl in E. destruct (Z.eqb_spec (len reply) 0) as [Ez|Ez].
  - assert (reply = []) as Hnil by (destruct reply; [done|simpl in Ez; lia]).
    destruct (Z.eqb_spec (mh_status rh) 0); [|discriminate]. cbn [negb] in E.
    injection E as <- <-. rewrite Hnil. by split_and!.
  - rewrite Nat2Z.id in E. rewrite <- (app_nil_r reply) in E at 2. rewrite (link_read_sent capacity) in E.
    destruct (Z.eqb_spec (mh_status rh) 0); [|discriminate]. cbn [negb] in E.
    injection E as <- <-. by split_and!.
Qed.
End exchanges.

(** ** The worker's three arms *)

Section arms.
Context {host : Type} `{!Frameworks host} `{!HashOrder} `{!Profile}.
Context (R : option (list byte) -> world host -> MessageHeader -> Prop) (L : nat).
Implicit Types (w : world host) (h : MessageHeader).
Abbreviation hw m Q w h := (hwp True m Q R w h L).

Lemma hw_stop {A} st (Q : A -> _ -> _ -> Prop) w h :
  R (Some []) w (header_with_status st h) -> hw (stop st) Q w h.
Proof.
  intros HR. eapply (hwp_return _ _ _ _ _ _ _ (Some [])); [|naive_solver lia|done]. by intros buf _.
Qed.

Lemma hw_stop_if st c (Q : unit -> _ -> _ -> Prop) w h :
  R (Some []) w (header_with_status st h) -> (c = false -> Q tt w h) -> hw (stop_if st c) Q w h.
Proof. destruct c; intros H1 H2; [by apply hw_stop|apply hwp_ret; auto]. Qed.

Lemma hw_payload_or (T : Type) `{!Pod T} st pl (Q : T -> _ -> _ -> Prop) w h :
  R (Some []) w (header_with_status st h) -> (forall p, read_pod T pl = Some p -> Q p w h) ->
  hw (payload_or T st pl) Q w h.
Proof.
  unfold payload_or, some_or_stop. destruct (read_pod T pl); intros H1 H2; [apply hwp_ret; auto|by apply hw_stop].
Qed.

Lemma hw_self (Q : _ -> _ -> _ -> Prop) w h : Q (w_self w) w h -> hw self Q w h.
Proof. intros HQ. apply hwp_bind, hwp_get_self, hwp_ret. done. Qed.

Lemma hw_get_machine (Q : _ -> _ -> _ -> Prop) w h : Q (w_machine w) w h -> hw get_machine Q w h.
Proof. intros HQ. apply hwp_bind, hwp_get_self, hwp_ret. done. Qed.

Lemma hw_host_call {A} (f : ffi host A) (Q : A -> _ -> _ -> Prop) w h :
  (forall a m, Q a (set_machine m w) h) -> hw (call (host_call f)) Q w h.
Proof.
  intros HQ. unfold call. apply hwp_bind, hwp_get_self, hwp_bind, hwp_lift; [|done].
  intros [a w'] E. unfold host_call in E. destruct (f (w_machine w)) as [a' m]. simplify_eq.
  apply hwp_bind, hwp_modify, hwp_ret. apply HQ.
Qed.

Definition next_ok (w : world host) : Prop := 0 <= vr_next_host_id (w_self w) < 2 ^ 32.

Lemma hw_take_host_id (Q : Z -> _ -> _ -> Prop) w h : next_ok w ->
  Q (vr_next_host_id (w_self w))
    (on_self (set_next_host_id (vr_next_host_id (w_self w) + 1)) w) h -> hw take_host_id Q w h.
Proof.
  intros Hn HQ. unfold take_host_id, next_ok in *. apply hwp_bind, hw_self, hwp_bind, hwp_lift; [|done].
  intros a E. rewrite arith_in in E by lia. simplify_eq. by apply hwp_bind, hwp_modify, hwp_ret.
Qed.

Lemma hw_copy_out {A} bytes (Q : A -> _ -> _ -> Prop) w h :
  ((length bytes <= L)%nat -> R (Some bytes) w h) -> hw (copy_out bytes) Q w h.
Proof.
  intros HR. unfold copy_out. destruct (decide (length bytes <= L)%nat) as [Hl|Hl].
  - eapply (hwp_return _ _ _ _ _ _ _ (Some bytes)); [|naive_solver|auto].
    intros buf Hb. cbn [io_buf]. destruct (Z.ltb_spec (len buf) (len bytes)); [lia|]. done.
  - apply hwp_panic; [|done]. intros buf Hb. cbn [io_buf].
    destruct (Z.ltb_spec (len buf) (len bytes)); [done|lia].
Qed.
End arms.

(** What a dispatch returns, from what holds of its returns. *)
Lemma returns_run {B} (m : arm B) R (b : B) h buf r s :
  hwp True m (fun _ _ _ => False) R b h (length buf) -> run m (IO b h buf) = Val (r, s) ->
  exists o b' h', r = reply_len o /\ s = IO b' h' (write_reply o buf) /\
    (forall bs, o = Some bs -> (length bs <= length buf)%nat) /\ R o b' h'.
Proof.
  unfold run. destruct 1 as [a b' h' _ []|o b' h' Hm Hl HR|Hm _]; rewrite Hm by done; [|done].
  intros [= <- <-]. by exists o, b', h'.
Qed.

Lemma ok_status st : 0 <= st < 2 ^ 32 -> pod_ok (header_with_status st (zeroed MessageHeader)) = true.
Proof.
  intros Hs. apply (uint_ok_spec 4) in Hs. pod_ok_split; try done; by vm_compute.
Qed.

Lemma slot_region_ok sb id : 0 <= sb < 2 ^ 32 -> 0 <= id < 2 ^ 32 -> pod_ok (slot_region sb id) = true.
Proof.
  intros Hs Hi. unfold slot_region. generalize (eq_refl (replicate 256 Byte.x00)).
  generalize (replicate 256 Byte.x00) at 1 3. intros path Hp. pod_ok_split; try uint_range; [done|].
  by rewrite Hp, length_replicate.
Qed.

Lemma lease_of_ok b i off : 0 <= b < 2 ^ 32 -> 0 <= i < 2 ^ 32 -> pod_ok (lease_of b i off) = true.
Proof.
  intros Hb Hi. unfold lease_of. pose proof (Z.mod_pos_bound off (2 ^ 32) ltac:(lia)) as Ho.
  fold (wrap 32 off) in Ho. revert Ho. generalize (wrap 32 off). intros o Ho. pod_ok_split; first [done|uint_range].
Qed.

Section pool.
Context {host : Type} `{!Frameworks host} `{!HashOrder} `{!Profile}.
Implicit Types (w : world host).
Abbreviation returns m R w L := (hwp True m (fun _ _ _ => False) R w (zeroed MessageHeader) L).

Lemma hello_returns pl w L :
  returns (vt_hello pl) (fun _ w' h' => w' = w /\ pod_ok h' = true) w L.
Proof.
  apply hwp_bind, hw_payload_or; [split; [done|by apply ok_status]|].
  intros p _. apply hw_copy_out. intros _. split; [done|apply zeroed_ok].
Qed.

(** The directory stays, and few ids are taken. *)
Definition same_dir (k : Z) (w w' : world host) : Prop :=
  w_dir w' = w_dir w /\ vr_next_host_id (w_self w) <= vr_next_host_id (w_self w') <= vr_next_host_id (w_self w) + k.

Lemma create_session_returns pl w L : next_ok w ->
  returns (vt_create_session pl) (fun _ w' h' => same_dir 1 w w' /\ pod_ok h' = true) w L.
Proof.
  intros Hn. unfold vt_create_session, vt_create_decode_session.
  assert (same_dir 1 w w) as Hr by (split; [done|lia]).
  apply hwp_bind, hw_payload_or; [split; [done|by apply ok_status]|]. intros p _.
  destruct (_ =? _).
  - apply hwp_bind, hw_take_host_id; [done|]. apply hwp_bind, hwp_modify, hw_copy_out. intros _.
    split; [split; [done|cbn; lia]|apply zeroed_ok].
  - apply hwp_bind, hw_stop_if; [split; [done|by apply ok_status]|]. intros _.
    apply hwp_bind, hw_take_host_id; [done|]. apply hwp_bind, hw_host_call. intros [status ref] m.
    apply hwp_bind, hw_stop_if; [split; [split; [done|cbn; lia]|by apply ok_status]|]. intros _.
    apply hwp_bind, hwp_modify, hw_copy_out. intros _. split; [split; [done|cbn; lia]|apply zeroed_ok].
Qed.

(** Every slot that has a surface has the surface [id]. *)
Definition from_surface (id : Z) (regions : list SharedRegionReply) : Prop :=
  Forall (fun sr => sr_source_kind sr = VTF_SHARED_REGION_SOURCE_IOSURFACE -> sr_source_handle sr = id) regions.

Definition harness_pool_request (session_id : Z) : CreateBufferPoolPayload :=
  mk_CreateBufferPoolPayload session_id (Z.of_nat SLOT_COUNT) BGRA_FOURCC WIDTH HEIGHT 0 0.

(** The per-slot parts of a reply. *)
Definition slots_ok (id : Z) (acc : list SharedRegionReply * list PoolBufferLeaseReply) : Prop :=
  from_surface id acc.1 /\
  arr_ok SharedRegionReply_pod (Z.to_nat VTF_TRANSPORT_MAX_POOL_SLOTS) acc.1 = true /\
  arr_ok PoolBufferLeaseReply_pod (Z.to_nat VTF_TRANSPORT_MAX_POOL_SLOTS) acc.2 = true.

Lemma arr_ok_insert {A} (c : codec A) n i x l :
  arr_ok c n l = true -> c_ok c x = true -> arr_ok c n (<[i := x]> l) = true.
Proof.
  rewrite !arr_ok_spec. intros [Hl Hf] Hx. split; [by rewrite length_insert|]. by apply Forall_insert.
Qed.

Lemma create_slots_returns session_id pool pool_id slot_bytes R L (Q : _ -> world host -> MessageHeader -> Prop) :
  0 <= slot_bytes < 2 ^ 32 -> 0 <= ps_iosurface_id (ip_spec pool) < 2 ^ 32 ->
  (forall w, pod_ok (header_with_status STATUS_INTERNAL_FAILURE (zeroed MessageHeader)) = true ->
     R (Some []) w (header_with_status STATUS_INTERNAL_FAILURE (zeroed MessageHeader))) ->
  (forall w acc, slots_ok (ps_iosurface_id (ip_spec pool)) acc -> Q acc w (zeroed MessageHeader)) ->
  forall n i acc w, 0 <= i -> i + Z.of_nat n <= VTF_TRANSPORT_MAX_POOL_SLOTS ->
  0 <= vr_next_host_id (w_self w) -> vr_next_host_id (w_self w) + Z.of_nat n < 2 ^ 32 ->
  slots_ok (ps_iosurface_id (ip_spec pool)) acc ->
  hwp True (create_slots (harness_pool_request session_id) pool pool_id slot_bytes n i acc) Q R w (zeroed MessageHeader) L.
Proof.
  intros Hsb Hid HR HQ. pose proof (eq_refl : VTF_TRANSPORT_MAX_POOL_SLOTS = 64) as Hmax.
  induction n as [|n IH]; intros i acc w Hi Hn Hw Hw' Hacc; cbn [create_slots].
  { apply hwp_ret. auto. }
  apply hwp_bind, hwp_lift; [|done]. intros off Hoff. rewrite arith_in in Hoff by nia. simplify_eq.
  apply hwp_bind. unfold wrap_slot. change (cbp_pixel_format (harness_pool_request session_id)) with 0x42475241.
  change (0x42475241 =? 0x42475241) with true. cbv iota.
  apply hwp_bind, hw_get_machine. apply hwp_bind, hwp_bind, hwp_lift; [|done]. intros bpr _.
  apply hwp_ret. destruct (wrap_slot_single_plane _ _ _ _ _ _ _) as [[cv|e] m].
  2: { apply hwp_bind, hwp_modify, hw_stop, HR. by apply ok_status. }
  apply hwp_bind, hwp_modify, hwp_ret. apply hwp_bind, hw_get_machine.
  apply hwp_bind, hw_take_host_id; [unfold next_ok; cbn; lia|]. apply hwp_bind, hwp_modify.
  apply IH; [lia|lia|cbn; lia|cbn; lia|]. destruct Hacc as (Hf & Hr & Hl). split_and!; cbn [fst snd].
  - by apply Forall_insert.
  - apply arr_ok_insert; [done|]. by apply slot_region_ok.
  - apply arr_ok_insert; [done|]. apply lease_of_ok; cbn; lia.
Qed.


(** The numbers of a spec are [u32]. *)
Definition dir_u32 (d : IOSurfacePoolDirectory) : Prop :=
  Forall (fun e => 0 <= ps_slot_count (ip_spec (de_pool e)) < 2 ^ 32 /\
                   0 <= ps_iosurface_id (ip_spec (de_pool e)) < 2 ^ 32) (dir_entries d).

Definition pool_layout : BufferLayoutReply :=
  match vtf_fill_buffer_layout WIDTH HEIGHT BGRA_FOURCC with Val l => l | Panic => zeroed BufferLayoutReply end.

Lemma pool_layout_eq : vtf_fill_buffer_layout WIDTH HEIGHT BGRA_FOURCC = Val pool_layout.
Proof. by vm_compute. Qed.

Lemma pool_layout_ok : pod_ok pool_layout = true /\ bl_total_size pool_layout = 147456.
Proof. split; by vm_compute. Qed.

Lemma pool_reply_ok pid slots size (l : BufferLayoutReply) regions leases :
  0 <= pid < 2 ^ 32 -> 0 <= slots < 2 ^ 32 -> 0 <= size < 2 ^ 32 -> pod_ok l = true ->
  arr_ok SharedRegionReply_pod (Z.to_nat VTF_TRANSPORT_MAX_POOL_SLOTS) regions = true ->
  arr_ok PoolBufferLeaseReply_pod (Z.to_nat VTF_TRANSPORT_MAX_POOL_SLOTS) leases = true ->
  pod_ok (mk_CreateBufferPoolReply pid WIDTH HEIGHT BGRA_FOURCC slots size VTF_HOST_BACKING_KIND_IOSURFACE
            l regions leases) = true.
Proof.
  intros Hp Hs Hz Hl Hr Hle. pod_fields Hl.
  pod_ok_split; first [assumption|exact Hr|exact Hle|reflexivity|uint_range].
Qed.

(** The answer to the harness's request: an error, or a reply of one surface. *)
Definition pool_answer (o : option (list byte)) (h : MessageHeader) : Prop :=
  pod_ok h = true /\ (mh_status h = 0 -> exists reply id, o = Some (bytes_of reply) /\ pod_ok reply = true /\
    from_surface id (cbr_shared_regions reply)).

Lemma pool_answer_error st o : 0 < st < 2 ^ 32 ->
  pool_answer o (header_with_status st (zeroed MessageHeader)).
Proof. intros Hst. split; [apply ok_status; lia|]. cbn. lia. Qed.

Lemma pool_reply_one_surface session_id w L :
  0 <= session_id < 2 ^ 64 -> dir_u32 (w_dir w) ->
  0 <= vr_next_host_id (w_self w) -> vr_next_host_id (w_self w) + 65 < 2 ^ 32 ->
  returns (vt_create_buffer_pool (bytes_of (harness_pool_request session_id))) (fun o _ h' => pool_answer o h') w L.
Proof.
  intros Hsid Hdir Hn Hn'. assert (pod_ok (harness_pool_request session_id) = true) as Hp.
  { apply (uint_ok_spec 8) in Hsid. unfold harness_pool_request. pod_ok_split; first [done|exact Hsid]. }
  unfold vt_create_buffer_pool. apply hwp_bind, hw_payload_or; [by apply pool_answer_error|].
  intros p E. rewrite <- (app_nil_r (bytes_of _)), read_pod_bytes_of in E by done. simplify_eq.
  apply hwp_bind, hw_self. apply hwp_bind, hw_stop_if; [by apply pool_answer_error|]. intros _.
  apply hwp_bind. change (cbp_width (harness_pool_request session_id)) with WIDTH.
  change (cbp_height (harness_pool_request session_id)) with HEIGHT.
  change (cbp_pixel_format (harness_pool_request session_id)) with BGRA_FOURCC. rewrite pool_layout_eq.
  apply hwp_lift; [|done]. intros layout [= <-]. apply hwp_bind, hwp_get_self.
  destruct (take_matching _ _ _ _ _) as [[[id pool]|] d] eqn:Et; apply hwp_bind, hwp_modify.
  2: { apply hw_stop. by apply pool_answer_error. }
  apply take_matching_Some in Et as (e & He & _ & -> & _).
  assert (0 <= ps_slot_count (ip_spec (de_pool e)) < 2 ^ 32 /\
          0 <= ps_iosurface_id (ip_spec (de_pool e)) < 2 ^ 32) as [Hsc Hid]
    by (unfold dir_u32 in Hdir; rewrite Forall_lookup in Hdir; exact (Hdir _ _ He)).
  destruct pool_layout_ok as [Hlok Hlsz].
  unfold vt_create_pool_from. apply hwp_bind, hw_stop_if; [by apply pool_answer_error|]. intros Hmax.
  apply hwp_bind, hw_get_machine. destruct (lock_read_write _ _) as [kr m].
  apply hwp_bind, hwp_modify. apply hwp_bind, hw_stop_if; [by apply pool_answer_error|]. intros _.
  apply hwp_bind, hw_take_host_id; [unfold next_ok; cbn; lia|].
  pose proof (eq_refl : VTF_TRANSPORT_MAX_POOL_SLOTS = 64) as Hm. rewrite Z.gtb_ltb in Hmax. zbool.
  apply hwp_bind, hwp_lift; [|done]. intros size Hsize. rewrite Hlsz, arith_in in Hsize by lia. simplify_eq.
  set (id' := ps_iosurface_id _) in *. set (next := vr_next_host_id (w_self w)) in *.
  apply hwp_bind, create_slots_returns; [rewrite Hlsz; lia|done| | |lia|rewrite Z2Nat.id; lia|cbn; lia
    |cbn; rewrite Z2Nat.id by lia; lia|].
  - intros w' _. by apply pool_answer_error.
  - intros w' [regions leases] (Hf & Hr & Hl). cbn [fst snd] in *. apply hwp_bind, hwp_modify, hw_copy_out.
    intros _. split; [apply zeroed_ok|]. intros _. eexists _, id'. split_and!; [done| |exact Hf].
    apply pool_reply_ok; [cbn; lia|lia|lia|done|done|done].
  - split_and!; cbn [fst snd].
    + apply Forall_replicate. done.
    + apply arr_ok_replicate. apply zeroed_ok.
    + apply arr_ok_replicate. apply zeroed_ok.
Qed.
End pool.

(** ** The harness over this worker *)

Section over_worker.
Context {host : Type} `{!Frameworks host} `{!HashOrder} `{!Profile}.
Context (w0 : world host) (capacity : Z) (wenv : environ).
Context (Hcap : 64 <= capacity < 2 ^ 32).
#[local] Instance over_backend : Backend (world host) := vt_backend w0.
#[local] Instance over_net : Net (link (world host)) := link_net capacity wenv.

Lemma write_reply_length o (buf : list byte) :
  (forall bs, o = Some bs -> (length bs <= length buf)%nat) -> length (write_reply o buf) = length buf.
Proof.
  destruct o as [bs|]; [|done]. intros Hl. specialize (Hl bs eq_refl). cbn [write_reply].
  unfold write_at. rewrite !length_app, length_take, length_drop. lia.
Qed.

Lemma vt_exchange stream op id pl sf st w buf now body n' R :
  0 <= op < 2 ^ 16 -> 0 <= id < 2 ^ 64 -> len pl <= capacity -> len buf < 2 ^ 32 ->
  hwp True (vt_dispatch (request_header op id pl) pl) (fun _ _ _ => False) R w (zeroed MessageHeader) (length buf) ->
  (forall o w' h', R o w' h' -> pod_ok h' = true) ->
  exchange stream op id pl sf st (served w buf now) = (inl body, n') ->
  exists w' h' buf', R (Some body) w' h' /\ mh_status h' = 0 /\ n' = served w' buf' now /\ length buf' = length buf.
Proof.
  intros Hop Hid Hpl Hbuf Hw HR E.
  destruct (exchange_served capacity ltac:(lia) wenv stream op id pl sf st w buf now body n')
    as (r & s & Hd & Hst & Hbody & Hn'); [done|done|done| |done|].
  - intros r s Hd. destruct (returns_run _ _ _ _ _ _ _ Hw Hd) as (o & w' & h' & -> & -> & Hl & Ho).
    cbn [io_header io_buf]. rewrite (write_reply_length o buf Hl). split_and!; [by eapply HR| |..|done].
    + destruct o as [bs|]; cbn; lia.
    + destruct o as [bs|]; cbn; [specialize (Hl bs eq_refl)|]; lia.
  - destruct (returns_run _ _ _ _ _ _ _ Hw Hd) as (o & w' & h' & -> & -> & Hl & Ho). cbn [io_header io_buf io_self] in *.
    destruct o as [bs|].
    2: { exfalso. cbn in Hst. by destruct (mh_status h' =? 0) eqn:Ez; [|apply Z.eqb_neq in Ez]. }
    specialize (Hl bs eq_refl). change (default 0 (reply_len (Some bs))) with (len bs) in Hbody.
    cbn [write_reply] in *. rewrite Nat2Z.id, take_write_at_0 in Hbody. subst body. exists w', h', (write_at 0 bs buf).
    split_and!; [done|exact Hst|done|]. apply (write_reply_length (Some bs)). by intros ? [= <-].
Qed.

Lemma D_bind_inl {net A A'} (m : D (net:=net) A) (f : A -> D A') n x n' :
  (D_bind _ _ f m) n = (inl x, n') -> exists a n1, m n = (inl a, n1) /\ f a n1 = (inl x, n').
Proof. unfold D_bind. destruct (m n) as [[a|e] n1]; [eauto|done]. Qed.

Lemma reply_as_inl {net} (A : Type) `{!Pod A} payload (n : net) a n' :
  reply_as A payload n = (inl a, n') ->
  n' = n /\ (size_of A <= length payload)%nat /\ a = pod_read_unaligned (take (size_of A) payload).
Proof.
  unfold reply_as, halted, mret, D_ret. destruct (Nat.ltb_spec (length payload) (size_of A)); [done|].
  by intros [= <- <-].
Qed.

(** The check accepts only the ids it was given. *)
Lemma check_regions_ids k i ids regions id j a :
  from_surface id regions -> check_regions i k ids regions = None ->
  (i <= j < i + k)%nat -> ids !! j = Some a -> a = id.
Proof.
  intros Hf. revert i. induction k as [|k IH]; intros i Hc Hj Ha; [lia|]. cbn [check_regions] in Hc.
  destruct (regions !! i) as [sr|] eqn:Es; [|done]. destruct (ids !! i) as [b|] eqn:Eb; [|done].
  destruct (Z.eqb_spec (sr_source_kind sr) VTF_SHARED_REGION_SOURCE_IOSURFACE) as [Hk|]; [|done].
  destruct (Z.eqb_spec (sr_source_handle sr) b) as [Hh|]; [|done]. cbn [negb] in Hc.
  destruct (decide (j = i)) as [->|]; [|apply (IH (S i)); [done|lia|done]].
  unfold from_surface in Hf. rewrite Forall_lookup in Hf. specialize (Hf _ _ Es Hk). congruence.
Qed.

Lemma open_pool_never_passes stream ids w buf now ps n' a b :
  len buf < 2 ^ 32 -> dir_u32 (w_dir w) ->
  0 <= vr_next_host_id (w_self w) -> vr_next_host_id (w_self w) + 66 < 2 ^ 32 ->
  ids !! 0%nat = Some a -> ids !! 1%nat = Some b -> a <> b ->
  open_pool stream ids (served w buf now) <> (inl ps, n').
Proof.
  intros Hbuf Hdir Hn Hn' Ha Hb Hab E. unfold open_pool in E.
  apply D_bind_inl in E as (p1 & n1 & E1 & E).
  eapply vt_exchange with (R := fun _ w' h' => w' = w /\ pod_ok h' = true) in E1 as (w1 & h1 & buf1 & [-> _] & _ & -> & L1);
    [|done|done|vm_compute (len _); lia|done|apply hello_returns|by intros ? ? ? [_ ?]].
  apply D_bind_inl in E as (p2 & n2 & E2 & E).
  eapply vt_exchange with (R := fun _ w' h' => same_dir 1 w w' /\ pod_ok h' = true) in E2 as (w2 & h2 & buf2 & [[Hd2 Hn2] _] & _ & -> & L2);
    [|done|done|vm_compute (len _); lia|by rewrite L1|apply create_session_returns; unfold next_ok; lia
     |by intros ? ? ? [_ ?]].
  apply D_bind_inl in E as (cs & n3 & E3 & E). apply reply_as_inl in E3 as (-> & Hl & Hcs).
  assert (pod_ok cs = true) as Hcsok by (subst cs; apply pod_read_ok; rewrite length_take; lia).
  clear Hcs. assert (0 <= csr_session_id cs < 2 ^ 64) as Hsid by (pod_fields Hcsok; by apply (uint_ok_spec 8)).
  apply D_bind_inl in E as (p3 & n4 & E4 & E).
  eapply vt_exchange with (R := fun o _ h' => pool_answer o h') in E4 as (w3 & h3 & buf3 & Hans & Hst & -> & L3);
    [|done|done| |by rewrite L2, L1|apply (pool_reply_one_surface (csr_session_id cs)); [done|by rewrite Hd2|lia|lia]
     |by intros ? ? ? [? _]].
  2: { rewrite length_bytes_of; [vm_compute (size_of _); lia|].
       apply (uint_ok_spec 8) in Hsid. pod_ok_split; first [done|exact Hsid]. }
  destruct Hans as [_ Hans]. destruct (Hans Hst) as (reply & id & [= ->] & Hrok & Hf).
  apply D_bind_inl in E as (cr & n5 & E5 & E). apply reply_as_inl in E5 as (-> & _ & Hcr).
  rewrite take_ge, pod_read_bytes_of in Hcr by (rewrite ?length_bytes_of; done). subst cr.
  apply D_bind_inl in E as (u & n6 & E6 & _). unfold check_pool in E6.
  destruct (negb _); [done|]. destruct (check_regions _ _ _ _) eqn:Ec; [done|].
  apply Hab. rewrite (check_regions_ids SLOT_COUNT 0 ids _ id 0 a Hf Ec ltac:(unfold SLOT_COUNT; lia) Ha).
  by rewrite (check_regions_ids SLOT_COUNT 0 ids _ id 1 b Hf Ec ltac:(unfold SLOT_COUNT; lia) Hb).
Qed.
End over_worker.

Section surfaces_made.
Context {os : Type} `{!HarnessHost os} `{!Profile}.

Lemma make_surfaces_ids n : forall ss ids (h : os) ss' ids' h',
  make_surfaces n ss ids h = (inl (ss', ids'), h') -> length ids' = (length ids + n)%nat.
Proof.
  induction n as [|n IH]; intros ss ids h ss' ids' h' E; cbn [make_surfaces] in E; [by simplify_eq|].
  destruct (create_bgra_iosurface _ _ h) as [[[s id]|e] h1]; [|done].
  destruct (fill_pattern s h1) as [[[]|e] h2]; [|done].
  rewrite (IH _ _ _ _ _ _ E), length_app. cbn. lia.
Qed.

Lemma register_surfaces_ids (h : os) ids h' :
  register_surfaces h = (inl ids, h') -> length ids = SLOT_COUNT.
Proof.
  unfold register_surfaces. destruct (make_surfaces _ _ _ h) as [[[ss ids1]|e] h1] eqn:Em; [|done].
  destruct (make_ports _ _ h1) as [[ports|e] h2]; [|done].
  destruct (hn_ports_register ports h2) as [kr h3]. destruct (negb _); [done|]. intros [= <- _].
  apply (make_surfaces_ids _ _ _ _ _ _ _ Em).
Qed.
End surfaces_made.

(** C39: the harness cannot pass with this worker.  Whatever the frameworks and the system
    answer, however the worker's directory was filled and whatever its connection has room
    for, a run of [zero-copy-harness] whose surfaces have distinct ids does not reach its
    end: the worker gives all slots of a pool the one surface it claimed for it, the harness
    expects the surface it registered for each slot. *)
Theorem harness_never_passes {host os : Type} `{!Frameworks host} `{!HashOrder} `{!HarnessHost os} `{!Profile}
    (w0 : world host) (capacity : Z) (wenv : environ) (fuel : nat) (h : os) (now : Z) :
  64 <= capacity < 2 ^ 32 -> dir_u32 (w_dir w0) ->
  (forall ids h1, register_surfaces h = (inl ids, h1) -> NoDup ids) ->
  exists e h' n',
    harness_main (net:=link (world host)) (Net0:=link_net (H:=vt_backend w0) capacity wenv)
      (fun _ => link_connect (H:=vt_backend w0) capacity wenv) fuel h (mk_link Listening [] [] now)
    = (inr e, h', n').
Proof.
  intros Hcap Hdir Hids. unfold harness_main.
  destruct (register_surfaces h) as [[ids|e] h1] eqn:Er; [|by do 3 eexists].
  specialize (Hids _ _ eq_refl). apply register_surfaces_ids in Er.
  set (path := (_ +:+ _)%string). destruct (spawn_worker _ _ _ _ _ _) as [[child|e] h2]; [|by do 3 eexists].
  unfold connect_with_retry. destruct fuel as [|fuel]; [by do 3 eexists|]. cbn [connect_attempts link_connect lk_server].
  destruct (drive _ _ _) as [[sample|[s| |]] n'] eqn:Ed; [exfalso|by do 3 eexists..].
  destruct ids as [|a [|b ids]]; [done|done|]. apply D_bind_inl in Ed as (ps & n1 & Ed & _).
  refine (open_pool_never_passes w0 capacity wenv Hcap 3 (a :: b :: ids) (on_self vt_reset_from_env w0) _ now ps
            n1 a b _ Hdir _ _ eq_refl eq_refl _ Ed);
    [rewrite length_replicate; lia|cbn; lia|cbn; lia|].
  apply list.NoDup_cons in Hids as [Hn _]. set_solver.
Qed.

(** ** A concrete run

    A launcher whose surfaces are numbered from 11, and the simulated host: its directory
    has the three surfaces as the harness describes them. *)
#[local] Instance demo_harness_host : HarnessHost Z := {|
  hn_surface_create _ next := (next, next + 1);
  hn_surface_id _ s := s;
  hn_lock _ h := (0, h);
  hn_unlock _ h := h;
  hn_alloc_size _ _ := 16%nat;
  hn_fill _ _ h := h;
  hn_create_mach_port s h := (s + 100, h);
  hn_ports_register _ h := (0, h);
  hn_pid _ := 42;
  hn_env _ := no_env;
  hn_remove_file _ h := h;
  hn_spawn _ h := (Some 43, h);
  hn_kill _ h := h;
  hn_wait _ h := h;
  hn_now _ := 0;
  hn_sleep _ h := h
|}.

Definition demo_entry (id : Z) : DirectoryEntry :=
  mk_DirectoryEntry (mk_PoolShape WIDTH HEIGHT BGRA_FOURCC)
    (mk_IOSurfacePool (mk_IOSurfacePoolSpec WIDTH HEIGHT BGRA_FOURCC 3 id) id) false.
Definition demo_harness_world : world sim :=
  mk_world VtRealBackend_new (mk_IOSurfacePoolDirectory (demo_entry <$> [11; 12; 13])) sim_machine.

#[local] Existing Instance key_order.
#[local] Instance demo_harness_profile : Profile := debug_build.

(** It gives up at the second slot, where the worker names the surface of the first. *)
Lemma harness_never_passes_witness : exists e h' n',
  harness_main (Net0:=link_net (H:=vt_backend demo_harness_world) 65536 no_env)
    (fun _ => link_connect (H:=vt_backend demo_harness_world) 65536 no_env) 1 11 (mk_link Listening [] [] 0)
  = (inr e, h', n') /\ e = Bailed (StSourceHandle 1).
Proof.
  destruct (harness_never_passes demo_harness_world 65536 no_env 1 11 0) as (e & h' & n' & E).
  - lia.
  - repeat (constructor; [cbn; lia|]). constructor.
  - intros ids h1 E. vm_compute in E. injection E as <- _. repeat (constructor; [set_solver|]). constructor.
  - exists e, h', n'. split; [exact E|].
    assert (fst (fst (harness_main (Net0:=link_net (H:=vt_backend demo_harness_world) 65536 no_env)
      (fun _ => link_connect (H:=vt_backend demo_harness_world) 65536 no_env) 1 11 (mk_link Listening [] [] 0)))
      = inr (Bailed (StSourceHandle 1))) as E' by (by vm_compute).
    rewrite E in E'. by injection E' as ->.
Defined.
