(* ===== verification/Worker.v ===== *)
(** * The worker's process

    [run_server] of [server.rs] and [main] of the worker: the accept loop, which hands
    every connection with a backend of its own to a thread ([handle_connection] of
    [Server]), and the exit codes.  [worker_serves_accepted]: every connection accepted
    is handed over once, in order, whatever the system answers. *)

From S2P Require Import Prelude Wire Protocol Backend Frameworks PoolDirectory Server Broker.
From stdpp Require Import strings.

Set Default Goal Selector "!".
Open Scope Z_scope.

(** What [accept] on the nonblocking listener returns. *)
Inductive accept_result := AcceptedStream (stream : Z) | NothingWaiting | AcceptError.

(** The calls of the server and of [main]; the flag [running] is read by a call, as the
    signal handler may clear it at any time. *)
Class WorkerOs (os : Type) := {
  wo_remove_file (path : string) : os -> os;
  wo_bind (path : string) : os -> bool * os;
  wo_set_nonblocking : os -> bool * os;
  wo_running : os -> bool * os;
  wo_accept : os -> accept_result * os;
  (** [thread::spawn] of [handle_connection] with [factory.create()]. *)
  wo_spawn (stream : Z) (factory : backend_factory) : os -> os;
  wo_sleep (milliseconds : Z) : os -> os;
  (** Open for appending, and write: both unwrap. *)
  wo_append (path text : string) : os -> bool * os;
  wo_set_handler : os -> bool * os
}.

Section server.
Context {os : Type} `{!WorkerOs os}.

(** The [while] loop.  [Val (None, _)]: out of fuel. *)
Fixpoint accept_connections (fuel : nat) (factory : backend_factory) (o : os) : rust (option unit * os) :=
  match fuel with
  | O => Val (None, o)
  | S fuel =>
      match wo_running o with
      | (false, o) => Val (Some tt, o)
      | (true, o) =>
          match wo_accept o with
          | (AcceptedStream stream, o) => accept_connections fuel factory (wo_spawn stream factory o)
          | (NothingWaiting, o) => accept_connections fuel factory (wo_sleep 5 o)
          | (AcceptError, o) =>
              match wo_append "/tmp/vt-ferry-server.log" "accept error" o with
              | (true, o) => Val (Some tt, o)
              | (false, _) => Panic
              end
          end
      end
  end.

(** [inr tt]: the [io::Error] of [bind] or [set_nonblocking]. *)
Definition run_server (fuel : nat) (socket_path : string) (factory : backend_factory) (o : os)
    : rust (option (unit + unit) * os) :=
  let o := wo_remove_file socket_path o in
  match wo_bind socket_path o with
  | (false, o) => Val (Some (inr tt), o)
  | (true, o) =>
      match wo_set_nonblocking o with
      | (false, o) => Val (Some (inr tt), o)
      | (true, o) =>
          match accept_connections fuel factory o with
          | Panic => Panic
          | Val (None, o) => Val (None, o)
          | Val (Some _, o) => Val (Some (inl tt), wo_remove_file socket_path o)
          end
      end
  end.

(** [main]: the exit code.  [select] is [select_backend_factory]. *)
Definition worker_main (fuel : nat) (args : list string) (select : os -> backend_factory * os) (o : os)
    : rust (option Z * os) :=
  match args with
  | [_; socket_path] =>
      let '(factory, o) := select o in
      match wo_set_handler o with
      | (false, _) => Panic
      | (true, o) =>
          match run_server fuel socket_path factory o with
          | Panic => Panic
          | Val (None, o) => Val (None, o)
          | Val (Some (inr _), o) => Val (Some 1, o)
          | Val (Some (inl _), o) => Val (Some 0, o)
          end
      end
  | _ => Val (Some 2, o)
  end.
End server.

(** ** Every connection is served *)

(** The connections accepted, those handed to a thread with the factory of their backend,
    and the files. *)
Class WorkerLaws (os : Type) `{!WorkerOs os} := {
  wl_accepted : os -> list Z;
  wl_spawned : os -> list (Z * backend_factory);
  wl_exists : os -> string -> Prop;
  law_wo_accept o r o' : wo_accept o = (r, o') ->
    wl_accepted o' = wl_accepted o ++ (match r with AcceptedStream s => [s] | _ => [] end) /\
    wl_spawned o' = wl_spawned o;
  law_wo_spawn s f o : wl_accepted (wo_spawn s f o) = wl_accepted o /\
    wl_spawned (wo_spawn s f o) = wl_spawned o ++ [(s, f)];
  law_wo_remove path o : wl_accepted (wo_remove_file path o) = wl_accepted o /\
    wl_spawned (wo_remove_file path o) = wl_spawned o /\ ~ wl_exists (wo_remove_file path o) path;
  law_wo_bind path o : wl_accepted (wo_bind path o).2 = wl_accepted o /\ wl_spawned (wo_bind path o).2 = wl_spawned o;
  law_wo_nonblocking o : wl_accepted (wo_set_nonblocking o).2 = wl_accepted o /\
    wl_spawned (wo_set_nonblocking o).2 = wl_spawned o;
  law_wo_running o : wl_accepted (wo_running o).2 = wl_accepted o /\ wl_spawned (wo_running o).2 = wl_spawned o;
  law_wo_sleep ms o : wl_accepted (wo_sleep ms o) = wl_accepted o /\ wl_spawned (wo_sleep ms o) = wl_spawned o;
  law_wo_append path text o : wl_accepted (wo_append path text o).2 = wl_accepted o /\
    wl_spawned (wo_append path text o).2 = wl_spawned o;
  law_wo_handler o : wl_accepted (wo_set_handler o).2 = wl_accepted o /\
    wl_spawned (wo_set_handler o).2 = wl_spawned o
}.

Section served.
Context {os : Type} `{!WorkerOs os} `{!WorkerLaws os}.
Implicit Types (o : os).

(** The connections [new] were accepted and handed over, in this order. *)
Definition hands_over (f : backend_factory) (new : list Z) o o' : Prop :=
  wl_accepted o' = wl_accepted o ++ new /\ wl_spawned o' = wl_spawned o ++ ((fun s => (s, f)) <$> new).

Lemma hands_over_after f new o o1 o' : wl_accepted o1 = wl_accepted o /\ wl_spawned o1 = wl_spawned o ->
  hands_over f new o1 o' -> hands_over f new o o'.
Proof. intros [E1 E2] [H1 H2]. split; congruence. Qed.

Lemma hands_over_nil f o o' : wl_accepted o' = wl_accepted o /\ wl_spawned o' = wl_spawned o -> hands_over f [] o o'.
Proof. intros [E1 E2]. split; by rewrite ?E1, ?E2, ?app_nil_r. Qed.

Lemma accept_connections_hands_over fuel f : forall o o',
  accept_connections fuel f o = Val (Some tt, o') -> exists new, hands_over f new o o'.
Proof.
  induction fuel as [|fuel IH]; intros o o' E; [done|]. cbn [accept_connections] in E.
  pose proof (law_wo_running o) as L1. destruct (wo_running o) as [[] o1]; cbn in L1.
  2: { injection E as <-. exists []. by apply hands_over_nil. }
  destruct (wo_accept o1) as [r o2] eqn:Ea. destruct (law_wo_accept _ _ _ Ea) as [A1 A2].
  destruct r as [s| |].
  - destruct (IH _ _ E) as (new & H1 & H2). destruct (law_wo_spawn s f o2) as [S1 S2].
    exists (s :: new). apply (hands_over_after _ _ _ o1 _ L1). split.
    + by rewrite H1, S1, A1, <- app_assoc.
    + by rewrite H2, S2, A2, <- app_assoc.
  - rewrite app_nil_r in A1. destruct (IH _ _ E) as (new & Hn). exists new.
    apply (hands_over_after _ _ _ o1 _ L1), (hands_over_after _ _ _ o2 _ (conj A1 A2)).
    by apply (hands_over_after _ _ _ (wo_sleep 5 o2) _ (law_wo_sleep 5 o2)).
  - rewrite app_nil_r in A1. pose proof (law_wo_append "/tmp/vt-ferry-server.log" "accept error" o2) as La.
    destruct (wo_append _ _ o2) as [[] o3]; [|done]. injection E as <-. exists [].
    apply (hands_over_after _ _ _ o1 _ L1), (hands_over_after _ _ _ o2 _ (conj A1 A2)). by apply hands_over_nil.
Qed.

(** Whatever the system answers, a worker that ends has handed every connection it accepted
    to one thread, in order, each with a backend of the one factory it selected; a server
    that ran leaves no socket file. *)
Theorem worker_serves_accepted fuel args select o code o' :
  (forall o, wl_accepted (select o).2 = wl_accepted o /\ wl_spawned (select o).2 = wl_spawned o) ->
  worker_main fuel args select o = Val (Some code, o') ->
  exists new f, hands_over f new o o' /\
    (code = 0 -> f = (select o).1 /\ exists name path, args = [name; path] /\ ~ wl_exists o' path).
Proof.
  intros Hsel E. unfold worker_main in E.
  destruct args as [|name [|path [|? ?]]];
    try (injection E as <- <-; exists [], MockBackendFactory; split; [by apply hands_over_nil|done]).
  pose proof (Hsel o) as Hs. destruct (select o) as [f o1]. cbn in Hs.
  pose proof (law_wo_handler o1) as Lh. destruct (wo_set_handler o1) as [[] o2]; [|done]. cbn in Lh.
  unfold run_server in E. destruct (law_wo_remove path o2) as (R1 & R2 & _).
  pose proof (law_wo_bind path (wo_remove_file path o2)) as Lb.
  destruct (wo_bind path (wo_remove_file path o2)) as [bound o3]. cbn in Lb.
  assert (wl_accepted o3 = wl_accepted o /\ wl_spawned o3 = wl_spawned o) as H3
    by (destruct Hs, Lh, Lb; split; congruence).
  destruct bound; [|injection E as <- <-; exists [], f; split; [by apply hands_over_nil|done]].
  pose proof (law_wo_nonblocking o3) as Ln. destruct (wo_set_nonblocking o3) as [[] o4]; cbn in Ln.
  2: { injection E as <- <-. exists [], f. split; [|done]. apply hands_over_nil. destruct H3, Ln. split; congruence. }
  destruct (accept_connections fuel f o4) as [[[[]|] o5]|] eqn:Ea; [|done|done]. injection E as <- <-.
  destruct (accept_connections_hands_over _ _ _ _ Ea) as (new & N1 & N2).
  destruct (law_wo_remove path o5) as (Q1 & Q2 & Q3). exists new, f. split.
  - destruct H3, Ln. split; congruence.
  - intros _. split; [done|]. by exists name, path.
Qed.
End served.
