(* ===== verification/Connect.v ===== *)
(** * How the guest's transport connects

    [connect_tcp_host] and [connect_vsock_host] of [vt-ferry-shim/src/transport.rs] over
    the socket calls they make; together they are the [net_connect] of [Transport]. *)

From S2P Require Import Prelude Wire Protocol Backend Transport.
From stdpp Require Import strings gmultiset.

Set Default Goal Selector "!".
Open Scope Z_scope.

Definition AF_VSOCK : Z := 40.
Definition HOST_CID : Z := 2.
Definition SOCK_STREAM : Z := 1.

Record SockAddrVm := mk_SockAddrVm {
  svm_family : Z;
  svm_reserved1 : Z;
  svm_port : Z;
  svm_cid : Z;
  svm_zero : list byte
}.

#[export] Instance SockAddrVm_pod : Pod SockAddrVm :=
  isoC (u16 ⊗ u16 ⊗ u32 ⊗ u32 ⊗ bytesC 4)%codec
    (fun '(x0, x1, x2, x3, x4) => mk_SockAddrVm x0 x1 x2 x3 x4)
    (fun r => (r.(svm_family), r.(svm_reserved1), r.(svm_port), r.(svm_cid), r.(svm_zero)))
    ltac:(solve_iso) ltac:(solve_iso).

Class RawSockets (os : Type) := {
  (** [TcpStream::connect], with name resolution. *)
  rw_tcp_connect (host : string) (port : Z) : os -> option Z * os;
  rw_set_nodelay (fd : Z) : os -> bool * os;
  rw_socket (domain type : Z) : os -> Z * os;
  rw_connect (fd : Z) (addr : list byte) : os -> Z * os;
  rw_close (fd : Z) : os -> os
}.

Section connect.
Context {os : Type} `{!RawSockets os}.

Definition connect_tcp_host (host : string) (port : Z) (o : os) : option Z * os :=
  match rw_tcp_connect host port o with
  | (None, o) => (None, o)
  | (Some stream, o) =>
      match rw_set_nodelay stream o with
      | (true, o) => (Some stream, o)
      | (false, o) => (None, rw_close stream o)
      end
  end.

Definition vsock_address (port : Z) : SockAddrVm :=
  mk_SockAddrVm AF_VSOCK 0 port HOST_CID (replicate 4 Byte.x00).

(** On Linux; elsewhere the connection fails. *)
Definition connect_vsock_host (linux : bool) (port : Z) (o : os) : option Z * os :=
  if negb linux then (None, o) else
  let '(fd, o) := rw_socket AF_VSOCK SOCK_STREAM o in
  if fd <? 0 then (None, o) else
  let '(rc, o) := rw_connect fd (bytes_of (vsock_address port)) o in
  if rc <? 0 then (None, rw_close fd o) else (Some fd, o).

(** What [net_connect] stands for. *)
Definition connect_host (linux : bool) (sel : StreamSelection) : os -> option Z * os :=
  match sel with
  | Tcp host port => connect_tcp_host host port
  | Vsock port => connect_vsock_host linux port
  end.
End connect.

(** The open descriptors. *)
Class RawLaws (os : Type) `{!RawSockets os} := {
  rw_fds : os -> gmultiset Z;
  law_rw_tcp host port o r o' : rw_tcp_connect host port o = (r, o') ->
    rw_fds o' = match r with Some fd => {[+ fd +]} ⊎ rw_fds o | None => rw_fds o end;
  law_rw_nodelay fd o : rw_fds (rw_set_nodelay fd o).2 = rw_fds o;
  law_rw_socket d t o fd o' : rw_socket d t o = (fd, o') ->
    rw_fds o' = if fd <? 0 then rw_fds o else {[+ fd +]} ⊎ rw_fds o;
  law_rw_connect fd addr o : rw_fds (rw_connect fd addr o).2 = rw_fds o;
  law_rw_close fd o : rw_fds (rw_close fd o) = rw_fds o ∖ {[+ fd +]}
}.

Lemma reopened (fd : Z) (X : gmultiset Z) : ({[+ fd +]} ⊎ X) ∖ {[+ fd +]} = X.
Proof. multiset_solver. Qed.

(** A connection that fails leaves no descriptor open, whichever call failed; one that
    succeeds opens the one it returns. *)
Theorem connect_host_balanced {os : Type} `{!RawSockets os} `{!RawLaws os} linux sel (o : os) r o' :
  connect_host linux sel o = (r, o') ->
  rw_fds o' = match r with Some fd => {[+ fd +]} ⊎ rw_fds o | None => rw_fds o end.
Proof.
  destruct sel as [host port|port]; cbn [connect_host]; intros E.
  - unfold connect_tcp_host in E. destruct (rw_tcp_connect host port o) as [[fd|] o1] eqn:Ec;
      pose proof (law_rw_tcp _ _ _ _ _ Ec) as L; [|by simplify_eq].
    pose proof (law_rw_nodelay fd o1) as Ln. destruct (rw_set_nodelay fd o1) as [[] o2]; cbn in Ln; simplify_eq.
    + by rewrite Ln.
    + by rewrite law_rw_close, Ln, L, reopened.
  - unfold connect_vsock_host in E. destruct linux; [|by simplify_eq/=]. cbn [negb] in E.
    destruct (rw_socket _ _ o) as [fd o1] eqn:Es. pose proof (law_rw_socket _ _ _ _ _ Es) as L.
    destruct (fd <? 0); [by simplify_eq|].
    pose proof (law_rw_connect fd (bytes_of (vsock_address port)) o1) as Lc.
    destruct (rw_connect _ _ o1) as [rc o2]. cbn in Lc. destruct (rc <? 0); simplify_eq.
    + by rewrite law_rw_close, Lc, L, reopened.
    + by rewrite Lc.
Qed.

(** The address names the host and the port: 16 bytes, from which both are read back. *)
Theorem vsock_address_roundtrip port : 0 <= port < 2 ^ 32 ->
  length (bytes_of (vsock_address port)) = 16%nat /\
  pod_read_unaligned (bytes_of (vsock_address port)) = vsock_address port.
Proof.
  intros Hp. assert (pod_ok (vsock_address port) = true) as Hok.
  { apply (uint_ok_spec 4) in Hp. unfold vsock_address. pod_ok_split; first [done|exact Hp]. }
  split; [by rewrite length_bytes_of|by apply pod_read_bytes_of].
Qed.
