(* ===== verification/Probe.v ===== *)
(** * The hypervisor probe

    [hvf-iosurface-probe/src/main.rs]: five attempts to map host memory into a guest,
    each undone before the next.  The theorems: the sizes are page-rounded, the guest
    ranges of the attempts are page-aligned and disjoint ([probe_ranges_apart]), and a
    probe that returns [Ok] has closed what it opened ([probe_cleans_up]). *)

From S2P Require Import Prelude Wire Protocol Layout Backend Broker.
From stdpp Require Import strings gmultiset.

Set Default Goal Selector "!".
Open Scope Z_scope.

Definition HV_SUCCESS : Z := 0.
Definition HV_MEMORY_READ : Z := Z.shiftl 1 0.
Definition HV_MEMORY_WRITE : Z := Z.shiftl 1 1.
Definition HV_MEMORY_EXEC : Z := Z.shiftl 1 2.
Definition hv_flags_rwx : Z := Z.lor (Z.lor HV_MEMORY_READ HV_MEMORY_WRITE) HV_MEMORY_EXEC.

Inductive probe_error := VmCreateFailed (code : Z) | MmapFailed | SurfaceNull.

Class ProbeOs (os : Type) := {
  po_page_size : os -> Z;
  hv_vm_create : os -> Z * os;
  hv_vm_destroy : os -> os;
  hv_vm_map (host_va guest_ipa size flags : Z) : os -> Z * os;
  hv_vm_unmap (guest_ipa size : Z) : os -> Z * os;
  po_mmap (size : Z) : os -> option Z * os;
  po_munmap (addr size : Z) : os -> os;
  po_surface_create (properties : list (string * Z)) : os -> Z * os;
  po_alloc_size : os -> Z -> Z;
  po_base_address : os -> Z -> Z;
  po_lock (surface : Z) : os -> Z * os;
  po_unlock (surface : Z) : os -> os;
  po_release (surface : Z) : os -> os;
  (** [kr] and the alias. *)
  po_remap (base size : Z) : os -> (Z * Z) * os;
  po_mlock (addr size : Z) : os -> Z * os
}.

(** The numbers of the dictionary: [CFNumberCreate] reads an [int]. *)
Definition probe_properties (width height : Z) : list (string * Z) :=
  let bytes_per_row := width * 4 in
  [ ("IOSurfaceWidth"%string, cf_number_i32 width);
    ("IOSurfaceHeight"%string, cf_number_i32 height);
    ("IOSurfaceBytesPerElement"%string, cf_number_i32 4);
    ("IOSurfaceBytesPerRow"%string, cf_number_i64 bytes_per_row);
    ("IOSurfaceAllocSize"%string, cf_number_i64 (bytes_per_row * height));
    ("IOSurfacePixelFormat"%string, cf_number_i32 BGRA_FOURCC) ].

Definition round_up_to_page `{!Profile} (v ps : Z) : rust Z :=
  sum ← arith 64 (v + ps);
  top ← arith 64 (sum - 1);
  mask ← arith 64 (ps - 1);
  mret (Z.land top (u_not 64 mask)).

(** The guest ranges of the five attempts, for pages of [ps] bytes and a surface of [size]. *)
Definition first_ipa : Z := 0x400000000.
Definition probe_ranges `{!Profile} (ps size : Z) : rust (list (Z * Z)) :=
  anon_size ← arith 64 (2 * ps);
  direct ← arith 64 (first_ipa + anon_size);
  alias ← arith 64 (direct + size);
  alias_mlock ← arith 64 (alias + size);
  twice ← arith 64 (2 * size);
  direct_mlock ← arith 64 (alias + twice);
  mret [ (first_ipa, anon_size); (direct, size); (alias, size); (alias_mlock, size); (direct_mlock, size) ].

Section probe.
Context {os : Type} `{!ProbeOs os} `{!Profile}.

(** Map, and unmap what was mapped. *)
Definition try_hv_vm_map (host_va : Z) (range : Z * Z) (o : os) : os :=
  let '(guest_ipa, size) := range in
  match hv_vm_map host_va guest_ipa size hv_flags_rwx o with
  | (ret, o) => if ret =? HV_SUCCESS then (hv_vm_unmap guest_ipa size o).2 else o
  end.

(** Experiments 2 to 5 on a locked surface. *)
Definition surface_experiments (surface size : Z) (ranges : list (Z * Z)) (o : os) : os :=
  let base := po_base_address o surface in
  match ranges with
  | [_; direct; alias_range; alias_mlock; direct_mlock] =>
      let o := try_hv_vm_map base direct o in
      let '((kr, alias), o) := po_remap base size o in
      let aliased := (kr =? KERN_SUCCESS) && negb (alias =? 0) in
      let o := if aliased then try_hv_vm_map alias alias_range o else o in
      let o := if aliased then try_hv_vm_map alias alias_mlock (po_mlock alias size o).2 else o in
      try_hv_vm_map base direct_mlock (po_mlock base size o).2
  | _ => o
  end.

Definition probe_main (o : os) : rust ((unit + probe_error) * os) :=
  let ps := po_page_size o in
  let '(cr, o) := hv_vm_create o in
  if negb (cr =? HV_SUCCESS) then Val (inr (VmCreateFailed cr), o) else
  size ← arith 64 (2 * ps);
  match po_mmap size o with
  | (None, o) => Val (inr MmapFailed, o)
  | (Some anon, o) =>
      let o := try_hv_vm_map anon (first_ipa, size) o in
      let '(surface, o) := po_surface_create (probe_properties 128 72) o in
      if surface =? 0 then Val (inr SurfaceNull, o) else
      iosurf_size ← round_up_to_page (po_alloc_size o surface) ps;
      let '(_, o) := po_lock surface o in
      ranges ← probe_ranges ps iosurf_size;
      let o := surface_experiments surface iosurf_size ranges o in
      Val (inl tt, hv_vm_destroy (po_munmap anon size (po_release surface (po_unlock surface o))))
  end.
End probe.

(** ** Page rounding *)

Lemma round_up_to_page_spec `{!Profile} k v : 0 <= k <= 62 -> 0 <= v < 2 ^ 62 ->
  exists r, round_up_to_page v (2 ^ k) = Val r /\ r mod 2 ^ k = 0 /\ v <= r < v + 2 ^ k.
Proof.
  intros Hk Hv. assert (0 < 2 ^ k <= 2 ^ 62) as Hp by (split; [lia|apply Z.pow_le_mono_r; lia]).
  unfold round_up_to_page. do 3 (rewrite arith_in by lia; cbn [mbind rust_bind]). cbn [mret rust_ret]. rewrite land_u_not by lia. eexists. split; [done|].
  pose proof (Z.div_mod (v + 2 ^ k - 1) (2 ^ k) ltac:(lia)) as Hd.
  pose proof (Z.mod_pos_bound (v + 2 ^ k - 1) (2 ^ k) ltac:(lia)).
  split; [rewrite Z.mul_comm; apply Z.mod_mul; lia|lia].
Qed.

(** On pages of a power of two, for a surface of up to 2^60 bytes, nothing overflows, and the
    ranges of the five attempts are page-aligned, hold the surface and follow one another. *)
Theorem probe_ranges_apart `{!Profile} k alloc : 0 <= k <= 30 -> 0 <= alloc < 2 ^ 60 ->
  exists size ranges, round_up_to_page alloc (2 ^ k) = Val size /\ probe_ranges (2 ^ k) size = Val ranges /\
    alloc <= size < alloc + 2 ^ k /\
    Forall (fun r => r.1 mod 2 ^ k = 0 /\ r.2 mod 2 ^ k = 0) ranges /\
    forall i r r', ranges !! i = Some r -> ranges !! S i = Some r' -> r.1 + r.2 = r'.1.
Proof.
  intros Hk Ha. assert (0 < 2 ^ k <= 2 ^ 30) as Hp by (split; [lia|apply Z.pow_le_mono_r; lia]).
  destruct (round_up_to_page_spec k alloc) as (size & E & Hm & Hs); [lia|lia|].
  exists size. unfold probe_ranges, first_ipa. do 6 (rewrite arith_in by lia; cbn [mbind rust_bind]).
  eexists. split_and!; [exact E|done|lia|lia| |].
  - assert (0x400000000 mod 2 ^ k = 0) as Hf.
    { replace 0x400000000 with (2 ^ (34 - k) * 2 ^ k) by (rewrite <- Z.pow_add_r by lia; by replace (34 - k + k) with 34 by lia).
      apply Z.mod_mul. lia. }
    assert (forall a b, a mod 2 ^ k = 0 -> b mod 2 ^ k = 0 -> (a + b) mod 2 ^ k = 0) as Hadd
      by (intros a b H1 H2; by rewrite Z.add_mod, H1, H2, Z.mod_0_l by lia).
    assert ((2 * 2 ^ k) mod 2 ^ k = 0) as H2 by (apply Z.mod_mul; lia).
    assert ((2 * size) mod 2 ^ k = 0) as H2s by (rewrite Z.mul_mod, Hm, Z.mul_0_r, Z.mod_0_l by lia; done).
    repeat constructor; cbn [fst snd]; auto.
  - intros i r r' H1 H2. do 5 (destruct i as [|i]; [cbn in H1, H2; simplify_eq/=; lia|]). done.
Qed.

(** ** What is left open *)

(** The virtual machine, its mapped ranges, the anonymous pages and the surface. *)
Class ProbeLaws (os : Type) `{!ProbeOs os} := {
  po_open : os -> gmultiset (string * Z);
  law_vm_create o : po_open (hv_vm_create o).2 =
    if (hv_vm_create o).1 =? HV_SUCCESS then {[+ ("vm"%string, 0) +]} ⊎ po_open o else po_open o;
  law_vm_destroy o : po_open (hv_vm_destroy o) = po_open o ∖ {[+ ("vm"%string, 0) +]};
  law_vm_map va ipa size flags o : po_open (hv_vm_map va ipa size flags o).2 =
    if (hv_vm_map va ipa size flags o).1 =? HV_SUCCESS then {[+ ("guest"%string, ipa) +]} ⊎ po_open o else po_open o;
  law_vm_unmap ipa size o : po_open (hv_vm_unmap ipa size o).2 = po_open o ∖ {[+ ("guest"%string, ipa) +]};
  law_mmap size o : po_open (po_mmap size o).2 =
    match (po_mmap size o).1 with Some a => {[+ ("pages"%string, a) +]} ⊎ po_open o | None => po_open o end;
  law_munmap a size o : po_open (po_munmap a size o) = po_open o ∖ {[+ ("pages"%string, a) +]};
  law_surface props o : po_open (po_surface_create props o).2 =
    if (po_surface_create props o).1 =? 0 then po_open o
    else {[+ ("surface"%string, (po_surface_create props o).1) +]} ⊎ po_open o;
  law_po_release s o : po_open (po_release s o) = po_open o ∖ {[+ ("surface"%string, s) +]};
  law_po_lock s o : po_open (po_lock s o).2 = po_open o;
  law_po_unlock s o : po_open (po_unlock s o) = po_open o;
  law_po_remap base size o : po_open (po_remap base size o).2 = po_open o;
  law_po_mlock a size o : po_open (po_mlock a size o).2 = po_open o
}.

Section cleans_up.
Context {os : Type} `{!ProbeOs os} `{!ProbeLaws os} `{!Profile}.

Lemma put_back (x : string * Z) (X : gmultiset (string * Z)) : ({[+ x +]} ⊎ X) ∖ {[+ x +]} = X.
Proof. multiset_solver. Qed.

Lemma try_map_open va r (o : os) : po_open (try_hv_vm_map va r o) = po_open o.
Proof.
  unfold try_hv_vm_map. destruct r as [ipa size]. pose proof (law_vm_map va ipa size hv_flags_rwx o) as L.
  destruct (hv_vm_map va ipa size hv_flags_rwx o) as [ret o1]. cbn [fst snd] in L. revert L.
  destruct (ret =? HV_SUCCESS); intros L; [|done]. by rewrite law_vm_unmap, L, put_back.
Qed.

Lemma experiments_open s size ranges (o : os) : po_open (surface_experiments s size ranges o) = po_open o.
Proof.
  unfold surface_experiments.
  destruct ranges as [|r1 [|r2 [|r3 [|r4 [|r5 [|? ?]]]]]]; try done.
  pose proof (law_po_remap (po_base_address o s) size (try_hv_vm_map (po_base_address o s) r2 o)) as L.
  destruct (po_remap _ _ _) as [[kr alias] o1]. cbn in L. rewrite try_map_open, law_po_mlock.
  destruct (_ && _); by rewrite ?try_map_open, ?law_po_mlock, ?try_map_open, L, try_map_open.
Qed.

(** A probe that returns [Ok] has closed the virtual machine, the pages and the surface and
    has nothing mapped. *)
Theorem probe_cleans_up (o o' : os) : probe_main o = Val (inl tt, o') -> po_open o' = po_open o.
Proof.
  unfold probe_main. pose proof (law_vm_create o) as L1. destruct (hv_vm_create o) as [cr o1]. cbn [fst snd] in L1. revert L1.
  destruct (cr =? HV_SUCCESS); intros L1; [|done]. cbn [negb]. destruct (arith 64 _) as [size|]; [|done]. cbn [mbind rust_bind].
  pose proof (law_mmap size o1) as L2. destruct (po_mmap size o1) as [[anon|] o2]; [|done]. cbn [fst snd] in L2.
  pose proof (law_surface (probe_properties 128 72) (try_hv_vm_map anon (first_ipa, size) o2)) as L3.
  destruct (po_surface_create _ _) as [s o3]. cbn [fst snd] in L3. revert L3.
  destruct (s =? 0); intros L3; [done|].
  destruct (round_up_to_page _ _) as [sz|]; [|done]. cbn [mbind rust_bind].
  pose proof (law_po_lock s o3) as L4. destruct (po_lock s o3) as [lk o4]. cbn in L4.
  destruct (probe_ranges _ _) as [ranges|]; [|done]. cbn [mbind rust_bind]. intros [= <-].
  rewrite law_vm_destroy, law_munmap, law_po_release, law_po_unlock, experiments_open, L4, L3, try_map_open, L2, L1.
  by rewrite !put_back.
Qed.
End cleans_up.
